(* ===== verification/_CoqProject ===== *)
-Q . S2P
Prelude.v
Budget.v
Instant.v
Crypto.v
Rand.v
Tags.v
Packet.v
Replay.v
Session.v
RateLimiter.v
HeaderProtection.v
Amnezia.v
Framing.v
Handshake.v
Dns.v
Stun.v
Quic.v
Sip.v
QuicProfiles.v
QuicTls.v
QuicInitial.v
QuicGenerator.v
QuicFingerprint.v
QuicParity.v
Imitation.v
Fillers.v
ProbeBudget.v
ReplyPolicy.v
ProbeReply.v
Text.v
AddrText.v
ApiTransport.v
UdpDiagnostics.v
ImitationHints.v
AllowedIps.v
PeerIndex.v
Inbound.v
Timers.v
OpReport.v
Tunn.v
TunnLogic.v
TunnOutput.v
TunnSend.v
TunnReceive.v
TunnInput.v
TunnTick.v
TunnPoll.v
TunnConfig.v
Peer.v
Device.v
DeviceData.v
TunnSystem.v
TunnExamples.v
TunnTheorems.v
TunnExchange.v
DeviceTables.v
DeviceSafe.v
DeviceSystem.v
DeviceExamples.v
DeviceTheorems.v
DevLock.v
Listeners.v
ListenerTheorems.v
Uapi.v
UapiSpec.v
UapiSafe.v
UapiRoundtrip.v
UapiPeers.v
UapiTheorems.v
