(* ===== verification/Prelude.v ===== *)
(** * A verification development for wiresock-boringtun

    The repository is a userspace WireGuard tunnel in Rust, extended with the
    AmneziaWG obfuscation: tag ranges, junk prefixes, header protection,
    random trailers, content padding, tunable timers and a pre-handshake burst
    that imitates another protocol. The core -- [src/boringtun/src/noise] -- is
    a state machine, [Tunn], that performs no input or output of its own: each
    call takes a buffer, changes the state and returns the one datagram to
    write. Around it the device -- [src/boringtun/src/device] -- keeps the peers
    and their routes, finds the tunnel a datagram or a packet is for, writes
    what the tunnel returns, and is configured by a text protocol over control
    connections. This library is a shallow embedding of the core and
    of the device's logic: every pure function is a Rocq function, every handler
    a state-passing function that can be evaluated, and the theorems are about
    those functions.

    ** Conventions

    A machine integer or a length is a [Z], with its wrap-around ([wrap8],
    [wrap32], [wrap64]) or saturation ([sat_sub], [sat_add]) written where the
    code has it. Bytes are [list byte]; a mutable slice is the list of its
    contents. Durations and clock readings are [Z] nanoseconds. [result] is
    Rust's [Result]; [outcome] adds the panic ([Ret] or [Panic]) where the code
    can panic -- an index, a slice, a subtraction of durations -- and
    [safely o Q] says that [o] does not panic and satisfies [Q]. Loops are
    structural recursions, or carry fuel computed from the data, with a lemma
    that the fuel is enough ([Replay.fuel_to], [Rand.draw_below],
    [Dns.qname_walk], [Stun.fingerprint_walk], the TLS walks of
    [QuicFingerprint]); the loop that flushes a tunnel's queue has fuel, ends
    on every queue, and its result does not depend on more
    ([DeviceSafe.flush_ends_always], [DeviceSystem.step_stable]); the padding of a QUIC Initial converges within the
    eight rounds the code allows itself ([QuicInitial.padding_exact]).

    Code outside the repository is a parameter. The hash, the MAC, the AEAD,
    the ChaCha20 keystream and X25519 are the class [Crypto], and what the
    theorems use of them -- the lengths, decryption of what was sealed,
    agreement of the two Diffie-Hellman sides -- is the class [CryptoLaws]; the
    instance [Toy] shows the laws can hold and lets examples run. A random
    generator is [RngCore]/[RngLaws], with the instance [CounterRng].
    The primitives of a QUIC Initial -- HKDF's HMAC, AES-GCM, the AES block of
    header protection -- are [QuicCrypto]/[QuicCryptoLaws], with the instance
    [ToyQuic]. HMAC-SHA1, the host's STUN software string and the QUIC
    primitives make up [ImitationEnv]. The prefix table of the allowed IPs is
    [NetworkTable]/[NetworkTableLaws], with the instance [ListTable]. The
    operating system's clock and entropy are arguments: one clock reading and
    one ephemeral key per call of a tunnel ([DeviceData.Call]). So is its answer
    when a connected socket is opened or its handler registered
    ([DeviceData.Upgrade]), and so are its answers when listening sockets are
    bound and marked ([Listeners.BindCalls], [Listeners.MarkCalls]) and what a
    configuration request finds on its host ([Uapi.Host]); what a handler writes
    is a list of [Effect]s. The base64 decoder is the class [Uapi.Base64]; the
    mutex, the condition variable and the read/write lock of the crate
    parking_lot are steps of [DevLock], where a function says which waiting
    reader the crate admits.

    ** The files

    - [Prelude]: integers, outcomes, byte strings, tactics and hints.
    - [Budget] (budget.rs, errors.rs): the output budget and its admission.
    - [Instant] (sleepyinstant): arithmetic of Unix instants.
    - [Crypto] (handshake.rs): the wrappers over the primitives.
    - [Rand] (amnezia.rs): uniform draws by rejection, random fills.
    - [Tags] (handshake.rs): [ObfuscationRanges], the H1-H4 tag ranges.
    - [Packet] (mod.rs): the four packet layouts, inner-packet validation.
    - [Replay] (session.rs): the receive window, a circular bitmap, refined to
      the set of accepted counters.
    - [Session] (session.rs): transport sealing and opening.
    - [RateLimiter] (rate_limiter.rs): load decisions, the per-source count
      table, cookies and the handshake gate.
    - [HeaderProtection] (header_protection.rs): header masks.
    - [Amnezia] (amnezia.rs, timers.rs): the configuration, its validation and
      the quantities computed from it.
    - [Framing] (amnezia.rs): from packet to datagram and back.
    - [Handshake] (handshake.rs): the Noise IKpsk2 handshake.
    - [Dns], [Stun], [Sip], [Quic] (imitation/, quic/): the imitated protocols.
    - [QuicProfiles], [QuicTls], [QuicInitial], [QuicGenerator] (quic/): the
      browser profiles, the TLS ClientHello, its fragmentation into CRYPTO
      frames, and the protected Initial datagrams that carry it.
    - [QuicFingerprint] (quic/fingerprint.rs): the decoder, from datagrams back
      to the fingerprint of the ClientHello; [QuicParity]: the decoder on what
      the generator sends.
    - [Imitation] (imitation/detect.rs, auto.rs, amnezia.rs): the probe
      classifier, Auto mode, the imitation burst.
    - [Fillers] (amnezia.rs): the fillers of prefixes and junk datagrams, the
      instance of the interface [Framing.PrefixFillers].
    - [ProbeBudget], [ReplyPolicy], [ProbeReply] (device/): the device's replies
      to probes: the budget, also under every interleaving of its workers, the
      addresses that may be answered, the order of classification.
    - [Text], [AddrText]: what the code uses of the standard library's reading
      and printing of integers and addresses.
    - [ApiTransport] (device/api_transport.rs): a control connection: framing,
      deadlines, limits, and the replies still to write.
    - [UdpDiagnostics] (device/udp_diagnostics.rs): what is logged of the errors
      of the device's sockets, and how often.
    - [ImitationHints] (device/imitation_auto.rs): which protocol each source
      imitated.
    - [AllowedIps] (device/allowed_ips.rs): the routes of the peers.
    - [PeerIndex] (device/mod.rs): the shift register of peer indices.
    - [Inbound] (inbound.rs): which reading of a datagram is accepted.
    - [Timers] (timers.rs), [OpReport] (op_report.rs): parts of the tunnel's
      state.
    - [Tunn] (mod.rs, timers.rs): the tunnel's state and a small state monad;
      encapsulation, initiations, the burst, the queue.
    - [TunnReceive] (mod.rs): decapsulation and the commit of each packet kind.
    - [TunnTick] (timers.rs): the periodic tick.
    - [TunnConfig] (mod.rs, timers.rs, op_report.rs): construction,
      reconfiguration and operation reports.
    - [TunnLogic]: weakest preconditions for the monad, the invariant [tunn_ok]
      of a tunnel and the relations the operations keep.
    - [TunnOutput], [TunnSend], [TunnInput], [TunnPoll]: specifications of the
      operations, every branch: framing and initiations, the burst and the
      queue, the receive path, the poll.
    - [TunnSystem]: the interface as one type of operations, [Op], and any
      sequence of them, [run].
    - [TunnExamples]: two concrete tunnels, from construction to delivery.
    - [TunnTheorems]: what a tunnel promises its caller.
    - [TunnExchange]: two tunnels facing each other.
    - [Peer] (device/peer.rs), [Device] (device/mod.rs): a peer, the tables, and
      the operations of the configuration. Peers are shared by the tables and
      the handlers: they live on a heap, [store], and the tables hold locations.
    - [DeviceData] (device/mod.rs): the handlers of the listening sockets, of
      connected sockets, of the interface and of the timers.
    - [DeviceTables], [DeviceSafe]: the invariant [device_ok] and what each
      operation and each handler does.
    - [DeviceSystem]: the device as a state machine, [device_step], and its
      [runs]; [DeviceExamples]: a device with a peer that shakes hands;
      [DeviceTheorems]: what the device promises.
    - [DevLock] (device/dev_lock.rs): the device's lock with its cooperative
      upgrades, any number of threads, one operation of a primitive at a time.
    - [Listeners] (device/mod.rs, epoll.rs): the listening sockets, their events
      and the mark of every socket; [ListenerTheorems]: they change together or
      not at all.
    - [Uapi] (device/api.rs, device/peer.rs, serialization.rs): the text
      protocol, set=1 and get=1. [UapiSpec] is its reference: what each line
      stages; [UapiSafe], [UapiRoundtrip], [UapiPeers]: the operations against
      it; [UapiTheorems]: what a request does.

    ** What the theorems show

    The handshake completes between two ends configured for each other and
    yields the same keys, never accepts an initiation twice, and its cookie
    exchange works. The replay window decides exactly as the set it abbreviates;
    a transport packet is delivered once, and no nonce is used twice. A framed
    datagram is always among its receiver's readings and respects every limit
    on its size. The limiter charges a datagram once, passes nothing free, and
    bounds each source by its share, or by twice that where calls overlap. The configuration's validation is sound,
    padding and learned imitation cannot break a deliverable or protected
    datagram. The QUIC Initials generated for a browser profile decode to that
    profile's fingerprint. Generated imitation traffic is recognised by the
    classifier, and
    the replies to probes neither amplify nor loop.

    Of the tunnel: whatever calls are made, none panics, the invariant holds
    and every output fits. A packet handed in is sent, queued once or refused;
    the queue keeps its order; a datagram nobody authenticated changes nothing
    but counts and evidence. A burst ends in its initiation; a poll removes the
    expired sessions and no other, gives back what it could not send, and
    reports expiry only at the end of a cycle; reconfiguring keeps the traffic
    state. Of two tunnels: the handshake ends with both having selected
    sessions that are each other's, and what one sends the other delivers,
    once. These last two assume that a datagram does not also authenticate as a
    kind it was not sent as ([TunnExchange.sole_reading]).

    Of the device: from its start on, whatever comes in whatever order, its
    tables agree, each peer is keyed and framed as the device is, and each step
    ends without a panic -- as long as fewer peers have been created than there
    are indices, 2^24-2, all of them distinct. An update of a peer changes the
    routes as asked, and an address routes to its longest prefix. A datagram
    that authenticates for no peer changes no peer and provokes at most one
    bounded answer; one that does acts on its peer alone, and what it carries is
    delivered exactly if the peer owns the source address. The endpoint follows
    authenticated packets only. A packet from the interface goes to the peer
    that owns its destination. A removed peer stays silent whatever its old
    sockets still receive.

    Of its configuration: a control connection serves exactly the frames of its
    stream, in whatever pieces they arrive. An ASCII request never panics and
    leaves the device well formed; its AmneziaWG parameters are applied together
    or not at all, in whatever order and also when a malformed line follows; what get=1 prints sets the same
    configuration again; a request of peer sections commits each as it was
    written. Two theorems show defects: a key whose digits are cut inside a
    character panics, and a line that is not UTF-8 drops what was staged before it without
    an error. A rebind of the listening sockets
    that fails leaves everything as it was; a mark is stored only when every
    socket carries it. Under every interleaving of its threads, panics included,
    the device's lock is exclusive and loses no wake-up. What is logged of the
    sockets' errors is bounded in time, over all the peers, and tells of a failure's episodes as
    they were.

    ** Not modelled

    - Threads: atomics and mutexes are read as one sequential operation, except
      in the probe budget, in the table of per-source counts and in the device's
      lock, whose theorems are about every interleaving; the limiter's gate uses
      the counts as calls that do not overlap. A step of the device is what runs under the device's
      lock for one datagram, packet or update; steps of several workers follow
      each other in any order, and within one the peer's lock is held.
    - Loss estimation ([estimate_loss], floating point) and the wording of log
      messages.
    - The event queue itself (epoll, kqueue), the interface, accepting control
      connections and the watchdog that closes them, the creation of the
      control socket, dropping privileges, the C and Java bindings and the
      command line: system calls, and conversions around what is modelled.
    - The scope id of an IPv6 endpoint, which is read and not kept, and so not
      printed; and the wrap of the probe budget's 32-bit clock, which its
      theorems keep below 2^32 milliseconds, some 49 days.
    - Requests that are not ASCII, beyond the two theorems above; the theorems
      on requests that succeed are for ASCII text.
    - Darwin's error numbers and system calls; the model follows Linux. *)

From stdpp Require Export base list numbers sets.
From coqutil Require Export Byte Word.LittleEndianList.
From Stdlib Require Export ZArith Lia.

Declare Scope wg_scope.
Delimit Scope wg_scope with wg.
#[global] Open Scope Z_scope.
#[global] Open Scope wg_scope.

(** ** Results and panics

    [result] is Rust's [Result]; [outcome] is the observable behaviour of a
    call that may panic (slice index out of range, [Duration] subtraction
    below zero): the code that cannot panic does not use it. *)

Inductive result (E A : Type) :=
| Ok (a : A)
| Err (e : E).
Arguments Ok {E A} a.
Arguments Err {E A} e.

Inductive outcome (A : Type) :=
| Ret (a : A)
| Panic.
Arguments Ret {A} a.
Arguments Panic {A}.

Definition rbind {E A B} (m : result E A) (k : A -> result E B) : result E B :=
  match m with Ok a => k a | Err e => Err e end.

Definition obind {A B} (m : outcome A) (k : A -> outcome B) : outcome B :=
  match m with Ret a => k a | Panic => Panic end.

Notation "'let?' x ':=' m 'in' k" := (rbind m (fun x => k))
  (at level 10, x name, m at level 100, k at level 200) : wg_scope.
Notation "'let!' x ':=' m 'in' k" := (obind m (fun x => k))
  (at level 10, x pattern, m at level 100, k at level 200) : wg_scope.

Definition is_ok {E A} (r : result E A) : bool :=
  match r with Ok _ => true | Err _ => false end.
Definition is_err {E A} (r : result E A) : bool :=
  match r with Ok _ => false | Err _ => true end.

(** The value of a result known to be [Ok]. *)
Definition fst_ok {E A} (r : result E (list A)) : list A :=
  match r with Ok a => a | Err _ => [] end.

(** The weakest precondition of a call that must not panic. *)
Definition safely {A} (m : outcome A) (Q : A -> Prop) : Prop :=
  match m with Ret a => Q a | Panic => False end.

Lemma safely_bind {A B} (m : outcome A) (k : A -> outcome B) (Q : B -> Prop) :
  safely m (fun a => safely (k a) Q) -> safely (obind m k) Q.
Proof. by destruct m. Qed.

Lemma safely_mono {A} (m : outcome A) (P Q : A -> Prop) :
  safely m P -> (forall a, P a -> Q a) -> safely m Q.
Proof. destruct m; simpl; auto. Qed.

(** ** Machine integers

    A machine integer is a [Z] in range; the operations below are the
    wrapping, saturating and truncating ones the code uses. *)

Definition u8_max : Z := 2 ^ 8 - 1.
Definition u16_max : Z := 2 ^ 16 - 1.
Definition u32_max : Z := 2 ^ 32 - 1.
Definition u64_max : Z := 2 ^ 64 - 1.
(** [usize] of the 64-bit targets. *)
Definition usize_max : Z := 2 ^ 64 - 1.

Definition in_u8 (z : Z) : Prop := 0 <= z <= u8_max.
Definition in_u16 (z : Z) : Prop := 0 <= z <= u16_max.
Definition in_u32 (z : Z) : Prop := 0 <= z <= u32_max.
Definition in_u64 (z : Z) : Prop := 0 <= z <= u64_max.

Definition wrap8 (z : Z) : Z := z mod 2 ^ 8.
Definition wrap32 (z : Z) : Z := z mod 2 ^ 32.
Definition wrap64 (z : Z) : Z := z mod 2 ^ 64.

Definition sat_sub (a b : Z) : Z := Z.max 0 (a - b).
Definition sat_add (max a b : Z) : Z := Z.min max (a + b).
Definition checked_add (max a b : Z) : option Z :=
  if a + b <=? max then Some (a + b) else None.

(** ** Durations and instants: nanoseconds. *)

Definition nanos_per_sec : Z := 1000000000.
Definition from_secs (s : Z) : Z := s * nanos_per_sec.
Definition from_millis (ms : Z) : Z := ms * 1000000.
Definition as_secs (d : Z) : Z := d / nanos_per_sec.
Definition as_millis (d : Z) : Z := d / 1000000.
(** [Duration - Duration], which panics below zero. *)
Definition dur_sub (a b : Z) : outcome Z :=
  if a <? b then Panic else Ret (a - b).

Lemma dur_sub_safely a b (Q : Z -> Prop) : b <= a -> Q (a - b) -> safely (dur_sub a b) Q.
Proof. intros ??. unfold dur_sub. by destruct (Z.ltb_spec a b); [lia|]. Qed.

(** ** Byte strings, indexed by [Z] as the code indexes them by [usize]. *)

Abbreviation bytes := (list Init.Byte.byte).

#[export] Instance byte_eq_dec : EqDecision Init.Byte.byte := Strings.Byte.byte_eq_dec.

Definition len {A} (l : list A) : Z := Z.of_nat (length l).
Definition ztake {A} (n : Z) (l : list A) : list A := take (Z.to_nat n) l.
Definition zdrop {A} (n : Z) (l : list A) : list A := drop (Z.to_nat n) l.
(** [l[lo..hi]]; a caller that could be out of range checks the length. *)
Definition slice {A} (lo hi : Z) (l : list A) : list A := ztake (hi - lo) (zdrop lo l).
Definition zreplicate {A} (n : Z) (x : A) : list A := replicate (Z.to_nat n) x.
Definition zeros (n : Z) : bytes := zreplicate n Byte.x00.
(** [l.get(i)] and [l[i] = x] (the latter only where [i] is in range). *)
Definition zget {A} (l : list A) (i : Z) : option A :=
  if i <? 0 then None else l !! Z.to_nat i.
Definition zset {A} (l : list A) (i : Z) (x : A) : list A :=
  if i <? 0 then l else <[Z.to_nat i := x]> l.

Definition to_le (n : nat) (z : Z) : bytes := le_split n z.
Definition of_le (bs : bytes) : Z := le_combine bs.
Definition to_be (n : nat) (z : Z) : bytes := rev (le_split n z).
Definition of_be (bs : bytes) : Z := le_combine (rev bs).

(** The big-endian fields at offset [i], for an offset the code has checked. *)
Definition byte_at (data : bytes) (i : Z) : Z := of_be (slice i (i + 1) data).
Definition be16 (data : bytes) (i : Z) : Z := of_be (slice i (i + 2) data).
Definition be32 (data : bytes) (i : Z) : Z := of_be (slice i (i + 4) data).

Definition xor_bytes (a b : bytes) : bytes := zip_with byte.xor a b.

(** ** Automation *)

Create Rewrite HintDb len.
Create HintDb wg.

Section Lengths.
Context {A : Type}.
Implicit Types l : list A.

Lemma len_nonneg l : 0 <= len l.
Proof. unfold len. lia. Qed.
Lemma len_nil : len (@nil A) = 0.
Proof. done. Qed.
Lemma len_cons x l : len (x :: l) = 1 + len l.
Proof. unfold len. simpl. lia. Qed.
Lemma len_app l1 l2 : len (l1 ++ l2) = len l1 + len l2.
Proof. unfold len. rewrite length_app. lia. Qed.
Lemma len_rev l : len (rev l) = len l.
Proof. unfold len. by rewrite length_rev. Qed.
Lemma len_ztake n l : len (ztake n l) = Z.max 0 (Z.min n (len l)).
Proof. unfold len, ztake. rewrite length_take. lia. Qed.
Lemma len_zdrop n l : len (zdrop n l) = len l - Z.max 0 (Z.min n (len l)).
Proof. unfold len, zdrop. rewrite length_drop. lia. Qed.
Lemma len_zreplicate n (x : A) : len (zreplicate n x) = Z.max 0 n.
Proof. unfold len, zreplicate. rewrite length_replicate. lia. Qed.
Lemma len_zset l i x : len (zset l i x) = len l.
Proof. unfold zset, len. destruct (_ <? _); [done|]. by rewrite length_insert. Qed.

Lemma len_slice lo hi l : 0 <= lo <= hi -> hi <= len l -> len (slice lo hi l) = hi - lo.
Proof. intros. unfold slice. rewrite len_ztake, len_zdrop. lia. Qed.

Lemma ztake_all n l : len l <= n -> ztake n l = l.
Proof. unfold len, ztake. intros. apply take_ge. lia. Qed.
Lemma ztake_app_exact n l1 l2 : n = len l1 -> ztake n (l1 ++ l2) = l1.
Proof. intros ->. unfold ztake, len. rewrite Nat2Z.id. by rewrite take_app_length. Qed.
Lemma zdrop_app_exact n l1 l2 : n = len l1 -> zdrop n (l1 ++ l2) = l2.
Proof. intros ->. unfold zdrop, len. rewrite Nat2Z.id. by rewrite drop_app_length. Qed.
Lemma ztake_zdrop n l : ztake n l ++ zdrop n l = l.
Proof. apply take_drop. Qed.
Lemma ztake_zero n l : n <= 0 -> ztake n l = [].
Proof. intros. unfold ztake. by replace (Z.to_nat n) with 0%nat by lia. Qed.
Lemma zdrop_zero n l : n <= 0 -> zdrop n l = l.
Proof. intros. unfold zdrop. by replace (Z.to_nat n) with 0%nat by lia. Qed.
Lemma zdrop_app_ge n l1 l2 : len l1 <= n -> zdrop n (l1 ++ l2) = zdrop (n - len l1) l2.
Proof. unfold zdrop, len. intros. rewrite drop_app_ge by lia. f_equal. lia. Qed.
Lemma ztake_app_le n l1 l2 : n <= len l1 -> ztake n (l1 ++ l2) = ztake n l1.
Proof. unfold ztake, len. intros. apply take_app_le. lia. Qed.

(** A field of a concatenation of fields. *)
Lemma slice_app_skip lo hi l1 l2 :
  len l1 <= lo -> slice lo hi (l1 ++ l2) = slice (lo - len l1) (hi - len l1) l2.
Proof.
  intros. unfold slice. rewrite zdrop_app_ge by done. f_equal. lia.
Qed.
Lemma slice_app_head hi l1 l2 : hi = len l1 -> slice 0 hi (l1 ++ l2) = l1.
Proof.
  intros ->. unfold slice. rewrite zdrop_zero by lia.
  apply ztake_app_exact. lia.
Qed.
Lemma slice_all l : slice 0 (len l) l = l.
Proof. unfold slice. rewrite zdrop_zero by lia. apply ztake_all. lia. Qed.

Lemma slice_mid lo hi (a b c : list A) :
  lo = len a -> hi = len a + len b -> slice lo hi (a ++ b ++ c) = b.
Proof.
  intros -> ->. rewrite slice_app_skip by lia. rewrite Z.sub_diag.
  apply slice_app_head. lia.
Qed.
Lemma zget_Some l i x : zget l i = Some x -> 0 <= i < len l.
Proof.
  unfold zget, len. destruct (Z.ltb_spec i 0); [done|].
  intros Hl%lookup_lt_Some. lia.
Qed.
Lemma zget_in l i : 0 <= i < len l -> is_Some (zget l i).
Proof.
  unfold zget, len. destruct (Z.ltb_spec i 0); [lia|].
  intros. apply lookup_lt_is_Some. lia.
Qed.
Lemma zget_app_mid l1 x l2 i : i = len l1 -> zget (l1 ++ x :: l2) i = Some x.
Proof.
  intros ->. unfold zget, len. destruct (Z.ltb_spec (Z.of_nat (length l1)) 0); [lia|].
  rewrite Nat2Z.id. by apply list_lookup_middle.
Qed.
Lemma zget_zset l i j x :
  zget (zset l i x) j = if decide (i = j /\ 0 <= i < len l) then Some x else zget l j.
Proof.
  unfold zget, zset, len. destruct (Z.ltb_spec i 0), (Z.ltb_spec j 0);
    try (case_decide; [lia|done]).
  case_decide as Hd.
  - destruct Hd as [-> ?]. apply list_lookup_insert_eq. lia.
  - rewrite list_lookup_insert.
    destruct (decide (Z.to_nat i = Z.to_nat j /\ (Z.to_nat i < length l)%nat)) as [[??]|];
      [exfalso; apply Hd; lia|done].
Qed.
End Lengths.

#[export] Hint Rewrite @len_nil @len_cons @len_app @len_rev @len_ztake @len_zdrop
  @len_zreplicate @len_zset : len.
#[export] Hint Resolve len_nonneg : wg.

(** Decide a goal about lengths of byte strings. *)
Ltac len_lia :=
  autorewrite with len in *;
  repeat match goal with
  | |- context [len ?l] => lazymatch goal with
      | _ : 0 <= len l |- _ => fail
      | _ => pose proof (len_nonneg l) end
  | _ : context [len ?l] |- _ => lazymatch goal with
      | _ : 0 <= len l |- _ => fail
      | _ => pose proof (len_nonneg l) end
  end;
  lia.

(** Boolean comparisons in hypotheses become propositions. *)
Ltac zbool :=
  repeat match goal with
  | H : (_ <? _) = true |- _ => apply Z.ltb_lt in H
  | H : (_ <? _) = false |- _ => apply Z.ltb_ge in H
  | H : (_ <=? _) = true |- _ => apply Z.leb_le in H
  | H : (_ <=? _) = false |- _ => apply Z.leb_gt in H
  | H : (_ =? _) = true |- _ => apply Z.eqb_eq in H
  | H : (_ =? _) = false |- _ => apply Z.eqb_neq in H
  | H : (_ >? _) = true |- _ => rewrite Z.gtb_ltb in H
  | H : (_ >? _) = false |- _ => rewrite Z.gtb_ltb in H
  | H : (_ >=? _) = true |- _ => rewrite Z.geb_leb in H
  | H : (_ >=? _) = false |- _ => rewrite Z.geb_leb in H
  | H : _ && _ = true |- _ => apply andb_true_iff in H as [??]
  | H : _ || _ = false |- _ => apply orb_false_iff in H as [??]
  | H : negb _ = true |- _ => apply negb_true_iff in H
  | H : negb _ = false |- _ => apply negb_false_iff in H
  | H : bool_decide _ = true |- _ => apply bool_decide_eq_true in H
  | H : bool_decide _ = false |- _ => apply bool_decide_eq_false in H
  end.

(** Case analysis on the first [match] or [if] of the goal or of [H]. *)
Ltac case_goal :=
  match goal with
  | |- context [match ?x with _ => _ end] =>
      lazymatch x with context [match _ with _ => _ end] => fail | _ => destruct x eqn:? end
  end.
Ltac case_hyp H :=
  match type of H with
  | context [match ?x with _ => _ end] =>
      lazymatch x with context [match _ with _ => _ end] => fail | _ => destruct x eqn:? end
  end.

(** ** Encodings *)

Lemma len_to_le n z : len (to_le n z) = Z.of_nat n.
Proof. unfold len, to_le. by rewrite length_le_split. Qed.
Lemma len_to_be n z : len (to_be n z) = Z.of_nat n.
Proof. unfold to_be. rewrite len_rev. apply len_to_le. Qed.
#[export] Hint Rewrite len_to_le len_to_be : len.

Lemma of_le_to_le n z : 0 <= z < 2 ^ (Z.of_nat n * 8) -> of_le (to_le n z) = z.
Proof. intros. unfold of_le, to_le. rewrite le_combine_split. by apply Z.mod_small. Qed.
Lemma of_be_to_be n z : 0 <= z < 2 ^ (Z.of_nat n * 8) -> of_be (to_be n z) = z.
Proof. intros. unfold of_be, to_be. rewrite rev_involutive. by apply of_le_to_le. Qed.
Lemma to_le_of_le bs n : length bs = n -> to_le n (of_le bs) = bs.
Proof. apply split_le_combine'. Qed.

Lemma of_le_bound bs : 0 <= of_le bs < 2 ^ (8 * len bs).
Proof. apply le_combine_bound. Qed.
Lemma of_be_bound bs : 0 <= of_be bs < 2 ^ (8 * len bs).
Proof. unfold of_be. rewrite <- len_rev. apply le_combine_bound. Qed.

Lemma to_le_inj n a b :
  0 <= a < 2 ^ (Z.of_nat n * 8) -> 0 <= b < 2 ^ (Z.of_nat n * 8) ->
  to_le n a = to_le n b -> a = b.
Proof. intros Ha Hb Heq. by rewrite <- (of_le_to_le n a), Heq, of_le_to_le. Qed.
Lemma to_be_inj n a b :
  0 <= a < 2 ^ (Z.of_nat n * 8) -> 0 <= b < 2 ^ (Z.of_nat n * 8) ->
  to_be n a = to_be n b -> a = b.
Proof. intros Ha Hb Heq. by rewrite <- (of_be_to_be n a), Heq, of_be_to_be. Qed.

(** A property of the integers of a range, by one case for each. *)
Lemma range_cases (P : Z -> Prop) lo count n : Forall P (seqZ lo count) -> lo <= n < lo + count -> P n.
Proof. intros HP Hn. eapply Forall_forall; [exact HP|]. by apply elem_of_seqZ. Qed.

Lemma bits_above k c n : 0 <= c < 2 ^ k -> k <= n -> Z.testbit c n = false.
Proof.
  intros Hc Hn. destruct (decide (c = 0)) as [->|]; [apply Z.bits_0|].
  destruct (Z.le_gt_cases 0 k); [|rewrite Z.pow_neg_r in Hc; lia].
  apply Z.bits_above_log2; [lia|]. apply Z.log2_lt_pow2; [lia|].
  apply Z.lt_le_trans with (2 ^ k); [lia|]. apply Z.pow_le_mono_r; lia.
Qed.

Lemma bits_range k c : 0 <= k -> 0 <= c -> (forall n, k <= n -> Z.testbit c n = false) -> 0 <= c < 2 ^ k.
Proof.
  intros Hk Hc Hb. assert (c = c mod 2 ^ k) as ->; [|by apply Z.mod_pos_bound, Z.pow_pos_nonneg].
  apply Z.bits_inj'. intros n Hn. destruct (Z.lt_ge_cases n k).
  - by rewrite Z.mod_pow2_bits_low.
  - by rewrite Z.mod_pow2_bits_high, Hb by lia.
Qed.

Lemma lxor_range k a b : 0 <= k -> 0 <= a < 2 ^ k -> 0 <= b < 2 ^ k -> 0 <= Z.lxor a b < 2 ^ k.
Proof.
  intros Hk Ha Hb. apply bits_range; [done|apply Z.lxor_nonneg; lia|]. intros n Hn.
  by rewrite Z.lxor_spec, (bits_above k a), (bits_above k b).
Qed.

Lemma byte_xor_involutive a b : byte.xor (byte.xor a b) b = a.
Proof.
  unfold byte.xor. rewrite byte.unsigned_of_Z. unfold byte.wrap.
  pose proof (byte.unsigned_range a). pose proof (byte.unsigned_range b).
  rewrite Z.mod_small by (apply (lxor_range 8); lia).
  rewrite Z.lxor_assoc, Z.lxor_nilpotent, Z.lxor_0_r. apply byte.of_Z_unsigned.
Qed.

Lemma len_xor_bytes a b : len (xor_bytes a b) = Z.min (len a) (len b).
Proof. unfold len, xor_bytes. rewrite length_zip_with. lia. Qed.

Lemma xor_bytes_involutive a k : len a <= len k -> xor_bytes (xor_bytes a k) k = a.
Proof.
  revert k. induction a as [|x a IH]; intros k Hk; [done|].
  destruct k as [|y k]; [len_lia|].
  unfold xor_bytes in *. simpl. rewrite byte_xor_involutive. f_equal. apply IH. len_lia.
Qed.

Lemma xor_bytes_app a1 a2 k1 k2 :
  len a1 = len k1 -> xor_bytes (a1 ++ a2) (k1 ++ k2) = xor_bytes a1 k1 ++ xor_bytes a2 k2.
Proof. unfold len, xor_bytes. intros. apply zip_with_app. lia. Qed.

(** ** Packing two fields into a word *)

Lemma lor_shiftl_add a c k :
  0 <= k -> 0 <= c < 2 ^ k -> Z.lor (Z.shiftl a k) c = a * 2 ^ k + c.
Proof.
  intros Hk Hc. rewrite <- Z.shiftl_mul_pow2 by done. symmetry. apply Z.add_nocarry_lor.
  apply Z.bits_inj'. intros n Hn. rewrite Z.land_spec, Z.shiftl_spec, Z.bits_0 by done.
  destruct (Z.lt_ge_cases n k).
  - by rewrite Z.testbit_neg_r by lia.
  - rewrite (bits_above k c n) by done. apply andb_false_r.
Qed.
