(* ===== verification/Budget.v ===== *)
(** Error codes and per-call output budgets.

    [WireGuardError] is [noise/errors.rs]; the rest is [noise/budget.rs]: every
    producer of a datagram applies [admit_datagram] to its mandatory bytes before it
    consumes anything, and keeps its optional bytes within the ceiling
    [admit_datagram] returns. *)

From S2P Require Import Prelude.

Inductive WireGuardError :=
| DestinationBufferTooSmall
| IncorrectPacketLength
| UnexpectedPacket
| WrongPacketType
| WrongIndex
| WrongKey
| InvalidTai64nTimestamp
| WrongTai64nTimestamp
| InvalidMac
| InvalidAeadTag
| InvalidCounter
| DuplicateCounter
| InvalidPacket
| NoCurrentSession
| LockFailed
| ConnectionExpired
| UnderLoad
| PacketQueueFull
| OutputBudgetExceeded
| InvalidPacketInfo.

#[export] Instance WireGuardError_eq_dec : EqDecision WireGuardError.
Proof. solve_decision. Defined.

(** The discriminants the C and JNI layers report ([e as _]). *)
Definition error_code (e : WireGuardError) : Z :=
  match e with
  | DestinationBufferTooSmall => 0
  | IncorrectPacketLength => 1
  | UnexpectedPacket => 2
  | WrongPacketType => 3
  | WrongIndex => 4
  | WrongKey => 5
  | InvalidTai64nTimestamp => 6
  | WrongTai64nTimestamp => 7
  | InvalidMac => 8
  | InvalidAeadTag => 9
  | InvalidCounter => 10
  | DuplicateCounter => 11
  | InvalidPacket => 12
  | NoCurrentSession => 13
  | LockFailed => 14
  | ConnectionExpired => 15
  | UnderLoad => 16
  | PacketQueueFull => 17
  | OutputBudgetExceeded => 18
  | InvalidPacketInfo => 19
  end.

(** The mandatory overhead of a transport frame ([DATA_OVERHEAD_SZ]). *)
Definition DATA_OVERHEAD_SZ : Z := 32.

Record OutputBudget := {
  transport : Z;
  control : Z;
  ordinary_junk_only : bool;
}.

Inductive ControlOutput := OrdinaryJunk | Other.

Definition UNBOUNDED : OutputBudget :=
  {| transport := 0; control := 0; ordinary_junk_only := false |}.

Definition control_for (b : OutputBudget) (kind : ControlOutput) : Z :=
  match kind with
  | Other => if ordinary_junk_only b then 0 else control b
  | OrdinaryJunk => control b
  end.

Definition exceeds (mandatory : option Z) (budget : Z) : bool :=
  negb (budget =? 0) &&
  match mandatory with None => true | Some m => m >? budget end.

Definition ceiling (dst_len budget : Z) : Z :=
  if budget =? 0 then dst_len else Z.min dst_len budget.

Definition admit_datagram (mandatory : option Z) (dst_len budget : Z) : result WireGuardError Z :=
  if exceeds mandatory budget then Err OutputBudgetExceeded
  else match mandatory with
       | Some m => if m <=? dst_len then Ok (ceiling dst_len budget)
                   else Err DestinationBufferTooSmall
       | None => Err DestinationBufferTooSmall
       end.

Definition transport_frame (plaintext_len s4 : Z) : option Z :=
  match checked_add usize_max plaintext_len DATA_OVERHEAD_SZ with
  | None => None
  | Some n => checked_add usize_max n s4
  end.

Definition junk_range (range : Z * Z) (protocol_shaped : bool) (control : Z)
  : result WireGuardError (Z * Z) :=
  if control =? 0 then Ok range
  else
    let '(lo, hi) := range in
    if negb protocol_shaped then Ok (Z.min lo control, Z.min hi control)
    else
      let hi := Z.min hi control in
      if lo >? hi then Err OutputBudgetExceeded else Ok (lo, hi).

(** [n] bytes respect a budget: no budget, or at most it. *)
Definition within (budget n : Z) : Prop := budget = 0 \/ n <= budget.

(** ** Lemmas *)

Lemma exceeds_false m budget : exceeds (Some m) budget = false <-> within budget m.
Proof.
  unfold exceeds, within. destruct (Z.eqb_spec budget 0); simpl; [tauto|].
  rewrite Z.gtb_ltb, Z.ltb_ge. lia.
Qed.

Lemma ceiling_within dst_len budget n :
  n <= ceiling dst_len budget -> n <= dst_len /\ within budget n.
Proof. unfold ceiling, within. destruct (Z.eqb_spec budget 0); lia. Qed.

Lemma admit_datagram_Ok m dst_len budget c :
  admit_datagram m dst_len budget = Ok c <->
  exists n, m = Some n /\ n <= dst_len /\ within budget n /\ c = ceiling dst_len budget.
Proof.
  unfold admit_datagram. destruct m as [m|].
  - destruct (exceeds (Some m) budget) eqn:He.
    + split; [done|]. intros (n & [= <-] & ? & Hw & ?).
      apply exceeds_false in Hw. congruence.
    + apply exceeds_false in He. destruct (Z.leb_spec m dst_len).
      * split; [intros [= <-]; eauto|]. intros (n & [= <-] & ? & ? & ->). done.
      * split; [done|]. intros (n & [= <-] & ? & ?). lia.
  - destruct (exceeds None budget); (split; [done|intros (? & ? & _); done]).
Qed.

Lemma admit_datagram_ceiling m dst_len budget c :
  admit_datagram m dst_len budget = Ok c ->
  exists n, m = Some n /\ n <= c /\ c <= dst_len /\ within budget c.
Proof.
  intros (n & -> & Hn & Hw & ->)%admit_datagram_Ok. exists n.
  unfold ceiling, within in *. destruct (Z.eqb_spec budget 0); repeat split; try lia.
Qed.

Lemma transport_frame_Some plaintext_len s4 n :
  transport_frame plaintext_len s4 = Some n -> n = plaintext_len + DATA_OVERHEAD_SZ + s4.
Proof.
  unfold transport_frame, checked_add.
  destruct (_ <=? _); [|done]. destruct (_ <=? _); [|done]. by intros [= <-].
Qed.

#[export] Hint Resolve ceiling_within : wg.

(** ** Properties *)

(** Admission is exact and its errors are ordered. A mandatory datagram of
    [m] bytes is admitted into [dst_len] bytes under [budget] exactly when it
    fits both, and the ceiling returned for the optional bytes then lies
    between [m] and both limits. Over the budget it is
    [OutputBudgetExceeded], whatever the buffer; within the budget and over
    the buffer it is [DestinationBufferTooSmall]. *)
Theorem admit_exact (m dst_len budget : Z) :
  match admit_datagram (Some m) dst_len budget with
  | Ok c => m <= c /\ c <= dst_len /\ within budget c
            /\ (forall n, n <= dst_len -> within budget n -> n <= c)
  | Err OutputBudgetExceeded => ~ within budget m
  | Err DestinationBufferTooSmall => within budget m /\ dst_len < m
  | Err _ => False
  end.
Proof.
  unfold admit_datagram. destruct (exceeds (Some m) budget) eqn:He.
  { intros Hw%exceeds_false. congruence. }
  apply exceeds_false in He. destruct (Z.leb_spec m dst_len); [|by split].
  unfold ceiling, within in *. destruct (Z.eqb_spec budget 0); repeat split; try lia.
Qed.
