(* ===== verification/Instant.v ===== *)
(** The clock: [sleepyinstant]. A Unix instant is a [TimeSpec] of seconds and
    nanoseconds; the rest of the development takes an instant as its number
    of nanoseconds, which [ts_duration_since_ns] justifies. *)

From S2P Require Import Prelude.

Record TimeSpec := { tv_sec : Z; tv_nsec : Z }.

Definition ts_ok (t : TimeSpec) : Prop := 0 <= tv_nsec t < nanos_per_sec.
Definition ts_ns (t : TimeSpec) : Z := tv_sec t * nanos_per_sec + tv_nsec t.

(** [Duration::new]: whole seconds and nanoseconds. *)
Definition duration_new (secs nanos : Z) : Z := secs * nanos_per_sec + nanos.

Definition ts_checked_duration_since (self earlier : TimeSpec) : option Z :=
  let '(sec, nsec) :=
    if tv_nsec self <? tv_nsec earlier
    then (tv_sec self - tv_sec earlier - 1, tv_nsec self - tv_nsec earlier + nanos_per_sec)
    else (tv_sec self - tv_sec earlier, tv_nsec self - tv_nsec earlier) in
  if sec <? 0 then None else Some (duration_new sec nsec).

Definition ts_duration_since (self earlier : TimeSpec) : Z :=
  default 0 (ts_checked_duration_since self earlier).

(** On nanoseconds: what the other files use for [Instant]. *)
Definition duration_since (now earlier : Z) : Z := sat_sub now earlier.

(** The clock never panics and never runs backwards: [duration_since] of
    two Unix instants is the difference of their nanoseconds, and zero when
    [earlier] is the later one (where the documentation of
    [sleepyinstant::Instant::duration_since] announces a panic). *)
Theorem ts_duration_since_ns (self earlier : TimeSpec) :
  ts_ok self -> ts_ok earlier ->
  ts_duration_since self earlier = duration_since (ts_ns self) (ts_ns earlier).
Proof.
  unfold ts_ok, ts_duration_since, ts_checked_duration_since, duration_since, sat_sub,
    ts_ns, duration_new, nanos_per_sec.
  destruct self as [s1 n1], earlier as [s2 n2]; simpl. intros H1 H2.
  destruct (Z.ltb_spec n1 n2); match goal with |- context [?x <? 0] => destruct (Z.ltb_spec x 0) end;
    simpl; lia.
Qed.

Lemma ts_duration_since_ns_witness :
  ts_duration_since {| tv_sec := 3; tv_nsec := 5 |} {| tv_sec := 4; tv_nsec := 1 |} = 0.
Proof.
  rewrite ts_duration_since_ns by (vm_compute; split; congruence). vm_compute. reflexivity.
Defined.

Lemma duration_since_nonneg a b : 0 <= duration_since a b.
Proof. unfold duration_since, sat_sub. lia. Qed.
#[export] Hint Resolve duration_since_nonneg : wg.
