(* ===== verification/Crypto.v ===== *)
(** The cryptographic primitives, as an interface.

    The code takes Blake2s, HMAC, ChaCha20, ChaCha20-Poly1305,
    XChaCha20-Poly1305 and X25519 from third-party crates (blake2, hmac,
    chacha20, ring, chacha20poly1305, x25519-dalek). [Crypto] names the
    functions the code calls; [CryptoLaws] states the documented behaviour the
    proofs rely on: output sizes, decryption inverts encryption under the same
    key, nonce and associated data, Diffie-Hellman agrees. No secrecy or
    unforgeability is assumed. [Toy] instantiates the interface with concrete
    (insecure) functions, for the witnesses. *)

From S2P Require Import Prelude.

Class Crypto := {
  (** Blake2s256 of a byte string. *)
  blake2s256 : bytes -> bytes;
  (** HMAC-Blake2s256, key then data. *)
  hmac_blake2s : bytes -> bytes -> bytes;
  (** Keyed Blake2s with an output of the given number of bytes. *)
  blake2s_mac : nat -> bytes -> bytes -> bytes;
  (** ChaCha20-Poly1305: key, nonce, associated data, input. The ciphertext
      carries its 16-byte tag at the end. *)
  aead_seal : bytes -> bytes -> bytes -> bytes -> bytes;
  aead_open : bytes -> bytes -> bytes -> bytes -> option bytes;
  (** XChaCha20-Poly1305, the same shape. *)
  xaead_seal : bytes -> bytes -> bytes -> bytes -> bytes;
  xaead_open : bytes -> bytes -> bytes -> bytes -> option bytes;
  (** The first [n] bytes of the ChaCha20 keystream of a key and a nonce. *)
  chacha20_keystream : bytes -> bytes -> Z -> bytes;
  (** X25519: the public key of a secret, and the shared secret of a secret
      and a public key. *)
  x25519_public : bytes -> bytes;
  x25519_dh : bytes -> bytes -> bytes;
}.

(** The size of an AEAD tag. *)
Definition TAG_SZ : Z := 16.

Class CryptoLaws `{Crypto} : Prop := {
  len_blake2s256 d : len (blake2s256 d) = 32;
  len_hmac k d : len (hmac_blake2s k d) = 32;
  len_blake2s_mac n k d : len (blake2s_mac n k d) = Z.of_nat n;
  len_aead_seal k n ad p : len (aead_seal k n ad p) = len p + TAG_SZ;
  aead_open_seal k n ad p : aead_open k n ad (aead_seal k n ad p) = Some p;
  len_aead_open k n ad c p : aead_open k n ad c = Some p -> len p = len c - TAG_SZ;
  len_xaead_seal k n ad p : len (xaead_seal k n ad p) = len p + TAG_SZ;
  xaead_open_seal k n ad p : xaead_open k n ad (xaead_seal k n ad p) = Some p;
  len_xaead_open k n ad c p : xaead_open k n ad c = Some p -> len p = len c - TAG_SZ;
  len_keystream k n m : 0 <= m -> len (chacha20_keystream k n m) = m;
  keystream_prefix k n m m' :
    0 <= m <= m' -> ztake m (chacha20_keystream k n m') = chacha20_keystream k n m;
  len_x25519_public s : len (x25519_public s) = 32;
  len_x25519_dh s p : len (x25519_dh s p) = 32;
  x25519_dh_agree a b : x25519_dh a (x25519_public b) = x25519_dh b (x25519_public a);
}.

#[export] Hint Rewrite @len_blake2s256 @len_hmac @len_blake2s_mac @len_aead_seal
  @len_xaead_seal @len_x25519_public @len_x25519_dh using typeclasses eauto : len.

(** ** The wrappers of [noise/handshake.rs] *)

Section Wrappers.
Context `{Crypto}.

Definition b2s_hash (data1 data2 : bytes) : bytes := blake2s256 (data1 ++ data2).
Definition b2s_hmac (key data1 : bytes) : bytes := hmac_blake2s key data1.
Definition b2s_hmac2 (key data1 data2 : bytes) : bytes := hmac_blake2s key (data1 ++ data2).
Definition b2s_keyed_mac_16 (key data1 : bytes) : bytes := blake2s_mac 16 key data1.
Definition b2s_keyed_mac_16_2 (key data1 data2 : bytes) : bytes :=
  blake2s_mac 16 key (data1 ++ data2).
Definition b2s_mac_24 (key data1 : bytes) : bytes := blake2s_mac 24 key data1.

(** Slice equality; that its time does not depend on the contents is not a
    functional property. *)
Definition constant_time_eq (a b : bytes) : bool := bool_decide (a = b).

(** The 12-byte nonce of a 64-bit counter: four zero bytes, then the counter
    in little endian. *)
Definition counter_nonce (counter : Z) : bytes := zeros 4 ++ to_le 8 counter.

Definition aead_chacha20_seal (key : bytes) (counter : Z) (data aad : bytes) : bytes :=
  aead_seal key (counter_nonce counter) aad data.
(** [aead_chacha20_open] copies the plaintext into a buffer of [n] bytes,
    which [copy_from_slice] requires to have exactly its length. *)
Definition aead_chacha20_open (n : Z) (key : bytes) (counter : Z) (data aad : bytes)
  : outcome (option bytes) :=
  match aead_open key (counter_nonce counter) aad data with
  | None => Ret None
  | Some p => if len p =? n then Ret (Some p) else Panic
  end.

Lemma constant_time_eq_refl a : constant_time_eq a a = true.
Proof. by apply bool_decide_eq_true. Qed.
Lemma constant_time_eq_true a b : constant_time_eq a b = true -> a = b.
Proof. apply bool_decide_eq_true. Qed.

Lemma aead_chacha20_open_seal `{!CryptoLaws} n key counter data aad :
  len data = n ->
  aead_chacha20_open n key counter (aead_chacha20_seal key counter data aad) aad
    = Ret (Some data).
Proof.
  intros <-. unfold aead_chacha20_open, aead_chacha20_seal.
  by rewrite aead_open_seal, Z.eqb_refl.
Qed.

(** A ciphertext of the right size cannot make the copy panic. *)
Lemma aead_chacha20_open_safe `{!CryptoLaws} n key counter data aad :
  len data = n + TAG_SZ ->
  safely (aead_chacha20_open n key counter data aad)
    (fun o => match o with None => True | Some p => len p = n end).
Proof.
  intros Hd. unfold aead_chacha20_open.
  destruct (aead_open _ _ _ _) as [p|] eqn:Ho; [|done].
  apply len_aead_open in Ho. destruct (Z.eqb_spec (len p) n); simpl; lia.
Qed.
End Wrappers.

(** ** A concrete instance *)

Module Toy.
Definition digest (n : nat) (d : bytes) : bytes := to_le n (of_le d * 31 + len d + 7).
Definition tag (k n ad p : bytes) : bytes :=
  to_le 16 (of_le k + 3 * of_le n + 5 * of_le ad + 7 * of_le p + 11).
Definition seal (k n ad p : bytes) : bytes := p ++ tag k n ad p.
Definition open (k n ad c : bytes) : option bytes :=
  let p := ztake (len c - 16) c in
  if bool_decide (c = seal k n ad p) then Some p else None.
Definition keystream (k n : bytes) (m : Z) : bytes :=
  zreplicate m (byte.of_Z (of_le k + of_le n)).
Definition public (s : bytes) : bytes := to_le 32 (of_le s * 9).
Definition dh (s p : bytes) : bytes := to_le 32 (of_le s * of_le p).

#[export] Instance crypto : Crypto := {|
  blake2s256 := digest 32;
  hmac_blake2s k d := digest 32 (k ++ d);
  blake2s_mac n k d := digest n (k ++ d);
  Crypto.aead_seal := seal; Crypto.aead_open := open;
  Crypto.xaead_seal := seal; Crypto.xaead_open := open;
  chacha20_keystream := keystream;
  x25519_public := public; x25519_dh := dh;
|}.

Lemma open_seal k n ad p : open k n ad (seal k n ad p) = Some p.
Proof.
  unfold open. assert (ztake (len (seal k n ad p) - 16) (seal k n ad p) = p) as ->.
  { unfold seal. apply ztake_app_exact. rewrite len_app. unfold tag. rewrite len_to_le. lia. }
  by rewrite bool_decide_eq_true_2.
Qed.

Lemma len_seal k n ad p : len (seal k n ad p) = len p + 16.
Proof. unfold seal, tag. rewrite len_app, len_to_le. lia. Qed.

Lemma len_open k n ad c p : open k n ad c = Some p -> len p = len c - 16.
Proof.
  unfold open. case_bool_decide as Hc; [|done]. intros [= <-].
  apply (f_equal len) in Hc. rewrite len_seal in Hc. lia.
Qed.

Lemma to_le_mod n a b : a mod 2 ^ (Z.of_nat n * 8) = b mod 2 ^ (Z.of_nat n * 8) ->
  to_le n a = to_le n b.
Proof.
  intros Hab. unfold to_le. rewrite (le_split_mod a), (le_split_mod b). by rewrite Hab.
Qed.

Lemma dh_agree a b : dh a (public b) = dh b (public a).
Proof.
  unfold dh, public. unfold of_le at 2 4, to_le at 2 4. rewrite !le_combine_split.
  apply to_le_mod. rewrite !Zmult_mod_idemp_r. f_equal. unfold of_le. ring.
Qed.

#[export] Instance laws : CryptoLaws.
Proof.
  split; intros; simpl.
  1-3: apply len_to_le.
  1,4: apply len_seal.
  1,3: apply open_seal.
  1,2: by eapply len_open.
  - unfold keystream. rewrite len_zreplicate. lia.
  - unfold keystream, ztake, zreplicate. rewrite take_replicate. f_equal. lia.
  - apply len_to_le.
  - apply len_to_le.
  - apply dh_agree.
Qed.
End Toy.
