(* ===== verification/Rand.v ===== *)
(** Random draws.

    The generators ([ChaCha8Rng], seeded from the operating system) are
    third-party code: [RngCore] is the interface of the [rand_core] crate the
    code draws through. The draws themselves -- rejection sampling in
    [random_usize_inclusive], [random_below], [fill_random] of
    [noise/amnezia.rs] -- are the code's own and are modelled here.

    The rejection loops have no bound in the code. [patience] bounds the
    iterations of the model, and [RngLaws] says that the generator does not
    produce [patience] words in a row in the upper half of the 64-bit range;
    [draw_below_total] shows that the bounded loop then returns what the
    unbounded one does. *)

From S2P Require Import Prelude.

Class RngCore (R : Type) := {
  next_u32 : R -> Z * R;
  next_u64 : R -> Z * R;
  (** [fill_bytes] of a slice of that many bytes. *)
  fill_bytes : Z -> R -> bytes * R;
  patience : nat;
}.

(** The generator after [k] 64-bit words. *)
Fixpoint skip_words {R} `{RngCore R} (k : nat) (r : R) : R :=
  match k with O => r | S k => skip_words k (snd (next_u64 r)) end.

Class RngLaws (R : Type) `{RngCore R} : Prop := {
  next_u32_range r : 0 <= fst (next_u32 r) < 2 ^ 32;
  next_u64_range r : 0 <= fst (next_u64 r) < 2 ^ 64;
  len_fill_bytes n r : 0 <= n -> len (fst (fill_bytes n r)) = n;
  next_u64_live r : exists k, (k < patience)%nat /\ fst (next_u64 (skip_words k r)) < 2 ^ 63;
}.

Section Draws.
Context {R : Type} `{RngCore R}.

(** [loop { val = rng.next_u64(); if val < threshold { return val } }] *)
Fixpoint draw_below (fuel : nat) (threshold : Z) (r : R) : option (Z * R) :=
  match fuel with
  | O => None
  | S fuel =>
      let '(val, r) := next_u64 r in
      if val <? threshold then Some (val, r) else draw_below fuel threshold r
  end.

Definition rejection_threshold (range_size : Z) : Z := u64_max - u64_max mod range_size.

(** A uniform draw from [0..range_size) by rejection. *)
Definition draw_modulo (range_size : Z) (r : R) : Z * R :=
  match draw_below patience (rejection_threshold range_size) r with
  | Some (val, r) => (val mod range_size, r)
  | None => (0, r)
  end.

Definition random_usize_inclusive (min max : Z) (r : R) : Z * R :=
  if min >=? max then (min, r)
  else let '(v, r) := draw_modulo (max - min + 1) r in (min + v, r).

Definition random_below (n : Z) (r : R) : Z * R :=
  if n =? 0 then (0, r) else random_usize_inclusive 0 (n - 1) r.

(** Outside tests [optional_below] is [random_below]. *)
Definition optional_below (n : Z) (r : R) : Z * R := random_below n r.

Fixpoint fill_words (n : nat) (r : R) : bytes * R :=
  match n with
  | O => ([], r)
  | S n => let '(w, r) := next_u32 r in
           let '(rest, r) := fill_words n r in
           (to_le 4 w ++ rest, r)
  end.

(** [fill_random] of a slice of [n] bytes: whole words, then the first bytes
    of one more. *)
Definition fill_random (n : Z) (r : R) : bytes * R :=
  let '(body, r) := fill_words (Z.to_nat (n / 4)) r in
  let rem := n mod 4 in
  if rem =? 0 then (body, r)
  else let '(w, r) := next_u32 r in (body ++ ztake rem (to_le 4 w), r).

(** ** Lemmas *)

Lemma rejection_threshold_half n : 0 < n < 2 ^ 64 -> 2 ^ 63 <= rejection_threshold n.
Proof.
  intros Hn. unfold rejection_threshold, u64_max.
  pose proof (Z.mod_pos_bound (2 ^ 64 - 1) n ltac:(lia)).
  destruct (Z.le_gt_cases n (2 ^ 63)); [lia|].
  assert ((2 ^ 64 - 1) mod n = 2 ^ 64 - 1 - n) as ->; [|lia].
  symmetry. apply Z.mod_unique with 1; lia.
Qed.

Context `{!RngLaws R}.

Lemma draw_below_spec fuel threshold r v r' :
  draw_below fuel threshold r = Some (v, r') -> 0 <= v < threshold.
Proof.
  revert r. induction fuel as [|fuel IH]; intros r; simpl; [done|].
  pose proof (next_u64_range r) as Hr. destruct (next_u64 r) as [w r1]; simpl in Hr.
  destruct (Z.ltb_spec w threshold); [|by apply IH]. intros [= <- <-]. lia.
Qed.

Lemma draw_below_live fuel threshold r k :
  (k < fuel)%nat -> fst (next_u64 (skip_words k r)) < threshold ->
  is_Some (draw_below fuel threshold r).
Proof.
  revert r k. induction fuel as [|fuel IH]; intros r k Hk Hlt; [lia|]. simpl.
  destruct (next_u64 r) as [w r1] eqn:Hw. destruct (Z.ltb_spec w threshold); [by eexists|].
  destruct k as [|k]; simpl in Hlt; rewrite Hw in Hlt; simpl in Hlt; [lia|].
  apply (IH r1 k); [lia|done].
Qed.

(** The bounded loop always returns a word, for every range the code draws from. *)
Lemma draw_below_total n r :
  0 < n < 2 ^ 64 -> is_Some (draw_below patience (rejection_threshold n) r).
Proof.
  intros Hn%rejection_threshold_half. destruct (next_u64_live r) as (k & Hk & Hlt).
  apply (draw_below_live _ _ _ k); [done|lia].
Qed.

Lemma draw_modulo_range n r : 0 < n -> 0 <= fst (draw_modulo n r) < n.
Proof.
  intros. unfold draw_modulo. destruct (draw_below _ _ _) as [[v r']|]; simpl; [|lia].
  by apply Z.mod_pos_bound.
Qed.

Lemma random_usize_inclusive_range min max r :
  min <= fst (random_usize_inclusive min max r) <= Z.max min max.
Proof.
  unfold random_usize_inclusive. rewrite Z.geb_leb. destruct (Z.leb_spec max min); simpl; [lia|].
  pose proof (draw_modulo_range (max - min + 1) r ltac:(lia)).
  destruct (draw_modulo _ _); simpl in *. lia.
Qed.

Lemma random_below_range n r : 0 <= n -> 0 <= fst (random_below n r) <= Z.max 0 (n - 1).
Proof.
  intros. unfold random_below. destruct (Z.eqb_spec n 0); simpl; [lia|].
  pose proof (random_usize_inclusive_range 0 (n - 1) r). lia.
Qed.

Lemma optional_below_range n r : 0 <= n -> 0 <= fst (optional_below n r) <= Z.max 0 (n - 1).
Proof. apply random_below_range. Qed.

Lemma len_fill_words n r : len (fst (fill_words n r)) = 4 * Z.of_nat n.
Proof.
  revert r. induction n as [|n IH]; intros r; [done|]. cbn [fill_words].
  destruct (next_u32 r) as [w r1]. specialize (IH r1). destruct (fill_words n r1) as [rest r2].
  cbn [fst] in *. rewrite len_app, len_to_le. lia.
Qed.

Lemma len_fill_random n r : 0 <= n -> len (fst (fill_random n r)) = n.
Proof.
  intros. unfold fill_random. pose proof (len_fill_words (Z.to_nat (n / 4)) r) as Hb.
  destruct (fill_words _ _) as [body r1]. simpl in Hb.
  pose proof (Z.div_mod n 4). pose proof (Z.mod_pos_bound n 4). pose proof (Z.div_pos n 4).
  destruct (Z.eqb_spec (n mod 4) 0); simpl; [lia|].
  destruct (next_u32 r1). cbn [fst]. rewrite len_app, len_ztake, len_to_le. lia.
Qed.
End Draws.

(** ** A concrete generator, for the witnesses: a counter. *)

Module CounterRng.
Definition step (r : Z) : Z := (r * 5 + 3) mod 2 ^ 32.
#[export] Instance rng : RngCore Z := {|
  next_u32 r := (step r, step r);
  next_u64 r := (step r, step r);
  fill_bytes n r := (to_le (Z.to_nat n) (step r), step r);
  patience := 1;
|}.
#[export] Instance laws : RngLaws Z.
Proof.
  assert (forall r, 0 <= step r < 2 ^ 32) as Hs by (intros; by apply Z.mod_pos_bound).
  split; intros r; simpl; specialize (Hs r); [lia|lia|intros; rewrite len_to_le; lia|].
  exists 0%nat. simpl. split; lia.
Qed.
End CounterRng.
