(* ===== verification/Tags.v ===== *)
(** Message-type tag ranges: [TagRange] and [ObfuscationRanges] of
    [noise/handshake.rs]. AmneziaWG replaces the four message types of
    WireGuard by values drawn from four ranges H1..H4; the ranges are accepted
    only when they are pairwise disjoint, which is what makes a tag name at
    most one packet kind. *)

From S2P Require Import Prelude Rand.
Import CounterRng.

Definition HANDSHAKE_INIT : Z := 1.
Definition HANDSHAKE_RESP : Z := 2.
Definition COOKIE_REPLY : Z := 3.
Definition DATA : Z := 4.

Record TagRange := { start : Z; end_ : Z }.

#[export] Instance TagRange_eq_dec : EqDecision TagRange.
Proof. solve_decision. Defined.

Definition contains (t : TagRange) (value : Z) : bool :=
  (value >=? start t) && (value <=? end_ t).

Definition overlaps (a b : TagRange) : bool :=
  (start a <=? end_ b) && (start b <=? end_ a).

Definition tag_random {R} `{RngCore R} (t : TagRange) (r : R) : Z * R :=
  if start t =? end_ t then (start t, r)
  else if (start t =? 0) && (end_ t =? u32_max) then next_u32 r
  else let '(v, r) := draw_modulo (end_ t - start t + 1) r in (start t + v, r).

Record ObfuscationRanges := {
  h1_init : TagRange;
  h2_resp : TagRange;
  h3_cookie : TagRange;
  h4_data : TagRange;
}.

#[export] Instance ObfuscationRanges_eq_dec : EqDecision ObfuscationRanges.
Proof. solve_decision. Defined.

Definition single (v : Z) : TagRange := {| start := v; end_ := v |}.

Definition obf_default : ObfuscationRanges := {|
  h1_init := single HANDSHAKE_INIT;
  h2_resp := single HANDSHAKE_RESP;
  h3_cookie := single COOKIE_REPLY;
  h4_data := single DATA;
|}.

(** The two refusals, with what their messages report: the index of the range
    whose bounds are inverted, or the indices of two ranges that overlap. *)
Inductive RangeError :=
| InvertedRange (which : nat) (s e : Z)
| OverlappingRanges (a b : nat) (overlap_start overlap_end : Z).

Definition resolve (which : nat) (s e default : Z) : result RangeError TagRange :=
  if (s =? 0) && (e =? 0) then Ok (single default)
  else if e =? 0 then Ok (single s)
  else if s <=? e then Ok {| start := s; end_ := e |}
  else Err (InvertedRange which s e).

(** The nested loop over pairs [i < j], in its order. *)
Definition check_pair (a b : nat * TagRange) : option RangeError :=
  let '(i, ra) := a in let '(j, rb) := b in
  if overlaps ra rb then
    Some (OverlappingRanges i j (Z.max (start ra) (start rb)) (Z.min (end_ ra) (end_ rb)))
  else None.

Fixpoint check_against (a : nat * TagRange) (l : list (nat * TagRange)) : option RangeError :=
  match l with
  | [] => None
  | b :: l => match check_pair a b with Some e => Some e | None => check_against a l end
  end.

Fixpoint check_overlaps (l : list (nat * TagRange)) : option RangeError :=
  match l with
  | [] => None
  | a :: l => match check_against a l with Some e => Some e | None => check_overlaps l end
  end.

Definition obf_new (h1s h1e h2s h2e h3s h3e h4s h4e : Z) : result RangeError ObfuscationRanges :=
  let? h1 := resolve 1 h1s h1e HANDSHAKE_INIT in
  let? h2 := resolve 2 h2s h2e HANDSHAKE_RESP in
  let? h3 := resolve 3 h3s h3e COOKIE_REPLY in
  let? h4 := resolve 4 h4s h4e DATA in
  match check_overlaps [(1%nat, h1); (2%nat, h2); (3%nat, h3); (4%nat, h4)] with
  | Some e => Err e
  | None => Ok {| h1_init := h1; h2_resp := h2; h3_cookie := h3; h4_data := h4 |}
  end.

Definition matches_h1 (o : ObfuscationRanges) (v : Z) : bool := contains (h1_init o) v.
Definition matches_h2 (o : ObfuscationRanges) (v : Z) : bool := contains (h2_resp o) v.
Definition matches_h3 (o : ObfuscationRanges) (v : Z) : bool := contains (h3_cookie o) v.
Definition matches_h4 (o : ObfuscationRanges) (v : Z) : bool := contains (h4_data o) v.

Definition random_h1 {R} `{RngCore R} (o : ObfuscationRanges) (r : R) : Z * R := tag_random (h1_init o) r.
Definition random_h2 {R} `{RngCore R} (o : ObfuscationRanges) (r : R) : Z * R := tag_random (h2_resp o) r.
Definition random_h3 {R} `{RngCore R} (o : ObfuscationRanges) (r : R) : Z * R := tag_random (h3_cookie o) r.
Definition random_h4 {R} `{RngCore R} (o : ObfuscationRanges) (r : R) : Z * R := tag_random (h4_data o) r.

(** ** Well-formed ranges *)

Definition range_ok (t : TagRange) : Prop := 0 <= start t /\ start t <= end_ t <= u32_max.

Definition disjoint (a b : TagRange) : Prop := forall v, ~ (contains a v = true /\ contains b v = true).

Definition obf_ranges (o : ObfuscationRanges) : list TagRange :=
  [h1_init o; h2_resp o; h3_cookie o; h4_data o].

Record obf_ok (o : ObfuscationRanges) : Prop := {
  obf_in_range : Forall range_ok (obf_ranges o);
  obf_12 : disjoint (h1_init o) (h2_resp o);
  obf_13 : disjoint (h1_init o) (h3_cookie o);
  obf_14 : disjoint (h1_init o) (h4_data o);
  obf_23 : disjoint (h2_resp o) (h3_cookie o);
  obf_24 : disjoint (h2_resp o) (h4_data o);
  obf_34 : disjoint (h3_cookie o) (h4_data o);
}.

Lemma contains_true t v : contains t v = true <-> start t <= v <= end_ t.
Proof. unfold contains. rewrite andb_true_iff, Z.geb_leb, !Z.leb_le. lia. Qed.

Lemma overlaps_false a b :
  range_ok a -> range_ok b -> overlaps a b = false <-> disjoint a b.
Proof.
  intros Ha Hb. unfold overlaps, disjoint. rewrite andb_false_iff, !Z.leb_gt.
  setoid_rewrite contains_true. unfold range_ok in *. split.
  - intros ? v ?. lia.
  - intros Hd. destruct (Z.le_gt_cases (start a) (end_ b)); [|lia].
    destruct (Z.le_gt_cases (start b) (end_ a)); [|lia].
    destruct (Hd (Z.max (start a) (start b))). lia.
Qed.

Lemma resolve_ok which s e d t :
  in_u32 s -> in_u32 e -> in_u32 d -> resolve which s e d = Ok t -> range_ok t.
Proof.
  unfold resolve, range_ok, single, in_u32, u32_max. intros.
  destruct ((s =? 0) && (e =? 0)); [simplify_eq/=; lia|].
  destruct (Z.eqb_spec e 0); [simplify_eq/=; lia|].
  destruct (Z.leb_spec s e); simplify_eq/=. lia.
Qed.

(** A range of one value is not drawn from; any other draw stays inside. *)
Lemma tag_random_contains {R} `{RngCore R} `{!RngLaws R} t (r : R) :
  range_ok t -> contains t (fst (tag_random t r)) = true.
Proof.
  intros [H0 H1]. apply contains_true. unfold tag_random.
  destruct (Z.eqb_spec (start t) (end_ t)); simpl; [lia|].
  destruct (_ && _) eqn:Hf; zbool.
  - pose proof (next_u32_range r). unfold u32_max in *. lia.
  - pose proof (draw_modulo_range (end_ t - start t + 1) r ltac:(lia)).
    destruct (draw_modulo _ _); simpl in *. lia.
Qed.

Lemma range_ok_u32 t v : range_ok t -> contains t v = true -> in_u32 v.
Proof. rewrite contains_true. unfold range_ok, in_u32, u32_max. lia. Qed.

Lemma obf_default_ok : obf_ok obf_default.
Proof.
  split; [repeat constructor; vm_compute; congruence|..];
    intros v; rewrite !contains_true; simpl; unfold HANDSHAKE_INIT, HANDSHAKE_RESP, COOKIE_REPLY, DATA; lia.
Qed.

Lemma obf_range_ok o t : obf_ok o -> In t (obf_ranges o) -> range_ok t.
Proof. intros [Hf _ _ _ _ _ _]. rewrite List.Forall_forall in Hf. auto. Qed.

Lemma random_h1_matches {R} `{RngCore R} `{!RngLaws R} o (r : R) : obf_ok o -> matches_h1 o (fst (random_h1 o r)) = true.
Proof. intros Ho. apply tag_random_contains, (obf_range_ok o); simpl; tauto. Qed.
Lemma random_h2_matches {R} `{RngCore R} `{!RngLaws R} o (r : R) : obf_ok o -> matches_h2 o (fst (random_h2 o r)) = true.
Proof. intros Ho. apply tag_random_contains, (obf_range_ok o); simpl; tauto. Qed.
Lemma random_h3_matches {R} `{RngCore R} `{!RngLaws R} o (r : R) : obf_ok o -> matches_h3 o (fst (random_h3 o r)) = true.
Proof. intros Ho. apply tag_random_contains, (obf_range_ok o); simpl; tauto. Qed.
Lemma random_h4_matches {R} `{RngCore R} `{!RngLaws R} o (r : R) : obf_ok o -> matches_h4 o (fst (random_h4 o r)) = true.
Proof. intros Ho. apply tag_random_contains, (obf_range_ok o); simpl; tauto. Qed.

Lemma check_overlaps_None4 a b c d :
  check_overlaps [a; b; c; d] = None ->
  overlaps (snd a) (snd b) = false /\ overlaps (snd a) (snd c) = false /\
  overlaps (snd a) (snd d) = false /\ overlaps (snd b) (snd c) = false /\
  overlaps (snd b) (snd d) = false /\ overlaps (snd c) (snd d) = false.
Proof.
  destruct a, b, c, d. simpl. unfold check_pair.
  repeat (case_match; try discriminate); simplify_eq; naive_solver.
Qed.

Lemma disjoint_excludes a b v : disjoint a b -> contains a v = true -> contains b v = false.
Proof. intros Hd Ha. apply not_true_iff_false. intros Hb. by destruct (Hd v). Qed.

Lemma disjoint_sym a b : disjoint a b -> disjoint b a.
Proof. intros Hd v ?. apply (Hd v). tauto. Qed.

#[export] Hint Resolve disjoint_excludes disjoint_sym : wg.

Lemma obf_new_ok h1s h1e h2s h2e h3s h3e h4s h4e o :
  Forall in_u32 [h1s; h1e; h2s; h2e; h3s; h3e; h4s; h4e] ->
  obf_new h1s h1e h2s h2e h3s h3e h4s h4e = Ok o -> obf_ok o.
Proof.
  rewrite !List.Forall_cons_iff. intros (? & ? & ? & ? & ? & ? & ? & ? & _). unfold obf_new.
  destruct (resolve 1 _ _ _) as [h1|] eqn:Hr1; [|done]. destruct (resolve 2 _ _ _) as [h2|] eqn:Hr2; [|done].
  destruct (resolve 3 _ _ _) as [h3|] eqn:Hr3; [|done]. destruct (resolve 4 _ _ _) as [h4|] eqn:Hr4; [|done].
  apply resolve_ok in Hr1, Hr2, Hr3, Hr4; try done. cbn [rbind].
  destruct (check_overlaps _) eqn:Hc; [done|]. intros [= <-].
  apply check_overlaps_None4 in Hc as (?%overlaps_false & ?%overlaps_false & ?%overlaps_false &
    ?%overlaps_false & ?%overlaps_false & ?%overlaps_false); try done.
  split; simpl; try done. eauto 8 using List.Forall_nil, List.Forall_cons.
Qed.

Section Exclusive.
Context (o : ObfuscationRanges) (Ho : obf_ok o) (v : Z).

Definition kinds_of : bool * bool * bool * bool :=
  (matches_h1 o v, matches_h2 o v, matches_h3 o v, matches_h4 o v).

Lemma matches_h1_only : matches_h1 o v = true -> kinds_of = (true, false, false, false).
Proof. unfold kinds_of. intros H. rewrite H. destruct Ho. repeat f_equal; eauto with wg. Qed.
Lemma matches_h2_only : matches_h2 o v = true -> kinds_of = (false, true, false, false).
Proof. unfold kinds_of. intros H. rewrite H. destruct Ho. repeat f_equal; eauto with wg. Qed.
Lemma matches_h3_only : matches_h3 o v = true -> kinds_of = (false, false, true, false).
Proof. unfold kinds_of. intros H. rewrite H. destruct Ho. repeat f_equal; eauto with wg. Qed.
Lemma matches_h4_only : matches_h4 o v = true -> kinds_of = (false, false, false, true).
Proof. unfold kinds_of. intros H. rewrite H. destruct Ho. repeat f_equal; eauto with wg. Qed.
End Exclusive.

(** [ObfuscationRanges::new], on any eight 32-bit words, accepts only
    ranges that lie in the 32-bit space and are pairwise disjoint, so that a
    tag drawn from one range names that packet kind and no other: whatever
    the generator, the tag [random_h_i] draws is matched by [matches_h_i] and
    by none of the other three. *)
Theorem obf_new_sound {R} `{RngCore R} `{!RngLaws R} h1s h1e h2s h2e h3s h3e h4s h4e o (r : R) :
  Forall in_u32 [h1s; h1e; h2s; h2e; h3s; h3e; h4s; h4e] ->
  obf_new h1s h1e h2s h2e h3s h3e h4s h4e = Ok o ->
  obf_ok o /\
  kinds_of o (fst (random_h1 o r)) = (true, false, false, false) /\
  kinds_of o (fst (random_h2 o r)) = (false, true, false, false) /\
  kinds_of o (fst (random_h3 o r)) = (false, false, true, false) /\
  kinds_of o (fst (random_h4 o r)) = (false, false, false, true).
Proof.
  intros Hin Hnew%obf_new_ok; [|done]. split; [done|].
  split_and!; [apply matches_h1_only|apply matches_h2_only|apply matches_h3_only|apply matches_h4_only];
    auto using random_h1_matches, random_h2_matches, random_h3_matches, random_h4_matches.
Qed.

Lemma obf_new_sound_witness :
  exists o, obf_new 5 9 10 0 0 0 100 (2 ^ 32 - 1) = Ok o /\
  kinds_of o (fst (random_h4 o 7)) = (false, false, false, true).
Proof.
  eexists. split; [cbv; reflexivity|].
  eapply (obf_new_sound (R := Z) 5 9 10 0 0 0 100 (2 ^ 32 - 1)); [|cbv; reflexivity].
  repeat constructor; vm_compute; congruence.
Defined.
