(* ===== verification/Packet.v ===== *)
(** Wire formats: the packet types of [noise/mod.rs], [parse_incoming_packet]
    and [dst_address]. *)

From S2P Require Import Prelude Budget Rand Tags.

(** Number of sessions in the ring, and packets in the queue of a tunnel. *)
Definition N_SESSIONS : Z := 8.
Definition MAX_QUEUE_DEPTH : Z := 256.
Definition HANDSHAKE_INIT_SZ : Z := 148.
Definition HANDSHAKE_RESP_SZ : Z := 92.
Definition COOKIE_REPLY_SZ : Z := 64.

Record HandshakeInit := {
  hi_sender_idx : Z;
  hi_unencrypted_ephemeral : bytes;
  hi_encrypted_static : bytes;
  hi_encrypted_timestamp : bytes;
}.

Record HandshakeResponse := {
  hr_sender_idx : Z;
  hr_receiver_idx : Z;
  hr_unencrypted_ephemeral : bytes;
  hr_encrypted_nothing : bytes;
}.

Record PacketCookieReply := {
  cr_receiver_idx : Z;
  cr_nonce : bytes;
  cr_encrypted_cookie : bytes;
}.

Record PacketData := {
  pd_receiver_idx : Z;
  pd_counter : Z;
  pd_encrypted_encapsulated_packet : bytes;
}.

Inductive Packet :=
| PHandshakeInit (p : HandshakeInit)
| PHandshakeResponse (p : HandshakeResponse)
| PPacketCookieReply (p : PacketCookieReply)
| PPacketData (p : PacketData).

(** [u32::from_le_bytes(src[lo..lo + 4])] and the 64-bit form. *)
Definition le_u32 (lo : Z) (src : bytes) : Z := of_le (slice lo (lo + 4) src).
Definition le_u64 (lo : Z) (src : bytes) : Z := of_le (slice lo (lo + 8) src).

Definition parse_incoming_packet (obf : ObfuscationRanges) (src : bytes)
  : result WireGuardError Packet :=
  if len src <? 4 then Err InvalidPacket else
  let v := le_u32 0 src in
  if (len src =? HANDSHAKE_INIT_SZ) && matches_h1 obf v then
    Ok (PHandshakeInit {|
      hi_sender_idx := le_u32 4 src;
      hi_unencrypted_ephemeral := slice 8 40 src;
      hi_encrypted_static := slice 40 88 src;
      hi_encrypted_timestamp := slice 88 116 src |})
  else if (len src =? HANDSHAKE_RESP_SZ) && matches_h2 obf v then
    Ok (PHandshakeResponse {|
      hr_sender_idx := le_u32 4 src;
      hr_receiver_idx := le_u32 8 src;
      hr_unencrypted_ephemeral := slice 12 44 src;
      hr_encrypted_nothing := slice 44 60 src |})
  else if (len src =? COOKIE_REPLY_SZ) && matches_h3 obf v then
    Ok (PPacketCookieReply {|
      cr_receiver_idx := le_u32 4 src;
      cr_nonce := slice 8 32 src;
      cr_encrypted_cookie := slice 32 64 src |})
  else if (DATA_OVERHEAD_SZ <=? len src) && matches_h4 obf v then
    Ok (PPacketData {|
      pd_receiver_idx := le_u32 4 src;
      pd_counter := le_u64 8 src;
      pd_encrypted_encapsulated_packet := zdrop 16 src |})
  else Err InvalidPacket.

(** ** The destination of a plaintext packet *)

Inductive IpAddr := V4 (octets : bytes) | V6 (octets : bytes).

#[export] Instance IpAddr_eq_dec : EqDecision IpAddr.
Proof. solve_decision. Defined.

Definition IPV4_MIN_HEADER_SIZE : Z := 20.
Definition IPV4_LEN_OFF : Z := 2.
Definition IPV4_SRC_IP_OFF : Z := 12.
Definition IPV4_DST_IP_OFF : Z := 16.
Definition IPV4_IP_SZ : Z := 4.
Definition IPV6_MIN_HEADER_SIZE : Z := 40.
Definition IPV6_LEN_OFF : Z := 4.
Definition IPV6_SRC_IP_OFF : Z := 8.
Definition IPV6_DST_IP_OFF : Z := 24.
Definition IPV6_IP_SZ : Z := 16.
Definition IP_LEN_SZ : Z := 2.

(** [packet[0] >> 4]. *)
Definition ip_ok (ip : IpAddr) : Prop :=
  match ip with V4 o => len o = 4 | V6 o => len o = 16 end.

Definition ip_version (b : Init.Byte.byte) : Z := Z.shiftr (byte.unsigned b) 4.

Definition dst_address (packet : bytes) : option IpAddr :=
  match packet with
  | [] => None
  | b :: _ =>
      if (ip_version b =? 4) && (IPV4_MIN_HEADER_SIZE <=? len packet) then
        Some (V4 (slice IPV4_DST_IP_OFF (IPV4_DST_IP_OFF + IPV4_IP_SZ) packet))
      else if (ip_version b =? 6) && (IPV6_MIN_HEADER_SIZE <=? len packet) then
        Some (V6 (slice IPV6_DST_IP_OFF (IPV6_DST_IP_OFF + IPV6_IP_SZ) packet))
      else None
  end.

(** ** Well-formed packets

    Every slice the parser takes is inside the datagram, so every field has
    the length the cryptography expects. *)

Definition packet_ok (p : Packet) : Prop :=
  match p with
  | PHandshakeInit p => in_u32 (hi_sender_idx p) /\ len (hi_unencrypted_ephemeral p) = 32 /\
      len (hi_encrypted_static p) = 48 /\ len (hi_encrypted_timestamp p) = 28
  | PHandshakeResponse p => in_u32 (hr_sender_idx p) /\ in_u32 (hr_receiver_idx p) /\
      len (hr_unencrypted_ephemeral p) = 32 /\ len (hr_encrypted_nothing p) = 16
  | PPacketCookieReply p => in_u32 (cr_receiver_idx p) /\ len (cr_nonce p) = 24 /\
      len (cr_encrypted_cookie p) = 32
  | PPacketData p => in_u32 (pd_receiver_idx p) /\ in_u64 (pd_counter p) /\
      16 <= len (pd_encrypted_encapsulated_packet p)
  end.

Lemma le_u32_range lo src : in_u32 (le_u32 lo src).
Proof.
  unfold le_u32, in_u32, u32_max. pose proof (of_le_bound (slice lo (lo + 4) src)) as Hb.
  assert (len (slice lo (lo + 4) src) <= 4) by (unfold slice; len_lia).
  pose proof (Z.pow_le_mono_r 2 (8 * len (slice lo (lo + 4) src)) 32 ltac:(lia) ltac:(lia)). lia.
Qed.
Lemma le_u64_range lo src : in_u64 (le_u64 lo src).
Proof.
  unfold le_u64, in_u64, u64_max. pose proof (of_le_bound (slice lo (lo + 8) src)) as Hb.
  assert (len (slice lo (lo + 8) src) <= 8) by (unfold slice; len_lia).
  pose proof (Z.pow_le_mono_r 2 (8 * len (slice lo (lo + 8) src)) 64 ltac:(lia) ltac:(lia)). lia.
Qed.
#[export] Hint Resolve le_u32_range le_u64_range : wg.

Lemma parse_packet_ok obf src p : parse_incoming_packet obf src = Ok p -> packet_ok p.
Proof.
  unfold parse_incoming_packet, HANDSHAKE_INIT_SZ, HANDSHAKE_RESP_SZ, COOKIE_REPLY_SZ, DATA_OVERHEAD_SZ.
  intros H. repeat (case_hyp H; simplify_eq); zbool; simpl; rewrite ?len_slice by lia;
    split_and!; auto with wg; len_lia.
Qed.

(** The fields of a message laid out as a concatenation. *)
Lemma le_u32_app lo a v rest :
  lo = len a -> in_u32 v -> le_u32 lo (a ++ to_le 4 v ++ rest) = v.
Proof.
  intros -> Hv. unfold le_u32. rewrite slice_app_skip by lia.
  replace (len a - len a) with 0 by lia. rewrite slice_app_head by (rewrite len_to_le; lia).
  apply of_le_to_le. unfold in_u32, u32_max in Hv. lia.
Qed.
Lemma le_u32_head v rest : in_u32 v -> le_u32 0 (to_le 4 v ++ rest) = v.
Proof. apply (le_u32_app 0 []). done. Qed.
Lemma le_u64_app lo a v rest :
  lo = len a -> in_u64 v -> le_u64 lo (a ++ to_le 8 v ++ rest) = v.
Proof.
  intros -> Hv. unfold le_u64. rewrite slice_app_skip by lia.
  replace (len a - len a) with 0 by lia. rewrite slice_app_head by (rewrite len_to_le; lia).
  apply of_le_to_le. unfold in_u64, u64_max in Hv. lia.
Qed.

(** A field in the middle of a concatenation. *)
Section Layouts.
Context (obf : ObfuscationRanges) (Hobf : obf_ok obf).

(** The four layouts a peer writes, and what the parser reads in them. *)
Definition init_bytes (tag idx : Z) (eph st ts macs : bytes) : bytes :=
  to_le 4 tag ++ to_le 4 idx ++ eph ++ st ++ ts ++ macs.
Definition resp_bytes (tag sender receiver : Z) (eph nothing macs : bytes) : bytes :=
  to_le 4 tag ++ to_le 4 sender ++ to_le 4 receiver ++ eph ++ nothing ++ macs.
Definition cookie_bytes (tag idx : Z) (nonce cookie : bytes) : bytes :=
  to_le 4 tag ++ to_le 4 idx ++ nonce ++ cookie.
Definition data_bytes (tag idx counter : Z) (ct : bytes) : bytes :=
  to_le 4 tag ++ to_le 4 idx ++ to_le 8 counter ++ ct.

Lemma u32_of_range v t : In t (obf_ranges obf) -> contains t v = true -> in_u32 v.
Proof. intros Ht. apply range_ok_u32. by apply (obf_range_ok obf). Qed.

Ltac kinds H :=
  pose proof H as Hk; unfold kinds_of in Hk; injection Hk as Hk1 Hk2 Hk3 Hk4.

Lemma parse_data tag idx counter ct :
  matches_h4 obf tag = true -> in_u32 idx -> in_u64 counter -> 16 <= len ct ->
  parse_incoming_packet obf (data_bytes tag idx counter ct) =
    Ok (PPacketData {| pd_receiver_idx := idx; pd_counter := counter;
                       pd_encrypted_encapsulated_packet := ct |}).
Proof.
  intros Ht Hi Hc Hct. kinds (matches_h4_only obf Hobf tag Ht).
  assert (in_u32 tag) by (eapply u32_of_range; [|exact Ht]; simpl; tauto).
  unfold parse_incoming_packet, data_bytes, HANDSHAKE_INIT_SZ, HANDSHAKE_RESP_SZ, COOKIE_REPLY_SZ, DATA_OVERHEAD_SZ.
  rewrite le_u32_head by done. rewrite Hk1, Hk2, Hk3, Hk4, !andb_false_r, andb_true_r.
  destruct (Z.ltb_spec (len (to_le 4 tag ++ to_le 4 idx ++ to_le 8 counter ++ ct)) 4); [len_lia|].
  destruct (Z.leb_spec 32 (len (to_le 4 tag ++ to_le 4 idx ++ to_le 8 counter ++ ct))); [|len_lia].
  rewrite (le_u32_app 4 (to_le 4 tag)) by (rewrite ?len_to_le; done || lia).
  rewrite (app_assoc (to_le 4 tag)).
  rewrite (le_u64_app 8 (to_le 4 tag ++ to_le 4 idx)) by (len_lia || done).
  rewrite app_assoc, zdrop_app_exact by len_lia. done.
Qed.

Lemma parse_init tag idx eph st ts macs :
  matches_h1 obf tag = true -> in_u32 idx -> len eph = 32 -> len st = 48 -> len ts = 28 ->
  len macs = 32 ->
  parse_incoming_packet obf (init_bytes tag idx eph st ts macs) =
    Ok (PHandshakeInit {| hi_sender_idx := idx; hi_unencrypted_ephemeral := eph;
          hi_encrypted_static := st; hi_encrypted_timestamp := ts |}).
Proof.
  intros Ht Hi He Hs Hts Hm. kinds (matches_h1_only obf Hobf tag Ht).
  assert (in_u32 tag) by (eapply u32_of_range; [|exact Ht]; simpl; tauto).
  assert (len (init_bytes tag idx eph st ts macs) = 148) as Hl by (unfold init_bytes; len_lia).
  unfold parse_incoming_packet. rewrite Hl. unfold init_bytes.
  rewrite le_u32_head by done. rewrite Hk1. simpl (_ && _). cbv iota beta.
  rewrite (le_u32_app 4 (to_le 4 tag)) by (rewrite ?len_to_le; done || lia).
  do 3 f_equal; rewrite (app_assoc (to_le 4 tag)).
  - apply slice_mid; len_lia.
  - rewrite (app_assoc _ eph). apply slice_mid; len_lia.
  - rewrite (app_assoc _ eph), (app_assoc _ st). apply slice_mid; len_lia.
Qed.

Lemma parse_resp tag sender receiver eph nothing macs :
  matches_h2 obf tag = true -> in_u32 sender -> in_u32 receiver -> len eph = 32 ->
  len nothing = 16 -> len macs = 32 ->
  parse_incoming_packet obf (resp_bytes tag sender receiver eph nothing macs) =
    Ok (PHandshakeResponse {| hr_sender_idx := sender; hr_receiver_idx := receiver;
          hr_unencrypted_ephemeral := eph; hr_encrypted_nothing := nothing |}).
Proof.
  intros Ht Hi Hr He Hn Hm. kinds (matches_h2_only obf Hobf tag Ht).
  assert (in_u32 tag) by (eapply u32_of_range; [|exact Ht]; simpl; tauto).
  assert (len (resp_bytes tag sender receiver eph nothing macs) = 92) as Hl by (unfold resp_bytes; len_lia).
  unfold parse_incoming_packet. rewrite Hl. unfold resp_bytes.
  rewrite le_u32_head by done. rewrite Hk1, Hk2. simpl (_ && _). cbv iota beta.
  rewrite (le_u32_app 4 (to_le 4 tag)) by (rewrite ?len_to_le; done || lia).
  rewrite (app_assoc (to_le 4 tag)).
  rewrite (le_u32_app 8 (to_le 4 tag ++ to_le 4 sender)) by (len_lia || done).
  do 3 f_equal; rewrite (app_assoc _ (to_le 4 receiver)).
  - apply slice_mid; len_lia.
  - rewrite (app_assoc _ eph). apply slice_mid; len_lia.
Qed.

Lemma parse_cookie tag idx nonce cookie :
  matches_h3 obf tag = true -> in_u32 idx -> len nonce = 24 -> len cookie = 32 ->
  parse_incoming_packet obf (cookie_bytes tag idx nonce cookie) =
    Ok (PPacketCookieReply {| cr_receiver_idx := idx; cr_nonce := nonce;
          cr_encrypted_cookie := cookie |}).
Proof.
  intros Ht Hi Hn Hc. kinds (matches_h3_only obf Hobf tag Ht).
  assert (in_u32 tag) by (eapply u32_of_range; [|exact Ht]; simpl; tauto).
  assert (len (cookie_bytes tag idx nonce cookie) = 64) as Hl by (unfold cookie_bytes; len_lia).
  unfold parse_incoming_packet. rewrite Hl. unfold cookie_bytes.
  rewrite le_u32_head by done. rewrite Hk1, Hk2, Hk3. simpl (_ && _). cbv iota beta.
  rewrite (le_u32_app 4 (to_le 4 tag)) by (rewrite ?len_to_le; done || lia).
  do 3 f_equal; rewrite (app_assoc (to_le 4 tag)).
  - apply slice_mid; len_lia.
  - rewrite <- (app_nil_r cookie) at 1. rewrite (app_assoc _ nonce). apply slice_mid; len_lia.
Qed.
End Layouts.

(** [parse_incoming_packet] reads back exactly the fields that were laid
    out, for each of the four message kinds, under any accepted tag ranges and
    for every 32-bit index and 64-bit counter. *)
Theorem parse_layouts (obf : ObfuscationRanges) :
  obf_ok obf ->
  (forall tag idx eph st ts macs, matches_h1 obf tag = true -> in_u32 idx -> len eph = 32 ->
     len st = 48 -> len ts = 28 -> len macs = 32 ->
     parse_incoming_packet obf (init_bytes tag idx eph st ts macs) =
       Ok (PHandshakeInit (Build_HandshakeInit idx eph st ts))) /\
  (forall tag s r eph nothing macs, matches_h2 obf tag = true -> in_u32 s -> in_u32 r ->
     len eph = 32 -> len nothing = 16 -> len macs = 32 ->
     parse_incoming_packet obf (resp_bytes tag s r eph nothing macs) =
       Ok (PHandshakeResponse (Build_HandshakeResponse s r eph nothing))) /\
  (forall tag idx nonce cookie, matches_h3 obf tag = true -> in_u32 idx -> len nonce = 24 ->
     len cookie = 32 ->
     parse_incoming_packet obf (cookie_bytes tag idx nonce cookie) =
       Ok (PPacketCookieReply (Build_PacketCookieReply idx nonce cookie))) /\
  (forall tag idx counter ct, matches_h4 obf tag = true -> in_u32 idx -> in_u64 counter ->
     16 <= len ct ->
     parse_incoming_packet obf (data_bytes tag idx counter ct) =
       Ok (PPacketData (Build_PacketData idx counter ct))).
Proof.
  intros Hobf. split_and!; intros; [by apply parse_init|by apply parse_resp|by apply parse_cookie|by apply parse_data].
Qed.

Lemma parse_layouts_witness :
  parse_incoming_packet obf_default (data_bytes DATA 7 9 (zeros 16)) =
    Ok (PPacketData (Build_PacketData 7 9 (zeros 16))).
Proof.
  apply (parse_layouts obf_default obf_default_ok); vm_compute; try split; congruence.
Defined.
