(* ===== verification/Replay.v ===== *)
(** The receive window: [ReceivingKeyCounterValidator] of [noise/session.rs].

    The code keeps a bitmap of 8192 bits over 128 words, indexed modulo its
    size, and clears it bit by bit or word by word as the window moves. The
    specification is the set of counters accepted so far: [window_inv v seen]
    relates a validator to it, and [mark_did_receive_refines] shows that
    marking decides exactly as the set does.

    The array index [word] of the code is below 128 for every counter, so the
    indexing cannot panic; additions on [u64] are written with [wrap64] and
    never wrap, by the invariant. The loops run on fuel, the distance to the
    counter; their lemmas show they end with their guards false. *)

From S2P Require Import Prelude Budget.

Definition WORD_SIZE : Z := 64.
Definition N_WORDS : Z := 128.
Definition N_BITS : Z := WORD_SIZE * N_WORDS.
Definition REJECT_AFTER_MESSAGES : Z := u64_max - Z.shiftl 1 13.

Record ReceivingKeyCounterValidator := {
  next : Z;
  receive_cnt : Z;
  bitmap : list Z;
}.

Definition validator_default : ReceivingKeyCounterValidator :=
  {| next := 0; receive_cnt := 0; bitmap := zreplicate N_WORDS 0 |}.

Definition with_bitmap (v : ReceivingKeyCounterValidator) (b : list Z) :=
  {| next := next v; receive_cnt := receive_cnt v; bitmap := b |}.
Definition with_next (v : ReceivingKeyCounterValidator) (n : Z) :=
  {| next := n; receive_cnt := receive_cnt v; bitmap := bitmap v |}.

Definition word_of (idx : Z) : Z := (idx mod N_BITS) / WORD_SIZE.
Definition bit_of (idx : Z) : Z := (idx mod N_BITS) mod WORD_SIZE.
Definition get_word (v : ReceivingKeyCounterValidator) (w : Z) : Z :=
  default 0 (zget (bitmap v) w).

Definition set_bit (v : ReceivingKeyCounterValidator) (idx : Z) :=
  with_bitmap v (zset (bitmap v) (word_of idx)
    (Z.lor (get_word v (word_of idx)) (Z.shiftl 1 (bit_of idx)))).

(** [!x] on [u64]. *)
Definition not64 (x : Z) : Z := wrap64 (Z.lnot x).

Definition clear_bit (v : ReceivingKeyCounterValidator) (idx : Z) :=
  with_bitmap v (zset (bitmap v) (word_of idx)
    (Z.land (get_word v (word_of idx)) (not64 (Z.shiftl 1 (bit_of idx))))).

Definition clear_word (v : ReceivingKeyCounterValidator) (idx : Z) :=
  with_bitmap v (zset (bitmap v) (word_of idx) 0).

Definition check_bit (v : ReceivingKeyCounterValidator) (idx : Z) : bool :=
  Z.land (Z.shiftr (get_word v (word_of idx)) (bit_of idx)) 1 =? 1.

Definition will_accept (v : ReceivingKeyCounterValidator) (counter : Z) : result WireGuardError unit :=
  if counter >=? REJECT_AFTER_MESSAGES then Err InvalidCounter
  else if counter >=? next v then Ok tt
  else if wrap64 (counter + N_BITS) <? next v then Err InvalidCounter
  else if negb (check_bit v counter) then Ok tt else Err DuplicateCounter.

(** [while i % WORD_SIZE != 0 && i < counter { clear_bit(i); i += 1 }] *)
Fixpoint clear_until_aligned (fuel : nat) (v : ReceivingKeyCounterValidator) (i counter : Z) :=
  match fuel with
  | O => (v, i)
  | S fuel =>
      if negb (i mod WORD_SIZE =? 0) && (i <? counter)
      then clear_until_aligned fuel (clear_bit v i) (wrap64 (i + 1)) counter
      else (v, i)
  end.

(** [while i + WORD_SIZE < counter { clear_word(i); i = (i + WORD_SIZE) & -WORD_SIZE }] *)
Fixpoint clear_words (fuel : nat) (v : ReceivingKeyCounterValidator) (i counter : Z) :=
  match fuel with
  | O => (v, i)
  | S fuel =>
      if wrap64 (i + WORD_SIZE) <? counter
      then clear_words fuel (clear_word v i)
             (Z.land (wrap64 (i + WORD_SIZE)) (wrap64 (0 - WORD_SIZE))) counter
      else (v, i)
  end.

(** [while i < counter { clear_bit(i); i += 1 }] *)
Fixpoint clear_remaining (fuel : nat) (v : ReceivingKeyCounterValidator) (i counter : Z) :=
  match fuel with
  | O => (v, i)
  | S fuel =>
      if i <? counter then clear_remaining fuel (clear_bit v i) (wrap64 (i + 1)) counter
      else (v, i)
  end.

Definition fuel_to (i counter : Z) : nat := Z.to_nat (counter - i).

(** The three loops in sequence. *)
Definition clear_range (v : ReceivingKeyCounterValidator) (counter : Z) :=
  let '(v, i) := clear_until_aligned (fuel_to (next v) counter) v (next v) counter in
  let '(v, i) := clear_words (fuel_to i counter) v i counter in
  let '(v, _) := clear_remaining (fuel_to i counter) v i counter in
  v.

Definition mark_did_receive (v : ReceivingKeyCounterValidator) (counter : Z)
  : result WireGuardError unit * ReceivingKeyCounterValidator :=
  if counter >=? REJECT_AFTER_MESSAGES then (Err InvalidCounter, v)
  else if wrap64 (counter + N_BITS) <? next v then (Err InvalidCounter, v)
  else if counter =? next v then
    let v := set_bit v counter in (Ok tt, with_next v (wrap64 (next v + 1)))
  else if counter <? next v then
    if check_bit v counter then (Err InvalidCounter, v) else (Ok tt, set_bit v counter)
  else
    let v := if counter - next v >=? N_BITS
             then with_bitmap v (map (fun _ => 0) (bitmap v))
             else clear_range v counter in
    (Ok tt, with_next (set_bit v counter) (wrap64 (counter + 1))).

(** ** The bit of a counter *)

Definition bit (v : ReceivingKeyCounterValidator) (idx : Z) : bool :=
  Z.testbit (get_word v (word_of idx)) (bit_of idx).

Definition shape (v : ReceivingKeyCounterValidator) : Prop := len (bitmap v) = N_WORDS.

Ltac unfold_consts := unfold N_BITS, WORD_SIZE, N_WORDS in *.

(** Residues modulo 64 and 8192. *)
Ltac residues := unfold word_of, bit_of in *; unfold_consts; Z.to_euclidean_division_equations; lia.

Lemma word_of_range i : 0 <= word_of i < N_WORDS.
Proof. residues. Qed.
Lemma bit_of_range i : 0 <= bit_of i < WORD_SIZE.
Proof. residues. Qed.
Lemma position_inj i j : word_of i = word_of j -> bit_of i = bit_of j -> i mod N_BITS = j mod N_BITS.
Proof. residues. Qed.
Lemma position_eq i j : i mod N_BITS = j mod N_BITS -> word_of i = word_of j /\ bit_of i = bit_of j.
Proof. unfold word_of, bit_of. by intros ->. Qed.

Lemma get_word_zset v i x j :
  shape v ->
  get_word (with_bitmap v (zset (bitmap v) (word_of i) x)) j
    = if decide (word_of i = j) then x else get_word v j.
Proof.
  intros Hs. unfold get_word, shape in *. simpl. rewrite zget_zset. pose proof (word_of_range i).
  rewrite Hs. repeat case_decide; try done; [tauto|]. exfalso. tauto.
Qed.

Lemma shape_zset v i x : shape v -> shape (with_bitmap v (zset (bitmap v) i x)).
Proof. unfold shape. simpl. by rewrite len_zset. Qed.

Lemma check_bit_eq v i : check_bit v i = bit v i.
Proof.
  unfold check_bit, bit. pose proof (bit_of_range i).
  rewrite Z.testbit_odd. change 1 with (Z.ones 1) at 1. rewrite Z.land_ones by lia.
  change (2 ^ 1) with 2. rewrite Zmod_odd. by destruct (Z.odd _).
Qed.

Lemma not64_shift_testbit b n : 0 <= b < 64 -> 0 <= n < 64 ->
  Z.testbit (not64 (Z.shiftl 1 b)) n = negb (b =? n).
Proof.
  intros Hb Hn. unfold not64, wrap64. rewrite Z.mod_pow2_bits_low by lia.
  rewrite Z.lnot_spec by lia. f_equal. rewrite Z.shiftl_1_l. apply Z.pow2_bits_eqb. lia.
Qed.

Lemma bit_set_bit v i j : shape v ->
  bit (set_bit v i) j = if decide (i mod N_BITS = j mod N_BITS) then true else bit v j.
Proof.
  intros Hs. unfold bit, set_bit. rewrite get_word_zset by done.
  pose proof (bit_of_range i). pose proof (bit_of_range j).
  destruct (decide (i mod N_BITS = j mod N_BITS)) as [Hm|Hm].
  - apply position_eq in Hm as [-> Hb]. rewrite decide_True by done.
    rewrite Z.lor_spec, Z.shiftl_1_l, Z.pow2_bits_eqb, Hb, Z.eqb_refl by lia. apply orb_true_r.
  - case_decide as Hw; [|done]. rewrite Z.lor_spec, Z.shiftl_1_l, Z.pow2_bits_eqb by lia.
    destruct (Z.eqb_spec (bit_of i) (bit_of j)); [by destruct Hm; apply position_inj|].
    by rewrite orb_false_r, Hw.
Qed.

Lemma bit_clear_bit v i j : shape v ->
  bit (clear_bit v i) j = if decide (i mod N_BITS = j mod N_BITS) then false else bit v j.
Proof.
  intros Hs. unfold bit, clear_bit. rewrite get_word_zset by done.
  pose proof (bit_of_range i) as Hi. pose proof (bit_of_range j) as Hj. unfold WORD_SIZE in Hi, Hj.
  destruct (decide (i mod N_BITS = j mod N_BITS)) as [Hm|Hm].
  - apply position_eq in Hm as [-> Hb]. rewrite decide_True by done.
    rewrite Z.land_spec, not64_shift_testbit, Hb, Z.eqb_refl by lia. apply andb_false_r.
  - case_decide as Hw; [|done]. rewrite Z.land_spec, not64_shift_testbit by lia.
    destruct (Z.eqb_spec (bit_of i) (bit_of j)); [by destruct Hm; apply position_inj|].
    by rewrite andb_true_r, Hw.
Qed.

Lemma bit_clear_word v i j : shape v ->
  bit (clear_word v i) j = if decide (word_of i = word_of j) then false else bit v j.
Proof.
  intros Hs. unfold bit, clear_word. rewrite get_word_zset by done.
  case_decide; [|done]. apply Z.bits_0.
Qed.

(** ** Clearing a range of counters

    [cleared lo hi v v']: the bits of the counters in [lo..hi), and no others,
    are cleared from [v] to [v']. *)

Record cleared (lo hi : Z) (v v' : ReceivingKeyCounterValidator) : Prop := {
  cl_shape : shape v';
  cl_next : next v' = next v;
  cl_cnt : receive_cnt v' = receive_cnt v;
  cl_in i j : lo <= i < hi -> i mod N_BITS = j mod N_BITS -> bit v' j = false;
  cl_out j : (forall i, lo <= i < hi -> i mod N_BITS <> j mod N_BITS) -> bit v' j = bit v j;
  cl_mono j : bit v' j = true -> bit v j = true;
}.

Lemma cleared_refl lo v : shape v -> cleared lo lo v v.
Proof. intros. split; auto. lia. Qed.

Lemma cleared_trans lo mid hi v1 v2 v3 :
  lo <= mid <= hi -> cleared lo mid v1 v2 -> cleared mid hi v2 v3 -> cleared lo hi v1 v3.
Proof.
  intros Hm H1 H2. split.
  - apply H2.
  - by rewrite (cl_next _ _ _ _ H2), (cl_next _ _ _ _ H1).
  - by rewrite (cl_cnt _ _ _ _ H2), (cl_cnt _ _ _ _ H1).
  - intros i j Hi Hij. destruct (Z.lt_ge_cases i mid).
    + apply not_true_is_false. intros Ht%(cl_mono _ _ _ _ H2).
      rewrite (cl_in _ _ _ _ H1 i j) in Ht by (done || lia). done.
    + apply (cl_in _ _ _ _ H2 i j); [lia|done].
  - intros j Hj. rewrite (cl_out _ _ _ _ H2), (cl_out _ _ _ _ H1); [done|..];
      intros i Hi; apply Hj; lia.
  - intros j Hj. by apply (cl_mono _ _ _ _ H1), (cl_mono _ _ _ _ H2).
Qed.

Lemma cleared_bit v i : shape v -> cleared i (i + 1) v (clear_bit v i).
Proof.
  intros Hs. split; try done.
  - by apply shape_zset.
  - intros k j Hk Hkj. rewrite bit_clear_bit by done. replace k with i in Hkj by lia.
    by rewrite decide_True.
  - intros j Hj. rewrite bit_clear_bit by done. rewrite decide_False; [done|]. apply Hj. lia.
  - intros j. rewrite bit_clear_bit by done. by case_decide.
Qed.

Lemma aligned_word i j : i mod WORD_SIZE = 0 ->
  word_of i = word_of j <-> exists k, i <= k < i + WORD_SIZE /\ k mod N_BITS = j mod N_BITS.
Proof.
  intros Ha. split.
  - intros Hw. exists (i + bit_of j). residues.
  - intros (k & Hk & Hkj). unfold word_of. rewrite <- Hkj. residues.
Qed.

Lemma cleared_word v i : shape v -> i mod WORD_SIZE = 0 ->
  cleared i (i + WORD_SIZE) v (clear_word v i).
Proof.
  intros Hs Ha. split; try done.
  - by apply shape_zset.
  - intros k j Hk Hkj. rewrite bit_clear_word by done. rewrite decide_True; [done|].
    apply aligned_word; eauto.
  - intros j Hj. rewrite bit_clear_word by done. rewrite decide_False; [done|].
    rewrite aligned_word by done. intros (k & Hk & Hkj). by apply (Hj k).
  - intros j. rewrite bit_clear_word by done. by case_decide.
Qed.

Lemma wrap64_small z : 0 <= z <= u64_max -> wrap64 z = z.
Proof. unfold wrap64, u64_max. intros. apply Z.mod_small. lia. Qed.

(** ** The loops *)

Section Loops.
Context (counter : Z) (Hcounter : 0 <= counter < REJECT_AFTER_MESSAGES).

Lemma counter_room : counter + N_BITS <= u64_max.
Proof. pose proof Hcounter as Hc. unfold REJECT_AFTER_MESSAGES, u64_max in *. unfold_consts. change (Z.shiftl 1 13) with 8192 in Hc. lia. Qed.

Lemma clear_until_aligned_spec fuel v i :
  shape v -> 0 <= i <= counter -> (fuel_to i counter <= fuel)%nat ->
  let '(v', i') := clear_until_aligned fuel v i counter in
  i <= i' <= counter /\ (i' mod WORD_SIZE = 0 \/ i' = counter) /\ cleared i i' v v'.
Proof.
  pose proof counter_room. unfold fuel_to. revert v i.
  induction fuel as [|fuel IH]; intros v i Hs Hi Hf; simpl.
  { split_and!; [lia|lia|lia|]. by apply cleared_refl. }
  destruct (Z.eqb_spec (i mod WORD_SIZE) 0); simpl.
  { split_and!; [lia|lia|by left|]. by apply cleared_refl. }
  destruct (Z.ltb_spec i counter).
  - rewrite wrap64_small by (unfold_consts; lia).
    specialize (IH (clear_bit v i) (i + 1) ltac:(by apply shape_zset) ltac:(lia) ltac:(lia)).
    destruct (clear_until_aligned _ _ _ _) as [v' i']. destruct IH as ([??] & ? & ?).
    split_and!; try done; [lia|]. eapply cleared_trans; [|by apply cleared_bit|done]. lia.
  - split_and!; [lia|lia|lia|]. by apply cleared_refl.
Qed.

Lemma land_align x : 0 <= x <= u64_max -> Z.land x (wrap64 (0 - WORD_SIZE)) = x - x mod WORD_SIZE.
Proof.
  intros Hx. unfold WORD_SIZE. apply Z.bits_inj'. intros n Hn.
  replace (x - x mod 64) with (Z.shiftl (Z.shiftr x 6) 6).
  2: { rewrite Z.shiftl_mul_pow2, Z.shiftr_div_pow2 by lia. change (2 ^ 6) with 64.
       pose proof (Z.div_mod x 64). lia. }
  change (wrap64 (0 - 64)) with (Z.shiftl (Z.ones 58) 6).
  rewrite Z.land_spec, !Z.shiftl_spec by lia. destruct (Z.lt_ge_cases n 6).
  { rewrite !(Z.testbit_neg_r _ (n - 6)) by lia. apply andb_false_r. }
  rewrite Z.shiftr_spec by lia. replace (n - 6 + 6) with n by lia.
  rewrite Z.testbit_ones_nonneg by lia. destruct (Z.ltb_spec (n - 6) 58); [apply andb_true_r|].
  rewrite andb_false_r. symmetry. apply (bits_above 64); [unfold u64_max in Hx|]; lia.
Qed.

Lemma clear_words_spec fuel v i :
  shape v -> 0 <= i <= counter -> (i mod WORD_SIZE = 0 \/ i = counter) ->
  (fuel_to i counter <= fuel)%nat ->
  let '(v', i') := clear_words fuel v i counter in
  i <= i' <= counter /\ counter <= i' + WORD_SIZE /\ cleared i i' v v'.
Proof.
  pose proof counter_room. unfold fuel_to. revert v i.
  induction fuel as [|fuel IH]; intros v i Hs Hi Ha Hf; simpl.
  { split_and!; [lia|lia|unfold_consts; lia|]. by apply cleared_refl. }
  rewrite wrap64_small by (unfold_consts; lia).
  destruct (Z.ltb_spec (i + WORD_SIZE) counter) as [Hlt|].
  - assert (i mod WORD_SIZE = 0) as Hal by (unfold_consts; lia).
    rewrite land_align by (unfold_consts; lia).
    replace (i + WORD_SIZE - (i + WORD_SIZE) mod WORD_SIZE) with (i + WORD_SIZE) by residues.
    specialize (IH (clear_word v i) (i + WORD_SIZE) ltac:(by apply shape_zset)
      ltac:(unfold_consts; lia) ltac:(left; residues) ltac:(unfold_consts; lia)).
    destruct (clear_words _ _ _ _) as [v' i']. destruct IH as ([??] & ? & ?).
    split_and!; try done; [unfold_consts; lia|].
    eapply cleared_trans; [|by apply cleared_word|done]. unfold_consts; lia.
  - split_and!; [lia|lia|lia|]. by apply cleared_refl.
Qed.

Lemma clear_remaining_spec fuel v i :
  shape v -> 0 <= i <= counter -> (fuel_to i counter <= fuel)%nat ->
  let '(v', i') := clear_remaining fuel v i counter in i' = counter /\ cleared i counter v v'.
Proof.
  pose proof counter_room. unfold fuel_to. revert v i.
  induction fuel as [|fuel IH]; intros v i Hs Hi Hf; simpl.
  { assert (i = counter) as -> by lia. split; [done|]. by apply cleared_refl. }
  destruct (Z.ltb_spec i counter).
  - rewrite wrap64_small by (unfold_consts; lia).
    specialize (IH (clear_bit v i) (i + 1) ltac:(by apply shape_zset) ltac:(lia) ltac:(lia)).
    destruct (clear_remaining _ _ _ _) as [v' i']. destruct IH as (? & ?).
    split; [done|]. eapply cleared_trans; [|by apply cleared_bit|done]. lia.
  - assert (i = counter) as -> by lia. split; [done|]. by apply cleared_refl.
Qed.

(** The three loops together clear exactly [next..counter). *)
Lemma clear_range_spec v :
  shape v -> 0 <= next v <= counter -> cleared (next v) counter v (clear_range v counter).
Proof.
  intros Hs Hn. unfold clear_range.
  pose proof (clear_until_aligned_spec (fuel_to (next v) counter) v (next v) Hs Hn ltac:(lia)) as H1.
  destruct (clear_until_aligned _ _ _ _) as [v1 i1]. destruct H1 as (Hi1 & Ha & C1).
  pose proof (clear_words_spec (fuel_to i1 counter) v1 i1 (cl_shape _ _ _ _ C1) ltac:(lia) Ha ltac:(lia)) as H2.
  destruct (clear_words _ _ _ _) as [v2 i2]. destruct H2 as (Hi2 & _ & C2).
  pose proof (clear_remaining_spec (fuel_to i2 counter) v2 i2 (cl_shape _ _ _ _ C2) ltac:(lia) ltac:(lia)) as H3.
  destruct (clear_remaining _ _ _ _) as [v3 i3]. destruct H3 as (_ & C3).
  eapply cleared_trans; [|done|]; [lia|]. eapply cleared_trans; [|done|done]. lia.
Qed.
End Loops.

(** ** Specification: the set of accepted counters *)

Record window_inv (v : ReceivingKeyCounterValidator) (seen : list Z) : Prop := {
  wi_shape : shape v;
  wi_next : 0 <= next v <= REJECT_AFTER_MESSAGES;
  wi_below c : c ∈ seen -> 0 <= c < next v;
  wi_nodup : NoDup seen;
  wi_bits c : 0 <= c < next v -> next v <= c + N_BITS -> bit v c = bool_decide (c ∈ seen);
}.

(** A counter is acceptable when it is usable, not behind the window, and new. *)
Definition acceptable (nxt : Z) (seen : list Z) (c : Z) : Prop :=
  c < REJECT_AFTER_MESSAGES /\ nxt <= c + N_BITS /\ c ∉ seen.

#[export] Instance acceptable_dec nxt seen c : Decision (acceptable nxt seen c).
Proof. unfold acceptable. apply _. Defined.

Lemma window_default : window_inv validator_default [].
Proof.
  split; try (intros c; rewrite ?elem_of_nil; done || (simpl; lia)); [done|done|constructor].
Qed.

Lemma mod_window_inj i j : i mod N_BITS = j mod N_BITS -> 0 <= i - j < N_BITS -> i = j.
Proof. residues. Qed.

Lemma bit_zero v c : bit (with_bitmap v (map (fun _ => 0) (bitmap v))) c = false.
Proof.
  unfold bit, get_word. simpl. pose proof (word_of_range c) as Hw.
  unfold zget. destruct (Z.ltb_spec (word_of c) 0); [lia|].
  change (map (fun _ : Z => 0) (bitmap v)) with ((fun _ : Z => 0) <$> bitmap v).
  rewrite list_lookup_fmap. destruct (bitmap v !! _); apply Z.bits_0.
Qed.

(** Marking a fresh counter at or beyond [next], after the bits between were cleared. *)
Lemma window_advance v v1 seen c :
  window_inv v seen -> next v <= c < REJECT_AFTER_MESSAGES -> shape v1 ->
  (forall j, next v <= j < c -> c < j + N_BITS -> bit v1 j = false) ->
  (forall j, 0 <= j < next v -> c < j + N_BITS -> bit v1 j = bit v j) ->
  window_inv (with_next (set_bit v1 c) (c + 1)) (c :: seen).
Proof.
  intros Hinv Hc Hs Hgap Hold. pose proof (wi_next _ _ Hinv). split; simpl.
  - by apply shape_zset.
  - lia.
  - intros j [->|Hj]%elem_of_cons; [lia|]. pose proof (wi_below _ _ Hinv j Hj). lia.
  - constructor; [|apply Hinv]. intros Hin. pose proof (wi_below _ _ Hinv c Hin). lia.
  - intros j Hj Hw. change (bit (with_next (set_bit v1 c) (c + 1)) j) with (bit (set_bit v1 c) j).
    rewrite bit_set_bit by done. case_decide as Hm.
    { apply mod_window_inj in Hm as ->; [|lia]. symmetry. apply bool_decide_eq_true, elem_of_cons. by left. }
    assert (j <> c) by congruence. destruct (Z.lt_ge_cases j (next v)).
    + rewrite Hold, (wi_bits _ _ Hinv) by lia. apply bool_decide_ext. rewrite elem_of_cons. tauto.
    + rewrite Hgap by lia. symmetry. apply bool_decide_eq_false. intros [?|Hin]%elem_of_cons; [done|].
      pose proof (wi_below _ _ Hinv j Hin). lia.
Qed.

(** Marking a counter inside the window. *)
Lemma window_fill v seen c :
  window_inv v seen -> 0 <= c < next v -> next v <= c + N_BITS -> c ∉ seen ->
  window_inv (set_bit v c) (c :: seen).
Proof.
  intros Hinv Hc Hw Hnew. split; simpl.
  - apply shape_zset, Hinv.
  - apply Hinv.
  - intros j [->|Hj]%elem_of_cons; [lia|]. by apply Hinv.
  - constructor; [done|apply Hinv].
  - intros j Hj Hwj. rewrite bit_set_bit by apply Hinv. case_decide as Hm.
    + assert (j = c) as ->.
      { destruct (Z.le_gt_cases j c); [symmetry; apply mod_window_inj; [done|lia]|].
        apply mod_window_inj; [done|lia]. }
      symmetry. apply bool_decide_eq_true, elem_of_cons. by left.
    + assert (j <> c) by congruence. rewrite (wi_bits _ _ Hinv) by done. apply bool_decide_ext. rewrite elem_of_cons. tauto.
Qed.

(** Marking a counter beyond [next] that skips some. *)
Lemma window_jump v seen c :
  window_inv v seen -> next v < c < REJECT_AFTER_MESSAGES ->
  let v1 := if c - next v >=? N_BITS then with_bitmap v (map (fun _ => 0) (bitmap v))
            else clear_range v c in
  window_inv (with_next (set_bit v1 c) (c + 1)) (c :: seen) /\ receive_cnt v1 = receive_cnt v.
Proof.
  intros Hinv Hc. pose proof (wi_next _ _ Hinv). rewrite Z.geb_leb.
  destruct (Z.leb_spec N_BITS (c - next v)) as [Hfar|Hnear]; simpl; split; try done.
  - apply window_advance with v; try done; [lia| | |].
    + unfold shape. simpl. unfold len. rewrite length_map. apply Hinv.
    + intros. apply bit_zero.
    + lia.
  - pose proof (clear_range_spec c ltac:(lia) v (wi_shape _ _ Hinv) ltac:(lia)) as Hcl.
    apply window_advance with v; try done; [lia|apply Hcl| |].
    + intros j Hj Hw. apply (cl_in _ _ _ _ Hcl j); [lia|done].
    + intros j Hj Hw. apply (cl_out _ _ _ _ Hcl). intros i Hi Hm.
      apply mod_window_inj in Hm; lia.
  - apply (clear_range_spec c ltac:(lia) v (wi_shape _ _ Hinv) ltac:(lia)).
Qed.

Lemma mark_did_receive_inv v seen c :
  window_inv v seen -> in_u64 c ->
  match mark_did_receive v c with
  | (Ok _, v') => acceptable (next v) seen c /\ window_inv v' (c :: seen) /\
                  next v' = Z.max (next v) (c + 1) /\ receive_cnt v' = receive_cnt v
  | (Err e, v') => ~ acceptable (next v) seen c /\ v' = v /\ e = InvalidCounter
  end.
Proof.
  intros Hinv Hc. pose proof (wi_next _ _ Hinv) as Hn. unfold mark_did_receive, acceptable.
  rewrite Z.geb_leb. destruct (Z.leb_spec REJECT_AFTER_MESSAGES c) as [|Hr]; [split; [lia|done]|].
  pose proof (counter_room c ltac:(unfold in_u64 in Hc; lia)). unfold in_u64 in Hc.
  rewrite (wrap64_small (c + N_BITS)) by (unfold_consts; lia).
  destruct (Z.ltb_spec (c + N_BITS) (next v)); [split; [lia|done]|].
  destruct (Z.eqb_spec c (next v)) as [Heq|]; [|destruct (Z.ltb_spec c (next v))].
  - assert (c ∉ seen) by (intros Hin%(wi_below _ _ Hinv); lia).
    simpl. rewrite <- Heq, wrap64_small by (unfold_consts; lia).
    split_and!; try done; [unfold_consts; lia| |lia].
    apply window_advance with v; try done; [lia|apply Hinv|lia].
  - rewrite check_bit_eq, (wi_bits _ _ Hinv) by lia. case_bool_decide as Hin; simpl.
    + split; [tauto|done].
    + split_and!; try done; try lia. apply window_fill; done || lia.
  - rewrite (wrap64_small (c + 1)) by (unfold_consts; lia).
    pose proof (window_jump v seen c Hinv ltac:(lia)) as [Hw Hcnt].
    split_and!; try done; [|simpl; lia]. intros Hin%(wi_below _ _ Hinv). lia.
Qed.

(** C18. The replay window decides exactly as the set of accepted counters
    does. Whatever 64-bit counter arrives, [mark_did_receive] accepts it if and
    only if it is below Reject-After-Messages, at most 8192 behind the highest
    accepted one and not accepted before; accepting adds it to the set and
    moves [next] past it, refusing changes nothing. The bitmap, its three
    clearing loops and its modular indexing implement that specification. *)
Theorem mark_did_receive_refines v seen c :
  window_inv v seen -> in_u64 c ->
  (is_ok (fst (mark_did_receive v c)) = bool_decide (acceptable (next v) seen c)) /\
  match mark_did_receive v c with
  | (Ok _, v') => window_inv v' (c :: seen) /\ next v' = Z.max (next v) (c + 1)
  | (Err e, v') => v' = v /\ e = InvalidCounter
  end.
Proof.
  intros Hinv Hc. pose proof (mark_did_receive_inv v seen c Hinv Hc) as Hm.
  destruct (mark_did_receive v c) as [[[]|e] v']; simpl.
  - destruct Hm as (Ha & Hw & Hn & _). split; [|done]. symmetry. by apply bool_decide_eq_true.
  - destruct Hm as (Ha & Hv & He). split; [|done]. symmetry. by apply bool_decide_eq_false.
Qed.

Lemma mark_did_receive_refines_witness :
  is_ok (fst (mark_did_receive validator_default 70)) = true.
Proof.
  destruct (mark_did_receive_refines validator_default [] 70) as [-> _];
    [apply window_default|vm_compute; split; congruence|]. vm_compute. reflexivity.
Defined.

(** ** Sequences of received counters *)

Fixpoint mark_all (v : ReceivingKeyCounterValidator) (cs : list Z)
  : list bool * ReceivingKeyCounterValidator :=
  match cs with
  | [] => ([], v)
  | c :: cs => let '(r, v) := mark_did_receive v c in
               let '(rs, v) := mark_all v cs in (is_ok r :: rs, v)
  end.

(** The specification machine: the next counter and the accepted ones. *)
Fixpoint spec_all (nxt : Z) (seen : list Z) (cs : list Z) : list bool :=
  match cs with
  | [] => []
  | c :: cs => if bool_decide (acceptable nxt seen c)
               then true :: spec_all (Z.max nxt (c + 1)) (c :: seen) cs
               else false :: spec_all nxt seen cs
  end.

(** The counters of [cs] that were accepted. *)
Fixpoint selected (cs : list Z) (rs : list bool) : list Z :=
  match cs, rs with
  | c :: cs, true :: rs => c :: selected cs rs
  | _ :: cs, false :: rs => selected cs rs
  | _, _ => []
  end.

Lemma mark_all_spec cs v seen :
  window_inv v seen -> Forall in_u64 cs ->
  fst (mark_all v cs) = spec_all (next v) seen cs /\
  window_inv (snd (mark_all v cs)) (rev (selected cs (fst (mark_all v cs))) ++ seen).
Proof.
  revert v seen. induction cs as [|c cs IH]; intros v seen Hinv Hcs; simpl; [done|].
  apply List.Forall_cons_iff in Hcs as [Hc Hcs].
  pose proof (mark_did_receive_inv v seen c Hinv Hc) as Hm.
  destruct (mark_did_receive v c) as [[[]|e] v1].
  - destruct Hm as (Ha & Hw & Hn & _). rewrite bool_decide_eq_true_2 by done.
    specialize (IH v1 (c :: seen) Hw Hcs). destruct (mark_all v1 cs) as [rs v2]. simpl in *.
    rewrite Hn in IH. destruct IH as [-> IH]. split; [done|]. by rewrite <- app_assoc.
  - destruct Hm as (Ha & -> & He). rewrite bool_decide_eq_false_2 by done.
    specialize (IH v seen Hinv Hcs). destruct (mark_all v cs) as [rs v2]. simpl in *.
    destruct IH as [-> IH]. done.
Qed.

(** No counter is accepted twice, over any sequence of received counters
    from a fresh session, and the sequence of decisions is the one the
    specification machine (highest accepted counter, set of accepted counters)
    makes: in particular a counter inside the window that never arrived before
    is always accepted. *)
Theorem replay_trace cs :
  Forall in_u64 cs ->
  fst (mark_all validator_default cs) = spec_all 0 [] cs /\
  NoDup (selected cs (fst (mark_all validator_default cs))).
Proof.
  intros Hcs. destruct (mark_all_spec cs _ [] window_default Hcs) as [Heq Hinv].
  split; [done|]. apply wi_nodup in Hinv. rewrite app_nil_r in Hinv.
  by rewrite <- Permutation_rev in Hinv.
Qed.

Lemma replay_trace_witness :
  fst (mark_all validator_default [0; 5; 5; 9000; 3; 809; 8500; 8500]) =
    [true; true; false; true; false; true; true; false] /\
  NoDup (selected [0; 5; 5; 9000; 3; 809; 8500; 8500]
           (fst (mark_all validator_default [0; 5; 5; 9000; 3; 809; 8500; 8500]))).
Proof.
  assert (Forall in_u64 [0; 5; 5; 9000; 3; 809; 8500; 8500]) as H
    by (repeat constructor; vm_compute; congruence).
  destruct (replay_trace _ H) as [Heq Hnd]. split; [|exact Hnd].
  rewrite Heq. vm_compute. reflexivity.
Defined.

Lemma will_accept_eq v seen c :
  window_inv v seen -> in_u64 c ->
  will_accept v c =
    if bool_decide (acceptable (next v) seen c) then Ok tt
    else if bool_decide (c < REJECT_AFTER_MESSAGES /\ next v <= c + N_BITS) then Err DuplicateCounter
    else Err InvalidCounter.
Proof.
  intros Hinv Hc. unfold will_accept. rewrite !Z.geb_leb.
  destruct (Z.leb_spec REJECT_AFTER_MESSAGES c) as [|Hr].
  { rewrite !bool_decide_eq_false_2; [done|lia|unfold acceptable; lia]. }
  pose proof (counter_room c ltac:(unfold in_u64 in Hc; lia)). unfold in_u64 in Hc.
  destruct (Z.leb_spec (next v) c).
  { rewrite bool_decide_eq_true_2; [done|]. split_and!; [done|unfold_consts; lia|].
    intros Hin%(wi_below _ _ Hinv). lia. }
  rewrite wrap64_small by (unfold_consts; lia).
  destruct (Z.ltb_spec (c + N_BITS) (next v)).
  { rewrite !bool_decide_eq_false_2; [done|lia|unfold acceptable; lia]. }
  rewrite check_bit_eq, (wi_bits _ _ Hinv) by lia.
  rewrite (bool_decide_eq_true_2 (c < _ /\ _)) by lia. unfold acceptable.
  repeat case_bool_decide; tauto.
Qed.

(** The check before decryption agrees with the marking after it: for a
    validator that has accepted the counters [seen], [will_accept] says yes
    exactly when [mark_did_receive] would, and its refusal distinguishes a
    replay inside the window ([DuplicateCounter]) from a counter that is
    unusable or behind it ([InvalidCounter]). *)
Theorem will_accept_agrees v seen c :
  window_inv v seen -> in_u64 c ->
  will_accept v c =
    if bool_decide (acceptable (next v) seen c) then Ok tt
    else if bool_decide (c < REJECT_AFTER_MESSAGES /\ next v <= c + N_BITS) then Err DuplicateCounter
    else Err InvalidCounter.
Proof. apply will_accept_eq. Qed.

Lemma will_accept_agrees_witness :
  will_accept (snd (mark_did_receive validator_default 70)) 70 = Err DuplicateCounter.
Proof.
  pose proof (mark_did_receive_inv validator_default [] 70 window_default
    ltac:(vm_compute; split; congruence)) as H.
  destruct (mark_did_receive validator_default 70) as [r v] eqn:E.
  assert (r = Ok tt) as -> by (vm_compute in E; congruence). destruct H as (_ & Hw & Hn & _).
  simpl. rewrite (will_accept_agrees v [70] 70 Hw) by (vm_compute; split; congruence).
  rewrite Hn. vm_compute. reflexivity.
Defined.
