(* ===== verification/Session.v ===== *)
(** A transport session: [Session] of [noise/session.rs].

    The sending counter is an atomic the code claims by compare-and-swap and
    the receive window sits under a lock; both are only reached through
    [&mut Tunn], so one call is one step here. The two AEAD keys are the key
    bytes; [LessSafeKey] is the AEAD of [Crypto]. A [dst] buffer is its length,
    and the packet written to its front is the returned value. *)

From S2P Require Import Prelude Budget Crypto Rand Tags Packet Replay.

Definition DATA_OFFSET : Z := 16.
Definition AEAD_SIZE : Z := 16.

Record Session := {
  receiving_index : Z;
  sending_index : Z;
  receiver : bytes;
  sender : bytes;
  sending_key_counter : Z;
  receiving_key_counter : ReceivingKeyCounterValidator;
}.

Definition session_new (local_index peer_index : Z) (receiving_key sending_key : bytes) : Session := {|
  receiving_index := local_index;
  sending_index := peer_index;
  receiver := receiving_key;
  sender := sending_key;
  sending_key_counter := 0;
  receiving_key_counter := validator_default;
|}.

Definition with_sending_key_counter (s : Session) (c : Z) : Session := {|
  receiving_index := receiving_index s; sending_index := sending_index s;
  receiver := receiver s; sender := sender s;
  sending_key_counter := c; receiving_key_counter := receiving_key_counter s |}.
Definition with_receiving_key_counter (s : Session) (v : ReceivingKeyCounterValidator) : Session := {|
  receiving_index := receiving_index s; sending_index := sending_index s;
  receiver := receiver s; sender := sender s;
  sending_key_counter := sending_key_counter s; receiving_key_counter := v |}.

Definition local_index (s : Session) : Z := receiving_index s.

Definition sending_exhausted (s : Session) : bool :=
  sending_key_counter s >=? REJECT_AFTER_MESSAGES.

Definition claim_sending_nonce (s : Session) : option Z * Session :=
  let counter := sending_key_counter s in
  if counter <? REJECT_AFTER_MESSAGES
  then (Some counter, with_sending_key_counter s (wrap64 (counter + 1)))
  else (None, s).

Definition receiving_counter_quick_check (s : Session) (counter : Z) : result WireGuardError unit :=
  will_accept (receiving_key_counter s) counter.

Definition with_receive_cnt (v : ReceivingKeyCounterValidator) (c : Z) : ReceivingKeyCounterValidator :=
  {| next := next v; receive_cnt := c; bitmap := bitmap v |}.

Definition receiving_counter_mark (s : Session) (counter : Z) : result WireGuardError unit * Session :=
  let '(ret, v) := mark_did_receive (receiving_key_counter s) counter in
  let v := if is_ok ret then with_receive_cnt v (wrap64 (receive_cnt v + 1)) else v in
  (ret, with_receiving_key_counter s v).

Section Transport.
Context `{Crypto} {R : Type} `{RngCore R}.

Definition format_packet_data (obf : ObfuscationRanges) (src : bytes) (pad dst_len : Z)
    (s : Session) (rng : R) : result WireGuardError bytes * Session * R :=
  if dst_len <? len src + pad + DATA_OVERHEAD_SZ then (Err DestinationBufferTooSmall, s, rng) else
  match claim_sending_nonce s with
  | (None, s) => (Err ConnectionExpired, s, rng)
  | (Some counter, s) =>
      let '(tag, rng) := random_h4 obf rng in
      let data := aead_seal (sender s) (counter_nonce counter) [] (src ++ zeros pad) in
      (Ok (to_le 4 tag ++ to_le 4 (sending_index s) ++ to_le 8 counter ++ data), s, rng)
  end.

Definition receive_packet_data (packet : PacketData) (dst_len : Z) (s : Session)
  : result WireGuardError bytes * Session :=
  if dst_len <? len (pd_encrypted_encapsulated_packet packet) then (Err DestinationBufferTooSmall, s) else
  if negb (pd_receiver_idx packet =? receiving_index s) then (Err WrongIndex, s) else
  match receiving_counter_quick_check s (pd_counter packet) with
  | Err e => (Err e, s)
  | Ok _ =>
      match aead_open (receiver s) (counter_nonce (pd_counter packet)) []
              (pd_encrypted_encapsulated_packet packet) with
      | None => (Err InvalidAeadTag, s)
      | Some ret =>
          match receiving_counter_mark s (pd_counter packet) with
          | (Err e, s) => (Err e, s)
          | (Ok _, s) => (Ok ret, s)
          end
      end
  end.
End Transport.

Definition current_packet_cnt (s : Session) : Z * Z :=
  (next (receiving_key_counter s), receive_cnt (receiving_key_counter s)).

(** ** Invariant *)

(** [session_inv s seen]: the counters [seen] have been received on [s]. *)
Record session_inv (s : Session) (seen : list Z) : Prop := {
  si_window : window_inv (receiving_key_counter s) seen;
  si_count : receive_cnt (receiving_key_counter s) = len seen;
  si_sending : 0 <= sending_key_counter s <= REJECT_AFTER_MESSAGES;
  si_recv_idx : in_u32 (receiving_index s);
  si_send_idx : in_u32 (sending_index s);
}.

Definition session_ok (s : Session) : Prop := exists seen, session_inv s seen.

(** Distinct counters below [n] are at most [n]. *)
Lemma nodup_bounded (l : list Z) n :
  0 <= n -> NoDup l -> (forall c, c ∈ l -> 0 <= c < n) -> len l <= n.
Proof.
  intros Hn Hnd Hl.
  assert (l ⊆+ map Z.of_nat (seq 0 (Z.to_nat n))) as Hs.
  { apply NoDup_submseteq; [done|]. intros c Hc%Hl.
    apply list_elem_of_In, List.in_map_iff. exists (Z.to_nat c).
    rewrite List.in_seq. lia. }
  apply submseteq_length in Hs. rewrite length_map, length_seq in Hs. unfold len. lia.
Qed.

Lemma session_new_inv l p rk sk : in_u32 l -> in_u32 p -> session_inv (session_new l p rk sk) [].
Proof. intros. split; simpl; try done. apply window_default. Qed.

Lemma reject_below_max : REJECT_AFTER_MESSAGES < u64_max.
Proof. done. Qed.

Lemma claim_sending_nonce_spec s seen :
  session_inv s seen ->
  match claim_sending_nonce s with
  | (Some c, s') => c = sending_key_counter s /\ c < REJECT_AFTER_MESSAGES /\ session_inv s' seen /\
                    s' = with_sending_key_counter s (c + 1)
  | (None, s') => s' = s /\ sending_exhausted s = true
  end.
Proof.
  intros Hs. pose proof (si_sending _ _ Hs). pose proof reject_below_max.
  unfold claim_sending_nonce, sending_exhausted. rewrite Z.geb_leb.
  destruct (Z.ltb_spec (sending_key_counter s) REJECT_AFTER_MESSAGES).
  - rewrite wrap64_small by lia. destruct Hs. split_and!; try done. split; simpl; try done. lia.
  - split; [done|]. by apply Z.leb_le.
Qed.

Lemma receiving_counter_mark_spec s seen c :
  session_inv s seen -> in_u64 c ->
  match receiving_counter_mark s c with
  | (Ok _, s') => acceptable (next (receiving_key_counter s)) seen c /\ session_inv s' (c :: seen)
  | (Err e, s') => ~ acceptable (next (receiving_key_counter s)) seen c /\ s' = s /\ e = InvalidCounter
  end.
Proof.
  intros Hs Hc. unfold receiving_counter_mark.
  pose proof (mark_did_receive_inv _ _ c (si_window _ _ Hs) Hc) as Hm.
  destruct (mark_did_receive _ c) as [[[]|e] v]; simpl.
  - destruct Hm as (Ha & Hw & Hn & Hcnt). split; [done|].
    assert (len (c :: seen) <= REJECT_AFTER_MESSAGES).
    { etrans; [|apply (wi_next _ _ Hw)]. apply nodup_bounded; [|apply Hw|apply Hw].
      apply (wi_next _ _ Hw). }
    pose proof (len_nonneg seen). pose proof reject_below_max. rewrite len_cons in *.
    destruct Hs as [Hw0 Hc0 ?? ?]. split; simpl; try done.
    + destruct Hw; by split.
    + rewrite Hcnt, Hc0, wrap64_small by lia. rewrite len_cons. lia.
  - destruct Hm as (Ha & -> & ->). split_and!; try done. by destruct s.
Qed.

(** ** Sending and receiving *)

Section TransportSpec.
Context `{Crypto} `{!CryptoLaws} {R : Type} `{RngCore R} `{!RngLaws R}.

Lemma format_packet_data_spec obf src pad dst_len s seen (rng : R) :
  session_inv s seen -> obf_ok obf -> 0 <= pad ->
  match format_packet_data obf src pad dst_len s rng with
  | (Ok d, s', _) =>
      exists tag, matches_h4 obf tag = true /\
        d = data_bytes tag (sending_index s) (sending_key_counter s)
              (aead_seal (sender s) (counter_nonce (sending_key_counter s)) [] (src ++ zeros pad)) /\
        s' = with_sending_key_counter s (sending_key_counter s + 1) /\
        sending_key_counter s < REJECT_AFTER_MESSAGES /\ session_inv s' seen /\
        len d = len src + pad + DATA_OVERHEAD_SZ /\ len d <= dst_len
  | (Err e, s', rng') =>
      s' = s /\ rng' = rng /\
      (e = DestinationBufferTooSmall /\ dst_len < len src + pad + DATA_OVERHEAD_SZ \/
       e = ConnectionExpired /\ sending_exhausted s = true)
  end.
Proof.
  intros Hs Ho Hp. unfold format_packet_data.
  destruct (Z.ltb_spec dst_len (len src + pad + DATA_OVERHEAD_SZ)) as [|Hl]; [by split_and!; auto|].
  pose proof (claim_sending_nonce_spec s seen Hs) as Hc.
  destruct (claim_sending_nonce s) as [[c|] s1].
  - destruct Hc as (-> & Hlt & Hi & ->).
    pose proof (random_h4_matches obf rng Ho) as Ht.
    destruct (random_h4 obf rng) as [tag rng1]. simpl in Ht.
    exists tag. simpl sending_index. simpl sender. split_and!; try done; unfold DATA_OVERHEAD_SZ in *;
      rewrite !len_app, !len_to_le, len_aead_seal, len_app; unfold zeros, TAG_SZ;
      rewrite len_zreplicate; lia.
  - destruct Hc as (-> & He). by split_and!; auto.
Qed.

Lemma receive_packet_data_spec p dst_len s seen :
  session_inv s seen -> in_u64 (pd_counter p) ->
  match receive_packet_data p dst_len s with
  | (Ok pt, s') =>
      len (pd_encrypted_encapsulated_packet p) <= dst_len /\
      pd_receiver_idx p = receiving_index s /\
      acceptable (next (receiving_key_counter s)) seen (pd_counter p) /\
      aead_open (receiver s) (counter_nonce (pd_counter p)) [] (pd_encrypted_encapsulated_packet p) = Some pt /\
      session_inv s' (pd_counter p :: seen) /\
      s' = with_receiving_key_counter s (receiving_key_counter s') /\
      len pt = len (pd_encrypted_encapsulated_packet p) - TAG_SZ
  | (Err _, s') => s' = s
  end.
Proof.
  intros Hs Hc. unfold receive_packet_data.
  destruct (Z.ltb_spec dst_len (len (pd_encrypted_encapsulated_packet p))); [done|].
  destruct (Z.eqb_spec (pd_receiver_idx p) (receiving_index s)); [|done]. simpl.
  destruct (receiving_counter_quick_check s (pd_counter p)); [|done].
  destruct (aead_open _ _ _ _) as [pt|] eqn:Ho; [|done].
  pose proof (receiving_counter_mark_spec s seen (pd_counter p) Hs Hc) as Hm.
  unfold receiving_counter_mark in *. destruct (mark_did_receive _ _) as [[[]|er] v].
  - destruct Hm as [Ha Hi]. split_and!; try done. by eapply len_aead_open.
  - by destruct Hm as (_ & -> & _).
Qed.

(** What the checks of [receive_packet_data] are for: an acceptable counter on
    a matching index with an authentic ciphertext is delivered. *)
Lemma receive_packet_data_accepts p dst_len s seen pt :
  session_inv s seen -> in_u64 (pd_counter p) ->
  len (pd_encrypted_encapsulated_packet p) <= dst_len ->
  pd_receiver_idx p = receiving_index s ->
  acceptable (next (receiving_key_counter s)) seen (pd_counter p) ->
  aead_open (receiver s) (counter_nonce (pd_counter p)) [] (pd_encrypted_encapsulated_packet p) = Some pt ->
  exists s', receive_packet_data p dst_len s = (Ok pt, s').
Proof.
  intros Hs Hc Hd Hi Ha Ho. unfold receive_packet_data.
  destruct (Z.ltb_spec dst_len (len (pd_encrypted_encapsulated_packet p))); [lia|].
  rewrite Hi, Z.eqb_refl. simpl. unfold receiving_counter_quick_check.
  assert (will_accept (receiving_key_counter s) (pd_counter p) = Ok tt) as ->.
  { rewrite (will_accept_eq _ _ _ (si_window _ _ Hs) Hc). by rewrite bool_decide_eq_true_2. }
  rewrite Ho. pose proof (receiving_counter_mark_spec s seen (pd_counter p) Hs Hc) as Hm.
  destruct (receiving_counter_mark s (pd_counter p)) as [[[]|e] s']; [eauto|]. by destruct Hm.
Qed.

(** A counter received before is refused, and the session does not move. *)
Lemma receive_packet_data_replay p dst_len s seen :
  session_inv s seen -> in_u64 (pd_counter p) -> pd_counter p ∈ seen ->
  exists e, receive_packet_data p dst_len s = (Err e, s).
Proof.
  intros Hs Hc Hin. pose proof (receive_packet_data_spec p dst_len s seen Hs Hc) as Hr.
  destruct (receive_packet_data p dst_len s) as [[pt|e] s'].
  - destruct Hr as (_ & _ & (_ & _ & Hnew) & _). done.
  - exists e. by rewrite Hr.
Qed.

(** [tx] sends on the keys and index [rx] receives on. *)
Definition session_peer (tx rx : Session) : Prop :=
  sender tx = receiver rx /\ sending_index tx = receiving_index rx.

(** C20. Transport round trip, exactly once. When the two ends hold the same
    key and index, a packet [format_packet_data] produced is parsed as a data
    packet, and the receiving end -- provided its window does not lie ahead and
    its buffer holds the frame -- returns exactly the plaintext followed by its
    zero padding; delivering the same packet again is refused and changes
    nothing. *)
Theorem session_roundtrip obf src pad dst_len tx rx seen_tx seen (rng : R) d tx' rng' buf :
  obf_ok obf -> 0 <= pad -> session_inv tx seen_tx -> session_inv rx seen -> session_peer tx rx ->
  acceptable (next (receiving_key_counter rx)) seen (sending_key_counter tx) ->
  format_packet_data obf src pad dst_len tx rng = (Ok d, tx', rng') -> len d <= buf ->
  exists p rx',
    parse_incoming_packet obf d = Ok (PPacketData p) /\
    receive_packet_data p buf rx = (Ok (src ++ zeros pad), rx') /\
    exists e, receive_packet_data p buf rx' = (Err e, rx').
Proof.
  intros Ho Hp Htx Hrx [Hk Hidx] Ha Hf Hbuf.
  pose proof (format_packet_data_spec obf src pad dst_len tx seen_tx rng Htx Ho Hp) as Hs.
  rewrite Hf in Hs. destruct Hs as (tag & Ht & -> & -> & Hlt & Hinv & Hlen & _).
  pose proof (si_sending _ _ Htx). pose proof reject_below_max.
  assert (in_u64 (sending_key_counter tx)) as Hc by (unfold in_u64; lia).
  set (ct := aead_seal _ _ _ _) in *.
  assert (len ct = len src + pad + 16) as Hct.
  { unfold ct, zeros. rewrite len_aead_seal, len_app, len_zreplicate. unfold TAG_SZ. lia. }
  pose proof (len_nonneg src).
  eexists. rewrite parse_data; [|done..|apply Htx|done|lia].
  set (p := Build_PacketData (sending_index tx) (sending_key_counter tx) ct).
  destruct (receive_packet_data_accepts p buf rx seen (src ++ zeros pad)) as [rx' Hrx'];
    simpl; try done.
  { unfold DATA_OVERHEAD_SZ in *. lia. }
  { rewrite <- Hk. apply aead_open_seal. }
  exists rx'. split_and!; [done|done|].
  pose proof (receive_packet_data_spec p buf rx seen Hrx Hc) as Hr. rewrite Hrx' in Hr.
  destruct Hr as (_ & _ & _ & _ & Hinv' & _).
  eapply receive_packet_data_replay; [done|done|]. apply elem_of_cons. by left.
Qed.

(** ** Sequences of sends *)

(** Any sequence of send attempts -- packet, padding and buffer of each -- on
    one session: the datagrams produced. *)
Fixpoint send_all (obf : ObfuscationRanges) (l : list (bytes * Z * Z)) (s : Session) (rng : R)
  : list bytes * Session :=
  match l with
  | [] => ([], s)
  | (src, pad, dst_len) :: l =>
      match format_packet_data obf src pad dst_len s rng with
      | (Ok d, s, rng) => let '(ds, s) := send_all obf l s rng in (d :: ds, s)
      | (Err _, s, rng) => send_all obf l s rng
      end
  end.

Definition nonce_of (d : bytes) : Z := le_u64 8 d.

Lemma nonce_of_data tag idx c ct : in_u64 c -> nonce_of (data_bytes tag idx c ct) = c.
Proof.
  intros. unfold nonce_of, data_bytes. rewrite app_assoc. apply le_u64_app; [len_lia|done].
Qed.

Lemma send_all_spec obf l s seen (rng : R) :
  obf_ok obf -> Forall (fun x => 0 <= snd (fst x)) l -> session_inv s seen ->
  forall ds s', send_all obf l s rng = (ds, s') ->
  nonce_of <$> ds = seqZ (sending_key_counter s) (len ds) /\
  sending_key_counter s' = sending_key_counter s + len ds /\
  session_inv s' seen.
Proof.
  intros Ho Hl. revert s rng. induction Hl as [|[[src pad] dl] l Hp Hl IH]; intros s rng Hs ds s'; simpl.
  { intros [= <- <-]. split_and!; [done|rewrite len_nil; lia|done]. }
  pose proof (format_packet_data_spec obf src pad dl s seen rng Hs Ho Hp) as Hf.
  destruct (format_packet_data _ _ _ _ _ _) as [[[d|e] s1] rng1].
  - destruct Hf as (tag & Ht & -> & -> & Hlt & Hinv & _).
    destruct (send_all obf l _ rng1) as [ds1 s2] eqn:He. intros [= <- <-].
    destruct (IH _ _ Hinv _ _ He) as (Hn & Hc & Hi). simpl in Hn, Hc.
    pose proof (si_sending _ _ Hs). pose proof reject_below_max. pose proof (len_nonneg ds1).
    rewrite fmap_cons, nonce_of_data by (unfold in_u64; lia). rewrite len_cons, Hn.
    split_and!; [|lia|done].
    rewrite (seqZ_cons (sending_key_counter s)) by lia. repeat f_equal; lia.
  - destruct Hf as (-> & -> & _). by apply IH.
Qed.

(** C29. No nonce is reused. Over any sequence of send attempts on one session,
    with any packets, paddings and buffers, successful or refused, the counters
    of the datagrams produced are consecutive from the session's counter and
    all below Reject-After-Messages; a refused attempt burns none, and once the
    session is exhausted nothing more is produced. *)
Theorem nonces_consecutive obf l s seen (rng : R) ds s' :
  obf_ok obf -> Forall (fun x => 0 <= snd (fst x)) l -> session_inv s seen ->
  send_all obf l s rng = (ds, s') ->
  nonce_of <$> ds = seqZ (sending_key_counter s) (len ds) /\
  sending_key_counter s + len ds <= REJECT_AFTER_MESSAGES /\
  NoDup (nonce_of <$> ds) /\ (sending_exhausted s = true -> ds = []).
Proof.
  intros Ho Hl Hs Heq. destruct (send_all_spec _ _ _ _ _ Ho Hl Hs _ _ Heq) as (Hn & Hc & Hi).
  pose proof (si_sending _ _ Hi). split_and!; [done|lia|rewrite Hn; apply NoDup_seqZ|].
  unfold sending_exhausted. rewrite Z.geb_leb. intros He%Z.leb_le.
  destruct ds; [done|]. rewrite len_cons in Hc. pose proof (len_nonneg ds). lia.
Qed.
End TransportSpec.

(** ** Witnesses *)

Import Toy CounterRng.

Definition ex_tx : Session := session_new 5 9 (zeros 32) (to_le 32 77).
Definition ex_rx : Session := session_new 9 5 (to_le 32 77) (zeros 32).

Lemma ex_tx_inv : session_inv ex_tx [].
Proof. apply session_new_inv; vm_compute; split; congruence. Qed.
Lemma ex_rx_inv : session_inv ex_rx [].
Proof. apply session_new_inv; vm_compute; split; congruence. Qed.

Definition ex_sent : bytes := fst_ok (fst (fst (format_packet_data obf_default (to_le 3 66051) 2 64 ex_tx 1))).

Lemma session_roundtrip_witness :
  exists p rx',
    parse_incoming_packet obf_default ex_sent = Ok (PPacketData p) /\
    receive_packet_data p 64 ex_rx = (Ok (to_le 3 66051 ++ zeros 2), rx') /\
    exists e, receive_packet_data p 64 rx' = (Err e, rx').
Proof.
  destruct (format_packet_data obf_default (to_le 3 66051) 2 64 ex_tx 1) as [[r tx'] rng'] eqn:E.
  assert (r = Ok ex_sent) as -> by (unfold ex_sent; rewrite E; vm_compute in E; by injection E as <- _ _).
  eapply (session_roundtrip obf_default (to_le 3 66051) 2 64 ex_tx ex_rx [] [] 1).
  - apply obf_default_ok.
  - lia.
  - apply ex_tx_inv.
  - apply ex_rx_inv.
  - split; reflexivity.
  - split_and!; [done|done|]. apply not_elem_of_nil.
  - exact E.
  - vm_compute. congruence.
Defined.

Lemma nonces_consecutive_witness :
  nonce_of <$> fst (send_all obf_default [([], 0, 64); ([], 0, 8); ([], 4, 40)] ex_tx 1) = [0; 1].
Proof.
  destruct (send_all obf_default [([], 0, 64); ([], 0, 8); ([], 4, 40)] ex_tx 1) as [ds s'] eqn:E.
  destruct (nonces_consecutive obf_default [([], 0, 64); ([], 0, 8); ([], 4, 40)] ex_tx [] 1 ds s')
    as [-> _]; [apply obf_default_ok|by repeat constructor|apply ex_tx_inv|exact E|].
  vm_compute in E. injection E as <- _. reflexivity.
Defined.
