(* ===== verification/RateLimiter.v ===== *)
(** The handshake rate limiter: [noise/rate_limiter.rs].

    A [RateLimiter] is a record passed through its operations (in the code its
    counters are atomics, one update per step); [now] is the clock reading of
    the call. [count_source] is a call that nothing overlaps; [count_step] is
    one bump, so that sequences of them are the interleavings of any number of
    calls. The randomly keyed SipHash is the field [hasher], any function
    into 64 bits. [gate_handshake] and [verify_packet] are given whole
    initiations and responses, 148 or 92 bytes, so their [split_at] is in
    range. *)

From Stdlib Require Import Strings.String.
From S2P Require Import Prelude Budget Instant Crypto Rand Tags Packet Replay.
Local Open Scope Z_scope.
Local Open Scope list_scope.

Definition COOKIE_REFRESH : Z := 128.
Definition COOKIE_SIZE : Z := 16.
Definition COOKIE_NONCE_SIZE : Z := 24.
Definition RESET_PERIOD : Z := 1.
Definition SOURCE_SHARE : Z := 5.
Definition SOURCE_FLOOR : Z := 5.
Definition SOURCE_ROWS : Z := 2.
Definition SOURCE_SLOTS : Z := 1024.

Definition LABEL_MAC1 : bytes := String.list_byte_of_string "mac1----"%string.
Definition LABEL_COOKIE : bytes := String.list_byte_of_string "cookie--"%string.

(** ** Sources *)

Inductive Source :=
| Endpoint (ip : IpAddr) (port : Z)
| Address (ip : IpAddr).

#[export] Instance Source_eq_dec : EqDecision Source.
Proof. solve_decision. Defined.

Definition source_address (s : Source) : IpAddr :=
  match s with Endpoint ip _ => ip | Address ip => ip end.

(** [Ipv6Addr::to_ipv4_mapped]: [::ffff:a.b.c.d]. *)
Definition to_ipv4_mapped (octets : bytes) : option bytes :=
  if bool_decide (ztake 12 octets = zeros 10 ++ [Byte.xff; Byte.xff]) then Some (zdrop 12 octets) else None.

Definition source_ip (s : Source) : IpAddr :=
  match source_address s with
  | V6 v6 => match to_ipv4_mapped v6 with Some v4 => V4 v4 | None => V6 v6 end
  | V4 v4 => V4 v4
  end.

Definition source_port (s : Source) : option Z :=
  match s with Endpoint _ port => Some port | Address _ => None end.

Definition cookie_input (s : Source) : bytes :=
  let port := source_port s in
  let addr := match source_ip s with
    | V4 v4 => (if port is Some _ then Byte.x04 else Byte.x14) :: v4
    | V6 v6 => (if port is Some _ then Byte.x06 else Byte.x16) :: v6
    end in
  match port with
  | Some port => addr ++ to_be 2 port
  | None => addr
  end.

Definition budget_key (s : Source) : Z * Z :=
  match source_ip s with
  | V4 v4 => (4, of_be v4)
  | V6 v6 => (6, Z.shiftr (of_be v6) 64)
  end.

(** ** Per-source counts *)

Record SourceCounts := {
  hasher : Z * Z -> Z;
  slots : list Z;
}.

Definition source_counts_new (h : Z * Z -> Z) : SourceCounts :=
  {| hasher := h; slots := zreplicate (SOURCE_ROWS * SOURCE_SLOTS) 0 |}.

(** [x as i32]. *)
Definition as_i32 (x : Z) : Z := if x <? 2 ^ 31 then x else x - 2 ^ 32.

Definition next_packed (window packed : Z) : Z * Z :=
  let slot_window := wrap32 (Z.shiftr packed 32) in
  let count := wrap32 packed in
  if (slot_window =? window) || (as_i32 (wrap32 (slot_window - window)) >? 0)
  then (slot_window, sat_add u32_max count 1)
  else (window, 1).

Definition pack (wc : Z * Z) : Z := Z.lor (Z.shiftl (fst wc) 32) (snd wc).

(** The count returned and the slot's new value. *)
Definition bump (window packed : Z) : Z * Z :=
  (snd (next_packed window packed), pack (next_packed window packed)).

Definition slot_of_row (h row : Z) : Z :=
  row * SOURCE_SLOTS + Z.shiftr h (32 * row) mod SOURCE_SLOTS.

Definition slots_of (c : SourceCounts) (source : Source) : list Z :=
  let hash := hasher c (budget_key source) in
  map (slot_of_row hash) [0; 1].

(** [.map(bump).min().unwrap_or(0)], bumping the rows in order. *)
Fixpoint bump_slots (window : Z) (l : list Z) (table : list Z) : option Z * list Z :=
  match l with
  | [] => (None, table)
  | i :: l =>
      let '(c, packed) := bump window (default 0 (zget table i)) in
      let '(m, table) := bump_slots window l (zset table i packed) in
      (Some (match m with Some m => Z.min c m | None => c end), table)
  end.

Definition count_source (c : SourceCounts) (source : Source) (window : Z) : Z * SourceCounts :=
  let '(m, table) := bump_slots window (slots_of c source) (slots c) in
  (default 0 m, {| hasher := hasher c; slots := table |}).

(** Calls that overlap: [count] bumps its rows one at a time, and the bumps of
    other calls may fall between. A call under way has read its window and has
    some rows still to bump. *)
Record CountCall := {
  call_source : Source;
  call_window : Z;
  call_rows : list Z;
  call_least : option Z;
}.

Inductive CountEvent :=
| CallStart (source : Source) (window : Z)
| CallBump (id : nat).

Definition count_step (st : SourceCounts * list CountCall) (ev : CountEvent) : SourceCounts * list CountCall :=
  let '(c, calls) := st in
  match ev with
  | CallStart source window =>
      (c, calls ++ [{| call_source := source; call_window := window; call_rows := slots_of c source; call_least := None |}])
  | CallBump id =>
      match calls !! id with
      | Some {| call_source := source; call_window := window; call_rows := i :: rows; call_least := least |} =>
          let '(n, packed) := bump window (default 0 (zget (slots c) i)) in
          ({| hasher := hasher c; slots := zset (slots c) i packed |},
           <[id := {| call_source := source; call_window := window; call_rows := rows;
                      call_least := Some (match least with Some m => Z.min m n | None => n end) |}]> calls)
      | _ => st
      end
  end.

Definition counting (evs : list CountEvent) (st : SourceCounts * list CountCall) : SourceCounts * list CountCall :=
  foldl count_step st evs.

#[global] Arguments count_source : simpl never.
#[global] Arguments slot_of_row : simpl never.
#[global] Arguments bump : simpl never.

(** ** The limiter *)

Record RateLimiter := {
  nonce_key : bytes;
  secret_key : bytes;
  start_time : Z;
  nonce_ctr : Z;
  mac1_key : bytes;
  cookie_key : bytes;
  limit : Z;
  count : Z;
  last_reset : Z;
  source_limit : Z;
  sources : SourceCounts;
  proven : SourceCounts;
}.

Definition set_count (r : RateLimiter) (c : Z) : RateLimiter := {|
  nonce_key := nonce_key r; secret_key := secret_key r; start_time := start_time r;
  nonce_ctr := nonce_ctr r; mac1_key := mac1_key r; cookie_key := cookie_key r;
  limit := limit r; count := c; last_reset := last_reset r; source_limit := source_limit r;
  sources := sources r; proven := proven r |}.
Definition set_last_reset (r : RateLimiter) (t : Z) : RateLimiter := {|
  nonce_key := nonce_key r; secret_key := secret_key r; start_time := start_time r;
  nonce_ctr := nonce_ctr r; mac1_key := mac1_key r; cookie_key := cookie_key r;
  limit := limit r; count := count r; last_reset := t; source_limit := source_limit r;
  sources := sources r; proven := proven r |}.
Definition set_nonce_ctr (r : RateLimiter) (c : Z) : RateLimiter := {|
  nonce_key := nonce_key r; secret_key := secret_key r; start_time := start_time r;
  nonce_ctr := c; mac1_key := mac1_key r; cookie_key := cookie_key r;
  limit := limit r; count := count r; last_reset := last_reset r; source_limit := source_limit r;
  sources := sources r; proven := proven r |}.
Definition set_sources (r : RateLimiter) (s : SourceCounts) : RateLimiter := {|
  nonce_key := nonce_key r; secret_key := secret_key r; start_time := start_time r;
  nonce_ctr := nonce_ctr r; mac1_key := mac1_key r; cookie_key := cookie_key r;
  limit := limit r; count := count r; last_reset := last_reset r; source_limit := source_limit r;
  sources := s; proven := proven r |}.
Definition set_proven (r : RateLimiter) (s : SourceCounts) : RateLimiter := {|
  nonce_key := nonce_key r; secret_key := secret_key r; start_time := start_time r;
  nonce_ctr := nonce_ctr r; mac1_key := mac1_key r; cookie_key := cookie_key r;
  limit := limit r; count := count r; last_reset := last_reset r; source_limit := source_limit r;
  sources := sources r; proven := s |}.

Inductive Load := Clear | SourceShare | Aggregate.
#[export] Instance Load_eq_dec : EqDecision Load.
Proof. solve_decision. Defined.

Inductive CookieDefense := Armed | Bypassed.
#[export] Instance CookieDefense_eq_dec : EqDecision CookieDefense.
Proof. solve_decision. Defined.

Record LoadDecision := { ld_load : option Load; ld_proven : option bool }.
Definition load_default : LoadDecision := {| ld_load := None; ld_proven := None |}.

Record CookieDemand := { cd_sender_idx : Z; cd_cookie : bytes; cd_mac1 : bytes }.

Inductive HandshakeGate :=
| GatePass
| GateBadMac
| GateUnderLoad
| GateCookieDemanded (demand : CookieDemand).

(** The random material of a new limiter. *)
Record LimiterSeed := {
  seed_nonce_key : bytes;
  seed_secret_key : bytes;
  seed_sources : Z * Z -> Z;
  seed_proven : Z * Z -> Z;
}.

Section Limiter.
Context `{Crypto}.

Definition limiter_new (seed : LimiterSeed) (public_key : bytes) (lim now : Z) : RateLimiter := {|
  nonce_key := seed_nonce_key seed;
  secret_key := seed_secret_key seed;
  start_time := now;
  nonce_ctr := 0;
  mac1_key := b2s_hash LABEL_MAC1 public_key;
  cookie_key := b2s_hash LABEL_COOKIE public_key;
  limit := lim;
  count := 0;
  last_reset := now;
  source_limit := Z.max (lim / SOURCE_SHARE) (Z.min lim SOURCE_FLOOR);
  sources := source_counts_new (seed_sources seed);
  proven := source_counts_new (seed_proven seed);
|}.

Definition reset_count (now : Z) (r : RateLimiter) : RateLimiter :=
  if as_secs (duration_since now (last_reset r)) >=? RESET_PERIOD
  then set_last_reset (set_count r 0) now
  else r.

Definition current_cookie (now : Z) (r : RateLimiter) (source : Source) : bytes :=
  let cur_counter := as_secs (duration_since now (start_time r)) / COOKIE_REFRESH in
  b2s_keyed_mac_16_2 (secret_key r) (to_le 8 cur_counter) (cookie_input source).

Definition limiter_nonce (r : RateLimiter) : bytes * RateLimiter :=
  (b2s_mac_24 (nonce_key r) (to_le 8 (nonce_ctr r)), set_nonce_ctr r (wrap64 (nonce_ctr r + 1))).

Definition limiter_window (now : Z) (r : RateLimiter) : Z :=
  wrap32 (as_secs (duration_since now (start_time r))).

(** [count.fetch_add(1)]: the value before. *)
Definition fetch_add_count (r : RateLimiter) : Z * RateLimiter :=
  (count r, set_count r (wrap64 (count r + 1))).

(** The aggregate part of [is_under_load]. *)
Definition aggregate_load (r : RateLimiter) : Load * RateLimiter :=
  let '(prev, r) := fetch_add_count r in
  (if prev >=? limit r then Aggregate else Clear, r).

Definition is_under_load (now : Z) (source : option Source) (r : RateLimiter) : Load * RateLimiter :=
  match source with
  | Some source =>
      let '(n, s) := count_source (sources r) source (limiter_window now r) in
      let r := set_sources r s in
      if n >? source_limit r then (SourceShare, r) else aggregate_load r
  | None => aggregate_load r
  end.

(** The last part of [admit_proven]. *)
Definition admit_proven_share (now : Z) (addr : Source) (r : RateLimiter) : bool * RateLimiter :=
  let '(n, s) := count_source (proven r) addr (limiter_window now r) in
  (n <=? Z.max (source_limit r) SOURCE_FLOOR, set_proven r s).

Definition admit_proven (now : Z) (under_load : Load) (addr : Source) (r : RateLimiter) : bool * RateLimiter :=
  if bool_decide (under_load = SourceShare) then
    let '(prev, r) := fetch_add_count r in
    if prev <? limit r then (true, r) else admit_proven_share now addr r
  else admit_proven_share now addr r.

Definition get_load (now : Z) (src : option Source) (ld : LoadDecision) (r : RateLimiter)
  : Load * LoadDecision * RateLimiter :=
  match ld_load ld with
  | Some l => (l, ld, r)
  | None => let '(l, r) := is_under_load now src r in
            (l, {| ld_load := Some l; ld_proven := ld_proven ld |}, r)
  end.

Definition get_proven (now : Z) (under_load : Load) (addr : Source) (ld : LoadDecision) (r : RateLimiter)
  : bool * LoadDecision * RateLimiter :=
  match ld_proven ld with
  | Some b => (b, ld, r)
  | None => let '(b, r) := admit_proven now under_load addr r in
            (b, {| ld_load := ld_load ld; ld_proven := Some b |}, r)
  end.

Definition mac_fields (message : bytes) : bytes * bytes * bytes :=
  let n := len message - 32 in
  (ztake n message, ztake 16 (zdrop n message), zdrop 16 (zdrop n message)).

Definition gate_handshake (now : Z) (src_addr : option Source) (message : bytes) (sender_idx : Z)
    (defense : CookieDefense) (ld : LoadDecision) (r : RateLimiter)
  : HandshakeGate * LoadDecision * RateLimiter :=
  let '(msg, mac1, mac2) := mac_fields message in
  if negb (constant_time_eq (b2s_keyed_mac_16 (mac1_key r) msg) mac1) then (GateBadMac, ld, r) else
  if bool_decide (defense = Bypassed) then (GatePass, ld, r) else
  let '(under_load, ld, r) := get_load now src_addr ld r in
  if bool_decide (under_load = Clear) then (GatePass, ld, r) else
  match src_addr with
  | None => (GateUnderLoad, ld, r)
  | Some addr =>
      let cookie := current_cookie now r addr in
      if negb (constant_time_eq (b2s_keyed_mac_16_2 cookie msg mac1) mac2) then
        (GateCookieDemanded {| cd_sender_idx := sender_idx; cd_cookie := cookie; cd_mac1 := mac1 |}, ld, r)
      else
        let '(ok, ld, r) := get_proven now under_load addr ld r in
        (if ok then GatePass else GateUnderLoad, ld, r)
  end.

Context {R : Type} `{RngCore R}.

Definition format_cookie_reply (obf : ObfuscationRanges) (idx : Z) (cookie mac1 : bytes) (dst_len : Z)
    (r : RateLimiter) (rng : R) : result WireGuardError bytes * RateLimiter * R :=
  if dst_len <? COOKIE_REPLY_SZ then (Err DestinationBufferTooSmall, r, rng) else
  let '(tag, rng) := random_h3 obf rng in
  let '(nonce, r) := limiter_nonce r in
  let encrypted_cookie := xaead_seal (cookie_key r) nonce mac1 cookie in
  (Ok (to_le 4 tag ++ to_le 4 idx ++ nonce ++ encrypted_cookie), r, rng).

Definition format_cookie_demand (obf : ObfuscationRanges) (demand : CookieDemand) (dst_len : Z)
    (r : RateLimiter) (rng : R) : result WireGuardError bytes * RateLimiter * R :=
  format_cookie_reply obf (cd_sender_idx demand) (cd_cookie demand) (cd_mac1 demand) dst_len r rng.

(** What [verify_packet] returns in place of the packet. *)
Inductive VerifyRefusal :=
| RefusedWith (e : WireGuardError)
| CookieReplyToSend (datagram : bytes).

Definition handshake_sender (p : Packet) : option Z :=
  match p with
  | PHandshakeInit p => Some (hi_sender_idx p)
  | PHandshakeResponse p => Some (hr_sender_idx p)
  | _ => None
  end.

Definition verify_packet (now : Z) (obf : ObfuscationRanges) (src_addr : option IpAddr) (src : bytes)
    (dst_len : Z) (r : RateLimiter) (rng : R) : result VerifyRefusal Packet * RateLimiter * R :=
  match parse_incoming_packet obf src with
  | Err e => (Err (RefusedWith e), r, rng)
  | Ok packet =>
      match handshake_sender packet with
      | None => (Ok packet, r, rng)
      | Some sender_idx =>
          let '(gate, _, r) := gate_handshake now (Address <$> src_addr) src sender_idx Armed load_default r in
          match gate with
          | GatePass => (Ok packet, r, rng)
          | GateBadMac => (Err (RefusedWith InvalidMac), r, rng)
          | GateUnderLoad => (Err (RefusedWith UnderLoad), r, rng)
          | GateCookieDemanded demand =>
              match format_cookie_demand obf demand dst_len r rng with
              | (Ok cookie_packet, r, rng) => (Err (CookieReplyToSend cookie_packet), r, rng)
              | (Err e, r, rng) => (Err (RefusedWith e), r, rng)
              end
          end
      end
  end.
End Limiter.

(** ** The count sketch

    One slot against the number of messages that hit it in the window. *)

Definition slot_inv (packed W hits : Z) : Prop :=
  exists sw n, packed = pack (sw, n) /\ 0 <= sw <= W /\ 0 <= n <= u32_max /\
    (sw = W -> n = Z.min u32_max hits) /\ (sw < W -> hits = 0).

Lemma unpack w c : 0 <= w <= u32_max -> 0 <= c <= u32_max ->
  wrap32 (Z.shiftr (pack (w, c)) 32) = w /\ wrap32 (pack (w, c)) = c.
Proof.
  unfold u32_max. intros Hw Hc. unfold pack, wrap32. simpl.
  rewrite lor_shiftl_add by lia. rewrite Z.shiftr_div_pow2 by lia.
  rewrite Z.div_add_l, (Z.div_small c), Z.add_0_r by lia. split.
  - apply Z.mod_small. lia.
  - rewrite Z.add_comm, Z.mod_add by lia. apply Z.mod_small. lia.
Qed.

(** The windows of the model's clock: half the range of [u32] seconds. *)
Definition window_ok (w : Z) : Prop := 0 <= w < 2 ^ 31.

Lemma next_packed_inv w p hits :
  window_ok w -> 0 <= hits -> slot_inv p w hits ->
  next_packed w p = (w, Z.min u32_max (hits + 1)).
Proof.
  intros Hw Hh (sw & n & -> & Hsw & Hn & Heq & Hlt). unfold window_ok in Hw. unfold next_packed.
  destruct (unpack sw n) as [-> ->]; [unfold u32_max; lia|done|].
  destruct (Z.eqb_spec sw w) as [->|Hne]; simpl.
  { unfold sat_add. f_equal. lia. }
  replace (wrap32 (sw - w)) with (2 ^ 32 + (sw - w)).
  2: { unfold wrap32. apply Z.mod_unique with (-1); lia. }
  unfold as_i32. destruct (Z.ltb_spec (2 ^ 32 + (sw - w)) (2 ^ 31)); [lia|].
  rewrite Z.gtb_ltb. destruct (Z.ltb_spec 0 (2 ^ 32 + (sw - w) - 2 ^ 32)); [lia|].
  rewrite Hlt by lia. reflexivity.
Qed.

Lemma bump_inv w p hits :
  window_ok w -> 0 <= hits -> slot_inv p w hits ->
  fst (bump w p) = Z.min u32_max (hits + 1) /\ slot_inv (snd (bump w p)) w (hits + 1).
Proof.
  intros Hw Hh Hs. unfold bump. rewrite (next_packed_inv w p hits) by done. simpl. split; [done|].
  exists w, (Z.min u32_max (hits + 1)). unfold window_ok, u32_max in *. split_and!; try done; lia.
Qed.

Lemma slot_inv_advance p W w hits hits' :
  W <= w -> slot_inv p W hits -> (w = W -> hits' = hits) -> (W < w -> hits' = 0) -> slot_inv p w hits'.
Proof.
  intros Hw (sw & n & -> & Hsw & Hn & Heq & Hlt) Hsame Hnew. exists sw, n.
  destruct (decide (w = W)) as [->|Hne]; [rewrite Hsame by done; split_and!; done || lia|].
  rewrite Hnew by lia. split_and!; try done; lia.
Qed.

(** Messages counted so far: budget key and window of each. *)
Definition key_slots (h : Z * Z -> Z) (k : Z * Z) : list Z := map (slot_of_row (h k)) [0; 1].

Definition hits (h : Z * Z -> Z) (evs : list ((Z * Z) * Z)) (slot w : Z) : Z :=
  len (filter (fun e => snd e = w /\ slot ∈ key_slots h (fst e)) evs).

Definition own (evs : list ((Z * Z) * Z)) (k : Z * Z) (w : Z) : Z :=
  len (filter (fun e => e = (k, w)) evs).

Record counts_inv (c : SourceCounts) (evs : list ((Z * Z) * Z)) (W : Z) : Prop := {
  ci_len : len (slots c) = SOURCE_ROWS * SOURCE_SLOTS;
  ci_window : window_ok W;
  ci_past e : e ∈ evs -> snd e <= W;
  ci_slot i : 0 <= i < SOURCE_ROWS * SOURCE_SLOTS ->
    slot_inv (default 0 (zget (slots c) i)) W (hits (hasher c) evs i W);
}.

Lemma slot_of_row_range h row : (row = 0 \/ row = 1) ->
  row * SOURCE_SLOTS <= slot_of_row h row < (row + 1) * SOURCE_SLOTS.
Proof.
  intros Hr. unfold slot_of_row. pose proof (Z.mod_pos_bound (Z.shiftr h (32 * row)) SOURCE_SLOTS eq_refl). lia.
Qed.

Lemma hits_cons h k w evs slot w' :
  hits h ((k, w) :: evs) slot w' =
  hits h evs slot w' + (if decide (w = w' /\ slot ∈ key_slots h k) then 1 else 0).
Proof. unfold hits. rewrite filter_cons. simpl. case_decide; rewrite ?len_cons; lia. Qed.

Lemma own_cons e evs k w : own (e :: evs) k w = own evs k w + (if decide (e = (k, w)) then 1 else 0).
Proof. unfold own. rewrite filter_cons. case_decide; rewrite ?len_cons; lia. Qed.

Lemma own_le_hits h evs k w slot : slot ∈ key_slots h k -> own evs k w <= hits h evs slot w.
Proof.
  intros Hs. induction evs as [|[k' w'] evs IH]; [done|]. rewrite own_cons, hits_cons.
  destruct (decide ((k', w') = (k, w))) as [[= -> ->]|]; [rewrite decide_True by done; lia|].
  case_decide; lia.
Qed.

Lemma hits_future h evs slot w W :
  (forall e, e ∈ evs -> snd e <= W) -> W < w -> hits h evs slot w = 0.
Proof.
  intros Hp Hw. induction evs as [|[k' w'] evs IH]; [done|]. rewrite hits_cons, IH.
  - pose proof (Hp (k', w') ltac:(apply elem_of_cons; by left)). simpl in *. rewrite decide_False; lia.
  - intros e He. apply Hp, elem_of_cons. by right.
Qed.

Lemma hits_nonneg h evs slot w : 0 <= hits h evs slot w.
Proof. apply len_nonneg. Qed.

Lemma counts_new_inv h W : window_ok W -> counts_inv (source_counts_new h) [] W.
Proof.
  intros HW. split; [done|done|by intros e ?%elem_of_nil|].
  intros i Hi. exists 0, 0. simpl. split_and!; try done.
  - unfold zget, zreplicate. destruct (Z.ltb_spec i 0); [lia|]. rewrite lookup_replicate_2; [done|]. lia.
  - apply HW.
Qed.

(** Counting one message: every slot stays exact and the count returned is the
    least of the source's slots. *)
Lemma count_source_inv c evs W w source :
  counts_inv c evs W -> W <= w -> window_ok w ->
  let '(n, c') := count_source c source w in
  let evs' := (budget_key source, w) :: evs in
  let '(i, j) := (slot_of_row (hasher c (budget_key source)) 0, slot_of_row (hasher c (budget_key source)) 1) in
  counts_inv c' evs' w /\ hasher c' = hasher c /\
  n = Z.min (Z.min u32_max (hits (hasher c) evs' i w)) (Z.min u32_max (hits (hasher c) evs' j w)).
Proof.
  intros Hc HW Hw. unfold count_source, slots_of. cbn [map bump_slots].
  set (k := budget_key source). set (i := slot_of_row _ 0). set (j := slot_of_row _ 1).
  pose proof (slot_of_row_range (hasher c k) 0 ltac:(auto)) as Hi. fold i in Hi.
  pose proof (slot_of_row_range (hasher c k) 1 ltac:(auto)) as Hj. fold j in Hj.
  assert (forall x, 0 <= x < SOURCE_ROWS * SOURCE_SLOTS ->
    slot_inv (default 0 (zget (slots c) x)) w (hits (hasher c) evs x w)) as Hslot.
  { intros x Hx. eapply slot_inv_advance; [done|by apply Hc| |].
    - by intros ->.
    - intros. eapply hits_future; [|done]. apply Hc. }
  unfold SOURCE_ROWS, SOURCE_SLOTS in *.
  destruct (bump_inv w _ _ Hw (hits_nonneg _ _ _ _) (Hslot i ltac:(lia))) as [Hbi Hpi].
  destruct (bump_inv w _ _ Hw (hits_nonneg _ _ _ _) (Hslot j ltac:(lia))) as [Hbj Hpj].
  assert (zget (zset (slots c) i (snd (bump w (default 0 (zget (slots c) i))))) j = zget (slots c) j) as Hget.
  { rewrite zget_zset, decide_False by lia. done. }
  destruct (bump w (default 0 (zget (slots c) i))) as [ci pi] eqn:Ei. cbn [fst snd] in *. rewrite Hget.
  destruct (bump w (default 0 (zget (slots c) j))) as [cj pj] eqn:Ej. cbn [fst snd default] in *. rewrite !hits_cons.
  rewrite !decide_True by (split; [done|unfold key_slots; cbn [map]; rewrite !elem_of_cons; auto]).
  split_and!; [|done|by rewrite Hbi, Hbj].
  split; cbn [slots hasher]; [rewrite !len_zset; apply Hc|done| |].
  - intros e [->|He]%elem_of_cons; [done|]. pose proof (ci_past _ _ _ Hc e He). lia.
  - intros x Hx. rewrite hits_cons, !zget_zset, len_zset, (ci_len _ _ _ Hc). unfold SOURCE_ROWS, SOURCE_SLOTS.
    destruct (decide (j = x)) as [<-|]; [rewrite !decide_True; [done|split; [done|]..|lia]|].
    { unfold key_slots. cbn [map]. rewrite !elem_of_cons. auto. }
    rewrite (decide_False (P := j = x /\ _)) by tauto.
    destruct (decide (i = x)) as [<-|]; [rewrite !decide_True; [done|split; [done|]..|lia]|].
    { unfold key_slots. cbn [map]. rewrite !elem_of_cons. auto. }
    rewrite !decide_False; [rewrite Z.add_0_r; by apply Hslot| |tauto].
    unfold key_slots. cbn [map]. rewrite !elem_of_cons, elem_of_nil. fold i j. intros [_ [?|[?|[]]]]; congruence.
Qed.

(** ** Sequences of counted messages *)

Fixpoint count_all (c : SourceCounts) (l : list (Source * Z)) : list Z * SourceCounts :=
  match l with
  | [] => ([], c)
  | (s, w) :: l => let '(n, c) := count_source c s w in
                   let '(ns, c) := count_all c l in (n :: ns, c)
  end.

(** Windows that do not go back, from [W] on. *)
Fixpoint windows_from (W : Z) (l : list (Source * Z)) : Prop :=
  match l with
  | [] => True
  | (_, w) :: l => W <= w /\ window_ok w /\ windows_from w l
  end.

(** The messages of budget key [k] in window [w] whose count was within [share]. *)
Fixpoint within_share (share : Z) (k : Z * Z) (w : Z) (l : list (Source * Z)) (ns : list Z) : Z :=
  match l, ns with
  | (s, w') :: l, n :: ns =>
      within_share share k w l ns +
      (if bool_decide (budget_key s = k /\ w' = w) && (n <=? share) then 1 else 0)
  | _, _ => 0
  end.

(** The first slot of a source is one of its slots. *)
Lemma count_source_own c evs W w source n c' :
  counts_inv c evs W -> W <= w -> window_ok w -> count_source c source w = (n, c') ->
  counts_inv c' ((budget_key source, w) :: evs) w /\
  Z.min u32_max (own evs (budget_key source) w + 1) <= n.
Proof.
  intros Hc HW Hw He. pose proof (count_source_inv c evs W w source Hc HW Hw) as Hs.
  rewrite He in Hs. destruct Hs as (Hc' & _ & ->). split; [done|].
  set (evs' := (budget_key source, w) :: evs).
  assert (forall i, i ∈ key_slots (hasher c) (budget_key source) ->
    own evs (budget_key source) w + 1 <= hits (hasher c) evs' i w) as Hle.
  { intros i Hi. etrans; [|by apply own_le_hits]. unfold evs'. rewrite own_cons, decide_True by done. lia. }
  pose proof (Hle (slot_of_row (hasher c (budget_key source)) 0)
    ltac:(unfold key_slots; cbn [map]; rewrite !elem_of_cons; auto)).
  pose proof (Hle (slot_of_row (hasher c (budget_key source)) 1)
    ltac:(unfold key_slots; cbn [map]; rewrite !elem_of_cons; auto)).
  lia.
Qed.

Lemma within_share_bound share k w l c evs W :
  0 <= share < u32_max -> counts_inv c evs W -> windows_from W l ->
  within_share share k w l (fst (count_all c l)) <= Z.max 0 (share - own evs k w).
Proof.
  intros Hsh. revert c evs W. induction l as [|[s w'] l IH]; intros c evs W Hc Hl; cbn [count_all within_share]; [lia|].
  destruct Hl as (HW & Hw & Hl). destruct (count_source c s w') as [n c1] eqn:E.
  destruct (count_source_own _ _ _ _ _ _ _ Hc HW Hw E) as [Hc1 Hn].
  specialize (IH c1 _ w' Hc1 Hl). destruct (count_all c1 l) as [ns c2]. cbn [fst] in *.
  rewrite own_cons in IH. case_bool_decide as Hk; simpl.
  - destruct Hk as [Hk ->]. rewrite decide_True in IH by congruence. rewrite Hk in Hn.
    pose proof (len_nonneg (filter (fun e => e = (k, w)) evs)) as Ho. fold (own evs k w) in Ho.
    destruct (Z.leb_spec n share); lia.
  - rewrite decide_False in IH by (intros [= ??]; auto). lia.
Qed.

(** The count returned is exact: of the messages counted in the window, the
    number that hit the source's least loaded slot. *)
Definition counted (l : list (Source * Z)) : list ((Z * Z) * Z) := rev (map (fun '(s, w) => (budget_key s, w)) l).

Lemma count_all_exact c evs W l s w :
  counts_inv c evs W -> windows_from W (l ++ [(s, w)]) ->
  fst (count_source (snd (count_all c l)) s w) =
  let hit row := hits (hasher c) (counted (l ++ [(s, w)]) ++ evs) (slot_of_row (hasher c (budget_key s)) row) w in
  Z.min (Z.min u32_max (hit 0)) (Z.min u32_max (hit 1)).
Proof.
  revert c evs W. induction l as [|[s' w'] l IH]; intros c evs W Hc Hl; cbn [count_all app windows_from] in *; destruct Hl as (HW & Hw & Hl).
  - pose proof (count_source_inv c evs W w s Hc HW Hw) as Hs. cbn [snd]. destruct (count_source c s w) as [n c']. by destruct Hs as (_ & _ & ->).
  - pose proof (count_source_inv c evs W w' s' Hc HW Hw) as Hs. destruct (count_source c s' w') as [n c']. destruct Hs as (Hc' & Hh & _).
    specialize (IH c' _ _ Hc' Hl). destruct (count_all c' l) as [ns c'']. cbn [snd] in *. rewrite IH, Hh. unfold counted. cbn [map rev].
    by rewrite <- !app_assoc.
Qed.

(** *** Overlapping calls

    How many more calls a slot can find within the share, of those that read a
    window from [a] to [b]. *)

Definition starts_by (b : Z) (ev : CountEvent) : Prop := match ev with CallStart _ w => 0 <= w <= b | CallBump _ => True end.

Definition within_share_calls (share : Z) (k : Z * Z) (a : Z) (calls : list CountCall) : Z :=
  len (filter (fun call => call_rows call = [] /\ budget_key (call_source call) = k /\ a <= call_window call /\ default 0 (call_least call) <= share) calls).

Definition left_over (share a b packed : Z) : Z :=
  let sw := wrap32 (Z.shiftr packed 32) in
  if sw <? a then share * (b - a + 1) else share * (b - sw) + Z.max 0 (share - wrap32 packed).

Definition slot_by (b packed : Z) : Prop := exists sw n, packed = pack (sw, n) /\ 0 <= sw <= b /\ 0 <= n <= u32_max.

Lemma next_packed_cases w sw n : window_ok w -> window_ok sw -> 0 <= n <= u32_max ->
  next_packed w (pack (sw, n)) = if w <=? sw then (sw, Z.min u32_max (n + 1)) else (w, 1).
Proof.
  unfold window_ok. intros Hw Hsw Hn. unfold next_packed. destruct (unpack sw n) as [-> ->]; [unfold u32_max; lia|done|].
  destruct (Z.eqb_spec sw w) as [->|Hne]; cbn [orb]; [by rewrite Z.leb_refl|]. rewrite Z.gtb_ltb. unfold as_i32, wrap32. destruct (Z.leb_spec w sw).
  - rewrite Z.mod_small by lia. destruct (Z.ltb_spec (sw - w) (2 ^ 31)); [|lia]. by destruct (Z.ltb_spec 0 (sw - w)); [|lia].
  - rewrite <- (Z.mod_unique (sw - w) (2 ^ 32) (-1) (2 ^ 32 + (sw - w))) by lia.
    destruct (Z.ltb_spec (2 ^ 32 + (sw - w)) (2 ^ 31)); [lia|]. by destruct (Z.ltb_spec 0 (2 ^ 32 + (sw - w) - 2 ^ 32)); [lia|].
Qed.

(** A bump that finds the slot within the share uses some of it up, and none
    gives any back: a slot never returns to an earlier window. *)
Lemma bump_uses share a b w p :
  0 <= share < u32_max -> 0 <= a <= b -> window_ok b -> 0 <= w <= b -> slot_by b p ->
  slot_by b (snd (bump w p)) /\
  left_over share a b (snd (bump w p)) + (if (a <=? w) && (fst (bump w p) <=? share) then 1 else 0) <= left_over share a b p.
Proof.
  intros Hsh Hab Hb Hw (sw & n & -> & Hsw & Hn). unfold window_ok in Hb. unfold bump. cbn [fst snd]. rewrite next_packed_cases by (unfold window_ok; lia).
  assert (forall s m, 0 <= s <= b -> 0 <= m <= u32_max -> left_over share a b (pack (s, m)) = if s <? a then share * (b - a + 1) else share * (b - s) + Z.max 0 (share - m)) as Hl.
  { intros s m Hs Hm. unfold left_over. by destruct (unpack s m) as [-> ->]; [unfold u32_max; lia|done|]. }
  rewrite Hl by done. destruct (Z.leb_spec w sw); cbn [fst snd].
  - split; [exists sw, (Z.min u32_max (n + 1)); split_and!; (done || lia)|]. rewrite Hl by lia.
    destruct (Z.leb_spec a w), (Z.ltb_spec sw a), (Z.leb_spec (Z.min u32_max (n + 1)) share); cbn [andb]; lia.
  - split; [exists w, 1; unfold u32_max in *; split_and!; (done || lia)|]. rewrite Hl by (unfold u32_max; lia).
    destruct (Z.leb_spec a w), (Z.ltb_spec w a), (Z.ltb_spec sw a), (Z.leb_spec 1 share); cbn [andb]; nia.
Qed.

Section Overlapping.
Variables (h : Z * Z -> Z) (share a b : Z) (k : Z * Z).
Hypotheses (Hshare : 0 <= share < u32_max) (Hab : 0 <= a <= b) (Hb : window_ok b).

(** A call of [k] that has found a slot within the share. *)
Definition credited (call : CountCall) : Prop :=
  budget_key (call_source call) = k /\ a <= call_window call /\ match call_least call with Some n => n <= share | None => False end.
#[local] Instance credited_dec call : Decision (credited call).
Proof. unfold credited. destruct (call_least call); apply _. Defined.

Definition call_ok (call : CountCall) : Prop :=
  0 <= call_window call <= b /\ (forall i, i ∈ call_rows call -> i ∈ key_slots h (budget_key (call_source call))) /\
  (call_least call = None -> call_rows call <> []).

Definition room (c : SourceCounts) (row : Z) : Z := left_over share a b (default 0 (zget (slots c) (slot_of_row (h k) row))).

Record overlap_inv (st : SourceCounts * list CountCall) : Prop := {
  oi_hasher : hasher (fst st) = h;
  oi_len : len (slots (fst st)) = SOURCE_ROWS * SOURCE_SLOTS;
  oi_slot i : 0 <= i < SOURCE_ROWS * SOURCE_SLOTS -> slot_by b (default 0 (zget (slots (fst st)) i));
  oi_calls : Forall call_ok (snd st);
  oi_room : len (filter credited (snd st)) + room (fst st) 0 + room (fst st) 1 <= SOURCE_ROWS * share * (b - a + 1);
}.

Lemma filter_update `{forall x : CountCall, Decision (P x)} (l : list CountCall) j x y : l !! j = Some x ->
  len (filter P (<[j := y]> l)) = len (filter P l) - (if decide (P x) then 1 else 0) + (if decide (P y) then 1 else 0).
Proof.
  revert j. induction l as [|z l IH]; intros [|j] Hj; try done.
  - injection Hj as ->. change (<[0%nat := y]> (x :: l)) with (y :: l). rewrite !filter_cons. repeat case_decide; rewrite ?len_cons; lia.
  - change (<[S j := y]> (z :: l)) with (z :: <[j := y]> l). rewrite !filter_cons. specialize (IH j Hj). destruct (decide (P z)); rewrite ?len_cons; lia.
Qed.

Lemma overlap_start st s w : overlap_inv st -> 0 <= w <= b -> overlap_inv (count_step st (CallStart s w)).
Proof.
  destruct st as [c calls]. intros [Hh Hl Hs Hc Hr] Hw. cbn in *. split; cbn; try done.
  - apply Forall_app. split; [done|]. constructor; [|constructor]. split; [done|]. cbn. unfold slots_of, key_slots. rewrite Hh. split; [done|done].
  - rewrite filter_app, filter_cons, decide_False by (by intros (_ & _ & [])). by rewrite app_nil_r.
Qed.

Lemma room_bump c i row p : len (slots c) = SOURCE_ROWS * SOURCE_SLOTS -> 0 <= i < SOURCE_ROWS * SOURCE_SLOTS ->
  room {| hasher := hasher c; slots := zset (slots c) i p |} row = if decide (i = slot_of_row (h k) row) then left_over share a b p else room c row.
Proof.
  intros Hl Hi. unfold room. cbn [slots]. rewrite zget_zset. destruct (decide (i = slot_of_row (h k) row)) as [E|E].
  - rewrite decide_True by (split; [done|lia]). done.
  - by rewrite decide_False by tauto.
Qed.

Lemma key_slots_range k' i : i ∈ key_slots h k' -> 0 <= i < SOURCE_ROWS * SOURCE_SLOTS.
Proof.
  unfold key_slots. cbn [map]. rewrite !elem_of_cons, elem_of_nil. unfold SOURCE_ROWS.
  intros [->|[->|[]]]; [pose proof (slot_of_row_range (h k') 0 ltac:(auto))|pose proof (slot_of_row_range (h k') 1 ltac:(auto))]; lia.
Qed.

Lemma overlap_bump st id : overlap_inv st -> overlap_inv (count_step st (CallBump id)).
Proof.
  destruct st as [c calls]. intros [Hh Hl Hs Hc Hr]. cbn in Hh, Hl, Hs, Hc, Hr. cbn [count_step]. destruct (calls !! id) as [[s w [|i rows] least]|] eqn:Ec; [by split| |by split].
  destruct (Forall_lookup_1 _ _ _ _ Hc Ec) as (Hw & Hrows & _). cbn in Hw, Hrows. assert (i ∈ key_slots h (budget_key s)) as Hi by (apply Hrows; by left).
  pose proof (key_slots_range _ _ Hi) as Hri.
  destruct (bump_uses share a b w (default 0 (zget (slots c) i)) Hshare Hab Hb Hw (Hs i Hri)) as [Hok Huse].
  destruct (bump w (default 0 (zget (slots c) i))) as [n p]. cbn [fst snd] in *. set (call := {| call_source := s; call_window := w; call_rows := rows; call_least := _ |}).
  split; cbn [fst snd hasher]; [done|by cbn; rewrite len_zset|..].
  - intros x Hx. cbn [slots]. rewrite zget_zset. case_decide; [done|by apply Hs].
  - apply Forall_insert; [done|]. split; [done|]. cbn. split; [|done]. intros x Hx. apply Hrows. by right.
  - rewrite (filter_update _ _ _ _ Ec), !room_bump by done.
    assert (slot_of_row (h k) 0 <> slot_of_row (h k) 1) as Hne.
    { pose proof (slot_of_row_range (h k) 0 ltac:(auto)). pose proof (slot_of_row_range (h k) 1 ltac:(auto)). unfold SOURCE_SLOTS in *. lia. }
    assert (credited call -> ~ credited {| call_source := s; call_window := w; call_rows := i :: rows; call_least := least |} ->
      a <= w /\ n <= share /\ (i = slot_of_row (h k) 0 \/ i = slot_of_row (h k) 1)) as Hnew.
    { unfold credited, call. cbn. intros (Hk & Ha & Hn) Hnot. split; [done|]. split; [destruct least as [m|]; [destruct (decide (m <= share)); [by destruct Hnot|lia]|done]|].
      unfold key_slots in Hi. rewrite Hk in Hi. cbn [map] in Hi. rewrite !elem_of_cons, elem_of_nil in Hi. tauto. }
    set (g := (a <=? w) && (n <=? share)) in *. assert (a <= w -> n <= share -> g = true) as Hg by (unfold g; intros; destruct (Z.leb_spec a w), (Z.leb_spec n share); done || lia).
    assert (forall row, i = slot_of_row (h k) row -> left_over share a b p + (if g then 1 else 0) <= room c row) as Hroom by (by intros row ->).
    pose proof (Hroom 0). pose proof (Hroom 1). destruct (decide (credited call)) as [Hcr|]; [|destruct (decide (credited _)), g; repeat case_decide; lia].
    destruct (decide (credited _)) as [|Hncr]; [destruct g; repeat case_decide; lia|]. destruct (Hnew Hcr Hncr) as (? & ? & Hor). rewrite Hg in * by done.
    repeat case_decide; lia || tauto.
Qed.

Lemma overlap_counting evs st : Forall (starts_by b) evs -> overlap_inv st -> overlap_inv (counting evs st).
Proof.
  intros Hevs. revert st. induction Hevs as [|ev evs Hev Hevs IH]; intros st Hst; [done|]. apply IH. destruct ev as [s w|id]; [by apply overlap_start|by apply overlap_bump].
Qed.

Lemma overlap_new : overlap_inv (source_counts_new h, []).
Proof.
  assert (forall i, 0 <= i < SOURCE_ROWS * SOURCE_SLOTS -> default 0 (zget (slots (source_counts_new h)) i) = 0) as Hz.
  { intros i Hi. unfold zget, source_counts_new, zreplicate. cbn [slots]. destruct (Z.ltb_spec i 0); [lia|]. by rewrite lookup_replicate_2 by lia. }
  assert (forall row, (row = 0 \/ row = 1) -> room (source_counts_new h) row <= share * (b - a + 1)) as Hroom.
  { intros row Hrow. unfold room. rewrite Hz by (pose proof (slot_of_row_range (h k) row Hrow); unfold SOURCE_ROWS, SOURCE_SLOTS in *; destruct Hrow; subst; lia).
    unfold left_over. change (wrap32 (Z.shiftr 0 32)) with 0. change (wrap32 0) with 0. destruct (Z.ltb_spec 0 a); nia. }
  split; cbn [fst snd]; [done|done| |constructor|].
  - intros i Hi. rewrite Hz by done. exists 0, 0. unfold u32_max. split_and!; (done || lia).
  - pose proof (Hroom 0 ltac:(auto)). pose proof (Hroom 1 ltac:(auto)). rewrite filter_nil, len_nil. unfold SOURCE_ROWS. lia.
Qed.

Lemma left_over_nonneg p : slot_by b p -> 0 <= left_over share a b p.
Proof.
  intros (sw & n & -> & Hsw & Hn). unfold left_over, window_ok in *. destruct (unpack sw n) as [-> ->]; [unfold u32_max in *; lia|done|]. destruct (Z.ltb_spec sw a); nia.
Qed.

Lemma within_share_credited calls : Forall call_ok calls -> within_share_calls share k a calls <= len (filter credited calls).
Proof.
  unfold within_share_calls. induction 1 as [|call calls (_ & _ & Hn) Hc IH]; [done|]. rewrite !filter_cons. case_decide as Hw.
  - rewrite (decide_True (P := credited call)); [rewrite !len_cons; lia|]. destruct Hw as (Hrows & Hk & Ha & Hle). split_and!; [done..|].
    destruct (call_least call); [done|by destruct Hn].
  - case_decide; rewrite ?len_cons; lia.
Qed.

Lemma overlapping_bound evs : Forall (starts_by b) evs ->
  within_share_calls share k a (snd (counting evs (source_counts_new h, []))) <= SOURCE_ROWS * share * (b - a + 1).
Proof.
  intros Hevs. destruct (overlap_counting _ _ Hevs overlap_new) as [_ _ Hs Hc Hr]. pose proof (within_share_credited _ Hc).
  assert (forall row, (row = 0 \/ row = 1) -> 0 <= room (fst (counting evs (source_counts_new h, []))) row) as Hroom.
  { intros row Hrow. apply left_over_nonneg, Hs. apply (key_slots_range k). unfold key_slots. cbn [map]. rewrite !elem_of_cons. destruct Hrow; subst; auto. }
  pose proof (Hroom 0 ltac:(auto)). pose proof (Hroom 1 ltac:(auto)). lia.
Qed.
End Overlapping.

(** A call nothing overlaps is [count_source]. *)
Lemma count_alone c calls s w :
  counting [CallStart s w; CallBump (length calls); CallBump (length calls)] (c, calls) =
  (snd (count_source c s w), calls ++ [{| call_source := s; call_window := w; call_rows := []; call_least := Some (fst (count_source c s w)) |}]).
Proof.
  assert (forall x y : CountCall, <[length calls := y]> (calls ++ [x]) = calls ++ [y]) as Hset by (intros; by rewrite insert_app_r_alt, Nat.sub_diag).
  assert (forall x : CountCall, (calls ++ [x]) !! length calls = Some x) as Hget by (intros; by apply list_lookup_middle).
  unfold counting. cbn [foldl]. unfold count_step at 3. unfold count_step at 2. rewrite Hget. unfold count_source, slots_of. cbn [map bump_slots].
  destruct (bump w (default 0 (zget (slots c) _))) as [n p]. rewrite Hset. unfold count_step. rewrite Hget. cbn [slots hasher].
  destruct (bump w (default 0 (zget (zset _ _ _) _))) as [n' p']. by rewrite Hset.
Qed.

(** C27. A source cannot exceed its share, and what it is counted is exact.
    Messages counted one after the other, in windows that do not go back: at
    most [share] messages of one budget key (an IPv4 address or an IPv6 /64)
    count as within the share in one window, whatever the other sources send,
    and the count returned is the number of the window's messages that hit the
    source's least loaded slot. Calls that overlap, their bumps interleaved in
    any order and their windows read at any earlier time: as long as no call
    has read a window after [b], at most [SOURCE_ROWS * share] calls of the key
    per window from [a] to [b] are within the share, since a late caller never
    takes a slot back to its own window. A call nothing overlaps is
    [count_source]. *)
Theorem source_share_bound h share k :
  0 <= share < u32_max ->
  (forall w l, windows_from 0 l -> within_share share k w l (fst (count_all (source_counts_new h) l)) <= share) /\
  (forall l s w, windows_from 0 (l ++ [(s, w)]) ->
     fst (count_source (snd (count_all (source_counts_new h) l)) s w) =
     let hit row := hits h (counted (l ++ [(s, w)])) (slot_of_row (h (budget_key s)) row) w in
     Z.min (Z.min u32_max (hit 0)) (Z.min u32_max (hit 1))) /\
  (forall a b evs, 0 <= a <= b -> window_ok b -> Forall (starts_by b) evs ->
     within_share_calls share k a (snd (counting evs (source_counts_new h, []))) <= SOURCE_ROWS * share * (b - a + 1)) /\
  (forall c calls s w, counting [CallStart s w; CallBump (length calls); CallBump (length calls)] (c, calls) =
     (snd (count_source c s w),
      calls ++ [{| call_source := s; call_window := w; call_rows := []; call_least := Some (fst (count_source c s w)) |}])).
Proof.
  intros Hsh. pose proof (counts_new_inv h 0 ltac:(done)) as Hnew. split_and!.
  - intros w l Hl. etrans; [by apply (within_share_bound _ _ _ _ _ [] 0)|]. change (own [] k w) with 0. lia.
  - intros l s w Hl. rewrite (count_all_exact _ _ _ _ _ _ Hnew Hl). by rewrite app_nil_r.
  - intros a b evs Hab Hb Hevs. by apply overlapping_bound.
  - intros c calls s w. apply count_alone.
Qed.

Definition ex_source (n : Z) : Source := Endpoint (V4 (to_be 4 n)) 51820.

(** Two calls of one source that overlap: each bumps one row before the other
    has bumped it. *)
Definition ex_overlap : list CountEvent :=
  [CallStart (ex_source 7) 3; CallStart (ex_source 7) 3; CallBump 0; CallBump 1; CallBump 1; CallBump 0].

Lemma source_share_bound_witness :
  within_share 1 (4, 7) 3
    [(ex_source 7, 3); (ex_source 9, 3); (ex_source 7, 3); (ex_source 7, 3); (ex_source 7, 4)]
    (fst (count_all (source_counts_new fst)
      [(ex_source 7, 3); (ex_source 9, 3); (ex_source 7, 3); (ex_source 7, 3); (ex_source 7, 4)])) <= 1 /\
  map call_least (snd (counting ex_overlap (source_counts_new fst, []))) = [Some 1; Some 1] /\
  within_share_calls 1 (4, 7) 3 (snd (counting ex_overlap (source_counts_new fst, []))) <= 2.
Proof.
  destruct (source_share_bound fst 1 (4, 7)) as (Hseq & _ & Hover & _); [vm_compute; split; congruence|]. split_and!.
  - apply Hseq. repeat split; vm_compute; congruence.
  - vm_compute. reflexivity.
  - apply (Hover 3 3); [lia|vm_compute; split; congruence|]. repeat constructor; vm_compute; congruence.
Defined.

(** ** The gate *)

Section Gate.
Context `{Crypto}.

(** The limiter [r0] has been charged what the decision [ld] records, once. *)
Definition charged (now : Z) (src : option Source) (r0 : RateLimiter) (ld : LoadDecision) (r : RateLimiter) : Prop :=
  match ld_load ld, ld_proven ld with
  | None, None => r = r0
  | Some l, None => is_under_load now src r0 = (l, r)
  | Some l, Some b => exists addr, src = Some addr /\ l = fst (is_under_load now src r0) /\
                        admit_proven now l addr (snd (is_under_load now src r0)) = (b, r)
  | None, Some _ => False
  end.

Lemma gate_charged now src message idx defense ld r r0 g ld' r' :
  charged now src r0 ld r -> gate_handshake now src message idx defense ld r = (g, ld', r') ->
  charged now src r0 ld' r'.
Proof.
  intros Hch. unfold gate_handshake. destruct (mac_fields message) as [[msg mac1] mac2].
  destruct (negb _); [by intros [= <- <- <-]|]. case_bool_decide; [by intros [= <- <- <-]|].
  destruct (get_load now src ld r) as [[l ld1] r1] eqn:Hl.
  assert (charged now src r0 ld1 r1 /\ ld_load ld1 = Some l) as [Hch1 Hl1].
  { unfold get_load in Hl. destruct (ld_load ld) eqn:E; [by injection Hl as <- <- <-|].
    unfold charged in *. rewrite E in Hch. destruct (ld_proven ld) eqn:Ep; [done|]. subst r.
    destruct (is_under_load now src r0) as [l2 r2] eqn:Eu. injection Hl as <- <- <-. cbn [ld_load ld_proven].
    by rewrite ?Ep. }
  case_bool_decide; [by intros [= <- <- <-]|].
  destruct src as [addr|]; [|by intros [= <- <- <-]].
  destruct (negb _); [by intros [= <- <- <-]|].
  destruct (get_proven now l addr ld1 r1) as [[ok ld2] r2] eqn:Hp. intros [= <- <- <-].
  unfold get_proven in Hp. destruct (ld_proven ld1) eqn:E; [by injection Hp as <- <- <-|].
  unfold charged in *. rewrite E, Hl1 in Hch1. destruct (admit_proven now l addr r1) as [b r3] eqn:Ea.
  injection Hp as <- <- <-. cbn [ld_load ld_proven]. rewrite Hl1. exists addr. rewrite Hch1. auto.
Qed.

(** The keys no load decision touches. *)
Definition same_keys (r r' : RateLimiter) : Prop :=
  secret_key r' = secret_key r /\ start_time r' = start_time r /\ mac1_key r' = mac1_key r /\ cookie_key r' = cookie_key r.

Lemma get_load_keys now src ld r l ld' r' : get_load now src ld r = (l, ld', r') -> same_keys r r'.
Proof.
  unfold get_load, is_under_load, aggregate_load, fetch_add_count. destruct (ld_load ld); [by intros [= _ _ <-]|].
  destruct src as [addr|]; [destruct (count_source _ _ _) as [n s]|]; repeat case_match; intros; simplify_eq; done.
Qed.

Lemma get_proven_keys now l addr ld r b ld' r' : get_proven now l addr ld r = (b, ld', r') -> same_keys r r'.
Proof.
  unfold get_proven, admit_proven, admit_proven_share, fetch_add_count. destruct (ld_proven ld); [by intros [= _ _ <-]|].
  destruct (count_source (proven r) _ _) as [n s] eqn:E. cbn [proven set_count limiter_window start_time] in *.
  repeat case_match; intros; simplify_eq; done.
Qed.

Lemma same_keys_trans r1 r2 r3 : same_keys r1 r2 -> same_keys r2 r3 -> same_keys r1 r3.
Proof. unfold same_keys. intuition congruence. Qed.

Lemma gate_keys now src message idx defense ld r g ld' r' :
  gate_handshake now src message idx defense ld r = (g, ld', r') -> same_keys r r'.
Proof.
  unfold gate_handshake. destruct (mac_fields message) as [[msg mac1] mac2].
  destruct (negb _); [by intros [= _ _ <-]|]. case_bool_decide; [by intros [= _ _ <-]|].
  destruct (get_load now src ld r) as [[l ld1] r1] eqn:Hl. apply get_load_keys in Hl.
  case_bool_decide; [by intros [= _ _ <-]|]. destruct src as [addr|]; [|by intros [= _ _ <-]].
  destruct (negb _); [by intros [= _ _ <-]|].
  destruct (get_proven now l addr ld1 r1) as [[ok ld2] r2] eqn:Hp. apply get_proven_keys in Hp.
  intros [= _ _ <-]. by eapply same_keys_trans.
Qed.

(** [mac1] of a message, under the limiter's key. *)
Definition mac1_valid (r : RateLimiter) (message : bytes) : bool :=
  let '(msg, mac1, _) := mac_fields message in constant_time_eq (b2s_keyed_mac_16 (mac1_key r) msg) mac1.

Lemma gate_pass_mac1 now src message idx defense ld r ld' r' :
  gate_handshake now src message idx defense ld r = (GatePass, ld', r') -> mac1_valid r message = true.
Proof.
  unfold gate_handshake, mac1_valid. destruct (mac_fields message) as [[msg mac1] mac2].
  by destruct (constant_time_eq _ mac1).
Qed.

Lemma gate_bypassed now src message idx ld r :
  mac1_valid r message = true -> gate_handshake now src message idx Bypassed ld r = (GatePass, ld, r).
Proof. unfold gate_handshake, mac1_valid. destruct (mac_fields message) as [[msg mac1] mac2]. by intros ->. Qed.

Lemma mac1_first now src message idx defense ld r :
  constant_time_eq (b2s_keyed_mac_16 (mac1_key r) (fst (fst (mac_fields message))))
    (snd (fst (mac_fields message))) = false ->
  gate_handshake now src message idx defense ld r = (GateBadMac, ld, r).
Proof. unfold gate_handshake. destruct (mac_fields message) as [[??]?]. simpl. by intros ->. Qed.

(** The fields a load decision leaves alone. *)
Definition same_config (r r' : RateLimiter) : Prop :=
  proven r' = proven r /\ start_time r' = start_time r /\ secret_key r' = secret_key r /\
  source_limit r' = source_limit r /\ limit r' = limit r.

Lemma aggregate_load_cases r l r' :
  0 <= count r < u64_max -> aggregate_load r = (l, r') ->
  same_config r r' /\ count r' = count r + 1 /\
  (l = Clear /\ count r < limit r \/ l = Aggregate /\ limit r <= count r).
Proof.
  intros Hc. unfold aggregate_load, fetch_add_count. cbn [limit set_count]. rewrite Z.geb_leb.
  destruct (Z.leb_spec (limit r) (count r)); intros [= <- <-]; (split; [done|]);
    cbn [count set_count]; rewrite wrap64_small by lia; auto.
Qed.

Lemma is_under_load_cases now src r l r' :
  0 <= count r < u64_max -> is_under_load now src r = (l, r') ->
  same_config r r' /\
  (l = Clear /\ count r < limit r /\ count r' = count r + 1 \/
   l = Aggregate /\ limit r <= count r \/
   l = SourceShare /\ count r' = count r).
Proof.
  intros Hc. unfold is_under_load. destruct src as [addr|].
  - destruct (count_source _ _ _) as [n s]. destruct (_ >? _).
    + intros [= <- <-]. split; [done|]. auto.
    + intros Ha. apply aggregate_load_cases in Ha as (Hs & Hn & Hl); [|done].
      split; [done|]. cbn in Hl. tauto.
  - intros Ha. apply aggregate_load_cases in Ha as (Hs & Hn & Hl); [|done]. split; [done|]. tauto.
Qed.

Lemma admit_proven_share_true now addr r r' :
  admit_proven_share now addr r = (true, r') ->
  exists n, count_source (proven r) addr (limiter_window now r) = (n, proven r') /\
    n <= Z.max (source_limit r) SOURCE_FLOOR.
Proof.
  unfold admit_proven_share. destruct (count_source _ _ _) as [n s]. intros [= Hn <-].
  exists n. split; [done|]. by apply Z.leb_le.
Qed.

Lemma admit_proven_true now l addr r r' :
  0 <= count r < u64_max -> admit_proven now l addr r = (true, r') ->
  (l = SourceShare /\ count r < limit r /\ count r' = count r + 1) \/
  exists n, count_source (proven r) addr (limiter_window now r) = (n, proven r') /\
    n <= Z.max (source_limit r) SOURCE_FLOOR.
Proof.
  intros Hc. unfold admit_proven. case_bool_decide; [|intros ?; right; by apply admit_proven_share_true].
  unfold fetch_add_count. cbn [limit set_count]. destruct (Z.ltb_spec (count r) (limit r)).
  - intros [= <-]. left. cbn [count set_count]. rewrite wrap64_small by lia. auto.
  - intros Ha%admit_proven_share_true. by right.
Qed.

(** No handshake passes the armed gate for free. A message that passes on a
    fresh load decision has a valid mac1, and either the aggregate count was
    below [limit] and has been charged one, or -- with a valid mac2 for its
    source -- the table of proven messages has been charged one and its count
    for that source was within the proven share. So between two resets at most
    [limit] messages pass on the aggregate, and by the share bound of the
    table at most the share of each source beyond that. *)
Theorem gate_pass_charged now src message idx r ld' r' :
  0 <= count r < u64_max ->
  gate_handshake now src message idx Armed load_default r = (GatePass, ld', r') ->
  b2s_keyed_mac_16 (mac1_key r) (fst (fst (mac_fields message))) = snd (fst (mac_fields message)) /\
  ((count r < limit r /\ count r' = count r + 1) \/
   (exists addr n, src = Some addr /\
      b2s_keyed_mac_16_2 (current_cookie now r addr) (fst (fst (mac_fields message)))
        (snd (fst (mac_fields message))) = snd (mac_fields message) /\
      count_source (proven r) addr (limiter_window now r) = (n, proven r') /\
      n <= Z.max (source_limit r) SOURCE_FLOOR)).
Proof.
  intros Hcnt. unfold gate_handshake. destruct (mac_fields message) as [[msg mac1] mac2].
  cbn [fst snd]. destruct (constant_time_eq _ mac1) eqn:Hm1; [|done].
  apply constant_time_eq_true in Hm1. cbn [negb]. rewrite bool_decide_eq_false_2 by done.
  unfold get_load. cbn [ld_load load_default ld_proven].
  destruct (is_under_load now src r) as [l r1] eqn:Hu.
  apply is_under_load_cases in Hu as ((Hp & Hst & Hsec & Hsl & Hlim) & Hl); [|done].
  case_bool_decide as Hclear.
  { intros [= <- <-]. split; [done|]. left. destruct Hl as [(_ & ?)|[(-> & _)|(-> & _)]]; done. }
  destruct src as [addr|]; [|done].
  destruct (constant_time_eq _ mac2) eqn:Hm2; [|done]. apply constant_time_eq_true in Hm2. cbn [negb].
  unfold get_proven. cbn [ld_proven ld_load].
  destruct (admit_proven now l addr r1) as [ok r2] eqn:Ha. destruct ok; [|done]. intros [= <- <-].
  split; [done|]. unfold current_cookie, limiter_window in *. rewrite Hsec, Hst in Hm2.
  destruct Hl as [(? & _)|[(-> & Hge)|(-> & Hc1)]]; [done|..].
  - unfold admit_proven in Ha. rewrite bool_decide_eq_false_2 in Ha by done.
    apply admit_proven_share_true in Ha as (n & Hn & Hle). unfold limiter_window in Hn.
    right. exists addr, n. by rewrite Hp, Hst in Hn; rewrite Hsl in Hle.
  - apply admit_proven_true in Ha as [(_ & ? & ?)|(n & Hn & Hle)]; [left; lia| |lia].
    unfold limiter_window in Hn. right. exists addr, n. by rewrite Hp, Hst in Hn; rewrite Hsl in Hle.
Qed.
End Gate.

(** ** Cookies *)

Definition source_ok (s : Source) : Prop :=
  ip_ok (source_address s) /\ match source_port s with Some p => in_u16 p | None => True end.

Lemma source_ip_ok s : source_ok s -> ip_ok (source_ip s).
Proof.
  intros [Hs _]. unfold source_ip. destruct (source_address s) as [o|o]; [done|].
  unfold to_ipv4_mapped. case_bool_decide; [|done]. simpl in *. len_lia.
Qed.

Lemma app_inj_len {A} (a b c d : list A) : len a = len c -> a ++ b = c ++ d -> a = c /\ b = d.
Proof. intros Hl Heq. apply app_inj_1; [unfold len in Hl; lia|done]. Qed.

(** A cookie is bound to its source. The input of the cookie MAC is the same
    for two sources exactly when they have the same address -- an IPv4-mapped
    IPv6 address being the IPv4 address it maps -- and the same port, no port
    being distinct from every port. *)
Theorem cookie_input_injective s1 s2 :
  source_ok s1 -> source_ok s2 ->
  cookie_input s1 = cookie_input s2 <->
  source_ip s1 = source_ip s2 /\ source_port s1 = source_port s2.
Proof.
  intros Hs1 Hs2. pose proof (source_ip_ok _ Hs1) as H1. pose proof (source_ip_ok _ Hs2) as H2.
  destruct Hs1 as [_ Hp1], Hs2 as [_ Hp2]. unfold cookie_input. split; [|by intros [-> ->]].
  destruct (source_ip s1) as [o1|o1], (source_ip s2) as [o2|o2],
    (source_port s1) as [p1|], (source_port s2) as [p2|]; simpl in *; try discriminate;
    intros [= Heq]; try (by rewrite Heq);
    apply app_inj_len in Heq as [-> Hp%to_be_inj]; try lia; unfold in_u16, u16_max in *;
    try (by rewrite Hp); change (2 ^ (Z.of_nat 2 * 8)) with 65536; lia.
Qed.

Lemma cookie_input_injective_witness :
  cookie_input (Address (V6 (zeros 10 ++ [Byte.xff; Byte.xff] ++ to_be 4 7))) =
  cookie_input (Address (V4 (to_be 4 7))).
Proof.
  apply cookie_input_injective; [split; [reflexivity|exact I]..|]. split; reflexivity.
Defined.

Section CookieReply.
Context `{Crypto} `{!CryptoLaws} {R : Type} `{RngCore R} `{!RngLaws R}.

Lemma len_current_cookie now r s : len (current_cookie now r s) = 16.
Proof. unfold current_cookie, b2s_keyed_mac_16_2. by rewrite len_blake2s_mac. Qed.

Lemma format_cookie_reply_spec obf idx cookie mac1 dst_len r (rng : R) :
  obf_ok obf -> in_u32 idx -> len cookie = 16 ->
  match format_cookie_reply obf idx cookie mac1 dst_len r rng with
  | (Ok d, r', _) => len d = COOKIE_REPLY_SZ /\ COOKIE_REPLY_SZ <= dst_len /\
      r' = set_nonce_ctr r (wrap64 (nonce_ctr r + 1)) /\
      exists p, parse_incoming_packet obf d = Ok (PPacketCookieReply p) /\ cr_receiver_idx p = idx /\
        len (cr_nonce p) = 24 /\
        xaead_open (cookie_key r) (cr_nonce p) mac1 (cr_encrypted_cookie p) = Some cookie
  | (Err e, r', rng') => e = DestinationBufferTooSmall /\ dst_len < COOKIE_REPLY_SZ /\ r' = r /\ rng' = rng
  end.
Proof.
  intros Ho Hi Hc. unfold format_cookie_reply.
  destruct (Z.ltb_spec dst_len COOKIE_REPLY_SZ); [done|].
  pose proof (random_h3_matches obf rng Ho) as Ht. destruct (random_h3 obf rng) as [tag rng1].
  cbn [fst limiter_nonce] in *. set (nonce := b2s_mac_24 _ _).
  assert (len nonce = 24) as Hn by apply len_blake2s_mac.
  set (ct := xaead_seal _ _ _ _).
  assert (len ct = 32) as Hct by (unfold ct; rewrite len_xaead_seal; unfold TAG_SZ; lia).
  split_and!; [rewrite !len_app, !len_to_le; unfold COOKIE_REPLY_SZ; lia|done|done|].
  eexists. split; [by apply (parse_cookie obf Ho tag idx nonce ct)|]. split_and!; try done.
  apply xaead_open_seal.
Qed.
End CookieReply.

Import Toy CounterRng.

Definition ex_seed : LimiterSeed := {|
  seed_nonce_key := to_le 32 3; seed_secret_key := to_le 16 5;
  seed_sources := fun k => 4097 * snd k; seed_proven := fun k => 4099 * snd k |}.
Definition ex_limiter : RateLimiter := limiter_new ex_seed (to_le 32 9) 10 0.
Definition ex_message : bytes :=
  let msg := to_le 4 1 ++ zeros 112 in
  msg ++ b2s_keyed_mac_16 (mac1_key ex_limiter) msg ++ zeros 16.

Lemma gate_pass_charged_witness :
  exists ld r', gate_handshake 0 (Some (ex_source 7)) ex_message 7 Armed load_default ex_limiter = (GatePass, ld, r')
    /\ b2s_keyed_mac_16 (mac1_key ex_limiter) (fst (fst (mac_fields ex_message))) =
       snd (fst (mac_fields ex_message)).
Proof.
  destruct (gate_handshake 0 (Some (ex_source 7)) ex_message 7 Armed load_default ex_limiter)
    as [[g ld] r'] eqn:E.
  assert (g = GatePass) as -> by (apply (f_equal (fun x => fst (fst x))) in E; vm_compute in E; congruence).
  exists ld, r'. split; [done|].
  eapply (gate_pass_charged 0 (Some (ex_source 7)) ex_message 7 ex_limiter); [|exact E].
  vm_compute. split; congruence.
Defined.
