(* ===== verification/HeaderProtection.v ===== *)
(** Header protection: [noise/header_protection.rs]. A message is masked with
    the ChaCha20 keystream of a device-wide key, nonced by the first twelve
    bytes of the junk prefix in front of it. The keystream starts at the
    message, so the same four bytes unmask the type field at any offset. *)

From S2P Require Import Prelude Crypto Packet.

Definition NONCE_SIZE : Z := 12.
Definition TYPE_MASK_SIZE : Z := 4.

Section Mask.
Context `{Crypto}.

(** A key is its 32 bytes; all zero means off. *)
Definition hp_is_set (key : bytes) : bool := bool_decide (key <> zeros 32).

(** [to_hex]: two lower-case digits per byte. *)
Definition hex_digit (n : Z) : Init.Byte.byte :=
  byte.of_Z (if n <? 10 then 48 + n else 87 + n).
Definition hp_to_hex (key : bytes) : option bytes :=
  if negb (hp_is_set key) then None
  else Some (flat_map (fun b => [hex_digit (byte.unsigned b / 16); hex_digit (byte.unsigned b mod 16)]) key).

(** [cipher] and [apply_keystream]: the keystream is XORed on, from its start. *)
Definition hp_apply (key nonce data : bytes) : bytes :=
  xor_bytes data (chacha20_keystream key nonce (len data)).

(** The flag and the datagram afterwards. *)
Definition mask_outbound (key datagram : bytes) (offset n : Z) : bool * bytes :=
  if negb (hp_is_set key) then (true, datagram) else
  if (offset <? NONCE_SIZE) || (len datagram <? offset + n) then (false, datagram) else
  let nonce := ztake NONCE_SIZE datagram in
  (true, ztake offset datagram ++ hp_apply key nonce (slice offset (offset + n) datagram)
         ++ zdrop (offset + n) datagram).

Definition type_mask (key datagram : bytes) : option bytes :=
  if negb (hp_is_set key) || (len datagram <? NONCE_SIZE) then None
  else Some (hp_apply key (ztake NONCE_SIZE datagram) (zeros TYPE_MASK_SIZE)).

Definition unmask_detached (key datagram message : bytes) (n : Z) : bool * bytes :=
  if negb (hp_is_set key) then (true, message) else
  if (len datagram <? NONCE_SIZE) || (len message <? n) || (n <? TYPE_MASK_SIZE) then (false, message) else
  (true, hp_apply key (ztake NONCE_SIZE datagram) (ztake n message) ++ zdrop n message).
End Mask.

Section MaskSpec.
Context `{Crypto} `{!CryptoLaws}.

Lemma len_hp_apply key nonce data : len (hp_apply key nonce data) = len data.
Proof. unfold hp_apply. rewrite len_xor_bytes, len_keystream by apply len_nonneg. lia. Qed.

Lemma hp_apply_involutive key nonce data : hp_apply key nonce (hp_apply key nonce data) = data.
Proof.
  unfold hp_apply at 1. rewrite len_hp_apply. unfold hp_apply. apply xor_bytes_involutive.
  rewrite len_keystream by apply len_nonneg. lia.
Qed.

Lemma xor_zeros_l m k : 0 <= m -> len k = m -> xor_bytes (zeros m) k = k.
Proof.
  intros Hm Hk. unfold zeros, zreplicate. assert (length k = Z.to_nat m) as Hl by (unfold len in Hk; lia).
  clear Hm Hk. revert k Hl. induction (Z.to_nat m) as [|n IH]; intros [|b k] Hl; simpl in *; try done.
  unfold xor_bytes in *. cbn [zip_with replicate]. f_equal; [by destruct b|]. apply IH. lia.
Qed.

(** Masking a prefix of a message is masking each part with its part of the keystream. *)
Lemma hp_apply_app key nonce a b :
  ztake (len a) (hp_apply key nonce (a ++ b)) = hp_apply key nonce a.
Proof.
  unfold hp_apply. set (ks := chacha20_keystream key nonce (len (a ++ b))).
  assert (ztake (len a) ks = chacha20_keystream key nonce (len a)) as Hk.
  { unfold ks. apply keystream_prefix. len_lia. }
  rewrite <- (ztake_zdrop (len a) ks). rewrite Hk. rewrite xor_bytes_app.
  - apply ztake_app_exact. rewrite len_xor_bytes, len_keystream by apply len_nonneg. lia.
  - rewrite len_keystream by apply len_nonneg. lia.
Qed.

(** The type mask is what masking adds to the first four bytes of a message. *)
Lemma type_mask_xor key datagram msg :
  hp_is_set key = true -> NONCE_SIZE <= len datagram -> TYPE_MASK_SIZE <= len msg ->
  exists mask, type_mask key datagram = Some mask /\ len mask = TYPE_MASK_SIZE /\
    xor_bytes (ztake 4 (hp_apply key (ztake NONCE_SIZE datagram) msg)) mask = ztake 4 msg.
Proof.
  intros Hk Hd Hm. unfold type_mask. rewrite Hk. simpl.
  destruct (Z.ltb_spec (len datagram) NONCE_SIZE); [lia|]. eexists. split; [done|].
  unfold TYPE_MASK_SIZE in *. split; [by rewrite len_hp_apply|].
  set (nonce := ztake NONCE_SIZE datagram).
  assert (len (ztake 4 msg) = 4) as H4 by (rewrite len_ztake; lia).
  rewrite <- (ztake_zdrop 4 msg) at 1. rewrite <- H4 at 1. rewrite hp_apply_app.
  unfold hp_apply. rewrite H4. change (len (zeros 4)) with 4.
  rewrite xor_zeros_l by (rewrite ?len_keystream; lia). apply xor_bytes_involutive.
  rewrite len_keystream by lia. lia.
Qed.

(** A masked frame: what [mask_outbound] leaves of [prefix ++ message ++ rest]. *)
Lemma mask_outbound_frame key prefix message rest n :
  hp_is_set key = true -> NONCE_SIZE <= len prefix -> 0 <= n <= len message ->
  mask_outbound key (prefix ++ message ++ rest) (len prefix) n =
    (true, prefix ++ (hp_apply key (ztake NONCE_SIZE prefix) (ztake n message) ++ zdrop n message) ++ rest).
Proof.
  intros Hk Hp Hn. unfold mask_outbound. rewrite Hk. simpl.
  destruct (Z.ltb_spec (len prefix) NONCE_SIZE); [lia|].
  destruct (Z.ltb_spec (len (prefix ++ message ++ rest)) (len prefix + n)); [len_lia|]. simpl.
  f_equal. rewrite ztake_app_exact by done. f_equal. rewrite (ztake_app_le NONCE_SIZE) by done.
  rewrite <- (ztake_zdrop n message) at 1. rewrite <- app_assoc.
  rewrite slice_mid by len_lia. rewrite <- app_assoc. f_equal.
  rewrite <- (ztake_zdrop n message) at 1. rewrite <- app_assoc.
  rewrite app_assoc. apply zdrop_app_exact. len_lia.
Qed.

(** Unmasking a masked frame, whatever follows it. *)
Lemma header_protection_frame key prefix message rest n :
  hp_is_set key = true -> NONCE_SIZE <= len prefix -> TYPE_MASK_SIZE <= n <= len message ->
  let d := prefix ++ (hp_apply key (ztake NONCE_SIZE prefix) (ztake n message) ++ zdrop n message) ++ rest in
  unmask_detached key d (slice (len prefix) (len prefix + len message) d) n = (true, message).
Proof.
  intros Hk Hp Hn. unfold TYPE_MASK_SIZE in Hn. set (nonce := ztake NONCE_SIZE prefix).
  set (m := hp_apply key nonce (ztake n message) ++ zdrop n message). cbv zeta.
  assert (len m = len message) as Hm by (unfold m; rewrite len_app, len_hp_apply; len_lia).
  assert (len (hp_apply key nonce (ztake n message)) = n) as Hln by (rewrite len_hp_apply; len_lia).
  rewrite <- Hm, slice_mid by lia. unfold unmask_detached. rewrite Hk. simpl. unfold TYPE_MASK_SIZE.
  destruct (Z.ltb_spec (len (prefix ++ m ++ rest)) NONCE_SIZE); [len_lia|].
  destruct (Z.ltb_spec (len m) n); [lia|]. destruct (Z.ltb_spec n 4); [lia|]. simpl.
  rewrite ztake_app_le by done. fold nonce. unfold m. rewrite ztake_app_exact, zdrop_app_exact by done.
  rewrite hp_apply_involutive. by rewrite ztake_zdrop.
Qed.

(** Header protection round trip. A message masked at its wire offset behind
    a prefix of at least twelve bytes is recovered exactly by the receiver's
    detached unmasking of the same extent, and the receiver's four-byte type
    mask, computed from the datagram alone, reads the message's own type. *)
Theorem header_protection_roundtrip key prefix message rest n d :
  hp_is_set key = true -> NONCE_SIZE <= len prefix -> TYPE_MASK_SIZE <= n <= len message ->
  mask_outbound key (prefix ++ message ++ rest) (len prefix) n = (true, d) ->
  unmask_detached key d (slice (len prefix) (len prefix + len message) d) n = (true, message) /\
  exists mask, type_mask key d = Some mask /\
    xor_bytes (slice (len prefix) (len prefix + 4) d) mask = ztake 4 message.
Proof.
  intros Hk Hp Hn. unfold TYPE_MASK_SIZE in Hn. rewrite mask_outbound_frame by (done || lia).
  intros [= <-]. split; [apply header_protection_frame; unfold TYPE_MASK_SIZE; done || lia|].
  set (nonce := ztake NONCE_SIZE prefix).
  set (m := hp_apply key nonce (ztake n message) ++ zdrop n message).
  assert (ztake NONCE_SIZE (prefix ++ m ++ rest) = nonce) as Hnonce by (by apply ztake_app_le).
  assert (len (hp_apply key nonce (ztake n message)) = n) as Hln by (rewrite len_hp_apply; len_lia).
  destruct (type_mask_xor key (prefix ++ m ++ rest) (ztake n message) Hk) as (mask & Ht & Hlm & Hx);
    [len_lia|unfold TYPE_MASK_SIZE; len_lia|].
  exists mask. split; [done|]. rewrite Hnonce in Hx.
  replace (slice (len prefix) (len prefix + 4) (prefix ++ m ++ rest))
    with (ztake 4 (hp_apply key nonce (ztake n message))).
  - rewrite Hx. unfold ztake. rewrite take_take. f_equal. lia.
  - rewrite slice_app_skip, Z.sub_diag by lia. unfold slice. rewrite zdrop_zero by lia.
    unfold m. rewrite <- app_assoc. rewrite ztake_app_le by lia. f_equal. lia.
Qed.
End MaskSpec.

Import Toy.

Lemma header_protection_roundtrip_witness :
  let key := to_le 32 1234 in
  exists d, mask_outbound key (to_le 12 99 ++ to_le 20 4 ++ []) 12 16 = (true, d) /\
    unmask_detached key d (slice 12 32 d) 16 = (true, to_le 20 4).
Proof.
  cbv zeta. destruct (mask_outbound (to_le 32 1234) (to_le 12 99 ++ to_le 20 4 ++ []) 12 16) as [b d] eqn:E.
  assert (b = true) as -> by (vm_compute in E; congruence).
  exists d. split; [done|].
  apply (header_protection_roundtrip (to_le 32 1234) (to_le 12 99) (to_le 20 4) [] 16 d);
    [reflexivity|vm_compute; congruence|vm_compute; split; congruence|exact E].
Defined.
