(* ===== verification/Amnezia.v ===== *)
(** The AmneziaWG configuration: [noise/amnezia.rs], everything that does not
    frame a datagram (see [Framing]) or fill a prefix (see [Fillers]).

    Host names are byte strings. Error messages are structured values that
    keep what the text reports. *)

From S2P Require Import Prelude Budget Crypto Rand Packet RateLimiter HeaderProtection.

Definition DEFAULT_JUNK_PACKET_SIZE_MIN : Z := 50.
Definition DEFAULT_JUNK_PACKET_SIZE_MAX : Z := 1000.
Definition MAX_JUNK_PACKET_COUNT : Z := 128.
Definition MAX_JUNK_PACKET_SIZE : Z := 1280.
Definition MAX_JUNK_PACKET_DELAY_MS : Z := 200.
Definition MAX_SENDABLE_DATAGRAM : Z := 65535 - 20 - 8.
Definition PADDING_MULTIPLE : Z := 16.
Definition DATA_OFFSET_SZ : Z := 16.
Definition DNS_JUNK_SIZE_MIN : Z := 50.
Definition DNS_JUNK_SIZE_MAX : Z := 200.
Definition QUIC_JUNK_SIZE_MIN : Z := 1200.
Definition QUIC_JUNK_SIZE_MAX : Z := 1252.
Definition SIP_JUNK_SIZE_MIN : Z := 200.
Definition SIP_JUNK_SIZE_MAX : Z := 1200.
Definition SIP_REQUEST_LINE_MIN : Z := 31.
Definition STUN_JUNK_SIZE_MIN : Z := 28.
Definition STUN_JUNK_SIZE_MAX : Z := 100.
Definition DEFAULT_UDP_WINDOW : Z := 500.

(** The timer constants of [noise/timers.rs] the configuration reads. *)
Definition REKEY_AFTER_TIME : Z := from_secs 120.
Definition REJECT_AFTER_TIME : Z := from_secs 180.
Definition REKEY_ATTEMPT_TIME : Z := from_secs 90.
Definition REKEY_TIMEOUT : Z := from_secs 5.
Definition KEEPALIVE_TIMEOUT : Z := from_secs 10.
Definition COOKIE_EXPIRATION_TIME : Z := from_secs 120.
Definition REKEY_TIMEOUT_JITTER_MAX_MS : Z := 334.

(** ** Imitation *)

Inductive AmneziaImitationProtocol := ProtoNone | ProtoDns | ProtoQuic | ProtoSip | ProtoStun | ProtoAuto.
#[export] Instance AmneziaImitationProtocol_eq_dec : EqDecision AmneziaImitationProtocol.
Proof. solve_decision. Defined.

Definition protocol_try_from (value : Z) : option AmneziaImitationProtocol :=
  if value =? 0 then Some ProtoNone else if value =? 1 then Some ProtoDns
  else if value =? 2 then Some ProtoQuic else if value =? 3 then Some ProtoSip
  else if value =? 4 then Some ProtoStun else if value =? 5 then Some ProtoAuto else None.

Inductive AmneziaImitationBrowser := BrowserDefault | BrowserChrome | BrowserFirefox | BrowserCurl | BrowserRandom.
#[export] Instance AmneziaImitationBrowser_eq_dec : EqDecision AmneziaImitationBrowser.
Proof. solve_decision. Defined.

Record AmneziaImitation := {
  protocol : AmneziaImitationProtocol;
  domain : option bytes;
  browser : AmneziaImitationBrowser;
}.
#[export] Instance AmneziaImitation_eq_dec : EqDecision AmneziaImitation.
Proof. solve_decision. Defined.

Definition byte_in (lo hi : Z) (b : Init.Byte.byte) : bool :=
  (lo <=? byte.unsigned b) && (byte.unsigned b <=? hi).
Definition is_ascii_alphanumeric (b : Init.Byte.byte) : bool :=
  byte_in 48 57 b || byte_in 65 90 b || byte_in 97 122 b.
Definition is_dot (b : Init.Byte.byte) : bool := byte.unsigned b =? 46.
Definition is_hyphen (b : Init.Byte.byte) : bool := byte.unsigned b =? 45.

Definition is_valid_quic_sni (host : bytes) : bool :=
  negb (len host =? 0) && (len host <=? 253) &&
  negb (existsb (fun b => (byte.unsigned b <? 32) || (byte.unsigned b =? 127)) host).

(** The loop over the bytes of the host: label length, start of a label,
    previous byte a hyphen. *)
Fixpoint host_labels (label_len : Z) (label_start previous_hyphen : bool) (host : bytes) : bool :=
  match host with
  | [] => (0 <? label_len) && negb previous_hyphen
  | b :: host =>
      if is_dot b then
        if (label_len =? 0) || previous_hyphen then false else host_labels 0 true false host
      else if negb (is_ascii_alphanumeric b || is_hyphen b) then false
      else if label_start && is_hyphen b then false
      else if 63 <? label_len + 1 then false
      else host_labels (label_len + 1) false (is_hyphen b) host
  end.

Definition is_valid_imitation_host (host : bytes) : bool :=
  if (len host =? 0) || (253 <? len host)
     || from_option is_dot false (head host) || from_option is_hyphen false (head host)
     || from_option is_dot false (last host) || from_option is_hyphen false (last host)
  then false
  else host_labels 0 true false host.

Definition imitation_new (p : AmneziaImitationProtocol) (dom : option bytes) (b : AmneziaImitationBrowser)
  : AmneziaImitation := {|
  protocol := p;
  domain := match p with
    | ProtoDns | ProtoSip => dom ≫= fun d => if is_valid_imitation_host d then Some d else None
    | ProtoQuic => dom ≫= fun d => if is_valid_quic_sni d then Some d else None
    | _ => None
    end;
  browser := if bool_decide (p = ProtoQuic) then b else BrowserDefault;
|}.

Definition imitation_default : AmneziaImitation :=
  {| protocol := ProtoNone; domain := None; browser := BrowserDefault |}.

Inductive HeaderProtectionNonce := NonceFull | NonceBounded32 | NonceWeak16 | NonceDegenerate.
#[export] Instance HeaderProtectionNonce_eq_dec : EqDecision HeaderProtectionNonce.
Proof. solve_decision. Defined.

(** ** Junk and timers *)

Record AmneziaPreHandshakeJunk := {
  packet_count : Z;
  packet_size_min : Z;
  packet_size_max : Z;
  packet_delay_ms : Z;
}.
#[export] Instance AmneziaPreHandshakeJunk_eq_dec : EqDecision AmneziaPreHandshakeJunk.
Proof. solve_decision. Defined.

Definition junk_default : AmneziaPreHandshakeJunk :=
  {| packet_count := 0; packet_size_min := 0; packet_size_max := 0; packet_delay_ms := 0 |}.

Definition junk_new (count size_min size_max delay_ms : Z) : AmneziaPreHandshakeJunk :=
  let count := if count <=? MAX_JUNK_PACKET_COUNT then count else 0 in
  let '(lo, hi) :=
    if count =? 0 then (size_min, size_max)
    else if (size_min =? 0) && (size_max =? 0) then (DEFAULT_JUNK_PACKET_SIZE_MIN, DEFAULT_JUNK_PACKET_SIZE_MAX)
    else if (0 <? size_min) && (size_min <=? size_max) && (size_max <=? MAX_JUNK_PACKET_SIZE)
    then (size_min, size_max)
    else (DEFAULT_JUNK_PACKET_SIZE_MIN, DEFAULT_JUNK_PACKET_SIZE_MAX) in
  {| packet_count := count; packet_size_min := lo; packet_size_max := hi;
     packet_delay_ms := if delay_ms <=? MAX_JUNK_PACKET_DELAY_MS then delay_ms else 0 |}.

Definition junk_is_enabled (j : AmneziaPreHandshakeJunk) : bool := 0 <? packet_count j.
Definition junk_delay (j : AmneziaPreHandshakeJunk) : Z := from_millis (packet_delay_ms j).

(** Ranges are pairs of whole seconds (or a count), [(0, 0)] unset. *)
Record AwgTimers := {
  rekey_after_time : Z * Z;
  rekey_timeout : Z * Z;
  reject_after_time : Z * Z;
  keepalive_timeout : Z * Z;
  max_handshake_attempts : Z * Z;
}.
#[export] Instance AwgTimers_eq_dec : EqDecision AwgTimers.
Proof. solve_decision. Defined.

Definition timers_default : AwgTimers := {|
  rekey_after_time := (0, 0); rekey_timeout := (0, 0); reject_after_time := (0, 0);
  keepalive_timeout := (0, 0); max_handshake_attempts := (0, 0) |}.

Definition range_unset (range : Z * Z) : bool := bool_decide (range = (0, 0)).

Definition timer_lo (range : Z * Z) (default : Z) : Z :=
  if range_unset range then default else from_secs (fst range).
Definition timer_hi (range : Z * Z) (default : Z) : Z :=
  if range_unset range then default else from_secs (snd range).

Section TimerDraws.
Context {R : Type} `{RngCore R}.

Definition timer_pick (range : Z * Z) (default : Z) (rng : R) : Z * R :=
  if range_unset range then (default, rng)
  else let '(n, rng) := random_usize_inclusive (fst range) (snd range) rng in (from_secs n, rng).

Definition key_refresh_sending (t : AwgTimers) (rng : R) : Z * R :=
  timer_pick (rekey_after_time t) REKEY_AFTER_TIME rng.

Definition key_refresh_receiving (t : AwgTimers) (rng : R) : Z * R :=
  let '(d, rng) := timer_pick (reject_after_time t) REJECT_AFTER_TIME rng in
  (sat_sub (sat_sub d (timer_lo (keepalive_timeout t) KEEPALIVE_TIMEOUT))
     (timer_lo (rekey_timeout t) REKEY_TIMEOUT), rng).

Definition retransmit_timeout (t : AwgTimers) (rng : R) : Z * R :=
  timer_pick (rekey_timeout t) REKEY_TIMEOUT rng.

Definition new_handshake_timeout (t : AwgTimers) (rng : R) : Z * R :=
  let '(d, rng) := timer_pick (rekey_timeout t) REKEY_TIMEOUT rng in
  (timer_hi (keepalive_timeout t) KEEPALIVE_TIMEOUT + d, rng).

Definition timers_keepalive (t : AwgTimers) (rng : R) : Z * R :=
  timer_pick (keepalive_timeout t) KEEPALIVE_TIMEOUT rng.

Definition keychain_expire (t : AwgTimers) : Z := timer_hi (reject_after_time t) REJECT_AFTER_TIME.

Definition max_retransmissions (t : AwgTimers) (rng : R) : Z * R :=
  let classic := as_secs REKEY_ATTEMPT_TIME / as_secs REKEY_TIMEOUT in
  if range_unset (max_handshake_attempts t) then (sat_sub classic 1, rng)
  else let '(n, rng) := random_usize_inclusive (fst (max_handshake_attempts t)) (snd (max_handshake_attempts t)) rng in
       (sat_add u32_max n 1, rng).
End TimerDraws.

(** ** The configuration *)

Record AmneziaConfig := {
  init_packet_junk_size : Z;
  response_packet_junk_size : Z;
  cookie_packet_junk_size : Z;
  transport_packet_junk_size : Z;
  pre_handshake_junk : AmneziaPreHandshakeJunk;
  imitation : AmneziaImitation;
  suppress_pre_handshake : bool;
  header_protection : bytes;
  content_padding_addition : Z * Z;
  content_padding_mtu : Z;
  timers : AwgTimers;
  random_trailers : bool;
  disable_cookies : bool;
}.
#[export] Instance AmneziaConfig_eq_dec : EqDecision AmneziaConfig.
Proof. solve_decision. Defined.

Definition config_new (s1 s2 s3 s4 : Z) : AmneziaConfig := {|
  init_packet_junk_size := s1;
  response_packet_junk_size := s2;
  cookie_packet_junk_size := s3;
  transport_packet_junk_size := s4;
  pre_handshake_junk := junk_default;
  imitation := imitation_default;
  suppress_pre_handshake := false;
  header_protection := zeros 32;
  content_padding_addition := (0, 0);
  content_padding_mtu := 0;
  timers := timers_default;
  random_trailers := false;
  disable_cookies := false;
|}.

(** The builders; each replaces one group of fields. *)
Definition with_pre_handshake_junk (count size_min size_max delay_ms : Z) (c : AmneziaConfig) : AmneziaConfig := {|
  init_packet_junk_size := init_packet_junk_size c;
  response_packet_junk_size := response_packet_junk_size c;
  cookie_packet_junk_size := cookie_packet_junk_size c;
  transport_packet_junk_size := transport_packet_junk_size c;
  pre_handshake_junk := junk_new count size_min size_max delay_ms; imitation := imitation c;
  suppress_pre_handshake := suppress_pre_handshake c; header_protection := header_protection c;
  content_padding_addition := content_padding_addition c;
  content_padding_mtu := content_padding_mtu c; timers := timers c;
  random_trailers := random_trailers c; disable_cookies := disable_cookies c |}.
Definition with_header_protection (key : bytes) (c : AmneziaConfig) : AmneziaConfig := {|
  init_packet_junk_size := init_packet_junk_size c;
  response_packet_junk_size := response_packet_junk_size c;
  cookie_packet_junk_size := cookie_packet_junk_size c;
  transport_packet_junk_size := transport_packet_junk_size c;
  pre_handshake_junk := pre_handshake_junk c; imitation := imitation c;
  suppress_pre_handshake := suppress_pre_handshake c; header_protection := key;
  content_padding_addition := content_padding_addition c;
  content_padding_mtu := content_padding_mtu c; timers := timers c;
  random_trailers := random_trailers c; disable_cookies := disable_cookies c |}.
Definition with_content_padding_addition (lo hi mtu : Z) (c : AmneziaConfig) : AmneziaConfig := {|
  init_packet_junk_size := init_packet_junk_size c;
  response_packet_junk_size := response_packet_junk_size c;
  cookie_packet_junk_size := cookie_packet_junk_size c;
  transport_packet_junk_size := transport_packet_junk_size c;
  pre_handshake_junk := pre_handshake_junk c; imitation := imitation c;
  suppress_pre_handshake := suppress_pre_handshake c; header_protection := header_protection c;
  content_padding_addition := (Z.min lo hi, Z.max lo hi); content_padding_mtu := mtu;
  timers := timers c; random_trailers := random_trailers c; disable_cookies := disable_cookies c |}.
Definition with_random_trailers (on : bool) (c : AmneziaConfig) : AmneziaConfig := {|
  init_packet_junk_size := init_packet_junk_size c;
  response_packet_junk_size := response_packet_junk_size c;
  cookie_packet_junk_size := cookie_packet_junk_size c;
  transport_packet_junk_size := transport_packet_junk_size c;
  pre_handshake_junk := pre_handshake_junk c; imitation := imitation c;
  suppress_pre_handshake := suppress_pre_handshake c; header_protection := header_protection c;
  content_padding_addition := content_padding_addition c;
  content_padding_mtu := content_padding_mtu c; timers := timers c; random_trailers := on;
  disable_cookies := disable_cookies c |}.
Definition with_disable_cookies (on : bool) (c : AmneziaConfig) : AmneziaConfig := {|
  init_packet_junk_size := init_packet_junk_size c;
  response_packet_junk_size := response_packet_junk_size c;
  cookie_packet_junk_size := cookie_packet_junk_size c;
  transport_packet_junk_size := transport_packet_junk_size c;
  pre_handshake_junk := pre_handshake_junk c; imitation := imitation c;
  suppress_pre_handshake := suppress_pre_handshake c; header_protection := header_protection c;
  content_padding_addition := content_padding_addition c;
  content_padding_mtu := content_padding_mtu c; timers := timers c;
  random_trailers := random_trailers c; disable_cookies := on |}.

Definition normalize_range (r : Z * Z) : Z * Z := (Z.min (fst r) (snd r), Z.max (fst r) (snd r)).
Definition with_tunable_timers (t : AwgTimers) (c : AmneziaConfig) : AmneziaConfig := {|
  init_packet_junk_size := init_packet_junk_size c;
  response_packet_junk_size := response_packet_junk_size c;
  cookie_packet_junk_size := cookie_packet_junk_size c;
  transport_packet_junk_size := transport_packet_junk_size c;
  pre_handshake_junk := pre_handshake_junk c; imitation := imitation c;
  suppress_pre_handshake := suppress_pre_handshake c; header_protection := header_protection c;
  content_padding_addition := content_padding_addition c;
  content_padding_mtu := content_padding_mtu c;
  timers := {|
    rekey_after_time := normalize_range (rekey_after_time t);
    rekey_timeout := normalize_range (rekey_timeout t);
    reject_after_time := normalize_range (reject_after_time t);
    keepalive_timeout := normalize_range (keepalive_timeout t);
    max_handshake_attempts := normalize_range (max_handshake_attempts t) |};
  random_trailers := random_trailers c; disable_cookies := disable_cookies c |}.
Definition set_imitation (i : AmneziaImitation) (c : AmneziaConfig) : AmneziaConfig := {|
  init_packet_junk_size := init_packet_junk_size c;
  response_packet_junk_size := response_packet_junk_size c;
  cookie_packet_junk_size := cookie_packet_junk_size c;
  transport_packet_junk_size := transport_packet_junk_size c;
  pre_handshake_junk := pre_handshake_junk c; imitation := i;
  suppress_pre_handshake := suppress_pre_handshake c; header_protection := header_protection c;
  content_padding_addition := content_padding_addition c;
  content_padding_mtu := content_padding_mtu c; timers := timers c;
  random_trailers := random_trailers c; disable_cookies := disable_cookies c |}.
Definition with_protocol_imitation (p : AmneziaImitationProtocol) (dom : option bytes) (c : AmneziaConfig) : AmneziaConfig :=
  set_imitation (imitation_new p dom BrowserDefault) c.
Definition with_protocol_imitation_browser (p : AmneziaImitationProtocol) (dom : option bytes)
    (b : AmneziaImitationBrowser) (c : AmneziaConfig) : AmneziaConfig :=
  set_imitation (imitation_new p dom b) c.
Definition as_responder (c : AmneziaConfig) : AmneziaConfig := {|
  init_packet_junk_size := init_packet_junk_size c;
  response_packet_junk_size := response_packet_junk_size c;
  cookie_packet_junk_size := cookie_packet_junk_size c;
  transport_packet_junk_size := transport_packet_junk_size c;
  pre_handshake_junk := pre_handshake_junk c; imitation := imitation c;
  suppress_pre_handshake := true; header_protection := header_protection c;
  content_padding_addition := content_padding_addition c;
  content_padding_mtu := content_padding_mtu c; timers := timers c;
  random_trailers := random_trailers c; disable_cookies := disable_cookies c |}.

Inductive PendingBurstChange := BurstKeep | BurstRestart.

Definition pending_burst_change (c next : AmneziaConfig) : PendingBurstChange :=
  if negb (packet_count (pre_handshake_junk c) =? packet_count (pre_handshake_junk next))
     || negb (bool_decide (imitation c = imitation next))
     || negb (Bool.eqb (suppress_pre_handshake c) (suppress_pre_handshake next))
  then BurstRestart else BurstKeep.

Definition cookie_defense (c : AmneziaConfig) : CookieDefense :=
  if disable_cookies c then Bypassed else Armed.

(** ** Sizes *)

Inductive PacketKind := KHandshakeInit | KHandshakeResponse | KCookieReply | KTransportData.
#[export] Instance PacketKind_eq_dec : EqDecision PacketKind.
Proof. solve_decision. Defined.

Definition inbound_junk_size (c : AmneziaConfig) (kind : PacketKind) : Z :=
  match kind with
  | KHandshakeInit => init_packet_junk_size c
  | KHandshakeResponse => response_packet_junk_size c
  | KCookieReply => cookie_packet_junk_size c
  | KTransportData => transport_packet_junk_size c
  end.
Definition outbound_junk_size (c : AmneziaConfig) (kind : PacketKind) : Z := inbound_junk_size c kind.
Definition transport_junk_size (c : AmneziaConfig) : Z := outbound_junk_size c KTransportData.
Definition handshake_init_junk_size (c : AmneziaConfig) : Z := outbound_junk_size c KHandshakeInit.
Definition handshake_response_junk_size (c : AmneziaConfig) : Z := outbound_junk_size c KHandshakeResponse.

Definition transport_window_observation (c : AmneziaConfig) (src_len : Z) : Z :=
  transport_junk_size c + DATA_OVERHEAD_SZ + src_len.
Definition received_window_observation (c : AmneziaConfig) (plaintext_len : Z) : Z :=
  transport_junk_size c + DATA_OFFSET_SZ + plaintext_len.

Definition reply_amplifies (request_len reply_len : Z) : bool := reply_len >? request_len.
Definition cookie_reply_len (c : AmneziaConfig) (cookie_len : Z) : Z :=
  sat_add usize_max cookie_len (outbound_junk_size c KCookieReply).
Definition cookie_reply_would_amplify (c : AmneziaConfig) (cookie_len request_len : Z) : bool :=
  reply_amplifies request_len (cookie_reply_len c cookie_len).

(** Every request kind the reply would exceed: the S index, the request's
    size and the least prefix that clears it, tightest first. *)
Definition cookie_amplification_bounds (c : AmneziaConfig) : list (nat * Z * Z) :=
  let reply := COOKIE_REPLY_SZ + cookie_packet_junk_size c in
  let bounds :=
    map (fun '(label, junk, base) => (label, base + junk, reply - base))
      (filter (fun '(label, junk, base) => reply > base + junk)
        [(1%nat, init_packet_junk_size c, HANDSHAKE_INIT_SZ);
         (2%nat, response_packet_junk_size c, HANDSHAKE_RESP_SZ)]) in
  match bounds with
  | [a; b] => if snd (fst b) <? snd (fst a) then [b; a] else [a; b]
  | l => l
  end.

(** ** Transport padding *)

Section Padding.
Context {R : Type} `{RngCore R}.

Definition range_active (r : Z * Z) : bool := negb (fst r =? 0) || negb (snd r =? 0).

Definition window_padding (c : AmneziaConfig) (base udp_window : Z) (rng : R) : Z * R :=
  let headroom := sat_sub udp_window base in
  let '(lo, hi) := content_padding_addition c in
  if range_active (content_padding_addition c) then
    let '(n, rng) := random_usize_inclusive lo hi rng in (Z.min n headroom, rng)
  else optional_below headroom rng.

(** [usize::next_multiple_of]. *)
Definition next_multiple_of (n m : Z) : Z := if n mod m =? 0 then n else n + (m - n mod m).

Definition content_padding (c : AmneziaConfig) (src_len space : Z) (rng : R) : Z * R :=
  let mtu := content_padding_mtu c in
  let last_unit := if negb (mtu =? 0) && (mtu <? src_len) then src_len mod mtu else src_len in
  let '(lo, hi) := content_padding_addition c in
  let '(want, rng) :=
    if range_active (content_padding_addition c) then random_usize_inclusive lo hi rng
    else
      let padded := next_multiple_of last_unit PADDING_MULTIPLE in
      let padded := if negb (mtu =? 0) then Z.min padded mtu else padded in
      (sat_sub padded last_unit, rng) in
  let want := if negb (mtu =? 0) then Z.min want (sat_sub mtu last_unit) else want in
  (Z.min want space, rng).

Definition content_padding_for_frame (c : AmneziaConfig) (src_len dst_len transport_junk udp_window : Z)
    (rng : R) : Z * R :=
  let committed := src_len + DATA_OVERHEAD_SZ + transport_junk in
  let space := Z.min (sat_sub dst_len committed) (sat_sub MAX_SENDABLE_DATAGRAM committed) in
  if random_trailers c then
    let '(n, rng) := window_padding c committed udp_window rng in (Z.min n space, rng)
  else content_padding c src_len space rng.
End Padding.

(** ** Header-protection policy and validation *)

Definition header_protection_enabled (c : AmneziaConfig) : bool := hp_is_set (header_protection c).

Definition labelled_junk_sizes (c : AmneziaConfig) : list (nat * Z) :=
  [(1%nat, init_packet_junk_size c); (2%nat, response_packet_junk_size c);
   (3%nat, cookie_packet_junk_size c); (4%nat, transport_packet_junk_size c)].

Definition sip_request_line_prefix (c : AmneziaConfig) : option (nat * Z) :=
  List.find (fun p => SIP_REQUEST_LINE_MIN <=? snd p) (labelled_junk_sizes c).

Definition header_protection_nonce (c : AmneziaConfig) : option HeaderProtectionNonce :=
  if negb (header_protection_enabled c) then None
  else Some (match protocol (imitation c) with
    | ProtoNone | ProtoAuto | ProtoQuic => NonceFull
    | ProtoStun => NonceBounded32
    | ProtoDns => NonceWeak16
    | ProtoSip => match sip_request_line_prefix c with
        | Some _ => NonceDegenerate
        | None => NonceFull
        end
    end).

Inductive ConfigError :=
| NonceTooShort (label : nat) (size : Z)
| SipRequestLine (label : nat) (size : Z)
| PrefixTooLarge (label : nat) (size base : Z)
| ZeroInRange (which : nat) (hi : Z).

Definition check_header_protection_nonce (c : AmneziaConfig) : result ConfigError unit :=
  if negb (header_protection_enabled c) then Ok tt else
  match List.find (fun p => snd p <? NONCE_SIZE) (labelled_junk_sizes c) with
  | Some (label, junk) => Err (NonceTooShort label junk)
  | None =>
      if bool_decide (header_protection_nonce c = Some NonceDegenerate) then
        match sip_request_line_prefix c with
        | Some (label, size) => Err (SipRequestLine label size)
        | None => Ok tt
        end
      else Ok tt
  end.

Definition sized_prefixes (c : AmneziaConfig) : list (nat * Z * Z) :=
  [(1%nat, init_packet_junk_size c, HANDSHAKE_INIT_SZ);
   (2%nat, response_packet_junk_size c, HANDSHAKE_RESP_SZ);
   (3%nat, cookie_packet_junk_size c, COOKIE_REPLY_SZ);
   (4%nat, transport_packet_junk_size c, DATA_OVERHEAD_SZ)].

Definition duration_ranges (t : AwgTimers) : list (nat * (Z * Z)) :=
  [(1%nat, rekey_after_time t); (2%nat, rekey_timeout t);
   (3%nat, reject_after_time t); (4%nat, keepalive_timeout t)].

Definition validate (c : AmneziaConfig) : result ConfigError unit :=
  let? _ := check_header_protection_nonce c in
  match List.find (fun '(_, junk, base) => MAX_SENDABLE_DATAGRAM <? junk + base) (sized_prefixes c) with
  | Some (label, junk, base) => Err (PrefixTooLarge label junk base)
  | None =>
      match List.find (fun '(_, r) => negb (range_unset r) && (fst r =? 0)) (duration_ranges (timers c)) with
      | Some (label, (_, hi)) => Err (ZeroInRange label hi)
      | None => Ok tt
      end
  end.

(** The two orderings the warning reports: renewal and last-minute window. *)
Definition timer_ordering_complaint (c : AmneziaConfig) : option (option (Z * Z) * option (Z * Z)) :=
  let t := timers c in
  let reject_lo := as_secs (timer_lo (reject_after_time t) REJECT_AFTER_TIME) in
  let rekey_after_hi := as_secs (timer_hi (rekey_after_time t) REKEY_AFTER_TIME) in
  let rekey_timeout_hi := as_secs (timer_hi (rekey_timeout t) REKEY_TIMEOUT) in
  let keepalive_hi := as_secs (timer_hi (keepalive_timeout t) KEEPALIVE_TIMEOUT) in
  let renewal := rekey_after_hi + rekey_timeout_hi in
  let last_minute := keepalive_hi + rekey_timeout_hi in
  let a := if reject_lo <? renewal then Some (reject_lo, renewal) else None in
  let b := if reject_lo <=? last_minute then Some (reject_lo, last_minute) else None in
  match a, b with None, None => None | _, _ => Some (a, b) end.

Definition resolve_imitation (c : AmneziaConfig) (p : AmneziaImitationProtocol) : AmneziaConfig :=
  if negb (bool_decide (protocol (imitation c) = ProtoAuto)) then c else
  let p := if bool_decide (p = ProtoAuto) then ProtoNone else p in
  let resolved := set_imitation (imitation_new p None BrowserDefault) c in
  if is_err (check_header_protection_nonce resolved) then set_imitation imitation_default resolved
  else resolved.

Definition has_imitation_sequence (c : AmneziaConfig) : bool :=
  match protocol (imitation c) with ProtoNone | ProtoAuto => false | _ => true end.

Definition emits_pre_handshake (c : AmneziaConfig) : bool :=
  negb (suppress_pre_handshake c)
  && negb (bool_decide (protocol (imitation c) = ProtoAuto))
  && (junk_is_enabled (pre_handshake_junk c) || has_imitation_sequence c).

(** ** Jc junk sizes *)

Definition pre_handshake_junk_size_range (c : AmneziaConfig) : Z * Z :=
  match protocol (imitation c) with
  | ProtoNone | ProtoAuto => (packet_size_min (pre_handshake_junk c), packet_size_max (pre_handshake_junk c))
  | ProtoDns => (DNS_JUNK_SIZE_MIN, DNS_JUNK_SIZE_MAX)
  | ProtoQuic => (QUIC_JUNK_SIZE_MIN, QUIC_JUNK_SIZE_MAX)
  | ProtoSip => (SIP_JUNK_SIZE_MIN, SIP_JUNK_SIZE_MAX)
  | ProtoStun => (STUN_JUNK_SIZE_MIN, STUN_JUNK_SIZE_MAX)
  end.

Definition pre_handshake_junk_range_within (c : AmneziaConfig) (budget : OutputBudget)
  : result WireGuardError (Z * Z) :=
  let protocol_shaped := negb (bool_decide (protocol (imitation c) = ProtoNone)) in
  let kind := if protocol_shaped then Other else OrdinaryJunk in
  junk_range (pre_handshake_junk_size_range c) protocol_shaped (control_for budget kind).

Definition pre_handshake_junk_max_size_in (c : AmneziaConfig) (range : Z * Z) : Z :=
  if negb (junk_is_enabled (pre_handshake_junk c)) then 0 else Z.max (fst range) (snd range).

(** ** Well-formed configurations: every field in the range of its type. *)

Definition range_u32 (r : Z * Z) : Prop := in_u32 (fst r) /\ in_u32 (snd r).

Record config_ok (c : AmneziaConfig) : Prop := {
  co_sizes kind : in_u16 (inbound_junk_size c kind);
  co_count : 0 <= packet_count (pre_handshake_junk c) <= u16_max;
  co_junk_min : in_u16 (packet_size_min (pre_handshake_junk c));
  co_junk_max : in_u16 (packet_size_max (pre_handshake_junk c));
  co_delay : in_u16 (packet_delay_ms (pre_handshake_junk c));
  co_padding : range_u32 (content_padding_addition c);
  co_mtu : in_u16 (content_padding_mtu c);
  co_timers : Forall (fun p => range_u32 (snd p)) (duration_ranges (timers c));
  co_attempts : range_u32 (max_handshake_attempts (timers c));
  co_domain : from_option len 0 (domain (imitation c)) <= 253;
}.

Lemma config_new_ok s1 s2 s3 s4 :
  in_u16 s1 -> in_u16 s2 -> in_u16 s3 -> in_u16 s4 -> config_ok (config_new s1 s2 s3 s4).
Proof.
  intros. split; [by intros []|..]; cbn; unfold range_u32, in_u32, in_u16, u32_max, u16_max; cbn; try lia.
  repeat (apply List.Forall_cons; [cbn; lia|]). apply List.Forall_nil.
Qed.

(** Decide [config_ok] of a closed configuration. *)
Definition in_range (max z : Z) : bool := (0 <=? z) && (z <=? max).
Definition config_okb (c : AmneziaConfig) : bool :=
  forallb (in_range u16_max) (map (inbound_junk_size c) [KHandshakeInit; KHandshakeResponse; KCookieReply; KTransportData])
  && forallb (in_range u16_max)
       [packet_count (pre_handshake_junk c); packet_size_min (pre_handshake_junk c);
        packet_size_max (pre_handshake_junk c); packet_delay_ms (pre_handshake_junk c); content_padding_mtu c]
  && forallb (fun r => in_range u32_max (fst r) && in_range u32_max (snd r))
       (content_padding_addition c :: max_handshake_attempts (timers c) :: map snd (duration_ranges (timers c)))
  && (from_option len 0 (domain (imitation c)) <=? 253).

Lemma in_range_spec max z : in_range max z = true -> 0 <= z <= max.
Proof. unfold in_range. rewrite andb_true_iff, !Z.leb_le. lia. Qed.

Lemma config_okb_ok c : config_okb c = true -> config_ok c.
Proof.
  unfold config_okb. rewrite !andb_true_iff, !forallb_forall. intros [[[Hs Hj] Hr] Hd%Z.leb_le].
  assert (forall r, In r (content_padding_addition c :: max_handshake_attempts (timers c) ::
    map snd (duration_ranges (timers c))) -> range_u32 r) as Hr'.
  { intros r [H1%in_range_spec H2%in_range_spec]%Hr%andb_true_iff. by split. }
  split; try (apply in_range_spec, Hj; simpl; tauto); try (apply Hr'; simpl; tauto); try exact Hd.
  - intros kind. apply in_range_spec, Hs. destruct kind; simpl; tauto.
  - apply List.Forall_forall. intros p Hp. apply Hr'. right; right. by apply in_map.
Qed.

(** ** Padding *)

Section PaddingSpec.
Context {R : Type} `{RngCore R} `{!RngLaws R}.

Lemma next_multiple_of_spec n m :
  0 <= n -> 0 < m -> n <= next_multiple_of n m < n + m /\ next_multiple_of n m mod m = 0.
Proof.
  intros Hn Hm. unfold next_multiple_of. pose proof (Z.mod_pos_bound n m Hm).
  destruct (Z.eqb_spec (n mod m) 0); [lia|]. split; [lia|].
  rewrite (Z.div_mod n m) at 1 by lia. replace (m * (n / m) + n mod m + (m - n mod m)) with ((n / m + 1) * m) by ring.
  apply Z.mod_mul. lia.
Qed.

Lemma window_padding_range c base w (rng : R) : config_ok c -> 0 <= fst (window_padding c base w rng).
Proof.
  intros Hc. destruct (co_padding _ Hc) as [[Hlo _] _]. unfold window_padding.
  destruct (content_padding_addition c) as [lo hi]. simpl in Hlo. destruct (range_active _).
  - pose proof (random_usize_inclusive_range lo hi rng). destruct (random_usize_inclusive lo hi rng).
    simpl in *. unfold sat_sub. lia.
  - assert (0 <= sat_sub w base) by (unfold sat_sub; lia).
    by pose proof (optional_below_range (sat_sub w base) rng ltac:(done)) as [? _].
Qed.

(** The amount drawn: never negative, never past the room, never past the MTU. *)
Lemma content_padding_range c src_len space (rng : R) :
  config_ok c -> 0 <= src_len -> 0 <= space ->
  let pad := fst (content_padding c src_len space rng) in
  0 <= pad <= space /\
  (0 < content_padding_mtu c -> src_len <= content_padding_mtu c -> src_len + pad <= content_padding_mtu c).
Proof.
  intros Hc Hs Hsp. destruct (co_padding _ Hc) as [[Hlo _] _]. pose proof (co_mtu _ Hc) as [Hm _].
  unfold content_padding. set (mtu := content_padding_mtu c) in *.
  destruct (content_padding_addition c) as [lo hi]. simpl in Hlo.
  set (last_unit := if negb (mtu =? 0) && (mtu <? src_len) then src_len mod mtu else src_len).
  assert (0 <= last_unit) as Hl.
  { unfold last_unit. destruct (Z.eqb_spec mtu 0); simpl; [lia|]. destruct (Z.ltb_spec mtu src_len); [|lia].
    pose proof (Z.mod_pos_bound src_len mtu). lia. }
  assert (src_len <= mtu -> last_unit = src_len) as Hlu.
  { intros. unfold last_unit. destruct (Z.eqb_spec mtu 0); simpl; [done|].
    by destruct (Z.ltb_spec mtu src_len); [lia|]. }
  assert (forall want r', 0 <= want ->
    let pad := fst (Z.min (if negb (mtu =? 0) then Z.min want (sat_sub mtu last_unit) else want) space, r' : R) in
    0 <= pad <= space /\ (0 < mtu -> src_len <= mtu -> src_len + pad <= mtu)) as Hcap.
  { intros want r' Hw. simpl. unfold sat_sub. destruct (Z.eqb_spec mtu 0); simpl; [lia|].
    split; [lia|]. intros ? Hle. rewrite (Hlu Hle). lia. }
  destruct (range_active (lo, hi)).
  - pose proof (random_usize_inclusive_range lo hi rng). destruct (random_usize_inclusive lo hi rng) as [n r'].
    simpl in *. apply (Hcap n r'). lia.
  - apply (Hcap _ rng). unfold sat_sub. lia.
Qed.

(** The padding of a frame stays within the room there is, whatever that is. *)
Lemma content_padding_for_frame_range c src_len dst_len junk udp_window (rng : R) :
  config_ok c -> 0 <= src_len -> 0 <= junk ->
  let base := src_len + DATA_OVERHEAD_SZ + junk in
  let pad := fst (content_padding_for_frame c src_len dst_len junk udp_window rng) in
  0 <= pad /\ base + pad <= Z.max base (Z.min dst_len MAX_SENDABLE_DATAGRAM).
Proof.
  intros Hc Hs Hj base. unfold content_padding_for_frame. fold base.
  set (space := Z.min (sat_sub dst_len _) (sat_sub MAX_SENDABLE_DATAGRAM _)).
  assert (0 <= space /\ base + space <= Z.max base (Z.min dst_len MAX_SENDABLE_DATAGRAM)) as [Hsp ?]
    by (unfold space, sat_sub; lia).
  destruct (random_trailers c).
  - pose proof (window_padding_range c base udp_window rng Hc).
    destruct (window_padding _ _ _ _) as [n r']. simpl in *. lia.
  - pose proof (content_padding_range c src_len space rng Hc Hs Hsp) as [Hp _].
    destruct (content_padding _ _ _ _) as [n r']. simpl in *. lia.
Qed.

(** Padding never makes a deliverable frame undeliverable. Whenever the
    unpadded transport frame fits the caller's buffer and the largest sendable
    datagram, the padding [content_padding_for_frame] draws -- whatever the
    mode, range, MTU, window and generator -- keeps it inside both; where the
    MTU is known and RandomTrailers is off, a plaintext within the MTU stays
    within it. *)
Theorem content_padding_fits c src_len dst_len junk udp_window (rng : R) :
  config_ok c -> 0 <= src_len -> 0 <= junk ->
  src_len + DATA_OVERHEAD_SZ + junk <= Z.min dst_len MAX_SENDABLE_DATAGRAM ->
  let pad := fst (content_padding_for_frame c src_len dst_len junk udp_window rng) in
  0 <= pad /\ src_len + pad + DATA_OVERHEAD_SZ + junk <= Z.min dst_len MAX_SENDABLE_DATAGRAM /\
  (random_trailers c = false -> 0 < content_padding_mtu c -> src_len <= content_padding_mtu c ->
   src_len + pad <= content_padding_mtu c).
Proof.
  intros Hc Hs Hj Hfit. unfold content_padding_for_frame.
  set (space := Z.min (sat_sub dst_len _) (sat_sub MAX_SENDABLE_DATAGRAM _)).
  assert (space = Z.min dst_len MAX_SENDABLE_DATAGRAM - (src_len + DATA_OVERHEAD_SZ + junk)) as Hsp
    by (unfold space, sat_sub; lia).
  destruct (random_trailers c).
  - pose proof (window_padding_range c (src_len + DATA_OVERHEAD_SZ + junk) udp_window rng Hc).
    destruct (window_padding _ _ _ _) as [n r']. simpl in *. split_and!; [lia|lia|done].
  - pose proof (content_padding_range c src_len space rng Hc Hs ltac:(lia)) as [Hp Hm].
    destruct (content_padding _ _ _ _) as [n r']. simpl in *. split_and!; [lia|lia|auto].
Qed.

(** With nothing configured, the plaintext is rounded up to 16 bytes. *)
Lemma content_padding_rounds c src_len space (rng : R) :
  content_padding_addition c = (0, 0) -> content_padding_mtu c = 0 -> 0 <= src_len -> 15 <= space ->
  (src_len + fst (content_padding c src_len space rng)) mod PADDING_MULTIPLE = 0.
Proof.
  intros Ha Hm Hs Hsp. unfold content_padding. rewrite Ha, Hm. simpl.
  destruct (next_multiple_of_spec src_len PADDING_MULTIPLE Hs eq_refl) as [Hr Hmod].
  unfold sat_sub, PADDING_MULTIPLE in *. rewrite Z.min_l by lia. rewrite Z.max_r by lia.
  by replace (src_len + _) with (next_multiple_of src_len 16) by lia.
Qed.
End PaddingSpec.

Lemma content_padding_fits_witness :
  let c := with_content_padding_addition 5 900 1420 (config_new 0 0 0 15) in
  let pad := fst (content_padding_for_frame c 1400 2000 15 500 (R := Z) (H := CounterRng.rng) 7) in
  1400 + pad + DATA_OVERHEAD_SZ + 15 <= Z.min 2000 MAX_SENDABLE_DATAGRAM.
Proof.
  apply (content_padding_fits (R := Z)); [|vm_compute; congruence..].
  apply config_okb_ok. vm_compute. reflexivity.
Defined.

(** ** Validation *)

Lemma find_None {A} (f : A -> bool) l : List.find f l = None -> forall x, In x l -> f x = false.
Proof. apply List.find_none. Qed.

Lemma check_nonce_ok c :
  check_header_protection_nonce c = Ok tt -> header_protection_enabled c = true ->
  (forall kind, NONCE_SIZE <= inbound_junk_size c kind) /\
  (protocol (imitation c) = ProtoSip -> forall kind, inbound_junk_size c kind < SIP_REQUEST_LINE_MIN).
Proof.
  intros Hc He. unfold check_header_protection_nonce in Hc. rewrite He in Hc. cbn [negb] in Hc.
  destruct (List.find _ (labelled_junk_sizes c)) as [[??]|] eqn:Hf; [done|].
  assert (forall p, In p (labelled_junk_sizes c) -> NONCE_SIZE <= snd p) as Hn.
  { intros p Hp. apply Z.ltb_ge. by apply (find_None _ _ Hf). }
  split.
  - intros kind. destruct kind; simpl; [apply (Hn (1%nat, _))|apply (Hn (2%nat, _))|apply (Hn (3%nat, _))|apply (Hn (4%nat, _))];
      simpl; auto.
  - intros Hsip. unfold header_protection_nonce in Hc. rewrite He, Hsip in Hc. cbn [negb] in Hc.
    destruct (sip_request_line_prefix c) as [[??]|] eqn:Hs; [by rewrite bool_decide_eq_true_2 in Hc|].
    assert (forall p, In p (labelled_junk_sizes c) -> snd p < SIP_REQUEST_LINE_MIN) as Hl.
    { intros p Hp. apply Z.leb_gt. by apply (find_None _ _ Hs). }
    intros kind. destruct kind; simpl; [apply (Hl (1%nat, _))|apply (Hl (2%nat, _))|apply (Hl (3%nat, _))|apply (Hl (4%nat, _))];
      simpl; auto.
Qed.

Definition base_size (kind : PacketKind) : Z :=
  match kind with
  | KHandshakeInit => HANDSHAKE_INIT_SZ
  | KHandshakeResponse => HANDSHAKE_RESP_SZ
  | KCookieReply => COOKIE_REPLY_SZ
  | KTransportData => DATA_OVERHEAD_SZ
  end.

(** What an accepted configuration guarantees: every packet kind with its S
    prefix fits the largest sendable datagram; with a header-protection key
    every prefix holds the 12-byte nonce, and under SIP imitation none is long
    enough for the request line that would fix that nonce; and every tunable
    duration that is set draws at least one second. *)
Theorem validate_sound {R} `{RngCore R} `{!RngLaws R} c (rng : R) :
  config_ok c -> validate c = Ok tt ->
  (forall kind, inbound_junk_size c kind + base_size kind <= MAX_SENDABLE_DATAGRAM) /\
  (header_protection_enabled c = true ->
     (forall kind, NONCE_SIZE <= inbound_junk_size c kind) /\
     (protocol (imitation c) = ProtoSip -> forall kind, inbound_junk_size c kind < SIP_REQUEST_LINE_MIN)) /\
  (forall n r d, In (n, r) (duration_ranges (timers c)) -> from_secs 1 <= d ->
     from_secs 1 <= fst (timer_pick r d rng)).
Proof.
  intros Hc Hv. unfold validate in Hv.
  destruct (check_header_protection_nonce c) as [[]|] eqn:Hn; [|done]. cbn [rbind] in Hv.
  destruct (List.find _ (sized_prefixes c)) as [[[??]?]|] eqn:Hf; [done|].
  destruct (List.find _ (duration_ranges _)) as [[?[??]]|] eqn:Ht; [done|]. split_and!.
  - assert (forall p, In p (sized_prefixes c) -> snd (fst p) + snd p <= MAX_SENDABLE_DATAGRAM) as Hs.
    { intros [[l j] b] Hp. simpl. apply Z.ltb_ge. by apply (find_None _ _ Hf) in Hp. }
    intros []; [apply (Hs (1%nat, _, _))|apply (Hs (2%nat, _, _))|apply (Hs (3%nat, _, _))|apply (Hs (4%nat, _, _))];
      simpl; auto.
  - by apply check_nonce_ok.
  - intros n r d Hin Hd. apply (find_None _ _ Ht) in Hin as Hz. unfold timer_pick.
    destruct (range_unset r); [done|]. simpl in Hz. apply Z.eqb_neq in Hz.
    pose proof (co_timers _ Hc) as Hr. rewrite List.Forall_forall in Hr. destruct (Hr _ Hin) as [[Hlo _] _].
    pose proof (random_usize_inclusive_range (fst r) (snd r) rng).
    destruct (random_usize_inclusive _ _ _). simpl in *. unfold from_secs, nanos_per_sec. lia.
Qed.

Lemma validate_sound_witness :
  inbound_junk_size (with_header_protection (to_le 32 7) (config_new 12 13 14 15)) KTransportData
    + DATA_OVERHEAD_SZ <= MAX_SENDABLE_DATAGRAM.
Proof.
  refine (proj1 (validate_sound (H := CounterRng.rng) (RngLaws0 := CounterRng.laws) _ (3 : Z) _ _) KTransportData).
  - apply config_okb_ok. vm_compute. reflexivity.
  - vm_compute. reflexivity.
Defined.

(** A learned imitation cannot weaken the header-protection policy: if the
    configuration passes it, the configuration resolved for any learned
    protocol passes it too, and only the imitation differs. *)
Theorem resolve_imitation_safe c p :
  check_header_protection_nonce c = Ok tt ->
  check_header_protection_nonce (resolve_imitation c p) = Ok tt /\
  exists i, resolve_imitation c p = set_imitation i c.
Proof.
  intros Hc. unfold resolve_imitation. case_bool_decide as Ha; simpl.
  2: { split; [done|]. exists (imitation c). by destruct c. }
  set (q := if bool_decide (p = ProtoAuto) then ProtoNone else p).
  destruct (check_header_protection_nonce (set_imitation (imitation_new q None BrowserDefault) c)) as [[]|] eqn:E; simpl.
  - split; [done|]. eauto.
  - split; [|eexists; by destruct c]. unfold check_header_protection_nonce in *.
    change (header_protection_enabled (set_imitation imitation_default _)) with (header_protection_enabled c).
    change (labelled_junk_sizes (set_imitation imitation_default _)) with (labelled_junk_sizes c).
    unfold header_protection_nonce in *. cbn [protocol imitation set_imitation imitation_default].
    destruct (header_protection_enabled c) eqn:He; [|done]. cbn [negb] in *.
    destruct (List.find _ (labelled_junk_sizes c)) as [[??]|]; [done|].
    change (header_protection_enabled (set_imitation imitation_default _)) with (header_protection_enabled c).
    rewrite He. done.
Qed.

Lemma resolve_imitation_safe_witness :
  let c := with_protocol_imitation ProtoAuto None (with_header_protection (to_le 32 7) (config_new 40 40 40 40)) in
  check_header_protection_nonce (resolve_imitation c ProtoSip) = Ok tt.
Proof. apply resolve_imitation_safe. vm_compute. reflexivity. Defined.

Lemma amplification_bounds_In c x :
  let reply := COOKIE_REPLY_SZ + cookie_packet_junk_size c in
  In x (cookie_amplification_bounds c) <->
  (reply > HANDSHAKE_INIT_SZ + init_packet_junk_size c /\
     (1%nat, HANDSHAKE_INIT_SZ + init_packet_junk_size c, reply - HANDSHAKE_INIT_SZ) = x) \/
  (reply > HANDSHAKE_RESP_SZ + response_packet_junk_size c /\
     (2%nat, HANDSHAKE_RESP_SZ + response_packet_junk_size c, reply - HANDSHAKE_RESP_SZ) = x).
Proof.
  intros reply. unfold cookie_amplification_bounds. fold reply. rewrite !filter_cons, filter_nil.
  repeat case_decide; cbn [map]; try case_match; cbn [In]; tauto.
Qed.

(** The amplification report and the runtime guard agree: the configuration
    door reports a bound for an initiation (or a response) exactly when a
    cookie reply to a request of that kind's minimum size would be suppressed
    as larger than the request, and the prefix it recommends is the least that
    clears it. *)
Theorem amplification_report_exact c kind label :
  config_ok c -> (kind, label) = (KHandshakeInit, 1%nat) \/ (kind, label) = (KHandshakeResponse, 2%nat) ->
  let request := inbound_junk_size c kind + base_size kind in
  (cookie_reply_would_amplify c COOKIE_REPLY_SZ request = true <->
   exists m, In (label, request, m) (cookie_amplification_bounds c)) /\
  (forall m, In (label, request, m) (cookie_amplification_bounds c) ->
     reply_amplifies (m + base_size kind) (cookie_reply_len c COOKIE_REPLY_SZ) = false /\
     reply_amplifies (m - 1 + base_size kind) (cookie_reply_len c COOKIE_REPLY_SZ) = true).
Proof.
  intros Hc Hk. pose proof (co_sizes _ Hc KCookieReply) as [H3 H3']. pose proof (co_sizes _ Hc KHandshakeInit) as [H1 _].
  pose proof (co_sizes _ Hc KHandshakeResponse) as [H2 _]. simpl in *.
  assert (cookie_reply_len c COOKIE_REPLY_SZ = COOKIE_REPLY_SZ + cookie_packet_junk_size c) as Hr.
  { unfold cookie_reply_len, sat_add, usize_max, COOKIE_REPLY_SZ, u16_max in *. simpl. lia. }
  unfold cookie_reply_would_amplify, reply_amplifies. rewrite Hr, !Z.gtb_ltb.
  set (reply := COOKIE_REPLY_SZ + cookie_packet_junk_size c) in *.
  pose proof (amplification_bounds_In c) as Hin. fold reply in Hin.
  destruct Hk as [[= -> ->]|[= -> ->]]; simpl; split.
  - rewrite Z.ltb_lt. split.
    + intros. eexists. apply Hin. left. split; [lia|]. by rewrite Z.add_comm.
    + intros [m [(? & [= ?])|(? & [= ?])]%Hin]; lia.
  - intros m [(? & [= ?])|(? & [= ?])]%Hin. rewrite !Z.gtb_ltb, Z.ltb_ge, Z.ltb_lt. lia.
  - rewrite Z.ltb_lt. split.
    + intros. eexists. apply Hin. right. split; [lia|]. by rewrite Z.add_comm.
    + intros [m [(? & [= ?])|(? & [= ?])]%Hin]; lia.
  - intros m [(? & [= ?])|(? & [= ?])]%Hin. rewrite !Z.gtb_ltb, Z.ltb_ge, Z.ltb_lt. lia.
Qed.

Lemma amplification_report_exact_witness :
  exists m, In (2%nat, 92, m) (cookie_amplification_bounds (config_new 100 0 185 0)).
Proof.
  assert (config_ok (config_new 100 0 185 0)) as Hc by (apply config_okb_ok; vm_compute; reflexivity).
  apply (amplification_report_exact _ KHandshakeResponse 2 Hc); [by right|]. vm_compute. reflexivity.
Defined.
