(* ===== verification/Framing.v ===== *)
(** AmneziaWG framing: the S prefixes, header protection and RandomTrailers
    suffixes of [noise/amnezia.rs], outbound ([prepend_outbound_with_trailer])
    and inbound ([inbound_candidates], [candidate_message]).

    [buffer] is the caller's whole buffer: the canonical packet in front,
    whatever it held before behind. The protocol-shaped fillers are an
    interface, [PrefixFillers]; framing relies only on their keeping the length
    of the slice they fill. *)

From S2P Require Import Prelude Budget Crypto Rand Tags Packet RateLimiter HeaderProtection Amnezia.

(** The fillers of an S prefix or of a Jc junk datagram: the slice's contents
    before and after. *)
Class PrefixFillers (R : Type) := {
  fill_dns : bytes -> Z -> option bytes -> R -> bytes * R;
  fill_quic_short : bytes -> R -> bytes * R;
  fill_quic_initial : bytes -> R -> bytes * R;
  fill_sip : bytes -> option bytes -> R -> bytes * R;
  fill_stun : bytes -> R -> bytes * R;
}.

Class FillerLaws (R : Type) `{PrefixFillers R} : Prop := {
  len_fill_dns d t dom r : len (fst (fill_dns d t dom r)) = len d;
  len_fill_quic_short d r : len (fst (fill_quic_short d r)) = len d;
  len_fill_quic_initial d r : len (fst (fill_quic_initial d r)) = len d;
  len_fill_sip d dom r : len (fst (fill_sip d dom r)) = len d;
  len_fill_stun d r : len (fst (fill_stun d r)) = len d;
}.

Record TrailerRoom := { tr_udp_window : Z; tr_max_wire : Z }.

Definition trailer_window (udp_window : Z) : TrailerRoom :=
  {| tr_udp_window := udp_window; tr_max_wire := usize_max |}.
Definition trailer_cookie_reply (request_len : Z) : TrailerRoom :=
  {| tr_udp_window := DEFAULT_UDP_WINDOW; tr_max_wire := request_len |}.
Definition trailer_within (t : TrailerRoom) (max_wire : Z) : TrailerRoom :=
  {| tr_udp_window := tr_udp_window t; tr_max_wire := Z.min (tr_max_wire t) max_wire |}.

Definition UPSTREAM_CONTROL_KINDS : list (PacketKind * Z) :=
  [(KHandshakeInit, HANDSHAKE_INIT_SZ); (KHandshakeResponse, HANDSHAKE_RESP_SZ); (KCookieReply, COOKIE_REPLY_SZ)].
Definition UPSTREAM_COLLISION_CANDIDATES : nat := 16.

Record InboundCandidate := {
  ic_kind : PacketKind;
  ic_offset : Z;
  ic_message_len : Z;
  ic_wire_len : Z;
  ic_protected : bool;
}.

(** [packet.get(offset..offset + 4)], with [mask] XORed off. *)
Definition read_tag_masked (packet : bytes) (offset : Z) (mask : bytes) : option Z :=
  if offset + 4 <=? len packet
  then Some (of_le (xor_bytes (slice offset (offset + 4) packet) mask))
  else None.
Definition read_tag (packet : bytes) (offset : Z) : option Z := read_tag_masked packet offset (zeros 4).

Definition tag_matches (obf : ObfuscationRanges) (kind : PacketKind) (tag : Z) : bool :=
  match kind with
  | KHandshakeInit => matches_h1 obf tag
  | KHandshakeResponse => matches_h2 obf tag
  | KCookieReply => matches_h3 obf tag
  | KTransportData => matches_h4 obf tag
  end.

Definition masked_len (kind : PacketKind) (message_len : Z) : Z :=
  match kind with KTransportData => 16 | _ => message_len end.

(** The exact size of a handshake kind; transport has none. *)
Definition exact_len (kind : PacketKind) : option Z :=
  match kind with
  | KHandshakeInit => Some HANDSHAKE_INIT_SZ
  | KHandshakeResponse => Some HANDSHAKE_RESP_SZ
  | KCookieReply => Some COOKIE_REPLY_SZ
  | KTransportData => None
  end.

Section Inbound.
Context `{Crypto}.

(** One slot of the loop of [candidates_under_mask]. *)
Definition candidate_of_kind (c : AmneziaConfig) (obf : ObfuscationRanges) (datagram mask : bytes)
    (protected : bool) (kind : PacketKind) : option InboundCandidate :=
  let wire_len := len datagram in
  let offset := inbound_junk_size c kind in
  let '(fits, message_len) :=
    match exact_len kind with
    | Some n => if random_trailers c then (offset + n <=? wire_len, n) else (wire_len =? offset + n, n)
    | None => (offset + DATA_OVERHEAD_SZ <=? wire_len, sat_sub wire_len offset)
    end in
  if negb fits || (protected && (offset <? NONCE_SIZE)) then None
  else if from_option (tag_matches obf kind) false (read_tag_masked datagram offset mask)
  then Some {| ic_kind := kind; ic_offset := offset; ic_message_len := message_len;
               ic_wire_len := wire_len; ic_protected := protected |}
  else None.

(** The slots in trial order, empty ones left out. *)
Definition candidates_under_mask (c : AmneziaConfig) (obf : ObfuscationRanges) (datagram mask : bytes)
    (protected : bool) : list InboundCandidate :=
  omap (candidate_of_kind c obf datagram mask protected)
    [KHandshakeInit; KHandshakeResponse; KCookieReply; KTransportData].

Definition inbound_candidates (c : AmneziaConfig) (obf : ObfuscationRanges) (datagram : bytes)
  : list InboundCandidate :=
  if negb (header_protection_enabled c) then candidates_under_mask c obf datagram (zeros 4) false
  else match type_mask (header_protection c) datagram with
       | Some mask => candidates_under_mask c obf datagram mask true
       | None => []
       end.

Definition candidate_message (c : AmneziaConfig) (datagram : bytes) (cand : InboundCandidate) : option bytes :=
  if ic_offset cand + ic_message_len cand <=? len datagram then
    let message := slice (ic_offset cand) (ic_offset cand + ic_message_len cand) datagram in
    if negb (ic_protected cand) then Some message
    else
      let masked := masked_len (ic_kind cand) (ic_message_len cand) in
      match unmask_detached (header_protection c) datagram message masked with
      | (true, m) => Some m
      | (false, _) => None
      end
  else None.

Definition classify_outbound (obf : ObfuscationRanges) (packet : bytes) : option PacketKind :=
  match read_tag packet 0 with
  | None => None
  | Some tag =>
      if (len packet =? HANDSHAKE_INIT_SZ) && matches_h1 obf tag then Some KHandshakeInit
      else if (len packet =? HANDSHAKE_RESP_SZ) && matches_h2 obf tag then Some KHandshakeResponse
      else if (len packet =? COOKIE_REPLY_SZ) && matches_h3 obf tag then Some KCookieReply
      else if (DATA_OVERHEAD_SZ <=? len packet) && matches_h4 obf tag then Some KTransportData
      else None
  end.

(** ** Upstream collisions *)

Definition upstream_control_length_fits (c : AmneziaConfig) (kind : PacketKind) (base wire_len : Z) : bool :=
  let need := inbound_junk_size c kind + base in
  if random_trailers c then need <=? wire_len else wire_len =? need.

Definition imitation_redraw_avoids_upstream_collisions (c : AmneziaConfig) : bool :=
  match protocol (imitation c) with
  | ProtoSip => negb (match sip_request_line_prefix c with Some _ => true | None => false end)
  | _ => true
  end.

Definition upstream_collision_applies (c : AmneziaConfig) (kind : PacketKind) (wire_len : Z) : bool :=
  bool_decide (kind = KTransportData)
  && header_protection_enabled c
  && imitation_redraw_avoids_upstream_collisions c
  && existsb (fun '(control, base) => upstream_control_length_fits c control base wire_len) UPSTREAM_CONTROL_KINDS.

Definition upstream_control_collision (c : AmneziaConfig) (obf : ObfuscationRanges) (datagram mask : bytes) : bool :=
  existsb (fun '(kind, base) =>
    upstream_control_length_fits c kind base (len datagram)
    && from_option (tag_matches obf kind) false (read_tag_masked datagram (inbound_junk_size c kind) mask))
    UPSTREAM_CONTROL_KINDS.
End Inbound.

Section Outbound.
Context `{Crypto} {R : Type} `{RngCore R} `{PrefixFillers R}.

Definition fill_protocol_like (p : AmneziaImitationProtocol) (dom : option bytes) (dst : bytes)
    (trailing_size : Z) (rng : R) : bytes * R :=
  match p with
  | ProtoNone | ProtoAuto => fill_random (len dst) rng
  | ProtoDns => fill_dns dst trailing_size dom rng
  | ProtoQuic => fill_quic_short dst rng
  | ProtoSip => fill_sip dst dom rng
  | ProtoStun => fill_stun dst rng
  end.

Definition fill_outbound_junk (c : AmneziaConfig) (dst : bytes) (trailing_size : Z) (rng : R) : bytes * R :=
  match protocol (imitation c) with
  | ProtoNone => fill_random (len dst) rng
  | p => fill_protocol_like p (domain (imitation c)) dst trailing_size rng
  end.

Definition trailer_len (c : AmneziaConfig) (kind : PacketKind) (base buffer_len : Z) (room : option TrailerRoom)
    (rng : R) : Z * R :=
  match room with
  | None => (0, rng)
  | Some room =>
      if negb (random_trailers c) || bool_decide (kind = KTransportData) then (0, rng) else
      let headroom := sat_sub (tr_udp_window room) base in
      let ceil := sat_sub (Z.min (Z.min buffer_len MAX_SENDABLE_DATAGRAM) (tr_max_wire room)) base in
      optional_below (Z.min headroom (sat_add usize_max ceil 1)) rng
  end.

(** [dst[lo..lo + len src].copy_from_slice(src)] of an in-range slice. *)
Definition splice (lo : Z) (src dst : bytes) : bytes :=
  ztake lo dst ++ src ++ zdrop (lo + len src) dst.

(** The loop over framing candidates [1..=n]: [n - 1] redraws at most. *)
Fixpoint avoid_upstream_control_collision (n : nat) (c : AmneziaConfig) (obf : ObfuscationRanges)
    (datagram : bytes) (junk_size : Z) (canonical : bytes) (rng : R) : bytes * R :=
  match n with
  | O => (datagram, rng)
  | S n =>
      let mask := xor_bytes (ztake TYPE_MASK_SIZE canonical) (slice junk_size (junk_size + TYPE_MASK_SIZE) datagram) in
      if match n with O => true | S _ => false end || negb (upstream_control_collision c obf datagram mask)
      then (datagram, rng)
      else
        let datagram := splice junk_size canonical datagram in
        let '(junk, rng) := fill_outbound_junk c (ztake junk_size datagram) (len datagram - junk_size) rng in
        let datagram := splice 0 junk datagram in
        let '(_, datagram) := mask_outbound (header_protection c) datagram junk_size DATA_OFFSET_SZ in
        avoid_upstream_control_collision n c obf datagram junk_size canonical rng
  end.

Definition prepend_outbound_with_trailer (c : AmneziaConfig) (obf : ObfuscationRanges) (buffer : bytes)
    (packet_size : Z) (room : option TrailerRoom) (rng : R) : result WireGuardError bytes * R :=
  if len buffer <? packet_size then (Err DestinationBufferTooSmall, rng) else
  let packet := ztake packet_size buffer in
  match classify_outbound obf packet with
  | None => (Ok packet, rng)
  | Some kind =>
      let junk_size := outbound_junk_size c kind in
      match checked_add usize_max packet_size junk_size with
      | None => (Err DestinationBufferTooSmall, rng)
      | Some new_size =>
          let '(trailer, rng) := trailer_len c kind new_size (len buffer) room rng in
          if (junk_size =? 0) && negb (header_protection_enabled c) && (trailer =? 0) then (Ok packet, rng) else
          if len buffer <? new_size then (Err DestinationBufferTooSmall, rng) else
          (* buffer.copy_within(0..packet_size, junk_size): the prefix keeps its old bytes *)
          let '(junk, rng) := fill_outbound_junk c (ztake junk_size buffer) packet_size rng in
          let frame := junk ++ packet in
          let canonical :=
            if upstream_collision_applies c kind (new_size + trailer)
            then Some (ztake DATA_OFFSET_SZ packet) else None in
          match mask_outbound (header_protection c) frame junk_size (masked_len kind packet_size) with
          | (false, _) => (Err DestinationBufferTooSmall, rng)
          | (true, frame) =>
              let '(frame, rng) :=
                match canonical with
                | Some canonical =>
                    avoid_upstream_control_collision UPSTREAM_COLLISION_CANDIDATES c obf frame junk_size canonical rng
                | None => (frame, rng)
                end in
              let '(suffix, rng) := fill_random trailer rng in
              (Ok (frame ++ suffix), rng)
          end
      end
  end.

(** A Jc junk datagram in a buffer of [buffer_len] bytes. *)
Definition fill_pre_handshake_junk_in (c : AmneziaConfig) (buffer : bytes) (range : Z * Z) (rng : R)
  : result WireGuardError bytes * R :=
  if negb (junk_is_enabled (pre_handshake_junk c)) then (Ok [], rng) else
  let '(size, rng) := random_usize_inclusive (fst range) (snd range) rng in
  if len buffer <? size then (Err DestinationBufferTooSmall, rng) else
  let packet := ztake size buffer in
  let '(d, rng) :=
    match protocol (imitation c) with
    | ProtoNone | ProtoAuto => fill_random size rng
    | ProtoDns => fill_dns packet 0 (domain (imitation c)) rng
    | ProtoQuic => fill_quic_initial packet rng
    | ProtoSip => fill_sip packet (domain (imitation c)) rng
    | ProtoStun => fill_stun packet rng
    end in
  (Ok d, rng).
End Outbound.

(** ** The shape of a frame *)

Lemma xor_zeros_r k m : len k = m -> xor_bytes k (zeros m) = k.
Proof.
  intros Hk. unfold zeros, zreplicate. assert (length k = Z.to_nat m) as Hl by (unfold len in Hk; lia).
  clear Hk. revert k Hl. induction (Z.to_nat m) as [|n IH]; intros [|b k] Hl; simpl in *; try done.
  unfold xor_bytes in *. cbn [zip_with replicate]. f_equal; [by destruct b|]. apply IH. lia.
Qed.

Lemma read_tag_le_u32 packet : 4 <= len packet -> read_tag packet 0 = Some (le_u32 0 packet).
Proof.
  intros Hl. unfold read_tag, read_tag_masked, le_u32. destruct (Z.leb_spec (0 + 4) (len packet)); [|lia].
  rewrite xor_zeros_r; [done|]. rewrite len_slice; lia.
Qed.

(** The classification of a packet this side formats. *)
Lemma classify_outbound_spec obf packet kind :
  classify_outbound obf packet = Some kind ->
  tag_matches obf kind (le_u32 0 packet) = true /\ base_size kind <= len packet /\
  (kind <> KTransportData -> len packet = base_size kind).
Proof.
  unfold classify_outbound. destruct (read_tag packet 0) as [tag|] eqn:Ht; [|done].
  assert (4 <= len packet).
  { unfold read_tag, read_tag_masked in Ht. destruct (Z.leb_spec (0 + 4) (len packet)); [lia|done]. }
  rewrite read_tag_le_u32 in Ht by done. injection Ht as <-. intros Hc.
  repeat (case_hyp Hc; [zbool; simplify_eq/=; split_and!; [done|lia|done]|]). done.
Qed.

Lemma classify_formatted obf kind packet :
  obf_ok obf -> tag_matches obf kind (le_u32 0 packet) = true -> base_size kind <= len packet ->
  (kind <> KTransportData -> len packet = base_size kind) -> classify_outbound obf packet = Some kind.
Proof.
  intros Ho Ht Hb He. unfold classify_outbound.
  assert (4 <= len packet).
  { unfold base_size, HANDSHAKE_INIT_SZ, HANDSHAKE_RESP_SZ, COOKIE_REPLY_SZ, DATA_OVERHEAD_SZ in Hb. destruct kind; lia. }
  rewrite read_tag_le_u32 by done. set (tag := le_u32 0 packet) in *.
  destruct kind; cbn [tag_matches base_size] in *; try (rewrite (He ltac:(done))).
  - by rewrite Ht.
  - pose proof (matches_h2_only _ Ho _ Ht) as [= -> _ _ _]. by rewrite Ht.
  - pose proof (matches_h3_only _ Ho _ Ht) as [= -> -> _ _]. by rewrite Ht.
  - pose proof (matches_h4_only _ Ho _ Ht) as [= -> -> -> _]. rewrite !andb_false_r, Ht.
    by rewrite (proj2 (Z.leb_le _ _) Hb).
Qed.

Section Shape.
Context `{Crypto} `{!CryptoLaws}.

(** [packet] behind [junk], its first [masked_len] bytes masked when a key is set. *)
Definition framed (c : AmneziaConfig) (kind : PacketKind) (junk packet : bytes) : bytes :=
  if header_protection_enabled c then
    let m := masked_len kind (len packet) in
    junk ++ hp_apply (header_protection c) (ztake NONCE_SIZE junk) (ztake m packet) ++ zdrop m packet
  else junk ++ packet.

Lemma masked_len_le kind (packet : bytes) : base_size kind <= len packet -> 4 <= masked_len kind (len packet) <= len packet.
Proof.
  unfold base_size, HANDSHAKE_INIT_SZ, HANDSHAKE_RESP_SZ, COOKIE_REPLY_SZ, DATA_OVERHEAD_SZ.
  destruct kind; simpl; lia.
Qed.

Lemma len_framed c kind junk packet :
  base_size kind <= len packet -> len (framed c kind junk packet) = len junk + len packet.
Proof.
  intros Hb%masked_len_le. unfold framed. destruct (header_protection_enabled c); [|len_lia].
  rewrite !len_app, len_hp_apply. len_lia.
Qed.

Lemma mask_outbound_framed c kind junk packet d :
  base_size kind <= len packet ->
  mask_outbound (header_protection c) (junk ++ packet) (len junk) (masked_len kind (len packet)) = (true, d) ->
  d = framed c kind junk packet /\ (header_protection_enabled c = true -> NONCE_SIZE <= len junk).
Proof.
  intros Hb%masked_len_le. unfold framed, header_protection_enabled.
  destruct (hp_is_set (header_protection c)) eqn:Hs.
  - destruct (Z.lt_ge_cases (len junk) NONCE_SIZE) as [Hl|Hl].
    { unfold mask_outbound. rewrite Hs. simpl. by destruct (Z.ltb_spec (len junk) NONCE_SIZE); [|lia]. }
    pose proof (mask_outbound_frame (header_protection c) junk packet [] (masked_len kind (len packet)) Hs Hl ltac:(lia)) as Hm.
    rewrite !app_nil_r in Hm. rewrite Hm. by intros [= <-].
  - unfold mask_outbound. rewrite Hs. by intros [= <-].
Qed.

(** The receiver's reading of a frame: the candidate of its kind. *)
Definition reading (c : AmneziaConfig) (kind : PacketKind) (packet d : bytes) : InboundCandidate := {|
  ic_kind := kind; ic_offset := inbound_junk_size c kind; ic_message_len := len packet;
  ic_wire_len := len d; ic_protected := header_protection_enabled c |}.

(** What a frame on the wire is, as far as the receiver can check. *)
Record wire_frame (c : AmneziaConfig) (obf : ObfuscationRanges) (kind : PacketKind) (packet d : bytes) : Prop := {
  wf_tag : tag_matches obf kind (le_u32 0 packet) = true;
  wf_base : base_size kind <= len packet;
  wf_exact : kind <> KTransportData -> len packet = base_size kind;
  wf_shape : exists junk suffix, d = framed c kind junk packet ++ suffix /\
    len junk = inbound_junk_size c kind /\
    (header_protection_enabled c = true -> NONCE_SIZE <= len junk) /\
    (suffix = [] \/ random_trailers c = true /\ kind <> KTransportData);
}.

Lemma framed_prefix c kind junk packet : exists rest, framed c kind junk packet = junk ++ rest.
Proof. unfold framed. destruct (header_protection_enabled c); eauto. Qed.

Lemma framed_tag c kind junk packet suffix :
  base_size kind <= len packet -> (header_protection_enabled c = true -> NONCE_SIZE <= len junk) ->
  let d := framed c kind junk packet ++ suffix in
  exists mask,
    (if header_protection_enabled c then type_mask (header_protection c) d = Some mask else mask = zeros 4) /\
    read_tag_masked d (len junk) mask = Some (le_u32 0 packet).
Proof.
  intros Hb Hj d. pose proof (masked_len_le _ _ Hb) as Hm. pose proof (len_framed c kind junk packet Hb) as Hl.
  assert (4 <= len packet) by lia. pose proof (len_nonneg junk). pose proof (len_nonneg suffix).
  assert ((len junk + 4 <=? len d) = true) as Hr by (apply Z.leb_le; unfold d; len_lia).
  unfold read_tag_masked. rewrite Hr. unfold d, framed, le_u32 in *. unfold header_protection_enabled in *.
  destruct (hp_is_set (header_protection c)) eqn:Hs.
  - set (m := masked_len kind (len packet)) in *. set (nonce := ztake NONCE_SIZE junk) in *.
    rewrite <- app_assoc. set (body := hp_apply _ nonce _ ++ zdrop m packet).
    assert (NONCE_SIZE <= len (junk ++ body ++ suffix)) as Hd by (specialize (Hj eq_refl); len_lia).
    destruct (type_mask_xor (header_protection c) (junk ++ body ++ suffix) (ztake m packet) Hs Hd) as (mask & Ht & _ & Hx).
    { unfold TYPE_MASK_SIZE. len_lia. }
    exists mask. split; [done|]. f_equal. f_equal. rewrite (ztake_app_le NONCE_SIZE) in Hx by auto. fold nonce in Hx.
    rewrite slice_app_skip, Z.sub_diag by lia. unfold slice. rewrite !zdrop_zero by lia.
    unfold body. rewrite <- app_assoc. rewrite ztake_app_le by (rewrite len_hp_apply; len_lia).
    replace (len junk + 4 - len junk - 0) with 4 by lia. rewrite Hx. unfold ztake. rewrite take_take. f_equal. lia.
  - exists (zeros 4). split; [done|]. f_equal. rewrite <- app_assoc.
    rewrite slice_app_skip, Z.sub_diag by lia. unfold slice. rewrite !zdrop_zero by lia.
    rewrite ztake_app_le by lia. rewrite xor_zeros_r by len_lia. do 2 f_equal. lia.
Qed.

(** Unmasking gives the packet back. *)
Lemma framed_message c kind junk packet suffix :
  base_size kind <= len packet -> (header_protection_enabled c = true -> NONCE_SIZE <= len junk) ->
  let d := framed c kind junk packet ++ suffix in
  let message := slice (len junk) (len junk + len packet) d in
  if header_protection_enabled c
  then unmask_detached (header_protection c) d message (masked_len kind (len packet)) = (true, packet)
  else message = packet.
Proof.
  intros Hb Hj d message. pose proof (masked_len_le _ _ Hb) as Hm. unfold header_protection_enabled in *.
  destruct (hp_is_set (header_protection c)) eqn:Hs.
  - assert (NONCE_SIZE <= len junk) as Hn by auto.
    pose proof (header_protection_frame (header_protection c) junk packet suffix (masked_len kind (len packet)) Hs Hn
      ltac:(unfold TYPE_MASK_SIZE; lia)) as Hu.
    unfold message, d, framed, header_protection_enabled. rewrite Hs. cbv zeta.
    rewrite <- !app_assoc in *. exact Hu.
  - unfold message, d, framed, header_protection_enabled. rewrite Hs. rewrite <- app_assoc.
    apply slice_mid; lia.
Qed.

(** A transport frame carries no suffix. *)
Lemma wire_frame_transport_len c obf packet d :
  wire_frame c obf KTransportData packet d -> len d = inbound_junk_size c KTransportData + len packet.
Proof.
  intros [_ Hb _ (junk & suffix & -> & Hj & _ & [->|[_ ?]])]; [|done]. rewrite app_nil_r, len_framed by done. lia.
Qed.

(** The receiver finds the reading and recovers the packet. *)
Lemma wire_frame_received c obf kind packet d :
  wire_frame c obf kind packet d -> 0 <= inbound_junk_size c kind ->
  In (reading c kind packet d) (inbound_candidates c obf d) /\
  candidate_message c d (reading c kind packet d) = Some packet.
Proof.
  intros [Ht Hb He (junk & suffix & -> & Hj & Hn & Hsuf)] Hoff.
  set (d := framed c kind junk packet ++ suffix).
  assert (len d = len junk + len packet + len suffix) as Hd by (unfold d; rewrite len_app, len_framed by done; lia).
  pose proof (len_nonneg suffix). split.
  - destruct (framed_tag c kind junk packet suffix Hb Hn) as (mask & Hmask & Htag). fold d in Hmask, Htag.
    assert (candidate_of_kind c obf d mask (header_protection_enabled c) kind = Some (reading c kind packet d)) as Hc.
    { unfold candidate_of_kind, reading. rewrite <- Hj. rewrite Htag. cbn [from_option]. rewrite Ht.
      assert (header_protection_enabled c && (len junk <? NONCE_SIZE) = false) as Hp.
      { destruct (header_protection_enabled c); [|done]. simpl. apply Z.ltb_ge. auto. }
      unfold base_size in *.
      destruct kind; cbn [exact_len]; try (rewrite (He ltac:(done)) in *);
        [destruct (random_trailers c) eqn:Hrt..|]; rewrite Hp, orb_false_r.
      7: { destruct Hsuf as [->|[_ ?]]; [|done]. rewrite len_nil in Hd.
           destruct (Z.leb_spec (len junk + DATA_OVERHEAD_SZ) (len d)); [|lia]. simpl.
           assert (sat_sub (len d) (len junk) = len packet) as -> by (unfold sat_sub; len_lia). done. }
      all: try (match goal with |- context [?a <=? ?b] => destruct (Z.leb_spec a b); [done|lia] end).
      all: destruct Hsuf as [->|[? _]]; [|done]; rewrite len_nil in Hd;
        match goal with |- context [?a =? ?b] => destruct (Z.eqb_spec a b); [done|lia] end. }
    assert (In (reading c kind packet d) (candidates_under_mask c obf d mask (header_protection_enabled c))) as Hin.
    { apply list_elem_of_In, list_elem_of_omap. exists kind. split; [|done]. destruct kind; repeat constructor. }
    unfold inbound_candidates. destruct (header_protection_enabled c); simpl; [by rewrite Hmask|by rewrite <- Hmask].
  - pose proof (framed_message c kind junk packet suffix Hb Hn) as Hm. fold d in Hm.
    unfold candidate_message, reading. cbn [ic_offset ic_message_len ic_protected ic_kind]. rewrite <- Hj.
    destruct (Z.leb_spec (len junk + len packet) (len d)); [|lia].
    destruct (header_protection_enabled c); simpl; [by rewrite Hm|by rewrite Hm].
Qed.
End Shape.

(** ** Outbound *)

Section OutboundSpec.
Context `{Crypto} `{!CryptoLaws} {R : Type} `{RngCore R} `{!RngLaws R} `{PrefixFillers R} `{!FillerLaws R}.

Lemma len_fill_outbound_junk c dst t (rng : R) : len (fst (fill_outbound_junk c dst t rng)) = len dst.
Proof.
  unfold fill_outbound_junk, fill_protocol_like. pose proof (len_nonneg dst).
  destruct (protocol (imitation c)); auto using len_fill_random, len_fill_dns, len_fill_quic_short,
    len_fill_sip, len_fill_stun.
Qed.

Lemma trailer_len_range c kind base buffer_len room (rng : R) :
  0 <= fst (trailer_len c kind base buffer_len room rng) /\
  match room with
  | None => fst (trailer_len c kind base buffer_len room rng) = 0
  | Some t => fst (trailer_len c kind base buffer_len room rng) <=
      Z.max 0 (Z.min (tr_udp_window t - base - 1)
        (Z.min (Z.min buffer_len MAX_SENDABLE_DATAGRAM) (tr_max_wire t) - base))
  end /\
  (fst (trailer_len c kind base buffer_len room rng) <> 0 -> random_trailers c = true /\ kind <> KTransportData).
Proof.
  unfold trailer_len. destruct room as [t|]; [|simpl; lia].
  destruct (random_trailers c); simpl; [|lia]. case_bool_decide; simpl; [lia|].
  set (n := Z.min _ _). assert (0 <= n) by (unfold n, sat_sub, sat_add, usize_max; lia).
  pose proof (optional_below_range n rng ltac:(done)). split_and!; try done; [lia|].
  unfold n, sat_sub, sat_add, usize_max in *. lia.
Qed.

Lemma splice_frame junk canonical body rest :
  len body = len canonical -> splice (len junk) canonical (junk ++ body ++ rest) = junk ++ canonical ++ rest.
Proof.
  intros Hl. unfold splice. rewrite ztake_app_exact by done. do 2 f_equal.
  rewrite app_assoc. apply zdrop_app_exact. len_lia.
Qed.

Lemma splice_head junk junk' rest : len junk' = len junk -> splice 0 junk' (junk ++ rest) = junk' ++ rest.
Proof.
  intros Hl. unfold splice. rewrite ztake_zero by lia. simpl. f_equal. apply zdrop_app_exact. lia.
Qed.

(** Redrawing keeps the frame: only the prefix and the mask change. *)
Lemma avoid_keeps_frame n c obf junk packet (rng : R) :
  header_protection_enabled c = true -> NONCE_SIZE <= len junk -> DATA_OVERHEAD_SZ <= len packet ->
  exists junk' rng', len junk' = len junk /\
    avoid_upstream_control_collision n c obf (framed c KTransportData junk packet) (len junk)
      (ztake DATA_OFFSET_SZ packet) rng = (framed c KTransportData junk' packet, rng').
Proof.
  intros Hh Hn Hp. revert junk rng Hn. induction n as [|n IH]; intros junk rng Hn; [by exists junk, rng|].
  cbn [avoid_upstream_control_collision]. destruct (_ || _); [by exists junk, rng|].
  unfold DATA_OFFSET_SZ, DATA_OVERHEAD_SZ in *.
  assert (splice (len junk) (ztake 16 packet) (framed c KTransportData junk packet) = junk ++ packet) as ->.
  { unfold framed. rewrite Hh. cbn [masked_len]. rewrite splice_frame by (rewrite len_hp_apply; done).
    by rewrite ztake_zdrop. }
  rewrite ztake_app_exact by done.
  pose proof (len_fill_outbound_junk c junk (len (junk ++ packet) - len junk) rng) as Hl.
  destruct (fill_outbound_junk _ _ _ _) as [junk1 rng1]. simpl in Hl. rewrite splice_head by done.
  destruct (mask_outbound (header_protection c) (junk1 ++ packet) (len junk) 16) as [b d] eqn:Hm.
  assert (b = true) as ->.
  { unfold header_protection_enabled in Hh. unfold mask_outbound in Hm. rewrite Hh in Hm. simpl in Hm.
    destruct (Z.ltb_spec (len junk) NONCE_SIZE); [lia|].
    destruct (Z.ltb_spec (len (junk1 ++ packet)) (len junk + 16)); [len_lia|]. by injection Hm as <- _. }
  rewrite <- Hl in Hm. apply (mask_outbound_framed c KTransportData) in Hm as [-> _]; [|done].
  destruct (IH junk1 rng1) as (junk' & rng' & Hl' & Ha); [lia|]. rewrite <- Hl.
  exists junk', rng'. split; [lia|done].
Qed.

(** The frame once the prefix is drawn: masked, perhaps redrawn. *)
Definition finish_frame (c : AmneziaConfig) (obf : ObfuscationRanges) (kind : PacketKind) (junk packet : bytes)
    (wire_len : Z) (rng : R) : option (bytes * R) :=
  match mask_outbound (header_protection c) (junk ++ packet) (len junk) (masked_len kind (len packet)) with
  | (false, _) => None
  | (true, frame) => Some
      (if upstream_collision_applies c kind wire_len
       then avoid_upstream_control_collision UPSTREAM_COLLISION_CANDIDATES c obf frame (len junk)
              (ztake DATA_OFFSET_SZ packet) rng
       else (frame, rng))
  end.

Lemma finish_frame_spec c obf kind junk packet wire_len rng :
  base_size kind <= len packet ->
  match finish_frame c obf kind junk packet wire_len rng with
  | Some (d, _) => exists junk', len junk' = len junk /\ d = framed c kind junk' packet /\
      (header_protection_enabled c = true -> NONCE_SIZE <= len junk)
  | None => header_protection_enabled c = true /\ len junk < NONCE_SIZE
  end.
Proof.
  intros Hb. unfold finish_frame. pose proof (masked_len_le _ _ Hb) as Hm.
  destruct (mask_outbound _ _ _ _) as [[] d] eqn:E.
  - apply mask_outbound_framed in E as [-> Hn]; [|done].
    destruct (upstream_collision_applies c kind wire_len) eqn:Hu; [|by exists junk].
    unfold upstream_collision_applies in Hu. zbool. subst kind.
    destruct (avoid_keeps_frame UPSTREAM_COLLISION_CANDIDATES c obf junk packet rng) as (junk' & rng' & Hl & ->); auto.
    by exists junk'.
  - unfold mask_outbound, header_protection_enabled in *. destruct (hp_is_set _); [|done]. simpl in E.
    destruct (Z.ltb_spec (len junk) NONCE_SIZE); [done|].
    destruct (Z.ltb_spec (len (junk ++ packet)) (len junk + masked_len kind (len packet))); [len_lia|done].
Qed.

(** [prepend_outbound_with_trailer], every branch. *)
Lemma prepend_outbound_spec c obf buffer ps room (rng : R) :
  config_ok c -> 0 <= ps -> len buffer <= usize_max ->
  let packet := ztake ps buffer in
  match prepend_outbound_with_trailer c obf buffer ps room rng with
  | (Ok d, _) => ps <= len buffer /\
      match classify_outbound obf packet with
      | None => d = packet
      | Some kind =>
          let base := ps + inbound_junk_size c kind in
          wire_frame c obf kind packet d /\ base <= len d <= len buffer /\
          match room with
          | None => len d = base
          | Some t => len d <= Z.max base (Z.min MAX_SENDABLE_DATAGRAM (Z.min (tr_udp_window t - 1) (tr_max_wire t)))
          end
      end
  | (Err e, _) => e = DestinationBufferTooSmall /\
      (len buffer < ps \/ exists kind, classify_outbound obf packet = Some kind /\
        (len buffer < ps + inbound_junk_size c kind \/
         header_protection_enabled c = true /\ inbound_junk_size c kind < NONCE_SIZE))
  end.
Proof.
  intros Hc Hps Hbuf packet. unfold prepend_outbound_with_trailer. fold packet.
  destruct (Z.ltb_spec (len buffer) ps); [auto|].
  assert (len packet = ps) as Hpk by (unfold packet; len_lia).
  destruct (classify_outbound obf packet) as [kind|] eqn:Hk; [|done].
  pose proof (classify_outbound_spec _ _ _ Hk) as (Ht & Hb & He). pose proof (co_sizes _ Hc kind) as [Hj _].
  unfold outbound_junk_size, checked_add. set (js := inbound_junk_size c kind) in *.
  destruct (Z.leb_spec (ps + js) usize_max) as [Hfit|]; [|split; [done|]; right; exists kind; split; [done|]; left; lia].
  pose proof (trailer_len_range c kind (ps + js) (len buffer) room rng) as (Ht0 & Htr & Hrt).
  destruct (trailer_len _ _ _ _ _ _) as [trailer rng1]. cbn [fst] in *.
  destruct ((js =? 0) && _ && _) eqn:Hearly.
  { apply andb_true_iff in Hearly as [[Hz%Z.eqb_eq Hh%negb_true_iff]%andb_true_iff _].
    split; [done|]. split; [split; try done; exists [], []|split; [lia|destruct room; lia]].
    unfold framed. rewrite Hh, app_nil_r. split_and!; [done|by rewrite len_nil|done|by left]. }
  destruct (Z.ltb_spec (len buffer) (ps + js)); [split; [done|]; right; exists kind; auto|].
  pose proof (len_fill_outbound_junk c (ztake js buffer) ps rng1) as Hlj.
  destruct (fill_outbound_junk _ _ _ _) as [junk rng2]. cbn [fst] in Hlj.
  assert (len junk = js) as Hljs by len_lia. clear Hlj.
  pose proof (finish_frame_spec c obf kind junk packet (ps + js + trailer) rng2 Hb) as Hf.
  unfold finish_frame in Hf. rewrite Hpk, Hljs in Hf.
  destruct (mask_outbound _ _ _ _) as [[] frame]; [|split; [done|]; right; exists kind; auto].
  assert (forall fr rng3, (exists junk', len junk' = js /\ fr = framed c kind junk' packet /\
      (header_protection_enabled c = true -> NONCE_SIZE <= js)) ->
    let '(suffix, _) := fill_random trailer (rng3 : R) in
    wire_frame c obf kind packet (fr ++ suffix) /\ len (fr ++ suffix) = ps + js + trailer) as Hfin.
  { intros fr rng3 (junk' & Hl' & -> & Hn). pose proof (len_fill_random trailer rng3 Ht0) as Hs.
    destruct (fill_random trailer rng3) as [suffix rng4]. cbn [fst] in Hs.
    split; [|rewrite len_app, len_framed by done; lia]. split; try done. exists junk', suffix. rewrite Hl'.
    split_and!; try done. destruct (decide (trailer = 0)) as [->|Hne]; [left|right; auto].
    destruct suffix; [done|len_lia]. }
  destruct (upstream_collision_applies _ _ _); [destruct (avoid_upstream_control_collision _ _ _ _ _ _ _) as [fr rng3]|].
  - specialize (Hfin fr rng3 Hf). destruct (fill_random trailer rng3). destruct Hfin as [? ->].
    split; [done|]. split; [done|]. destruct room; lia.
  - specialize (Hfin frame rng2 Hf). destruct (fill_random trailer rng2). destruct Hfin as [? ->].
    split; [done|]. split; [done|]. destruct room; lia.
Qed.

(** C19. Framing round trip. Whatever the S sizes, imitation, header-protection
    key, RandomTrailers setting, buffer contents and random draws -- the
    upstream-collision redraws included -- a packet this side frames is found
    by a receiver with the same configuration among its candidate readings, at
    its own kind, and the message recovered from that reading is exactly the
    canonical packet. *)
Theorem framing_roundtrip c obf buffer ps room (rng : R) d rng' kind :
  config_ok c -> 0 <= ps -> len buffer <= usize_max ->
  classify_outbound obf (ztake ps buffer) = Some kind ->
  prepend_outbound_with_trailer c obf buffer ps room rng = (Ok d, rng') ->
  exists cand, In cand (inbound_candidates c obf d) /\ ic_kind cand = kind /\
    candidate_message c d cand = Some (ztake ps buffer).
Proof.
  intros Hc Hps Hbuf Hk Hp. pose proof (prepend_outbound_spec c obf buffer ps room rng Hc Hps Hbuf) as Hs.
  rewrite Hp in Hs. simpl in Hs. rewrite Hk in Hs. destruct Hs as (_ & Hw & _).
  exists (reading c kind (ztake ps buffer) d). pose proof (co_sizes _ Hc kind) as [Hj _].
  destruct (wire_frame_received _ _ _ _ _ Hw Hj). by split_and!.
Qed.

(** A framed datagram respects every ceiling. The mandatory frame -- S prefix
    and packet -- is refused only for want of buffer or of a nonce, always as
    [DestinationBufferTooSmall]; the optional RandomTrailers suffix never takes
    the datagram past the buffer, the largest sendable datagram, the UDP window
    or the caller's own ceiling, and a cookie reply that is not larger than its
    request before the suffix is not larger after it. *)
Theorem framing_bounds c obf buffer ps room (rng : R) kind :
  config_ok c -> 0 <= ps <= len buffer -> len buffer <= usize_max ->
  classify_outbound obf (ztake ps buffer) = Some kind ->
  let base := ps + inbound_junk_size c kind in
  match fst (prepend_outbound_with_trailer c obf buffer ps room rng) with
  | Ok d => base <= len d <= len buffer /\
      (forall t, room = Some t ->
         len d <= Z.max base (Z.min MAX_SENDABLE_DATAGRAM (Z.min (tr_udp_window t - 1) (tr_max_wire t)))) /\
      (forall request_len, room = Some (trailer_cookie_reply request_len) -> base <= request_len ->
         len d <= request_len)
  | Err e => e = DestinationBufferTooSmall /\
      (len buffer < base \/ header_protection_enabled c = true /\ inbound_junk_size c kind < NONCE_SIZE)
  end.
Proof.
  intros Hc Hps Hbuf Hk base. pose proof (prepend_outbound_spec c obf buffer ps room rng Hc ltac:(lia) Hbuf) as Hs.
  destruct (prepend_outbound_with_trailer _ _ _ _ _ _) as [[d|e] rng']; simpl in *; rewrite Hk in Hs.
  - destruct Hs as (_ & _ & Hb & Hr). split; [done|]. split.
    + intros t ->. exact Hr.
    + intros request_len -> Hle. unfold base in *. simpl in Hr. lia.
  - destruct Hs as (-> & [?|(k & [= <-] & Hd)]); [lia|]. auto.
Qed.
End OutboundSpec.

(** ** Witnesses *)

(** Fillers that draw random bytes, for the witnesses. *)
Module RandomFillers.
#[export] Instance fillers {R} `{RngCore R} : PrefixFillers R := {|
  fill_dns d _ _ r := fill_random (len d) r;
  fill_quic_short d r := fill_random (len d) r;
  fill_quic_initial d r := fill_random (len d) r;
  fill_sip d _ r := fill_random (len d) r;
  fill_stun d r := fill_random (len d) r;
|}.
#[export] Instance laws {R} `{RngCore R} `{!RngLaws R} : FillerLaws R.
Proof. split; intros; apply len_fill_random, len_nonneg. Qed.
End RandomFillers.

Import Toy CounterRng RandomFillers.

Definition ex_config : AmneziaConfig :=
  with_random_trailers true (with_header_protection (to_le 32 77) (config_new 13 14 15 16)).
Definition ex_packet : bytes := init_bytes 1 5 (zeros 32) (zeros 48) (zeros 28) (zeros 32).
Definition ex_buffer : bytes := ex_packet ++ zeros 400.

Lemma ex_config_ok : config_ok ex_config.
Proof. apply config_okb_ok. vm_compute. reflexivity. Qed.

Lemma framing_roundtrip_witness :
  exists d cand, fst (prepend_outbound_with_trailer ex_config obf_default ex_buffer 148 (Some (trailer_window 500)) 9) = Ok d /\
    In cand (inbound_candidates ex_config obf_default d) /\ ic_kind cand = KHandshakeInit /\
    candidate_message ex_config d cand = Some ex_packet.
Proof.
  destruct (prepend_outbound_with_trailer ex_config obf_default ex_buffer 148 (Some (trailer_window 500)) 9)
    as [[d|e] rng'] eqn:E; [|vm_compute in E; discriminate].
  destruct (framing_roundtrip ex_config obf_default ex_buffer 148 (Some (trailer_window 500)) 9 d rng' KHandshakeInit)
    as (cand & ? & ? & ?); [apply ex_config_ok|vm_compute; congruence|vm_compute; congruence|vm_compute; reflexivity|exact E|].
  exists d, cand. auto.
Defined.

Lemma framing_bounds_witness :
  match fst (prepend_outbound_with_trailer ex_config obf_default ex_buffer 148 None 9) with
  | Ok d => 161 <= len d | Err _ => False end.
Proof.
  pose proof (framing_bounds ex_config obf_default ex_buffer 148 None 9 KHandshakeInit ex_config_ok
    ltac:(vm_compute; split; congruence) ltac:(vm_compute; congruence) ltac:(vm_compute; reflexivity)) as H.
  cbv zeta in H. destruct (fst _) eqn:E; [apply H|vm_compute in E; discriminate].
Defined.
