(* ===== verification/Handshake.v ===== *)
(** The Noise handshake: [noise/handshake.rs].

    [now] is the clock reading of a call and [eph] the fresh ephemeral secret
    the operating system's generator supplies to it. A call that can panic in
    the code (a copy between slices of different lengths, the match of
    [format_handshake_response]) returns an [outcome]. *)

From Stdlib Require Import Strings.String.
From S2P Require Import Prelude Budget Instant Crypto Rand Tags Packet Replay Session RateLimiter.
Local Open Scope Z_scope.
Local Open Scope list_scope.

Definition KEY_LEN : Z := 32.
Definition TIMESTAMP_LEN : Z := 12.

Definition INITIAL_CHAIN_KEY : bytes := map byte.of_Z
  [96; 226; 109; 174; 243; 39; 239; 192; 46; 195; 53; 226; 160; 37; 210; 208; 22; 235; 66; 6; 248;
   114; 119; 245; 45; 56; 209; 152; 139; 120; 205; 54].
Definition INITIAL_CHAIN_HASH : bytes := map byte.of_Z
  [34; 17; 179; 97; 8; 26; 197; 102; 105; 18; 67; 219; 69; 138; 213; 50; 45; 156; 108; 102; 34;
   147; 232; 183; 14; 225; 156; 101; 186; 7; 158; 243].

(** ** Timestamps *)

Record Tai64N := { secs : Z; nano : Z }.
Record TimeStamper := { duration_at_start : Z; instant_at_start : Z }.

Definition TAI64_BASE : Z := Z.shiftl 1 62 + 37.

Definition stamp (s : TimeStamper) (now : Z) : bytes :=
  let stamp := duration_since now (instant_at_start s) + duration_at_start s in
  to_be 8 (wrap64 (as_secs stamp + TAI64_BASE)) ++ to_be 4 (stamp mod nanos_per_sec).

Definition tai64n_zero : Tai64N := {| secs := 0; nano := 0 |}.

Definition tai64n_parse (buf : bytes) : result WireGuardError Tai64N :=
  if len buf <? 12 then Err InvalidTai64nTimestamp
  else Ok {| secs := of_be (ztake 8 buf); nano := of_be (zdrop 8 buf) |}.

Definition tai64n_after (a b : Tai64N) : bool :=
  (secs a >? secs b) || ((secs a =? secs b) && (nano a >? nano b)).

(** ** State *)

Record NoiseParams := {
  static_public : bytes;
  static_private : bytes;
  peer_static_public : bytes;
  static_shared : bytes;
  sending_mac1_key : bytes;
  preshared_key : option bytes;
}.

Record HandshakeInitSentState := {
  is_local_index : Z;
  is_hash : bytes;
  is_chaining_key : bytes;
  is_ephemeral_private : bytes;
  is_time_sent : Z;
}.

Inductive HandshakeState :=
| HsNone
| HsInitSent (s : HandshakeInitSentState)
| HsInitReceived (hash chaining_key peer_ephemeral_public : bytes) (peer_index : Z)
| HsExpired.

Record Cookies := {
  last_mac1 : option bytes;
  cookie_index : Z;
  write_cookie : option bytes;
}.

Record AuthenticatedInit := {
  ai_chaining_key : bytes;
  ai_hash : bytes;
  ai_peer_ephemeral_public : bytes;
  ai_peer_index : Z;
  ai_timestamp : Tai64N;
}.

Record AuthenticatedResponse := {
  ar_is_previous : bool;
  ar_rtt_ms : Z;
  ar_session : Session;
}.

Record HalfHandshake := { hh_peer_index : Z; hh_peer_static_public : bytes }.

Record Handshake (R : Type) := {
  hs_params : NoiseParams;
  next_index : Z;
  hs_previous : HandshakeState;
  hs_state : HandshakeState;
  hs_cookies : Cookies;
  last_handshake_timestamp : Tai64N;
  stamper : TimeStamper;
  last_rtt : option Z;
  hs_obf : ObfuscationRanges;
  hs_rng : R;
}.
Arguments hs_params {R}. Arguments next_index {R}. Arguments hs_previous {R}. Arguments hs_state {R}.
Arguments hs_cookies {R}. Arguments last_handshake_timestamp {R}. Arguments stamper {R}.
Arguments last_rtt {R}. Arguments hs_obf {R}. Arguments hs_rng {R}.

Section Setters.
Context {R : Type}.
Implicit Types h : Handshake R.
Definition set_params (x : NoiseParams) h : Handshake R := {|
  hs_params := x; next_index := next_index h; hs_previous := hs_previous h; hs_state := hs_state h;
  hs_cookies := hs_cookies h; last_handshake_timestamp := last_handshake_timestamp h;
  stamper := stamper h; last_rtt := last_rtt h; hs_obf := hs_obf h; hs_rng := hs_rng h |}.
Definition set_next_index (x : Z) h : Handshake R := {|
  hs_params := hs_params h; next_index := x; hs_previous := hs_previous h; hs_state := hs_state h;
  hs_cookies := hs_cookies h; last_handshake_timestamp := last_handshake_timestamp h;
  stamper := stamper h; last_rtt := last_rtt h; hs_obf := hs_obf h; hs_rng := hs_rng h |}.
Definition set_previous (x : HandshakeState) h : Handshake R := {|
  hs_params := hs_params h; next_index := next_index h; hs_previous := x; hs_state := hs_state h;
  hs_cookies := hs_cookies h; last_handshake_timestamp := last_handshake_timestamp h;
  stamper := stamper h; last_rtt := last_rtt h; hs_obf := hs_obf h; hs_rng := hs_rng h |}.
Definition set_state (x : HandshakeState) h : Handshake R := {|
  hs_params := hs_params h; next_index := next_index h; hs_previous := hs_previous h; hs_state := x;
  hs_cookies := hs_cookies h; last_handshake_timestamp := last_handshake_timestamp h;
  stamper := stamper h; last_rtt := last_rtt h; hs_obf := hs_obf h; hs_rng := hs_rng h |}.
Definition set_cookies (x : Cookies) h : Handshake R := {|
  hs_params := hs_params h; next_index := next_index h; hs_previous := hs_previous h;
  hs_state := hs_state h; hs_cookies := x; last_handshake_timestamp := last_handshake_timestamp h;
  stamper := stamper h; last_rtt := last_rtt h; hs_obf := hs_obf h; hs_rng := hs_rng h |}.
Definition set_last_handshake_timestamp (x : Tai64N) h : Handshake R := {|
  hs_params := hs_params h; next_index := next_index h; hs_previous := hs_previous h;
  hs_state := hs_state h; hs_cookies := hs_cookies h; last_handshake_timestamp := x;
  stamper := stamper h; last_rtt := last_rtt h; hs_obf := hs_obf h; hs_rng := hs_rng h |}.
Definition set_last_rtt (x : option Z) h : Handshake R := {|
  hs_params := hs_params h; next_index := next_index h; hs_previous := hs_previous h;
  hs_state := hs_state h; hs_cookies := hs_cookies h;
  last_handshake_timestamp := last_handshake_timestamp h; stamper := stamper h; last_rtt := x;
  hs_obf := hs_obf h; hs_rng := hs_rng h |}.
Definition set_obf (x : ObfuscationRanges) h : Handshake R := {|
  hs_params := hs_params h; next_index := next_index h; hs_previous := hs_previous h;
  hs_state := hs_state h; hs_cookies := hs_cookies h;
  last_handshake_timestamp := last_handshake_timestamp h; stamper := stamper h;
  last_rtt := last_rtt h; hs_obf := x; hs_rng := hs_rng h |}.
Definition set_rng (x : R) h : Handshake R := {|
  hs_params := hs_params h; next_index := next_index h; hs_previous := hs_previous h;
  hs_state := hs_state h; hs_cookies := hs_cookies h;
  last_handshake_timestamp := last_handshake_timestamp h; stamper := stamper h;
  last_rtt := last_rtt h; hs_obf := hs_obf h; hs_rng := x |}.
End Setters.

(** ** Key schedule *)

Section Kdf.
Context `{Crypto}.

Definition kdf1 (ck input : bytes) : bytes := b2s_hmac (b2s_hmac ck input) [Byte.x01].
Definition kdf2 (ck input : bytes) : bytes * bytes :=
  let temp := b2s_hmac ck input in
  let ck := b2s_hmac temp [Byte.x01] in
  (ck, b2s_hmac2 temp ck [Byte.x02]).
(** The pre-shared key step: chaining key, [temp2] and key. *)
Definition kdf3 (ck input : bytes) : bytes * bytes * bytes :=
  let temp := b2s_hmac ck input in
  let ck := b2s_hmac temp [Byte.x01] in
  let temp2 := b2s_hmac2 temp ck [Byte.x02] in
  (ck, temp2, b2s_hmac2 temp temp2 [Byte.x03]).
(** The transport keys: [temp2] and [temp3]. *)
Definition derive_keys (ck : bytes) : bytes * bytes :=
  let temp1 := b2s_hmac ck [] in
  let temp2 := b2s_hmac temp1 [Byte.x01] in
  (temp2, b2s_hmac2 temp1 temp2 [Byte.x02]).

Definition noise_params_new (private public peer_public : bytes) (psk : option bytes) : NoiseParams := {|
  static_public := public;
  static_private := private;
  peer_static_public := peer_public;
  static_shared := x25519_dh private peer_public;
  sending_mac1_key := b2s_hash LABEL_MAC1 peer_public;
  preshared_key := psk;
|}.

(** Panics when the public key is not the private key's. *)
Definition params_set_static_private (private public : bytes) (p : NoiseParams) : outcome NoiseParams :=
  if bool_decide (x25519_public private = public) then Ret {|
    static_public := public;
    static_private := private;
    peer_static_public := peer_static_public p;
    static_shared := x25519_dh private (peer_static_public p);
    sending_mac1_key := sending_mac1_key p;
    preshared_key := preshared_key p |}
  else Panic.

Definition set_preshared_key_params (psk : option bytes) (p : NoiseParams) : NoiseParams := {|
  static_public := static_public p; static_private := static_private p;
  peer_static_public := peer_static_public p; static_shared := static_shared p;
  sending_mac1_key := sending_mac1_key p; preshared_key := psk |}.

Definition psk_bytes (p : NoiseParams) : bytes := default (zeros 32) (preshared_key p).

(** [parse_handshake_anon]: who an initiation claims to be from. *)
Definition parse_handshake_anon (private public : bytes) (packet : HandshakeInit)
  : outcome (result WireGuardError HalfHandshake) :=
  let hash := b2s_hash INITIAL_CHAIN_HASH public in
  let peer_ephemeral_public := hi_unencrypted_ephemeral packet in
  let hash := b2s_hash hash peer_ephemeral_public in
  let chaining_key := kdf1 INITIAL_CHAIN_KEY peer_ephemeral_public in
  let '(chaining_key, key) := kdf2 chaining_key (x25519_dh private peer_ephemeral_public) in
  let! peer_static := aead_chacha20_open KEY_LEN key 0 (hi_encrypted_static packet) hash in
  match peer_static with
  | None => Ret (Err InvalidAeadTag)
  | Some pk => Ret (Ok {| hh_peer_index := hi_sender_idx packet; hh_peer_static_public := pk |})
  end.
End Kdf.

(** ** Operations *)

Section Operations.
Context `{Crypto} {R : Type} `{RngCore R}.
Implicit Types h : Handshake R.

Definition handshake_new (private public peer_public : bytes) (global_idx : Z) (psk : option bytes)
    (obf : ObfuscationRanges) (st : TimeStamper) (rng : R) : Handshake R := {|
  hs_params := noise_params_new private public peer_public psk;
  next_index := global_idx;
  hs_previous := HsNone;
  hs_state := HsNone;
  hs_cookies := {| last_mac1 := None; cookie_index := 0; write_cookie := None |};
  last_handshake_timestamp := tai64n_zero;
  stamper := st;
  last_rtt := None;
  hs_obf := obf;
  hs_rng := rng;
|}.

Definition is_in_progress h : bool :=
  match hs_state h with HsNone | HsExpired => false | _ => true end.
Definition handshake_timer h : option Z :=
  match hs_state h with HsInitSent s => Some (is_time_sent s) | _ => None end.
Definition is_init_sent (s : HandshakeState) : bool := match s with HsInitSent _ => true | _ => false end.
Definition has_initiation_pending h : bool := is_init_sent (hs_state h) || is_init_sent (hs_previous h).
Definition set_expired h : Handshake R := set_state HsExpired (set_previous HsExpired h).
Definition handshake_is_expired h : bool := match hs_state h with HsExpired => true | _ => false end.
Definition has_cookie h : bool := match write_cookie (hs_cookies h) with Some _ => true | None => false end.
Definition clear_cookie h : Handshake R :=
  set_cookies {| last_mac1 := last_mac1 (hs_cookies h); cookie_index := cookie_index (hs_cookies h);
                 write_cookie := None |} h.

Definition inc_index h : Z * Handshake R :=
  let index := next_index h in
  let idx8 := wrap8 index in
  let next := Z.lor (Z.land index (wrap32 (Z.lnot 255))) (wrap8 (idx8 + 1)) in
  (next, set_next_index next h).

Definition inc_index_avoiding (reserved_slot : Z) h : Z * Handshake R :=
  let '(index, h) := inc_index h in
  if index mod N_SESSIONS =? reserved_slot then inc_index h else (index, h).

Definition handshake_set_static_private (private public : bytes) h : outcome (Handshake R) :=
  let! p := params_set_static_private private public (hs_params h) in Ret (set_params p h).
Definition handshake_set_preshared_key (psk : option bytes) h : Handshake R :=
  set_params (set_preshared_key_params psk (hs_params h)) h.

Definition authenticate_initiation h (packet : HandshakeInit) : outcome (result WireGuardError AuthenticatedInit) :=
  let p := hs_params h in
  let hash := b2s_hash INITIAL_CHAIN_HASH (static_public p) in
  let peer_index := hi_sender_idx packet in
  let peer_ephemeral_public := hi_unencrypted_ephemeral packet in
  let hash := b2s_hash hash peer_ephemeral_public in
  let chaining_key := kdf1 INITIAL_CHAIN_KEY peer_ephemeral_public in
  let '(chaining_key, key) := kdf2 chaining_key (x25519_dh (static_private p) peer_ephemeral_public) in
  let! decrypted := aead_chacha20_open KEY_LEN key 0 (hi_encrypted_static packet) hash in
  match decrypted with
  | None => Ret (Err InvalidAeadTag)
  | Some peer_static =>
      if negb (constant_time_eq (peer_static_public p) peer_static) then Ret (Err WrongKey) else
      let hash := b2s_hash hash (hi_encrypted_static packet) in
      let '(chaining_key, key) := kdf2 chaining_key (static_shared p) in
      let! timestamp := aead_chacha20_open TIMESTAMP_LEN key 0 (hi_encrypted_timestamp packet) hash in
      match timestamp with
      | None => Ret (Err InvalidAeadTag)
      | Some timestamp =>
          match tai64n_parse timestamp with
          | Err e => Ret (Err e)
          | Ok timestamp =>
              if negb (tai64n_after timestamp (last_handshake_timestamp h)) then Ret (Err WrongTai64nTimestamp)
              else Ret (Ok {|
                ai_chaining_key := chaining_key;
                ai_hash := b2s_hash hash (hi_encrypted_timestamp packet);
                ai_peer_ephemeral_public := peer_ephemeral_public;
                ai_peer_index := peer_index;
                ai_timestamp := timestamp |})
          end
      end
  end.

(** The message [body] with its two MACs. *)
Definition append_mac1_and_mac2 (local_index : Z) (body : bytes) h : bytes * Handshake R :=
  let msg_mac1 := b2s_keyed_mac_16 (sending_mac1_key (hs_params h)) body in
  let msg_mac2 := match write_cookie (hs_cookies h) with
    | Some cookie => b2s_keyed_mac_16 cookie (body ++ msg_mac1)
    | None => zeros 16
    end in
  (body ++ msg_mac1 ++ msg_mac2,
   set_cookies {| last_mac1 := Some msg_mac1; cookie_index := local_index;
                  write_cookie := write_cookie (hs_cookies h) |} h).

Definition format_handshake_initiation (now : Z) (eph : bytes) (dst_len : Z) h
  : result WireGuardError bytes * Handshake R :=
  if dst_len <? HANDSHAKE_INIT_SZ then (Err DestinationBufferTooSmall, h) else
  let p := hs_params h in
  let '(local_index, h) := inc_index h in
  let hash := b2s_hash INITIAL_CHAIN_HASH (peer_static_public p) in
  let '(tag, rng) := random_h1 (hs_obf h) (hs_rng h) in
  let h := set_rng rng h in
  let unencrypted_ephemeral := x25519_public eph in
  let hash := b2s_hash hash unencrypted_ephemeral in
  let chaining_key := kdf1 INITIAL_CHAIN_KEY unencrypted_ephemeral in
  let '(chaining_key, key) := kdf2 chaining_key (x25519_dh eph (peer_static_public p)) in
  let encrypted_static := aead_chacha20_seal key 0 (static_public p) hash in
  let hash := b2s_hash hash encrypted_static in
  let '(chaining_key, key) := kdf2 chaining_key (static_shared p) in
  let timestamp := stamp (stamper h) now in
  let encrypted_timestamp := aead_chacha20_seal key 0 timestamp hash in
  let hash := b2s_hash hash encrypted_timestamp in
  let h := set_previous (hs_state h) h in
  let h := set_state (HsInitSent {| is_local_index := local_index; is_hash := hash;
             is_chaining_key := chaining_key; is_ephemeral_private := eph; is_time_sent := now |}) h in
  let '(d, h) := append_mac1_and_mac2 local_index
    (to_le 4 tag ++ to_le 4 local_index ++ unencrypted_ephemeral ++ encrypted_static ++ encrypted_timestamp) h in
  (Ok d, h).

Definition format_handshake_response (eph : bytes) (dst_len reserved_slot : Z) h
  : outcome (result WireGuardError (bytes * Session) * Handshake R) :=
  if dst_len <? HANDSHAKE_RESP_SZ then Ret (Err DestinationBufferTooSmall, h) else
  let state := hs_state h in
  let h := set_state HsNone h in
  match state with
  | HsInitReceived hash chaining_key peer_ephemeral_public peer_index =>
      let p := hs_params h in
      let '(local_index, h) := inc_index_avoiding reserved_slot h in
      let '(tag, rng) := random_h2 (hs_obf h) (hs_rng h) in
      let h := set_rng rng h in
      let unencrypted_ephemeral := x25519_public eph in
      let hash := b2s_hash hash unencrypted_ephemeral in
      let chaining_key := kdf1 chaining_key unencrypted_ephemeral in
      let chaining_key := kdf1 chaining_key (x25519_dh eph peer_ephemeral_public) in
      let chaining_key := kdf1 chaining_key (x25519_dh eph (peer_static_public p)) in
      let '(chaining_key, temp2, key) := kdf3 chaining_key (psk_bytes p) in
      let hash := b2s_hash hash temp2 in
      let encrypted_nothing := aead_chacha20_seal key 0 [] hash in
      let '(temp2, temp3) := derive_keys chaining_key in
      let '(d, h) := append_mac1_and_mac2 local_index
        (to_le 4 tag ++ to_le 4 local_index ++ to_le 4 peer_index ++ unencrypted_ephemeral ++ encrypted_nothing) h in
      Ret (Ok (d, session_new local_index peer_index temp2 temp3), h)
  | _ => Panic
  end.

Definition commit_initiation (eph : bytes) (init : AuthenticatedInit) (dst_len reserved_slot : Z) h
  : outcome (result WireGuardError (bytes * Session) * Handshake R) :=
  let h := set_last_handshake_timestamp (ai_timestamp init) h in
  let h := set_previous (hs_state h) h in
  let h := set_state (HsInitReceived (ai_hash init) (ai_chaining_key init)
             (ai_peer_ephemeral_public init) (ai_peer_index init)) h in
  format_handshake_response eph dst_len reserved_slot h.

Definition pick_init_sent h (receiver_idx : Z) : option (HandshakeInitSentState * bool) :=
  let try_previous :=
    match hs_previous h with
    | HsInitSent s => if is_local_index s =? receiver_idx then Some (s, true) else None
    | _ => None
    end in
  match hs_state h with
  | HsInitSent s => if is_local_index s =? receiver_idx then Some (s, false) else try_previous
  | _ => try_previous
  end.

Definition authenticate_response (now : Z) h (packet : HandshakeResponse)
  : outcome (result WireGuardError AuthenticatedResponse) :=
  match pick_init_sent h (hr_receiver_idx packet) with
  | None => Ret (Err UnexpectedPacket)
  | Some (state, is_previous) =>
      let p := hs_params h in
      let unencrypted_ephemeral := hr_unencrypted_ephemeral packet in
      let hash := b2s_hash (is_hash state) unencrypted_ephemeral in
      let chaining_key := kdf1 (is_chaining_key state) unencrypted_ephemeral in
      let chaining_key := kdf1 chaining_key (x25519_dh (is_ephemeral_private state) unencrypted_ephemeral) in
      let chaining_key := kdf1 chaining_key (x25519_dh (static_private p) unencrypted_ephemeral) in
      let '(chaining_key, temp2, key) := kdf3 chaining_key (psk_bytes p) in
      let hash := b2s_hash hash temp2 in
      let! opened := aead_chacha20_open 0 key 0 (hr_encrypted_nothing packet) hash in
      match opened with
      | None => Ret (Err InvalidAeadTag)
      | Some _ =>
          let '(temp2, temp3) := derive_keys chaining_key in
          Ret (Ok {| ar_is_previous := is_previous;
            ar_rtt_ms := wrap32 (as_millis (duration_since now (is_time_sent state)));
            ar_session := session_new (is_local_index state) (hr_sender_idx packet) temp3 temp2 |})
      end
  end.

Definition commit_response (response : AuthenticatedResponse) h : Session * Handshake R :=
  let h := set_last_rtt (Some (ar_rtt_ms response)) h in
  (ar_session response, if ar_is_previous response then set_previous HsNone h else set_state HsNone h).

Definition authenticate_cookie_reply h (packet : PacketCookieReply) : result WireGuardError bytes :=
  match last_mac1 (hs_cookies h) with
  | None => Err UnexpectedPacket
  | Some mac1 =>
      if negb (cr_receiver_idx packet =? cookie_index (hs_cookies h)) then Err WrongIndex else
      let key := b2s_hash LABEL_COOKIE (peer_static_public (hs_params h)) in
      match xaead_open key (cr_nonce packet) mac1 (cr_encrypted_cookie packet) with
      | None => Err InvalidAeadTag
      | Some plaintext => if len plaintext =? 16 then Ok plaintext else Err InvalidPacket
      end
  end.

Definition commit_cookie (cookie : bytes) h : Handshake R :=
  set_cookies {| last_mac1 := None; cookie_index := cookie_index (hs_cookies h); write_cookie := Some cookie |} h.
End Operations.

(** ** Timestamps increase *)

Lemma stamp_parse s now :
  let d := duration_since now (instant_at_start s) + duration_at_start s in
  0 <= duration_at_start s -> as_secs d + TAI64_BASE <= u64_max ->
  tai64n_parse (stamp s now) = Ok {| secs := as_secs d + TAI64_BASE; nano := d mod nanos_per_sec |}.
Proof.
  intros d Hd Hmax. pose proof (duration_since_nonneg now (instant_at_start s)) as Hn.
  assert (0 <= as_secs d) by (apply Z.div_pos; [unfold d; lia|done]).
  assert (0 <= as_secs d + TAI64_BASE) by (change TAI64_BASE with (2 ^ 62 + 37); lia).
  unfold tai64n_parse, stamp. fold d. rewrite wrap64_small by lia.
  destruct (Z.ltb_spec (len (to_be 8 (as_secs d + TAI64_BASE) ++ to_be 4 (d mod nanos_per_sec))) 12); [len_lia|].
  rewrite ztake_app_exact, zdrop_app_exact by len_lia. pose proof (Z.mod_pos_bound d nanos_per_sec eq_refl) as Hm.
  rewrite !of_be_to_be; [done|..].
  - change (2 ^ (Z.of_nat 4 * 8)) with (2 ^ 32). unfold nanos_per_sec in *. lia.
  - change (2 ^ (Z.of_nat 8 * 8)) with (2 ^ 64). unfold u64_max in Hmax. lia.
Qed.

Lemma div_mod_lt_lex a b m :
  0 < m -> a < b -> a / m < b / m \/ (a / m = b / m /\ a mod m < b mod m).
Proof.
  intros Hm Hab. pose proof (Z.div_mod a m ltac:(lia)). pose proof (Z.div_mod b m ltac:(lia)).
  pose proof (Z.div_le_mono a b m Hm ltac:(lia)). destruct (decide (a / m = b / m)) as [E|]; [right|left; lia].
  split; [done|]. rewrite E in H. lia.
Qed.

(** A later initiation carries a later timestamp: two stamps of one
    [TimeStamper] taken at different nanoseconds, each within the 64-bit TAI64
    range, compare [after] in the order they were taken. *)
Theorem stamps_increase s now1 now2 t1 t2 :
  0 <= duration_at_start s -> instant_at_start s <= now1 -> now1 < now2 ->
  as_secs (duration_since now2 (instant_at_start s) + duration_at_start s) + TAI64_BASE <= u64_max ->
  tai64n_parse (stamp s now1) = Ok t1 -> tai64n_parse (stamp s now2) = Ok t2 ->
  tai64n_after t2 t1 = true /\ tai64n_after t1 t2 = false.
Proof.
  intros Hd H1 H12 Hmax Hp1 Hp2.
  set (d1 := duration_since now1 (instant_at_start s) + duration_at_start s).
  set (d2 := duration_since now2 (instant_at_start s) + duration_at_start s) in *.
  assert (d1 < d2) as Hlt by (unfold d1, d2, duration_since, sat_sub; lia).
  assert (as_secs d1 <= as_secs d2) by (apply Z.div_le_mono; [done|lia]).
  rewrite (stamp_parse s now1) in Hp1; [|done|fold d1; lia]. rewrite (stamp_parse s now2) in Hp2 by done.
  fold d1 in Hp1. fold d2 in Hp2.
  injection Hp1 as <-. injection Hp2 as <-. unfold tai64n_after. simpl. rewrite !Z.gtb_ltb.
  destruct (div_mod_lt_lex d1 d2 nanos_per_sec eq_refl Hlt) as [Hs|[He Hn]]; unfold as_secs in *.
  - rewrite (proj2 (Z.ltb_lt _ _)) by lia. split; [done|].
    rewrite (proj2 (Z.ltb_ge _ _)), (proj2 (Z.eqb_neq _ _)) by lia. done.
  - rewrite He. rewrite Z.ltb_irrefl, Z.eqb_refl. simpl.
    rewrite (proj2 (Z.ltb_lt _ _)), (proj2 (Z.ltb_ge _ _)) by lia. done.
Qed.

Lemma stamps_increase_witness :
  let s := {| duration_at_start := from_secs 1700000000 + 5; instant_at_start := 100 |} in
  exists t1 t2, tai64n_parse (stamp s 200) = Ok t1 /\ tai64n_parse (stamp s 201) = Ok t2 /\
    tai64n_after t2 t1 = true.
Proof.
  cbv zeta. eexists. eexists. split; [vm_compute; reflexivity|]. split; [vm_compute; reflexivity|].
  eapply (stamps_increase {| duration_at_start := from_secs 1700000000 + 5; instant_at_start := 100 |} 200 201);
    [vm_compute; congruence|vm_compute; congruence|reflexivity|vm_compute; congruence|vm_compute; reflexivity|vm_compute; reflexivity].
Defined.

Lemma after_irrefl t : tai64n_after t t = false.
Proof. unfold tai64n_after. rewrite !Z.gtb_ltb, !Z.ltb_irrefl. by rewrite andb_false_r. Qed.

Lemma after_trans a b c : tai64n_after a b = true -> tai64n_after b c = true -> tai64n_after a c = true.
Proof.
  unfold tai64n_after. rewrite !orb_true_iff, !andb_true_iff, !Z.gtb_lt, !Z.eqb_eq. lia.
Qed.

(** ** Indices *)

Lemma land_high index : in_u32 index -> Z.land index (wrap32 (Z.lnot 255)) = index - index mod 256.
Proof.
  intros Hi. change (wrap32 (Z.lnot 255)) with (Z.shiftl (Z.ones 24) 8).
  replace (index - index mod 256) with (Z.shiftl (Z.shiftr index 8) 8).
  2: { rewrite Z.shiftl_mul_pow2, Z.shiftr_div_pow2 by lia. change (2 ^ 8) with 256. pose proof (Z.div_mod index 256). lia. }
  apply Z.bits_inj'. intros n Hn. rewrite Z.land_spec, !Z.shiftl_spec by done.
  destruct (Z.lt_ge_cases n 8); [by rewrite !(Z.testbit_neg_r _ (n - 8)), andb_false_r by lia|].
  rewrite Z.shiftr_spec by lia. replace (n - 8 + 8) with n by lia.
  rewrite Z.testbit_ones_nonneg by lia. destruct (Z.ltb_spec (n - 8) 24); [apply andb_true_r|].
  rewrite andb_false_r. symmetry. apply (bits_above 32); [unfold in_u32, u32_max in Hi|]; lia.
Qed.

Lemma inc_index_value {R} (h : Handshake R) :
  in_u32 (next_index h) ->
  fst (inc_index h) = next_index h - next_index h mod 256 + (next_index h + 1) mod 256.
Proof.
  intros Hi. unfold inc_index. cbn [fst]. rewrite land_high by done.
  assert (wrap8 (wrap8 (next_index h) + 1) = (next_index h + 1) mod 256) as ->.
  { unfold wrap8. change (2 ^ 8) with 256. by rewrite Zplus_mod_idemp_l. }
  pose proof (Z.mod_pos_bound (next_index h + 1) 256 eq_refl).
  replace (next_index h - next_index h mod 256) with (Z.shiftl (next_index h / 256) 8).
  - rewrite lor_shiftl_add by (change (2 ^ 8) with 256; lia). by rewrite Z.shiftl_mul_pow2.
  - rewrite Z.shiftl_mul_pow2 by lia. change (2 ^ 8) with 256. pose proof (Z.div_mod (next_index h) 256). lia.
Qed.

Lemma inc_index_spec {R} (h : Handshake R) :
  in_u32 (next_index h) ->
  let '(i, h') := inc_index h in
  in_u32 i /\ i / 256 = next_index h / 256 /\ i mod 256 = (next_index h + 1) mod 256 /\ h' = set_next_index i h.
Proof.
  intros Hi. pose proof (inc_index_value h Hi) as Hv. destruct (inc_index h) as [i h'] eqn:E. cbn [fst] in Hv.
  assert (h' = set_next_index i h) by (unfold inc_index in E; congruence).
  unfold in_u32, u32_max in *. split_and!; try done; Z.to_euclidean_division_equations; lia.
Qed.

Lemma inc_index_avoiding_range {R} (h : Handshake R) reserved :
  in_u32 (next_index h) ->
  let '(i, h') := inc_index_avoiding reserved h in
  in_u32 i /\ i mod N_SESSIONS <> reserved /\ h' = set_next_index i h.
Proof.
  intros Hi. unfold inc_index_avoiding. pose proof (inc_index_spec h Hi) as H1.
  destruct (inc_index h) as [i h1]. destruct H1 as (Hu & Hhi & Hlo & ->). unfold N_SESSIONS.
  destruct (Z.eqb_spec (i mod 8) reserved) as [Heq|Hne]; [|done].
  pose proof (inc_index_spec (set_next_index i h) Hu) as H2.
  destruct (inc_index (set_next_index i h)) as [j h2]. destruct H2 as (Hu2 & Hhi2 & Hlo2 & ->).
  cbn [next_index set_next_index] in *. split_and!; try done.
  Z.to_euclidean_division_equations; lia.
Qed.

(** A responder's index avoids the reserved ring slot, whatever the counter,
    without leaving this peer's 24-bit range and by skipping at most one
    value. *)
Theorem inc_index_avoiding_slot {R} (h : Handshake R) reserved :
  in_u32 (next_index h) ->
  let '(i, h') := inc_index_avoiding reserved h in
  in_u32 i /\ i mod N_SESSIONS <> reserved /\ i / 256 = next_index h / 256 /\
  (i mod 256 = (next_index h + 1) mod 256 \/ i mod 256 = (next_index h + 2) mod 256) /\
  next_index h' = i.
Proof.
  intros Hi. unfold inc_index_avoiding. pose proof (inc_index_spec h Hi) as H1.
  destruct (inc_index h) as [i h1]. destruct H1 as (Hu & Hhi & Hlo & ->). unfold N_SESSIONS.
  destruct (Z.eqb_spec (i mod 8) reserved) as [Heq|Hne]; [|by split_and!; auto].
  pose proof (inc_index_spec (set_next_index i h) Hu) as H2.
  destruct (inc_index (set_next_index i h)) as [j h2]. destruct H2 as (Hu2 & Hhi2 & Hlo2 & ->).
  cbn [next_index set_next_index] in *. split_and!; try done.
  - Z.to_euclidean_division_equations; lia.
  - congruence.
  - right. Z.to_euclidean_division_equations; lia.
Qed.

Lemma inc_index_avoiding_slot_witness :
  let h := handshake_new (H := Toy.crypto) (zeros 32) (zeros 32) (zeros 32) 511 None obf_default
             {| duration_at_start := 0; instant_at_start := 0 |} tt in
  fst (inc_index_avoiding 0 h) mod N_SESSIONS <> 0.
Proof.
  cbv zeta. pose proof (inc_index_avoiding_slot (handshake_new (H := Toy.crypto) (zeros 32) (zeros 32) (zeros 32) 511 None
    obf_default {| duration_at_start := 0; instant_at_start := 0 |} tt) 0 ltac:(vm_compute; split; congruence)) as H.
  destruct (inc_index_avoiding 0 _) as [i h']. apply H.
Defined.

(** ** The handshake completes *)

Section NoiseSpec.
Context `{Crypto} `{!CryptoLaws} {R : Type} `{RngCore R} `{!RngLaws R}.
Implicit Types h : Handshake R.

Record params_ok (p : NoiseParams) : Prop := {
  po_public : static_public p = x25519_public (static_private p);
  po_shared : static_shared p = x25519_dh (static_private p) (peer_static_public p);
  po_mac1 : sending_mac1_key p = b2s_hash LABEL_MAC1 (peer_static_public p);
}.

(** Two ends configured for each other. *)
Record matched (a b : NoiseParams) : Prop := {
  ma_ok : params_ok a;
  mb_ok : params_ok b;
  m_ab : peer_static_public a = static_public b;
  m_ba : peer_static_public b = static_public a;
  m_psk : preshared_key a = preshared_key b;
}.

Lemma noise_params_new_ok private peer_public psk :
  params_ok (noise_params_new private (x25519_public private) peer_public psk).
Proof. by split. Qed.

Lemma params_set_static_private_ok private public p :
  params_ok p -> safely (params_set_static_private private public p) params_ok \/ x25519_public private <> public.
Proof.
  intros Hp. unfold params_set_static_private. case_bool_decide as Hk; [left|by right].
  destruct Hp. split; simpl; [by rewrite Hk|done|done].
Qed.

Lemma matched_shared a b : matched a b -> static_shared a = static_shared b.
Proof.
  intros Hm. rewrite (po_shared _ (ma_ok _ _ Hm)), (po_shared _ (mb_ok _ _ Hm)).
  rewrite (m_ab _ _ Hm), (m_ba _ _ Hm), (po_public _ (ma_ok _ _ Hm)), (po_public _ (mb_ok _ _ Hm)).
  apply x25519_dh_agree.
Qed.

(** The mac fields of a formatted message. *)
Lemma mac_fields_app body mac1 mac2 :
  len mac1 = 16 -> len mac2 = 16 -> mac_fields (body ++ mac1 ++ mac2) = (body, mac1, mac2).
Proof.
  intros Hl1 Hl2. unfold mac_fields.
  replace (len (body ++ mac1 ++ mac2) - 32) with (len body) by len_lia.
  rewrite ztake_app_exact, zdrop_app_exact by done. by rewrite ztake_app_exact, zdrop_app_exact by lia.
Qed.

Definition cookies_ok h : Prop :=
  match write_cookie (hs_cookies h) with Some c => len c = 16 | None => True end.

(** What [append_mac1_and_mac2] leaves in the cookie state. *)
Lemma append_macs_spec local_index body h d h' :
  append_mac1_and_mac2 local_index body h = (d, h') ->
  exists mac1 mac2, d = body ++ mac1 ++ mac2 /\ len mac1 = 16 /\ len mac2 = 16 /\
    mac1 = b2s_keyed_mac_16 (sending_mac1_key (hs_params h)) body /\
    (forall c, write_cookie (hs_cookies h) = Some c -> mac2 = b2s_keyed_mac_16 c (body ++ mac1)) /\
    h' = set_cookies {| last_mac1 := Some mac1; cookie_index := local_index;
                        write_cookie := write_cookie (hs_cookies h) |} h.
Proof.
  unfold append_mac1_and_mac2. intros [= <- <-]. do 2 eexists. split; [done|]. split_and!; try done.
  - apply len_blake2s_mac.
  - destruct (write_cookie _); [apply len_blake2s_mac|done].
  - by intros c ->.
Qed.

Lemma len_chacha20_seal key n data aad : len (aead_chacha20_seal key n data aad) = len data + TAG_SZ.
Proof. apply len_aead_seal. Qed.

(** An initiation, as its responder reads it. *)
Definition answers (s : HandshakeInitSentState) (ai : AuthenticatedInit) : Prop :=
  is_hash s = ai_hash ai /\ is_chaining_key s = ai_chaining_key ai /\
  ai_peer_ephemeral_public ai = x25519_public (is_ephemeral_private s) /\ ai_peer_index ai = is_local_index s.

Lemma initiation_roundtrip (hi hr : Handshake R) now eph dst_len d hi' ts :
  matched (hs_params hi) (hs_params hr) -> obf_ok (hs_obf hi) -> in_u32 (next_index hi) ->
  tai64n_parse (stamp (stamper hi) now) = Ok ts -> tai64n_after ts (last_handshake_timestamp hr) = true ->
  format_handshake_initiation now eph dst_len hi = (Ok d, hi') ->
  len d = HANDSHAKE_INIT_SZ /\ HANDSHAKE_INIT_SZ <= dst_len /\
  exists p s ai, parse_incoming_packet (hs_obf hi) d = Ok (PHandshakeInit p) /\
    hs_state hi' = HsInitSent s /\ hs_previous hi' = hs_state hi /\ hs_params hi' = hs_params hi /\
    authenticate_initiation hr p = Ret (Ok ai) /\ answers s ai /\ in_u32 (is_local_index s) /\
    hi_sender_idx p = is_local_index s.
Proof.
  intros Hm Ho Hi Hts Hafter. unfold format_handshake_initiation.
  destruct (Z.ltb_spec dst_len HANDSHAKE_INIT_SZ); [done|].
  pose proof (inc_index_spec hi Hi) as Hidx. destruct (inc_index hi) as [li h1]. destruct Hidx as (Hu & _ & _ & ->).
  cbn [hs_obf hs_rng set_next_index hs_params hs_state stamper set_rng set_previous set_state].
  pose proof (random_h1_matches (hs_obf hi) (hs_rng hi) Ho) as Htag.
  destruct (random_h1 (hs_obf hi) (hs_rng hi)) as [tag rng]. cbn [fst] in Htag.
  set (p := hs_params hi) in *. set (q := hs_params hr) in *.
  destruct (kdf2 (kdf1 INITIAL_CHAIN_KEY (x25519_public eph)) (x25519_dh eph (peer_static_public p))) as [ck1 k1] eqn:E1.
  destruct (kdf2 ck1 (static_shared p)) as [ck2 k2] eqn:E2. cbv zeta.
  set (hash1 := b2s_hash (b2s_hash INITIAL_CHAIN_HASH (peer_static_public p)) (x25519_public eph)).
  set (st := aead_chacha20_seal k1 0 (static_public p) hash1).
  set (tsb := stamp (stamper hi) now) in *.
  set (et := aead_chacha20_seal k2 0 tsb (b2s_hash hash1 st)).
  assert (len st = 48) as Hst by (unfold st; rewrite len_chacha20_seal, (po_public _ (ma_ok _ _ Hm)), len_x25519_public; done).
  assert (len tsb = 12) as Htsb by (unfold tsb, stamp; len_lia).
  assert (len et = 28) as Het by (unfold et; rewrite len_chacha20_seal, Htsb; done).
  destruct (append_mac1_and_mac2 li _ _) as [d1 h2] eqn:Ha. intros [= <- <-].
  apply append_macs_spec in Ha as (mac1 & mac2 & -> & Hm1 & Hm2 & _ & _ & ->).
  pose proof (len_x25519_public eph) as Heph. cbn [hs_state hs_params hs_previous set_cookies set_state set_previous].
  split; [rewrite !len_app, !len_to_le; unfold HANDSHAKE_INIT_SZ; lia|]. split; [done|].
  eexists. eexists. exists {| ai_chaining_key := ck2; ai_hash := b2s_hash (b2s_hash hash1 st) et;
    ai_peer_ephemeral_public := x25519_public eph; ai_peer_index := li; ai_timestamp := ts |}.
  split.
  { rewrite <- !app_assoc. apply (parse_init (hs_obf hi) Ho tag li (x25519_public eph) st et (mac1 ++ mac2));
      try done. len_lia. }
  split; [done|]. split; [done|]. split; [done|]. split; [|done].
  unfold authenticate_initiation. fold q.
  cbn [hi_unencrypted_ephemeral hi_sender_idx hi_encrypted_static hi_encrypted_timestamp].
  rewrite (x25519_dh_agree (static_private q) eph), <- (po_public _ (mb_ok _ _ Hm)), <- (m_ab _ _ Hm), E1. fold hash1.
  unfold st at 1. rewrite aead_chacha20_open_seal by (rewrite (po_public _ (ma_ok _ _ Hm)); apply len_x25519_public).
  cbn [obind]. rewrite (m_ba _ _ Hm), constant_time_eq_refl. cbn [negb].
  rewrite <- (matched_shared _ _ Hm), E2. fold st. unfold et at 1.
  rewrite aead_chacha20_open_seal by done. cbn [obind]. rewrite Hts. by rewrite Hafter.
Qed.

Lemma format_response_outcome eph dst_len slot h hash ck pub idx :
  hs_state h = HsInitReceived hash ck pub idx ->
  exists r h', format_handshake_response eph dst_len slot h = Ret (r, h') /\
    (HANDSHAKE_RESP_SZ <= dst_len -> is_ok r = true) /\ hs_params h' = hs_params h /\
    last_handshake_timestamp h' = last_handshake_timestamp h.
Proof.
  intros Hs. unfold format_handshake_response.
  destruct (Z.ltb_spec dst_len HANDSHAKE_RESP_SZ); [by do 2 eexists; split_and!; [done|lia|..]|].
  rewrite Hs. cbn [hs_params set_state].
  assert (exists li, inc_index_avoiding slot (set_state HsNone h) = (li, set_next_index li (set_state HsNone h))) as (li & ->).
  { unfold inc_index_avoiding, inc_index. destruct (_ =? _); eauto. }
  destruct (random_h2 _ _) as [tag rng]. destruct (kdf3 _ _) as [[ck2 t2] k2]. destruct (derive_keys ck2) as [ka kb].
  destruct (append_mac1_and_mac2 _ _ _) as [d h2] eqn:Ha.
  apply append_macs_spec in Ha as (mac1 & mac2 & -> & _ & _ & _ & _ & ->).
  do 2 eexists. by split_and!.
Qed.

Lemma commit_initiation_outcome eph ai dst_len slot h :
  exists r h', commit_initiation eph ai dst_len slot h = Ret (r, h') /\
    (HANDSHAKE_RESP_SZ <= dst_len -> is_ok r = true) /\ hs_params h' = hs_params h /\
    last_handshake_timestamp h' = ai_timestamp ai.
Proof. by eapply format_response_outcome. Qed.

Lemma response_roundtrip (hi hr : Handshake R) now eph dst_len slot s ai d sess hr' :
  matched (hs_params hi) (hs_params hr) -> obf_ok (hs_obf hr) -> in_u32 (next_index hr) ->
  hs_state hi = HsInitSent s -> answers s ai -> in_u32 (is_local_index s) ->
  commit_initiation eph ai dst_len slot hr = Ret (Ok (d, sess), hr') ->
  len d = HANDSHAKE_RESP_SZ /\ HANDSHAKE_RESP_SZ <= dst_len /\
  exists p ar, parse_incoming_packet (hs_obf hr) d = Ok (PHandshakeResponse p) /\
    authenticate_response now hi p = Ret (Ok ar) /\ ar_is_previous ar = false /\
    session_peer (ar_session ar) sess /\ session_peer sess (ar_session ar) /\
    session_inv sess [] /\ session_inv (ar_session ar) [] /\ receiving_index sess mod N_SESSIONS <> slot.
Proof.
  intros Hm Ho Hi Hs (Hhash & Hck & Heph & Hpi) Hli. unfold commit_initiation, format_handshake_response.
  destruct (Z.ltb_spec dst_len HANDSHAKE_RESP_SZ); [done|].
  cbn [hs_state set_state hs_params set_previous set_last_handshake_timestamp].
  set (h0 := set_state HsNone _). assert (next_index h0 = next_index hr) as Hn0 by done.
  pose proof (inc_index_avoiding_range h0 slot ltac:(by rewrite Hn0)) as Hidx.
  destruct (inc_index_avoiding slot h0) as [li h1] eqn:Ei. destruct Hidx as (Hu & Hslot & ->).
  cbn [hs_obf hs_rng set_next_index h0 set_state set_previous set_last_handshake_timestamp].
  pose proof (random_h2_matches (hs_obf hr) (hs_rng hr) Ho) as Htag.
  destruct (random_h2 (hs_obf hr) (hs_rng hr)) as [tag rng]. cbn [fst] in Htag.
  set (p := hs_params hi) in *. set (q := hs_params hr) in *.
  rewrite <- Hck, <- Hhash, Heph, Hpi.
  set (ck1 := kdf1 (kdf1 (kdf1 (is_chaining_key s) (x25519_public eph)) (x25519_dh eph (x25519_public (is_ephemeral_private s))))
    (x25519_dh eph (peer_static_public q))).
  destruct (kdf3 ck1 (psk_bytes q)) as [[ck2 t2] k2] eqn:E3. destruct (derive_keys ck2) as [ka kb] eqn:Ed. cbv zeta.
  set (hash2 := b2s_hash (b2s_hash (is_hash s) (x25519_public eph)) t2).
  set (en := aead_chacha20_seal k2 0 [] hash2).
  assert (len en = 16) as Hen by (unfold en; by rewrite len_chacha20_seal).
  destruct (append_mac1_and_mac2 li _ _) as [d1 h2] eqn:Ha. intros [= <- <- <-].
  apply append_macs_spec in Ha as (mac1 & mac2 & -> & Hm1 & Hm2 & _ & _ & ->).
  pose proof (len_x25519_public eph) as Hle.
  split; [rewrite !len_app, !len_to_le; unfold HANDSHAKE_RESP_SZ; lia|]. split; [done|].
  eexists. eexists. split.
  { rewrite <- !app_assoc.
    apply (parse_resp (hs_obf hr) Ho tag li (is_local_index s) (x25519_public eph) en (mac1 ++ mac2)); try done. len_lia. }
  split.
  { unfold authenticate_response, pick_init_sent. rewrite Hs. cbn [hr_receiver_idx hr_unencrypted_ephemeral hr_encrypted_nothing hr_sender_idx].
    rewrite Z.eqb_refl. fold p. rewrite (x25519_dh_agree (is_ephemeral_private s)).
    rewrite (x25519_dh_agree (static_private p)), <- (po_public _ (ma_ok _ _ Hm)), <- (m_ba _ _ Hm). fold ck1.
    assert (psk_bytes p = psk_bytes q) as -> by (unfold psk_bytes; by rewrite (m_psk _ _ Hm)).
    rewrite E3. fold hash2. unfold en. rewrite aead_chacha20_open_seal by done. cbn [obind]. rewrite Ed. done. }
  cbn [ar_is_previous ar_session]. split_and!; try done; apply session_new_inv; done.
Qed.

(** C17. The handshake completes, and both ends derive the same transport keys.
    Between two ends configured for each other -- static keys, pre-shared key,
    tag ranges -- an initiation with a fresh timestamp parses and authenticates,
    the response it is answered with parses and authenticates against the
    initiation in flight, and the two sessions are each other's: what one
    sends with, the other receives with, under the other's index. The
    responder's session never sits in the reserved ring slot. *)
Theorem handshake_roundtrip (hi hr : Handshake R) now now2 eph1 eph2 len1 len2 slot ts d1 hi' :
  matched (hs_params hi) (hs_params hr) -> hs_obf hr = hs_obf hi -> obf_ok (hs_obf hi) ->
  in_u32 (next_index hi) -> in_u32 (next_index hr) ->
  tai64n_parse (stamp (stamper hi) now) = Ok ts -> tai64n_after ts (last_handshake_timestamp hr) = true ->
  format_handshake_initiation now eph1 len1 hi = (Ok d1, hi') -> HANDSHAKE_RESP_SZ <= len2 ->
  exists p1 ai d2 sess hr' p2 ar,
    parse_incoming_packet (hs_obf hr) d1 = Ok (PHandshakeInit p1) /\
    authenticate_initiation hr p1 = Ret (Ok ai) /\
    commit_initiation eph2 ai len2 slot hr = Ret (Ok (d2, sess), hr') /\
    parse_incoming_packet (hs_obf hi) d2 = Ok (PHandshakeResponse p2) /\
    authenticate_response now2 hi' p2 = Ret (Ok ar) /\
    session_peer (ar_session ar) sess /\ session_peer sess (ar_session ar) /\
    receiving_index sess mod N_SESSIONS <> slot.
Proof.
  intros Hm Hobf Ho Hi Hr Hts Hafter Hf Hl2.
  destruct (initiation_roundtrip hi hr now eph1 len1 d1 hi' ts) as (_ & _ & p1 & s & ai & Hp & Hst & _ & Hpar & Ha & Hans & Hli & _);
    try done.
  destruct (commit_initiation eph2 ai len2 slot hr) as [[[[d2 sess]|e] hr']|] eqn:Hc.
  - destruct (response_roundtrip hi' hr now2 eph2 len2 slot s ai d2 sess hr')
      as (_ & _ & p2 & ar & Hp2 & Ha2 & _ & Hs1 & Hs2 & _ & _ & Hslot); try done.
    + by rewrite Hpar.
    + by rewrite Hobf.
    + exists p1, ai, d2, sess, hr', p2, ar. rewrite Hobf in *. by split_and!.
  - destruct (commit_initiation_outcome eph2 ai len2 slot hr) as (r & h' & Hr' & Hok & _).
    rewrite Hr' in Hc. injection Hc as -> ->. by discriminate (Hok Hl2).
  - destruct (commit_initiation_outcome eph2 ai len2 slot hr) as (r & h' & Hr' & _). congruence.
Qed.
End NoiseSpec.

(** ** Initiations are not replayed *)

Section InitReplay.
Context `{Crypto} `{!CryptoLaws} {R : Type} `{RngCore R} `{!RngLaws R}.
Implicit Types h : Handshake R.

(** The timestamp an initiation carries for these parameters. *)
Definition initiation_timestamp (p : NoiseParams) (packet : HandshakeInit) : option Tai64N :=
  let peer_ephemeral_public := hi_unencrypted_ephemeral packet in
  let hash := b2s_hash (b2s_hash INITIAL_CHAIN_HASH (static_public p)) peer_ephemeral_public in
  let '(ck, key) := kdf2 (kdf1 INITIAL_CHAIN_KEY peer_ephemeral_public) (x25519_dh (static_private p) peer_ephemeral_public) in
  let '(_, key) := kdf2 ck (static_shared p) in
  match aead_open key (counter_nonce 0) (b2s_hash hash (hi_encrypted_static packet)) (hi_encrypted_timestamp packet) with
  | Some ts => match tai64n_parse ts with Ok t => Some t | Err _ => None end
  | None => None
  end.

(** [authenticate_initiation] never panics on a parsed initiation, and what it
    accepts carries a timestamp after the last one accepted. *)
Lemma authenticate_initiation_spec h p :
  packet_ok (PHandshakeInit p) ->
  safely (authenticate_initiation h p) (fun r => match r with
    | Ok ai => initiation_timestamp (hs_params h) p = Some (ai_timestamp ai) /\
               tai64n_after (ai_timestamp ai) (last_handshake_timestamp h) = true /\
               ai_peer_index ai = hi_sender_idx p
    | Err _ => True end).
Proof.
  intros (_ & _ & Hst & Hts). unfold authenticate_initiation, initiation_timestamp.
  destruct (kdf2 (kdf1 _ _) _) as [ck1 k1]. destruct (kdf2 ck1 _) as [ck2 k2]. cbv zeta.
  apply safely_bind. eapply safely_mono; [apply aead_chacha20_open_safe; by rewrite Hst|].
  intros [st|] _; [|done]. destruct (negb _); [done|]. unfold aead_chacha20_open.
  destruct (aead_open k2 _ _ _) as [ts|] eqn:Ho; [|done].
  apply len_aead_open in Ho. rewrite Hts in Ho. rewrite Ho.
  change (28 - TAG_SZ =? TIMESTAMP_LEN) with true. cbn [obind].
  destruct (tai64n_parse ts) as [t|]; [|done]. destruct (tai64n_after t _) eqn:Hafter; done.
Qed.

(** Initiations received one after the other on one [Handshake]: each is
    authenticated and, if that succeeds, committed. The packets accepted. *)
Fixpoint receive_initiations (dst_len slot : Z) (l : list (HandshakeInit * bytes)) h
  : outcome (list HandshakeInit * Handshake R) :=
  match l with
  | [] => Ret ([], h)
  | (p, eph) :: l =>
      let! r := authenticate_initiation h p in
      match r with
      | Err _ => receive_initiations dst_len slot l h
      | Ok ai =>
          let! (_, h) := commit_initiation eph ai dst_len slot h in
          let! (ps, h) := receive_initiations dst_len slot l h in
          Ret (p :: ps, h)
      end
  end.

Lemma receive_initiations_spec dst_len slot l h old :
  Forall (fun x => packet_ok (PHandshakeInit (fst x))) l ->
  (forall p, In p old -> exists t, initiation_timestamp (hs_params h) p = Some t /\
     tai64n_after t (last_handshake_timestamp h) = false) ->
  safely (receive_initiations dst_len slot l h) (fun '(ps, h') =>
    NoDup ps /\ (forall p, In p ps -> ~ In p old)).
Proof.
  revert h old. induction l as [|[p eph] l IH]; intros h old Hl Hold; cbn [receive_initiations].
  { split; [constructor|done]. }
  apply List.Forall_cons_iff in Hl as [Hp Hl]. apply safely_bind.
  eapply safely_mono; [by apply authenticate_initiation_spec|]. intros [ai|e]; [|by intros _; apply IH].
  intros (Hts & Hafter & _). destruct (commit_initiation_outcome eph ai dst_len slot h) as (r & h1 & -> & _ & Hpar & Hlast).
  cbn [obind]. apply safely_bind. eapply safely_mono; [apply (IH h1 (p :: old) Hl)|].
  - intros q [<-|Hq]; rewrite Hpar, Hlast; [exists (ai_timestamp ai); split; [done|apply after_irrefl]|].
    destruct (Hold q Hq) as (t & Ht & Hna). exists t. split; [done|].
    apply not_true_is_false. intros Hc. assert (tai64n_after t (last_handshake_timestamp h) = true); [|congruence].
    by eapply after_trans.
  - intros [ps h2] [Hnd Hnew]. split.
    + constructor; [|done]. intros Hin%list_elem_of_In. by apply (Hnew p Hin); left.
    + intros q [<-|Hq] Ho; [|by apply (Hnew q Hq); right].
      destruct (Hold _ Ho) as (t & Ht & Hna). rewrite Hts in Ht. injection Ht as <-. congruence.
Qed.

(** C28. No initiation is accepted twice. Whatever sequence of parsed initiations
    an end receives -- forged, stale, reordered or repeated -- nothing panics
    and no packet is accepted more than once: what is accepted always carries a
    timestamp after the last one accepted. *)
Theorem initiations_not_replayed dst_len slot l h :
  Forall (fun x => packet_ok (PHandshakeInit (fst x))) l ->
  safely (receive_initiations dst_len slot l h) (fun '(accepted, _) => NoDup accepted).
Proof.
  intros Hl. eapply safely_mono; [by apply (receive_initiations_spec dst_len slot l h [] Hl)|].
  by intros [ps h'] [? _].
Qed.
End InitReplay.

(** ** The cookie exchange *)

Section CookieExchange.
Context `{Crypto} `{!CryptoLaws} {R : Type} `{RngCore R} `{!RngLaws R}.
Implicit Types h : Handshake R.

(** A formatted initiation, up to its MACs. *)
Lemma format_initiation_macs now eph dst_len h d h' :
  params_ok (hs_params h) -> obf_ok (hs_obf h) -> in_u32 (next_index h) ->
  format_handshake_initiation now eph dst_len h = (Ok d, h') ->
  exists p body mac1 mac2, parse_incoming_packet (hs_obf h) d = Ok (PHandshakeInit p) /\
    d = body ++ mac1 ++ mac2 /\ len mac1 = 16 /\ len mac2 = 16 /\
    mac1 = b2s_keyed_mac_16 (sending_mac1_key (hs_params h)) body /\
    (forall c, write_cookie (hs_cookies h) = Some c -> mac2 = b2s_keyed_mac_16 c (body ++ mac1)) /\
    hs_cookies h' = {| last_mac1 := Some mac1; cookie_index := hi_sender_idx p;
                       write_cookie := write_cookie (hs_cookies h) |} /\
    in_u32 (hi_sender_idx p) /\ hs_params h' = hs_params h /\ hs_obf h' = hs_obf h /\ in_u32 (next_index h').
Proof.
  intros Hp Ho Hi. unfold format_handshake_initiation.
  destruct (Z.ltb_spec dst_len HANDSHAKE_INIT_SZ); [done|].
  pose proof (inc_index_spec h Hi) as Hidx. destruct (inc_index h) as [li h1]. destruct Hidx as (Hu & _ & _ & ->).
  cbn [hs_obf hs_rng set_next_index hs_params hs_state stamper set_rng set_previous set_state].
  pose proof (random_h1_matches (hs_obf h) (hs_rng h) Ho) as Htag.
  destruct (random_h1 (hs_obf h) (hs_rng h)) as [tag rng]. cbn [fst] in Htag.
  destruct (kdf2 _ (x25519_dh eph _)) as [ck1 k1]. destruct (kdf2 ck1 _) as [ck2 k2]. cbv zeta.
  destruct (append_mac1_and_mac2 li _ _) as [d1 h2] eqn:Ha. intros [= <- <-].
  apply append_macs_spec in Ha as (mac1 & mac2 & -> & Hm1 & Hm2 & Hmac1 & Hmac2 & ->).
  eexists. do 3 eexists. split.
  { rewrite <- !app_assoc. apply (parse_init (hs_obf h) Ho tag li (x25519_public eph) _ _ (mac1 ++ mac2)); try done.
    - apply len_x25519_public.
    - rewrite len_chacha20_seal, (po_public _ Hp), len_x25519_public. done.
    - rewrite len_chacha20_seal. unfold stamp. rewrite len_app, !len_to_be. done.
    - rewrite len_app. lia. }
  by split_and!.
Qed.

Lemma current_cookie_keys now r r' s : same_keys r r' -> current_cookie now r' s = current_cookie now r s.
Proof. intros (Hs & Ht & _). unfold current_cookie. by rewrite Hs, Ht. Qed.

(** What the gate demands of a well-formed message. *)
Lemma gate_demands now addr body mac1 mac2 idx defense ld r demand ld' r' :
  len mac1 = 16 -> len mac2 = 16 ->
  gate_handshake now (Some addr) (body ++ mac1 ++ mac2) idx defense ld r = (GateCookieDemanded demand, ld', r') ->
  demand = {| cd_sender_idx := idx; cd_cookie := current_cookie now r addr; cd_mac1 := mac1 |} /\ same_keys r r'.
Proof.
  intros H1' H2'. unfold gate_handshake. rewrite mac_fields_app by done.
  destruct (negb _); [done|]. case_bool_decide; [done|].
  destruct (get_load now _ ld r) as [[l ld1] r1] eqn:Hg. apply get_load_keys in Hg. case_bool_decide; [done|].
  destruct (negb _).
  - intros [= <- _ <-]. by rewrite (current_cookie_keys _ _ _ _ Hg).
  - destruct (get_proven _ _ _ _ _) as [[[] ?] ?]; done.
Qed.

(** A message with both MACs right is not asked for a cookie. *)
Lemma gate_both_macs now addr body mac1 mac2 idx defense ld r g ld' r' :
  len mac1 = 16 -> len mac2 = 16 ->
  mac1 = b2s_keyed_mac_16 (mac1_key r) body ->
  mac2 = b2s_keyed_mac_16 (current_cookie now r addr) (body ++ mac1) ->
  gate_handshake now (Some addr) (body ++ mac1 ++ mac2) idx defense ld r = (g, ld', r') ->
  g = GatePass \/ g = GateUnderLoad.
Proof.
  intros H1' H2' Hm1 Hm2. unfold gate_handshake. rewrite mac_fields_app by done.
  rewrite <- Hm1, constant_time_eq_refl. cbn [negb]. case_bool_decide; [intros [= <- _ _]; auto|].
  destruct (get_load now _ ld r) as [[l ld1] r1] eqn:Hg. apply get_load_keys in Hg.
  case_bool_decide; [intros [= <- _ _]; auto|].
  rewrite (current_cookie_keys _ _ _ _ Hg). unfold b2s_keyed_mac_16_2. unfold b2s_keyed_mac_16 in Hm2.
  rewrite <- Hm2, constant_time_eq_refl. cbn [negb].
  destruct (get_proven _ _ _ _ _) as [[[] ?] ?]; intros [= <- _ _]; auto.
Qed.

(** Such a message is let through while one of the slots its source is counted
    in has seen fewer messages in the window than a proven source is let. *)
Lemma get_load_proven now src ld r l ld' r' : get_load now src ld r = (l, ld', r') ->
  ld_proven ld' = ld_proven ld /\ proven r' = proven r /\ source_limit r' = source_limit r /\ limiter_window now r' = limiter_window now r.
Proof.
  unfold get_load, is_under_load, aggregate_load, fetch_add_count. destruct (ld_load ld); [by intros [= _ <- <-]|].
  destruct src as [s|]; [destruct (count_source _ s _); destruct (_ >? _)|]; by intros [= _ <- <-].
Qed.
Lemma proven_admitted now l addr r evs W row : let w := limiter_window now r in let h := hasher (proven r) in
  counts_inv (proven r) evs W -> W <= w -> window_ok w -> row = 0 \/ row = 1 ->
  hits h evs (slot_of_row (h (budget_key addr)) row) w < Z.max (source_limit r) SOURCE_FLOOR ->
  fst (admit_proven now l addr r) = true.
Proof.
  intros w h Hc HW Hw Hrow Hh.
  assert (forall r', proven r' = proven r -> source_limit r' = source_limit r -> limiter_window now r' = w -> fst (admit_proven_share now addr r') = true) as Hs.
  { intros r' Hp Hl Hlw. unfold admit_proven_share. rewrite Hp, Hl, Hlw. pose proof (count_source_inv (proven r) evs W w addr Hc HW Hw) as Hn.
    destruct (count_source (proven r) addr w) as [n c]. destruct Hn as (_ & _ & Hn). rewrite !hits_cons in Hn. cbn [fst]. apply Z.leb_le. fold h in Hn.
    destruct Hrow; subst row; repeat case_decide; lia. }
  unfold admit_proven, fetch_add_count. case_bool_decide; [|by apply Hs]. destruct (count r <? _); [done|]. by apply Hs.
Qed.
Lemma gate_passes now addr body mac1 mac2 idx defense ld r g ld' r' evs W row : let w := limiter_window now r in let h := hasher (proven r) in
  len mac1 = 16 -> len mac2 = 16 ->
  mac1 = b2s_keyed_mac_16 (mac1_key r) body ->
  mac2 = b2s_keyed_mac_16 (current_cookie now r addr) (body ++ mac1) ->
  gate_handshake now (Some addr) (body ++ mac1 ++ mac2) idx defense ld r = (g, ld', r') ->
  ld_proven ld = None -> counts_inv (proven r) evs W -> W <= w -> window_ok w -> row = 0 \/ row = 1 ->
  hits h evs (slot_of_row (h (budget_key addr)) row) w < Z.max (source_limit r) SOURCE_FLOOR ->
  g = GatePass.
Proof.
  intros w h H1' H2' Hm1 Hm2 Hg Hld Hc HW Hw Hrow Hh. revert Hg. unfold gate_handshake. rewrite mac_fields_app by done.
  rewrite <- Hm1, constant_time_eq_refl. cbn [negb]. case_bool_decide; [by intros [= <- _ _]|].
  destruct (get_load now _ ld r) as [[l ld1] r1] eqn:Hg. pose proof (get_load_keys _ _ _ _ _ _ _ Hg) as Hk. apply get_load_proven in Hg as (El & Ep & Es & Ew).
  case_bool_decide; [by intros [= <- _ _]|]. rewrite (current_cookie_keys _ _ _ _ Hk). unfold b2s_keyed_mac_16_2. unfold b2s_keyed_mac_16 in Hm2.
  rewrite <- Hm2, constant_time_eq_refl. cbn [negb]. unfold get_proven. rewrite El, Hld.
  assert (fst (admit_proven now l addr r1) = true) as Ha.
  { apply (proven_admitted now l addr r1 evs W row); rewrite ?Ep, ?Es, ?Ew; done. }
  destruct (admit_proven now l addr r1) as [[] r2]; [by intros [= <- _ _]|done].
Qed.

(** C31. The cookie exchange works, once per message. When a loaded responder
    answers an initiation with a cookie demand, the reply it formats parses at
    the initiator and authenticates against the mac1 of that initiation, and
    yields the responder's current cookie for the initiator's address; the same
    reply is refused after it has been committed. Every initiation formatted
    with the cookie has both MACs right from that address while the cookie
    period lasts: the gate never again answers with a demand, it lets the
    message through or drops it by count; and it does let it through, however
    loaded it is, when the cookie defense is bypassed, and when one of the two
    slots its source is counted in has seen fewer proven messages in the window
    than [max source_limit SOURCE_FLOOR] ([evs] being the proven messages
    counted so far). *)
Theorem cookie_exchange now0 eph len1 h0 d h p addr now defense ld r idx demand ld' r' len2 (rng rng' : R) c r'' :
  params_ok (hs_params h0) -> obf_ok (hs_obf h0) -> in_u32 (next_index h0) ->
  mac1_key r = sending_mac1_key (hs_params h0) ->
  cookie_key r = b2s_hash LABEL_COOKIE (peer_static_public (hs_params h0)) ->
  format_handshake_initiation now0 eph len1 h0 = (Ok d, h) ->
  parse_incoming_packet (hs_obf h0) d = Ok (PHandshakeInit p) -> idx = hi_sender_idx p ->
  gate_handshake now (Some addr) d idx defense ld r = (GateCookieDemanded demand, ld', r') ->
  format_cookie_demand (hs_obf h0) demand len2 r' rng = (Ok c, r'', rng') ->
  exists q cookie, parse_incoming_packet (hs_obf h0) c = Ok (PPacketCookieReply q) /\
    authenticate_cookie_reply h q = Ok cookie /\ cookie = current_cookie now r addr /\
    authenticate_cookie_reply (commit_cookie cookie h) q = Err UnexpectedPacket /\
    forall now1 eph1 len3 d1 h1 now2 idx2 defense2 ld2 r2 g ld3 r3,
      same_keys r r2 -> current_cookie now2 r addr = cookie ->
      format_handshake_initiation now1 eph1 len3 (commit_cookie cookie h) = (Ok d1, h1) ->
      gate_handshake now2 (Some addr) d1 idx2 defense2 ld2 r2 = (g, ld3, r3) ->
      (g = GatePass \/ g = GateUnderLoad) /\ (defense2 = Bypassed -> g = GatePass) /\
      forall evs W row, let w := limiter_window now2 r2 in let hash := hasher (proven r2) in
        ld_proven ld2 = None -> counts_inv (proven r2) evs W -> W <= w -> window_ok w -> row = 0 \/ row = 1 ->
        hits hash evs (slot_of_row (hash (budget_key addr)) row) w < Z.max (source_limit r2) SOURCE_FLOOR ->
        g = GatePass.
Proof.
  intros Hp Ho Hi Hk1 Hkc Hf Hpar -> Hg Hc.
  destruct (format_initiation_macs _ _ _ _ _ _ Hp Ho Hi Hf)
    as (p' & body & mac1 & mac2 & Hpar' & -> & Hl1 & Hl2 & Hm1 & _ & Hck & Hidx & Hph & Hoh & Hih).
  rewrite Hpar in Hpar'. injection Hpar' as <-.
  apply gate_demands in Hg as (-> & Hsk); [|done..].
  pose proof (format_cookie_reply_spec (hs_obf h0) (hi_sender_idx p) (current_cookie now r addr) mac1 len2 r' rng
    Ho Hidx (len_current_cookie _ _ _)) as Hspec.
  unfold format_cookie_demand in Hc. cbn [cd_sender_idx cd_cookie cd_mac1] in Hc. rewrite Hc in Hspec.
  destruct Hspec as (_ & _ & _ & q & Hq & Hqi & _ & Hopen).
  exists q, (current_cookie now r addr). split; [done|]. split_and!; try done.
  - unfold authenticate_cookie_reply. rewrite Hck. cbn [last_mac1 cookie_index].
    rewrite Hqi, Z.eqb_refl. cbn [negb]. rewrite Hph, <- Hkc. destruct Hsk as (_ & _ & _ & <-).
    by rewrite Hopen, len_current_cookie.
  - intros now1 eph1 len3 d1 h1 now2 idx2 defense2 ld2 r2 g ld3 r3 Hsk2 Hcur Hf1 Hg1.
    apply format_initiation_macs in Hf1 as (q1 & body1 & m1 & m2 & _ & -> & Hn1 & Hn2 & He1 & He2 & _);
      [|unfold commit_cookie; cbn; congruence..].
    assert (m1 = b2s_keyed_mac_16 (mac1_key r2) body1) as Hm1'.
    { rewrite He1. destruct Hsk2 as (_ & _ & -> & _). unfold commit_cookie. cbn. by rewrite Hph, Hk1. }
    assert (m2 = b2s_keyed_mac_16 (current_cookie now2 r2 addr) (body1 ++ m1)) as Hm2'.
    { rewrite (current_cookie_keys _ _ _ _ Hsk2), Hcur. by apply He2. }
    split_and!; [exact (gate_both_macs _ _ _ _ _ _ _ _ _ _ _ _ Hn1 Hn2 Hm1' Hm2' Hg1)| |intros evs W row; exact (gate_passes _ _ _ _ _ _ _ _ _ _ _ _ evs W row Hn1 Hn2 Hm1' Hm2' Hg1)].
    intros ->. revert Hg1. unfold gate_handshake. rewrite mac_fields_app by done. rewrite <- Hm1', constant_time_eq_refl. by intros [= <- _ _].
Qed.
End CookieExchange.

(** ** Well-formed handshakes

    What every operation on a [Handshake] keeps, and what a tunnel needs of the
    messages and sessions it produces. *)

Section Wellformed.
Context `{Crypto} `{!CryptoLaws} {R : Type} `{RngCore R} `{!RngLaws R}.
Implicit Types h : Handshake R.

Definition state_ok (s : HandshakeState) : Prop :=
  match s with HsInitSent i => in_u32 (is_local_index i) | _ => True end.

Record hs_ok h : Prop := {
  ho_params : params_ok (hs_params h);
  ho_obf : obf_ok (hs_obf h);
  ho_index : in_u32 (next_index h);
  ho_state : state_ok (hs_state h);
  ho_previous : state_ok (hs_previous h);
  ho_cookies : cookies_ok h;
}.

Lemma hs_ok_rng r h : hs_ok h -> hs_ok (set_rng r h).
Proof. by intros []. Qed.

Lemma handshake_new_ok private peer_public idx psk obf st (rng : R) :
  obf_ok obf -> in_u32 idx -> hs_ok (handshake_new private (x25519_public private) peer_public idx psk obf st rng).
Proof. intros. by split. Qed.

Lemma hs_ok_expired h : hs_ok h -> hs_ok (set_expired h).
Proof. intros []. by split. Qed.
Lemma hs_ok_clear_cookie h : hs_ok h -> hs_ok (clear_cookie h).
Proof. intros []. by split. Qed.
Lemma hs_ok_psk psk h : hs_ok h -> hs_ok (handshake_set_preshared_key psk h).
Proof. intros [[]]. by split. Qed.
Lemma hs_ok_obf obf h : obf_ok obf -> hs_ok h -> hs_ok (set_obf obf h).
Proof. intros ? []. by split. Qed.

Lemma commit_response_ok ar h : hs_ok h -> hs_ok (snd (commit_response ar h)).
Proof. intros []. unfold commit_response. destruct (ar_is_previous ar); by split. Qed.

Lemma commit_cookie_ok c h : len c = 16 -> hs_ok h -> hs_ok (commit_cookie c h).
Proof. intros ? []. by split. Qed.

Lemma authenticate_cookie_reply_len h p c : authenticate_cookie_reply h p = Ok c -> len c = 16.
Proof.
  unfold authenticate_cookie_reply. intros Ha. repeat case_match; simplify_eq. by apply Z.eqb_eq.
Qed.

Lemma authenticate_response_spec now h p :
  hs_ok h -> packet_ok (PHandshakeResponse p) ->
  safely (authenticate_response now h p) (fun r => match r with
    | Ok ar => session_inv (ar_session ar) [] | Err _ => True end).
Proof.
  intros Hh (Hs & _ & _ & Hn). unfold authenticate_response.
  destruct (pick_init_sent h (hr_receiver_idx p)) as [[s b]|] eqn:Hp; [|done].
  assert (in_u32 (is_local_index s)) as Hi.
  { pose proof (ho_state _ Hh) as H1'. pose proof (ho_previous _ Hh) as H2'. unfold pick_init_sent in Hp.
    repeat case_match; by simplify_eq. }
  destruct (kdf3 _ _) as [[ck t2] k]. cbv zeta. apply safely_bind.
  eapply safely_mono; [by apply aead_chacha20_open_safe|]. intros [o|] _; [|done].
  destruct (derive_keys ck). by apply session_new_inv.
Qed.

Lemma format_initiation_ok now eph dst_len h :
  hs_ok h ->
  match format_handshake_initiation now eph dst_len h with
  | (Ok d, h') => hs_ok h' /\ HANDSHAKE_INIT_SZ <= dst_len /\ len d = HANDSHAKE_INIT_SZ /\
      matches_h1 (hs_obf h) (le_u32 0 d) = true /\ hs_obf h' = hs_obf h /\ hs_params h' = hs_params h /\
      handshake_timer h' = Some now
  | (Err e, h') => h' = h /\ e = DestinationBufferTooSmall /\ dst_len < HANDSHAKE_INIT_SZ
  end.
Proof.
  intros Hh. destruct Hh as [Hp Ho Hi Hs _ Hc]. unfold format_handshake_initiation.
  destruct (Z.ltb_spec dst_len HANDSHAKE_INIT_SZ); [done|].
  pose proof (inc_index_spec h Hi) as Hidx. destruct (inc_index h) as [li h1]. destruct Hidx as (Hu & _ & _ & ->).
  cbn [hs_obf hs_rng set_next_index hs_params hs_state stamper set_rng set_previous set_state].
  pose proof (random_h1_matches (hs_obf h) (hs_rng h) Ho) as Htag.
  destruct (random_h1 (hs_obf h) (hs_rng h)) as [tag rng]. cbn [fst] in Htag.
  destruct (kdf2 _ (x25519_dh eph _)) as [ck1 k1]. destruct (kdf2 ck1 _) as [ck2 k2]. cbv zeta.
  destruct (append_mac1_and_mac2 li _ _) as [d1 h2] eqn:Ha.
  apply append_macs_spec in Ha as (mac1 & mac2 & -> & Hm1 & Hm2 & _ & _ & ->).
  split_and!; try done.
  - rewrite !len_app, !len_chacha20_seal, !len_to_le, len_x25519_public, (po_public _ Hp), len_x25519_public, Hm1, Hm2.
    unfold stamp. by rewrite len_app, !len_to_be.
  - rewrite <- !app_assoc, le_u32_head; [done|]. eapply (u32_of_range _ Ho); [|exact Htag]. simpl. auto.
Qed.

Lemma commit_initiation_ok eph ai dst_len slot h :
  hs_ok h -> in_u32 (ai_peer_index ai) ->
  safely (commit_initiation eph ai dst_len slot h) (fun '(r, h') =>
    hs_ok h' /\ hs_obf h' = hs_obf h /\ hs_params h' = hs_params h /\
    match r with
    | Ok (d, s) => HANDSHAKE_RESP_SZ <= dst_len /\ len d = HANDSHAKE_RESP_SZ /\
        matches_h2 (hs_obf h) (le_u32 0 d) = true /\ session_inv s [] /\ receiving_index s mod N_SESSIONS <> slot
    | Err e => e = DestinationBufferTooSmall /\ dst_len < HANDSHAKE_RESP_SZ
    end).
Proof.
  intros [Hp Ho Hi Hs Hpr Hc] Hai. unfold commit_initiation, format_handshake_response.
  destruct (Z.ltb_spec dst_len HANDSHAKE_RESP_SZ); [done|].
  cbn [hs_state set_state hs_params set_previous set_last_handshake_timestamp].
  set (h0 := set_state HsNone _). pose proof (inc_index_avoiding_range h0 slot Hi) as Hidx.
  destruct (inc_index_avoiding slot h0) as [li h1]. destruct Hidx as (Hu & Hslot & ->).
  cbn [hs_obf hs_rng set_next_index h0 set_state set_previous set_last_handshake_timestamp].
  pose proof (random_h2_matches (hs_obf h) (hs_rng h) Ho) as Htag.
  destruct (random_h2 (hs_obf h) (hs_rng h)) as [tag rng]. cbn [fst] in Htag.
  destruct (kdf3 _ _) as [[ck t2] k]. destruct (derive_keys ck) as [ka kb]. cbv zeta.
  destruct (append_mac1_and_mac2 li _ _) as [d1 h2] eqn:Ha.
  apply append_macs_spec in Ha as (mac1 & mac2 & -> & Hm1 & Hm2 & _ & _ & ->). cbn [safely].
  split; [by split|]. split; [done|]. split; [done|]. split; [done|]. split_and!.
  - rewrite !len_app, len_chacha20_seal, !len_to_le, len_x25519_public, Hm1, Hm2. done.
  - rewrite <- !app_assoc, le_u32_head; [done|]. eapply (u32_of_range _ Ho); [|exact Htag]. simpl. auto.
  - by apply session_new_inv.
  - done.
Qed.
End Wellformed.

(** ** Two concrete ends *)

Import Toy CounterRng.

Definition ex_private (k : Z) : bytes := to_le 32 k.
Definition ex_end (mine theirs index rng : Z) : Handshake Z :=
  handshake_new (ex_private mine) (x25519_public (ex_private mine)) (x25519_public (ex_private theirs)) index None
    obf_default {| duration_at_start := 1700000000 * nanos_per_sec; instant_at_start := 0 |} rng.
Definition ex_alice : Handshake Z := ex_end 5 7 256 1.
Definition ex_bob : Handshake Z := ex_end 7 5 512 2.
Definition ex_initiation : result WireGuardError bytes * Handshake Z :=
  format_handshake_initiation 1000 (to_le 32 77) 148 ex_alice.

Lemma ex_matched : matched (hs_params ex_alice) (hs_params ex_bob).
Proof. by split; [apply noise_params_new_ok|apply noise_params_new_ok|..]. Qed.

Lemma ex_index_ok h : (0 <=? next_index h) && (next_index h <=? u32_max) = true -> in_u32 (next_index (R := Z) h).
Proof. intros [?%Z.leb_le ?%Z.leb_le]%andb_prop. done. Qed.

Lemma handshake_roundtrip_witness :
  exists d1 hi', ex_initiation = (Ok d1, hi') /\
  exists p1 ai d2 sess hr' p2 ar,
    parse_incoming_packet obf_default d1 = Ok (PHandshakeInit p1) /\
    authenticate_initiation ex_bob p1 = Ret (Ok ai) /\
    commit_initiation (to_le 32 99) ai 92 3 ex_bob = Ret (Ok (d2, sess), hr') /\
    parse_incoming_packet obf_default d2 = Ok (PHandshakeResponse p2) /\
    authenticate_response 2000 hi' p2 = Ret (Ok ar) /\
    session_peer (ar_session ar) sess /\ session_peer sess (ar_session ar) /\
    receiving_index sess mod N_SESSIONS <> 3.
Proof.
  destruct ex_initiation as [[d1|e] hi'] eqn:E; [|exfalso; apply (f_equal (fun x => is_ok (fst x))) in E; vm_compute in E; congruence].
  exists d1, hi'. split; [done|].
  destruct (tai64n_parse (stamp (stamper ex_alice) 1000)) as [ts|] eqn:Ets; [|vm_compute in Ets; congruence].
  assert (tai64n_after ts (last_handshake_timestamp ex_bob) = true) as Hafter.
  { vm_compute in Ets. injection Ets as <-. vm_compute. done. }
  eapply (handshake_roundtrip ex_alice ex_bob 1000 2000 (to_le 32 77) (to_le 32 99) 148 92 3 ts d1 hi').
  - apply ex_matched.
  - reflexivity.
  - apply obf_default_ok.
  - by apply ex_index_ok.
  - by apply ex_index_ok.
  - exact Ets.
  - exact Hafter.
  - exact E.
  - vm_compute. congruence.
Defined.

Definition ex_init_packet : HandshakeInit :=
  match parse_incoming_packet obf_default (fst_ok (fst ex_initiation)) with
  | Ok (PHandshakeInit p) => p
  | _ => {| hi_sender_idx := 0; hi_unencrypted_ephemeral := zeros 32; hi_encrypted_static := zeros 48;
            hi_encrypted_timestamp := zeros 28 |}
  end.

Lemma initiations_not_replayed_witness :
  (exists h, receive_initiations 92 3 [(ex_init_packet, to_le 32 99); (ex_init_packet, to_le 32 100)] ex_bob
    = Ret ([ex_init_packet], h)) /\
  safely (receive_initiations 92 3 [(ex_init_packet, to_le 32 99); (ex_init_packet, to_le 32 100)] ex_bob)
    (fun '(accepted, _) => NoDup accepted).
Proof.
  split; [by eexists; vm_compute; reflexivity|].
  apply (initiations_not_replayed 92 3 [(ex_init_packet, to_le 32 99); (ex_init_packet, to_le 32 100)] ex_bob).
  assert (packet_ok (PHandshakeInit ex_init_packet)) by (vm_compute; split_and!; congruence).
  by apply List.Forall_cons; [|apply List.Forall_cons].
Defined.

(** Bob's limiter, with a budget of nothing. *)
Definition ex_loaded : RateLimiter := limiter_new ex_seed (x25519_public (ex_private 7)) 0 0.
#[local] Abbreviation ex_demand := (gate_handshake 0 (Some (ex_source 7)) (fst_ok (fst ex_initiation))
  (hi_sender_idx ex_init_packet) Armed load_default ex_loaded).
Definition demand_of (g : HandshakeGate) : CookieDemand :=
  match g with
  | GateCookieDemanded d => d
  | _ => {| cd_sender_idx := 0; cd_cookie := []; cd_mac1 := [] |}
  end.
Definition ex_demanded : CookieDemand := demand_of (fst (fst ex_demand)).
Definition ex_reply : bytes :=
  fst_ok (fst (fst (format_cookie_demand obf_default ex_demanded 64 (snd ex_demand) 4))).

Lemma ex_loaded_counts : counts_inv (proven ex_loaded) [] 0.
Proof. exact (counts_new_inv (seed_proven ex_seed) 0 ltac:(done)). Qed.

(** The initiation she formats with the cookie. *)
Definition ex_second : result WireGuardError bytes * Handshake Z :=
  format_handshake_initiation 2000 (to_le 32 78) 148 (commit_cookie (current_cookie 0 ex_loaded (ex_source 7)) (snd ex_initiation)).

Lemma cookie_exchange_witness :
  exists q, parse_incoming_packet obf_default ex_reply = Ok (PPacketCookieReply q) /\
    authenticate_cookie_reply (snd ex_initiation) q = Ok (current_cookie 0 ex_loaded (ex_source 7)) /\
    fst (fst (gate_handshake 0 (Some (ex_source 7)) (fst_ok (fst ex_second)) 9 Armed load_default ex_loaded)) = GatePass.
Proof.
  destruct ex_initiation as [[d|e] h] eqn:E; [|exfalso; apply (f_equal (fun x => is_ok (fst x))) in E; vm_compute in E; congruence].
  assert (d = fst_ok (fst ex_initiation)) as Hd by (by rewrite E).
  assert (parse_incoming_packet (hs_obf ex_alice) d = Ok (PHandshakeInit ex_init_packet)) as Hp
    by (rewrite Hd; vm_compute; reflexivity).
  assert (ex_demand = (GateCookieDemanded ex_demanded, snd (fst ex_demand), snd ex_demand)) as Hg.
  { assert (fst (fst ex_demand) = GateCookieDemanded ex_demanded) as <- by (vm_compute; reflexivity).
    by destruct (gate_handshake _ _ _ _ _ _ _) as [[? ?] ?]. }
  destruct (format_cookie_demand obf_default ex_demanded 64 (snd ex_demand) 4) as [[[c|e] r''] rng'] eqn:Ec;
    [|exfalso; apply (f_equal (fun x => is_ok (fst (fst x)))) in Ec; vm_compute in Ec; congruence].
  assert (c = ex_reply) as <- by (unfold ex_reply; rewrite Ec; done).
  edestruct (cookie_exchange 1000 (to_le 32 77) 148 ex_alice d h ex_init_packet (ex_source 7) 0 Armed load_default ex_loaded
    (hi_sender_idx ex_init_packet) ex_demanded (snd (fst ex_demand)) (snd ex_demand) 64 4 rng' c r'')
    as (q & cookie & Hq & Ha & -> & _ & Hgate).
  - apply noise_params_new_ok.
  - apply obf_default_ok.
  - by apply ex_index_ok.
  - reflexivity.
  - reflexivity.
  - exact E.
  - exact Hp.
  - reflexivity.
  - rewrite Hd.  exact Hg.
  - exact Ec.
  - exists q. split; [exact Hq|]. split; [exact Ha|]. unfold ex_second. rewrite E. cbn [snd].
    destruct (format_handshake_initiation 2000 (to_le 32 78) 148 (commit_cookie (current_cookie 0 ex_loaded (ex_source 7)) h)) as [[d1|e] h1] eqn:E1.
    2: { exfalso. pose proof (f_equal snd E) as Eh. cbn [snd] in Eh. subst h. apply (f_equal (fun x => is_ok (fst x))) in E1. vm_compute in E1. congruence. }
    destruct (gate_handshake 0 (Some (ex_source 7)) d1 9 Armed load_default ex_loaded) as [[g ld3] r3] eqn:Eg. cbn [fst fst_ok]. rewrite Eg. cbn [fst].
    destruct (Hgate 2000 (to_le 32 78) 148 d1 h1 0 9 Armed load_default ex_loaded g ld3 r3) as (_ & _ & Hpass); [by split_and!|reflexivity|exact E1|exact Eg|].
    assert (limiter_window 0 ex_loaded = 0) as Hw by (vm_compute; reflexivity). apply (Hpass [] 0 0); rewrite ?Hw; [reflexivity|exact ex_loaded_counts|lia|unfold window_ok; lia|by left|vm_compute; reflexivity].
Defined.
