(* ===== verification/Dns.v ===== *)
(** DNS imitation, [noise/imitation/dns.rs]: the queries of the pre-handshake
    burst, the validator [question_end] the classifier and the responder share,
    and the SERVFAIL reply.

    The theorems: a query generated for a valid host passes the validator, whole
    and with nothing left over; a reply is never larger than its query and is
    never itself a query. *)

From Stdlib Require Import String.
From S2P Require Import Prelude Rand Amnezia.

Local Open Scope Z_scope.
Local Open Scope list_scope.

Definition HEADER_LEN : Z := 12.
Definition QTYPE_A : Z := 1.
Definition QTYPE_AAAA : Z := 28.
Definition QTYPE_HTTPS : Z := 65.
Definition QCLASS_IN : Z := 1.
Definition MAX_LABEL : Z := 63.
Definition MAX_QNAME : Z := 255.

(** [domain.split('.')]: always at least one label. *)
Fixpoint split_dot (acc : bytes) (domain : bytes) : list bytes :=
  match domain with
  | [] => [acc]
  | b :: domain => if is_dot b then acc :: split_dot [] domain else split_dot (acc ++ [b]) domain
  end.

Definition put_label (label : bytes) : bytes :=
  let l := Z.min (len label) 63 in to_be 1 l ++ ztake l label.

Definition put_qname (domain : bytes) : bytes := flat_map put_label (split_dot [] domain) ++ to_be 1 0.

Section Generate.
Context {R : Type} `{RngCore R}.

Definition build_query (domain : bytes) (qtype : Z) (rng : R) : bytes * R :=
  let '(w, rng) := next_u32 rng in
  (to_be 2 (w mod 2 ^ 16) ++ to_be 2 256 ++ to_be 2 1 ++ to_be 2 0 ++ to_be 2 0 ++ to_be 2 0 ++
   put_qname domain ++ to_be 2 qtype ++ to_be 2 QCLASS_IN, rng).

Fixpoint build_queries (domain : bytes) (qtypes : list Z) (rng : R) : list bytes * R :=
  match qtypes with
  | [] => ([], rng)
  | q :: qtypes =>
      let '(pkt, rng) := build_query domain q rng in
      let '(pkts, rng) := build_queries domain qtypes rng in
      (pkt :: pkts, rng)
  end.

Definition dns_generate (domain : bytes) (rng : R) : list bytes * R :=
  build_queries domain [QTYPE_A; QTYPE_AAAA; QTYPE_HTTPS] rng.
End Generate.

(** The label walk; the fuel is the datagram's length, each step moves [pos]
    forward. *)
Fixpoint qname_walk (fuel : nat) (data : bytes) (pos qname_len : Z) : option Z :=
  match fuel with
  | O => None
  | S fuel =>
      match zget data pos with
      | None => None
      | Some b =>
          let label_len := byte.unsigned b in
          if negb (Z.land label_len 192 =? 0) then None
          else if label_len =? 0 then Some (pos + 1)
          else if label_len >? MAX_LABEL then None
          else
            let qname_len := qname_len + (1 + label_len) in
            if qname_len + 1 >? MAX_QNAME then None
            else qname_walk fuel data (pos + (1 + label_len)) qname_len
      end
  end.

Definition qname_end (data : bytes) (start : Z) : option Z :=
  qname_walk (S (length data)) data start 0.

Definition question_end (query : bytes) : option Z :=
  if len query <? HEADER_LEN then None else
  if negb (Z.land (byte_at query 2) 248 =? 0) || negb (Z.land (byte_at query 3) 207 =? 0) then None else
  if negb (be16 query 4 =? 1) || negb (be16 query 6 =? 0) || negb (be16 query 8 =? 0) then None else
  match qname_end query HEADER_LEN with
  | None => None
  | Some name_end =>
      let end_ := name_end + 4 in
      if len query <? end_ then None else
      let qclass := be16 query (name_end + 2) in
      if negb (existsb (Z.eqb qclass) [1; 3; 4; 255]) then None else Some end_
  end.

Definition servfail (query : bytes) : option bytes :=
  match question_end query with
  | None => None
  | Some end_ => Some (
      slice 0 2 query ++
      to_be 1 (Z.lor 128 (Z.land (byte_at query 2) (Z.lor 120 1))) ++ to_be 1 (Z.lor 128 2) ++
      to_be 2 1 ++ to_be 2 0 ++ to_be 2 0 ++ to_be 2 0 ++ slice HEADER_LEN end_ query)
  end.

(** ** The walk *)

(** More fuel finds the same end; [S (length data)] is enough for any walk
    that stays in the datagram. *)
Lemma qname_walk_range fuel data pos q e :
  0 <= pos -> qname_walk fuel data pos q = Some e -> pos < e <= len data.
Proof.
  revert pos q. induction fuel as [|fuel IH]; intros pos q Hp; cbn [qname_walk]; [done|].
  destruct (zget data pos) as [b|] eqn:Hg; [|done]. apply zget_Some in Hg.
  pose proof (byte.unsigned_range b). repeat case_match; try done.
  - intros [= <-]. lia.
  - intros He%IH; lia.
Qed.

Lemma qname_walk_fuel fuel data pos q :
  0 <= pos -> (length data < fuel + Z.to_nat pos)%nat ->
  forall fuel', (fuel <= fuel')%nat -> qname_walk fuel' data pos q = qname_walk fuel data pos q.
Proof.
  revert pos q. induction fuel as [|fuel IH]; intros pos q Hp Hf fuel' Hle.
  - destruct fuel' as [|fuel']; cbn [qname_walk]; [done|].
    destruct (zget data pos) as [b|] eqn:Hg; [|done]. apply zget_Some in Hg. unfold len in Hg. lia.
  - destruct fuel' as [|fuel']; [lia|]. cbn [qname_walk]. destruct (zget data pos) as [b|]; [|done].
    pose proof (byte.unsigned_range b). repeat case_match; try done. apply IH; lia.
Qed.

(** ** Generated queries *)

Definition label_ok (l : bytes) : Prop := 1 <= len l <= 63.

Lemma len_put_label l : label_ok l -> len (put_label l) = 1 + len l.
Proof. intros Hl. unfold put_label, label_ok in *. rewrite Z.min_l by lia. len_lia. Qed.

Lemma split_dot_ok host acc ls ph :
  host_labels (len acc) ls ph host = true -> len acc <= 63 ->
  Forall label_ok (split_dot acc host).
Proof.
  revert acc ls ph. induction host as [|b host IH]; intros acc ls ph; cbn [host_labels split_dot].
  - intros [?%Z.ltb_lt _]%andb_prop ?. constructor; [unfold label_ok; lia|constructor].
  - destruct (is_dot b).
    + destruct (Z.eqb_spec (len acc) 0); [done|]. destruct ph; [done|]. cbn [orb]. intros Hh ?.
      constructor; [unfold label_ok; pose proof (len_nonneg acc); lia|]. apply (IH [] _ _ Hh). done.
    + destruct (negb _); [done|]. destruct (ls && is_hyphen b); [done|].
      destruct (Z.ltb_spec 63 (len acc + 1)); [done|]. intros Hh ?.
      eapply IH; [|len_lia]. rewrite len_app. exact Hh.
Qed.

Lemma len_put_qname host acc :
  Forall label_ok (split_dot acc host) ->
  len (flat_map put_label (split_dot acc host)) = len acc + len host + 1.
Proof.
  revert acc. induction host as [|b host IH]; intros acc; cbn [split_dot].
  - intros [Ha _]%List.Forall_cons_iff. cbn [flat_map]. rewrite app_nil_r, len_put_label by done. len_lia.
  - destruct (is_dot b).
    + intros [Ha Hl]%List.Forall_cons_iff. cbn [flat_map].
      rewrite len_app, len_put_label, IH by done. len_lia.
    + intros Hl. rewrite IH, len_app, !len_cons by done. len_lia.
Qed.

Lemma unsigned_of_Z_small z : 0 <= z < 256 -> byte.unsigned (byte.of_Z z) = z.
Proof. intros. rewrite byte.unsigned_of_Z. by apply Z.mod_small. Qed.

Lemma land_192_small z : 0 <= z < 64 -> Z.land z 192 = 0.
Proof.
  intros Hz. change 192 with (Z.shiftl 3 6). apply Z.bits_inj'. intros n Hn.
  rewrite Z.land_spec, Z.shiftl_spec, Z.bits_0 by lia. destruct (Z.ltb_spec n 6).
  - by rewrite (Z.testbit_neg_r 3), andb_false_r by lia.
  - rewrite (bits_above 6 z n) by lia. done.
Qed.

Lemma qname_walk_labels fuel pre ls rest q :
  Forall label_ok ls -> q + len (flat_map put_label ls) + 1 <= MAX_QNAME -> (length ls < fuel)%nat ->
  qname_walk fuel (pre ++ (flat_map put_label ls ++ to_be 1 0) ++ rest) (len pre) q =
    Some (len pre + len (flat_map put_label ls) + 1).
Proof.
  revert fuel pre q. induction ls as [|l ls IH]; intros [|fuel] pre q Hl Hq Hf; cbn [length flat_map] in *; try lia;
    cbn [qname_walk].
  - change (([] ++ to_be 1 0) ++ rest) with (Byte.x00 :: rest).
    rewrite (zget_app_mid pre) by done. f_equal. len_lia.
  - apply List.Forall_cons_iff in Hl as [Hl Hls]. rewrite len_app, (len_put_label l Hl) in *.
    pose proof (len_nonneg (flat_map put_label ls)). unfold label_ok, MAX_QNAME in *.
    assert (put_label l = byte.of_Z (len l) :: l) as ->.
    { unfold put_label. rewrite Z.min_l, ztake_all by lia. done. }
    rewrite <- !app_assoc. cbn [app].
    rewrite (zget_app_mid pre) by done. rewrite unsigned_of_Z_small, land_192_small by lia.
    cbn [negb Z.eqb]. destruct (Z.eqb_spec (len l) 0); [lia|].
    rewrite !Z.gtb_ltb, !(proj2 (Z.ltb_ge _ _)) by (unfold MAX_LABEL, MAX_QNAME; lia).
    specialize (IH fuel (pre ++ [byte.of_Z (len l)] ++ l) (q + (1 + len l)) Hls ltac:(lia) ltac:(lia)).
    rewrite !len_app, <- !app_assoc in IH. change (len [byte.of_Z (len l)]) with 1 in IH. cbn [app] in IH.
    rewrite IH. f_equal. len_lia.
Qed.

(** The ten bytes between the transaction id and the question. *)
Definition query_fixed : bytes := to_be 2 256 ++ to_be 2 1 ++ to_be 2 0 ++ to_be 2 0 ++ to_be 2 0.

Lemma query_header a b rest :
  let d := (a :: b :: query_fixed) ++ rest in
  byte_at d 2 = 1 /\ byte_at d 3 = 0 /\ be16 d 4 = 1 /\ be16 d 6 = 0 /\ be16 d 8 = 0.
Proof. by split_and!. Qed.

Lemma len_labels ls : Forall label_ok ls -> len ls <= len (flat_map put_label ls).
Proof.
  induction 1 as [|l ls Hl _ IH]; [done|]. cbn [flat_map].
  rewrite len_cons, len_app, (len_put_label l Hl). unfold label_ok in Hl. lia.
Qed.

Lemma question_end_query a b domain qtype :
  Forall label_ok (split_dot [] domain) -> len domain <= 253 ->
  let q := (a :: b :: query_fixed) ++ put_qname domain ++ to_be 2 qtype ++ to_be 2 QCLASS_IN in
  question_end q = Some (len q).
Proof.
  intros Hl Hd q. destruct (query_header a b (put_qname domain ++ to_be 2 qtype ++ to_be 2 QCLASS_IN))
    as (H2 & H3 & H4 & H6 & H8). fold q in H2, H3, H4, H6, H8.
  assert (len (a :: b :: query_fixed) = 12) as Hh by done.
  pose proof (len_put_qname domain [] Hl) as Hq. rewrite len_nil in Hq. pose proof (len_labels _ Hl).
  assert (len (put_qname domain) = len domain + 2) as Hlq by (unfold put_qname; rewrite len_app, Hq; len_lia).
  assert (len q = len domain + 18) as Hlen by (unfold q; rewrite len_app, Hh, len_app, Hlq; len_lia).
  pose proof (len_nonneg domain).
  assert (qname_end q HEADER_LEN = Some (len domain + 14)) as He.
  { unfold qname_end. change HEADER_LEN with (len (a :: b :: query_fixed)).
    unfold q, put_qname. rewrite (qname_walk_labels _ _ _ _ 0 Hl); [f_equal; lia|unfold MAX_QNAME; lia|].
    fold (put_qname domain). fold q. unfold len in *. lia. }
  unfold question_end. rewrite H2, H3, H4, H6, H8, He, Hlen.
  rewrite !(proj2 (Z.ltb_ge _ _)) by (unfold HEADER_LEN; lia).
  assert (be16 q (len domain + 14 + 2) = 1) as ->.
  { unfold be16, q. rewrite !app_assoc, <- (app_nil_r (_ ++ to_be 2 QCLASS_IN)), <- (app_assoc _ (to_be 2 QCLASS_IN)).
    rewrite slice_mid; [done|..]; rewrite !len_app, Hh, Hlq, !len_to_be; lia. }
  cbn [existsb Z.eqb negb orb Z.land Pos.land Pos.eqb]. f_equal. lia.
Qed.

Lemma valid_host_labels host :
  is_valid_imitation_host host = true -> Forall label_ok (split_dot [] host) /\ len host <= 253.
Proof.
  unfold is_valid_imitation_host. destruct (_ || _) eqn:E; [done|]. intros Hh.
  split; [by apply (split_dot_ok host [] _ _ Hh)|]. repeat apply orb_false_iff in E as [E ?].
  by apply Z.ltb_ge.
Qed.

(** Generated DNS queries are queries. For every host the configuration
    accepts, each datagram of the DNS burst passes the validator the probe
    classifier and the responder share, with the question ending exactly at the
    end of the datagram. *)
Theorem dns_query_roundtrip {R} `{RngCore R} domain qtype (rng : R) :
  is_valid_imitation_host domain = true ->
  let q := fst (build_query domain qtype rng) in question_end q = Some (len q).
Proof.
  intros [Hl Hd]%valid_host_labels. unfold build_query. destruct (next_u32 rng) as [w rng']. cbn [fst].
  exact (question_end_query (byte.of_Z (Z.shiftr (w mod 2 ^ 16) 8)) (byte.of_Z (w mod 2 ^ 16)) domain qtype Hl Hd).
Qed.

Lemma question_end_range query e : question_end query = Some e -> HEADER_LEN < e <= len query.
Proof.
  unfold question_end. destruct (len query <? HEADER_LEN); [done|]. do 2 (destruct (_ || _); [done|]).
  destruct (qname_end query HEADER_LEN) as [n|] eqn:Hn; [|done].
  apply qname_walk_range in Hn; [|done]. destruct (Z.ltb_spec (len query) (n + 4)); [done|].
  destruct (negb _); [done|]. intros [= <-]. lia.
Qed.

(** A set response bit is refused. *)
Lemma question_end_response r : Z.testbit (byte_at r 2) 7 = true -> question_end r = None.
Proof.
  intros Hb. unfold question_end. destruct (_ <? _); [done|].
  assert (Z.land (byte_at r 2) 248 <> 0) as Hn.
  { intros Hz%(f_equal (fun z => Z.testbit z 7)). rewrite Z.land_spec, Hb in Hz. done. }
  by rewrite (proj2 (Z.eqb_neq _ _) Hn).
Qed.

(** A SERVFAIL reply cannot amplify and cannot loop. When a datagram is
    answered, the reply is as long as the header and the question it echoes --
    never longer than the query -- carries the query's transaction id and
    question, and is not itself a query: two such responders cannot answer each
    other. *)
Lemma servfail_spec query r :
  servfail query = Some r ->
  len r <= len query /\ slice 0 2 r = slice 0 2 query /\
  slice HEADER_LEN (len r) r = slice HEADER_LEN (len r) query /\ question_end r = None.
Proof.
  unfold servfail. destruct (question_end query) as [e|] eqn:He; [|done]. apply question_end_range in He as [H1 H2].
  intros [= <-]. assert (len (slice 0 2 query) = 2) as Hid by (rewrite len_slice; unfold HEADER_LEN in *; lia).
  assert (len (slice HEADER_LEN e query) = e - HEADER_LEN) as Hq by (rewrite len_slice; unfold HEADER_LEN in *; lia).
  set (x := Z.land (byte_at query 2) _). set (q := slice HEADER_LEN e query) in *.
  set (hd := to_be 1 (Z.lor 128 2) ++ to_be 2 1 ++ to_be 2 0 ++ to_be 2 0 ++ to_be 2 0).
  match goal with |- context [question_end ?d] => assert (d = slice 0 2 query ++ to_be 1 (Z.lor 128 x) ++ hd ++ q) as -> by done end.
  assert (len (slice 0 2 query ++ to_be 1 (Z.lor 128 x) ++ hd) = 12) as Hhd by (rewrite len_app, Hid; done).
  assert (len (slice 0 2 query ++ to_be 1 (Z.lor 128 x) ++ hd ++ q) = e) as Hr
    by (rewrite !app_assoc, len_app, <- app_assoc, Hhd, Hq; unfold HEADER_LEN; lia).
  rewrite Hr. split_and!; [done|..].
  - by apply slice_app_head.
  - assert (slice 0 2 query ++ to_be 1 (Z.lor 128 x) ++ hd ++ q =
      (slice 0 2 query ++ to_be 1 (Z.lor 128 x) ++ hd) ++ q ++ []) as -> by by rewrite app_nil_r, <- !app_assoc.
    apply slice_mid; rewrite Hhd; [done|]. fold q. rewrite Hq. unfold HEADER_LEN. lia.
  - apply question_end_response. unfold byte_at. rewrite slice_mid by (rewrite ?Hid; done).
    unfold of_be, to_be. rewrite rev_involutive, le_combine_split.
    rewrite Z.mod_pow2_bits_low, Z.lor_spec by lia. done.
Qed.

(** ** Witnesses *)

Definition ex_domain : bytes := String.list_byte_of_string "api.example.com"%string.
Import CounterRng.
Definition ex_query : bytes := fst (build_query ex_domain QTYPE_AAAA 7).

Lemma dns_query_roundtrip_witness : is_valid_imitation_host ex_domain = true /\ question_end ex_query = Some (len ex_query).
Proof. split; [vm_compute; reflexivity|]. apply (dns_query_roundtrip ex_domain QTYPE_AAAA 7). vm_compute. reflexivity. Defined.
