(* ===== verification/Stun.v ===== *)
(** STUN imitation, [noise/imitation/stun.rs]: the Binding Requests of the
    pre-handshake burst, the framing check [binding_request_len] the classifier
    and the responder share, the FINGERPRINT check, and the Binding Success
    reply.

    HMAC-SHA1 is the [ring] crate's and is a parameter; CRC-32 is modelled. The
    packets are written as the concatenation of the fields the code stores at
    consecutive offsets of a zeroed buffer.

    The theorems: a generated request is well framed, its FINGERPRINT is valid,
    and the reply to it is no larger, well formed and never itself a request. *)

From Stdlib Require Import String.
From S2P Require Import Prelude Rand Packet.

Local Open Scope Z_scope.
Local Open Scope list_scope.

Definition SOFTWARE_POOL : list bytes := map String.list_byte_of_string
  ["libnice 0.1.21"; "PJSIP 2.13.0"; "Chromium"; "Linphone/5.2"; "Mozilla"]%string.
Definition TOKEN_ALPHABET : bytes :=
  String.list_byte_of_string "ABCDEFGHIJKLMNOPQRSTUVWXYZabcdefghijklmnopqrstuvwxyz0123456789"%string.

Definition HEADER_LEN : Z := 20.
Definition MI_ATTR_LEN : Z := 4 + 20.
Definition FP_ATTR_LEN : Z := 4 + 4.
Definition MAGIC_COOKIE : bytes := to_be 4 554869826.
Definition BINDING_REQUEST : Z := 1.
Definition MAX_BINDING_REQUEST_LEN : Z := 1024.
Definition MAX_SOFTWARE_LEN : Z := 127.
Definition FINGERPRINT_XOR : Z := 1398035790.

Record BindingRequest := {
  br_software : bytes;
  br_username : bytes;
  br_priority : Z;
  br_ice_controlling : Z;
  br_trans_id : bytes;
  br_ice_pwd : bytes;
  br_with_use_candidate : bool;
}.

Definition padded (n : Z) : Z := Z.land (n + 3) (Z.lnot 3).

(** [write_tlv] and the value behind it, zero-padded. *)
Definition attr (attr_type : Z) (value : bytes) : bytes :=
  to_be 2 attr_type ++ to_be 2 (len value) ++ value ++ zeros (padded (len value) - len value).

(** One bit, one byte, all bytes of CRC-32. *)
Definition crc_bit (crc : Z) : Z :=
  let mask := wrap32 (- Z.land crc 1) in Z.lxor (Z.shiftr crc 1) (Z.land 3988292384 mask).
Definition crc_byte (crc : Z) (b : Init.Byte.byte) : Z := Nat.iter 8 crc_bit (Z.lxor crc (byte.unsigned b)).
Definition crc32_ieee (data : bytes) : Z := Z.lxor (fold_left crc_byte data u32_max) u32_max.

Definition fingerprint (data : bytes) : Z := Z.lxor (crc32_ieee data) FINGERPRINT_XOR.

Definition header (msg_type attrs_len : Z) (trans_id : bytes) : bytes :=
  to_be 2 msg_type ++ to_be 2 attrs_len ++ MAGIC_COOKIE ++ trans_id.

Section Request.
Context (hmac_sha1 : bytes -> bytes -> bytes).

Definition base_attrs (p : BindingRequest) : bytes :=
  attr 32802 (br_software p) ++ attr 6 (br_username p) ++ attr 36 (to_be 4 (br_priority p)) ++
  attr 32810 (to_be 8 (br_ice_controlling p)) ++ (if br_with_use_candidate p then attr 37 [] else []).

Definition build_binding_request (p : BindingRequest) : bytes :=
  let base_attrs_len := (4 + padded (len (br_software p))) + (4 + padded (len (br_username p))) + (4 + 4) + (4 + 8) +
                        (if br_with_use_candidate p then 4 else 0) in
  let with_mi := header BINDING_REQUEST (base_attrs_len + MI_ATTR_LEN) (br_trans_id p) ++ base_attrs p in
  let mi := hmac_sha1 (br_ice_pwd p) with_mi in
  let body := header BINDING_REQUEST (base_attrs_len + MI_ATTR_LEN + FP_ATTR_LEN) (br_trans_id p) ++
              base_attrs p ++ attr 8 mi in
  body ++ attr 32808 (to_be 4 (fingerprint body)).

Context {R : Type} `{RngCore R}.

Fixpoint token_chars (n : nat) (rng : R) : bytes * R :=
  match n with
  | O => ([], rng)
  | S n => let '(w, rng) := next_u32 rng in
           let '(rest, rng) := token_chars n rng in
           (slice (w mod 62) (w mod 62 + 1) TOKEN_ALPHABET ++ rest, rng)
  end.

Definition random_token (min_len max_len : Z) (rng : R) : bytes * R :=
  let span := max_len - min_len + 1 in
  let '(w, rng) := next_u32 rng in token_chars (Z.to_nat (min_len + w mod span)) rng.

Definition pick_software (rng : R) : bytes * R :=
  let '(w, rng) := next_u32 rng in
  (from_option id [] (zget SOFTWARE_POOL (w mod len SOFTWARE_POOL)), rng).

(** [software] is what [host_software] drew once for the process. *)
Definition stun_generate (software : bytes) (rng : R) : list bytes * R :=
  let '(t1, rng) := random_token 4 8 rng in
  let '(t2, rng) := random_token 4 8 rng in
  let username := t1 ++ String.list_byte_of_string ":"%string ++ t2 in
  let '(ice_pwd, rng) := random_token 22 22 rng in
  let '(priority, rng) := next_u32 rng in
  let '(hi, rng) := next_u32 rng in
  let '(lo, rng) := next_u32 rng in
  let ice_controlling := Z.lor (Z.shiftl hi 32) lo in
  let request trans_id with_use_candidate := build_binding_request {|
    br_software := software; br_username := username; br_priority := priority;
    br_ice_controlling := ice_controlling; br_trans_id := trans_id; br_ice_pwd := ice_pwd;
    br_with_use_candidate := with_use_candidate |} in
  let '(id1, rng) := fill_bytes 12 rng in
  let '(id2, rng) := fill_bytes 12 rng in
  ([request id1 false; request id2 true], rng).
End Request.

Definition binding_request_len (data : bytes) : option Z :=
  if (len data <? HEADER_LEN) || (len data >? MAX_BINDING_REQUEST_LEN) then None
  else if negb (be16 data 0 =? BINDING_REQUEST) then None
  else if negb (bool_decide (slice 4 8 data = MAGIC_COOKIE)) then None
  else
    let msg_len := be16 data 2 in
    if negb (msg_len mod 4 =? 0) || negb (len data =? HEADER_LEN + msg_len) then None else Some msg_len.

Inductive Fingerprint := FpAbsent | FpValid | FpInvalid.

(** The attribute walk; each step moves [off] forward, so the datagram's length
    is fuel enough ([fingerprint_walk_fuel]). *)
Fixpoint fingerprint_walk (fuel : nat) (msg : bytes) (off : Z) : Fingerprint :=
  match fuel with
  | O => FpInvalid
  | S fuel =>
      if negb (off + 4 <=? len msg) then FpAbsent else
      let attr_type := be16 msg off in
      let attr_len := be16 msg (off + 2) in
      if attr_type =? 32808 then
        if negb (attr_len =? 4) || negb (off + FP_ATTR_LEN =? len msg) then FpInvalid
        else if be32 msg (off + 4) =? fingerprint (ztake off msg) then FpValid else FpInvalid
      else
        let off := off + (padded attr_len + 4) in
        if off <=? len msg then fingerprint_walk fuel msg off else FpInvalid
  end.

Definition check_fingerprint (msg : bytes) : Fingerprint := fingerprint_walk (S (length msg)) msg HEADER_LEN.

(** An address with its UDP port. *)
Definition SocketAddr : Type := IpAddr * Z.

Definition xor_mapped_value (client : SocketAddr) (trans_id : bytes) : bytes :=
  let x_port := Z.lxor (snd client) (Z.shiftr (of_be MAGIC_COOKIE) 16) in
  match fst client with
  | V4 ip => to_be 1 0 ++ to_be 1 1 ++ to_be 2 x_port ++ xor_bytes ip MAGIC_COOKIE
  | V6 ip => to_be 1 0 ++ to_be 1 2 ++ to_be 2 x_port ++ xor_bytes ip (MAGIC_COOKIE ++ trans_id)
  end.

Definition xor_mapped_len (client : SocketAddr) : Z :=
  4 + match fst client with V4 _ => 8 | V6 _ => 20 end.

Definition binding_success (request : bytes) (client : SocketAddr) (software : bytes) : option bytes :=
  match binding_request_len request with
  | None => None
  | Some _ =>
      let trans_id := slice 8 20 request in
      let reply echo_fingerprint :=
        if len software >? MAX_SOFTWARE_LEN then None else
        let attrs_len := xor_mapped_len client + (4 + padded (len software)) +
                         (if echo_fingerprint : bool then FP_ATTR_LEN else 0) in
        let pkt := header 257 attrs_len trans_id ++ attr 32 (xor_mapped_value client trans_id) ++ attr 32802 software in
        Some (pkt ++ if echo_fingerprint then attr 32808 (to_be 4 (fingerprint pkt)) else []) in
      match check_fingerprint request with
      | FpAbsent => reply false
      | FpValid => reply true
      | FpInvalid => None
      end
  end.

(** ** CRC-32 stays in 32 bits *)

Lemma land_range k a b : 0 <= k -> 0 <= a < 2 ^ k -> 0 <= Z.land a b < 2 ^ k.
Proof.
  intros Hk Ha. apply bits_range; [done|apply Z.land_nonneg; lia|]. intros n Hn.
  by rewrite Z.land_spec, (bits_above k a).
Qed.

Lemma crc_bit_range crc : in_u32 crc -> in_u32 (crc_bit crc).
Proof.
  unfold in_u32, u32_max. intros Hc. unfold crc_bit. cbv zeta.
  enough (0 <= Z.lxor (Z.shiftr crc 1) (Z.land 3988292384 (wrap32 (- Z.land crc 1))) < 2 ^ 32) by lia.
  apply lxor_range; [done|..|by apply land_range].
  rewrite Z.shiftr_div_pow2 by done. change (2 ^ 1) with 2.
  split; [apply Z.div_pos; lia|apply Z.div_lt_upper_bound; lia].
Qed.

Lemma lxor_u32 c d : in_u32 c -> in_u32 d -> in_u32 (Z.lxor c d).
Proof. unfold in_u32, u32_max. intros Hc Hd. pose proof (lxor_range 32 c d). lia. Qed.

Lemma crc_byte_range crc b : in_u32 crc -> in_u32 (crc_byte crc b).
Proof.
  intros Hc. unfold crc_byte. pose proof (byte.unsigned_range b) as Hb.
  assert (in_u32 (Z.lxor crc (byte.unsigned b))) as Hx.
  { apply lxor_u32; [done|]. unfold in_u32, u32_max. lia. }
  revert Hx. generalize (Z.lxor crc (byte.unsigned b)). clear. intros z Hz.
  generalize 8%nat. induction n as [|n IH]; [done|]. by apply crc_bit_range.
Qed.

Lemma fold_left_inv {A B} (P : A -> Prop) (f : A -> B -> A) l a :
  P a -> (forall a b, P a -> P (f a b)) -> P (fold_left f l a).
Proof. intros Ha Hf. revert a Ha. induction l as [|b l IH]; intros a Ha; [done|]. by apply IH, Hf. Qed.

Lemma fingerprint_range data : in_u32 (fingerprint data).
Proof.
  assert (in_u32 u32_max) as Hm by (unfold in_u32, u32_max; lia).
  apply lxor_u32; [apply lxor_u32; [apply fold_left_inv; [exact Hm|intros; by apply crc_byte_range]|exact Hm]|].
  unfold in_u32, u32_max, FINGERPRINT_XOR. lia.
Qed.

(** ** Attributes *)

Lemma padded_spec n : 0 <= n -> n <= padded n < n + 4 /\ padded n mod 4 = 0.
Proof.
  intros Hn. unfold padded. change (Z.lnot 3) with (Z.lnot (Z.ones 2)).
  rewrite <- Z.ldiff_land, Z.ldiff_ones_r, Z.shiftl_mul_pow2, Z.shiftr_div_pow2 by lia.
  change (2 ^ 2) with 4. split; [|by apply Z_mod_mult].
  pose proof (Z.div_mod (n + 3) 4). pose proof (Z.mod_pos_bound (n + 3) 4). lia.
Qed.

Lemma len_attr ty v : len (attr ty v) = 4 + padded (len v).
Proof. unfold attr, zeros. pose proof (padded_spec (len v) (len_nonneg _)). len_lia. Qed.

Lemma be16_mid pre z rest off : off = len pre -> in_u16 z -> be16 (pre ++ to_be 2 z ++ rest) off = z.
Proof.
  intros -> Hz. unfold be16. rewrite slice_mid by (rewrite ?len_to_be; lia).
  apply of_be_to_be. unfold in_u16, u16_max in Hz. cbn. lia.
Qed.

Lemma fingerprint_walk_fuel fuel msg off :
  0 <= off <= len msg -> (length msg < fuel + Z.to_nat off)%nat ->
  forall fuel', (fuel <= fuel')%nat -> fingerprint_walk fuel' msg off = fingerprint_walk fuel msg off.
Proof.
  revert off. induction fuel as [|fuel IH]; intros off Ho Hf fuel' Hle; [unfold len in Ho; lia|].
  destruct fuel' as [|fuel']; [lia|]. cbn [fingerprint_walk].
  pose proof (of_be_bound (slice (off + 2) (off + 2 + 2) msg)) as [Hb _]. fold (be16 msg (off + 2)) in Hb.
  pose proof (padded_spec _ Hb). destruct (negb _); [done|]. destruct (_ =? 32808); [done|].
  destruct (Z.leb_spec (off + (padded (be16 msg (off + 2)) + 4)) (len msg)); [|done]. apply IH; lia.
Qed.

(** An attribute the walk steps over, and the FINGERPRINT it ends at. *)
Definition attr_ok (a : Z * bytes) : Prop := in_u16 (fst a) /\ fst a <> 32808 /\ in_u16 (len (snd a)).
Definition attrs (l : list (Z * bytes)) : bytes := flat_map (fun a => attr (fst a) (snd a)) l.

Lemma attr_fields pre ty v rest :
  in_u16 ty -> in_u16 (len v) ->
  be16 (pre ++ attr ty v ++ rest) (len pre) = ty /\ be16 (pre ++ attr ty v ++ rest) (len pre + 2) = len v.
Proof.
  intros Ht Hv. unfold attr. rewrite <- !app_assoc. split; [by apply be16_mid|].
  rewrite (app_assoc pre). apply be16_mid; [len_lia|done].
Qed.

Lemma fingerprint_walk_attrs fuel pre l :
  Forall attr_ok l -> (length l < fuel)%nat ->
  let body := pre ++ attrs l in
  fingerprint_walk fuel (body ++ attr 32808 (to_be 4 (fingerprint body))) (len pre) = FpValid.
Proof.
  revert fuel pre. induction l as [|[ty v] l IH]; intros [|fuel] pre Hl Hf body; cbn [length] in *; try lia; subst body.
  - cbn [attrs flat_map]. rewrite app_nil_r. set (fp := fingerprint pre).
    assert (len (attr 32808 (to_be 4 fp)) = 8) as Hla by (rewrite len_attr, len_to_be; done).
    destruct (attr_fields pre 32808 (to_be 4 fp) []) as [H1 H2]; [done|by rewrite len_to_be|].
    rewrite app_nil_r in H1, H2. cbn [fingerprint_walk]. rewrite len_app, Hla, H1, H2.
    rewrite (proj2 (Z.leb_le _ _)) by lia. rewrite len_to_be. unfold FP_ATTR_LEN. rewrite Z.eqb_refl. cbn [negb orb Z.eqb].
    replace (len pre + (4 + 4)) with (len pre + 8) by lia. rewrite Z.eqb_refl, ztake_app_exact by done. fold fp.
    assert (be32 (pre ++ attr 32808 (to_be 4 fp)) (len pre + 4) = fp) as ->; [|by rewrite !Z.eqb_refl].
    unfold be32, attr. rewrite (app_assoc pre), (app_assoc (pre ++ _)).
    rewrite slice_mid by (rewrite ?len_app, ?len_to_be; lia).
    apply of_be_to_be. pose proof (fingerprint_range pre) as Hr. fold fp in Hr. unfold in_u32, u32_max in Hr. cbn. lia.
  - apply List.Forall_cons_iff in Hl as [(Ht & Hn & Hv) Hl]. cbn [fst snd] in *.
    cbn [attrs flat_map fst snd]. fold (attrs l). rewrite !(app_assoc pre).
    specialize (IH fuel (pre ++ attr ty v) Hl ltac:(lia)). cbv zeta in IH.
    set (body := (pre ++ attr ty v) ++ attrs l) in *. set (fin := attr 32808 _) in *.
    destruct (attr_fields pre ty v (attrs l ++ fin) Ht Hv) as [H1 H2].
    assert (pre ++ attr ty v ++ attrs l ++ fin = body ++ fin) as Heq by (unfold body; by rewrite <- !app_assoc).
    rewrite Heq in H1, H2. pose proof (padded_spec (len v) (len_nonneg _)).
    assert (len (body ++ fin) = len pre + (4 + padded (len v)) + len (attrs l ++ fin)) as Hlen.
    { unfold body. rewrite <- app_assoc, len_app, len_app, len_attr. done. }
    pose proof (len_nonneg (attrs l ++ fin)). pose proof (len_nonneg v).
    cbn [fingerprint_walk]. rewrite H1, H2, Hlen. rewrite (proj2 (Z.leb_le _ _)) by lia. cbn [negb].
    rewrite (proj2 (Z.eqb_neq _ _) Hn), (proj2 (Z.leb_le _ _)) by lia.
    rewrite len_app, len_attr in IH. by replace (len pre + (padded (len v) + 4)) with (len pre + (4 + padded (len v))) by lia.
Qed.

(** ** Headers *)

Lemma header_fields ty al tid rest :
  in_u16 ty -> in_u16 al -> len tid = 12 ->
  let d := header ty al tid ++ rest in
  be16 d 0 = ty /\ be16 d 2 = al /\ slice 4 8 d = MAGIC_COOKIE /\ slice 8 20 d = tid /\ len d = HEADER_LEN + len rest.
Proof.
  intros Ht Ha Hl d. assert (len MAGIC_COOKIE = 4) as Hm by done.
  unfold d, header. rewrite <- !app_assoc. split_and!.
  - by apply (be16_mid []).
  - by apply be16_mid.
  - rewrite app_assoc. apply slice_mid; by rewrite ?Hm.
  - rewrite (app_assoc (to_be 2 ty)), (app_assoc (to_be 2 ty ++ _)). apply slice_mid; rewrite !len_app, !len_to_be, ?Hm, ?Hl; done.
  - rewrite !len_app, !len_to_be, Hm, Hl. unfold HEADER_LEN. lia.
Qed.

(** A well-framed request is one [binding_request_len] takes whole. *)
Lemma request_framed al tid rest :
  len tid = 12 -> len rest = al -> al mod 4 = 0 -> al <= MAX_BINDING_REQUEST_LEN - HEADER_LEN ->
  binding_request_len (header BINDING_REQUEST al tid ++ rest) = Some al.
Proof.
  intros Ht Hr Hm Hmax. pose proof (len_nonneg rest). unfold MAX_BINDING_REQUEST_LEN, HEADER_LEN in Hmax.
  destruct (header_fields BINDING_REQUEST al tid rest) as (H0 & H2 & H4 & _ & Hl);
    [done|unfold in_u16, u16_max; lia|done|].
  unfold binding_request_len. rewrite H0, H2, H4, Hl, Hr, bool_decide_eq_true_2, Hm by done.
  rewrite Z.gtb_ltb, !(proj2 (Z.ltb_ge _ _)) by (unfold HEADER_LEN, MAX_BINDING_REQUEST_LEN; lia).
  cbn [orb negb Z.eqb]. by rewrite !Z.eqb_refl.
Qed.

Record request_ok (p : BindingRequest) : Prop := {
  ro_software : len (br_software p) <= MAX_SOFTWARE_LEN;
  ro_username : len (br_username p) <= 508;
  ro_trans_id : len (br_trans_id p) = 12;
}.

Definition request_attrs (p : BindingRequest) : list (Z * bytes) :=
  [(32802, br_software p); (6, br_username p); (36, to_be 4 (br_priority p)); (32810, to_be 8 (br_ice_controlling p))] ++
  (if br_with_use_candidate p then [(37, [])] else []).

Lemma base_attrs_list p : base_attrs p = attrs (request_attrs p).
Proof. unfold base_attrs, request_attrs, attrs. rewrite flat_map_app. cbn. rewrite app_nil_r, <- !app_assoc. by destruct (br_with_use_candidate p). Qed.

Lemma request_attrs_ok p : request_ok p -> Forall attr_ok (request_attrs p).
Proof.
  intros [Hs Hu _]. unfold MAX_SOFTWARE_LEN in Hs. unfold request_attrs, attr_ok, in_u16, u16_max.
  pose proof (len_nonneg (br_software p)). pose proof (len_nonneg (br_username p)).
  destruct (br_with_use_candidate p); cbn [app];
    repeat (apply List.Forall_cons; [cbn [fst snd]; rewrite ?len_to_be; change (len []) with 0; lia|]); apply List.Forall_nil.
Qed.

Lemma build_request_spec hmac p :
  (forall k d, len (hmac k d) = 20) -> request_ok p ->
  let d := build_binding_request hmac p in
  binding_request_len d = Some (len d - HEADER_LEN) /\ check_fingerprint d = FpValid /\
  72 + padded (len (br_software p)) <= len d.
Proof.
  intros Hh [Hs Hu Ht] d. unfold MAX_SOFTWARE_LEN in Hs. unfold d, build_binding_request.
  set (bl := (4 + padded (len (br_software p))) + (4 + padded (len (br_username p))) + (4 + 4) + (4 + 8) + _).
  set (mi := hmac _ _). set (hd := header _ _ (br_trans_id p)).
  set (body := hd ++ base_attrs p ++ attr 8 mi). set (fp := attr 32808 _).
  assert (len mi = 20) as Hmi by apply Hh.
  pose proof (padded_spec (len (br_software p)) (len_nonneg _)). pose proof (padded_spec (len (br_username p)) (len_nonneg _)).
  assert (len (base_attrs p) = bl) as Hb.
  { unfold base_attrs. rewrite !len_app, !len_attr, !len_to_be. subst bl.
    change (padded (Z.of_nat 4)) with 4. change (padded (Z.of_nat 8)) with 8.
    destruct (br_with_use_candidate p); rewrite ?len_attr; [change (padded (len [])) with 0|change (len []) with 0]; cbv iota; lia. }
  assert (len hd = HEADER_LEN) as Hhd by (unfold hd, header; rewrite !len_app, !len_to_be, Ht; done).
  assert (len fp = 8) as Hfp by (unfold fp; rewrite len_attr, len_to_be; done).
  assert (len (attr 8 mi) = 24) as Hami by (rewrite len_attr, Hmi; done).
  assert (len (body ++ fp) = HEADER_LEN + (bl + 24 + 8)) as Hlen by (unfold body; rewrite !len_app, Hhd, Hb, Hami, Hfp; lia).
  assert (bl mod 4 = 0 /\ 28 + padded (len (br_software p)) <= bl <= 680) as [Hb4 Hbr].
  { subst bl. pose proof (len_nonneg (br_software p)). pose proof (len_nonneg (br_username p)).
    destruct (br_with_use_candidate p); cbv iota; (split; [Z.div_mod_to_equations|]); lia. }
  split_and!.
  - rewrite Hlen. unfold body. rewrite <- !app_assoc. unfold hd, MI_ATTR_LEN, FP_ATTR_LEN.
    replace (HEADER_LEN + (bl + 24 + 8) - HEADER_LEN) with (bl + (4 + 20) + (4 + 4)) by lia.
    apply request_framed; [done|rewrite !len_app, Hb, Hami, Hfp; lia| |unfold MAX_BINDING_REQUEST_LEN, HEADER_LEN; lia].
    Z.div_mod_to_equations. lia.
  - unfold check_fingerprint. rewrite <- Hhd.
    assert (body = hd ++ attrs (request_attrs p ++ [(8, mi)])) as Hbody.
    { unfold body, attrs. rewrite flat_map_app, base_attrs_list. cbn. by rewrite app_nil_r. }
    assert (20 <= length (body ++ fp))%nat as Hge.
    { pose proof (len_nonneg (br_software p)). unfold len in Hlen at 1. unfold HEADER_LEN in Hlen. lia. }
    unfold fp in Hge |- *. rewrite Hbody in Hge |- *. apply fingerprint_walk_attrs.
    + apply Forall_app_2; [by apply request_attrs_ok|]. apply List.Forall_cons; [|apply List.Forall_nil].
      unfold attr_ok, in_u16, u16_max. cbn [fst snd]. rewrite Hmi. lia.
    + assert (length (request_attrs p ++ [(8%Z, mi)]) <= 6)%nat; [|lia].
      unfold request_attrs. destruct (br_with_use_candidate p); cbn [length app]; lia.
  - rewrite Hlen. unfold HEADER_LEN. lia.
Qed.

(** ** Replies *)

Lemma binding_success_spec request n client software :
  binding_request_len request = Some n -> check_fingerprint request = FpValid ->
  ip_ok (fst client) -> len software <= MAX_SOFTWARE_LEN ->
  exists r, binding_success request client software = Some r /\
    len r = HEADER_LEN + (xor_mapped_len client + (4 + padded (len software)) + FP_ATTR_LEN) /\
    slice 8 20 r = slice 8 20 request /\ binding_request_len r = None /\ check_fingerprint r = FpValid.
Proof.
  intros Hr Hf Hip Hs. unfold binding_success. rewrite Hr, Hf, Z.gtb_ltb, (proj2 (Z.ltb_ge _ _)) by done.
  assert (20 <= len request) as Hlr.
  { unfold binding_request_len, HEADER_LEN in Hr. by destruct (Z.ltb_spec (len request) 20). }
  assert (len (slice 8 20 request) = 12) as Ht by (rewrite len_slice; lia).
  set (tid := slice 8 20 request) in *. set (xm := xor_mapped_value client tid).
  assert (4 + padded (len xm) = xor_mapped_len client /\ len xm <= 20) as [Hxm Hxl].
  { unfold xm, xor_mapped_value, xor_mapped_len. destruct (fst client) as [ip|ip]; cbn in Hip;
      rewrite !len_app, !len_to_be, len_xor_bytes, ?len_app, ?Ht, Hip; done. }
  pose proof (padded_spec (len software) (len_nonneg _)). unfold MAX_SOFTWARE_LEN in Hs.
  pose proof (len_nonneg software). pose proof (len_nonneg xm).
  set (al := xor_mapped_len client + _ + FP_ATTR_LEN). set (pkt := header 257 al tid ++ attr 32 xm ++ attr 32802 software).
  assert (in_u16 al) as Hal by (unfold al, in_u16, u16_max, FP_ATTR_LEN, xor_mapped_len; destruct (fst client); lia).
  set (fp := attr 32808 _). assert (len fp = 8) as Hfp by (unfold fp; rewrite len_attr, len_to_be; done).
  eexists. split; [done|]. fold fp.
  destruct (header_fields 257 al tid (attr 32 xm ++ attr 32802 software ++ fp)) as (Ht0 & _ & _ & Ht8 & Hlen); [done..|].
  assert (pkt ++ fp = header 257 al tid ++ attr 32 xm ++ attr 32802 software ++ fp) as Heq
    by (unfold pkt; by rewrite <- !app_assoc).
  split_and!.
  - rewrite Heq, Hlen, !len_app, !len_attr, Hfp, Hxm. unfold al, FP_ATTR_LEN. lia.
  - by rewrite Heq.
  - rewrite Heq. unfold binding_request_len. rewrite Ht0. by destruct (_ || _).
  - unfold check_fingerprint, fp. assert (len (header 257 al tid) = HEADER_LEN) as Hh
      by (unfold header; rewrite !len_app, !len_to_be, Ht; done). rewrite <- Hh.
    assert (pkt = header 257 al tid ++ attrs [(32, xm); (32802, software)]) as Hp
      by (unfold pkt; cbn [attrs flat_map fst snd]; by rewrite app_nil_r).
    rewrite Hp. apply fingerprint_walk_attrs; [|rewrite !length_app; unfold len, HEADER_LEN in Hh; cbn [length]; lia].
    unfold attr_ok, in_u16, u16_max. repeat (apply List.Forall_cons; [cbn [fst snd]; lia|]). apply List.Forall_nil.
Qed.

(** ** Generated requests *)

Section Generated.
Context (hmac_sha1 : bytes -> bytes -> bytes) (Hhmac : forall k d, len (hmac_sha1 k d) = 20).
Context {R : Type} `{RngCore R} `{!RngLaws R}.

Lemma len_token_chars n (rng : R) : len (fst (token_chars n rng)) = Z.of_nat n.
Proof.
  revert rng. induction n as [|n IH]; intros rng; cbn [token_chars]; [done|].
  destruct (next_u32 rng) as [w rng1]. specialize (IH rng1). destruct (token_chars n rng1) as [rest rng2]. cbn [fst] in *.
  rewrite len_app, IH, len_slice; [lia|pose proof (Z.mod_pos_bound w 62); lia|].
  change (len TOKEN_ALPHABET) with 62. pose proof (Z.mod_pos_bound w 62). lia.
Qed.

Lemma len_random_token lo hi (rng : R) : 0 <= lo <= hi -> lo <= len (fst (random_token lo hi rng)) <= hi.
Proof.
  intros Hr. unfold random_token. destruct (next_u32 rng) as [w rng1]. rewrite len_token_chars.
  pose proof (Z.mod_pos_bound w (hi - lo + 1)). lia.
Qed.

Lemma stun_generate_requests software (rng : R) :
  len software <= MAX_SOFTWARE_LEN ->
  Forall (fun d => exists p, d = build_binding_request hmac_sha1 p /\ request_ok p /\ br_software p = software)
    (fst (stun_generate hmac_sha1 software rng)).
Proof.
  intros Hs. unfold stun_generate.
  pose proof (len_random_token 4 8 rng ltac:(lia)) as H1. destruct (random_token 4 8 rng) as [t1 r1].
  pose proof (len_random_token 4 8 r1 ltac:(lia)) as H2. destruct (random_token 4 8 r1) as [t2 r2].
  destruct (random_token 22 22 r2) as [pwd r3], (next_u32 r3) as [pr r4], (next_u32 r4) as [hi r5], (next_u32 r5) as [lo r6].
  pose proof (len_fill_bytes 12 r6 ltac:(lia)) as H3. destruct (fill_bytes 12 r6) as [id1 r7].
  pose proof (len_fill_bytes 12 r7 ltac:(lia)) as H4. destruct (fill_bytes 12 r7) as [id2 r8]. cbn [fst] in *.
  repeat (apply List.Forall_cons; [eexists; split; [done|split; [|done]]; split; cbn [br_software br_username br_trans_id]; [done| |done]|]); [..|apply List.Forall_nil];
    rewrite !len_app; change (len (String.list_byte_of_string ":")) with 1; lia.
Qed.

(** The STUN cover traffic is what a STUN stack accepts. Every request the
    burst emits passes the framing check and carries a valid FINGERPRINT; the
    reply to it, announced with the same SOFTWARE, is built, echoes the
    transaction id, carries a valid FINGERPRINT of its own, is not larger than
    the request, and is not a request itself. *)
Theorem stun_exchange software client (rng : R) :
  len software <= MAX_SOFTWARE_LEN -> ip_ok (fst client) ->
  Forall (fun d => binding_request_len d = Some (len d - HEADER_LEN) /\ check_fingerprint d = FpValid /\
    exists r, binding_success d client software = Some r /\ len r <= len d /\ slice 8 20 r = slice 8 20 d /\
      check_fingerprint r = FpValid /\ binding_request_len r = None)
    (fst (stun_generate hmac_sha1 software rng)).
Proof.
  intros Hs Hip. eapply List.Forall_impl; [|by apply stun_generate_requests].
  intros d (p & -> & Hp & Hsw). destruct (build_request_spec hmac_sha1 p Hhmac Hp) as (Hl & Hf & Hsz).
  split; [done|]. split; [done|].
  destruct (binding_success_spec _ _ client software Hl Hf Hip Hs) as (r & Hr & Hlr & Hid & Hn & Hfr).
  exists r. split_and!; try done. rewrite Hlr. rewrite Hsw in Hsz. unfold HEADER_LEN, FP_ATTR_LEN, xor_mapped_len.
  destruct (fst client); lia.
Qed.
End Generated.

(** ** A witness *)

Import CounterRng.

Definition ex_hmac (key data : bytes) : bytes := to_le 20 (of_le key + 3 * of_le data).

Lemma stun_exchange_witness :
  Forall (fun d => exists r, binding_success d (V4 (to_be 4 3232235777), 51820) (from_option id [] (head SOFTWARE_POOL)) = Some r /\
    len r <= len d) (fst (stun_generate ex_hmac (from_option id [] (head SOFTWARE_POOL)) 11)).
Proof.
  eapply List.Forall_impl; [|apply (stun_exchange ex_hmac ltac:(intros; apply len_to_le)
    (from_option id [] (head SOFTWARE_POOL)) (V4 (to_be 4 3232235777), 51820) 11)].
  - intros d (_ & _ & r & Hr & Hl & _). exists r. by split.
  - vm_compute. congruence.
  - reflexivity.
Defined.
