(* ===== verification/Quic.v ===== *)
(** QUIC: variable-length integers ([noise/quic/varint.rs]) and the long-header
    parse and Version Negotiation reply of [noise/quic/version_negotiation.rs],
    which the probe classifier and the responder share.

    The theorems: the integer encoding round-trips at the announced size for
    every representable value; a Version Negotiation reply is smaller than any
    datagram that can elicit it, swaps the connection ids, never advertises the
    offered version and is never itself answered. *)

From S2P Require Import Prelude Rand.

(** ** Variable-length integers *)

Module Varint.
Definition size (value : Z) : outcome Z :=
  if value <? 2 ^ 6 then Ret 1
  else if value <? 2 ^ 14 then Ret 2
  else if value <? 2 ^ 30 then Ret 4
  else if value <? 2 ^ 62 then Ret 8 else Panic.

(** What [write] appends. *)
Definition write (value : Z) : outcome bytes :=
  if value <? 2 ^ 6 then Ret (to_be 1 value)
  else if value <? 2 ^ 14 then Ret (to_be 2 (Z.lor value (Z.shiftl 1 14)))
  else if value <? 2 ^ 30 then Ret (to_be 4 (Z.lor value (Z.shiftl 2 30)))
  else if value <? 2 ^ 62 then Ret (to_be 8 (Z.lor value (Z.shiftl 3 62))) else Panic.

Definition read (input : bytes) : option (Z * Z) :=
  match input with
  | [] => None
  | first :: _ =>
      let n := Z.shiftl 1 (Z.shiftr (byte.unsigned first) 6) in
      if len input <? n then None
      else Some (fold_left (fun value b => Z.lor (Z.shiftl value 8) (byte.unsigned b)) (slice 1 n input)
                   (Z.land (byte.unsigned first) 63), n)
  end.

Lemma fold_be l v : 0 <= v ->
  fold_left (fun value b => Z.lor (Z.shiftl value 8) (byte.unsigned b)) l v = v * 2 ^ (8 * len l) + of_be l.
Proof.
  revert v. induction l as [|b l IH]; intros v Hv; cbn [fold_left].
  - change (of_be []) with 0. change (len []) with 0. lia.
  - pose proof (byte.unsigned_range b) as Hb. rewrite lor_shiftl_add, IH by lia.
    unfold of_be. cbn [rev]. rewrite le_combine_app, length_rev, Z.lor_comm, lor_shiftl_add;
      [|lia|pose proof (le_combine_bound (rev l)) as Hl; rewrite length_rev in Hl; by rewrite Z.mul_comm].
    assert (le_combine [b] = byte.unsigned b) as -> by apply le_combine_1.
    rewrite len_cons, Z.mul_add_distr_l, Z.pow_add_r by (pose proof (len_nonneg l); lia).
    unfold len. rewrite (Z.mul_comm (Z.of_nat (length l)) 8). lia.
Qed.

(** The encoding of a tagged value: the two top bits of an [n]-byte word give
    [n] back. *)
Lemma read_tagged n t v rest :
  (1 <= n)%nat -> 0 <= t < 4 -> Z.of_nat n = 2 ^ t -> 0 <= v < 2 ^ (8 * Z.of_nat n - 2) ->
  read (to_be n (t * 2 ^ (8 * Z.of_nat n - 2) + v) ++ rest) = Some (v, Z.of_nat n).
Proof.
  intros Hn Ht Hnt Hv. set (m := Z.of_nat n) in *. set (z := t * 2 ^ (8 * m - 2) + v).
  assert (2 ^ (m * 8) = 4 * 2 ^ (8 * m - 2)) as Hp.
  { change 4 with (2 ^ 2). rewrite <- Z.pow_add_r by lia. f_equal. lia. }
  assert (0 <= z < 2 ^ (m * 8)) as Hz by (unfold z; nia).
  pose proof (len_to_be n z) as Hl. pose proof (of_be_to_be n z Hz) as Hb. fold m in Hl.
  destruct (to_be n z) as [|b l] eqn:E; [rewrite len_nil in Hl; lia|]. rewrite len_cons in Hl.
  assert (of_be (b :: l) = byte.unsigned b * 2 ^ (8 * len l) + of_be l) as Hsum.
  { pose proof (fold_be (b :: l) 0 ltac:(lia)) as Hf. cbn [fold_left] in Hf. rewrite Z.shiftl_0_l, Z.lor_0_l, fold_be in Hf;
      [lia|apply byte.unsigned_range]. }
  rewrite Hb in Hsum. pose proof (of_be_bound l) as Hol. pose proof (byte.unsigned_range b) as Hbr.
  assert (8 * len l = 8 * m - 8) as Hll by lia.
  assert (2 ^ (8 * m - 2) = 64 * 2 ^ (8 * m - 8)) as Hq.
  { change 64 with (2 ^ 6). rewrite <- Z.pow_add_r by lia. f_equal. lia. }
  rewrite Hll in *. set (K := 2 ^ (8 * m - 8)) in *. assert (0 < K) by (unfold K; apply Z.pow_pos_nonneg; lia).
  assert (Z.shiftr (byte.unsigned b) 6 = t /\ Z.land (byte.unsigned b) 63 = byte.unsigned b - 64 * t) as [Ht' Hlow].
  { assert (byte.unsigned b / 64 = t).
    { symmetry. apply Z.div_unique with (byte.unsigned b - 64 * t); [|lia]. left. unfold z in Hsum. rewrite Hq in *. nia. }
    rewrite Z.shiftr_div_pow2 by lia. split; [done|]. change 63 with (Z.ones 6). rewrite Z.land_ones, Z.mod_eq by lia.
    change (2 ^ 6) with 64. lia. }
  cbn [app read]. rewrite Ht', Z.shiftl_1_l, <- Hnt.
  rewrite (proj2 (Z.ltb_ge _ _)) by (rewrite len_cons, len_app; pose proof (len_nonneg rest); lia).
  assert (slice 1 m (b :: l ++ rest) = l) as ->.
  { change (b :: l ++ rest) with ([b] ++ l ++ rest). apply slice_mid; [done|rewrite len_cons, len_nil; lia]. }
  rewrite fold_be by (rewrite Hlow; unfold z in Hsum; rewrite Hq in *; nia). rewrite Hlow, Hll. fold K. f_equal. f_equal.
  unfold z in Hsum. rewrite Hq in Hsum. lia.
Qed.

(** QUIC integers round-trip. Every value below 2^62 is written, at exactly
    the size [size] announces, and read back whatever follows it; every other
    value is refused by both. *)
Theorem varint_roundtrip value rest :
  0 <= value ->
  (value < 2 ^ 62 -> exists b, write value = Ret b /\ size value = Ret (len b) /\ read (b ++ rest) = Some (value, len b)) /\
  (2 ^ 62 <= value -> write value = Panic /\ size value = Panic).
Proof.
  intros Hv. unfold write, size. split.
  - intros Hmax.
    destruct (Z.ltb_spec value (2 ^ 6)); [eexists; split; [done|]; split; [by rewrite len_to_be|]|].
    { rewrite len_to_be. apply (read_tagged 1 0 value rest); lia. }
    destruct (Z.ltb_spec value (2 ^ 14)); [eexists; split; [done|]; split; [by rewrite len_to_be|]|].
    { rewrite len_to_be, Z.lor_comm, lor_shiftl_add by lia. apply (read_tagged 2 1 value rest); lia. }
    destruct (Z.ltb_spec value (2 ^ 30)); [eexists; split; [done|]; split; [by rewrite len_to_be|]|].
    { rewrite len_to_be, Z.lor_comm, lor_shiftl_add by lia. apply (read_tagged 4 2 value rest); lia. }
    destruct (Z.ltb_spec value (2 ^ 62)); [|lia]. eexists. split; [done|]. split; [by rewrite len_to_be|].
    rewrite len_to_be, Z.lor_comm, lor_shiftl_add by lia. apply (read_tagged 8 3 value rest); lia.
  - intros Hmin. do 4 (rewrite (proj2 (Z.ltb_ge _ _)) by lia). done.
Qed.

Lemma varint_roundtrip_witness :
  exists b, write 15293 = Ret b /\ size 15293 = Ret (len b) /\ read (b ++ zeros 3) = Some (15293, len b).
Proof. apply (varint_roundtrip 15293 (zeros 3)); lia. Defined.
End Varint.

(** ** Version Negotiation *)

Definition RFC9000_MAX_CID_LEN : Z := 20.
Definition MIN_INITIAL_DATAGRAM : Z := 1200.
Definition REAL_SERVER_VERSIONS : list Z := [1; 1798521807].
Definition MAX_LEN : Z := 1 + 4 + 1 + 255 + 1 + 255 + 4 * len REAL_SERVER_VERSIONS.

Record LongHeader := {
  lh_version : Z;
  lh_dcid : bytes;
  lh_scid : bytes;
}.

Definition is_supported_by_real_servers (version : Z) : bool := existsb (Z.eqb version) REAL_SERVER_VERSIONS.

Definition is_known_version (version : Z) : bool :=
  if is_supported_by_real_servers version then true
  else if (Z.land version 4294967040 =? 4278190080) && negb (Z.land version 255 =? 0) then true
  else Z.land version 252645135 =? 168430090.

Definition parse_long_header (data : bytes) : option LongHeader :=
  if (len data <? 7) || negb (Z.land (byte_at data 0) 192 =? 192) then None else
  let version := be32 data 1 in
  if negb (is_known_version version) then None else
  let capped := is_supported_by_real_servers version in
  let dcid_len := byte_at data 5 in
  if capped && (dcid_len >? RFC9000_MAX_CID_LEN) then None else
  let dcid_end := 6 + dcid_len in
  match zget data dcid_end with
  | None => None
  | Some b =>
      let scid_len := byte.unsigned b in
      if capped && (scid_len >? RFC9000_MAX_CID_LEN) then None else
      let scid_start := dcid_end + 1 in
      let scid_end := scid_start + scid_len in
      if len data <? scid_end then None
      else Some {| lh_version := version; lh_dcid := slice 6 dcid_end data; lh_scid := slice scid_start scid_end data |}
  end.

Definition version_negotiation {R} `{RngCore R} (initial : bytes) (rng : R) : option bytes * R :=
  if len initial <? MIN_INITIAL_DATAGRAM then (None, rng) else
  match parse_long_header initial with
  | None => (None, rng)
  | Some hdr =>
      if is_supported_by_real_servers (lh_version hdr) then (None, rng) else
      let '(w, rng) := next_u32 rng in
      (Some (to_be 1 (Z.lor 192 (Z.land (w mod 256) 63)) ++ to_be 4 0 ++
             to_be 1 (len (lh_scid hdr)) ++ lh_scid hdr ++ to_be 1 (len (lh_dcid hdr)) ++ lh_dcid hdr ++
             flat_map (to_be 4) REAL_SERVER_VERSIONS), rng)
  end.

Lemma parse_long_header_spec data h :
  parse_long_header data = Some h ->
  is_known_version (lh_version h) = true /\ lh_version h = be32 data 1 /\
  len (lh_dcid h) <= 255 /\ len (lh_scid h) <= 255.
Proof.
  unfold parse_long_header. destruct (_ || _); [done|]. destruct (is_known_version _) eqn:Hk; [|done]. cbn [negb].
  set (v := be32 data 1) in *. destruct (_ && _); [done|].
  pose proof (of_be_bound (slice 5 (5 + 1) data)) as Hd. fold (byte_at data 5) in Hd.
  assert (0 <= byte_at data 5 <= 255) as Hd'.
  { assert (len (slice 5 (5 + 1) data) <= 1) by (unfold slice; len_lia).
    pose proof (Z.pow_le_mono_r 2 (8 * len (slice 5 (5 + 1) data)) 8). lia. }
  destruct (zget data _) as [b|] eqn:Hg; [|done]. apply zget_Some in Hg. pose proof (byte.unsigned_range b).
  destruct (_ && _); [done|]. destruct (Z.ltb_spec (len data) (6 + byte_at data 5 + 1 + byte.unsigned b)); [done|].
  intros [= <-]. cbn [lh_version lh_dcid lh_scid]. rewrite !len_slice by lia. split_and!; [done|done|lia|lia].
Qed.

(** A Version Negotiation reply attenuates, is addressed back, and cannot
    loop. A datagram is answered only at 1200 bytes or more and only when it
    offers a known version no real server supports; the reply fits [MAX_LEN],
    so it is less than half as long; it carries the client's connection ids
    swapped; the offered version is not among those it advertises; and it is
    not itself a long header the responder would parse. *)
Lemma version_negotiation_spec {R} `{RngCore R} initial (rng : R) r rng' :
  version_negotiation initial rng = (Some r, rng') ->
  MIN_INITIAL_DATAGRAM <= len initial /\ len r <= MAX_LEN /\ 2 * len r < len initial /\
  parse_long_header r = None /\
  exists h, parse_long_header initial = Some h /\
    slice 6 (6 + len (lh_scid h)) r = lh_scid h /\
    slice (7 + len (lh_scid h)) (7 + len (lh_scid h) + len (lh_dcid h)) r = lh_dcid h /\
    lh_version h ∉ REAL_SERVER_VERSIONS.
Proof.
  unfold version_negotiation. destruct (Z.ltb_spec (len initial) MIN_INITIAL_DATAGRAM) as [|Hmin]; [done|].
  destruct (parse_long_header initial) as [h|] eqn:Hp; [|done]. apply parse_long_header_spec in Hp as Hs.
  destruct Hs as (_ & _ & Hd & Hsc). destruct (is_supported_by_real_servers _) eqn:Hsup; [done|].
  destruct (next_u32 rng) as [w rng1]. set (b0 := to_be 1 (Z.lor 192 (Z.land (w mod 256) 63))). set (vs := flat_map _ _).
  set (s := lh_scid h) in *. set (d := lh_dcid h) in *. assert (len vs = 8) as Hvs by done. intros Heq.
  assert (r = b0 ++ to_be 4 0 ++ to_be 1 (len s) ++ s ++ to_be 1 (len d) ++ d ++ vs) as -> by congruence.
  assert (len (b0 ++ to_be 4 0 ++ to_be 1 (len s) ++ s ++ to_be 1 (len d) ++ d ++ vs) = 15 + len s + len d) as Hl
    by (rewrite !len_app, Hvs, !len_to_be; unfold b0; rewrite len_to_be; lia).
  rewrite Hl. unfold MIN_INITIAL_DATAGRAM, MAX_LEN in *. change (len REAL_SERVER_VERSIONS) with 2.
  split_and!; [done|lia|lia|..].
  - unfold parse_long_header. destruct (_ || _); [done|].
    assert (be32 (b0 ++ to_be 4 0 ++ to_be 1 (len s) ++ s ++ to_be 1 (len d) ++ d ++ vs) 1 = 0) as ->; [|done].
    unfold be32. by rewrite slice_mid.
  - exists h. fold s d. split_and!; [done|..].
    + rewrite !(app_assoc b0), (app_assoc (b0 ++ _)). apply slice_mid; unfold b0; rewrite !len_app, !len_to_be; lia.
    + rewrite !(app_assoc b0), (app_assoc (b0 ++ _)), (app_assoc _ s), (app_assoc _ (to_be 1 (len d))).
      apply slice_mid; unfold b0; rewrite !len_app, !len_to_be; lia.
    + intros Hin%list_elem_of_In. unfold is_supported_by_real_servers in Hsup. apply not_true_iff_false in Hsup.
      apply Hsup. apply existsb_exists. exists (lh_version h). split; [done|apply Z.eqb_refl].
Qed.
