(* ===== verification/Sip.v ===== *)
(** SIP imitation, [noise/imitation/sip.rs]: the INVITE and the CANCEL of the
    pre-handshake burst. Strings are their bytes; [dec] and [hex32] print
    integers as [format!] does. *)

From Stdlib Require Import String.
From S2P Require Import Prelude Rand.

Local Open Scope Z_scope.
Local Open Scope list_scope.

Definition str (s : string) : bytes := String.list_byte_of_string s.
Definition CRLF : bytes := [Byte.x0d; Byte.x0a].

(** ** Printing *)

Definition digit (n : Z) : Init.Byte.byte := byte.of_Z (48 + n).
Definition hex_lower (n : Z) : Init.Byte.byte := byte.of_Z (if n <? 10 then 48 + n else 87 + n).

(** Decimal digits; ten are enough for 32 bits ([dec_value]). *)
Fixpoint dec_digits (fuel : nat) (n : Z) (acc : bytes) : bytes :=
  match fuel with
  | O => acc
  | S fuel => let acc := digit (n mod 10) :: acc in
              if n / 10 =? 0 then acc else dec_digits fuel (n / 10) acc
  end.
Definition dec (n : Z) : bytes := dec_digits 10 n [].

(** The number a string of digits denotes. *)
Definition digits_value (ds : bytes) : Z := fold_left (fun v b => v * 10 + (byte.unsigned b - 48)) ds 0.

Lemma dec_digits_value fuel n acc :
  0 <= n < 10 ^ Z.of_nat fuel -> exists ds, dec_digits fuel n acc = ds ++ acc /\ digits_value ds = n.
Proof.
  revert n acc. induction fuel as [|fuel IH]; intros n acc Hn; cbn [dec_digits].
  - exists []. split; [done|]. unfold digits_value. cbn. cbn in Hn. lia.
  - pose proof (Z.mod_pos_bound n 10). pose proof (Z.div_mod n 10).
    assert (byte.unsigned (digit (n mod 10)) = 48 + n mod 10) as Hd.
    { unfold digit. rewrite byte.unsigned_of_Z. apply Z.mod_small. lia. }
    destruct (Z.eqb_spec (n / 10) 0).
    + exists [digit (n mod 10)]. split; [done|]. unfold digits_value. cbn [fold_left]. rewrite Hd. lia.
    + assert (0 <= n / 10 < 10 ^ Z.of_nat fuel) as Hq.
      { split; [apply Z.div_pos; lia|]. apply Z.div_lt_upper_bound; [lia|].
        rewrite Nat2Z.inj_succ, Z.pow_succ_r in Hn by lia. lia. }
      destruct (IH (n / 10) (digit (n mod 10) :: acc) Hq) as (ds & -> & Hv).
      exists (ds ++ [digit (n mod 10)]). split; [by rewrite <- app_assoc|].
      unfold digits_value in *. rewrite fold_left_app, Hv. cbn [fold_left]. rewrite Hd. lia.
Qed.

Lemma dec_value n : in_u32 n -> digits_value (dec n) = n.
Proof.
  unfold in_u32, u32_max. intros Hn. destruct (dec_digits_value 10 n []) as (ds & Hd & Hv); [cbn; lia|].
  unfold dec. by rewrite Hd, app_nil_r.
Qed.

(** [{:08x}] of a 32-bit integer. *)
Definition hex32 (v : Z) : bytes :=
  map (fun i => hex_lower (Z.shiftr v (4 * i) mod 16)) [7; 6; 5; 4; 3; 2; 1; 0].

(** ** The tables *)

Record SipProfile := {
  user_agent : bytes;
  allow : bytes;
  supported : bytes;
}.

Definition profile (a b c : string) : SipProfile := {| user_agent := str a; allow := str b; supported := str c |}.

Definition SIP_PROFILES : list SipProfile := [
  profile "PJSUA v2.13 Linux-6.1/x86_64"
    "INVITE, ACK, CANCEL, BYE, OPTIONS, INFO, PRACK, UPDATE, REFER, NOTIFY, MESSAGE, SUBSCRIBE"
    "100rel, timer, replaces, norefersub";
  profile "Linphone/5.2.5 (belle-sip/5.2.0)"
    "INVITE, ACK, BYE, CANCEL, OPTIONS, INFO, UPDATE, REFER, MESSAGE"
    "replaces, outbound, gruu, path, 100rel, timer";
  profile "Twinkle/1.10.2"
    "INVITE, ACK, CANCEL, OPTIONS, BYE, REFER, NOTIFY, MESSAGE, INFO"
    "replaces, timer, 100rel";
  profile "Zoiper rv2.10.16.6"
    "INVITE, ACK, CANCEL, BYE, OPTIONS, INFO, PRACK, UPDATE, REFER, NOTIFY"
    "timer, 100rel, replaces, norefersub";
  profile "MicroSIP/3.21.5"
    "ACK, BYE, CANCEL, INFO, INVITE, MESSAGE, NOTIFY, OPTIONS, REFER, SUBSCRIBE"
    "replaces, 100rel, timer";
  profile "Bria 5.6.4"
    "INVITE, ACK, CANCEL, BYE, OPTIONS, INFO, REFER, NOTIFY, MESSAGE"
    "replaces, timer, 100rel"].

Definition NO_PROFILE : SipProfile := {| user_agent := []; allow := []; supported := [] |}.

Definition NAMES : list bytes := map str [
  "alice"; "bob"; "carol"; "dave"; "eve"; "frank"; "grace"; "heidi"; "ivan"; "judy"; "trent";
  "victor"; "walter"; "olivia"; "noah"; "emma"; "sofia"; "lucas"; "mason"; "ava"; "support";
  "sales"; "billing"; "admin"; "noc"]%string.

Definition TLDS : list bytes := map str ["net"; "com"; "org"; "local"]%string.

(** [TABLE[i]] for an index taken modulo the table's length. *)
Definition pick {A} (d : A) (table : list A) (w : Z) : A := from_option id d (zget table (w mod len table)).

(** Capitalize the first character if it is an ASCII letter. *)
Definition display_name (name : bytes) : bytes :=
  match name with
  | b :: rest => if (97 <=? byte.unsigned b) && (byte.unsigned b <=? 122)
                 then byte.of_Z (byte.unsigned b - 32) :: rest else name
  | [] => []
  end.

(** The fields of one call, shared by the INVITE and the CANCEL. *)
Record SipCall := {
  sc_domain : bytes;
  sc_branch_id : bytes;
  sc_from_tag : bytes;
  sc_call_id : bytes;
  sc_cseq_num : Z;
  sc_via_host : bytes;
  sc_profile : SipProfile;
  sc_caller : bytes;
  sc_callee : bytes;
}.

Definition via_line (c : SipCall) : bytes :=
  str "Via: SIP/2.0/UDP " ++ sc_via_host c ++ str ";branch=" ++ sc_branch_id c ++ str ";rport" ++ CRLF.
Definition from_line (c : SipCall) : bytes :=
  str "From: " ++ display_name (sc_caller c) ++ str " <sip:" ++ sc_caller c ++ str "@" ++ sc_domain c ++
  str ">;tag=" ++ sc_from_tag c ++ CRLF.
Definition to_line (c : SipCall) : bytes :=
  str "To: " ++ display_name (sc_callee c) ++ str " <sip:" ++ sc_callee c ++ str "@" ++ sc_domain c ++ str ">" ++ CRLF.
Definition call_id_line (c : SipCall) : bytes := str "Call-ID: " ++ sc_call_id c ++ CRLF.

Definition invite (c : SipCall) : bytes :=
  str "INVITE sip:" ++ sc_callee c ++ str "@" ++ sc_domain c ++ str " SIP/2.0" ++ CRLF ++
  via_line c ++ str "Max-Forwards: 70" ++ CRLF ++ from_line c ++ to_line c ++ call_id_line c ++
  str "CSeq: " ++ dec (sc_cseq_num c) ++ str " INVITE" ++ CRLF ++
  str "Contact: <sip:" ++ sc_caller c ++ str "@" ++ sc_via_host c ++ str ">" ++ CRLF ++
  str "User-Agent: " ++ user_agent (sc_profile c) ++ CRLF ++
  str "Allow: " ++ allow (sc_profile c) ++ CRLF ++
  str "Supported: " ++ supported (sc_profile c) ++ CRLF ++
  str "Content-Length: 0" ++ CRLF ++ CRLF.

Definition cancel (c : SipCall) : bytes :=
  str "CANCEL sip:" ++ sc_callee c ++ str "@" ++ sc_domain c ++ str " SIP/2.0" ++ CRLF ++
  via_line c ++ str "Max-Forwards: 70" ++ CRLF ++ to_line c ++ from_line c ++ call_id_line c ++
  str "CSeq: " ++ dec (sc_cseq_num c) ++ str " CANCEL" ++ CRLF ++
  str "Content-Length: 0" ++ CRLF ++ CRLF.

Section Generate.
Context {R : Type} `{RngCore R}.

Definition octet (rng : R) : Z * R := let '(w, rng) := next_u32 rng in (2 + w mod 253, rng).

Definition rfc1918_literal (rng : R) : bytes * R :=
  let '(w, rng) := next_u32 rng in
  if w mod 3 =? 0 then
    let '(a, rng) := octet rng in let '(b, rng) := octet rng in let '(c, rng) := octet rng in
    (str "10." ++ dec a ++ str "." ++ dec b ++ str "." ++ dec c, rng)
  else if w mod 3 =? 1 then
    let '(a, rng) := next_u32 rng in let '(b, rng) := octet rng in let '(c, rng) := octet rng in
    (str "172." ++ dec (16 + a mod 16) ++ str "." ++ dec b ++ str "." ++ dec c, rng)
  else
    let '(b, rng) := octet rng in let '(c, rng) := octet rng in
    (str "192.168." ++ dec b ++ str "." ++ dec c, rng).

Definition random_sip_username (rng : R) : bytes * R :=
  let '(w, rng) := next_u32 rng in
  if w mod 4 =? 0 then let '(i, rng) := next_u32 rng in (pick [] NAMES i, rng)
  else if w mod 4 =? 1 then
    let '(i, rng) := next_u32 rng in let '(n, rng) := next_u32 rng in (pick [] NAMES i ++ dec (n mod 1000), rng)
  else if w mod 4 =? 2 then let '(n, rng) := next_u32 rng in (dec (100 + n mod 999900), rng)
  else let '(n, rng) := next_u32 rng in (hex32 n, rng).

Definition call_id_host (call_id_val : Z) (rng : R) : bytes * R :=
  let '(w, rng) := next_u32 rng in
  if w mod 3 =? 0 then rfc1918_literal rng
  else if w mod 3 =? 1 then
    let '(i, rng) := next_u32 rng in (hex32 (Z.lxor call_id_val 2779096485) ++ str "." ++ pick [] TLDS i, rng)
  else (hex32 (Z.lxor call_id_val 3284386755), rng).

Definition sip_call (domain : bytes) (rng : R) : SipCall * R :=
  let '(b1, rng) := next_u32 rng in
  let '(b2, rng) := next_u32 rng in
  let '(f1, rng) := next_u32 rng in
  let '(f2, rng) := next_u32 rng in
  let '(call_id_val, rng) := next_u32 rng in
  let '(call_id_val2, rng) := next_u32 rng in
  let '(cs, rng) := next_u32 rng in
  let '(host, rng) := call_id_host call_id_val rng in
  let '(via, rng) := rfc1918_literal rng in
  let '(port, rng) := next_u32 rng in
  let '(pf, rng) := next_u32 rng in
  let '(caller, rng) := random_sip_username rng in
  let '(callee, rng) := random_sip_username rng in
  let '(callee, rng) := if bool_decide (callee = caller) then random_sip_username rng else (callee, rng) in
  ({| sc_domain := domain;
      sc_branch_id := str "z9hG4bK" ++ hex32 b1 ++ hex32 b2;
      sc_from_tag := hex32 f1 ++ hex32 f2;
      sc_call_id := hex32 call_id_val ++ hex32 call_id_val2 ++ str "@" ++ host;
      sc_cseq_num := 10000 + cs mod 90000;
      sc_via_host := via ++ str ":" ++ dec (49152 + port mod 16384);
      sc_profile := pick NO_PROFILE SIP_PROFILES pf;
      sc_caller := caller;
      sc_callee := callee |}, rng).

Definition sip_generate (domain : bytes) (rng : R) : list bytes * R :=
  let '(c, rng) := sip_call domain rng in ([invite c; cancel c], rng).
End Generate.
