(* ===== verification/QuicProfiles.v ===== *)
(** The browser fingerprints of [noise/quic/profiles.rs]: what a ClientHello
    generated for a browser announces. *)

From Stdlib Require Import String.
From S2P Require Import Prelude Sip.

Local Open Scope Z_scope.
Local Open Scope list_scope.

Inductive BrowserProfile := Chrome | Firefox | Curl | Random.
#[export] Instance BrowserProfile_eq_dec : EqDecision BrowserProfile.
Proof. solve_decision. Defined.

Definition PQ_HYBRID_GROUP : Z := 0x11ec.

(** Extension types. *)
Module ext.
Definition SERVER_NAME : Z := 0x0000.
Definition STATUS_REQUEST : Z := 0x0005.
Definition SUPPORTED_GROUPS : Z := 0x000a.
Definition SIGNATURE_ALGORITHMS : Z := 0x000d.
Definition ALPN : Z := 0x0010.
Definition EXTENDED_MASTER_SECRET : Z := 0x0017.
Definition COMPRESS_CERTIFICATE : Z := 0x001b.
Definition RECORD_SIZE_LIMIT : Z := 0x001c.
Definition DELEGATED_CREDENTIALS : Z := 0x0022.
Definition SUPPORTED_VERSIONS : Z := 0x002b.
Definition PSK_KEY_EXCHANGE_MODES : Z := 0x002d.
Definition KEY_SHARE : Z := 0x0033.
Definition QUIC_TRANSPORT_PARAMS : Z := 0x0039.
Definition APPLICATION_SETTINGS : Z := 0x44cd.
Definition ENCRYPTED_CLIENT_HELLO : Z := 0xfe0d.
Definition RENEGOTIATION_INFO : Z := 0xff01.
End ext.
Import ext.

(** A QUIC transport parameter, by its identifier. *)
Inductive TpEntry :=
| TpVarint (id v : Z)
| TpBytes (id : Z) (b : bytes)
| TpVersionInfo (id : Z)
| TpScidSource (id : Z)
| TpGrease.

Definition CHROME_PACKET_SIZE : Z := 1250.
Definition FIREFOX_PACKET_SIZE : Z := 1252.

Record Profile := {
  name : BrowserProfile;
  cipher_suites : list Z;
  extensions_order : list Z;
  supported_groups : list Z;
  signature_algorithms : list Z;
  supported_versions : list Z;
  key_share_groups : list Z;
  alpn : list bytes;
  quic_tp : list TpEntry;
  include_unknown_17613 : bool;
  use_empty_session_id : bool;
  enable_ech : bool;
  randomize_extensions_order : bool;
  packet_target : Z;
}.

Definition chrome : Profile := {|
  name := Chrome;
  cipher_suites := [0x1301; 0x1302; 0x1303];
  extensions_order := [
    SERVER_NAME; SUPPORTED_GROUPS; SIGNATURE_ALGORITHMS; ALPN; COMPRESS_CERTIFICATE; SUPPORTED_VERSIONS;
    PSK_KEY_EXCHANGE_MODES; KEY_SHARE; QUIC_TRANSPORT_PARAMS; APPLICATION_SETTINGS; ENCRYPTED_CLIENT_HELLO];
  supported_groups := [PQ_HYBRID_GROUP; 0x001d; 0x0017; 0x0018];
  signature_algorithms := [0x0403; 0x0804; 0x0401; 0x0503; 0x0805; 0x0501; 0x0806; 0x0601; 0x0201];
  supported_versions := [0x0304];
  key_share_groups := [PQ_HYBRID_GROUP; 0x001d];
  alpn := [str "h3"];
  quic_tp := [
    TpVarint 0x04 15728640; TpBytes 0x0f []; TpVarint 0x07 6291456; TpVarint 0x05 6291456; TpVarint 0x03 1472;
    TpVarint 0x06 6291456; TpVarint 0x08 100; TpVarint 0x3127 18196; TpVarint 0x20 65536; TpVersionInfo 0x11;
    TpVarint 0x01 30000; TpVarint 0x09 103; TpGrease];
  include_unknown_17613 := true;
  use_empty_session_id := true;
  enable_ech := true;
  randomize_extensions_order := true;
  packet_target := CHROME_PACKET_SIZE;
|}.

Definition firefox : Profile := {|
  name := Firefox;
  cipher_suites := [0x1301; 0x1303; 0x1302];
  extensions_order := [
    SERVER_NAME; STATUS_REQUEST; DELEGATED_CREDENTIALS; SIGNATURE_ALGORITHMS; SUPPORTED_GROUPS; EXTENDED_MASTER_SECRET;
    RENEGOTIATION_INFO; RECORD_SIZE_LIMIT; PSK_KEY_EXCHANGE_MODES; COMPRESS_CERTIFICATE; KEY_SHARE; ALPN;
    SUPPORTED_VERSIONS; QUIC_TRANSPORT_PARAMS; ENCRYPTED_CLIENT_HELLO];
  supported_groups := [PQ_HYBRID_GROUP; 0x001d; 0x0017; 0x0018; 0x0019];
  signature_algorithms := [
    0x0403; 0x0503; 0x0603; 0x0203; 0x0804; 0x0805; 0x0806; 0x0401; 0x0501; 0x0601; 0x0201];
  supported_versions := [0x0304];
  key_share_groups := [PQ_HYBRID_GROUP; 0x001d; 0x0017];
  alpn := [str "h3"];
  quic_tp := [
    TpVarint 0x01 30000; TpVarint 0x04 25165824; TpVarint 0x05 12582912; TpVarint 0x06 1048576; TpVarint 0x07 1048576;
    TpVarint 0x08 100; TpVarint 0x09 100; TpVarint 0x0b 20; TpVarint 0x0e 8; TpScidSource 0x0f; TpVersionInfo 0x11;
    TpBytes 0xff02de1a (map byte.of_Z [0x43; 0xe8]); TpVarint 0x20 65535];
  include_unknown_17613 := false;
  use_empty_session_id := true;
  enable_ech := true;
  randomize_extensions_order := true;
  packet_target := FIREFOX_PACKET_SIZE;
|}.

Definition curl : Profile := {|
  name := Curl;
  cipher_suites := [0x1301; 0x1302; 0x1303];
  extensions_order := [
    SERVER_NAME; SUPPORTED_VERSIONS; SUPPORTED_GROUPS; SIGNATURE_ALGORITHMS; ALPN; KEY_SHARE; PSK_KEY_EXCHANGE_MODES;
    QUIC_TRANSPORT_PARAMS; COMPRESS_CERTIFICATE; ENCRYPTED_CLIENT_HELLO];
  supported_groups := [0x001d; 0x0017; 0x0018];
  signature_algorithms := [0x0403; 0x0503; 0x0603; 0x0804; 0x0805; 0x0806];
  supported_versions := [0x0304];
  key_share_groups := [0x001d];
  alpn := [str "h3"];
  quic_tp := [
    TpVarint 0x01 30000; TpVarint 0x03 1472; TpVarint 0x04 10485760; TpVarint 0x05 5242880; TpVarint 0x06 5242880;
    TpVarint 0x07 5242880; TpVarint 0x08 100; TpVarint 0x09 100; TpVarint 0x0e 2; TpBytes 0x0f []];
  include_unknown_17613 := false;
  use_empty_session_id := false;
  enable_ech := true;
  randomize_extensions_order := false;
  packet_target := CHROME_PACKET_SIZE;
|}.

(** [Random] is resolved by the generator before it gets here. *)
Definition for_browser (browser : BrowserProfile) : outcome Profile :=
  match browser with
  | Chrome => Ret chrome
  | Firefox => Ret firefox
  | Curl => Ret curl
  | Random => Panic
  end.
