(* ===== verification/QuicTls.v ===== *)
(** The ClientHello of [noise/quic/tls.rs].

    A generator of bytes draws from the random generator and may panic (a
    variable-length integer out of range, a swap out of bounds): [G]. What a
    function of the code appends to the buffer it is given is the value it
    returns here. *)

From S2P Require Import Prelude Rand Quic QuicProfiles.
Import ext.

Definition G (R A : Type) : Type := R -> outcome (A * R).
#[export] Instance G_ret {R} : MRet (G R) := fun A a r => Ret (a, r).
#[export] Instance G_bind {R} : MBind (G R) := fun A B k m r => let! (a, r) := m r in k a r.

Module Tls.
Section Tls.
Context {R : Type} `{RngCore R}.

Definition rand_u32 : G R Z := fun r => Ret (next_u32 r).
Definition rand_u64 : G R Z := fun r => Ret (next_u64 r).
Definition rand_bytes (n : Z) : G R bytes := fun r => Ret (fill_bytes n r).
(** A call that may panic and draws nothing. *)
Definition pure {A} (m : outcome A) : G R A := fun r => let! a := m in Ret (a, r).

Definition w8 (v : Z) : bytes := to_be 1 v.
Definition w16 (v : Z) : bytes := to_be 2 v.
Definition w24 (v : Z) : bytes := to_be 3 v.

(** [v.swap(i, j)] *)
Definition swap {A} (i j : nat) (v : list A) : outcome (list A) :=
  match v !! i, v !! j with
  | Some a, Some b => Ret (<[i := b]> (<[j := a]> v))
  | _, _ => Panic
  end.

(** [while i > 1 { i -= 1; let j = next_u64() % (i + 1); v.swap(i, j); }] *)
Fixpoint shuffle_from {A} (i : nat) (v : list A) : G R (list A) :=
  match i with
  | S (S _ as i) =>
      w ← rand_u64;
      v ← pure (swap i (Z.to_nat (w mod (Z.of_nat i + 1))) v);
      shuffle_from i v
  | _ => mret v
  end.
Definition shuffle {A} (v : list A) : G R (list A) := shuffle_from (length v) v.

Definition version_information : G R bytes :=
  r ← rand_u64;
  let g shift := w8 (Z.lor (Z.land (Z.shiftr r shift mod 2 ^ 8) 0xf0) 0x0a) in
  mret (to_be 4 1 ++ (g 0 ++ g 8 ++ g 16 ++ g 24) ++ to_be 4 1).

Definition grease_tp_id : G R Z :=
  w ← rand_u64;
  let id := Z.lor (Z.land w 0x03ffffffffffffff) (Z.shiftl 1 61) in
  let rem := id mod 31 in
  let id := if rem =? 27 then id else id + (27 + 31 - rem) mod 31 in
  mret (if Z.shiftl 1 62 <=? id then id - 31 else id).

(** ** Extensions *)

Definition ext_server_name (sni : bytes) : bytes :=
  let list := w8 0 ++ w16 (len sni) ++ sni in
  let sni_all := w16 (len list) ++ list in
  w16 SERVER_NAME ++ w16 (len sni_all) ++ sni_all.

Definition ext_alpn (protos : list bytes) : bytes :=
  let list := flat_map (fun s => if 255 <? len s then [] else w8 (len s) ++ s) protos in
  w16 ALPN ++ w16 (2 + len list) ++ w16 (len list) ++ list.

Definition ext_u16_list (ext_type : Z) (values : list Z) : bytes :=
  let list := flat_map w16 values in
  w16 ext_type ++ w16 (2 + len list) ++ w16 (len list) ++ list.

Definition ext_supported_versions (vers : list Z) : bytes :=
  let list := flat_map w16 vers in
  w16 SUPPORTED_VERSIONS ++ w16 (1 + len list) ++ w8 (len list) ++ list.

Definition ext_psk_ke_modes : bytes := w16 PSK_KEY_EXCHANGE_MODES ++ w16 2 ++ w8 1 ++ w8 1.

Definition ext_delegated_credentials : bytes :=
  let sig_algs := [0x0403; 0x0503; 0x0603; 0x0203] in
  let list := flat_map w16 sig_algs in
  w16 DELEGATED_CREDENTIALS ++ w16 (2 + len list) ++ w16 (len list) ++ list.

Definition key_share_size (group : Z) : Z :=
  if group =? 0x001d then 32 else if group =? 0x0017 then 65 else if group =? PQ_HYBRID_GROUP then 1216 else 32.

Fixpoint key_share_entries (groups : list Z) : G R bytes :=
  match groups with
  | [] => mret []
  | g :: groups =>
      let size := key_share_size g in
      key ← (if g =? 0x0017 then k ← rand_bytes (size - 1); mret (w8 4 ++ k) else rand_bytes size);
      entries ← key_share_entries groups;
      mret (w16 g ++ w16 size ++ key ++ entries)
  end.

Definition ext_key_share (groups : list Z) : G R bytes :=
  entries ← key_share_entries groups;
  mret (w16 KEY_SHARE ++ w16 (2 + len entries) ++ w16 (len entries) ++ entries).

Definition ext_application_settings : bytes :=
  w16 APPLICATION_SETTINGS ++ w16 5 ++ map byte.of_Z [0x00; 0x03; 0x02; 0x68; 0x33].

Definition ext_encrypted_client_hello : G R bytes :=
  config_id ← rand_u64;
  enc ← rand_bytes 32;
  w ← rand_u64;
  let payload_len := 150 + w mod 51 in
  payload ← rand_bytes payload_len;
  let ech := w8 0 ++ map byte.of_Z [0x00; 0x01; 0x00; 0x01] ++ w8 (Z.land config_id 0xff) ++
             w16 32 ++ enc ++ w16 payload_len ++ payload in
  mret (w16 ENCRYPTED_CLIENT_HELLO ++ w16 (len ech) ++ ech).

Definition ext_record_size_limit : bytes := w16 RECORD_SIZE_LIMIT ++ w16 2 ++ w16 16385.
Definition ext_reneg_info : bytes := w16 RENEGOTIATION_INFO ++ w16 1 ++ w8 0.
Definition ext_status_request : bytes := w16 STATUS_REQUEST ++ w16 5 ++ w8 1 ++ w16 0 ++ w16 0.
Definition ext_extended_master_secret : bytes := w16 EXTENDED_MASTER_SECRET ++ w16 0.

Definition ext_compress_cert (firefox_mode : bool) : bytes :=
  w16 COMPRESS_CERTIFICATE ++
  if firefox_mode then w16 7 ++ w8 6 ++ w16 1 ++ w16 3 ++ w16 2 else w16 3 ++ w8 2 ++ w16 2.

(** A transport parameter as its identifier and value. *)
Definition resolve_tp (scid : bytes) (entry : TpEntry) : G R (Z * bytes) :=
  match entry with
  | TpVarint id v => vi ← pure (Varint.write v); mret (id, vi)
  | TpBytes id b => mret (id, b)
  | TpVersionInfo id => v ← version_information; mret (id, v)
  | TpScidSource id => mret (id, scid)
  | TpGrease => id ← grease_tp_id; v ← rand_bytes 6; mret (id, v)
  end.

Fixpoint resolve_tps (scid : bytes) (entries : list TpEntry) : G R (list (Z * bytes)) :=
  match entries with
  | [] => mret []
  | e :: entries => p ← resolve_tp scid e; ps ← resolve_tps scid entries; mret (p :: ps)
  end.

Fixpoint tp_body (params : list (Z * bytes)) : outcome bytes :=
  match params with
  | [] => Ret []
  | (id, value) :: params =>
      let! a := Varint.write id in
      let! b := Varint.write (len value) in
      let! rest := tp_body params in
      Ret (a ++ b ++ value ++ rest)
  end.

Definition ext_quic_tp (profile : Profile) (scid : bytes) : G R bytes :=
  params ← resolve_tps scid (quic_tp profile);
  params ← shuffle params;
  body ← pure (tp_body params);
  mret (w16 QUIC_TRANSPORT_PARAMS ++ w16 (len body) ++ body).

Definition build_extension (t : Z) (profile : Profile) (sni scid : bytes) : G R bytes :=
  if t =? SERVER_NAME then mret (ext_server_name sni)
  else if t =? ALPN then mret (ext_alpn (alpn profile))
  else if t =? SUPPORTED_GROUPS then mret (ext_u16_list SUPPORTED_GROUPS (supported_groups profile))
  else if t =? SIGNATURE_ALGORITHMS then mret (ext_u16_list SIGNATURE_ALGORITHMS (signature_algorithms profile))
  else if t =? SUPPORTED_VERSIONS then mret (ext_supported_versions (supported_versions profile))
  else if t =? PSK_KEY_EXCHANGE_MODES then mret ext_psk_ke_modes
  else if t =? KEY_SHARE then ext_key_share (key_share_groups profile)
  else if t =? QUIC_TRANSPORT_PARAMS then ext_quic_tp profile scid
  else if t =? COMPRESS_CERTIFICATE then mret (ext_compress_cert (bool_decide (name profile = Firefox)))
  else if t =? RECORD_SIZE_LIMIT then mret ext_record_size_limit
  else if t =? RENEGOTIATION_INFO then mret ext_reneg_info
  else if t =? STATUS_REQUEST then mret ext_status_request
  else if t =? EXTENDED_MASTER_SECRET then mret ext_extended_master_secret
  else if t =? DELEGATED_CREDENTIALS then mret ext_delegated_credentials
  else if t =? APPLICATION_SETTINGS then mret (if include_unknown_17613 profile then ext_application_settings else [])
  else if (t =? ENCRYPTED_CLIENT_HELLO) && enable_ech profile then ext_encrypted_client_hello
  else mret [].

Fixpoint build_extensions (order : list Z) (profile : Profile) (sni scid : bytes) : G R bytes :=
  match order with
  | [] => mret []
  | t :: order => e ← build_extension t profile sni scid; es ← build_extensions order profile sni scid; mret (e ++ es)
  end.

Definition generate_client_hello (profile : Profile) (sni scid : bytes) : G R bytes :=
  client_random ← rand_bytes 32;
  session_id ← (if use_empty_session_id profile then mret (w8 0) else sid ← rand_bytes 32; mret (w8 0x20 ++ sid));
  let ch := w16 0x0303 ++ client_random ++ session_id ++
            w16 (len (cipher_suites profile) * 2) ++ flat_map w16 (cipher_suites profile) ++ w8 1 ++ w8 0 in
  let ext_len_pos := len ch in
  let ch := ch ++ w16 0 in
  let ext_start := len ch in
  order ← (if randomize_extensions_order profile then shuffle (extensions_order profile) else mret (extensions_order profile));
  extensions ← build_extensions order profile sni scid;
  let ch := ch ++ extensions in
  let ext_total := len ch - ext_start in
  let ch := ztake ext_len_pos ch ++ w16 ext_total ++ zdrop (ext_len_pos + 2) ch in
  mret (w8 1 ++ w24 (len ch) ++ ch).
End Tls.
End Tls.

Lemma len_w8 v : len (Tls.w8 v) = 1.
Proof. done. Qed.
Lemma len_w16 v : len (Tls.w16 v) = 2.
Proof. done. Qed.
Lemma len_w24 v : len (Tls.w24 v) = 3.
Proof. done. Qed.
#[export] Hint Rewrite len_w8 len_w16 len_w24 : len.

(** ** Weakest preconditions *)

Section Wp.
Context {R : Type} `{RngCore R}.
Import Tls.

(** [m] does not panic, whatever the generator, and its value satisfies [Q]. *)
Definition gwp {A} (m : G R A) (Q : A -> Prop) : Prop := forall r, safely (m r) (fun x => Q (fst x)).

Lemma gwp_ret {A} (a : A) (Q : A -> Prop) : Q a -> gwp (mret a) Q.
Proof. by intros HQ r. Qed.
Lemma gwp_bind {A B} (m : G R A) (k : A -> G R B) (Q : B -> Prop) : gwp m (fun a => gwp (k a) Q) -> gwp (m ≫= k) Q.
Proof.
  intros Hm r. specialize (Hm r). unfold mbind, G_bind. destruct (m r) as [[a r']|]; cbn in *; [apply Hm|done].
Qed.
Lemma gwp_mono {A} (m : G R A) (P Q : A -> Prop) : gwp m P -> (forall a, P a -> Q a) -> gwp m Q.
Proof. intros Hm HPQ r. eapply safely_mono; [apply Hm|]. intros [a r'] HP. by apply HPQ. Qed.
Lemma gwp_pure {A} (m : outcome A) (Q : A -> Prop) : safely m Q -> gwp (pure m) Q.
Proof. intros HQ r. unfold pure. by destruct m. Qed.

Context `{!RngLaws R}.
Lemma gwp_u32 (Q : Z -> Prop) : (forall w, 0 <= w < 2 ^ 32 -> Q w) -> gwp rand_u32 Q.
Proof. intros HQ r. apply HQ, next_u32_range. Qed.
Lemma gwp_u64 (Q : Z -> Prop) : (forall w, 0 <= w < 2 ^ 64 -> Q w) -> gwp rand_u64 Q.
Proof. intros HQ r. apply HQ, next_u64_range. Qed.
Lemma gwp_bytes n (Q : bytes -> Prop) : 0 <= n -> (forall b, len b = n -> Q b) -> gwp (rand_bytes n) Q.
Proof. intros Hn HQ r. apply HQ. by apply len_fill_bytes. Qed.

(** ** Shuffling *)

Lemma swap_Permutation {A} (v : list A) i j a b :
  v !! i = Some a -> v !! j = Some b -> <[i := b]> (<[j := a]> v) ≡ₚ v.
Proof.
  intros Hi Hj. destruct (decide (i = j)) as [->|Hne].
  { rewrite Hi in Hj. injection Hj as ->. by rewrite !list_insert_id by (rewrite ?list_insert_id by done; done). }
  apply Permutation_inj. rewrite !length_insert. split; [done|].
  exists (fun k => if decide (k = i) then j else if decide (k = j) then i else k). split.
  - intros x y. repeat case_decide; congruence.
  - intros k. pose proof (lookup_lt_Some _ _ _ Hi). pose proof (lookup_lt_Some _ _ _ Hj).
    repeat case_decide; subst.
    + rewrite list_lookup_insert_eq; [done|by rewrite length_insert].
    + rewrite list_lookup_insert_ne, list_lookup_insert_eq by done. done.
    + by rewrite !list_lookup_insert_ne by done.
Qed.

Lemma shuffle_from_spec {A} i (v : list A) : (i <= length v)%nat -> gwp (shuffle_from i v) (fun v' => v' ≡ₚ v).
Proof.
  revert v. induction i as [|i IH]; intros v Hi; [by apply gwp_ret|]. destruct i as [|i]; [by apply gwp_ret|].
  change (shuffle_from (S (S i)) v) with
    (w ← rand_u64; v ← pure (swap (S i) (Z.to_nat (w mod (Z.of_nat (S i) + 1))) v); shuffle_from (S i) v).
  apply gwp_bind, gwp_u64. intros w Hw. apply gwp_bind, gwp_pure. unfold swap.
  pose proof (Z.mod_pos_bound w (Z.of_nat (S i) + 1)) as Hm.
  destruct (lookup_lt_is_Some_2 v (S i)) as [a Ha]; [lia|].
  destruct (lookup_lt_is_Some_2 v (Z.to_nat (w mod (Z.of_nat (S i) + 1)))) as [b Hb]; [lia|].
  rewrite Ha, Hb. pose proof (swap_Permutation v _ _ a b Ha Hb) as Hp. cbn [safely]. eapply gwp_mono; [apply IH|].
  - rewrite !length_insert. lia.
  - intros v' Hv'. by rewrite Hv'.
Qed.

(** The shuffle gives back a permutation of what it is given. *)
Lemma shuffle_spec {A} (v : list A) : gwp (shuffle v) (fun v' => v' ≡ₚ v).
Proof. by apply shuffle_from_spec. Qed.

(** ** GREASE *)

Lemma grease_tp_id_spec : gwp grease_tp_id (fun id => 2 ^ 30 <= id < 2 ^ 62 /\ id mod 31 = 27).
Proof.
  apply gwp_bind, gwp_u64. intros w Hw. apply gwp_ret.
  change 0x03ffffffffffffff with (Z.ones 58). rewrite Z.land_ones by lia. pose proof (Z.mod_pos_bound w (2 ^ 58) ltac:(lia)) as Hb.
  rewrite Z.lor_comm, lor_shiftl_add by lia. set (id := 1 * 2 ^ 61 + w mod 2 ^ 58). pose proof (Z.mod_pos_bound id 31 ltac:(lia)) as Hm.
  pose proof (Z.mod_pos_bound (27 + 31 - id mod 31) 31 ltac:(lia)) as Hk. pose proof (Z.div_mod id 31 ltac:(lia)) as Hd.
  pose proof (Z.div_mod (27 + 31 - id mod 31) 31 ltac:(lia)) as He.
  assert (2 ^ 61 <= id < 2 ^ 61 + 2 ^ 58) by (unfold id; lia). clearbody id. change (Z.shiftl 1 62) with (2 ^ 62).
  rewrite (proj2 (Z.leb_gt _ _)) by (destruct (_ =? _); lia). destruct (Z.eqb_spec (id mod 31) 27); [lia|]. split; [lia|].
  symmetry. apply Z.mod_unique with (id / 31 + (1 - (27 + 31 - id mod 31) / 31)); lia.
Qed.

Lemma version_information_len : gwp version_information (fun v => len v = 12).
Proof. apply gwp_bind, gwp_u64. intros w _. apply gwp_ret. unfold w8. by autorewrite with len. Qed.
End Wp.
