(* ===== verification/QuicInitial.v ===== *)
(** One protected QUIC Initial: the key schedule of [noise/quic/crypto.rs] and
    the packet of [noise/quic/initial.rs].

    HMAC-SHA256, AES-128-GCM ([ring]) and the AES block ([aes]) are the class
    [QuicCrypto]; [QuicCryptoLaws] has the lengths of what they return and that
    opening undoes sealing. *)

From Stdlib Require Import String.
From S2P Require Import Prelude Quic Sip.

Local Open Scope Z_scope.
Local Open Scope list_scope.

Class QuicCrypto := {
  (** Key and message. *)
  hmac_sha256 : bytes -> bytes -> bytes;
  (** Key, nonce, associated data and plaintext or ciphertext. *)
  aes_gcm_seal : bytes -> bytes -> bytes -> bytes -> bytes;
  aes_gcm_open : bytes -> bytes -> bytes -> bytes -> option bytes;
  (** Key and block. *)
  aes_block : bytes -> bytes -> bytes;
}.

Class QuicCryptoLaws `{QuicCrypto} : Prop := {
  len_hmac_sha256 k d : len (hmac_sha256 k d) = 32;
  len_aes_gcm_seal k n a p : len (aes_gcm_seal k n a p) = len p + 16;
  aes_gcm_open_seal k n a p : len k = 16 -> len n = 12 -> aes_gcm_open k n a (aes_gcm_seal k n a p) = Some p;
  len_aes_block k b : len b = 16 -> len (aes_block k b) = 16;
}.

Definition INITIAL_SALT_V1 : bytes := map byte.of_Z [
  0x38; 0x76; 0x2c; 0xf7; 0xf5; 0x59; 0x34; 0xb3; 0x4d; 0x17; 0x9a; 0xe6; 0xa4; 0xc8; 0x0c; 0xad;
  0xcc; 0xbb; 0x7f; 0x0a].
Definition AES_KEY_LEN : Z := 16.
Definition AES_GCM_IV_LEN : Z := 12.
Definition AES_GCM_TAG_LEN : Z := 16.

Record InitialKeys := {
  ik_key : bytes;
  ik_iv : bytes;
  ik_hp : bytes;
}.

(** [l[lo..hi]], which panics out of range. *)
Definition range {A} (lo hi : Z) (l : list A) : outcome (list A) :=
  if (0 <=? lo) && (lo <=? hi) && (hi <=? len l) then Ret (slice lo hi l) else Panic.
(** [l[i] ^= b] *)
Definition xor_at (l : bytes) (i : Z) (b : Init.Byte.byte) : outcome bytes :=
  match zget l i with Some x => Ret (zset l i (byte.xor x b)) | None => Panic end.
(** [for (i, b) in bs.iter().enumerate() { l[off + i] ^= b }] *)
Fixpoint xor_from (l : bytes) (off : Z) (bs : bytes) : outcome bytes :=
  match bs with
  | [] => Ret l
  | b :: bs => let! l := xor_at l off b in xor_from l (off + 1) bs
  end.

Section Keys.
Context `{QuicCrypto}.

Definition hkdf_extract (salt ikm : bytes) : bytes := hmac_sha256 salt ikm.

(** [while out.len() < len]: each round appends a block, so [len] rounds are
    enough; the counter wraps. *)
Fixpoint hkdf_blocks (rounds : nat) (prk info : bytes) (n : Z) (out prev : bytes) (counter : Z) : bytes :=
  match rounds with
  | O => out
  | S rounds =>
      if len out <? n then
        let block := hmac_sha256 prk (prev ++ info ++ to_be 1 counter) in
        hkdf_blocks rounds prk info n (out ++ block) block (wrap8 (counter + 1))
      else out
  end.
Definition hkdf_expand (prk info : bytes) (n : Z) : bytes := ztake n (hkdf_blocks (Z.to_nat n) prk info n [] [] 1).

Definition hkdf_expand_label (secret label : bytes) (n : Z) : bytes :=
  let prefix := str "tls13 " in
  let label_len := len prefix + len label in
  hkdf_expand secret (to_be 2 n ++ to_be 1 label_len ++ prefix ++ label ++ to_be 1 0) n.

Definition derive_initial_keys (salt dcid : bytes) : InitialKeys :=
  let initial_secret := hkdf_extract salt dcid in
  let client_secret := hkdf_expand_label initial_secret (str "client in") 32 in
  {| ik_key := hkdf_expand_label client_secret (str "quic key") AES_KEY_LEN;
     ik_iv := hkdf_expand_label client_secret (str "quic iv") AES_GCM_IV_LEN;
     ik_hp := hkdf_expand_label client_secret (str "quic hp") AES_KEY_LEN |}.

(** The packet number in the low bytes of the IV. *)
Definition initial_nonce (iv pn : bytes) : outcome bytes := xor_from iv (AES_GCM_IV_LEN - len pn) pn.

Definition aes_128_gcm_seal (key iv pn aad plaintext : bytes) : outcome bytes :=
  let! nonce := initial_nonce iv pn in Ret (aes_gcm_seal key nonce aad plaintext).
End Keys.

Definition VERSION_V1 : Z := 1.
Definition FRAME_CRYPTO : Z := 6.

Record InitialParams := {
  dcid : bytes;
  scid : bytes;
  packet_number : Z;
  pn_len : Z;
  crypto_offset : Z;
  crypto_payload : bytes;
  target_size : Z;
}.

Definition fixed_header_len (dcid scid : Z) : Z := 1 + 4 + 1 + dcid + 1 + scid + 1.

Definition header_len (dcid scid pn_len payload_len : Z) : outcome Z :=
  let len_field := pn_len + payload_len + AES_GCM_TAG_LEN in
  let! n := Varint.size len_field in Ret (fixed_header_len dcid scid + n + pn_len).

Fixpoint padding_loop (rounds : nat) (dcid scid pn_len base_payload target_size padding : Z) : outcome Z :=
  match rounds with
  | O => Ret padding
  | S rounds =>
      let payload := base_payload + padding in
      let! header := header_len dcid scid pn_len payload in
      let total := header + payload + AES_GCM_TAG_LEN in
      match total ?= target_size with
      | Eq => Ret padding
      | Lt => padding_loop rounds dcid scid pn_len base_payload target_size (padding + (target_size - total))
      | Gt =>
          let next := sat_sub padding (total - target_size) in
          if next =? padding then Ret padding
          else padding_loop rounds dcid scid pn_len base_payload target_size next
      end
  end.
Definition padding_for_target (dcid scid pn_len base_payload target_size : Z) : outcome Z :=
  padding_loop 8 dcid scid pn_len base_payload target_size 0.

Definition encode_pn (packet_number pn_len : Z) : bytes :=
  rev (map (fun i => byte.of_Z (Z.shiftr packet_number (8 * Z.of_nat i))) (seq 0 (Z.to_nat pn_len))).

Section Build.
Context `{QuicCrypto}.

Definition apply_header_protection (packet hp_key : bytes) (pn_offset pn_len : Z) : outcome bytes :=
  let sample_offset := pn_offset + 4 in
  let! sample := range sample_offset (sample_offset + 16) packet in
  let mask := aes_block hp_key sample in
  let! first := range 0 1 mask in
  let! packet := xor_at packet 0 (byte.and (nth 0 first Byte.x00) Byte.x0f) in
  let! rest := range 1 (1 + pn_len) mask in
  xor_from packet pn_offset rest.

Definition crypto_frame (offset : Z) (payload : bytes) : outcome bytes :=
  let! o := Varint.write offset in
  let! l := Varint.write (len payload) in
  Ret (to_be 1 FRAME_CRYPTO ++ o ++ l ++ payload).

Definition build_client_initial (p : InitialParams) : outcome bytes :=
  let n := Z.min 4 (Z.max 1 (pn_len p)) in
  let keys := derive_initial_keys INITIAL_SALT_V1 (dcid p) in
  let! frame := crypto_frame (crypto_offset p) (crypto_payload p) in
  let! padding := padding_for_target (len (dcid p)) (len (scid p)) n (len frame) (target_size p) in
  let payload := frame ++ zeros padding in
  let pn_bytes := encode_pn (packet_number p) n in
  let! length := Varint.write (n + len payload + AES_GCM_TAG_LEN) in
  let header :=
    to_be 1 (Z.lor 0xc0 (n - 1)) ++ to_be 4 VERSION_V1 ++
    to_be 1 (len (dcid p)) ++ dcid p ++ to_be 1 (len (scid p)) ++ scid p ++ to_be 1 0 ++ length in
  let pn_offset := len header in
  let header := header ++ pn_bytes in
  let! ciphertext := aes_128_gcm_seal (ik_key keys) (ik_iv keys) pn_bytes header payload in
  apply_header_protection (header ++ ciphertext) (ik_hp keys) pn_offset n.
End Build.

(** ** Keys *)

Section KeyLengths.
Context `{QuicCrypto} `{!QuicCryptoLaws}.

Lemma hkdf_blocks_len rounds prk info n out prev counter :
  n <= len out + 32 * Z.of_nat rounds -> n <= len (hkdf_blocks rounds prk info n out prev counter).
Proof.
  revert out prev counter. induction rounds as [|rounds IH]; intros out prev counter Hn; cbn [hkdf_blocks]; [lia|].
  destruct (Z.ltb_spec (len out) n); [|done]. apply IH. rewrite len_app, len_hmac_sha256. lia.
Qed.
(** The rounds are enough: every key has its length. *)
Lemma len_hkdf_expand_label secret label n : 0 <= n -> len (hkdf_expand_label secret label n) = n.
Proof.
  intros Hn. unfold hkdf_expand_label, hkdf_expand. rewrite len_ztake.
  pose proof (hkdf_blocks_len (Z.to_nat n) secret
    (to_be 2 n ++ to_be 1 (len (str "tls13 ") + len label) ++ str "tls13 " ++ label ++ to_be 1 0) n [] [] 1).
  change (len []) with 0 in *. lia.
Qed.
Lemma derive_initial_keys_len salt d :
  let k := derive_initial_keys salt d in len (ik_key k) = 16 /\ len (ik_iv k) = 12.
Proof. by split; apply len_hkdf_expand_label. Qed.
End KeyLengths.

(** ** Masks *)

Lemma range_app_skip {A} (a b : list A) lo hi : 0 <= lo -> range (len a + lo) (len a + hi) (a ++ b) = range lo hi b.
Proof.
  intros Hlo. unfold range. rewrite len_app, slice_app_skip by lia. pose proof (len_nonneg a).
  replace (len a + lo - len a) with lo by lia. replace (len a + hi - len a) with hi by lia.
  replace (0 <=? len a + lo) with true by (symmetry; apply Z.leb_le; lia). replace (0 <=? lo) with true by (symmetry; apply Z.leb_le; lia).
  replace (len a + lo <=? len a + hi) with (lo <=? hi) by (destruct (Z.leb_spec lo hi), (Z.leb_spec (len a + lo) (len a + hi)); lia).
  by replace (len a + hi <=? len a + len b) with (hi <=? len b)
    by (destruct (Z.leb_spec hi (len b)), (Z.leb_spec (len a + hi) (len a + len b)); lia).
Qed.
Lemma range_in {A} lo hi (l : list A) : 0 <= lo <= hi -> hi <= len l -> range lo hi l = Ret (slice lo hi l).
Proof. intros Hlo Hhi. unfold range. by rewrite !(proj2 (Z.leb_le _ _)) by lia. Qed.
Lemma range_mid {A} (a b c : list A) lo hi : lo = len a -> hi = len a + len b -> range lo hi (a ++ b ++ c) = Ret b.
Proof.
  intros -> ->. rewrite range_in; [by rewrite slice_mid|pose proof (len_nonneg a); pose proof (len_nonneg b); lia|].
  rewrite !len_app. pose proof (len_nonneg c). lia.
Qed.

Lemma xor_at_mid a x c i b : i = len a -> xor_at (a ++ x :: c) i b = Ret (a ++ byte.xor x b :: c).
Proof.
  intros ->. unfold xor_at. rewrite zget_app_mid by done. f_equal. unfold zset, len.
  destruct (Z.ltb_spec (Z.of_nat (length a)) 0); [lia|]. rewrite Nat2Z.id. by rewrite insert_app_r_alt, Nat.sub_diag by lia.
Qed.
Lemma xor_at_head x c b : xor_at (x :: c) 0 b = Ret (byte.xor x b :: c).
Proof. done. Qed.
Lemma xor_from_mid a l c bs i : i = len a -> length l = length bs -> xor_from (a ++ l ++ c) i bs = Ret (a ++ xor_bytes l bs ++ c).
Proof.
  revert a l i. induction bs as [|b bs IH]; intros a l i -> Hl; (destruct l as [|x l]; [|try done]); [done|done|].
  cbn [app xor_from]. rewrite xor_at_mid by done. cbn [obind]. injection Hl as Hl.
  change (a ++ byte.xor x b :: l ++ c) with (a ++ [byte.xor x b] ++ l ++ c). rewrite app_assoc, IH by (done || len_lia).
  by rewrite <- app_assoc.
Qed.
Lemma xor_from_safe l i bs : 0 <= i -> i + len bs <= len l -> safely (xor_from l i bs) (fun l' => len l' = len l).
Proof.
  intros Hi Hl. pose proof (len_nonneg bs).
  assert (len (ztake (len bs) (zdrop i l)) = len bs) as Hm by (rewrite len_ztake, len_zdrop; lia).
  rewrite <- (ztake_zdrop i l), <- (ztake_zdrop (len bs) (zdrop i l)). rewrite xor_from_mid.
  - cbn [safely]. rewrite !len_app, len_xor_bytes. lia.
  - rewrite len_ztake. lia.
  - unfold len in *. lia.
Qed.

(** ** Padding *)

Lemma varint_size_small v : 0 <= v < 2 ^ 14 -> Varint.size v = Ret (if v <? 64 then 1 else 2).
Proof. intros Hv. unfold Varint.size. change (2 ^ 6) with 64. destruct (v <? 64); [done|]. by rewrite (proj2 (Z.ltb_lt _ _)) by lia. Qed.
Lemma varint_size_safe v : v < 2 ^ 62 -> safely (Varint.size v) (fun n => 1 <= n <= 8).
Proof. intros Hv. unfold Varint.size. repeat case_goal; cbn; zbool; lia. Qed.

Lemma padding_loop_safe rounds d s n base target padding :
  0 <= d -> 0 <= s -> 0 <= n <= 4 -> 0 <= base < 2 ^ 32 -> target < 2 ^ 32 -> 0 <= padding <= 2 ^ 32 ->
  safely (padding_loop rounds d s n base target padding) (fun q => 0 <= q <= 2 ^ 32).
Proof.
  intros Hd Hs Hn Hb Ht. revert padding. induction rounds as [|rounds IH]; intros padding Hp; cbn [padding_loop]; [done|].
  unfold header_len. pose proof (varint_size_safe (n + (base + padding) + AES_GCM_TAG_LEN)) as Hv.
  destruct (Varint.size _) as [v|]; cbn in *; [|unfold AES_GCM_TAG_LEN in *; lia].
  unfold fixed_header_len, AES_GCM_TAG_LEN in *. case_goal; [done|apply IH; zbool|].
  - rewrite Z.compare_lt_iff in *. lia.
  - case_goal; [done|]. apply IH. unfold sat_sub. rewrite Z.compare_gt_iff in *. lia.
Qed.

Lemma padding_step rounds d s n base target padding :
  0 <= n -> 0 <= base + padding -> n + (base + padding) + AES_GCM_TAG_LEN < 2 ^ 14 ->
  padding_loop (S rounds) d s n base target padding =
    let l := n + (base + padding) + AES_GCM_TAG_LEN in
    let total := fixed_header_len d s + (if l <? 64 then 1 else 2) + l in
    match total ?= target with
    | Eq => Ret padding
    | Lt => padding_loop rounds d s n base target (padding + (target - total))
    | Gt => let next := sat_sub padding (total - target) in
            if next =? padding then Ret padding else padding_loop rounds d s n base target next
    end.
Proof.
  intros Hn Hb Hl. cbn [padding_loop]. unfold header_len. rewrite varint_size_small by (unfold AES_GCM_TAG_LEN in *; lia).
  cbn [obind]. set (v := if _ <? 64 then 1 else 2).
  by replace (fixed_header_len d s + v + n + (base + padding) + AES_GCM_TAG_LEN)
    with (fixed_header_len d s + v + (n + (base + padding) + AES_GCM_TAG_LEN)) by lia.
Qed.

(** The loop reaches the target, growth of the Length field included: [l] is
    the value of the field in a packet of that size. *)
Lemma padding_exact d s n base target :
  let l := target - fixed_header_len d s - 2 in
  0 <= n <= 4 -> 0 <= base -> n + base + AES_GCM_TAG_LEN <= l -> 64 <= l <= 16382 ->
  padding_for_target d s n base target = Ret (l - (n + base + AES_GCM_TAG_LEN)).
Proof.
  intros l Hn Hb Hfit Hl. unfold padding_for_target. set (q := l - (n + base + AES_GCM_TAG_LEN)).
  assert (target = fixed_header_len d s + 2 + l) as Ht by (unfold l; lia).
  assert (l = n + (base + q) + AES_GCM_TAG_LEN) as Hq by (unfold q; lia). clearbody l q. unfold AES_GCM_TAG_LEN in *.
  assert (forall rounds, padding_loop (S rounds) d s n base target q = Ret q) as Hhit.
  { intros rounds. rewrite padding_step by (unfold AES_GCM_TAG_LEN; lia). cbv zeta. unfold AES_GCM_TAG_LEN. rewrite <- Hq.
    by rewrite (proj2 (Z.ltb_ge _ _)), <- Ht, Z.compare_refl by lia. }
  rewrite padding_step by (unfold AES_GCM_TAG_LEN; lia). cbv zeta. unfold AES_GCM_TAG_LEN.
  destruct (Z.ltb_spec (n + (base + 0) + 16) 64).
  - rewrite (proj2 (Z.compare_lt_iff _ _)) by lia. replace (0 + (target - _)) with (q + 1) by lia.
    rewrite padding_step by (unfold AES_GCM_TAG_LEN; lia). cbv zeta. unfold AES_GCM_TAG_LEN.
    rewrite (proj2 (Z.ltb_ge _ _)) by lia. rewrite (proj2 (Z.compare_gt_iff _ _)) by lia.
    replace (sat_sub _ _) with q by (unfold sat_sub; lia). rewrite (proj2 (Z.eqb_neq _ _)) by lia. apply Hhit.
  - destruct (Z.eq_dec q 0) as [->|]; [by rewrite (proj2 (Z.compare_eq_iff _ _)) by lia|].
    rewrite (proj2 (Z.compare_lt_iff _ _)) by lia. replace (0 + (target - _)) with q by lia. apply Hhit.
Qed.

(** ** The packet built *)

Lemma to_be_1 z : to_be 1 z = [byte.of_Z z].
Proof. done. Qed.
Lemma len_encode_pn v n : 0 <= n -> len (encode_pn v n) = n.
Proof. intros Hn. unfold encode_pn. rewrite len_rev. unfold len. rewrite length_map, length_seq. lia. Qed.
Lemma varint_write_safe v : 0 <= v < 2 ^ 62 -> safely (Varint.write v) (fun b => 1 <= len b <= 8).
Proof. intros Hv. unfold Varint.write. repeat case_goal; cbn [safely]; rewrite ?len_to_be; zbool; lia. Qed.
Lemma varint_write_len v b : 0 <= v < 2 ^ 14 -> Varint.write v = Ret b -> len b = if v <? 64 then 1 else 2.
Proof.
  intros Hv. unfold Varint.write. change (2 ^ 6) with 64. destruct (v <? 64); [by intros [= <-]|].
  rewrite (proj2 (Z.ltb_lt _ _)) by lia. by intros [= <-].
Qed.
Lemma crypto_frame_safe offset payload :
  0 <= offset < 2 ^ 62 -> len payload < 2 ^ 62 ->
  safely (crypto_frame offset payload) (fun f => len payload + 3 <= len f <= len payload + 17).
Proof.
  intros Ho Hp. unfold crypto_frame. apply safely_bind. eapply safely_mono; [by apply varint_write_safe|]. intros o Hlo.
  apply safely_bind. eapply safely_mono; [apply varint_write_safe; pose proof (len_nonneg payload); lia|]. intros l Hll.
  cbn [safely] in *. rewrite !len_app, len_to_be. lia.
Qed.

Section Built.
Context `{QuicCrypto} `{!QuicCryptoLaws}.

(** The header between its first byte and the packet number, the first byte,
    the sample and the mask of a ciphertext behind [n] bytes of packet number. *)
Definition header_mid (p : InitialParams) (length : bytes) : bytes :=
  to_be 4 VERSION_V1 ++ to_be 1 (len (dcid p)) ++ dcid p ++ to_be 1 (len (scid p)) ++ scid p ++ to_be 1 0 ++ length.
Definition first_byte (n : Z) : Init.Byte.byte := byte.of_Z (Z.lor 0xc0 (n - 1)).
Definition mask_of (p : InitialParams) (n : Z) (ct : bytes) : bytes :=
  aes_block (ik_hp (derive_initial_keys INITIAL_SALT_V1 (dcid p))) (slice (4 - n) (20 - n) ct).
Definition mask_first (mask : bytes) : Init.Byte.byte := byte.and (nth 0 (slice 0 1 mask) Byte.x00) Byte.x0f.
Definition protected (p : InitialParams) (n : Z) (length pn ct : bytes) : bytes :=
  let mask := mask_of p n ct in
  byte.xor (first_byte n) (mask_first mask) :: header_mid p length ++ xor_bytes pn (slice 1 (1 + n) mask) ++ ct.

Lemma mask_len p n ct : 1 <= n <= 4 -> 20 - n <= len ct -> len (mask_of p n ct) = 16.
Proof. intros Hn Hc. apply len_aes_block. rewrite len_slice; lia. Qed.

Lemma len_protected p n length pn ct :
  1 <= n <= 4 -> len pn = n -> 20 - n <= len ct ->
  len (protected p n length pn ct) = fixed_header_len (len (dcid p)) (len (scid p)) + len length + n + len ct.
Proof.
  intros Hn Hpn Hct. pose proof (mask_len p n ct Hn Hct). unfold protected, header_mid, fixed_header_len.
  rewrite len_cons, !len_app, !len_to_be, len_xor_bytes, len_slice by lia. lia.
Qed.

Lemma apply_header_protection_spec p n length pn ct :
  1 <= n <= 4 -> len pn = n -> 20 - n <= len ct ->
  apply_header_protection ((first_byte n :: header_mid p length ++ pn) ++ ct)
    (ik_hp (derive_initial_keys INITIAL_SALT_V1 (dcid p))) (len (first_byte n :: header_mid p length)) n =
  Ret (protected p n length pn ct).
Proof.
  intros Hn Hpn Hct. unfold apply_header_protection, protected. pose proof (mask_len p n ct Hn Hct) as Hm. unfold mask_of in *.
  set (h := header_mid p length). cbn [app]. rewrite <- app_assoc. change (?x :: h ++ pn ++ ct) with ((x :: h) ++ pn ++ ct).
  rewrite <- Z.add_assoc, range_app_skip by lia.
  assert (range 4 (4 + 16) (pn ++ ct) = Ret (slice (4 - n) (20 - n) ct)) as ->.
  { replace 4 with (len pn + (4 - n)) at 1 by lia. replace (4 + 16) with (len pn + (20 - n)) by lia.
    rewrite range_app_skip by lia. apply range_in; lia. }
  cbn [obind]. rewrite range_in by lia. cbn [obind app].
  rewrite xor_at_head. cbn [obind]. rewrite range_in by lia. cbn [obind].
  fold (mask_first (aes_block (ik_hp (derive_initial_keys INITIAL_SALT_V1 (dcid p))) (slice (4 - n) (20 - n) ct))).
  change (?x :: h ++ pn ++ ct) with ((x :: h) ++ pn ++ ct). rewrite xor_from_mid; [done|by rewrite !len_cons|].
  assert (len (slice 1 (1 + n) (aes_block (ik_hp (derive_initial_keys INITIAL_SALT_V1 (dcid p))) (slice (4 - n) (20 - n) ct))) = n)
    as Hs by (rewrite len_slice; lia). unfold len in *. lia.
Qed.

(** What the parameters must satisfy: connection ids with a length byte, an
    offset and a payload a variable-length integer holds. *)
Record params_ok (p : InitialParams) : Prop := {
  pk_dcid : len (dcid p) <= 255;
  pk_scid : len (scid p) <= 255;
  pk_pn_len : 1 <= pn_len p <= 4;
  pk_offset : 0 <= crypto_offset p < 2 ^ 62;
  pk_payload : len (crypto_payload p) < 2 ^ 31;
  pk_target : target_size p < 2 ^ 32;
}.

(** The packet is a CRYPTO frame and padding, sealed under the keys of the
    destination connection id with the header as associated data, then masked. *)
Lemma build_client_initial_spec p :
  params_ok p ->
  exists frame padding length nonce,
    let n := pn_len p in
    let keys := derive_initial_keys INITIAL_SALT_V1 (dcid p) in
    let pn := encode_pn (packet_number p) n in
    let payload := frame ++ zeros padding in
    crypto_frame (crypto_offset p) (crypto_payload p) = Ret frame /\ len (crypto_payload p) + 3 <= len frame /\
    padding_for_target (len (dcid p)) (len (scid p)) n (len frame) (target_size p) = Ret padding /\ 0 <= padding <= 2 ^ 32 /\
    Varint.write (n + len payload + AES_GCM_TAG_LEN) = Ret length /\
    initial_nonce (ik_iv keys) pn = Ret nonce /\ len nonce = 12 /\
    build_client_initial p = Ret (protected p n length pn
      (aes_gcm_seal (ik_key keys) nonce (first_byte n :: header_mid p length ++ pn) payload)).
Proof.
  intros [Hd Hs Hn Ho Hp Ht]. pose proof (len_nonneg (crypto_payload p)). assert (len (crypto_payload p) < 2 ^ 62) as Hp' by lia. pose proof (crypto_frame_safe _ _ Ho Hp') as Hf.
  unfold build_client_initial. replace (Z.min 4 (Z.max 1 (pn_len p))) with (pn_len p) by lia.
  destruct (crypto_frame _ _) as [frame|]; [|done]. cbn [safely obind] in *. exists frame.
  pose proof (padding_loop_safe 8 (len (dcid p)) (len (scid p)) (pn_len p) (len frame) (target_size p) 0) as Hpad.
  fold (padding_for_target (len (dcid p)) (len (scid p)) (pn_len p) (len frame) (target_size p)) in Hpad.
  destruct (padding_for_target _ _ _ _ _) as [padding|]; cbn [safely obind] in *; [|exfalso; apply Hpad; len_lia].
  assert (0 <= padding <= 2 ^ 32) as Hpd by (apply Hpad; len_lia). clear Hpad. exists padding.
  pose proof (varint_write_safe (pn_len p + len (frame ++ zeros padding) + AES_GCM_TAG_LEN)) as Hl.
  assert (len (frame ++ zeros padding) = len frame + padding) as Hlp by (unfold zeros; len_lia).
  rewrite Hlp in *. unfold AES_GCM_TAG_LEN in *.
  destruct (Varint.write _) as [length|]; cbn [safely obind] in *; [|exfalso; apply Hl; lia]. exists length.
  set (keys := derive_initial_keys INITIAL_SALT_V1 (dcid p)). destruct (derive_initial_keys_len INITIAL_SALT_V1 (dcid p)) as [_ Hiv].
  fold keys in Hiv. pose proof (len_encode_pn (packet_number p) (pn_len p) ltac:(lia)) as Hpn.
  pose proof (xor_from_safe (ik_iv keys) (AES_GCM_IV_LEN - len (encode_pn (packet_number p) (pn_len p)))
    (encode_pn (packet_number p) (pn_len p))) as Hx. unfold aes_128_gcm_seal, initial_nonce, AES_GCM_IV_LEN in *.
  rewrite Hpn in *. destruct (xor_from _ _ _) as [nonce|]; cbn [safely obind] in *; [|exfalso; apply Hx; lia]. exists nonce.
  split_and!; try done; try lia. rewrite <- apply_header_protection_spec; [done|done|done|].
  rewrite len_aes_gcm_seal, Hlp. lia.
Qed.
End Built.
