(* ===== verification/QuicGenerator.v ===== *)
(** The datagrams of [noise/quic/generator.rs]: a ClientHello cut into one or
    two Initials of the browser's size. *)

From S2P Require Import Prelude Rand Quic QuicProfiles QuicTls QuicInitial.
Import Tls.

Definition PACKET_OVERHEAD_HEADROOM : Z := 64.

Section Generator.
Context {R : Type} `{RngCore R} `{QuicCrypto}.

Definition resolve (browser : BrowserProfile) : G R BrowserProfile :=
  match browser with
  | Random => w ← rand_u32;
      mret (if w mod 3 =? 0 then Chrome else if w mod 3 =? 1 then Firefox else Curl)
  | other => mret other
  end.

Definition generate_client_initials (browser : BrowserProfile) (sni : bytes) : G R (list bytes) :=
  resolved ← resolve browser;
  profile ← pure (for_browser resolved);
  scid ← (if bool_decide (resolved = Firefox) then rand_bytes 3 else mret []);
  dcid ← rand_bytes 8;
  client_hello ← generate_client_hello profile sni scid;
  let target := packet_target profile in
  let first_len := Z.min (len client_hello) (sat_sub target PACKET_OVERHEAD_HEADROOM) in
  let params number offset payload := {|
    dcid := dcid; scid := scid; packet_number := number; pn_len := 1;
    crypto_offset := offset; crypto_payload := payload; target_size := target |} in
  first ← pure (build_client_initial (params 0 0 (ztake first_len client_hello)));
  if first_len <? len client_hello then
    second ← pure (build_client_initial (params 1 first_len (zdrop first_len client_hello)));
    mret [first; second]
  else mret [first].
End Generator.
