(* ===== verification/QuicFingerprint.v ===== *)
(** The decoder of [noise/quic/fingerprint.rs], with which the repository's own
    tests read generated and captured Initials: unprotect and decrypt, put the
    CRYPTO stream together, parse the ClientHello.

    A slice index out of range, a truncated integer and a failed decryption
    panic. Where the code advances an index through a slice the definitions
    keep the rest of the slice. The loops carry as fuel the length of what they
    read, of which every round consumes a part; running out is a panic, which
    the theorems exclude. *)

From S2P Require Import Prelude Quic QuicInitial.

(** ** Reading *)

(** [&l[..n]] and [&l[n..]] *)
Definition split_at (n : Z) (l : bytes) : outcome (bytes * bytes) :=
  if (0 <=? n) && (n <=? len l) then Ret (ztake n l, zdrop n l) else Panic.
Definition read8 (l : bytes) : outcome (Z * bytes) := let! (b, l) := split_at 1 l in Ret (of_be b, l).
Definition read16 (l : bytes) : outcome (Z * bytes) := let! (b, l) := split_at 2 l in Ret (of_be b, l).
Definition read_varint (l : bytes) : outcome (Z * bytes) :=
  match Varint.read l with Some (v, n) => let! (_, l) := split_at n l in Ret (v, l) | None => Panic end.

(** [while more(rest) { out.push(item(rest)) }] *)
Fixpoint read_while {A} (fuel : nat) (more : bytes -> bool) (item : bytes -> outcome (A * bytes)) (l : bytes)
  : outcome (list A) :=
  if negb (more l) then Ret [] else
  match fuel with
  | O => Panic
  | S fuel => let! (a, l) := item l in let! rest := read_while fuel more item l in Ret (a :: rest)
  end.

Definition nonempty (l : bytes) : bool := 0 <? len l.
(** [chunks_exact(2)], each read as a [u16]. *)
Definition u16s (l : bytes) : outcome (list Z) := read_while (length l) (fun l => 2 <=? len l) read16 l.

(** ** [String::from_utf8_lossy] *)

Definition utf8_get (l : bytes) (i : nat) : Z := byte.unsigned (nth i l Byte.x00).
Definition is_cont (b : Z) : bool := Z.land b 0xc0 =? 0x80.
Definition within (lo hi b : Z) : bool := (lo <=? b) && (b <=? hi).

(** What may follow the first byte of a three- or four-byte sequence. *)
Definition second_ok (b0 b1 : Z) : bool :=
  if b0 =? 0xe0 then within 0xa0 0xbf b1
  else if b0 =? 0xed then within 0x80 0x9f b1
  else if b0 =? 0xf0 then within 0x90 0xbf b1
  else if b0 =? 0xf4 then within 0x80 0x8f b1
  else within 0x80 0xbf b1.

(** Whether the string starts with a character, and how many bytes it or the
    broken sequence takes. *)
Definition utf8_step (l : bytes) : bool * nat :=
  let b0 := utf8_get l 0 in
  if b0 <? 0x80 then (true, 1%nat)
  else if within 0xc2 0xdf b0 then if is_cont (utf8_get l 1) then (true, 2%nat) else (false, 1%nat)
  else if within 0xe0 0xef b0 then
    if negb (second_ok b0 (utf8_get l 1)) then (false, 1%nat)
    else if is_cont (utf8_get l 2) then (true, 3%nat) else (false, 2%nat)
  else if within 0xf0 0xf4 b0 then
    if negb (second_ok b0 (utf8_get l 1)) then (false, 1%nat)
    else if negb (is_cont (utf8_get l 2)) then (false, 2%nat)
    else if is_cont (utf8_get l 3) then (true, 4%nat) else (false, 3%nat)
  else (false, 1%nat).

Definition REPLACEMENT : bytes := map byte.of_Z [0xef; 0xbf; 0xbd].

Fixpoint utf8_lossy (fuel : nat) (l : bytes) : bytes :=
  match fuel, l with
  | S fuel, _ :: _ =>
      let '(ok, n) := utf8_step l in
      (if ok then take n l else REPLACEMENT) ++ utf8_lossy fuel (drop n l)
  | _, _ => []
  end.
Definition from_utf8_lossy (l : bytes) : bytes := utf8_lossy (length l) l.

(** A Rust string: well-formed UTF-8. *)
Fixpoint utf8_valid (fuel : nat) (l : bytes) : bool :=
  match fuel, l with
  | S fuel, _ :: _ => let '(ok, n) := utf8_step l in ok && utf8_valid fuel (drop n l)
  | _, _ => true
  end.
Definition is_str (l : bytes) : bool := utf8_valid (length l) l.

(** ** Fingerprints *)

Record Fingerprint := {
  legacy_session_id_len : Z;
  fp_cipher_suites : list Z;
  extensions : list Z;
  fp_supported_groups : list Z;
  fp_key_share_groups : list Z;
  fp_signature_algorithms : list Z;
  fp_supported_versions : list Z;
  fp_alpn : list bytes;
  sni : option bytes;
  transport_param_ids : list Z;
}.

Definition fingerprint_default : Fingerprint := {|
  legacy_session_id_len := 0; fp_cipher_suites := []; extensions := []; fp_supported_groups := [];
  fp_key_share_groups := []; fp_signature_algorithms := []; fp_supported_versions := []; fp_alpn := [];
  sni := None; transport_param_ids := [] |}.

Definition push_extension (t : Z) (f : Fingerprint) : Fingerprint := {|
  legacy_session_id_len := legacy_session_id_len f; fp_cipher_suites := fp_cipher_suites f;
  extensions := extensions f ++ [t]; fp_supported_groups := fp_supported_groups f;
  fp_key_share_groups := fp_key_share_groups f; fp_signature_algorithms := fp_signature_algorithms f;
  fp_supported_versions := fp_supported_versions f; fp_alpn := fp_alpn f; sni := sni f;
  transport_param_ids := transport_param_ids f |}.

(** The fields an extension writes: each is extended, the name replaced. *)
Definition add (groups shares algs versions : list Z) (protos : list bytes) (host : option bytes) (ids : list Z)
  (f : Fingerprint) : Fingerprint := {|
  legacy_session_id_len := legacy_session_id_len f; fp_cipher_suites := fp_cipher_suites f;
  extensions := extensions f; fp_supported_groups := fp_supported_groups f ++ groups;
  fp_key_share_groups := fp_key_share_groups f ++ shares;
  fp_signature_algorithms := fp_signature_algorithms f ++ algs;
  fp_supported_versions := fp_supported_versions f ++ versions; fp_alpn := fp_alpn f ++ protos;
  sni := match host with Some h => Some h | None => sni f end;
  transport_param_ids := transport_param_ids f ++ ids |}.

(** A vector of 16-bit integers with its length in two bytes. *)
Definition u16_vector (body : bytes) : outcome (list Z) :=
  let! (n, rest) := read16 body in let! (list, _) := split_at n rest in u16s list.

Definition alpn_item (l : bytes) : outcome (bytes * bytes) :=
  let! (n, l) := read8 l in let! (proto, l) := split_at n l in Ret (from_utf8_lossy proto, l).
(** [q += 4 + klen] is not checked; past the end the loop is over. *)
Definition key_share_item (l : bytes) : outcome (Z * bytes) :=
  let! (group, l) := read16 l in let! (klen, l) := read16 l in Ret (group, zdrop klen l).
(** Nor is [q += vlen], after which the loop ends. *)
Definition tp_item (l : bytes) : outcome (Z * bytes) :=
  let! (id, l) := read_varint l in let! (vlen, l) := read_varint l in Ret (id, zdrop vlen l).

Definition parse_extension (f : Fingerprint) (ext_type : Z) (body : bytes) : outcome Fingerprint :=
  if ext_type =? 0x0000 then
    if (5 <=? len body) && (byte_at body 2 =? 0) then
      let! (host, _) := split_at (be16 body 3) (zdrop 5 body) in
      Ret (add [] [] [] [] [] (Some (from_utf8_lossy host)) [] f)
    else Ret f
  else if ext_type =? 0x000a then let! l := u16_vector body in Ret (add l [] [] [] [] None [] f)
  else if ext_type =? 0x000d then let! l := u16_vector body in Ret (add [] [] l [] [] None [] f)
  else if ext_type =? 0x0010 then
    let! l := read_while (length body) nonempty alpn_item (zdrop 2 body) in Ret (add [] [] [] [] l None [] f)
  else if ext_type =? 0x002b then
    let! (n, rest) := read8 body in
    let! (list, _) := split_at n rest in
    let! l := u16s list in Ret (add [] [] [] l [] None [] f)
  else if ext_type =? 0x0033 then
    let! l := read_while (length body) (fun l => 4 <=? len l) key_share_item (zdrop 2 body) in
    Ret (add [] l [] [] [] None [] f)
  else if ext_type =? 0x0039 then
    let! l := read_while (length body) nonempty tp_item body in Ret (add [] [] [] [] [] None l f)
  else Ret f.

(** [while p + 4 <= ext_end]; [left] is [ext_end - p]. *)
Fixpoint parse_extensions (fuel : nat) (left : Z) (f : Fingerprint) (l : bytes) : outcome Fingerprint :=
  if left <? 4 then Ret f else
  match fuel with
  | O => Panic
  | S fuel =>
      let! (ext_type, l) := read16 l in
      let! (ext_len, l) := read16 l in
      let! (body, l) := split_at ext_len l in
      let! f := parse_extension (push_extension ext_type f) ext_type body in
      parse_extensions fuel (left - (4 + ext_len)) f l
  end.

Definition parse_clienthello (ch : bytes) : outcome Fingerprint :=
  let! (t, l) := read8 ch in
  if negb (t =? 1) then Panic else
  let! (_, l) := split_at (3 + 2 + 32) l in
  let! (sid_len, l) := read8 l in
  let! (_, l) := split_at sid_len l in
  let! (cs_len, l) := read16 l in
  let! (cs, l) := split_at cs_len l in
  let! suites := u16s cs in
  let! (comp_len, l) := read8 l in
  let! (_, l) := split_at comp_len l in
  let! (ext_total, l) := read16 l in
  parse_extensions (length l) ext_total
    {| legacy_session_id_len := sid_len; fp_cipher_suites := suites; extensions := []; fp_supported_groups := [];
       fp_key_share_groups := []; fp_signature_algorithms := []; fp_supported_versions := []; fp_alpn := [];
       sni := None; transport_param_ids := [] |} l.

(** ** Packets *)

Section Open.
Context `{QuicCrypto}.

(** The header up to the Length field: destination connection id, Length and
    the offset of the packet number. *)
Definition initial_fields (packet : bytes) : outcome (bytes * Z * Z) :=
  let! (_, l) := split_at (1 + 4) packet in
  let! (dcid_len, l) := read8 l in
  let! (dcid, l) := split_at dcid_len l in
  let! (scid_len, l) := read8 l in
  let! (_, l) := split_at scid_len l in
  let! (token_len, l) := read8 l in
  let! (_, l) := split_at token_len l in
  let! (length, l) := read_varint l in
  Ret (dcid, length, len packet - len l).

(** The packet with its header protection removed, and the length of the
    packet number. *)
Definition unprotect (hp packet : bytes) (pn_offset : Z) : outcome (bytes * Z) :=
  let sample_offset := pn_offset + 4 in
  let! sample := range sample_offset (sample_offset + 16) packet in
  let mask := aes_block hp sample in
  let! first := range 0 1 mask in
  let! buf := xor_at packet 0 (byte.and (nth 0 first Byte.x00) Byte.x0f) in
  let pn_len := Z.land (byte_at buf 0) 3 + 1 in
  let! rest := range 1 (1 + pn_len) mask in
  let! buf := xor_from buf pn_offset rest in
  Ret (buf, pn_len).

Definition open_initial (packet : bytes) : outcome bytes :=
  let! (dcid, length, pn_offset) := initial_fields packet in
  let keys := derive_initial_keys INITIAL_SALT_V1 dcid in
  let! (buf, pn_len) := unprotect (ik_hp keys) packet pn_offset in
  let! pn_bytes := range pn_offset (pn_offset + pn_len) buf in
  let! aad := range 0 (pn_offset + pn_len) buf in
  let! ciphertext := range (pn_offset + pn_len) (pn_offset + length) buf in
  let! nonce := xor_from (ik_iv keys) (len (ik_iv keys) - len pn_bytes) pn_bytes in
  match aes_gcm_open (ik_key keys) nonce aad ciphertext with Some plaintext => Ret plaintext | None => Panic end.

(** The CRYPTO frames among the frames of an Initial. *)
Fixpoint crypto_fragments (fuel : nat) (p : bytes) : outcome (list (Z * bytes)) :=
  match fuel, p with
  | _, [] => Ret []
  | O, _ => Panic
  | S fuel, ty :: p =>
      let ty := byte.unsigned ty in
      if (ty =? 0) || (ty =? 1) then crypto_fragments fuel p
      else if ty =? 6 then
        let! (offset, p) := read_varint p in
        let! (n, p) := read_varint p in
        let! (data, p) := split_at n p in
        let! rest := crypto_fragments fuel p in
        Ret ((offset, data) :: rest)
      else Panic
  end.

(** [sort_by_key], which is stable, as an insertion sort. *)
Fixpoint insert_by_key (x : Z * bytes) (l : list (Z * bytes)) : list (Z * bytes) :=
  match l with
  | [] => [x]
  | y :: l => if fst x <=? fst y then x :: y :: l else y :: insert_by_key x l
  end.
Definition sort_by_key (l : list (Z * bytes)) : list (Z * bytes) := foldr insert_by_key [] l.

Definition reassemble_crypto (frames : bytes) : outcome bytes :=
  let! fragments := crypto_fragments (length frames) frames in Ret (flat_map snd (sort_by_key fragments)).

Fixpoint open_initials (packets : list bytes) : outcome bytes :=
  match packets with
  | [] => Ret []
  | p :: packets => let! frames := open_initial p in let! rest := open_initials packets in Ret (frames ++ rest)
  end.

Definition fingerprint_of_packets (packets : list bytes) : outcome Fingerprint :=
  let! frames := open_initials packets in
  let! ch := reassemble_crypto frames in
  parse_clienthello ch.

(** The records of a capture file. *)
Fixpoint split_records (fuel : nat) (blob : bytes) : outcome (list bytes) :=
  if len blob <? 2 then Ret [] else
  match fuel with
  | O => Panic
  | S fuel =>
      let! (n, l) := read16 blob in
      let! (record, l) := split_at n l in
      let! rest := split_records fuel l in Ret (record :: rest)
  end.

Definition fingerprint_of_capture (blob : bytes) : outcome Fingerprint :=
  let! packets := split_records (length blob) blob in fingerprint_of_packets packets.
End Open.

(** [extension_set]: the extension types in increasing order, once each. *)
Fixpoint insert_type (t : Z) (l : list Z) : list Z :=
  match l with
  | [] => [t]
  | u :: l => if t <? u then t :: u :: l else if t =? u then u :: l else u :: insert_type t l
  end.
Definition extension_set (f : Fingerprint) : list Z := foldr insert_type [] (extensions f).

(** ** Reading what was written *)

Lemma split_at_app n a b : n = len a -> split_at n (a ++ b) = Ret (a, b).
Proof.
  intros ->. unfold split_at. rewrite len_app, !(proj2 (Z.leb_le _ _)) by (pose proof (len_nonneg a); pose proof (len_nonneg b); lia).
  cbn [andb]. by rewrite ztake_app_exact, zdrop_app_exact.
Qed.
Lemma read8_app v l : 0 <= v < 2 ^ 8 -> read8 (to_be 1 v ++ l) = Ret (v, l).
Proof. intros Hv. unfold read8. rewrite split_at_app by done. cbn [obind]. by rewrite of_be_to_be. Qed.
Lemma read16_app v l : 0 <= v < 2 ^ 16 -> read16 (to_be 2 v ++ l) = Ret (v, l).
Proof. intros Hv. unfold read16. rewrite split_at_app by done. cbn [obind]. by rewrite of_be_to_be. Qed.
Lemma read_varint_app v b l : 0 <= v -> Varint.write v = Ret b -> read_varint (b ++ l) = Ret (v, l).
Proof.
  intros Hv Hw. unfold read_varint. destruct (Z.lt_ge_cases v (2 ^ 62)) as [Hlt|Hge].
  - destruct (Varint.varint_roundtrip v l Hv) as [Hr _]. destruct (Hr Hlt) as (b' & Hb' & _ & Hread).
    rewrite Hw in Hb'. injection Hb' as <-. rewrite Hread, split_at_app by done. done.
  - destruct (Varint.varint_roundtrip v l Hv) as [_ Hp]. destruct (Hp Hge) as [Hp' _]. by rewrite Hw in Hp'.
Qed.

(** The items of a loop, written one after the other, are read back. *)
Lemma read_while_spec {A B} fuel more (item : bytes -> outcome (B * bytes)) (enc : A -> bytes) (f : A -> B) (xs : list A) :
  more [] = false ->
  (forall x rest, In x xs -> more (enc x ++ rest) = true /\ item (enc x ++ rest) = Ret (f x, rest)) ->
  (length xs <= fuel)%nat -> read_while fuel more item (flat_map enc xs) = Ret (map f xs).
Proof.
  intros Hm. revert fuel. induction xs as [|x xs IH]; intros fuel Hx Hf; cbn [flat_map map].
  - by destruct fuel; cbn [read_while]; rewrite Hm.
  - destruct fuel as [|fuel]; [cbn in Hf; lia|]. cbn [read_while].
    destruct (Hx x (flat_map enc xs)) as [Hmore Hitem]; [by left|]. rewrite Hmore, Hitem. cbn [negb obind].
    rewrite IH; [done| |cbn in Hf; lia]. intros y rest Hy. apply Hx. by right.
Qed.

Lemma u16s_spec values : Forall (fun v => 0 <= v < 2 ^ 16) values -> u16s (flat_map (to_be 2) values) = Ret values.
Proof.
  intros Hv. unfold u16s. rewrite (read_while_spec _ _ _ (to_be 2) id); [by rewrite map_id|done| |].
  - intros x rest Hx. rewrite List.Forall_forall in Hv. split; [|by apply read16_app; auto].
    apply Z.leb_le. rewrite len_app, len_to_be. pose proof (len_nonneg rest). lia.
  - clear. induction values as [|v values IH]; [done|]. cbn [flat_map length]. rewrite length_app.
    change (length (to_be 2 v)) with 2%nat. lia.
Qed.

(** A Rust string is what a lossy decoding gives back. *)
Lemma utf8_lossy_valid fuel l : (length l <= fuel)%nat -> utf8_valid fuel l = true -> utf8_lossy fuel l = l.
Proof.
  revert l. induction fuel as [|fuel IH]; intros l Hf Hv; (destruct l as [|b l]; [done|]); [cbn in Hf; lia|].
  cbn [utf8_valid utf8_lossy] in *. assert (1 <= snd (utf8_step (b :: l)))%nat as Hn.
  { unfold utf8_step. repeat case_match; cbn; lia. }
  destruct (utf8_step (b :: l)) as [ok n]. cbn [snd] in Hn. apply andb_true_iff in Hv as [-> Hv].
  rewrite IH; [apply take_drop| |done]. rewrite length_drop. cbn in *. lia.
Qed.
Lemma from_utf8_lossy_str l : is_str l = true -> from_utf8_lossy l = l.
Proof. by apply utf8_lossy_valid. Qed.

Section Roundtrip.
Context `{QuicCrypto} `{!QuicCryptoLaws}.

Lemma first_byte_pn_len n : 1 <= n <= 4 -> Z.land (byte.unsigned (first_byte n)) 3 + 1 = n.
Proof. intros Hn. apply (range_cases (fun n => Z.land (byte.unsigned (first_byte n)) 3 + 1 = n) 1 4); [by repeat constructor|lia]. Qed.

Lemma initial_fields_spec p length v x rest :
  len (dcid p) <= 255 -> len (scid p) <= 255 -> 0 <= v -> Varint.write v = Ret length ->
  initial_fields (x :: header_mid p length ++ rest) = Ret (dcid p, v, 1 + len (header_mid p length)).
Proof.
  intros Hd Hs Hv Hl. unfold initial_fields, header_mid. pose proof (len_nonneg (dcid p)). pose proof (len_nonneg (scid p)).
  rewrite <- !app_assoc. change (x :: to_be 4 VERSION_V1 ++ ?l) with ((x :: to_be 4 VERSION_V1) ++ l).
  rewrite split_at_app by done. cbn [obind]. rewrite read8_app by lia. cbn [obind]. rewrite split_at_app by done. cbn [obind].
  rewrite read8_app by lia. cbn [obind]. rewrite split_at_app by done. cbn [obind]. rewrite read8_app by lia. cbn [obind].
  change (length ++ rest) with ([] ++ length ++ rest). rewrite (split_at_app 0 []) by done. cbn [obind app].
  rewrite (read_varint_app v) by done. cbn [obind]. f_equal. f_equal. rewrite ?len_cons, !len_app. lia.
Qed.

(** Header protection is an involution on the packets the code builds. *)
Lemma unprotect_protected p length pn ct :
  let n := len pn in
  1 <= n <= 4 -> 20 - n <= len ct ->
  unprotect (ik_hp (derive_initial_keys INITIAL_SALT_V1 (dcid p))) (protected p n length pn ct) (1 + len (header_mid p length)) =
  Ret ((first_byte n :: header_mid p length) ++ pn ++ ct, n).
Proof.
  intros n Hn Hct. unfold protected. pose proof (mask_len p n ct Hn Hct) as Hm. unfold unprotect.
  set (x := byte.xor _ _). set (pn' := xor_bytes pn _). set (h := header_mid p length).
  assert (len pn' = n) as Hpn' by (unfold pn'; rewrite len_xor_bytes, len_slice; lia).
  rewrite <- (len_cons x h). change (x :: h ++ pn' ++ ct) with ((x :: h) ++ pn' ++ ct).
  rewrite <- Z.add_assoc, range_app_skip by lia.
  assert (range 4 (4 + 16) (pn' ++ ct) = Ret (slice (4 - n) (20 - n) ct)) as ->.
  { replace 4 with (len pn' + (4 - n)) at 1 by lia. replace (4 + 16) with (len pn' + (20 - n)) by lia.
    rewrite range_app_skip by lia. apply range_in; lia. }
  cbn [obind]. fold (mask_of p n ct). rewrite range_in by lia. cbn [obind app]. rewrite xor_at_head. cbn [obind].
  fold (mask_first (mask_of p n ct)). unfold x. rewrite byte_xor_involutive.
  change (byte_at (?y :: ?l) 0) with (byte_at [y] 0).
  assert (byte_at [first_byte n] 0 = byte.unsigned (first_byte n)) as -> by apply le_combine_1.
  rewrite first_byte_pn_len by done. rewrite range_in by lia. cbn [obind].
  change (?y :: h ++ pn' ++ ct) with ((y :: h) ++ pn' ++ ct). rewrite xor_from_mid.
  - cbn [obind]. unfold pn'. by rewrite xor_bytes_involutive by (rewrite len_slice; lia).
  - by rewrite !len_cons.
  - assert (len (slice 1 (1 + n) (mask_of p n ct)) = n) as Hsl by (rewrite len_slice; lia). unfold len in *. lia.
Qed.

(** Unmasking and opening a protected packet gives what was sealed. *)
Lemma open_initial_protected p length pn nonce payload :
  let n := len pn in
  let keys := derive_initial_keys INITIAL_SALT_V1 (dcid p) in
  1 <= n <= 4 -> len (dcid p) <= 255 -> len (scid p) <= 255 -> 4 <= n + len payload ->
  Varint.write (n + len payload + AES_GCM_TAG_LEN) = Ret length ->
  initial_nonce (ik_iv keys) pn = Ret nonce -> len nonce = 12 ->
  open_initial (protected p n length pn
    (aes_gcm_seal (ik_key keys) nonce (first_byte n :: header_mid p length ++ pn) payload)) = Ret payload.
Proof.
  intros n keys Hn Hd Hs Hp Hl Hno Hnl. unfold open_initial. set (aad := first_byte n :: header_mid p length ++ pn).
  set (ct := aes_gcm_seal _ _ _ _). assert (len ct = len payload + 16) as Hct by apply len_aes_gcm_seal.
  pose proof (len_nonneg payload). destruct (derive_initial_keys_len INITIAL_SALT_V1 (dcid p)) as [Hk Hiv].
  fold keys in Hk, Hiv. assert (initial_fields (protected p n length pn ct) =
    Ret (dcid p, n + len payload + AES_GCM_TAG_LEN, 1 + len (header_mid p length))) as ->.
  { apply initial_fields_spec; [done|done|unfold AES_GCM_TAG_LEN; lia|done]. }
  cbn [obind]. fold keys. pose proof (unprotect_protected p length pn ct) as Hu. cbv zeta in Hu. fold n keys in Hu.
  rewrite Hu by lia. cbn [obind]. set (h := first_byte n :: header_mid p length).
  assert (1 + len (header_mid p length) = len h) as -> by (unfold h; by rewrite len_cons).
  rewrite (range_mid h pn ct) by done. cbn [obind].
  assert (range 0 (len h + n) (h ++ pn ++ ct) = Ret aad) as ->.
  { rewrite app_assoc. apply (range_mid []); [done|]. change aad with (h ++ pn). by rewrite len_nil, len_app. }
  cbn [obind]. assert (range (len h + n) (len h + (n + len payload + AES_GCM_TAG_LEN)) (h ++ pn ++ ct) = Ret ct) as ->.
  { pose proof (range_mid (h ++ pn) ct [] (len h + n) (len h + (n + len payload + AES_GCM_TAG_LEN))) as Hr.
    rewrite app_nil_r, <- app_assoc in Hr. apply Hr; rewrite len_app; unfold AES_GCM_TAG_LEN; fold n; lia. }
  cbn [obind]. rewrite Hiv. change 12 with AES_GCM_IV_LEN. fold (initial_nonce (ik_iv keys) pn). rewrite Hno. cbn [obind].
  unfold ct. by rewrite aes_gcm_open_seal.
Qed.

(** The masks leave the form and the type of the packet readable. *)
Lemma protected_first n m : 1 <= n <= 4 -> Z.land (byte.unsigned (byte.xor (first_byte n) (byte.and m Byte.x0f))) 192 = 192.
Proof.
  intros Hn. apply (range_cases (fun n => Z.land (byte.unsigned (byte.xor (first_byte n) (byte.and m Byte.x0f))) 192 = 192) 1 4); [|lia].
  repeat constructor; by destruct m.
Qed.

Lemma protected_long_header p n length pn ct :
  1 <= n <= 4 -> len (dcid p) <= 20 -> len (scid p) <= 20 ->
  parse_long_header (protected p n length pn ct) = Some {| lh_version := 1; lh_dcid := dcid p; lh_scid := scid p |}.
Proof.
  intros Hn Hd Hs. unfold protected, header_mid. set (x := byte.xor _ _). set (rest := xor_bytes _ _ ++ ct).
  pose proof (len_nonneg (dcid p)). pose proof (len_nonneg (scid p)). pose proof (len_nonneg rest). pose proof (len_nonneg length).
  rewrite <- !app_assoc. set (tail := to_be 1 0 ++ _). assert (0 <= len tail) by apply len_nonneg.
  set (data := x :: _). assert (len data = 7 + len (dcid p) + len (scid p) + len tail) as Hlen by (unfold data; len_lia).
  assert (data = (x :: to_be 4 VERSION_V1 ++ to_be 1 (len (dcid p))) ++ dcid p ++ to_be 1 (len (scid p)) ++ scid p ++ tail) as Hdata
    by (unfold data; by rewrite <- ?app_assoc).
  unfold parse_long_header. rewrite (proj2 (Z.ltb_ge _ _)) by lia.
  assert (byte_at data 0 = byte.unsigned x) as -> by (unfold data; apply le_combine_1).
  unfold x at 1, mask_first. rewrite protected_first by done. change (be32 data 1) with 1. cbn [orb negb Z.eqb Pos.eqb].
  change (is_known_version 1) with true. change (is_supported_by_real_servers 1) with true. cbn [negb andb].
  assert (byte_at data 5 = len (dcid p)) as ->.
  { unfold byte_at. change data with ((x :: to_be 4 VERSION_V1) ++ to_be 1 (len (dcid p)) ++ dcid p ++ to_be 1 (len (scid p)) ++ scid p ++ tail).
    rewrite slice_mid by done. apply of_be_to_be. lia. }
  rewrite Z.gtb_ltb, (proj2 (Z.ltb_ge _ _)) by (unfold RFC9000_MAX_CID_LEN; lia).
  assert (zget data (6 + len (dcid p)) = Some (byte.of_Z (len (scid p)))) as ->.
  { rewrite Hdata, app_assoc. apply zget_app_mid. len_lia. }
  assert (byte.unsigned (byte.of_Z (len (scid p))) = len (scid p)) as ->
    by (rewrite byte.unsigned_of_Z; apply Z.mod_small; lia).
  rewrite Z.gtb_ltb, !(proj2 (Z.ltb_ge _ _)) by (unfold RFC9000_MAX_CID_LEN; lia). do 2 f_equal; rewrite Hdata.
  - apply slice_mid; len_lia.
  - rewrite app_assoc, app_assoc. apply slice_mid; len_lia.
Qed.

(** What is built is opened, and has the size asked for when the frame fits;
    its connection ids stay readable. *)
Lemma initial_roundtrip_spec p :
  params_ok p ->
  exists packet frame padding,
    build_client_initial p = Ret packet /\ crypto_frame (crypto_offset p) (crypto_payload p) = Ret frame /\
    open_initial packet = Ret (frame ++ zeros padding) /\
    let l := target_size p - fixed_header_len (len (dcid p)) (len (scid p)) - 2 in
    (64 <= l <= 16382 -> pn_len p + len frame + AES_GCM_TAG_LEN <= l -> len packet = target_size p) /\
    (len (dcid p) <= 20 -> len (scid p) <= 20 ->
     parse_long_header packet = Some {| lh_version := 1; lh_dcid := dcid p; lh_scid := scid p |}).
Proof.
  intros Hp. pose proof Hp as [Hd Hs Hn _ _ _]. destruct (build_client_initial_spec p Hp) as (frame & padding & length & nonce & Hf & Hfl & Hpad & Hpd & Hl & Hno & Hnl & Hb).
  pose proof (len_encode_pn (packet_number p) (pn_len p) ltac:(lia)) as Hpn. pose proof (len_nonneg (crypto_payload p)).
  assert (len (frame ++ zeros padding) = len frame + padding) as Hlp by (unfold zeros; len_lia).
  eexists _, frame, padding. split; [exact Hb|]. split; [exact Hf|]. split; [|intros l; split].
  - pose proof (open_initial_protected p length (encode_pn (packet_number p) (pn_len p)) nonce (frame ++ zeros padding)) as Ho.
    cbv zeta in Ho. rewrite Hpn in Ho. apply Ho; [lia|exact Hd|exact Hs|lia|exact Hl|exact Hno|exact Hnl].
  - intros Hlr Hfit. rewrite padding_exact in Hpad by (fold l; lia). fold l in Hpad. injection Hpad as <-.
    rewrite Hlp in Hl. replace (pn_len p + (len frame + (l - (pn_len p + len frame + AES_GCM_TAG_LEN))) + AES_GCM_TAG_LEN) with l in Hl by lia.
    apply varint_write_len in Hl; [|lia]. rewrite (proj2 (Z.ltb_ge _ _)) in Hl by lia.
    rewrite len_protected by (rewrite ?len_aes_gcm_seal; lia). rewrite len_aes_gcm_seal, Hlp, Hl. unfold l, AES_GCM_TAG_LEN. lia.
  - intros Hd20 Hs20. by apply protected_long_header.
Qed.
End Roundtrip.
