(* ===== verification/QuicParity.v ===== *)
(** Fingerprint parity: what the decoder of [QuicFingerprint] reads from the
    Initials of [QuicGenerator] is the fingerprint of the browser's profile,
    whatever the random generator does.

    Each extension is followed from the bytes [build_extension] appends to what
    [parse_extension] makes of them, [contribution]; contributions of different
    extensions commute, so the order the shuffle chooses does not matter. *)

From Stdlib Require Import String.
From S2P Require Import Prelude Rand Quic Sip QuicProfiles QuicTls QuicInitial QuicGenerator QuicFingerprint.
Import Tls ext.

Local Open Scope Z_scope.
Local Open Scope list_scope.

(** ** What is read *)

Definition tp_ids (body : bytes) : list Z :=
  match read_while (length body) nonempty tp_item body with Ret l => l | Panic => [] end.

(** What an extension adds to a fingerprint. *)
Definition contribution (p : Profile) (host : bytes) (t : Z) (body : bytes) : Fingerprint -> Fingerprint :=
  if t =? SERVER_NAME then add [] [] [] [] [] (Some host) []
  else if t =? SUPPORTED_GROUPS then add (supported_groups p) [] [] [] [] None []
  else if t =? SIGNATURE_ALGORITHMS then add [] [] (signature_algorithms p) [] [] None []
  else if t =? ALPN then add [] [] [] [] (alpn p) None []
  else if t =? SUPPORTED_VERSIONS then add [] [] [] (supported_versions p) [] None []
  else if t =? KEY_SHARE then add [] (key_share_groups p) [] [] [] None []
  else if t =? QUIC_TRANSPORT_PARAMS then add [] [] [] [] [] None (tp_ids body)
  else id.

(** The identifier of a transport parameter: its own, or a reserved one. *)
Definition tp_id_ok (e : TpEntry) (id : Z) : Prop :=
  match e with
  | TpVarint i _ | TpBytes i _ | TpVersionInfo i | TpScidSource i => id = i
  | TpGrease => id mod 31 = 27
  end.
Definition ids_ok (p : Profile) (ids : list Z) : Prop := exists ids', ids ≡ₚ ids' /\ Forall2 tp_id_ok (quic_tp p) ids'.

(** The fingerprint of a profile. *)
Record matches (p : Profile) (host : bytes) (f : Fingerprint) : Prop := {
  mt_session_id : legacy_session_id_len f = if use_empty_session_id p then 0 else 32;
  mt_cipher_suites : fp_cipher_suites f = cipher_suites p;
  mt_extensions : extensions f ≡ₚ extensions_order p;
  mt_groups : fp_supported_groups f = supported_groups p;
  mt_key_shares : fp_key_share_groups f = key_share_groups p;
  mt_signatures : fp_signature_algorithms f = signature_algorithms p;
  mt_versions : fp_supported_versions f = supported_versions p;
  mt_alpn : fp_alpn f = alpn p;
  mt_sni : sni f = Some host;
  mt_params : ids_ok p (transport_param_ids f);
}.

(** ** Sizes *)

Definition vsize (v : Z) : Z := match Varint.size v with Ret n => n | Panic => 0 end.
Definition zsum (l : list Z) : Z := foldr Z.add 0 l.

Definition tp_size (c : Z) (e : TpEntry) : Z :=
  match e with
  | TpVarint id v => vsize id + 1 + vsize v
  | TpBytes id b => vsize id + vsize (len b) + len b
  | TpVersionInfo id => vsize id + 1 + 12
  | TpScidSource id => vsize id + vsize c + c
  | TpGrease => 8 + 1 + 6
  end.

(** The least an extension takes, its header included; only the encrypted
    ClientHello may take more, by at most 50 bytes. *)
Definition ext_size (p : Profile) (s c t : Z) : Z :=
  if t =? SERVER_NAME then 9 + s
  else if t =? ALPN then 6 + zsum (map (fun a => 1 + len a) (alpn p))
  else if t =? SUPPORTED_GROUPS then 6 + 2 * len (supported_groups p)
  else if t =? SIGNATURE_ALGORITHMS then 6 + 2 * len (signature_algorithms p)
  else if t =? SUPPORTED_VERSIONS then 5 + 2 * len (supported_versions p)
  else if t =? PSK_KEY_EXCHANGE_MODES then 6
  else if t =? KEY_SHARE then 6 + zsum (map (fun g => 4 + key_share_size g) (key_share_groups p))
  else if t =? QUIC_TRANSPORT_PARAMS then 4 + zsum (map (tp_size c) (quic_tp p))
  else if t =? COMPRESS_CERTIFICATE then if bool_decide (name p = Firefox) then 11 else 7
  else if t =? RECORD_SIZE_LIMIT then 6
  else if t =? RENEGOTIATION_INFO then 5
  else if t =? STATUS_REQUEST then 9
  else if t =? EXTENDED_MASTER_SECRET then 4
  else if t =? DELEGATED_CREDENTIALS then 14
  else if t =? APPLICATION_SETTINGS then 9
  else 196.
Definition slack (t : Z) : Z := if t =? ENCRYPTED_CLIENT_HELLO then 50 else 0.

(** The extensions the code writes for this profile. *)
Definition enabled (p : Profile) (t : Z) : bool :=
  existsb (Z.eqb t) [SERVER_NAME; ALPN; SUPPORTED_GROUPS; SIGNATURE_ALGORITHMS; SUPPORTED_VERSIONS; PSK_KEY_EXCHANGE_MODES;
    KEY_SHARE; QUIC_TRANSPORT_PARAMS; COMPRESS_CERTIFICATE; RECORD_SIZE_LIMIT; RENEGOTIATION_INFO; STATUS_REQUEST;
    EXTENDED_MASTER_SECRET; DELEGATED_CREDENTIALS] ||
  ((t =? APPLICATION_SETTINGS) && include_unknown_17613 p) || ((t =? ENCRYPTED_CLIENT_HELLO) && enable_ech p).

Definition u16_ok (v : Z) : Prop := 0 <= v < 2 ^ 16.
Definition tp_ok (e : TpEntry) : Prop :=
  match e with
  | TpVarint id v => 0 <= id < 2 ^ 62 /\ 0 <= v < 2 ^ 62
  | TpBytes id b => 0 <= id < 2 ^ 62 /\ len b < 2 ^ 62
  | TpVersionInfo id | TpScidSource id => 0 <= id < 2 ^ 62
  | TpGrease => True
  end.

Record profile_ok (p : Profile) : Prop := {
  po_suites : Forall u16_ok (cipher_suites p) /\ len (cipher_suites p) < 2 ^ 15;
  po_groups : Forall u16_ok (supported_groups p);
  po_signatures : Forall u16_ok (signature_algorithms p);
  po_versions : Forall u16_ok (supported_versions p) /\ len (supported_versions p) < 2 ^ 7;
  po_shares : Forall u16_ok (key_share_groups p);
  po_alpn : Forall (fun a => len a <= 255 /\ is_str a = true) (alpn p);
  po_tp : Forall tp_ok (quic_tp p);
  po_nodup : NoDup (extensions_order p);
  po_enabled : Forall (fun t => enabled p t = true) (extensions_order p);
}.

(** ** Lists of fields *)

Lemma zsum_app a b : zsum (a ++ b) = zsum a + zsum b.
Proof. unfold zsum in *. induction a as [|x a IH]; cbn [foldr app] in *; lia. Qed.
#[export] Instance zsum_Permutation : Proper (Permutation ==> eq) zsum.
Proof. intros a b Hp. unfold zsum. induction Hp; cbn [foldr]; lia. Qed.
Lemma len_flat_map {A} (f : A -> bytes) l : len (flat_map f l) = zsum (map (fun x => len (f x)) l).
Proof. induction l as [|x l IH]; cbn [flat_map map zsum foldr]; [done|]. by rewrite len_app, IH. Qed.
Lemma len_w16s l : len (flat_map w16 l) = 2 * len l.
Proof. induction l as [|x l IH]; [done|]. cbn [flat_map]. rewrite len_app, len_cons, IH. change (len (w16 x)) with 2. lia. Qed.
Lemma length_flat_map_ge {A} (f : A -> bytes) l : (forall x, In x l -> f x <> []) -> (length l <= length (flat_map f l))%nat.
Proof.
  intros Hf. induction l as [|x l IH]; cbn [flat_map length]; [done|]. rewrite length_app.
  assert (f x <> []) as Hx by (apply Hf; by left). destruct (f x); [done|]. cbn.
  assert (length l <= length (flat_map f l))%nat by (apply IH; intros; apply Hf; by right). lia.
Qed.

(** ** The extensions with a fixed body *)

(** The wire form of an extension. *)
Definition ext_wire (e : Z * bytes) : bytes := w16 (fst e) ++ w16 (len (snd e)) ++ snd e.

Lemma len_ext_wire e : len (ext_wire e) = 4 + len (snd e).
Proof. unfold ext_wire. rewrite !len_app, !len_w16. lia. Qed.

(** An extension the decoder reads as it should, and its bytes. *)
Definition ext_ok (p : Profile) (host : bytes) (s c t : Z) (body : bytes) : Prop :=
  ext_size p s c t <= 4 + len body <= ext_size p s c t + slack t /\
  (len body < 2 ^ 16 -> forall f, parse_extension f t body = Ret (contribution p host t body f)) /\
  (t = QUIC_TRANSPORT_PARAMS -> ids_ok p (tp_ids body)).
Definition ext_good (p : Profile) (host : bytes) (s c t : Z) (out : bytes) : Prop :=
  exists body, out = ext_wire (t, body) /\ ext_ok p host s c t body.

Lemma u16_vector_spec l rest :
  Forall u16_ok l -> 2 + 2 * len l < 2 ^ 16 -> u16_vector (w16 (len (flat_map w16 l)) ++ flat_map w16 l ++ rest) = Ret l.
Proof.
  intros Hl Hn. unfold u16_vector. pose proof (len_nonneg l). rewrite read16_app by (rewrite len_w16s; lia). cbn [obind].
  rewrite split_at_app by done. cbn [obind]. by apply u16s_spec.
Qed.

Lemma parse_alpn f b :
  parse_extension f ALPN b =
  let! l := read_while (length b) nonempty alpn_item (zdrop 2 b) in Ret (add [] [] [] [] l None [] f).
Proof. done. Qed.
Lemma parse_versions f b :
  parse_extension f SUPPORTED_VERSIONS b =
  let! (n, rest) := read8 b in let! (list, _) := split_at n rest in let! l := u16s list in Ret (add [] [] [] l [] None [] f).
Proof. done. Qed.
Lemma parse_key_share f b :
  parse_extension f KEY_SHARE b =
  let! l := read_while (length b) (fun l => 4 <=? len l) key_share_item (zdrop 2 b) in Ret (add [] l [] [] [] None [] f).
Proof. done. Qed.
Lemma parse_tp f b :
  parse_extension f QUIC_TRANSPORT_PARAMS b =
  let! l := read_while (length b) nonempty tp_item b in Ret (add [] [] [] [] [] None l f).
Proof. done. Qed.

Section Extensions.
Context {R : Type} `{RngCore R} `{!RngLaws R}.
Context (p : Profile) (host scid : bytes) (Hp : profile_ok p).

(** The name as the decoder reads it: the name itself when it is a string. *)
Abbreviation read_host := (from_utf8_lossy host).
Abbreviation good := (ext_good p read_host (len host) (len scid)).

Lemma server_name_good : good SERVER_NAME (ext_server_name host).
Proof.
  exists (w16 (3 + len host) ++ w8 0 ++ w16 (len host) ++ host). unfold ext_ok. pose proof (len_nonneg host) as Hh. split_and!.
  - unfold ext_server_name, ext_wire. cbn [fst snd]. by replace (len (w8 0 ++ w16 (len host) ++ host)) with (3 + len host) by len_lia.
  - change (ext_size p (len host) (len scid) SERVER_NAME) with (9 + len host). change (slack SERVER_NAME) with 0. len_lia.
  - change (ext_size p (len host) (len scid) SERVER_NAME) with (9 + len host). change (slack SERVER_NAME) with 0. len_lia.
  - intros Hb f. autorewrite with len in Hb. set (b := w16 _ ++ _).
    change (parse_extension f SERVER_NAME b) with (if (5 <=? len b) && (byte_at b 2 =? 0) then
      let! (h, _) := split_at (be16 b 3) (zdrop 5 b) in Ret (add [] [] [] [] [] (Some (from_utf8_lossy h)) [] f) else Ret f).
    rewrite (proj2 (Z.leb_le 5 _)) by (unfold b; len_lia).
    assert (byte_at b 2 = 0) as -> by (unfold byte_at, b; by rewrite slice_mid).
    assert (be16 b 3 = len host) as ->.
    { unfold be16, b. rewrite app_assoc, slice_mid by done. apply of_be_to_be. lia. }
    assert (zdrop 5 b = host ++ []) as -> by (unfold b; rewrite app_nil_r, !app_assoc; by apply zdrop_app_exact).
    by rewrite split_at_app by done.
  - done.
Qed.

Lemma u16_list_good t l :
  t = SUPPORTED_GROUPS /\ l = supported_groups p \/ t = SIGNATURE_ALGORITHMS /\ l = signature_algorithms p ->
  good t (ext_u16_list t l).
Proof.
  intros Ht. assert (Forall u16_ok l /\ ext_size p (len host) (len scid) t = 6 + 2 * len l /\ slack t = 0) as (Hl & Hsz & Hsl).
  { destruct Hp. by destruct Ht as [[-> ->]|[-> ->]]. }
  exists (w16 (len (flat_map w16 l)) ++ flat_map w16 l). unfold ext_ok. rewrite Hsz, Hsl. split_and!.
  - unfold ext_u16_list, ext_wire. cbn [fst snd]. by rewrite (len_app (w16 _)).
  - rewrite len_app, len_w16s, len_w16. lia.
  - rewrite len_app, len_w16s, len_w16. lia.
  - rewrite len_app, len_w16s, len_w16. intros Hb f. pose proof (u16_vector_spec l [] Hl Hb) as Hv. rewrite app_nil_r, len_w16s in Hv.
    destruct Ht as [[-> ->]|[-> ->]]; unfold parse_extension; rewrite Hv; reflexivity.
  - by destruct Ht as [[-> _]|[-> _]].
Qed.

Lemma alpn_good : good ALPN (ext_alpn (alpn p)).
Proof.
  pose proof (po_alpn p Hp) as Ha. rewrite List.Forall_forall in Ha.
  set (enc := fun s : bytes => w8 (len s) ++ s). exists (w16 (len (flat_map enc (alpn p))) ++ flat_map enc (alpn p)). unfold ext_ok.
  assert (flat_map (fun s => if 255 <? len s then [] else w8 (len s) ++ s) (alpn p) = flat_map enc (alpn p)) as Hf.
  { rewrite !flat_map_concat_map. f_equal. apply map_ext_in. intros s Hs. destruct (Ha s Hs). by rewrite (proj2 (Z.ltb_ge _ _)). }
  assert (len (flat_map enc (alpn p)) = zsum (map (fun a => 1 + len a) (alpn p))) as Hn.
  { rewrite len_flat_map. f_equal. apply map_ext. intros s. unfold enc. by rewrite len_app. }
  change (ext_size p (len host) (len scid) ALPN) with (6 + zsum (map (fun a => 1 + len a) (alpn p))). change (slack ALPN) with 0.
  split_and!.
  - unfold ext_alpn, ext_wire. rewrite Hf. cbn [fst snd]. by rewrite (len_app (w16 _)).
  - rewrite len_app, len_w16, Hn. lia.
  - rewrite len_app, len_w16, Hn. lia.
  - intros Hb f. rewrite parse_alpn, zdrop_app_exact by done.
    rewrite (read_while_spec _ _ _ enc id); [by rewrite map_id|done| |].
    + intros s rest Hs. destruct (Ha s Hs) as [Hs1 Hs2]. unfold enc, nonempty, alpn_item. rewrite <- !app_assoc. split.
      * apply Z.ltb_lt. len_lia.
      * rewrite read8_app by (pose proof (len_nonneg s); lia). cbn [obind]. rewrite split_at_app by done. cbn [obind].
        by rewrite from_utf8_lossy_str.
    + rewrite length_app. pose proof (length_flat_map_ge enc (alpn p)) as Hl. cbn in Hl.
      specialize (Hl ltac:(done)). unfold enc in *. lia.
  - done.
Qed.

Lemma versions_good : good SUPPORTED_VERSIONS (ext_supported_versions (supported_versions p)).
Proof.
  destruct (po_versions p Hp) as [Hv Hl]. exists (w8 (len (flat_map w16 (supported_versions p))) ++ flat_map w16 (supported_versions p)). unfold ext_ok.
  change (ext_size p (len host) (len scid) SUPPORTED_VERSIONS) with (5 + 2 * len (supported_versions p)).
  change (slack SUPPORTED_VERSIONS) with 0. pose proof (len_nonneg (supported_versions p)). split_and!.
  - unfold ext_supported_versions, ext_wire. cbn [fst snd]. by rewrite (len_app (w8 _)).
  - rewrite len_app, len_w16s, len_w8. lia.
  - rewrite len_app, len_w16s, len_w8. lia.
  - intros _ f. rewrite parse_versions, len_w16s, read8_app by lia. cbn [obind].
    rewrite <- (app_nil_r (flat_map w16 (supported_versions p))), split_at_app by (by rewrite len_w16s). cbn [obind].
    by rewrite u16s_spec.
  - done.
Qed.

(** The extensions whose body is fixed and read by nobody. *)
Lemma constant_good t body :
  ext_size p (len host) (len scid) t = 4 + len body -> contribution p read_host t body = id -> (forall f, parse_extension f t body = Ret f) ->
  t <> QUIC_TRANSPORT_PARAMS -> t <> ENCRYPTED_CLIENT_HELLO -> good t (ext_wire (t, body)).
Proof.
  intros Hs Hc Hf Ht He. exists body. unfold ext_ok. assert (slack t = 0) as -> by (unfold slack; by rewrite (proj2 (Z.eqb_neq _ _))).
  split_and!; [done|lia|lia| |done]. intros _ f. by rewrite Hc.
Qed.

(** ** Key shares *)

Definition share_wire (k : Z * bytes) : bytes := w16 (fst k) ++ w16 (key_share_size (fst k)) ++ snd k.

Lemma key_share_size_range g : 32 <= key_share_size g <= 1216.
Proof. unfold key_share_size. repeat case_match; lia. Qed.

Lemma key_share_entries_spec gs :
  gwp (key_share_entries gs) (fun e => exists ks, e = flat_map share_wire ks /\ map fst ks = gs /\
    Forall (fun k => len (snd k) = key_share_size (fst k)) ks).
Proof.
  induction gs as [|g gs IH]; cbn [key_share_entries]; [apply gwp_ret; by exists []|].
  pose proof (key_share_size_range g) as Hg. apply gwp_bind. eapply (gwp_mono _ (fun k => len k = key_share_size g)).
  - destruct (g =? 0x0017); [|by apply gwp_bytes; [lia|]]. apply gwp_bind, gwp_bytes; [lia|]. intros b Hb. apply gwp_ret. len_lia.
  - intros k Hk. apply gwp_bind. eapply gwp_mono; [exact IH|]. intros e (ks & -> & Hks & Hl). apply gwp_ret.
    exists ((g, k) :: ks). cbn [flat_map map fst]. unfold share_wire at 2. cbn [fst snd]. rewrite <- !app_assoc, Hks. split_and!; [done|done|].
    by apply List.Forall_cons.
Qed.

Lemma key_share_good : gwp (ext_key_share (key_share_groups p)) (good KEY_SHARE).
Proof.
  unfold ext_key_share. apply gwp_bind. eapply gwp_mono; [apply key_share_entries_spec|]. intros e (ks & -> & Hks & Hl).
  apply gwp_ret. set (e := flat_map share_wire ks). exists (w16 (len e) ++ e). unfold ext_ok. rewrite List.Forall_forall in Hl.
  assert (len e = zsum (map (fun g => 4 + key_share_size g) (key_share_groups p))) as Hn.
  { unfold e. rewrite len_flat_map, <- Hks, map_map. f_equal. apply map_ext_in. intros k Hk. unfold share_wire.
    rewrite !len_app, !len_w16, (Hl k Hk). lia. }
  change (ext_size p (len host) (len scid) KEY_SHARE) with (6 + zsum (map (fun g => 4 + key_share_size g) (key_share_groups p))).
  change (slack KEY_SHARE) with 0. split_and!; [by unfold ext_wire; cbn [fst snd]; rewrite (len_app (w16 _))| | | |done].
  - rewrite len_app, len_w16. lia.
  - rewrite len_app, len_w16. lia.
  - intros _ f. rewrite parse_key_share, zdrop_app_exact by done. unfold e.
    rewrite (read_while_spec _ _ _ share_wire fst); [by rewrite Hks|done| |].
    + intros k rest Hk. unfold share_wire, key_share_item. rewrite <- !app_assoc. pose proof (key_share_size_range (fst k)).
      split; [apply Z.leb_le; len_lia|]. assert (u16_ok (fst k)) as Hk'.
      { pose proof (po_shares p Hp) as Hs. rewrite List.Forall_forall in Hs. apply Hs. rewrite <- Hks. by apply in_map. }
      rewrite read16_app by exact Hk'. cbn [obind]. rewrite read16_app by lia. cbn [obind].
      by rewrite zdrop_app_exact by (by rewrite (Hl k Hk)).
    + rewrite length_app. pose proof (length_flat_map_ge share_wire ks ltac:(done)). lia.
Qed.

(** ** Transport parameters *)

Definition param_ok (e : Z * bytes) : Prop := 0 <= fst e < 2 ^ 62 /\ len (snd e) < 2 ^ 62.
Definition param_size (e : Z * bytes) : Z := vsize (fst e) + vsize (len (snd e)) + len (snd e).

Lemma vsize_write v b : 0 <= v -> Varint.write v = Ret b -> vsize v = len b.
Proof.
  intros Hv Hw. unfold vsize. destruct (Varint.varint_roundtrip v [] Hv) as [Hr Hp'].
  destruct (Z.lt_ge_cases v (2 ^ 62)) as [Hlt|Hge]; [|destruct (Hp' Hge); by rewrite Hw in *].
  destruct (Hr Hlt) as (b' & Hb & -> & _). rewrite Hw in Hb. by injection Hb as <-.
Qed.
Lemma vsize_small v : 0 <= v < 64 -> vsize v = 1.
Proof. intros Hv. unfold vsize, Varint.size. by rewrite (proj2 (Z.ltb_lt _ _)) by (change (2 ^ 6) with 64; lia). Qed.

Lemma tp_body_spec params :
  Forall param_ok params ->
  exists body, tp_body params = Ret body /\ len body = zsum (map param_size params) /\ len params <= len body /\
    forall fuel, (length params <= fuel)%nat -> read_while fuel nonempty tp_item body = Ret (map fst params).
Proof.
  induction params as [|[i v] params IH]; intros Hok.
  { exists []. split_and!; [done|done|done|]. by intros []. }
  apply List.Forall_cons_iff in Hok as [[Hi Hv] Hok]. cbn [fst snd] in *. destruct (IH Hok) as (body & Hb & Hn & Hl & Hr).
  pose proof (varint_write_safe i Hi) as Hwi. pose proof (varint_write_safe (len v)) as Hwv. cbn [tp_body].
  destruct (Varint.write i) as [a|] eqn:Ha; [|done]. destruct (Varint.write (len v)) as [b|] eqn:Hbv;
    [|exfalso; apply Hwv; pose proof (len_nonneg v); lia].
  cbn [obind safely] in *. rewrite Hb. cbn [obind]. eexists. split; [done|]. split_and!.
  - cbn [map]. unfold zsum in *. cbn [foldr]. rewrite <- Hn. unfold param_size. cbn [fst snd].
    rewrite (vsize_write i a), (vsize_write (len v) b) by (done || lia || apply len_nonneg). rewrite !len_app. lia.
  - len_lia.
  - intros [|fuel] Hf; [cbn in Hf; lia|]. cbn [read_while]. unfold nonempty at 1.
    rewrite (proj2 (Z.ltb_lt _ _)) by len_lia. cbn [negb]. unfold tp_item at 1. rewrite (read_varint_app i) by (done || lia).
    cbn [obind]. rewrite (read_varint_app (len v)) by (done || apply len_nonneg). cbn [obind]. rewrite zdrop_app_exact by done.
    rewrite Hr by (cbn in Hf; lia). done.
Qed.

Lemma resolve_tp_spec e :
  tp_ok e -> len scid < 2 ^ 62 ->
  gwp (resolve_tp scid e) (fun x => param_ok x /\ tp_id_ok e (fst x) /\ param_size x = tp_size (len scid) e).
Proof.
  intros He Hc. destruct e as [i v|i b|i|i|]; cbn [resolve_tp tp_ok] in *.
  - destruct He as [Hi Hv]. pose proof (varint_write_safe v Hv) as Hw. apply gwp_bind, gwp_pure.
    destruct (Varint.write v) as [b|] eqn:Hb; [|done]. cbn [safely] in *. apply gwp_ret. unfold param_ok, param_size. cbn [fst snd tp_size].
    rewrite (vsize_write v b), (vsize_small (len b)) by (done || lia). split_and!; done || lia.
  - apply gwp_ret. done.
  - apply gwp_bind. eapply gwp_mono; [apply version_information_len|]. intros v Hv. apply gwp_ret.
    unfold param_ok, param_size. cbn [fst snd tp_size]. rewrite Hv. split_and!; done || lia.
  - by apply gwp_ret.
  - apply gwp_bind. eapply gwp_mono; [apply grease_tp_id_spec|]. intros i [Hi Hm]. apply gwp_bind, gwp_bytes; [lia|].
    intros v Hv. apply gwp_ret. unfold param_ok, param_size. cbn [fst snd tp_size]. rewrite Hv. split_and!; try done; try lia.
    unfold vsize, Varint.size. by rewrite !(proj2 (Z.ltb_ge _ _)), (proj2 (Z.ltb_lt _ _)) by lia.
Qed.

Lemma resolve_tps_spec es :
  Forall tp_ok es -> len scid < 2 ^ 62 ->
  gwp (resolve_tps scid es) (fun xs => Forall param_ok xs /\ Forall2 tp_id_ok es (map fst xs) /\
    zsum (map param_size xs) = zsum (map (tp_size (len scid)) es)).
Proof.
  intros Hes Hc. induction es as [|e es IH]; cbn [resolve_tps]; [apply gwp_ret; by split_and!; constructor|].
  apply List.Forall_cons_iff in Hes as [He Hes]. apply gwp_bind. eapply gwp_mono; [by apply resolve_tp_spec|].
  intros x (Hx & Hid & Hsz). apply gwp_bind. eapply gwp_mono; [by apply IH|]. intros xs (Hxs & Hids & Hszs). apply gwp_ret.
  unfold zsum in *. cbn [map foldr]. rewrite Hsz, Hszs. split_and!; [by apply List.Forall_cons|by constructor|done].
Qed.

Lemma tp_good : len scid < 2 ^ 62 -> gwp (ext_quic_tp p scid) (good QUIC_TRANSPORT_PARAMS).
Proof.
  intros Hc. unfold ext_quic_tp. apply gwp_bind. eapply gwp_mono; [apply resolve_tps_spec; [apply (po_tp p Hp)|done]|].
  intros xs (Hxs & Hids & Hsz). apply gwp_bind. eapply gwp_mono; [apply shuffle_spec|]. intros ys Hy.
  apply gwp_bind, gwp_pure. destruct (tp_body_spec ys) as (body & -> & Hn & Hl & Hr); [by rewrite Hy|]. cbn [safely]. apply gwp_ret.
  rewrite Hy, Hsz in Hn. assert (read_while (length body) nonempty tp_item body = Ret (map fst ys)) as Hrd
    by (apply Hr; unfold len in Hl; lia).
  exists body. unfold ext_ok. change (ext_size p (len host) (len scid) QUIC_TRANSPORT_PARAMS) with (4 + zsum (map (tp_size (len scid)) (quic_tp p))).
  change (slack QUIC_TRANSPORT_PARAMS) with 0. split_and!; [done|lia|lia| |].
  - intros _ f. rewrite parse_tp, Hrd. unfold contribution, tp_ids. by rewrite Hrd.
  - intros _. unfold tp_ids. rewrite Hrd. exists (map fst xs). split; [by rewrite Hy|done].
Qed.

(** ** The encrypted ClientHello *)

Lemma ech_good : gwp ext_encrypted_client_hello (good ENCRYPTED_CLIENT_HELLO).
Proof.
  unfold ext_encrypted_client_hello. apply gwp_bind, gwp_u64. intros w _. apply gwp_bind, gwp_bytes; [lia|]. intros enc Henc.
  apply gwp_bind, gwp_u64. intros v _. pose proof (Z.mod_pos_bound v 51 ltac:(lia)). apply gwp_bind, gwp_bytes; [lia|].
  intros b Hb. apply gwp_ret.
  exists (w8 0 ++ map byte.of_Z [0; 1; 0; 1] ++ w8 (Z.land w 0xff) ++ w16 32 ++ enc ++ w16 (150 + v mod 51) ++ b).
  split; [done|]. unfold ext_ok. change (ext_size p (len host) (len scid) ENCRYPTED_CLIENT_HELLO) with 196. change (slack ENCRYPTED_CLIENT_HELLO) with 50.
  split; [|split; [|done]].
  - rewrite !len_app, !len_w8, !len_w16, Henc, Hb. change (len (map byte.of_Z [0; 1; 0; 1])) with 4. lia.
  - intros _ f. reflexivity.
Qed.

(** Every extension a profile lists is written so that the decoder reads it back. *)
Lemma build_extension_good t :
  enabled p t = true -> len scid < 2 ^ 62 -> gwp (build_extension t p host scid) (good t).
Proof.
  intros He Hc. unfold enabled in He. rewrite !orb_true_iff, existsb_exists, !andb_true_iff in He.
  destruct He as [[(u & Hu & ->%Z.eqb_eq)|[->%Z.eqb_eq Ha]]|[->%Z.eqb_eq Ha]].
  - cbn [In] in Hu. destruct_or! Hu; subst u; try done.
    + apply gwp_ret, server_name_good.
    + apply gwp_ret, alpn_good.
    + apply gwp_ret, u16_list_good. by left.
    + apply gwp_ret, u16_list_good. by right.
    + apply gwp_ret, versions_good.
    + apply gwp_ret. by apply (constant_good _ (w8 1 ++ w8 1)).
    + apply key_share_good.
    + by apply tp_good.
    + apply gwp_ret. change (good COMPRESS_CERTIFICATE (ext_compress_cert (bool_decide (name p = Firefox)))).
      destruct (bool_decide (name p = Firefox)) eqn:Hf;
        [apply (constant_good _ (w8 6 ++ w16 1 ++ w16 3 ++ w16 2))|apply (constant_good _ (w8 2 ++ w16 2))]; try done;
        change (ext_size _ _ _ _) with (if bool_decide (name p = Firefox) then 11 else 7); by rewrite Hf.
    + apply gwp_ret. by apply (constant_good _ (w16 16385)).
    + apply gwp_ret. by apply (constant_good _ (w8 0)).
    + apply gwp_ret. by apply (constant_good _ (w8 1 ++ w16 0 ++ w16 0)).
    + apply gwp_ret. by apply (constant_good _ []).
    + apply gwp_ret. by apply (constant_good _ (w16 8 ++ flat_map w16 [0x0403; 0x0503; 0x0603; 0x0203])).
  - change (gwp (mret (if include_unknown_17613 p then ext_application_settings else []) : G R bytes) (good APPLICATION_SETTINGS)).
    rewrite Ha. apply gwp_ret. by apply (constant_good _ (map byte.of_Z [0x00; 0x03; 0x02; 0x68; 0x33])).
  - change (gwp (if true && enable_ech p then ext_encrypted_client_hello else mret [] : G R bytes) (good ENCRYPTED_CLIENT_HELLO)).
    rewrite Ha. apply ech_good.
Qed.

(** ** The block of extensions *)

Definition exts_good (order : list Z) (exts : list (Z * bytes)) : Prop :=
  map fst exts = order /\ Forall (fun e => ext_ok p read_host (len host) (len scid) (fst e) (snd e)) exts.

Lemma build_extensions_good order :
  Forall (fun t => enabled p t = true) order -> len scid < 2 ^ 62 ->
  gwp (build_extensions order p host scid) (fun out => exists exts, out = flat_map ext_wire exts /\ exts_good order exts).
Proof.
  intros Ho Hc. induction order as [|t order IH]; cbn [build_extensions]; [apply gwp_ret; exists []; by repeat split|].
  apply List.Forall_cons_iff in Ho as [Ht Ho]. apply gwp_bind. eapply gwp_mono; [by apply build_extension_good|].
  intros e (body & -> & Hb). apply gwp_bind. eapply gwp_mono; [by apply IH|]. intros es (exts & -> & <- & Hes). apply gwp_ret.
  exists ((t, body) :: exts). split; [done|]. split; [done|]. by apply List.Forall_cons.
Qed.

Lemma exts_len order exts :
  exts_good order exts ->
  zsum (map (ext_size p (len host) (len scid)) order) <= len (flat_map ext_wire exts)
    <= zsum (map (ext_size p (len host) (len scid)) order) + zsum (map slack order).
Proof.
  intros [<- He]. induction exts as [|[t b] exts IH]; [done|]. apply List.Forall_cons_iff in He as [[Hb _] He]. specialize (IH He).
  unfold zsum in *. cbn [flat_map map foldr fst snd] in *. rewrite len_app, len_ext_wire. cbn [snd]. lia.
Qed.
End Extensions.

(** ** Contributions commute *)

Lemma contribution_comm p host t b u b' f :
  t <> u -> contribution p host t b (contribution p host u b' f) = contribution p host u b' (contribution p host t b f).
Proof.
  intros Hne. unfold contribution. repeat case_match; zbool; try congruence; unfold add, id; cbn; by rewrite ?app_nil_r.
Qed.
Lemma contribution_push p host t b u f :
  contribution p host t b (push_extension u f) = push_extension u (contribution p host t b f).
Proof. unfold contribution. repeat case_match; done. Qed.

Definition contribute (p : Profile) (host : bytes) (exts : list (Z * bytes)) (f : Fingerprint) : Fingerprint :=
  fold_left (fun f e => contribution p host (fst e) (snd e) f) exts f.
Definition push_all (ts : list Z) (f : Fingerprint) : Fingerprint := fold_left (fun f t => push_extension t f) ts f.

Lemma contribute_Permutation p host exts exts' f :
  exts ≡ₚ exts' -> NoDup (map fst exts) -> contribute p host exts f = contribute p host exts' f.
Proof.
  intros Hp. revert f. induction Hp as [|e l l' Hp IH|e e' l|l1 l2 l3 H1 IH1 H2 IH2]; intros f Hnd; cbn in *.
  - done.
  - apply NoDup_cons in Hnd as [_ Hnd]. by apply IH.
  - apply NoDup_cons in Hnd as [Hn _]. rewrite contribution_comm; [done|]. intros He. apply Hn. rewrite He. by left.
  - rewrite IH1 by done. apply IH2. by rewrite <- H1.
Qed.

Lemma contribute_push p host exts u f : contribute p host exts (push_extension u f) = push_extension u (contribute p host exts f).
Proof. revert f. induction exts as [|e exts IH]; intros f; [done|]. cbn. rewrite contribution_push. apply IH. Qed.

(** The loop of the decoder over a block of extensions. *)
Lemma parse_extensions_spec p host s c exts fuel f :
  Forall (fun e => u16_ok (fst e) /\ len (snd e) < 2 ^ 16 /\ ext_ok p host s c (fst e) (snd e)) exts -> (length exts <= fuel)%nat ->
  parse_extensions fuel (len (flat_map ext_wire exts)) f (flat_map ext_wire exts) =
  Ret (push_all (map fst exts) (contribute p host exts f)).
Proof.
  revert fuel f. induction exts as [|[t b] exts IH]; intros fuel f He Hf.
  { by destruct fuel. }
  destruct fuel as [|fuel]; [cbn in Hf; lia|]. apply List.Forall_cons_iff in He as [(Ht & Hb & Hok) He]. cbn [fst snd] in *.
  pose proof (len_nonneg b). pose proof (len_nonneg (flat_map ext_wire exts)). cbn [flat_map map parse_extensions].
  rewrite len_app, len_ext_wire. cbn [snd]. rewrite (proj2 (Z.ltb_ge _ _)) by lia. change (ext_wire (t, b)) with (w16 t ++ w16 (len b) ++ b).
  rewrite <- !app_assoc, read16_app by done. cbn [obind]. rewrite read16_app by lia. cbn [obind]. rewrite split_at_app by done. cbn [obind].
  destruct Hok as (_ & Hparse & _). rewrite Hparse by done. cbn [obind].
  replace (4 + len b + len (flat_map ext_wire exts) - (4 + len b)) with (len (flat_map ext_wire exts)) by lia.
  rewrite IH by (done || cbn in Hf; lia). cbn. by rewrite contribution_push, contribute_push.
Qed.

Lemma push_all_spec ts f :
  extensions (push_all ts f) = extensions f ++ ts /\
  push_all ts f = {| legacy_session_id_len := legacy_session_id_len f; fp_cipher_suites := fp_cipher_suites f;
    extensions := extensions f ++ ts; fp_supported_groups := fp_supported_groups f;
    fp_key_share_groups := fp_key_share_groups f; fp_signature_algorithms := fp_signature_algorithms f;
    fp_supported_versions := fp_supported_versions f; fp_alpn := fp_alpn f; sni := sni f;
    transport_param_ids := transport_param_ids f |}.
Proof.
  assert (push_all ts f = {| legacy_session_id_len := legacy_session_id_len f; fp_cipher_suites := fp_cipher_suites f;
    extensions := extensions f ++ ts; fp_supported_groups := fp_supported_groups f;
    fp_key_share_groups := fp_key_share_groups f; fp_signature_algorithms := fp_signature_algorithms f;
    fp_supported_versions := fp_supported_versions f; fp_alpn := fp_alpn f; sni := sni f;
    transport_param_ids := transport_param_ids f |}) as ->; [|done].
  revert f. induction ts as [|t ts IH]; intros f; cbn [push_all fold_left].
  - rewrite app_nil_r. by destruct f.
  - unfold push_all in IH. rewrite IH. cbn. by rewrite <- app_assoc.
Qed.

(** ** The profiles *)

Lemma for_browser_ok b p : for_browser b = Ret p -> profile_ok p.
Proof.
  intros Hb. destruct b; try done; injection Hb as <-; (split; [..|by apply (bool_decide_unpack _)|]);
    repeat match goal with
    | |- _ /\ _ => split
    | |- Forall _ [] => apply List.Forall_nil
    | |- Forall _ (_ :: _) => apply List.Forall_cons
    | |- Forall _ (_ _) => cbn
    end; try done; unfold u16_ok, PQ_HYBRID_GROUP; cbn; lia.
Qed.

(** The header of a ClientHello, extensions and their length apart. *)
Definition hello_head (p : Profile) : Z :=
  4 + 2 + 32 + 1 + (if use_empty_session_id p then 0 else 32) + 2 + 2 * len (cipher_suites p) + 2 + 2.
Definition hello_size (p : Profile) (s c : Z) : Z := hello_head p + zsum (map (ext_size p s c) (extensions_order p)).

Lemma ext_size_host p s c t : ext_size p s c t = ext_size p 0 c t + (if t =? SERVER_NAME then s else 0).
Proof. unfold ext_size. destruct (t =? SERVER_NAME); lia. Qed.
Lemma zsum_map_add {A} (f g : A -> Z) l : zsum (map (fun x => f x + g x) l) = zsum (map f l) + zsum (map g l).
Proof. unfold zsum. induction l as [|x l IH]; cbn [map foldr]; lia. Qed.
Lemma hello_size_host p s c :
  hello_size p s c = hello_size p 0 c + zsum (map (fun t => if t =? SERVER_NAME then s else 0) (extensions_order p)).
Proof.
  unfold hello_size. rewrite <- Z.add_assoc, <- zsum_map_add. do 2 f_equal. apply map_ext. intros t. apply ext_size_host.
Qed.

(** The source connection id a profile takes. *)
Definition scid_len (b : BrowserProfile) : Z := if bool_decide (b = Firefox) then 3 else 0.

Lemma browser_sizes b p s :
  for_browser b = Ret p ->
  hello_size p s (scid_len b) = (match b with Chrome => 1684 | Firefox => 1786 | _ => 440 end) + s /\
  zsum (map slack (extensions_order p)) = 50 /\
  packet_target p = (match b with Firefox => 1252 | _ => 1250 end).
Proof.
  intros Hb. rewrite hello_size_host. destruct b; try done; injection Hb as <-; (split; [|done]);
   (match goal with |- ?a + ?x = ?k + _ => assert (x = s) as -> by (cbn; lia); by assert (a = k) as -> by (vm_compute; reflexivity) end).
Qed.

(** A list whose keys are known is a list of pairs with those keys. *)
Ltac explode H :=
  match type of H with
  | _ :: _ = map fst ?l => let t := fresh "t" in let b := fresh "b" in
      destruct l as [|[t b] l]; [discriminate H|]; cbn [map fst] in H;
      let E := fresh in injection H as E H; subst t; explode H
  | [] = map fst ?l => destruct l; [clear H|discriminate H]
  end.

(** What is read of the extensions of a browser is its fingerprint. *)
Lemma contribute_matches b p host s c exts n :
  for_browser b = Ret p -> map fst exts ≡ₚ extensions_order p ->
  Forall (fun e => ext_ok p host s c (fst e) (snd e)) exts -> n = (if use_empty_session_id p then 0 else 32) ->
  matches p host (push_all (map fst exts) (contribute p host exts {|
    legacy_session_id_len := n; fp_cipher_suites := cipher_suites p; extensions := []; fp_supported_groups := [];
    fp_key_share_groups := []; fp_signature_algorithms := []; fp_supported_versions := []; fp_alpn := [];
    sni := None; transport_param_ids := [] |})).
Proof.
  intros Hb Hperm He Hn. pose proof (for_browser_ok b p Hb) as Hok.
  destruct (Permutation_map_inv _ _ (symmetry Hperm)) as (exts' & Heq & Hexts).
  rewrite (contribute_Permutation p host exts exts'); [|done|rewrite Hperm; by apply po_nodup].
  rewrite Hexts in He. set (ts := map fst exts) in *. clearbody ts. clear Hexts exts Hok. rewrite (proj2 (push_all_spec _ _)).
  destruct b; try done; injection Hb as <-; subst n; cbn [extensions_order chrome firefox curl] in Heq, Hperm; explode Heq.
  all: split; try reflexivity; [exact Hperm|]. 
  all: repeat match goal with Hf : Forall _ (_ :: _) |- _ => apply List.Forall_cons_iff in Hf as [[_ [_ ?]] Hf] end.
  all: cbn [fst snd] in *; match goal with Hf : QUIC_TRANSPORT_PARAMS = QUIC_TRANSPORT_PARAMS -> _ |- _ => exact (Hf eq_refl) end.
Qed.

Lemma enabled_u16 p t : enabled p t = true -> u16_ok t.
Proof.
  intros He. unfold enabled in He. rewrite !orb_true_iff, existsb_exists, !andb_true_iff in He.
  destruct He as [[(u & Hu & ->%Z.eqb_eq)|[->%Z.eqb_eq _]]|[->%Z.eqb_eq _]]; [|done|done].
  cbn [In] in Hu. destruct_or! Hu; subst u; done.
Qed.
Lemma ext_body_le exts e : In e exts -> 4 + len (snd e) <= len (flat_map ext_wire exts).
Proof.
  induction exts as [|x exts IH]; [done|]. cbn [In flat_map]. rewrite len_app. pose proof (len_nonneg (flat_map ext_wire exts)).
  intros [-> |Hin]; [|specialize (IH Hin); pose proof (len_nonneg (ext_wire x)); lia].
  rewrite len_ext_wire. lia.
Qed.

(** A ClientHello before its extensions. *)
Definition hello_prefix (p : Profile) (rnd sid : bytes) : bytes :=
  w16 0x0303 ++ rnd ++ sid ++ w16 (len (cipher_suites p) * 2) ++ flat_map w16 (cipher_suites p) ++ w8 1 ++ w8 0.

(** The length written over its placeholder. *)
Lemma backpatch (pre e : bytes) :
  ztake (len pre) ((pre ++ w16 0) ++ e) ++ w16 (len ((pre ++ w16 0) ++ e) - len (pre ++ w16 0)) ++
    zdrop (len pre + 2) ((pre ++ w16 0) ++ e) = pre ++ w16 (len e) ++ e.
Proof.
  rewrite (len_app (pre ++ w16 0)). replace (len (pre ++ w16 0) + len e - len (pre ++ w16 0)) with (len e) by lia.
  rewrite zdrop_app_exact by (by rewrite len_app). by rewrite <- app_assoc, ztake_app_exact.
Qed.

Lemma parse_hello p rnd n rest e k :
  profile_ok p -> len rnd = 32 -> 0 <= n <= 32 -> len rest = n -> len e < 2 ^ 16 ->
  parse_clienthello (w8 1 ++ w24 k ++ hello_prefix p rnd (w8 n ++ rest) ++ w16 (len e) ++ e) =
  parse_extensions (length e) (len e) {|
    legacy_session_id_len := n; fp_cipher_suites := cipher_suites p; extensions := []; fp_supported_groups := [];
    fp_key_share_groups := []; fp_signature_algorithms := []; fp_supported_versions := []; fp_alpn := [];
    sni := None; transport_param_ids := [] |} e.
Proof.
  intros Hok Hr Hn Hs He. destruct (po_suites p Hok) as [Hcs Hcl]. unfold parse_clienthello, hello_prefix.
  pose proof (len_nonneg e). pose proof (len_nonneg (cipher_suites p)). rewrite read8_app by lia. cbn [obind Z.eqb negb].
  rewrite <- !app_assoc. set (l := rest ++ _).
  replace (w24 k ++ w16 0x0303 ++ rnd ++ w8 n ++ l) with ((w24 k ++ w16 0x0303 ++ rnd) ++ w8 n ++ l) by (by rewrite <- !app_assoc).
  rewrite split_at_app by len_lia. cbn [obind]. rewrite read8_app by lia. cbn [obind]. unfold l. rewrite split_at_app by done. cbn [obind].
  rewrite read16_app by lia. cbn [obind]. rewrite split_at_app by (rewrite len_w16s; lia). cbn [obind]. rewrite u16s_spec by done. cbn [obind].
  rewrite read8_app by lia. cbn [obind]. rewrite split_at_app by done. cbn [obind]. rewrite read16_app by lia. done.
Qed.

Section Hello.
Context {R : Type} `{RngCore R} `{!RngLaws R}.

(** The ClientHello of a browser: its size and what is read from it. *)
Lemma client_hello_spec b p host scid :
  for_browser b = Ret p -> len scid = scid_len b -> len host <= 253 ->
  gwp (generate_client_hello p host scid) (fun ch =>
    hello_size p (len host) (len scid) <= len ch <= hello_size p (len host) (len scid) + 50 /\
    exists f, parse_clienthello ch = Ret f /\ matches p (from_utf8_lossy host) f).
Proof.
  intros Hb Hc Hl. pose proof (for_browser_ok b p Hb) as Hok. unfold generate_client_hello.
  apply gwp_bind, gwp_bytes; [lia|]. intros rnd Hrnd. apply gwp_bind.
  set (n := if use_empty_session_id p then 0 else 32).
  eapply (gwp_mono _ (fun sid => exists rest, sid = w8 n ++ rest /\ len rest = n)).
  { unfold n. destruct (use_empty_session_id p); [apply gwp_ret; by exists []|].
    apply gwp_bind, gwp_bytes; [lia|]. intros sid Hsid. apply gwp_ret. by exists sid. }
  intros sid (rest & -> & Hsid). apply gwp_bind.
  eapply (gwp_mono _ (fun order => order ≡ₚ extensions_order p)).
  { destruct (randomize_extensions_order p); [apply shuffle_spec|by apply gwp_ret]. }
  intros order Horder. apply gwp_bind. eapply gwp_mono; [apply (build_extensions_good p host scid Hok order)|].
  { rewrite Horder. apply (po_enabled p Hok). }
  { rewrite Hc. unfold scid_len. by case_bool_decide. }
  intros out (exts & -> & Hg). apply gwp_ret.
  destruct (browser_sizes b p (len host) Hb) as (Hsz & Hsl & _). rewrite <- Hc in Hsz. pose proof (len_nonneg host) as Hh0.
  pose proof (exts_len p host scid order exts Hg) as Hlen. rewrite Horder, Hsl in Hlen. set (e := flat_map ext_wire exts) in *.
  fold (hello_prefix p rnd (w8 n ++ rest)). rewrite backpatch. set (pre := hello_prefix p rnd (w8 n ++ rest)).
  assert (4 + len pre + 2 = hello_head p) as Hpre.
  { unfold pre, hello_prefix, hello_head. rewrite !len_app, !len_w16, !len_w8, len_w16s, Hrnd, Hsid. fold n. lia. }
  unfold hello_size in *. assert (0 <= len pre) by apply len_nonneg. split.
  { rewrite !len_app, len_w8, len_w24, len_w16. lia. }
  assert (len e < 2 ^ 16) as He by (destruct b; lia). unfold pre. rewrite parse_hello by (done || unfold n; destruct (use_empty_session_id p); lia).
  destruct Hg as [Hg1 Hg2]. eexists. split.
  - apply (parse_extensions_spec p (from_utf8_lossy host) (len host) (len scid)).
    + rewrite List.Forall_forall in *. intros x Hx. pose proof (ext_body_le exts x Hx) as Hle. fold e in Hle. split_and!; [|lia|by apply Hg2].
      apply (enabled_u16 p). pose proof (po_enabled p Hok) as Hen. rewrite <- Horder, <- Hg1, List.Forall_forall in Hen.
      apply Hen. by apply in_map.
    + apply length_flat_map_ge. done.
  - apply (contribute_matches b p (from_utf8_lossy host) (len host) (len scid)); [done|by rewrite Hg1|done|done].
Qed.
End Hello.

(** ** The CRYPTO stream *)

Lemma crypto_fragments_mono fuel fuel' l r :
  crypto_fragments fuel l = Ret r -> (fuel <= fuel')%nat -> crypto_fragments fuel' l = Ret r.
Proof.
  revert fuel' l r. induction fuel as [|fuel IH]; intros fuel' l r Hr Hf.
  { destruct l; [|done]. by destruct fuel'. }
  destruct fuel' as [|fuel']; [lia|]. assert (fuel <= fuel')%nat as Hf' by lia. destruct l as [|ty l]; [done|].
  cbn [crypto_fragments] in *. destruct (_ || _); [by eapply IH|]. destruct (_ =? 6); [|done].
  destruct (read_varint l) as [[o l1]|]; [|done]. cbn [obind] in *. destruct (read_varint l1) as [[n l2]|]; [|done].
  cbn [obind] in *. destruct (split_at n l2) as [[d l3]|]; [|done]. cbn [obind] in *.
  destruct (crypto_fragments fuel l3) as [fr|] eqn:E; [|done]. by rewrite (IH fuel' l3 fr E Hf').
Qed.

Lemma crypto_fragments_zeros k fuel l : crypto_fragments (k + fuel) (replicate k Byte.x00 ++ l) = crypto_fragments fuel l.
Proof. induction k as [|k IH]; [done|]. exact IH. Qed.

Lemma crypto_fragments_crypto fuel p :
  crypto_fragments (S fuel) (Byte.x06 :: p) =
  let! (offset, p) := read_varint p in let! (n, p) := read_varint p in let! (data, p) := split_at n p in
  let! rest := crypto_fragments fuel p in Ret ((offset, data) :: rest).
Proof. done. Qed.

Lemma crypto_frame_inv off data frame :
  crypto_frame off data = Ret frame ->
  exists a b, Varint.write off = Ret a /\ Varint.write (len data) = Ret b /\ frame = Byte.x06 :: a ++ b ++ data.
Proof.
  unfold crypto_frame. destruct (Varint.write off) as [a|]; [|done]. destruct (Varint.write (len data)) as [b|]; [|done].
  intros Hf. exists a, b. split_and!; [done|done|]. symmetry. by injection Hf.
Qed.

(** A frame and its padding are one fragment. *)
Lemma crypto_fragments_frame off data frame padding fuel l r :
  0 <= off -> crypto_frame off data = Ret frame -> crypto_fragments fuel l = Ret r ->
  crypto_fragments (S (Z.to_nat padding + fuel)) ((frame ++ zeros padding) ++ l) = Ret ((off, data) :: r).
Proof.
  intros Ho Hf Hr. apply crypto_frame_inv in Hf as (a & b & Ha & Hb & ->). pose proof (len_nonneg data).
  cbn [app]. rewrite <- !app_assoc.
  rewrite crypto_fragments_crypto, (read_varint_app off) by done. cbn [obind]. rewrite (read_varint_app (len data)) by done. cbn [obind].
  rewrite split_at_app by done. cbn [obind]. unfold zeros, zreplicate. by rewrite crypto_fragments_zeros, Hr.
Qed.

(** The fuel of the loop: every fragment and padding byte has its own. *)
Lemma fragments_fuel off data frame padding l :
  crypto_frame off data = Ret frame -> (S (Z.to_nat padding + length l) <= length ((frame ++ zeros padding) ++ l))%nat.
Proof.
  intros (a & b & _ & _ & ->)%crypto_frame_inv. rewrite !length_app. unfold zeros, zreplicate. rewrite length_replicate. cbn. lia.
Qed.

Lemma fragments_cons off data frame padding l r :
  0 <= off -> crypto_frame off data = Ret frame -> crypto_fragments (length l) l = Ret r ->
  crypto_fragments (length ((frame ++ zeros padding) ++ l)) ((frame ++ zeros padding) ++ l) = Ret ((off, data) :: r).
Proof.
  intros Ho Hf Hr. eapply crypto_fragments_mono; [by eapply crypto_fragments_frame|]. by eapply fragments_fuel.
Qed.

Lemma reassemble_one data frame padding :
  crypto_frame 0 data = Ret frame -> reassemble_crypto ((frame ++ zeros padding) ++ []) = Ret data.
Proof.
  intros Hf. unfold reassemble_crypto. rewrite (fragments_cons 0 data frame padding [] []) by done. cbn. by rewrite app_nil_r.
Qed.
Lemma reassemble_two n data f1 p1 f2 p2 :
  0 <= n -> crypto_frame 0 (ztake n data) = Ret f1 -> crypto_frame n (zdrop n data) = Ret f2 ->
  reassemble_crypto ((f1 ++ zeros p1) ++ (f2 ++ zeros p2) ++ []) = Ret data.
Proof.
  intros Hn H1 H2. unfold reassemble_crypto.
  rewrite (fragments_cons 0 (ztake n data) f1 p1 _ [(n, zdrop n data)]); [|done|done|by apply fragments_cons].
  cbn [obind sort_by_key foldr insert_by_key fst]. rewrite (proj2 (Z.leb_le _ _)) by done. cbn [flat_map snd].
  by rewrite app_nil_r, ztake_zdrop.
Qed.

(** What the generator makes of a browser. *)
Definition picks (browser b : BrowserProfile) : Prop := match browser with Random => b <> Random | _ => b = browser end.

Section Parity.
Context {R : Type} `{RngCore R} `{!RngLaws R} `{QuicCrypto} `{!QuicCryptoLaws}.

(** One Initial of the generator: its size and the fragment it carries. *)
Lemma generated_initial d s number off data target :
  len d = 8 -> len s <= 3 -> 0 <= off <= 4096 -> len data <= target - 64 -> 1250 <= target <= 1252 ->
  exists packet frame padding,
    build_client_initial {| dcid := d; scid := s; packet_number := number; pn_len := 1; crypto_offset := off;
                            crypto_payload := data; target_size := target |} = Ret packet /\
    (len packet = target /\ parse_long_header packet = Some {| lh_version := 1; lh_dcid := d; lh_scid := s |}) /\
    open_initial packet = Ret (frame ++ zeros padding) /\ crypto_frame off data = Ret frame.
Proof.
  intros Hd Hs Ho Hl Ht. pose proof (len_nonneg s). pose proof (len_nonneg data).
  set (p := {| dcid := d; scid := s; packet_number := number; pn_len := 1; crypto_offset := off;
               crypto_payload := data; target_size := target |}).
  assert (params_ok p) as Hp by (split; cbn; lia).
  destruct (initial_roundtrip_spec p Hp) as (packet & frame & padding & Hb & Hf & Hopen & Hsize & Hhead). exists packet, frame, padding.
  split_and!; [done| |apply Hhead; cbn; lia|done|done]. apply Hsize; cbn; unfold fixed_header_len; rewrite ?Hd; [lia|].
  apply crypto_frame_inv in Hf as (a & b & Ha & Hb' & ->). cbn [crypto_offset crypto_payload p] in *.
  apply varint_write_len in Ha, Hb'; [|lia..]. rewrite len_cons, !len_app, Ha, Hb'.
  unfold AES_GCM_TAG_LEN. destruct (off <? 64), (len data <? 64); lia.
Qed.

Lemma resolve_spec browser : gwp (resolve browser) (fun b => picks browser b /\ exists p, for_browser b = Ret p).
Proof.
  destruct browser; cbn [resolve]; [apply gwp_ret; split; [done|by eexists]..|]. apply gwp_bind, gwp_u32. intros w _. apply gwp_ret.
  destruct (w mod 3 =? 0); [|destruct (w mod 3 =? 1)]; (split; [done|by eexists]).
Qed.

(** The generator's datagrams: how many, how large, and what is read from them. *)
Lemma generate_client_initials_spec browser host :
  len host <= 253 ->
  gwp (generate_client_initials browser host) (fun packets => exists b p f,
    picks browser b /\ for_browser b = Ret p /\
    fingerprint_of_packets packets = Ret f /\ matches p (from_utf8_lossy host) f /\
    len packets = (if bool_decide (b = Curl) then 1 else 2) /\ Forall (fun d => len d = packet_target p /\ is_Some (parse_long_header d)) packets).
Proof.
  intros Hh. unfold generate_client_initials. apply gwp_bind. eapply gwp_mono; [apply resolve_spec|]. intros b [Hb [p Hp]].
  apply gwp_bind, gwp_pure. rewrite Hp. cbn [safely]. apply gwp_bind.
  eapply (gwp_mono _ (fun c => len c = scid_len b)).
  { unfold scid_len. case_bool_decide; [|by apply gwp_ret]. by apply gwp_bytes. }
  intros c Hc. apply gwp_bind, gwp_bytes; [lia|]. intros d Hd. apply gwp_bind.
  eapply gwp_mono; [by apply (client_hello_spec b p host c)|]. intros ch (Hlen & f & Hf & Hm).
  destruct (browser_sizes b p (len host) Hp) as (Hsz & _ & Ht). rewrite Hc, Hsz in Hlen. pose proof (len_nonneg host).
  assert (len c <= 3) as Hc3 by (rewrite Hc; unfold scid_len; case_bool_decide; lia).
  assert (1250 <= packet_target p <= 1252) as Htr by (rewrite Ht; destruct b; lia).
  unfold sat_sub, PACKET_OVERHEAD_HEADROOM. set (n := Z.min _ _). assert (n <= packet_target p - 64) as Hn by lia.
  destruct (generated_initial d c 0 0 (ztake n ch) (packet_target p) Hd Hc3 ltac:(lia)) as (p1 & f1 & z1 & B1 & [L1 I1] & O1 & F1);
    [rewrite len_ztake; lia|done|]. apply gwp_bind, gwp_pure. rewrite B1. cbn [safely].
  destruct (Z.ltb_spec n (len ch)) as [Hlt|Hge].
  - destruct (generated_initial d c 1 n (zdrop n ch) (packet_target p) Hd Hc3 ltac:(lia)) as (p2 & f2 & z2 & B2 & [L2 I2] & O2 & F2);
      [rewrite len_zdrop; destruct b; lia|done|]. apply gwp_bind, gwp_pure. rewrite B2. cbn [safely]. apply gwp_ret.
    exists b, p, f. split_and!; [done|done| |done| |repeat apply List.Forall_cons; try done; eauto].
    + unfold fingerprint_of_packets. cbn [open_initials]. rewrite O1. cbn [obind]. rewrite O2. cbn [obind].
      rewrite (reassemble_two n ch) by (done || lia). done.
    + case_bool_decide; [subst b; lia|done].
  - apply gwp_ret. exists b, p, f. split_and!; [done|done| |done| |repeat apply List.Forall_cons; try done; eauto].
    + unfold fingerprint_of_packets. cbn [open_initials]. rewrite O1. cbn [obind].
      rewrite (reassemble_one (ztake n ch)) by done. cbn [obind]. by rewrite ztake_all by lia.
    + case_bool_decide; [done|]. destruct b; lia || done.
Qed.

(** C40. Fingerprint parity. For every browser, every host name and whatever the
    random generator yields, opening a QUIC connection in the browser's guise
    produces its one or two Initials, each of the browser's exact datagram size;
    and decrypting them, reassembling the CRYPTO stream and parsing the
    ClientHello gives back the profile: its cipher suites, groups, key shares,
    signature algorithms, versions, ALPN and host, and -- in some order -- its
    extensions and transport parameters. *)
Theorem quic_fingerprint_parity browser host (r : R) :
  is_str host = true -> len host <= 253 ->
  exists packets r' b p f,
    generate_client_initials browser host r = Ret (packets, r') /\
    picks browser b /\ for_browser b = Ret p /\
    fingerprint_of_packets packets = Ret f /\ matches p host f /\
    len packets = (if bool_decide (b = Curl) then 1 else 2) /\ Forall (fun d => len d = packet_target p) packets.
Proof.
  intros Hs Hl. pose proof (generate_client_initials_spec browser host Hl r) as Hg.
  destruct (generate_client_initials browser host r) as [[packets r']|]; [|done]. cbn [safely fst] in Hg.
  destruct Hg as (b & p & f & Hb & Hp & Hf & Hm & Hn & Hd). rewrite from_utf8_lossy_str in Hm by done.
  exists packets, r', b, p, f. split_and!; try done. eapply List.Forall_impl; [|exact Hd]. by intros d [? _].
Qed.
End Parity.

(** ** Witness *)

Module ToyQuic.
#[export] Instance crypto : QuicCrypto := {|
  hmac_sha256 _ d := to_le 32 (of_be d);
  aes_gcm_seal _ _ _ p := p ++ zeros 16;
  aes_gcm_open _ _ _ c := if len c <? 16 then None else Some (ztake (len c - 16) c);
  aes_block _ b := b;
|}.
#[export] Instance laws : QuicCryptoLaws.
Proof.
  split; cbn; intros.
  - apply len_to_le.
  - by rewrite len_app.
  - rewrite len_app. change (len (zeros 16)) with 16. pose proof (len_nonneg p). rewrite (proj2 (Z.ltb_ge _ _)) by lia.
    by rewrite ztake_app_exact by lia.
  - done.
Qed.
End ToyQuic.
Import ToyQuic CounterRng.

Lemma quic_fingerprint_parity_witness :
  exists packets r' b p f,
    generate_client_initials Firefox (str "example.com") 7 = Ret (packets, r') /\
    picks Firefox b /\ for_browser b = Ret p /\
    fingerprint_of_packets packets = Ret f /\ matches p (str "example.com") f /\
    len packets = (if bool_decide (b = Curl) then 1 else 2) /\ Forall (fun d => len d = packet_target p) packets.
Proof. apply quic_fingerprint_parity; [vm_compute; reflexivity|vm_compute; congruence]. Defined.
