(* ===== verification/Imitation.v ===== *)
(** Protocol imitation: the classifier ([noise/imitation/detect.rs]), the
    unauthenticated evidence of Auto mode ([noise/imitation/auto.rs]) and the
    imitation datagrams of the pre-handshake burst
    ([AmneziaConfig::pre_handshake_imitation_datagrams]).

    The SOFTWARE value a process draws once ([stun::host_software]), HMAC-SHA1
    (the [ring] crate) and the primitives of QUIC Initials come through the
    interface [ImitationEnv]. *)

From Stdlib Require Import String.
From S2P Require Import Prelude Budget Instant Rand Packet Amnezia Dns Stun Quic Sip.
From S2P Require Import QuicProfiles QuicTls QuicInitial QuicGenerator QuicParity.

Local Open Scope Z_scope.
Local Open Scope list_scope.

Class ImitationEnv := {
  hmac_sha1 : bytes -> bytes -> bytes;
  host_software : bytes;
  env_quic :: QuicCrypto;
}.

Class ImitationLaws `{ImitationEnv} : Prop := {
  len_hmac_sha1 k d : len (hmac_sha1 k d) = 20;
  host_software_short : len host_software <= MAX_SOFTWARE_LEN;
  env_quic_laws :: QuicCryptoLaws;
}.

(** ** Detection *)

Inductive Probe := ProbeDns | ProbeQuic | ProbeSip | ProbeStun.

Definition probe_protocol (p : Probe) : AmneziaImitationProtocol :=
  match p with
  | ProbeDns => ProtoDns
  | ProbeQuic => ProtoQuic
  | ProbeSip => ProtoSip
  | ProbeStun => ProtoStun
  end.

Definition probe_is (p : Probe) (configured : AmneziaImitationProtocol) : bool :=
  match p, configured with
  | ProbeDns, ProtoDns | ProbeQuic, ProtoQuic | ProbeSip, ProtoSip | ProbeStun, ProtoStun => true
  | _, _ => false
  end.

Definition STUN_MAGIC_COOKIE : Z := of_be MAGIC_COOKIE.
Definition SIP_PREFIXES : list bytes := map str [
  "SUBSCRIBE "; "REGISTER "; "OPTIONS "; "MESSAGE "; "INVITE "; "CANCEL "; "NOTIFY "; "INFO "; "ACK "; "BYE "; "SIP/"]%string.

Definition to_ascii_lowercase (b : Init.Byte.byte) : Init.Byte.byte :=
  if (65 <=? byte.unsigned b) && (byte.unsigned b <=? 90) then byte.of_Z (byte.unsigned b + 32) else b.
Definition eq_ignore_ascii_case (a b : bytes) : bool :=
  bool_decide (map to_ascii_lowercase a = map to_ascii_lowercase b).

Definition detect (data : bytes) : option Probe :=
  if len data =? 0 then None else
  if bool_decide (is_Some (parse_long_header data)) then Some ProbeQuic else
  let has_stun_cookie := (8 <=? len data) && (be32 data 4 =? STUN_MAGIC_COOKIE) in
  if bool_decide (is_Some (binding_request_len data)) then Some ProbeStun else
  if negb has_stun_cookie && bool_decide (is_Some (question_end data)) then Some ProbeDns else
  let head := ztake (Z.min (len data) 10) data in
  if existsb (fun p => (len p <=? len head) && eq_ignore_ascii_case (ztake (len p) head) p) SIP_PREFIXES
  then Some ProbeSip else None.

(** ** Auto mode *)

Definition HINT_LIFETIME : Z := from_secs 30.

Definition allows_imitation_hint (error : WireGuardError) : bool :=
  match error with
  | InvalidMac | WrongKey | WrongIndex | NoCurrentSession | UnexpectedPacket | InvalidAeadTag => true
  | _ => false
  end.

Record Hint := {
  hint_protocol : AmneziaImitationProtocol;
  hint_received : Z;
}.

Definition hint_new (now : Z) (p : AmneziaImitationProtocol) : Hint := {| hint_protocol := p; hint_received := now |}.
Definition hint_detect (now : Z) (datagram : bytes) : option Hint :=
  match detect datagram with Some p => Some (hint_new now (probe_protocol p)) | None => None end.
Definition hint_is_live (now : Z) (h : Hint) : bool := duration_since now (hint_received h) <? HINT_LIFETIME.

Record AutoImitation := {
  learned : option AmneziaImitationProtocol;
  pending : option (option IpAddr * Hint);
  warned : bool;
}.
Definition auto_default : AutoImitation := {| learned := None; pending := None; warned := false |}.

Definition set_pending (p : option (option IpAddr * Hint)) (a : AutoImitation) : AutoImitation :=
  {| learned := learned a; pending := p; warned := warned a |}.
Definition set_learned (p : option AmneziaImitationProtocol) (a : AutoImitation) : AutoImitation :=
  {| learned := p; pending := pending a; warned := warned a |}.
Definition set_warned (b : bool) (a : AutoImitation) : AutoImitation :=
  {| learned := learned a; pending := pending a; warned := b |}.

(** Whether live evidence from [source] is held. *)
Definition pending_live (now : Z) (source : option IpAddr) (a : AutoImitation) : bool :=
  match pending a with
  | Some (from, h) => bool_decide (from = source) && hint_is_live now h
  | None => false
  end.

Definition observe (now : Z) (source : option IpAddr) (datagram : bytes) (a : AutoImitation) : bool * AutoImitation :=
  match hint_detect now datagram with
  | None => (false, a)
  | Some h =>
      (true, if bool_decide (learned a = None) && negb (pending_live now source a)
             then set_pending (Some (source, h)) a else a)
  end.

Definition auto_hint (now : Z) (source : option IpAddr) (a : AutoImitation) : option AmneziaImitationProtocol :=
  match pending a with
  | Some (from, h) => if bool_decide (from = source) && hint_is_live now h then Some (hint_protocol h) else None
  | None => None
  end.

Definition clear_pending (a : AutoImitation) : AutoImitation := set_pending None a.

(** ** The imitation datagrams of the burst *)

Section Burst.
Context {R : Type} `{RngCore R} `{ImitationEnv}.

Fixpoint host_letters (n : nat) (rng : R) : bytes * R :=
  match n with
  | O => ([], rng)
  | S n => let '(w, rng) := next_u32 rng in
           let '(rest, rng) := host_letters n rng in
           (byte.of_Z (97 + w mod 26) :: rest, rng)
  end.

Definition HOST_TLDS : list bytes := map str ["com"; "net"; "org"; "io"]%string.

Definition random_imitation_domain (rng : R) : bytes * R :=
  let '(w, rng) := next_u32 rng in
  let '(label, rng) := host_letters (Z.to_nat (7 + w mod 10)) rng in
  let '(t, rng) := next_u32 rng in
  (label ++ str "." ++ pick [] HOST_TLDS t, rng).

Definition imitation_host (c : AmneziaConfig) (rng : R) : bytes * R :=
  match domain (imitation c) with
  | Some d => (d, rng)
  | None => random_imitation_domain rng
  end.

(** [to_quic]: an omitted browser is curl. *)
Definition to_quic (b : AmneziaImitationBrowser) : BrowserProfile :=
  match b with
  | BrowserDefault | BrowserCurl => Curl
  | BrowserChrome => Chrome
  | BrowserFirefox => Firefox
  | BrowserRandom => Random
  end.

Fixpoint with_delays (delays_ms : list Z) (datagrams : list bytes) : list (Z * bytes) :=
  match datagrams with
  | [] => []
  | d :: ds => (from_millis (from_option id 0 (head delays_ms)), d) :: with_delays (tail delays_ms) ds
  end.

Definition pre_handshake_imitation_datagrams (c : AmneziaConfig) (rng : R) : outcome (list (Z * bytes) * R) :=
  match protocol (imitation c) with
  | ProtoDns => let '(host, rng) := imitation_host c rng in
                let '(ds, rng) := dns_generate host rng in Ret (with_delays [0; 0; 15] ds, rng)
  | ProtoSip => let '(host, rng) := imitation_host c rng in
                let '(ds, rng) := sip_generate host rng in Ret (with_delays [0; 20] ds, rng)
  | ProtoStun => let '(ds, rng) := stun_generate hmac_sha1 host_software rng in Ret (with_delays [0; 15] ds, rng)
  | ProtoQuic => let '(host, rng) := imitation_host c rng in
                 let! (ds, rng) := generate_client_initials (to_quic (browser (imitation c))) host rng in
                 Ret (with_delays [] ds, rng)
  | ProtoNone | ProtoAuto => Ret ([], rng)
  end.
End Burst.

(** ** Hosts *)

Definition is_lower (b : Init.Byte.byte) : Prop := 97 <= byte.unsigned b <= 122.

Lemma lower_class b : is_lower b -> is_dot b = false /\ is_hyphen b = false /\ is_ascii_alphanumeric b = true.
Proof.
  unfold is_lower, is_dot, is_hyphen, is_ascii_alphanumeric, byte_in. intros Hb. split_and!.
  - apply Z.eqb_neq. lia.
  - apply Z.eqb_neq. lia.
  - rewrite (proj2 (Z.leb_le 97 _)), (proj2 (Z.leb_le _ 122)) by lia. apply orb_true_r.
Qed.

Lemma host_labels_lower k ls ph b l rest :
  Forall is_lower (b :: l) -> k + 1 + len l <= 63 ->
  host_labels k ls ph ((b :: l) ++ rest) = host_labels (k + 1 + len l) false false rest.
Proof.
  revert k ls ph b. induction l as [|b' l IH]; intros k ls ph b [Hb Hl]%List.Forall_cons_iff Hk;
    destruct (lower_class b Hb) as (Hd & Hh & Ha).
  - cbn [app host_labels]. rewrite Hd, Hh, Ha. cbn [orb negb]. rewrite andb_false_r.
    change (len []) with 0 in *. rewrite (proj2 (Z.ltb_ge _ _)) by lia. by rewrite Z.add_0_r.
  - change ((b :: b' :: l) ++ rest) with (b :: ((b' :: l) ++ rest)). cbn [host_labels].
    rewrite Hd, Hh, Ha. cbn [orb negb]. rewrite andb_false_r. rewrite len_cons in *. pose proof (len_nonneg l).
    rewrite (proj2 (Z.ltb_ge _ _)) by lia. rewrite IH by (done || lia). f_equal. lia.
Qed.

Lemma host_letters_lower {R} `{RngCore R} n (rng : R) :
  Forall is_lower (fst (host_letters n rng)) /\ len (fst (host_letters n rng)) = Z.of_nat n.
Proof.
  revert rng. induction n as [|n IH]; intros rng; cbn [host_letters]; [by split|].
  destruct (next_u32 rng) as [w rng1]. specialize (IH rng1). destruct (host_letters n rng1) as [l rng2]. cbn [fst] in *.
  destruct IH as [Hl Hn]. rewrite len_cons, Hn. split; [|lia]. apply List.Forall_cons; [|done].
  pose proof (Z.mod_pos_bound w 26). unfold is_lower. rewrite byte.unsigned_of_Z. unfold byte.wrap. rewrite Z.mod_small; lia.
Qed.

Lemma pick_in {A} (d : A) l w : 0 < len l -> In (pick d l w) l.
Proof.
  intros Hl. unfold pick. destruct (zget_in l (w mod len l)) as [x Hx]; [by apply Z.mod_pos_bound|].
  rewrite Hx. cbn. unfold zget in Hx. destruct (_ <? 0); [done|]. apply list_elem_of_In. by eapply list_elem_of_lookup_2.
Qed.

Lemma host_labels_dot k tld : k <> 0 -> host_labels k false false (str "." ++ tld) = host_labels 0 true false tld.
Proof.
  intros Hk. change (str "." ++ tld) with (Byte.x2e :: tld). cbn [host_labels]. change (is_dot Byte.x2e) with true.
  by rewrite (proj2 (Z.eqb_neq _ _) Hk).
Qed.

Lemma random_imitation_domain_valid {R} `{RngCore R} (rng : R) :
  is_valid_imitation_host (fst (random_imitation_domain rng)) = true.
Proof.
  unfold random_imitation_domain. destruct (next_u32 rng) as [w rng1]. pose proof (Z.mod_pos_bound w 10).
  destruct (host_letters_lower (Z.to_nat (7 + w mod 10)) rng1) as [Hl Hn]. destruct (host_letters _ rng1) as [l rng2].
  destruct (next_u32 rng2) as [t rng3]. cbn [fst] in *. rewrite Z2Nat.id in Hn by lia.
  destruct l as [|b l]; [rewrite len_nil in Hn; lia|]. rewrite len_cons in Hn.
  pose proof (pick_in [] HOST_TLDS t ltac:(done)) as Ht. set (tld := pick [] HOST_TLDS t) in *.
  assert (exists x y, str "." ++ tld = x ++ [y] /\ is_dot y = false /\ is_hyphen y = false /\ len (str "." ++ tld) <= 4 /\
    host_labels (0 + 1 + len l) false false (str "." ++ tld) = true) as (x & y & Hxy & Hy1 & Hy2 & Hlt & Hh).
  { rewrite host_labels_dot by (pose proof (len_nonneg l); lia).
    destruct Ht as [<-|[<-|[<-|[<-|[]]]]];
      [exists (str ".co"), Byte.x6d|exists (str ".ne"), Byte.x74|exists (str ".or"), Byte.x67|exists (str ".i"), Byte.x6f];
      split_and!; done. }
  apply List.Forall_cons_iff in Hl as Hb. destruct Hb as [Hb _]. destruct (lower_class b Hb) as (Hd & Hhy & _).
  unfold is_valid_imitation_host. rewrite len_app, len_cons. pose proof (len_nonneg l). pose proof (len_nonneg (str "." ++ tld)).
  rewrite (proj2 (Z.eqb_neq _ _)), (proj2 (Z.ltb_ge _ _)) by lia.
  rewrite Hxy, (app_assoc (b :: l)), last_snoc, <- app_assoc, <- Hxy. cbn [app head from_option orb].
  rewrite Hd, Hhy, Hy1, Hy2. cbn [orb]. change (b :: l ++ str "." ++ tld) with ((b :: l) ++ str "." ++ tld).
  rewrite host_labels_lower by (done || lia). exact Hh.
Qed.

(** ** Cover traffic is recognised as what it imitates *)

Lemma detect_dns a b domain qtype :
  is_valid_imitation_host domain = true ->
  detect ((a :: b :: query_fixed) ++ put_qname domain ++ to_be 2 qtype ++ to_be 2 QCLASS_IN) = Some ProbeDns.
Proof.
  intros [Hl Hd]%valid_host_labels. pose proof (question_end_query a b domain qtype Hl Hd) as Hq. cbv zeta in Hq.
  set (q := (a :: b :: query_fixed) ++ _) in *. unfold detect.
  assert ((len q =? 0) = false) as ->.
  { apply Z.eqb_neq. unfold q. rewrite len_app. pose proof (len_nonneg (put_qname domain ++ to_be 2 qtype ++ to_be 2 QCLASS_IN)).
    change (len (a :: b :: query_fixed)) with 12. lia. }
  assert (parse_long_header q = None) as ->.
  { unfold parse_long_header. destruct (_ || _); [done|].
    assert (is_known_version (be32 q 1) = false) as ->; [|done]. unfold q. by destruct b. }
  assert (binding_request_len q = None) as ->.
  { unfold binding_request_len. destruct (_ || _); [done|]. destruct (negb _); [done|].
    rewrite bool_decide_eq_false_2; [done|]. unfold q. intros Hm. apply (f_equal of_be) in Hm. vm_compute in Hm. done. }
  assert ((be32 q 4 =? STUN_MAGIC_COOKIE) = false) as -> by done.
  by rewrite andb_false_r, Hq.
Qed.

Lemma detect_sip (m rest : bytes) :
  m = str "INVITE sip:" \/ m = str "CANCEL sip:" -> detect (m ++ rest) = Some ProbeSip.
Proof.
  intros Hm. unfold detect. pose proof (len_nonneg rest) as Hr.
  assert (len m = 11) as Hl by (by destruct Hm as [-> | ->]).
  rewrite len_app, Hl, (proj2 (Z.eqb_neq _ _)), Z.min_r, ztake_app_le by lia.
  assert (parse_long_header (m ++ rest) = None) as ->.
  { unfold parse_long_header. by destruct Hm as [-> | ->]; rewrite orb_true_r. }
  assert (binding_request_len (m ++ rest) = None) as ->.
  { unfold binding_request_len. destruct (_ || _); [done|]. by destruct Hm as [-> | ->]. }
  assert (question_end (m ++ rest) = None) as ->.
  { unfold question_end. destruct (_ <? _); [done|]. by destruct Hm as [-> | ->]. }
  cbn [is_Some]. rewrite !bool_decide_eq_false_2, andb_false_r by (by intros []). by destruct Hm as [-> | ->].
Qed.

Lemma of_be_2 b0 b1 : of_be [b0; b1] = byte.unsigned b0 * 256 + byte.unsigned b1.
Proof.
  pose proof (Varint.fold_be [b1] (byte.unsigned b0)) as Hf. pose proof (Varint.fold_be [b0; b1] 0) as Hg.
  pose proof (byte.unsigned_range b0). cbn [fold_left] in *. rewrite Z.shiftl_0_l, Z.lor_0_l in Hg.
  rewrite Hf in Hg by lia. change (8 * len [b1]) with 8 in Hg.
  assert (of_be [b1] = byte.unsigned b1) by apply le_combine_1. lia.
Qed.

Lemma detect_stun d :
  binding_request_len d = Some (len d - Stun.HEADER_LEN) -> detect d = Some ProbeStun.
Proof.
  intros Hd. unfold detect. unfold binding_request_len in Hd.
  destruct (Z.ltb_spec (len d) Stun.HEADER_LEN) as [|Hlen]; [done|]. unfold Stun.HEADER_LEN in Hlen.
  rewrite (proj2 (Z.eqb_neq _ _)) by lia.
  assert (binding_request_len d = Some (len d - Stun.HEADER_LEN)) as Hb.
  { unfold binding_request_len. by rewrite (proj2 (Z.ltb_ge _ _)) by (unfold Stun.HEADER_LEN; lia). }
  cbn [orb] in Hd. destruct (_ >? _); [done|]. destruct (Z.eqb_spec (be16 d 0) BINDING_REQUEST) as [Ht|]; [|done].
  assert (parse_long_header d = None) as ->; [|by rewrite Hb].
  unfold parse_long_header. destruct d as [|b0 [|b1 d]]; [by compute in Hlen|by compute in Hlen|].
  change (be16 (b0 :: b1 :: d) 0) with (of_be [b0; b1]) in Ht. rewrite of_be_2 in Ht. unfold BINDING_REQUEST in Ht.
  pose proof (byte.unsigned_range b0). pose proof (byte.unsigned_range b1).
  change (byte_at (b0 :: b1 :: d) 0) with (of_be [b0]).
  assert (of_be [b0] = 0) as -> by (unfold of_be; cbn [rev app]; rewrite le_combine_1; lia). by rewrite orb_true_r.
Qed.

Lemma detect_quic d : is_Some (parse_long_header d) -> detect d = Some ProbeQuic.
Proof.
  intros Hd. unfold detect. rewrite (bool_decide_eq_true_2 _ Hd). destruct (Z.eqb_spec (len d) 0); [|done].
  destruct d; [|rewrite len_cons in *; pose proof (len_nonneg d); lia]. by destruct Hd.
Qed.

Section Recognised.
Context {R : Type} `{RngCore R} `{!RngLaws R} `{ImitationEnv} `{!ImitationLaws}.

Lemma with_delays_snd delays ds : map snd (with_delays delays ds) = ds.
Proof. revert delays. induction ds as [|d ds IH]; intros delays; cbn; [done|]. by rewrite IH. Qed.

Lemma imitation_host_valid p dom b c (rng : R) :
  imitation c = imitation_new p dom b -> p = ProtoDns \/ p = ProtoSip ->
  is_valid_imitation_host (fst (imitation_host c rng)) = true.
Proof.
  intros Hc Hp. unfold imitation_host. rewrite Hc. unfold imitation_new. cbn [domain].
  destruct Hp as [-> | ->]; (destruct dom as [d|]; [|apply random_imitation_domain_valid]); cbn;
    (destruct (is_valid_imitation_host d) eqn:Hd; [done|apply random_imitation_domain_valid]).
Qed.

Lemma valid_host_short host : is_valid_imitation_host host = true -> len host <= 253.
Proof.
  unfold is_valid_imitation_host. destruct (Z.ltb_spec 253 (len host)); [|lia]. by rewrite ?orb_true_r, ?orb_true_l.
Qed.
Lemma imitation_host_short c (rng : R) :
  from_option len 0 (domain (imitation c)) <= 253 -> len (fst (imitation_host c rng)) <= 253.
Proof.
  intros Hd. unfold imitation_host. destruct (domain (imitation c)); [done|]. apply valid_host_short, random_imitation_domain_valid.
Qed.
Lemma imitation_new_short p dom b : from_option len 0 (domain (imitation_new p dom b)) <= 253.
Proof.
  assert (forall d, is_valid_quic_sni d = true -> len d <= 253) by (intros d; unfold is_valid_quic_sni; intros; zbool; lia).
  unfold imitation_new. cbn [domain]. destruct p, dom as [d|]; cbn; try lia; case_match; cbn; auto using valid_host_short; lia.
Qed.

(** The burst never panics. *)
Lemma burst_safe c (rng : R) :
  from_option len 0 (domain (imitation c)) <= 253 -> safely (pre_handshake_imitation_datagrams c rng) (fun _ => True).
Proof.
  intros Hd. unfold pre_handshake_imitation_datagrams. pose proof (imitation_host_short c rng Hd) as Hh.
  destruct (protocol (imitation c)); try done; try (by repeat case_match).
  destruct (imitation_host c rng) as [host rng']. cbn [fst] in Hh. apply safely_bind.
  eapply safely_mono; [by apply generate_client_initials_spec|]. by intros [].
Qed.

Lemma build_queries_detected domain qtypes (rng : R) :
  is_valid_imitation_host domain = true ->
  Forall (fun d => detect d = Some ProbeDns) (fst (build_queries domain qtypes rng)).
Proof.
  intros Hd. revert rng. induction qtypes as [|q qtypes IH]; intros rng; cbn [build_queries]; [apply List.Forall_nil|].
  unfold build_query. destruct (next_u32 rng) as [w rng1]. specialize (IH rng1).
  destruct (build_queries domain qtypes rng1) as [ds rng2]. cbn [fst] in *. apply List.Forall_cons; [|done].
  exact (detect_dns (byte.of_Z (Z.shiftr (w mod 2 ^ 16) 8)) (byte.of_Z (w mod 2 ^ 16)) domain q Hd).
Qed.

(** The pre-handshake burst imitates what it says. For every DNS, SIP, STUN or
    QUIC configuration, with the host configured or drawn, each datagram of the
    burst is classified -- by the classifier a responder and Auto mode use -- as
    the configured protocol and no other, and the first is due at once. *)
Theorem burst_recognised c p dom b (rng : R) :
  imitation c = imitation_new p dom b -> p = ProtoDns \/ p = ProtoSip \/ p = ProtoStun \/ p = ProtoQuic ->
  exists burst rng', pre_handshake_imitation_datagrams c rng = Ret (burst, rng') /\
    Forall (fun d => exists probe, detect d = Some probe /\ probe_is probe p = true) (map snd burst) /\
    exists d ds, burst = (0, d) :: ds.
Proof.
  intros Hc Hp. assert (protocol (imitation c) = p) as Hpr by (by rewrite Hc).
  unfold pre_handshake_imitation_datagrams. rewrite Hpr.
  destruct Hp as [-> | [-> | [-> | ->]]].
  - pose proof (imitation_host_valid ProtoDns dom b c rng Hc ltac:(auto)) as Hh.
    destruct (imitation_host c rng) as [host rng1]. cbn [fst] in Hh.
    pose proof (build_queries_detected host [QTYPE_A; QTYPE_AAAA; QTYPE_HTTPS] rng1 Hh) as Hd. unfold dns_generate.
    destruct (build_queries _ _ rng1) as [ds rng2] eqn:E. do 2 eexists. split; [done|]. cbn [fst] in *. rewrite with_delays_snd. split.
    + eapply List.Forall_impl; [|exact Hd]. intros d ->. by eexists.
    + destruct ds as [|d ds]; [|by do 2 eexists]. cbn [build_queries build_query] in E. repeat case_match; simplify_eq.
  - destruct (imitation_host c rng) as [host rng1]. unfold sip_generate. destruct (sip_call host rng1) as [call rng2].
    do 2 eexists. split; [done|]. rewrite with_delays_snd. split; [|by do 2 eexists].
    repeat (apply List.Forall_cons; [eexists; split; [apply detect_sip; auto|done]|]). apply List.Forall_nil.
  - pose proof (stun_generate_requests hmac_sha1 host_software rng host_software_short) as Hr.
    destruct (stun_generate hmac_sha1 host_software rng) as [ds rng1] eqn:E. do 2 eexists. split; [done|].
    cbn [fst] in *. rewrite with_delays_snd. split.
    + eapply List.Forall_impl; [|exact Hr]. intros d (q & -> & Hq & _). exists ProbeStun. split; [|done].
      apply detect_stun. apply build_request_spec; [apply len_hmac_sha1|done].
    + destruct ds as [|d ds]; [|by do 2 eexists]. unfold stun_generate in E. repeat case_match; simplify_eq.
  - pose proof (imitation_host_short c rng) as Hh. rewrite Hc in Hh at 1. specialize (Hh (imitation_new_short _ _ _)).
    destruct (imitation_host c rng) as [host rng1].
    pose proof (generate_client_initials_spec (to_quic (browser (imitation c))) host Hh rng1) as Hg.
    destruct (generate_client_initials _ host rng1) as [[ds rng2]|]; [|done]. cbn [safely fst] in Hg.
    destruct Hg as (b' & p & f & _ & _ & _ & _ & Hn & Hd). do 2 eexists. split; [done|]. rewrite with_delays_snd. split.
    + eapply List.Forall_impl; [|exact Hd]. intros d [_ Hl]. exists ProbeQuic. split; [by apply detect_quic|done].
    + destruct ds as [|d ds]; [case_bool_decide; done|by do 2 eexists].
Qed.
End Recognised.

(** Auto evidence is held for its lifetime. Once a datagram from a source is
    recorded, further datagrams from that source neither replace nor refresh it
    while it lives -- only 30 seconds after it was received does newer evidence
    take its place -- and nothing is recorded once a mode has been learned. *)
Theorem auto_evidence_held now now' source d d' a h :
  learned a = None -> pending_live now source a = false -> hint_detect now d = Some h -> now <= now' ->
  let a1 := snd (observe now source d a) in
  auto_hint now' source a1 = (if now' - now <? HINT_LIFETIME then Some (hint_protocol h) else None) /\
  (now' - now < HINT_LIFETIME -> snd (observe now' source d' a1) = a1) /\
  (forall mode, let a2 := set_learned (Some mode) a1 in snd (observe now' source d' a2) = a2).
Proof.
  intros Hn Hp Hh Hle. unfold observe. rewrite Hh, Hn, Hp, bool_decide_eq_true_2 by done. cbn [snd andb negb].
  assert (hint_received h = now) as Hr by (unfold hint_detect in Hh; destruct (detect d); by simplify_eq).
  assert (hint_is_live now' h = (now' - now <? HINT_LIFETIME)) as Hl.
  { unfold hint_is_live, duration_since, sat_sub. rewrite Hr. f_equal. lia. }
  split_and!.
  - unfold auto_hint. cbn [pending set_pending]. by rewrite bool_decide_eq_true_2, Hl.
  - intros Hlt. destruct (hint_detect now' d'); [|done]. cbn [snd]. unfold pending_live. cbn [pending set_pending].
    rewrite (bool_decide_eq_true_2 (source = source)), Hl, (proj2 (Z.ltb_lt _ _)) by done. by rewrite andb_false_r.
  - intros mode. cbv zeta. by destruct (hint_detect now' d').
Qed.

(** ** Witnesses *)

Import CounterRng.

Module SampleEnv.
#[export] Instance env : ImitationEnv := {|
  hmac_sha1 := ex_hmac;
  host_software := str "Chromium";
  env_quic := ToyQuic.crypto;
|}.
#[export] Instance laws : ImitationLaws.
Proof. split; [intros; apply len_to_le|vm_compute; congruence|exact ToyQuic.laws]. Qed.
End SampleEnv.
Import SampleEnv.

Definition ex_dns_config : AmneziaConfig :=
  set_imitation (imitation_new ProtoDns (Some ex_domain) BrowserDefault) (config_new 0 0 0 0).

Lemma burst_recognised_witness :
  exists burst rng', pre_handshake_imitation_datagrams ex_dns_config 5 = Ret (burst, rng') /\
    Forall (fun d => exists probe, detect d = Some probe /\ probe_is probe ProtoDns = true) (map snd burst) /\
    exists d ds, burst = (0, d) :: ds.
Proof. apply (burst_recognised ex_dns_config ProtoDns (Some ex_domain) BrowserDefault 5); [reflexivity|by left]. Defined.

Lemma auto_evidence_held_witness :
  exists h, hint_detect 100 ex_query = Some h /\
    auto_hint 200 None (snd (observe 100 None ex_query auto_default)) = Some (hint_protocol h).
Proof.
  destruct (hint_detect 100 ex_query) as [h|] eqn:E; [|vm_compute in E; congruence]. exists h. split; [reflexivity|].
  destruct (auto_evidence_held 100 200 None ex_query [] auto_default h) as [Hh _]; [reflexivity|reflexivity|exact E|lia|].
  exact Hh.
Defined.
