(* ===== verification/Fillers.v ===== *)
(** The fillers of an S prefix and of a Jc junk datagram, [noise/amnezia.rs]
    from [fill_quic_short] to [write_dns_opt_padding].

    Each writes in place into a slice it is given. [F] is a state monad over the
    slice and the generator in which an index out of range is a panic; the
    integers of the code are indices and small constants, and the one
    subtraction that could go below zero, in [write_dns_opt_padding], panics
    there. The fillers never panic and keep the length of the slice, which is
    what [Framing.PrefixFillers] asks of them; and a DNS or SIP prefix is taken
    by the probe classifier for what it imitates, whatever follows it. *)

From Stdlib Require Import String.
From S2P Require Import Prelude Rand Tags Amnezia Framing Dns Stun Quic Sip Imitation.

Local Open Scope Z_scope.
Local Open Scope list_scope.

Definition DNS_OPT_FIXED_LEN : Z := 11.
Definition DNS_OPT_MIN_WIRE_SIZE : Z := DNS_OPT_FIXED_LEN + 4.

(** ** Writing into a slice *)

Definition F (R A : Type) : Type := bytes -> R -> outcome (A * bytes * R).
#[export] Instance F_ret {R} : MRet (F R) := fun A a d r => Ret (a, d, r).
#[export] Instance F_bind {R} : MBind (F R) := fun A B k m d r => let! (a, d, r) := m d r in k a d r.

Module Fill.
Section Fill.
Context {R : Type} `{RngCore R}.

Definition size_of : F R Z := fun d r => Ret (len d, d, r).
Definition word : F R Z := fun d r => let '(w, r) := next_u32 r in Ret (w, d, r).
(** [dst[i] = v as u8] *)
Definition put (i v : Z) : F R unit := fun d r =>
  if (0 <=? i) && (i <? len d) then Ret (tt, zset d i (byte.of_Z v), r) else Panic.
(** [dst[i..i + bs.len()].copy_from_slice(bs)] *)
Definition copy (i : Z) (bs : bytes) : F R unit := fun d r =>
  if (0 <=? i) && (i + len bs <=? len d) then Ret (tt, ztake i d ++ bs ++ zdrop (i + len bs) d, r) else Panic.
(** [a - b] on [usize] *)
Definition usub (a b : Z) : F R Z := fun d r => if b <=? a then Ret (a - b, d, r) else Panic.
Definition when (b : bool) (m : F R unit) : F R unit := if b then m else mret tt.

Fixpoint put_all (n : nat) (i : Z) (g : F R Z) : F R unit :=
  match n with
  | O => mret tt
  | S n => v ← g; put i v;; put_all n (i + 1) g
  end.
(** [for byte in &mut dst[lo..hi] { *byte = g }] *)
Definition for_range (lo hi : Z) (g : F R Z) : F R unit := fun d r =>
  if (0 <=? lo) && (lo <=? hi) && (hi <=? len d) then put_all (Z.to_nat (hi - lo)) lo g d r else Panic.

Definition fill_random : F R unit := fun d r => let '(bs, r) := Rand.fill_random (len d) r in Ret (tt, bs, r).
Definition random_byte : F R Z := w ← word; mret (Z.land w 255).

(** ** QUIC and STUN *)

Definition fill_quic_short : F R unit :=
  size ← size_of;
  if size =? 0 then mret tt else
  w1 ← word; w2 ← word; w3 ← word;
  let spin := Z.land (Z.shiftr w1 8) 1 in
  let key_phase := Z.land (Z.shiftr w2 8) 1 in
  let pn_len := Z.land w3 3 in
  put 0 (Z.lor (Z.lor (Z.lor 64 (Z.shiftl spin 5)) (Z.shiftl key_phase 2)) pn_len);;
  for_range 1 size random_byte.

Definition fill_quic_initial : F R unit :=
  fill_random;;
  size ← size_of;
  when (negb (size =? 0)) (w ← word; put 0 (Z.lor 192 (Z.land w 3)));;
  when (5 <=? size) (put 1 0;; put 2 0;; put 3 0;; put 4 1);;
  when (6 <=? size) (w ← word; put 5 (w mod 17 + 4)).

Definition fill_stun : F R unit :=
  fill_random;;
  size ← size_of;
  when (2 <=? size) (put 0 0;; put 1 1);;
  let body := if 20 <? size then Z.land (size - 20) (Z.lnot 3) else 0 in
  let value_len := if 4 <=? body then Z.min (body - 4) 124 else 0 in
  let attr_len := if 4 <=? body then 4 + value_len else 0 in
  when (4 <=? size) (put 2 (Z.shiftr attr_len 8);; put 3 attr_len);;
  when (8 <=? size) (copy 4 MAGIC_COOKIE);;
  when (8 <? size) (for_range 8 (Z.min size 20) random_byte);;
  when (4 <=? attr_len)
    (put 20 128;; put 21 34;; put 22 (Z.shiftr value_len 8);; put 23 value_len;;
     for_range 24 (24 + value_len) (b ← random_byte; mret (32 + b mod 95)));;
  when (20 + attr_len <=? size) (for_range (20 + attr_len) size random_byte).

(** ** SIP *)

Definition put_sip_line (pos : Z) (line : bytes) : F R (bool * Z) :=
  size ← size_of;
  if size <? pos + len line + 2 then mret (false, pos) else
  copy pos line;; mret (true, pos + len line).

(** Lines joined by [&&]: up to the first that does not fit. *)
Fixpoint put_sip_lines (pos : Z) (lines : list bytes) : F R Z :=
  match lines with
  | [] => mret pos
  | line :: lines => '(ok, pos) ← put_sip_line pos line; if ok : bool then put_sip_lines pos lines else mret pos
  end.

(** [{:04x}] of a 16-bit integer. *)
Definition hex16 (v : Z) : bytes := map (fun i => hex_lower (Z.shiftr v (4 * i) mod 16)) [3; 2; 1; 0].

Definition emit_sip (method user host : bytes) (require_via : bool) : F R bool :=
  token ← word;
  '(ok, pos) ← put_sip_line 0 (method ++ str " sip:" ++ user ++ str "@" ++ host ++ str " SIP/2.0" ++ CRLF);
  if negb ok then mret false else
  '(via_ok, pos) ← put_sip_line pos (str "Via: SIP/2.0/UDP " ++ host ++ str ";branch=z9hG4bK" ++ hex32 token ++ CRLF);
  if require_via && negb via_ok then mret false else
  pos ← (if via_ok : bool then
    put_sip_lines pos [
      str "Max-Forwards: 70" ++ CRLF;
      str "From: <sip:" ++ user ++ str "@" ++ host ++ str ">;tag=" ++ hex16 (Z.land token 65535) ++ CRLF;
      str "To: <sip:" ++ user ++ str "@" ++ host ++ str ">" ++ CRLF;
      str "Call-ID: " ++ hex32 token ++ str "@" ++ host ++ CRLF;
      str "CSeq: 1 " ++ method ++ CRLF]
    else mret pos);
  put pos 13;; put (pos + 1) 10;;
  size ← size_of;
  for_range (pos + 2) size (mret 32);; mret true.

(** Attempts joined by [||]. *)
Fixpoint first_of (attempts : list (F R bool)) : F R bool :=
  match attempts with
  | [] => mret false
  | m :: attempts => ok ← m; if ok : bool then mret true else first_of attempts
  end.

Definition SipSeed : Type := bytes * bytes * bytes.
Definition SEEDS : list SipSeed := map (fun '(a, b, c) => (str a, str b, str c)) [
  ("OPTIONS", "u", "x"); ("OPTIONS", "100", "pbx"); ("REGISTER", "101", "gw");
  ("MESSAGE", "noc", "lan"); ("OPTIONS", "m", "voip"); ("REGISTER", "sip", "edge")]%string.

Definition run_sip_candidate_chain (seed : SipSeed) (domain : option bytes) (require_via : bool) : F R bool :=
  let '(method, user, host) := seed in
  first_of (
    match domain with
    | Some domain => [
        emit_sip method user (host ++ str "." ++ domain) require_via;
        emit_sip method user domain require_via;
        emit_sip (str "OPTIONS") (str "u") (str "x." ++ domain) require_via;
        emit_sip (str "OPTIONS") (str "u") domain require_via]
    | None => []
    end ++ [
      emit_sip method user host require_via;
      emit_sip (str "OPTIONS") (str "u") (str "x") require_via]).

Definition fill_sip (domain : option bytes) : F R unit :=
  fill_random;;
  size ← size_of;
  if size <? SIP_REQUEST_LINE_MIN then mret tt else
  w ← word;
  let seed := pick ([], [], []) SEEDS w in
  ok ← run_sip_candidate_chain seed domain true;
  if ok : bool then mret tt else
  run_sip_candidate_chain seed domain false;; mret tt.

(** ** DNS *)

Definition dns_qname_wire_size (name : bytes) : Z := if is_valid_imitation_host name then len name + 2 else 0.

Definition PREFIXES : list bytes := map str ["www"; "api"; "cdn"; "dns"; ""]%string.

Definition qname_candidates (domain : bytes) (start : Z) : list bytes :=
  map (fun i => match pick [] PREFIXES (start + i) with [] => domain | prefix => prefix ++ str "." ++ domain end) [0; 1; 2; 3; 4].

Fixpoint choose_within (candidates : list bytes) (budgets : list Z) : option bytes :=
  match budgets with
  | [] => None
  | budget :: budgets =>
      match (if budget =? 0 then None
             else find (fun c => (0 <? dns_qname_wire_size c) && (dns_qname_wire_size c <=? budget)) candidates) with
      | Some c => Some c
      | None => choose_within candidates budgets
      end
  end.

Definition choose_dns_domain_qname (domain : bytes) (max_wire_size opt_reserve : Z) : F R (option bytes) :=
  if negb (is_valid_imitation_host domain) then mret None else
  w ← word;
  let start := w mod len PREFIXES in
  mret (choose_within (qname_candidates domain start)
    [if (0 <? opt_reserve) && (opt_reserve <=? max_wire_size) then max_wire_size - opt_reserve else 0; max_wire_size]).

Definition write_dns_header : F R Z :=
  b0 ← random_byte; put 0 b0;; b1 ← random_byte; put 1 b1;;
  put 2 1;; put 3 32;; put 4 0;; put 5 1;;
  for_range 6 12 (mret 0);; mret 12.

Definition write_dns_question_tail (pos : Z) : F R Z :=
  put pos 0;; put (pos + 1) 1;; put (pos + 2) 0;; put (pos + 3) 1;; mret (pos + 4).

Fixpoint write_labels (labels : list bytes) (pos : Z) : F R (bool * Z) :=
  match labels with
  | [] => mret (true, pos)
  | label :: labels =>
      size ← size_of;
      if (len label =? 0) || (63 <? len label) || (size <? pos + 1 + len label) then mret (false, pos) else
      put pos (len label);; copy (pos + 1) label;; write_labels labels (pos + 1 + len label)
  end.

Definition write_dns_qname (pos : Z) (name : bytes) : F R (bool * Z) :=
  let wire_size := dns_qname_wire_size name in
  size ← size_of;
  if (wire_size =? 0) || (size <? pos) || (size - pos <? wire_size) then mret (false, pos) else
  '(ok, pos) ← write_labels (split_dot [] name) pos;
  if negb ok then mret (false, pos) else
  if size <=? pos then mret (false, pos) else
  put pos 0;; mret (true, pos + 1).

Definition write_dns_opt_padding (write_limit total_len pos arcount_pos : Z) : F R bool :=
  if total_len <? write_limit then mret false else
  if (write_limit <? pos) || (write_limit - pos <? DNS_OPT_MIN_WIRE_SIZE) then mret false else
  if sat_sub write_limit 1 <=? arcount_pos then mret false else
  rest ← usub total_len pos; rest ← usub rest DNS_OPT_FIXED_LEN;
  if 65535 <? rest then mret false else
  let option_code := if write_limit <? total_len then 65001 else 12 in
  put pos 0;; put (pos + 1) 0;; put (pos + 2) 41;; put (pos + 3) 16;; put (pos + 4) 0;;
  put (pos + 5) 0;; put (pos + 6) 0;; put (pos + 7) 0;; put (pos + 8) 0;;
  let pos := pos + 9 in
  rdata_len ← usub total_len pos; rdata_len ← usub rdata_len 2;
  put pos (Z.land (Z.shiftr rdata_len 8) 255);; put (pos + 1) (Z.land rdata_len 255);;
  let pos := pos + 2 in
  pad_value_len ← usub rdata_len 4;
  put pos (Z.shiftr option_code 8);; put (pos + 1) option_code;;
  put (pos + 2) (Z.land (Z.shiftr pad_value_len 8) 255);; put (pos + 3) (Z.land pad_value_len 255);;
  let pos := pos + 4 in
  put_all (Z.to_nat (write_limit - pos)) pos (mret 0);;
  put arcount_pos 0;; put (arcount_pos + 1) 1;; mret true.

Definition emit_dns_domain (total_len : Z) (name : bytes) : F R bool :=
  size ← size_of;
  let qname_size := dns_qname_wire_size name in
  if (qname_size =? 0) || (size <? 12 + qname_size + 4 + DNS_OPT_MIN_WIRE_SIZE) then mret false else
  pos ← write_dns_header;
  '(ok, pos) ← write_dns_qname pos name;
  if negb ok then mret false else
  pos ← write_dns_question_tail pos;
  write_dns_opt_padding size total_len pos 10.

Definition fill_dns_minimal_root_query : F R unit :=
  size ← size_of;
  when (2 <=? size) (b ← random_byte; put 0 b;; b ← random_byte; put 1 b);;
  when (4 <=? size) (put 2 1;; put 3 32);;
  when (6 <=? size) (put 4 0;; put 5 1);;
  let header_tail_end := Z.min size 12 in
  when (6 <? header_tail_end) (for_range 6 header_tail_end (mret 0));;
  when (12 <? size) (put 12 0);;
  when (13 <? size) (put 13 0);;
  when (14 <? size) (put 14 1);;
  when (15 <? size) (put 15 0);;
  when (16 <? size) (put 16 1);;
  when (17 <? size) (for_range 17 size (mret 0)).

Definition fill_dns (trailing_size : Z) (domain : option bytes) : F R unit :=
  size ← size_of;
  if size =? 0 then mret tt else
  let total_len := sat_add usize_max size trailing_size in
  named ← (match domain with
    | Some domain =>
        name ← choose_dns_domain_qname domain (sat_sub size 16) DNS_OPT_MIN_WIRE_SIZE;
        match name with Some name => emit_dns_domain total_len name | None => mret false end
    | None => mret false
    end);
  if named : bool then mret tt else
  rooted ← (if (0 <? trailing_size) && (12 + 1 + 4 + DNS_OPT_MIN_WIRE_SIZE <=? size) then
    pos ← write_dns_header;
    put pos 0;;
    pos ← write_dns_question_tail (pos + 1);
    write_dns_opt_padding size total_len pos 10
    else mret false);
  if rooted : bool then mret tt else fill_dns_minimal_root_query.
End Fill.
End Fill.

(** ** Weakest preconditions *)

Section Wp.
Context {R : Type} `{RngCore R} `{!RngLaws R}.
Import Fill.

(** [m] does not panic on [d], whatever the generator, and ends in [Q]. *)
Definition fwp {A} (m : F R A) (Q : A -> bytes -> Prop) (d : bytes) : Prop :=
  forall r, safely (m d r) (fun x => Q (fst (fst x)) (snd (fst x))).

Lemma fwp_ret {A} (a : A) (Q : A -> bytes -> Prop) d : Q a d -> fwp (mret a) Q d.
Proof. by intros HQ r. Qed.
Lemma fwp_bind {A B} (m : F R A) (k : A -> F R B) (Q : B -> bytes -> Prop) d :
  fwp m (fun a d' => fwp (k a) Q d') d -> fwp (m ≫= k) Q d.
Proof.
  intros Hm r. specialize (Hm r). unfold mbind, F_bind. destruct (m d r) as [[[a d'] r']|]; cbn in *; [apply Hm|done].
Qed.
Lemma fwp_mono {A} (m : F R A) (P Q : A -> bytes -> Prop) d : fwp m P d -> (forall a d', P a d' -> Q a d') -> fwp m Q d.
Proof. intros Hm HPQ r. eapply safely_mono; [apply Hm|]. intros [[a d'] r'] HP. by apply HPQ. Qed.
Lemma fwp_size (Q : Z -> bytes -> Prop) d : Q (len d) d -> fwp size_of Q d.
Proof. by intros HQ r. Qed.
Lemma fwp_word (Q : Z -> bytes -> Prop) d : (forall w, Q w d) -> fwp word Q d.
Proof. intros HQ r. unfold word. destruct (next_u32 r). apply HQ. Qed.
Lemma fwp_usub a b (Q : Z -> bytes -> Prop) d : b <= a -> Q (a - b) d -> fwp (usub a b) Q d.
Proof. intros Hle HQ r. unfold usub. by rewrite (proj2 (Z.leb_le _ _) Hle). Qed.

(** The slice has [n] bytes and starts with [acc]. *)
Definition shaped (n : Z) (acc d : bytes) : Prop := len d = n /\ exists tail, d = acc ++ tail.

Lemma shaped_nil n d : len d = n -> shaped n [] d.
Proof. intros Hn. split; [done|by exists d]. Qed.
Lemma shaped_len n acc d : shaped n acc d -> len d = n.
Proof. by intros [? _]. Qed.
Lemma shaped_prefix n acc acc' d : shaped n (acc ++ acc') d -> shaped n acc d.
Proof. intros [Hn [tail ->]]. split; [done|]. exists (acc' ++ tail). by rewrite <- app_assoc. Qed.

Lemma zset_app_ge (l l' : bytes) i x : len l <= i -> zset (l ++ l') i x = l ++ zset l' (i - len l) x.
Proof.
  unfold zset, len. intros Hi. destruct (Z.ltb_spec i 0); [lia|]. destruct (Z.ltb_spec (i - Z.of_nat (length l)) 0); [lia|].
  rewrite insert_app_r_alt by lia. do 2 f_equal. lia.
Qed.

(** Writing at the end of what is known extends it; writing beyond keeps it. *)
Lemma fwp_put_next i v acc n (Q : unit -> bytes -> Prop) d :
  shaped n acc d -> i = len acc -> i < n -> (forall d', shaped n (acc ++ [byte.of_Z v]) d' -> Q tt d') -> fwp (put i v) Q d.
Proof.
  intros [Hn [tail ->]] -> Hi HQ r. unfold put. pose proof (len_nonneg acc).
  rewrite (proj2 (Z.leb_le 0 _)), (proj2 (Z.ltb_lt _ _)) by lia. cbn. apply HQ. split; [by rewrite len_zset|].
  rewrite zset_app_ge, Z.sub_diag by lia. rewrite len_app in Hn. destruct tail as [|x tail]; [rewrite len_nil in Hn; lia|].
  exists tail. by rewrite <- app_assoc.
Qed.
Lemma fwp_put_later i v acc n (Q : unit -> bytes -> Prop) d :
  shaped n acc d -> len acc <= i < n -> (forall d', shaped n acc d' -> Q tt d') -> fwp (put i v) Q d.
Proof.
  intros [Hn [tail ->]] Hi HQ r. unfold put. pose proof (len_nonneg acc).
  rewrite (proj2 (Z.leb_le 0 _)), (proj2 (Z.ltb_lt _ _)) by lia. cbn. apply HQ. split; [by rewrite len_zset|].
  rewrite zset_app_ge by lia. by eexists.
Qed.
Lemma fwp_put_inside i v a x b n (Q : unit -> bytes -> Prop) d :
  shaped n (a ++ x :: b) d -> i = len a -> (forall d', shaped n (a ++ byte.of_Z v :: b) d' -> Q tt d') -> fwp (put i v) Q d.
Proof.
  intros [Hn [tail ->]] -> HQ r. unfold put. pose proof (len_nonneg a). pose proof (len_nonneg (b ++ tail)).
  rewrite <- app_assoc in *. cbn [app] in *. pose proof Hn as Hl. rewrite len_app, len_cons in Hl.
  rewrite (proj2 (Z.leb_le 0 _)), (proj2 (Z.ltb_lt _ _)) by lia. cbn. apply HQ. split; [by rewrite len_zset|].
  rewrite zset_app_ge, Z.sub_diag by lia. exists tail. by rewrite <- app_assoc.
Qed.
Lemma fwp_copy_next i bs acc n (Q : unit -> bytes -> Prop) d :
  shaped n acc d -> i = len acc -> i + len bs <= n -> (forall d', shaped n (acc ++ bs) d' -> Q tt d') -> fwp (copy i bs) Q d.
Proof.
  intros [Hn [tail ->]] -> Hi HQ r. unfold copy. pose proof (len_nonneg acc). pose proof (len_nonneg bs).
  rewrite (proj2 (Z.leb_le 0 _)), (proj2 (Z.leb_le (len acc + _) _)) by lia. cbn. apply HQ.
  rewrite ztake_app_exact, zdrop_app_ge by lia. split.
  - rewrite len_app in Hn. len_lia.
  - eexists. by rewrite <- app_assoc.
Qed.

(** A drawn value: the slice is untouched. *)
Definition draws (g : F R Z) : Prop := forall (Q : Z -> bytes -> Prop) d, (forall v, Q v d) -> fwp g Q d.
Lemma draws_ret v : draws (mret v).
Proof. intros Q d HQ. by apply fwp_ret. Qed.
Lemma draws_random_byte : draws random_byte.
Proof. intros Q d HQ. apply fwp_bind, fwp_word. intros w. by apply fwp_ret. Qed.
Lemma draws_map g (f : Z -> Z) : draws g -> draws (v ← g; mret (f v)).
Proof. intros Hg Q d HQ. apply fwp_bind, Hg. intros v. by apply fwp_ret. Qed.

Lemma fwp_put_all k i g acc n (Q : unit -> bytes -> Prop) d :
  draws g -> shaped n acc d -> len acc <= i -> i + Z.of_nat k <= n -> (forall d', shaped n acc d' -> Q tt d') ->
  fwp (put_all k i g) Q d.
Proof.
  intros Hg. revert i d. induction k as [|k IH]; intros i d Hs Hi Hk HQ; cbn [put_all]; [by apply fwp_ret, HQ|].
  apply fwp_bind, Hg. intros v. apply fwp_bind. eapply fwp_put_later; [done|lia|]. intros d' Hs'. apply IH; try done; lia.
Qed.
(** A run of one constant byte. *)
Lemma fwp_put_const k i v acc n (Q : unit -> bytes -> Prop) d :
  shaped n acc d -> i = len acc -> i + Z.of_nat k <= n ->
  (forall d', shaped n (acc ++ replicate k (byte.of_Z v)) d' -> Q tt d') -> fwp (put_all k i (mret v)) Q d.
Proof.
  revert acc i d. induction k as [|k IH]; intros acc i d Hs Hi Hk HQ; cbn [put_all].
  { apply fwp_ret, HQ. cbn. by rewrite app_nil_r. }
  apply fwp_bind, fwp_ret, fwp_bind. eapply fwp_put_next; [done|done|lia|]. intros d' Hs'.
  eapply (IH (acc ++ [byte.of_Z v])); [done|len_lia|lia|]. intros d2 Hs2. apply HQ. by rewrite <- app_assoc in Hs2.
Qed.

Lemma fwp_range lo hi g acc n (Q : unit -> bytes -> Prop) d :
  draws g -> shaped n acc d -> len acc <= lo <= hi -> hi <= n -> (forall d', shaped n acc d' -> Q tt d') ->
  fwp (for_range lo hi g) Q d.
Proof.
  intros Hg Hs Hlo Hhi HQ r. unfold for_range. pose proof (len_nonneg acc). rewrite (shaped_len _ _ _ Hs).
  rewrite !(proj2 (Z.leb_le _ _)) by lia. cbn [andb]. eapply fwp_put_all; try done; lia.
Qed.
Lemma fwp_range_const lo hi v acc n (Q : unit -> bytes -> Prop) d :
  shaped n acc d -> lo = len acc -> lo <= hi <= n ->
  (forall d', shaped n (acc ++ replicate (Z.to_nat (hi - lo)) (byte.of_Z v)) d' -> Q tt d') ->
  fwp (for_range lo hi (mret v)) Q d.
Proof.
  intros Hs Hlo Hhi HQ r. unfold for_range. pose proof (len_nonneg acc). rewrite (shaped_len _ _ _ Hs).
  rewrite !(proj2 (Z.leb_le _ _)) by lia. cbn [andb]. eapply fwp_put_const; try done; lia.
Qed.

Lemma fwp_when b m (Q : unit -> bytes -> Prop) d : (b = true -> fwp m Q d) -> (b = false -> Q tt d) -> fwp (when b m) Q d.
Proof. intros H1 H2. destruct b; cbn [when]; [by apply H1|by apply fwp_ret, H2]. Qed.
Lemma fwp_fill_random n (Q : unit -> bytes -> Prop) d : len d = n -> (forall d', shaped n [] d' -> Q tt d') -> fwp fill_random Q d.
Proof.
  intros <- HQ r. unfold fill_random. pose proof (len_fill_random (len d) r (len_nonneg d)) as Hl.
  destruct (Rand.fill_random (len d) r) as [bs r']. cbn in *. apply HQ. by apply shaped_nil.
Qed.
End Wp.

(** ** The fillers *)

Section Specs.
Context {R : Type} `{RngCore R} `{!RngLaws R}.
Import Fill.

Lemma fwp_seq {A} (P : bytes -> Prop) (m : F R unit) (k : F R A) (Q : A -> bytes -> Prop) d :
  fwp m (fun _ d' => P d') d -> (forall d', P d' -> fwp k Q d') -> fwp (m;; k) Q d.
Proof. intros Hm Hk. apply fwp_bind. eapply fwp_mono; [exact Hm|]. intros u d' Hp. by apply Hk. Qed.

Ltac fstep := first
  [ apply fwp_bind | apply fwp_size | apply fwp_word; intros ?w | apply draws_random_byte; intros ?b
  | apply fwp_ret ].
Ltac fsteps := repeat fstep.
(** The next write is beyond what is known, or at its end. *)
Ltac flater := eapply fwp_put_later; [eassumption|len_lia|intros ?d ?Hs].
Ltac fnext := eapply fwp_put_next; [eassumption|len_lia|len_lia|intros ?d ?Hs].

Lemma fill_quic_short_wp d : fwp fill_quic_short (fun _ d' => len d' = len d) d.
Proof.
  unfold fill_quic_short. fsteps. destruct (Z.eqb_spec (len d) 0); [by apply fwp_ret|].
  pose proof (len_nonneg d). pose proof (shaped_nil _ d eq_refl). fsteps. flater. fsteps.
  eapply fwp_range; [apply draws_random_byte|eassumption|len_lia|lia|]. intros d' Hd'. by eapply shaped_len.
Qed.

Lemma fill_quic_initial_wp d : fwp fill_quic_initial (fun _ d' => len d' = len d) d.
Proof.
  unfold fill_quic_initial. pose proof (len_nonneg d). fsteps. eapply fwp_fill_random; [done|]. intros d0 Hs.
  fsteps. rewrite (shaped_len _ _ _ Hs). eapply (fwp_mono _ (fun _ d' => shaped (len d) [] d')).
  { apply fwp_when; [intros Hz%negb_true_iff%Z.eqb_neq|done]. fsteps. flater. done. }
  clear d0 Hs. intros _ d0 Hs. fsteps. eapply (fwp_mono _ (fun _ d' => shaped (len d) [] d')).
  { apply fwp_when; [intros Hz%Z.leb_le|done]. fsteps. flater. fsteps. flater. fsteps. flater. fsteps. flater. done. }
  clear d0 Hs. intros _ d0 Hs. apply fwp_when; [intros Hz%Z.leb_le; fsteps; flater|intros _]; by eapply shaped_len.
Qed.

Lemma land_lnot_3 a : Z.land a (Z.lnot 3) = a - a mod 4.
Proof.
  rewrite <- Z.ldiff_land. change 3 with (Z.ones 2). rewrite Z.ldiff_ones_r, Z.shiftl_mul_pow2, Z.shiftr_div_pow2 by lia.
  change (2 ^ 2) with 4. pose proof (Z.div_mod a 4). lia.
Qed.

Lemma fill_stun_wp d : fwp fill_stun (fun _ d' => len d' = len d) d.
Proof.
  unfold fill_stun. pose proof (len_nonneg d). fsteps. eapply fwp_fill_random; [done|]. intros d0 Hs.
  apply fwp_bind, fwp_size. rewrite (shaped_len _ _ _ Hs). set (body := if 20 <? len d then _ else _).
  set (value_len := if 4 <=? body then Z.min (body - 4) 124 else 0). set (attr_len := if 4 <=? body then 4 + value_len else 0).
  assert (0 <= value_len /\ (4 <= attr_len -> attr_len = 4 + value_len /\ 20 + attr_len <= len d)) as [Hv Ha].
  { assert (0 <= body <= Z.max 0 (len d - 20)) as Hb.
    { unfold body. destruct (Z.ltb_spec 20 (len d)); [rewrite land_lnot_3; pose proof (Z.mod_pos_bound (len d - 20) 4)|];
        pose proof (Z.mod_le (len d - 20) 4); lia. }
    clearbody body. unfold attr_len, value_len. destruct (Z.leb_spec 4 body); lia. }
  assert (0 <= attr_len) as Ha0 by (unfold attr_len; destruct (4 <=? body); lia).
  clearbody value_len attr_len body. set (n := len d) in *. clearbody n. clear d.
  apply (fwp_seq (shaped n [])); [|clear d0 Hs; intros d0 Hs; apply (fwp_seq (shaped n [])); [|clear d0 Hs; intros d0 Hs;
    apply (fwp_seq (shaped n [])); [|clear d0 Hs; intros d0 Hs; apply (fwp_seq (shaped n [])); [|clear d0 Hs; intros d0 Hs;
    apply (fwp_seq (shaped n [])); [|clear d0 Hs; intros d0 Hs]]]]].
  - apply fwp_when; [intros Hz%Z.leb_le|done]. fsteps. flater. fsteps. flater. done.
  - apply fwp_when; [intros Hz%Z.leb_le|done]. fsteps. flater. fsteps. flater. done.
  - apply fwp_when; [intros Hz%Z.leb_le|done]. intros r. unfold copy. pose proof (shaped_len _ _ _ Hs) as Hn. rewrite Hn.
    change (len MAGIC_COOKIE) with 4. rewrite (proj2 (Z.leb_le (4 + 4) _)) by lia. cbn [andb Z.leb safely fst snd Z.compare].
    apply shaped_nil. rewrite !len_app, len_ztake, len_zdrop. change (len MAGIC_COOKIE) with 4. lia.
  - apply fwp_when; [intros Hz%Z.ltb_lt|done]. eapply fwp_range; [apply draws_random_byte|eassumption|len_lia|lia|done].
  - apply fwp_when; [intros Hz%Z.leb_le|done]. destruct (Ha Hz). fsteps. do 4 (flater; fsteps).
    eapply fwp_range; [apply draws_map, draws_random_byte|eassumption|len_lia|lia|done].
  - apply fwp_when; [intros Hz%Z.leb_le|intros _; by eapply shaped_len].
    eapply fwp_range; [apply draws_random_byte|eassumption|len_lia|lia|]. intros d' Hd'. by eapply shaped_len.
Qed.

(** A line either does not fit and changes nothing, or extends the message. *)
Lemma put_sip_line_wp pos line acc n (Q : bool * Z -> bytes -> Prop) d :
  shaped n acc d -> pos = len acc ->
  (n < pos + len line + 2 -> Q (false, pos) d) ->
  (forall d', pos + len line + 2 <= n -> shaped n (acc ++ line) d' -> Q (true, pos + len line) d') ->
  fwp (put_sip_line (R := R) pos line) Q d.
Proof.
  intros Hs Hp Hno Hyes. unfold put_sip_line. fsteps. rewrite (shaped_len _ _ _ Hs).
  destruct (Z.ltb_spec n (pos + len line + 2)); fsteps; [by apply Hno|].
  eapply fwp_copy_next; [exact Hs|done|lia|]. intros d' Hs'. fsteps. by apply Hyes.
Qed.

Lemma put_sip_lines_wp lines pos acc n d :
  shaped n acc d -> pos = len acc -> pos + 2 <= n ->
  fwp (put_sip_lines (R := R) pos lines) (fun pos' d' => exists acc', shaped n (acc ++ acc') d' /\ pos' = len (acc ++ acc') /\ pos' + 2 <= n) d.
Proof.
  revert pos acc d. induction lines as [|line lines IH]; intros pos acc d Hs Hp Hn; cbn [put_sip_lines].
  { fsteps. exists []. by rewrite app_nil_r. }
  fsteps. apply (put_sip_line_wp _ _ acc n); [done|done|intros _; fsteps; exists []; by rewrite app_nil_r|].
  intros d' Hl Hs'. eapply fwp_mono; [apply (IH _ (acc ++ line)); [done|len_lia|lia]|].
  intros pos' d2 (acc' & Hs2 & -> & Hn'). exists (line ++ acc'). by rewrite app_assoc.
Qed.

Definition request_line (method user host : bytes) : bytes :=
  method ++ str " sip:" ++ user ++ str "@" ++ host ++ str " SIP/2.0" ++ CRLF.

Lemma emit_sip_wp method user host via n d :
  len d = n ->
  fwp (emit_sip (R := R) method user host via) (fun ok d' => len d' = n /\
    (ok = true -> shaped n (method ++ str " sip:") d') /\ (via = false -> len (request_line method user host) + 2 <= n -> ok = true)) d.
Proof.
  intros Hn. unfold emit_sip. fsteps. fold (request_line method user host). set (line := request_line method user host).
  apply (put_sip_line_wp 0 line [] n); [by apply shaped_nil|done|intros Hno; fsteps; split_and!; [done|done|lia]|].
  cbn [app negb]. intros d1 Hl Hs1. fsteps. set (vl := str "Via: SIP/2.0/UDP " ++ _).
  assert (forall pos acc d, shaped n (line ++ acc) d -> pos = len (line ++ acc) -> pos + 2 <= n ->
    fwp (R := R) (put pos 13;; put (pos + 1) 10;; size ← size_of; for_range (pos + 2) size (mret 32);; mret true) (fun ok d' => len d' = n /\
      (ok = true -> shaped n (method ++ str " sip:") d') /\ (via = false -> len line + 2 <= n -> ok = true)) d) as Hend.
  { intros pos acc d' Hs Hp Hpn. pose proof (len_nonneg (line ++ acc)). fsteps. flater. fsteps. flater. fsteps.
    rewrite (shaped_len _ _ _ Hs2). eapply fwp_range; [apply draws_ret|eassumption|lia|lia|]. intros d4 Hs4. fsteps.
    split_and!; [by eapply shaped_len| |done]. intros _. eapply shaped_prefix. unfold line, request_line in Hs4.
    rewrite <- !app_assoc in *. exact Hs4. }
  apply (put_sip_line_wp _ vl line n); [done|done|..].
  - intros Hno. cbn [negb]. rewrite andb_true_r. destruct via; [fsteps; split_and!; [by eapply shaped_len|done|done]|].
    apply fwp_bind, fwp_ret. apply (Hend _ []); rewrite ?app_nil_r; [done|done|lia].
  - intros d2 Hl2 Hs2. cbn [negb]. rewrite andb_false_r. apply fwp_bind.
    eapply fwp_mono; [eapply put_sip_lines_wp; [exact Hs2|len_lia|lia]|].
    intros pos d3 (acc & Hs3 & -> & Hp3). rewrite <- app_assoc in *. by apply (Hend _ (vl ++ acc)).
Qed.

(** What an attempt leaves: the length, and [good] if it succeeded. *)
Definition attempt (n : Z) (good : bytes -> Prop) (ok : bool) (d : bytes) : Prop := len d = n /\ (ok = true -> good d).

Lemma first_of_wp n good attempts d :
  Forall (fun m => forall d, len d = n -> fwp (R := R) m (attempt n good) d) attempts -> len d = n ->
  fwp (first_of attempts) (attempt n good) d.
Proof.
  intros Ha. revert d. induction Ha as [|m attempts Hm Ha IH]; intros d Hd; cbn [first_of]; [by fsteps; split|].
  apply fwp_bind. eapply fwp_mono; [by apply Hm|]. intros ok d' [Hl Hg]. destruct ok; [fsteps; split; auto|by apply IH].
Qed.

(** A chain with an attempt that always succeeds. *)
Lemma first_of_succeeds n good attempts m d :
  Forall (fun m => forall d, len d = n -> fwp (R := R) m (attempt n good) d) attempts ->
  (forall d, len d = n -> fwp m (fun ok d' => ok = true /\ attempt n good ok d') d) -> len d = n ->
  fwp (first_of (attempts ++ [m])) (fun ok d' => ok = true /\ attempt n good ok d') d.
Proof.
  intros Ha Hm. revert d. induction Ha as [|m' attempts Hm' Ha IH]; intros d Hd; cbn [first_of app].
  - apply fwp_bind. eapply fwp_mono; [by apply Hm|]. intros ok d' [-> Hat]. fsteps. done.
  - apply fwp_bind. eapply fwp_mono; [by apply Hm'|]. intros ok d' [Hl Hg]. destruct ok; [fsteps; split; [done|split; auto]|by apply IH].
Qed.

Definition SIP_METHODS : list bytes := map str ["OPTIONS"; "REGISTER"; "MESSAGE"]%string.
Definition sip_shaped (n : Z) (d : bytes) : Prop := exists method, In method SIP_METHODS /\ shaped n (method ++ str " sip:") d.

Lemma emit_sip_attempt method user host via n d :
  In method SIP_METHODS -> len d = n -> fwp (R := R) (emit_sip method user host via) (attempt n (sip_shaped n)) d.
Proof.
  intros Hm Hd. eapply fwp_mono; [by apply emit_sip_wp|]. intros ok d' (Hl & Hg & _). split; [done|]. intros Hok.
  exists method. auto.
Qed.

Lemma sip_chain_attempts seed domain via n :
  In (fst (fst seed)) SIP_METHODS ->
  exists attempts, run_sip_candidate_chain (R := R) seed domain via = first_of (attempts ++ [emit_sip (str "OPTIONS") (str "u") (str "x") via]) /\
    Forall (fun m => forall d, len d = n -> fwp (R := R) m (attempt n (sip_shaped n)) d) attempts.
Proof.
  destruct seed as [[method user] host]. cbn [fst]. intros Hm. unfold run_sip_candidate_chain.
  assert (In (str "OPTIONS") SIP_METHODS) as Ho by (by left).
  match goal with |- context [first_of (?l ++ [?m; _])] => exists (l ++ [m]) end. split; [by rewrite <- app_assoc|].
  destruct domain as [domain|]; cbn [app];
    repeat (apply List.Forall_cons; [intros d Hd; by apply emit_sip_attempt|]); apply List.Forall_nil.
Qed.

Lemma seeds_methods w : In (fst (fst (pick ([], [], []) SEEDS w))) SIP_METHODS.
Proof.
  assert (forall seed, In seed SEEDS -> In (fst (fst seed)) SIP_METHODS) as Hall.
  { apply List.Forall_forall. repeat (apply List.Forall_cons; [vm_compute; auto|]). apply List.Forall_nil. }
  by apply Hall, pick_in.
Qed.

Lemma fill_sip_wp domain d :
  fwp (R := R) (fill_sip domain) (fun _ d' => len d' = len d /\ (SIP_REQUEST_LINE_MIN <= len d -> sip_shaped (len d) d')) d.
Proof.
  unfold fill_sip. set (n := len d). apply fwp_bind. eapply fwp_fill_random; [done|]. intros d0 Hs.
  fsteps. rewrite (shaped_len _ _ _ Hs). fold n. destruct (Z.ltb_spec n SIP_REQUEST_LINE_MIN) as [|Hn]; fsteps; [split; [by eapply shaped_len|lia]|].
  pose proof (seeds_methods w) as Hm. set (seed := pick _ _ _) in *. clearbody seed.
  destruct (sip_chain_attempts seed domain true n Hm) as (l1 & -> & Hl1). destruct (sip_chain_attempts seed domain false n Hm) as (l2 & -> & Hl2).
  eapply fwp_mono; [eapply (first_of_wp n (sip_shaped n))|].
  { apply List.Forall_app. split; [done|]. apply List.Forall_cons; [|apply List.Forall_nil]. intros d1 Hd1. apply emit_sip_attempt; [by left|done]. }
  { by eapply shaped_len. }
  intros ok d1 [Hd1 Hg]. destruct ok; [fsteps; auto|]. apply fwp_bind. eapply fwp_mono; [eapply (first_of_succeeds n (sip_shaped n)); [done| |done]|].
  - intros d2 Hd2. eapply fwp_mono; [by apply emit_sip_wp|]. intros ok d3 (Hl & Hs3 & Hok).
    assert (ok = true) as -> by (apply Hok; [done|]; unfold SIP_REQUEST_LINE_MIN in Hn; vm_compute len; lia).
    split; [done|]. split; [done|]. intros _. exists (str "OPTIONS"). split; [by left|by apply Hs3].
  - intros ok d3 [-> [Hl Hg3]]. fsteps. auto.
Qed.

(** *** DNS *)

(** A query header with flags RD and AD, one question, and any ARCOUNT. *)
Definition dns_header (a b x y : Init.Byte.byte) : bytes :=
  [a; b; Byte.x01; Byte.x20; Byte.x00; Byte.x01; Byte.x00; Byte.x00; Byte.x00; Byte.x00; x; y].
Definition dns_question (labels : list bytes) : bytes := (flat_map put_label labels ++ to_be 1 0) ++ to_be 2 1 ++ to_be 2 1.
Definition dns_shaped (n : Z) (d : bytes) : Prop := exists a b x y labels,
  Forall label_ok labels /\ len (flat_map put_label labels) <= 254 /\ shaped n (dns_header a b x y ++ dns_question labels) d.

Lemma dns_header_wp n (Q : Z -> bytes -> Prop) d :
  len d = n -> 12 <= n -> (forall a b d', shaped n (dns_header a b Byte.x00 Byte.x00) d' -> Q 12 d') -> fwp (R := R) write_dns_header Q d.
Proof.
  intros Hn H12 HQ. unfold write_dns_header. apply shaped_nil in Hn. fsteps. fnext. fsteps. do 5 (fnext; fsteps).
  eapply fwp_range_const; [eassumption|len_lia|lia|]. intros d' Hs'. fsteps. eapply HQ. exact Hs'.
Qed.

Lemma dns_tail_wp pos acc n (Q : Z -> bytes -> Prop) d :
  shaped n acc d -> pos = len acc -> pos + 4 <= n ->
  (forall d', shaped n (acc ++ to_be 2 1 ++ to_be 2 1) d' -> Q (pos + 4) d') -> fwp (R := R) (write_dns_question_tail pos) Q d.
Proof.
  intros Hs Hp Hn HQ. unfold write_dns_question_tail. fsteps. do 4 (fnext; fsteps). apply HQ. by rewrite <- !app_assoc in *.
Qed.

Lemma write_labels_wp labels pos acc n d :
  shaped n acc d -> pos = len acc ->
  fwp (R := R) (write_labels labels pos) (fun r d' => len d' = n /\ (fst r = true ->
    shaped n (acc ++ flat_map put_label labels) d' /\ snd r = len (acc ++ flat_map put_label labels))) d.
Proof.
  revert pos acc d. induction labels as [|l labels IH]; intros pos acc d Hs Hp; cbn [write_labels flat_map].
  { fsteps. rewrite app_nil_r. split; [by eapply shaped_len|done]. }
  fsteps. rewrite (shaped_len _ _ _ Hs). pose proof (len_nonneg l).
  destruct (Z.eqb_spec (len l) 0); cbn [orb]; [fsteps; split; [by eapply shaped_len|done]|].
  destruct (Z.ltb_spec 63 (len l)); cbn [orb]; [fsteps; split; [by eapply shaped_len|done]|].
  destruct (Z.ltb_spec n (pos + 1 + len l)); [fsteps; split; [by eapply shaped_len|done]|].
  fsteps. fnext. fsteps. eapply fwp_copy_next; [eassumption|len_lia|lia|]. intros d2 Hs2.
  assert (put_label l = [byte.of_Z (len l)] ++ l) as Hpl by (unfold put_label; by rewrite Z.min_l, ztake_all by lia).
  rewrite <- app_assoc, <- Hpl in Hs2. eapply fwp_mono; [apply (IH _ (acc ++ put_label l)); [done|]|].
  { rewrite Hpl. len_lia. }
  intros [ok p'] d3 [Hl Hok]. split; [done|]. intros Ht. destruct (Hok Ht). by rewrite app_assoc.
Qed.

Lemma write_dns_qname_wp pos name acc n d :
  shaped n acc d -> pos = len acc ->
  fwp (R := R) (write_dns_qname pos name) (fun r d' => len d' = n /\ (fst r = true ->
    is_valid_imitation_host name = true /\
    shaped n (acc ++ flat_map put_label (split_dot [] name) ++ to_be 1 0) d' /\
    snd r = len (acc ++ flat_map put_label (split_dot [] name) ++ to_be 1 0))) d.
Proof.
  intros Hs Hp. unfold write_dns_qname. fsteps. rewrite (shaped_len _ _ _ Hs).
  destruct (_ || _ || _) eqn:Hg; fsteps; [split; [by eapply shaped_len|done]|].
  assert (is_valid_imitation_host name = true) as Hv.
  { apply orb_false_elim in Hg as [[Hg _]%orb_false_elim _]. unfold dns_qname_wire_size in Hg. by destruct (is_valid_imitation_host name). }
  eapply fwp_mono; [by apply write_labels_wp|]. intros [ok p'] d1 [Hl Hok]. cbn [fst snd] in Hok.
  destruct ok; cbn [negb]; [|fsteps; by split]. destruct (Hok eq_refl) as [Hs1 ->].
  destruct (Z.leb_spec n (len (acc ++ flat_map put_label (split_dot [] name)))); [fsteps; by split|].
  fsteps. fnext. fsteps. split; [by eapply shaped_len|]. intros _. rewrite <- app_assoc in Hs0. split_and!; [done|exact Hs0|].
  cbn [snd]. rewrite !len_app. change (len (to_be 1 0)) with 1. lia.
Qed.

Lemma opt_padding_wp total pos h x y rest n d :
  shaped n (h ++ x :: y :: rest) d -> len h = 10 -> pos = len (h ++ x :: y :: rest) ->
  fwp (R := R) (write_dns_opt_padding n total pos 10) (fun ok d' => len d' = n /\
    (ok = true -> exists x' y', shaped n (h ++ x' :: y' :: rest) d')) d.
Proof.
  intros Hs Hh Hp. unfold write_dns_opt_padding. pose proof (shaped_len _ _ _ Hs).
  destruct (Z.ltb_spec total n); [by fsteps|]. unfold DNS_OPT_MIN_WIRE_SIZE, DNS_OPT_FIXED_LEN.
  destruct (Z.ltb_spec n pos); cbn [orb]; [by fsteps|]. destruct (Z.ltb_spec (n - pos) (11 + 4)); [by fsteps|].
  destruct (Z.leb_spec (sat_sub n 1) 10); [by fsteps|]. fsteps. apply fwp_usub; [lia|]. fsteps. apply fwp_usub; [lia|].
  destruct (Z.ltb_spec 65535 (total - pos - 11)); [by fsteps|]. fsteps. do 9 (flater; fsteps).
  apply fwp_usub; [lia|]. fsteps. apply fwp_usub; [lia|]. fsteps. do 2 (flater; fsteps). apply fwp_usub; [lia|]. fsteps.
  do 4 (flater; fsteps). eapply fwp_put_all; [apply draws_ret|eassumption|lia|lia|]. intros d' Hs'. fsteps.
  eapply fwp_put_inside; [eassumption|lia|]. intros e2 He2. fsteps.
  eapply (fwp_put_inside _ _ (h ++ [byte.of_Z 0]) y rest n); [by rewrite <- app_assoc|len_lia|]. intros e3 He3. fsteps.
  split; [by eapply shaped_len|]. intros _. do 2 eexists. rewrite <- app_assoc in He3. exact He3.
Qed.

(** The question and the OPT record after a header. *)
Lemma question_opt_wp total pos a b x y labels n d :
  Forall label_ok labels -> len (flat_map put_label labels) <= 254 ->
  shaped n (dns_header a b x y ++ flat_map put_label labels ++ to_be 1 0) d ->
  pos = len (dns_header a b x y ++ flat_map put_label labels ++ to_be 1 0) -> pos + 4 <= n ->
  fwp (R := R) (pos ← write_dns_question_tail pos; write_dns_opt_padding n total pos 10) (attempt n (dns_shaped n)) d.
Proof.
  intros Hl Hle Hs Hp Hn. apply fwp_bind. eapply dns_tail_wp; [exact Hs|done|done|]. intros d1 Hs1.
  set (h := ztake 10 (dns_header a b x y)). set (q := (flat_map put_label labels ++ to_be 1 0) ++ to_be 2 1 ++ to_be 2 1) in *.
  assert ((dns_header a b x y ++ flat_map put_label labels ++ to_be 1 0) ++ to_be 2 1 ++ to_be 2 1 = h ++ x :: y :: q) as He
    by (unfold q; by rewrite <- !app_assoc).
  eapply fwp_mono; [eapply (opt_padding_wp total _ h x y q); [by rewrite <- He|done|]|].
  { rewrite <- He, Hp, (len_app _ (to_be 2 1 ++ _)). reflexivity. }
  intros ok d2 [Hd2 Hok]. split; [done|]. intros Ht. destruct (Hok Ht) as (x' & y' & Hs2). exists a, b, x', y', labels. split_and!; done.
Qed.

Lemma valid_host_wire name : is_valid_imitation_host name = true ->
  Forall label_ok (split_dot [] name) /\ len (flat_map put_label (split_dot [] name)) = len name + 1 /\ len name <= 253.
Proof. intros [Hl Hn]%valid_host_labels. split; [done|]. split; [|done]. rewrite len_put_qname by done. rewrite len_nil. lia. Qed.

Lemma emit_dns_domain_wp total name n d :
  len d = n -> fwp (R := R) (emit_dns_domain total name) (attempt n (dns_shaped n)) d.
Proof.
  intros Hn. unfold emit_dns_domain. fsteps. rewrite Hn. unfold DNS_OPT_MIN_WIRE_SIZE, DNS_OPT_FIXED_LEN.
  destruct (Z.eqb_spec (dns_qname_wire_size name) 0) as [|Hq]; cbn [orb]; [fsteps; by split|].
  destruct (Z.ltb_spec n (12 + dns_qname_wire_size name + 4 + (11 + 4))) as [|Hsz]; [fsteps; by split|].
  assert (0 <= dns_qname_wire_size name) by (unfold dns_qname_wire_size; pose proof (len_nonneg name); destruct (is_valid_imitation_host name); lia).
  apply fwp_bind. eapply dns_header_wp; [done|lia|]. intros a b d1 Hs1. apply fwp_bind.
  eapply fwp_mono; [eapply write_dns_qname_wp; [exact Hs1|done]|]. intros [ok pos] d2 [Hd2 Hok]. cbn [fst snd] in Hok.
  destruct ok; cbn [negb]; [|fsteps; by split]. destruct (Hok eq_refl) as (Hv & Hs2 & ->).
  destruct (valid_host_wire name Hv) as (Hl & Hlen & Hn'). apply (question_opt_wp _ _ a b Byte.x00 Byte.x00 (split_dot [] name)); try done; [lia|].
  unfold dns_qname_wire_size in Hsz. rewrite Hv in Hsz. rewrite !len_app, Hlen. change (len (to_be 1 0)) with 1.
  change (len (dns_header a b Byte.x00 Byte.x00)) with 12. lia.
Qed.

Lemma minimal_root_wp n d : len d = n -> 17 <= n -> fwp (R := R) fill_dns_minimal_root_query (fun _ d' => dns_shaped n d') d.
Proof.
  intros Hn H17. unfold fill_dns_minimal_root_query. apply shaped_nil in Hn as Hs. fsteps. rewrite (shaped_len _ _ _ Hs).
  rewrite (Z.min_r n 12), !(proj2 (Z.leb_le _ n)), (proj2 (Z.ltb_lt 12 n)), (proj2 (Z.ltb_lt 13 n)), (proj2 (Z.ltb_lt 14 n)),
    (proj2 (Z.ltb_lt 15 n)), (proj2 (Z.ltb_lt 16 n)) by lia. cbn [when]. change (6 <? 12) with true. cbn [when].
  fsteps. fnext. fsteps. fnext. fsteps. do 4 (fnext; fsteps).
  eapply fwp_range_const; [eassumption|len_lia|lia|]. intros e He. fsteps. change (Z.to_nat (12 - 6)) with 6%nat in He. cbn [replicate] in He.
  do 5 (fnext; fsteps). rewrite <- !app_assoc in *. cbn [app replicate] in *.
  assert (forall d', shaped n (dns_header (byte.of_Z (Z.land w 255)) (byte.of_Z (Z.land w0 255)) Byte.x00 Byte.x00 ++ dns_question []) d' ->
    dns_shaped n d') as Hend.
  { intros d' Hd'. do 4 eexists. exists []. split_and!; [apply List.Forall_nil|done|exact Hd']. }
  match goal with Hd : shaped n _ ?d' |- fwp _ _ ?d' => rename Hd into Hlast end.
  apply fwp_when; [intros Hz%Z.ltb_lt; eapply fwp_range; [apply draws_ret|exact Hlast|split; [reflexivity|lia]|lia|]; intros d' Hd'|intros _];
    by apply Hend.
Qed.

Lemma minimal_root_len d : fwp (R := R) fill_dns_minimal_root_query (fun _ d' => len d' = len d) d.
Proof.
  unfold fill_dns_minimal_root_query. pose proof (len_nonneg d). pose proof (shaped_nil _ d eq_refl) as Hs. apply fwp_bind, fwp_size.
  set (n := len d) in *. clearbody n. revert Hs. generalize d. clear d. intros d Hs.
  repeat (apply (fwp_seq (shaped n [])); [apply fwp_when; [intros Hz|done]|clear d Hs; intros d Hs]);
    [..|apply fwp_when; [intros Hz|intros _; by eapply shaped_len]]; rewrite ?Z.leb_le, ?Z.ltb_lt in Hz.
  4, 10: eapply fwp_range; [apply draws_ret|eassumption|len_lia|lia|done || (intros d' Hd'; by eapply shaped_len)].
  all: fsteps; repeat (flater; fsteps); done.
Qed.

(** Every prefix keeps its length; from 17 bytes on it starts with a query. *)
Lemma fill_dns_wp trailing domain d :
  fwp (R := R) (fill_dns trailing domain) (fun _ d' => len d' = len d /\ (17 <= len d -> dns_shaped (len d) d')) d.
Proof.
  unfold fill_dns. set (n := len d). apply fwp_bind, fwp_size. fold n. destruct (Z.eqb_spec n 0); [fsteps; split; [done|lia]|].
  set (total := sat_add _ _ _). apply fwp_bind. eapply (fwp_mono _ (attempt n (dns_shaped n))).
  { destruct domain as [domain|]; [|by fsteps; split]. apply fwp_bind.
    assert (forall m o, fwp (R := R) (choose_dns_domain_qname domain m o) (fun _ d' => d' = d) d) as Hc.
    { intros m o. unfold choose_dns_domain_qname. destruct (negb _); by fsteps. }
    eapply fwp_mono; [apply Hc|]. intros [name|] d' ->; [by apply emit_dns_domain_wp|by fsteps; split]. }
  intros named d1 [Hd1 Hg1]. destruct named; [fsteps; auto|]. apply fwp_bind. eapply (fwp_mono _ (attempt n (dns_shaped n))).
  { unfold DNS_OPT_MIN_WIRE_SIZE, DNS_OPT_FIXED_LEN. destruct (_ && _) eqn:Hc; [|by fsteps; split].
    apply andb_prop in Hc as [_ Hc%Z.leb_le]. apply fwp_bind. eapply dns_header_wp; [done|lia|]. intros a b d2 Hs2. apply fwp_bind.
    eapply fwp_put_next; [exact Hs2|done|lia|]. intros d3 Hs3.
    apply (question_opt_wp total 13 a b Byte.x00 Byte.x00 []); [apply List.Forall_nil|done|exact Hs3|done|lia]. }
  intros rooted d2 [Hd2 Hg2]. destruct rooted; [fsteps; auto|]. destruct (Z.leb_spec 17 n).
  - eapply fwp_mono; [by apply minimal_root_wp|]. intros u d3 Hg3. split; [|done]. destruct Hg3 as (? & ? & ? & ? & ? & _ & _ & Hs3). by eapply shaped_len.
  - eapply fwp_mono; [apply minimal_root_len|]. intros u d3 Hd3. split; [congruence|lia].
Qed.
End Specs.

(** ** The interface of framing, discharged *)

Module ProtocolFillers.
Section Instance_.
Context {R : Type} `{RngCore R}.

(** The slice and the generator after; a filler does not panic ([fill_dns_wp] and
    the like). *)
Definition filled (m : F R unit) (d : bytes) (r : R) : bytes * R :=
  match m d r with Ret (_, d, r) => (d, r) | Panic => (d, r) end.
Lemma filled_wp (m : F R unit) (Q : bytes -> Prop) d r : fwp m (fun _ d' => Q d') d -> Q (fst (filled m d r)).
Proof. intros Hm. specialize (Hm r). unfold filled. by destruct (m d r) as [[[[] d'] r']|]. Qed.

#[export] Instance fillers : PrefixFillers R := {|
  fill_dns d trailing domain r := filled (Fill.fill_dns trailing domain) d r;
  fill_quic_short d r := filled Fill.fill_quic_short d r;
  fill_quic_initial d r := filled Fill.fill_quic_initial d r;
  fill_sip d domain r := filled (Fill.fill_sip domain) d r;
  fill_stun d r := filled Fill.fill_stun d r;
|}.
#[export] Instance laws `{!RngLaws R} : FillerLaws R.
Proof.
  split; intros.
  - apply (filled_wp _ (fun d' => len d' = len d)). eapply fwp_mono; [apply fill_dns_wp|]. by intros u d' [? _].
  - apply (filled_wp _ (fun d' => len d' = len d)), fill_quic_short_wp.
  - apply (filled_wp _ (fun d' => len d' = len d)), fill_quic_initial_wp.
  - apply (filled_wp _ (fun d' => len d' = len d)). eapply fwp_mono; [apply fill_sip_wp|]. by intros u d' [? _].
  - apply (filled_wp _ (fun d' => len d' = len d)), fill_stun_wp.
Qed.
End Instance_.
End ProtocolFillers.

(** ** What a prefix is taken for *)

Lemma question_end_labels a b x y labels rest :
  Forall label_ok labels -> len (flat_map put_label labels) <= 254 ->
  let q := dns_header a b x y ++ dns_question labels ++ rest in
  question_end q = Some (12 + len (flat_map put_label labels) + 5).
Proof.
  intros Hl Hle q. set (fm := flat_map put_label labels) in *. pose proof (len_nonneg fm). pose proof (len_nonneg rest).
  assert (q = dns_header a b x y ++ (fm ++ to_be 1 0) ++ to_be 2 1 ++ to_be 2 1 ++ rest) as Hq
    by (unfold q, dns_question; by rewrite <- !app_assoc).
  assert (len q = 12 + len fm + 5 + len rest) as Hlen
    by (rewrite Hq, !len_app, !len_to_be; change (len (dns_header a b x y)) with 12; lia).
  assert (qname_end q Dns.HEADER_LEN = Some (12 + len fm + 1)) as He.
  { unfold qname_end. rewrite Hq. change Dns.HEADER_LEN with (len (dns_header a b x y)).
    rewrite (qname_walk_labels _ _ _ _ 0 Hl); [done|unfold MAX_QNAME; fold fm; lia|].
    pose proof (len_labels _ Hl) as Hll. fold fm in Hll. rewrite <- Hq. unfold len in *. lia. }
  unfold question_end. rewrite He, Hlen. rewrite !(proj2 (Z.ltb_ge _ _)) by (unfold Dns.HEADER_LEN; lia).
  assert (be16 q (12 + len fm + 1 + 2) = 1) as ->.
  { rewrite Hq. unfold be16. rewrite !app_assoc, <- (app_assoc _ (to_be 2 1) rest).
    rewrite slice_mid; [done|..]; rewrite !len_app, !len_to_be; change (len (dns_header a b x y)) with 12; lia. }
  replace (12 + len fm + 1 + 4) with (12 + len fm + 5) by lia. reflexivity.
Qed.

Lemma detect_dns_shaped n d rest : dns_shaped n d -> detect (d ++ rest) = Some ProbeDns.
Proof.
  intros (a & b & x & y & labels & Hl & Hle & _ & tail & ->). rewrite <- !app_assoc.
  pose proof (question_end_labels a b x y labels (tail ++ rest) Hl Hle) as Hq. cbv zeta in Hq.
  set (q := dns_header a b x y ++ _) in *. pose proof (question_end_range _ _ Hq) as [_ Hlen].
  pose proof (len_nonneg (flat_map put_label labels)). unfold detect. rewrite (proj2 (Z.eqb_neq (len q) 0)) by lia.
  assert (parse_long_header q = None) as ->.
  { unfold parse_long_header. destruct (_ || _); [done|].
    assert (is_known_version (be32 q 1) = false) as ->; [|done]. unfold q. by destruct b. }
  assert (binding_request_len q = None) as ->.
  { unfold binding_request_len. destruct (_ || _); [done|]. destruct (negb _); [done|].
    rewrite bool_decide_eq_false_2; [done|]. unfold q. intros Hm. apply (f_equal of_be) in Hm. vm_compute in Hm. done. }
  assert ((be32 q 4 =? STUN_MAGIC_COOKIE) = false) as -> by done. by rewrite andb_false_r, Hq.
Qed.

Lemma detect_sip_shaped n d rest : sip_shaped n d -> SIP_REQUEST_LINE_MIN <= n -> detect (d ++ rest) = Some ProbeSip.
Proof.
  intros (m & Hm & Hn & tail & ->) Hmin. rewrite <- !app_assoc, app_assoc. set (m' := m ++ str " sip:"). set (t := tail ++ rest).
  assert (m' = str "OPTIONS sip:" \/ m' = str "REGISTER sip:" \/ m' = str "MESSAGE sip:") as Hm'
    by (unfold m'; destruct Hm as [<-|[<-|[<-|[]]]]; auto).
  unfold detect. pose proof (len_nonneg t) as Ht.
  assert (12 <= len m') as Hl by (by destruct Hm' as [-> | [-> | ->]]).
  rewrite len_app, (proj2 (Z.eqb_neq _ _)), Z.min_r, ztake_app_le by lia.
  assert (parse_long_header (m' ++ t) = None) as ->.
  { unfold parse_long_header. by destruct Hm' as [-> | [-> | ->]]; rewrite orb_true_r. }
  assert (binding_request_len (m' ++ t) = None) as ->.
  { unfold binding_request_len. destruct (_ || _); [done|]. by destruct Hm' as [-> | [-> | ->]]. }
  assert (question_end (m' ++ t) = None) as ->.
  { unfold question_end. destruct (_ <? _); [done|]. by destruct Hm' as [-> | [-> | ->]]. }
  cbn [is_Some]. rewrite !bool_decide_eq_false_2, andb_false_r by (by intros []). by destruct Hm' as [-> | [-> | ->]].
Qed.

Section Recognised.
Context {R : Type} `{RngCore R} `{!RngLaws R}.
Import ProtocolFillers.

(** A shaped prefix is taken for what it imitates. An S prefix or a junk
    datagram shaped as DNS, from 17 bytes on, or as SIP, from the 31 bytes of a
    request line on, is classified as that protocol, whatever host is
    configured and whatever bytes follow it; no prefix makes the filler panic or
    changes the length of the slice. *)
Theorem prefix_recognised p domain dst trailing_size (rng : R) rest :
  let d := fst (fill_protocol_like p domain dst trailing_size rng) in
  len d = len dst /\
  (p = ProtoDns -> 17 <= len dst -> detect (d ++ rest) = Some ProbeDns) /\
  (p = ProtoSip -> SIP_REQUEST_LINE_MIN <= len dst -> detect (d ++ rest) = Some ProbeSip).
Proof.
  cbv zeta. pose proof (len_nonneg dst). split_and!.
  - destruct p; cbn [fill_protocol_like];
      first [by apply len_fill_random|apply len_fill_dns|apply len_fill_quic_short|apply len_fill_sip|apply len_fill_stun].
  - intros -> Hn. apply (filled_wp _ (fun d => detect (d ++ rest) = Some ProbeDns)). eapply fwp_mono; [apply fill_dns_wp|].
    intros u d [_ Hd]. by eapply detect_dns_shaped, Hd.
  - intros -> Hn. apply (filled_wp _ (fun d => detect (d ++ rest) = Some ProbeSip)). eapply fwp_mono; [apply fill_sip_wp|].
    intros u d [_ Hd]. eapply detect_sip_shaped; [by apply Hd|done].
Qed.
End Recognised.

(** ** At work *)

Import CounterRng ProtocolFillers.

Lemma prefix_recognised_witness :
  detect (fst (fill_protocol_like ProtoDns (Some ex_domain) (zeros 60) 148 5) ++ zeros 148) = Some ProbeDns /\
  detect (fst (fill_protocol_like ProtoSip (Some ex_domain) (zeros 40) 148 5) ++ zeros 148) = Some ProbeSip.
Proof.
  split.
  - apply (prefix_recognised ProtoDns (Some ex_domain) (zeros 60) 148 5 (zeros 148)); [reflexivity|]. vm_compute. discriminate.
  - apply (prefix_recognised ProtoSip (Some ex_domain) (zeros 40) 148 5 (zeros 148)); [reflexivity|]. vm_compute. discriminate.
Defined.
