(* ===== verification/ProbeBudget.v ===== *)
(** The ceiling on what a device sends to sources nobody has authenticated,
    [device/probe_budget.rs]: a token bucket in one 64-bit atomic, refilled by
    the millisecond and shared by every worker of the device.

    [consume] is the call as one operation, as the rest of the library uses it.
    [act] takes it apart into its atomic actions -- load, clock read, compare
    and exchange -- of any number of workers, in any order; the theorem bounds
    what they are granted between them under every interleaving. *)

From S2P Require Import Prelude.

Definition MILLI : Z := 1000.
Definition MAX_BYTES_PER_SEC : Z := u32_max / MILLI.

Record ProbeBudget := {
  state : Z;
  bytes_per_sec : Z;
}.
Definition set_state (v : Z) (b : ProbeBudget) : ProbeBudget := {| state := v; bytes_per_sec := bytes_per_sec b |}.

Definition pack (millibytes millis : Z) : Z := Z.lor (Z.shiftl millibytes 32) millis.
Definition unpack (v : Z) : Z * Z := (Z.shiftr v 32 mod 2 ^ 32, v mod 2 ^ 32).

Definition budget_new (bytes_per_sec : Z) : ProbeBudget :=
  let bytes_per_sec := Z.min bytes_per_sec MAX_BYTES_PER_SEC in
  {| state := pack (bytes_per_sec * MILLI) 0; bytes_per_sec := bytes_per_sec |}.

(** [now_millis]: the milliseconds since the start, as 32 bits. *)
Definition now_millis (elapsed : Z) : Z := as_millis elapsed mod 2 ^ 32.

Definition sat_mul (a b : Z) : Z := Z.min u64_max (a * b).
Definition cap (rate : Z) : Z := sat_mul rate MILLI.

(** The millibytes a reply costs, or nothing when it can never be admitted. *)
Definition want (rate bytes : Z) : option Z :=
  if (bytes <=? u32_max) && (sat_mul bytes MILLI <=? cap rate) then Some (bytes * MILLI) else None.

(** One round of the loop on the word loaded and the clock read after it:
    whether the reply is admitted, and the word to exchange for [old]. *)
Definition round (rate old now want : Z) : bool * Z :=
  let '(old_tokens, old_ts) := unpack old in
  let elapsed := sat_sub now old_ts in
  let refill := sat_mul elapsed rate in
  let available := Z.min (sat_add u64_max old_tokens refill) (cap rate) in
  if available <? want then (false, pack (available mod 2 ^ 32) now)
  else (true, pack ((available - want) mod 2 ^ 32) now).

(** The call with nobody else on the word: the exchange succeeds at once. *)
Definition consume (bytes now : Z) (b : ProbeBudget) : bool * ProbeBudget :=
  match want (bytes_per_sec b) bytes with
  | None => (false, b)
  | Some w => let '(ok, new) := round (bytes_per_sec b) (state b) now w in (ok, set_state new b)
  end.

(** ** Workers *)

(** Where a worker is in a call for [bytes]. *)
Inductive Attempt :=
| Idle
| Calling (bytes : Z)
| Loaded (bytes old : Z)
| Timed (bytes old now : Z).

Record World := {
  word : Z;
  clock : Z;
  workers : list Attempt;
  admitted : Z;
}.

Inductive Action :=
| Tick (millis : Z)
| Call (i : nat) (bytes : Z)
| Load (i : nat)
| Clock (i : nat)
| Exchange (i : nat).

Definition set_worker (i : nat) (a : Attempt) (w : World) : World :=
  {| word := word w; clock := clock w; workers := <[i := a]> (workers w); admitted := admitted w |}.

(** One atomic action, or nothing when it is not enabled. The clock is
    monotonic and within its 32 bits. *)
Definition act (rate : Z) (a : Action) (w : World) : option World :=
  match a with
  | Tick millis =>
      if (clock w <=? millis) && (millis <? 2 ^ 32)
      then Some {| word := word w; clock := millis; workers := workers w; admitted := admitted w |} else None
  | Call i bytes =>
      match workers w !! i with
      | Some Idle => if 0 <=? bytes then Some (match want rate bytes with None => w | Some _ => set_worker i (Calling bytes) w end) else None
      | _ => None
      end
  | Load i =>
      match workers w !! i with
      | Some (Calling bytes) => Some (set_worker i (Loaded bytes (word w)) w)
      | _ => None
      end
  | Clock i =>
      match workers w !! i with
      | Some (Loaded bytes old) => Some (set_worker i (Timed bytes old (clock w)) w)
      | _ => None
      end
  | Exchange i =>
      match workers w !! i with
      | Some (Timed bytes old now) =>
          match want rate bytes with
          | None => None
          | Some c =>
              let '(ok, new) := round rate old now c in
              if ok then
                if word w =? old
                then Some {| word := new; clock := clock w; workers := <[i := Idle]> (workers w); admitted := admitted w + bytes |}
                else Some (set_worker i (Calling bytes) w)
              else
                let v := if negb (new =? old) && (word w =? old) then new else word w in
                Some {| word := v; clock := clock w; workers := <[i := Idle]> (workers w); admitted := admitted w |}
          end
      | _ => None
      end
  end.

Fixpoint acts (rate : Z) (l : list Action) (w : World) : option World :=
  match l with
  | [] => Some w
  | a :: l => match act rate a w with Some w => acts rate l w | None => None end
  end.

(** A new budget and [n] workers that have not called yet. *)
Definition world_new (bytes_per_sec : Z) (n : nat) : World :=
  {| word := state (budget_new bytes_per_sec); clock := 0; workers := replicate n Idle; admitted := 0 |}.

(** ** The word *)

Definition tokens (v : Z) : Z := fst (unpack v).
Definition stamp (v : Z) : Z := snd (unpack v).

Lemma unpack_pack t s : in_u32 t -> in_u32 s -> unpack (pack t s) = (t, s).
Proof.
  unfold in_u32, u32_max, unpack, pack. intros Ht Hs. rewrite lor_shiftl_add by lia. f_equal.
  - rewrite Z.shiftr_div_pow2 by lia. rewrite Z.div_add_l, (Z.div_small s) by lia. rewrite Z.add_0_r. apply Z.mod_small. lia.
  - rewrite Z.add_comm, Z.mod_add by lia. apply Z.mod_small. lia.
Qed.

Definition rate_ok (rate : Z) : Prop := 0 <= rate <= MAX_BYTES_PER_SEC.

Lemma cap_exact rate : rate_ok rate -> cap rate = rate * 1000 /\ rate * 1000 <= u32_max.
Proof. unfold rate_ok, MAX_BYTES_PER_SEC, cap, sat_mul, u32_max, u64_max, MILLI. change ((2 ^ 32 - 1) / 1000) with 4294967. lia. Qed.

(** What the word holds: no more than a second's allowance, no later than [now]. *)
Definition word_ok (rate now v : Z) : Prop := 0 <= tokens v <= rate * 1000 /\ 0 <= stamp v <= now.

(** A round never gives more than the time since the last one has earned. *)
Lemma round_spec rate now old c ok new :
  rate_ok rate -> 0 <= now < 2 ^ 32 -> word_ok rate now old -> 0 <= c -> round rate old now c = (ok, new) ->
  word_ok rate now new /\ stamp new = now /\
  tokens new + (if ok then c else 0) <= tokens old + rate * (now - stamp old).
Proof.
  intros Hr Hn [Ht Hs] Hc. destruct (cap_exact rate Hr) as [Hcap Hmax]. unfold round. rewrite Hcap.
  assert (unpack old = (tokens old, stamp old)) as -> by (unfold tokens, stamp; by destruct (unpack old)).
  unfold sat_sub, sat_mul, sat_add, u64_max. unfold u32_max in Hmax. set (n := now - stamp old).
  assert (0 <= n * rate < 2 ^ 64) as Hm.
  { assert (0 <= rate <= 4294967) by lia. unfold n. nia. }
  replace (Z.max 0 n) with n by (unfold n; lia). rewrite (Z.min_r _ (n * rate)) by lia.
  set (a := Z.min _ (rate * 1000)). assert (0 <= a <= rate * 1000 /\ a <= tokens old + rate * n) as [Ha Ha'] by (unfold a; lia).
  assert (forall x, 0 <= x <= a -> tokens (pack (x mod 2 ^ 32) now) = x /\ stamp (pack (x mod 2 ^ 32) now) = now) as Hp.
  { intros x Hx. unfold tokens, stamp. rewrite Z.mod_small, unpack_pack by (unfold in_u32, u32_max; lia). done. }
  destruct (Z.ltb_spec a c); intros [= <- <-].
  - destruct (Hp a) as [Ht' Hs']; [lia|]. unfold word_ok. rewrite Ht', Hs'. unfold n in *. lia.
  - destruct (Hp (a - c)) as [Ht' Hs']; [lia|]. unfold word_ok. rewrite Ht', Hs'. unfold n in *. lia.
Qed.

Lemma want_spec rate bytes c : rate_ok rate -> 0 <= bytes -> want rate bytes = Some c -> c = bytes * 1000 /\ 0 <= c <= rate * 1000.
Proof.
  intros Hr Hb. destruct (cap_exact rate Hr) as [Hcap Hm]. unfold want. rewrite Hcap. unfold sat_mul, MILLI, u32_max, u64_max in *.
  destruct (Z.leb_spec bytes (2 ^ 32 - 1)); [|discriminate]. rewrite Z.min_r by lia. cbn [andb].
  destruct (Z.leb_spec (bytes * 1000) (rate * 1000)); intros [= <-]; lia.
Qed.

(** ** The invariant *)

(** A worker's word and clock reading are both from the past, in that order. *)
Definition attempt_ok (rate now : Z) (a : Attempt) : Prop :=
  match a with
  | Idle => True
  | Calling bytes => 0 <= bytes
  | Loaded bytes old => 0 <= bytes /\ word_ok rate now old
  | Timed bytes old t => 0 <= bytes /\ word_ok rate t old /\ t <= now
  end.

Record world_ok (rate : Z) (w : World) : Prop := {
  wk_clock : 0 <= clock w < 2 ^ 32;
  wk_word : word_ok rate (clock w) (word w);
  wk_workers : Forall (attempt_ok rate (clock w)) (workers w);
}.

(** What the bucket owes: the bytes granted and those left, less what time has
    paid in. *)
Definition debt (rate : Z) (w : World) : Z := admitted w * 1000 + tokens (word w) - rate * stamp (word w).

Lemma word_ok_mono rate t t' v : t <= t' -> word_ok rate t v -> word_ok rate t' v.
Proof. unfold word_ok. lia. Qed.

Lemma attempt_ok_mono rate t t' a : t <= t' -> attempt_ok rate t a -> attempt_ok rate t' a.
Proof. destruct a; cbn; intuition (eauto using word_ok_mono; lia). Qed.

Lemma world_ok_new bps n : 0 <= bps -> rate_ok (Z.min bps MAX_BYTES_PER_SEC) /\ world_ok (Z.min bps MAX_BYTES_PER_SEC) (world_new bps n).
Proof.
  intros Hb. assert (rate_ok (Z.min bps MAX_BYTES_PER_SEC)) as Hr by (split; [|lia]; apply Z.min_glb; [done|by vm_compute]).
  split; [done|]. destruct (cap_exact _ Hr) as [_ Hm]. unfold world_new, budget_new. cbn [state]. unfold MILLI.
  set (r := Z.min bps MAX_BYTES_PER_SEC) in *. clearbody r. destruct Hr as [Hr _].
  split; cbn; [lia| |by apply Forall_replicate].
  unfold word_ok, tokens, stamp. rewrite unpack_pack by (unfold in_u32, u32_max in *; lia). cbn. lia.
Qed.

Section Steps.
  Context (rate : Z) (Hr : rate_ok rate).

Lemma set_worker_ok i a w : world_ok rate w -> attempt_ok rate (clock w) a -> world_ok rate (set_worker i a w).
Proof. intros [Hc Hw Hs] Ha. split; cbn; [done..|]. by apply Forall_insert. Qed.

Lemma worker_ok i a w : world_ok rate w -> workers w !! i = Some a -> attempt_ok rate (clock w) a.
Proof. intros Hw Hl. exact (Forall_lookup_1 _ _ _ _ (wk_workers _ _ Hw) Hl). Qed.

(** An exchange keeps the word sound and the debt where it was or lower. *)
Lemma exchange_ok i w bytes old t c ok new :
  world_ok rate w -> workers w !! i = Some (Timed bytes old t) -> want rate bytes = Some c ->
  round rate old t c = (ok, new) -> word w = old ->
  let w' := {| word := new; clock := clock w; workers := <[i := Idle]> (workers w);
               admitted := admitted w + (if ok then bytes else 0) |} in
  world_ok rate w' /\ debt rate w' <= debt rate w.
Proof.
  intros Hw Hl Hc Hround Hold w'. pose proof (worker_ok _ _ _ Hw Hl) as (Hb & Ho & Ht). destruct Hw as [Hk Hw Hs].
  destruct (want_spec _ _ _ Hr Hb Hc) as [-> Hc0].
  destruct (round_spec rate t old (bytes * 1000) ok new Hr) as (Hn & Hst & Hle); [|done|lia|done|].
  { unfold word_ok in Ho. lia. }
  split; [split; cbn; [done| |by apply Forall_insert]|].
  - by apply word_ok_mono with t.
  - unfold debt, w'. cbn [word admitted]. rewrite Hst, Hold. destruct ok; lia.
Qed.

Lemma act_ok a w w' : world_ok rate w -> act rate a w = Some w' -> world_ok rate w' /\ debt rate w' <= debt rate w /\ clock w <= clock w'.
Proof.
  intros Hw. destruct a as [t|i bytes|i|i|i]; cbn [act].
  - destruct (Z.leb_spec (clock w) t), (Z.ltb_spec t (2 ^ 32)); intros [= <-]. destruct Hw as [Hk Hw Hs].
    split; [|unfold debt; cbn [set_worker word admitted clock]; lia]. split; cbn; [lia|by apply word_ok_mono with (clock w)|].
    eapply Forall_impl; [exact Hs|]. intros a. by apply attempt_ok_mono.
  - destruct (workers w !! i) as [[]|]; try discriminate. destruct (Z.leb_spec 0 bytes); [|discriminate].
    destruct (want rate bytes); intros [= <-]; [|done]. split; [by apply set_worker_ok|unfold debt; cbn [set_worker word admitted clock]; lia].
  - destruct (workers w !! i) as [[]|] eqn:Hl; try discriminate. intros [= <-].
    pose proof (worker_ok _ _ _ Hw Hl). split; [|unfold debt; cbn [set_worker word admitted clock]; lia]. apply set_worker_ok; [done|]. split; [done|apply Hw].
  - destruct (workers w !! i) as [[]|] eqn:Hl; try discriminate. intros [= <-].
    pose proof (worker_ok _ _ _ Hw Hl) as [Hb Ho]. split; [|unfold debt; cbn [set_worker word admitted clock]; lia]. apply set_worker_ok; [done|]. by repeat split; try apply Ho.
  - destruct (workers w !! i) as [[]|] eqn:Hl; try discriminate. destruct (want rate bytes) as [c|] eqn:Hc; [|discriminate].
    destruct (round rate old now c) as [ok new] eqn:Hround. pose proof (worker_ok _ _ _ Hw Hl) as (Hb & Ho & Ht).
    destruct (Z.eqb_spec (word w) old) as [He|He].
    + pose proof (exchange_ok i w bytes old now c ok new Hw Hl Hc Hround He) as [H1 H2]. destruct ok; [by intros [= <-]|].
      rewrite andb_true_r. rewrite Z.add_0_r in *. destruct (Z.eqb_spec new old) as [->|]; intros [= <-]; [|done].
      rewrite He. done.
    + rewrite andb_false_r. destruct ok; intros [= <-].
      * split; [by apply set_worker_ok|unfold debt; cbn [set_worker word admitted clock]; lia].
      * split; [|unfold debt; cbn [set_worker word admitted clock]; lia]. exact (set_worker_ok i Idle w Hw I).
Qed.

Lemma acts_ok l w w' : world_ok rate w -> acts rate l w = Some w' -> world_ok rate w' /\ debt rate w' <= debt rate w /\ clock w <= clock w'.
Proof.
  revert w. induction l as [|a l IH]; cbn; intros w Hw; [intros [= <-]; split; [done|lia]|].
  destruct (act rate a w) as [w1|] eqn:Ha; [|discriminate]. intros Hl. destruct (act_ok a w w1 Hw Ha) as (H1 & H2 & H3).
  destruct (IH w1 H1 Hl) as (H4 & H5 & H6). split; [done|lia].
Qed.

End Steps.

(** C35. The device's probe ceiling holds under every interleaving of its
    workers. Take a new budget of [bps] bytes a second and any number of
    workers, and let them load the word, read the clock and exchange it in any
    order. Between any two moments [w1] and [w2] of such a run the replies
    admitted come to at most the allowance [w1] had left and the rate times
    the time between the two words' stamps. The allowance left is never more
    than one second's, so an idle port banks no more than that, and the stamps
    never run ahead of the clock. *)
Theorem probe_ceiling bps n before after w1 w2 :
  0 <= bps ->
  let rate := bytes_per_sec (budget_new bps) in
  acts rate before (world_new bps n) = Some w1 -> acts rate after w1 = Some w2 ->
  (admitted w2 - admitted w1) * 1000 <= tokens (word w1) + rate * (stamp (word w2) - stamp (word w1)) /\
  0 <= tokens (word w1) <= rate * 1000 /\
  stamp (word w2) <= clock w2 /\ admitted w2 * 1000 <= rate * (1000 + clock w2).
Proof.
  intros Hb rate H1 H2. destruct (world_ok_new bps n Hb) as [Hr H0]. change (Z.min bps MAX_BYTES_PER_SEC) with rate in *.
  destruct (acts_ok rate Hr _ _ _ H0 H1) as (W1 & D1 & _). destruct (acts_ok rate Hr _ _ _ W1 H2) as (W2 & D2 & _).
  pose proof (wk_word _ _ H0) as [T0 S0]. pose proof (wk_word _ _ W1) as [T1 S1]. pose proof (wk_word _ _ W2) as [T2 S2].
  unfold debt in *. cbn [admitted world_new clock] in *. unfold rate_ok in Hr. nia.
Qed.

(** Two workers that read the same word: the first is admitted, the second
    loses the exchange, goes round again and is refused. *)
Lemma probe_ceiling_witness :
  let race := [Call 0 80; Call 1 80; Load 0; Load 1; Tick 500; Clock 0; Clock 1; Exchange 0; Exchange 1; Load 1; Clock 1; Exchange 1] in
  exists w, acts 100 race (world_new 100 2) = Some w /\ admitted w = 80 /\
    admitted w * 1000 <= tokens (word (world_new 100 2)) + 100 * (stamp (word w) - 0).
Proof.
  intros race. eexists. split; [vm_compute; reflexivity|]. split; [reflexivity|].
  pose proof (probe_ceiling 100 2 [] race _ _ ltac:(lia) eq_refl ltac:(vm_compute; reflexivity)) as [H _].
  exact H.
Defined.
