(* ===== verification/ReplyPolicy.v ===== *)
(** Which unauthenticated sources may be sent bytes, and how many of them:
    [device/reply_policy.rs], with the predicates of [std::net] it uses.

    The reference is a table of address prefixes; the theorems show that the
    code decides as the table does on the address a source denotes, plain or
    IPv4-mapped, and what that gives the cookie reply. *)

From Stdlib Require Import ZifyBool.
From S2P Require Import Prelude Packet Amnezia Stun.

(** ** The standard library's predicates *)

Definition to_ipv4_mapped (o : bytes) : option bytes :=
  if bool_decide (ztake 12 o = zeros 10 ++ to_be 2 65535) then Some (zdrop 12 o) else None.

Definition is_loopback (ip : IpAddr) : bool :=
  match ip with V4 o => byte_at o 0 =? 127 | V6 o => of_be o =? 1 end.
Definition is_unspecified (ip : IpAddr) : bool :=
  match ip with V4 o | V6 o => of_be o =? 0 end.
Definition is_multicast (ip : IpAddr) : bool :=
  match ip with V4 o => (224 <=? byte_at o 0) && (byte_at o 0 <=? 239) | V6 o => byte_at o 0 =? 255 end.
Definition is_broadcast (o : bytes) : bool := of_be o =? u32_max.
Definition is_link_local (o : bytes) : bool := (byte_at o 0 =? 169) && (byte_at o 1 =? 254).

(** ** The module *)

Definition unmap (addr : SocketAddr) : SocketAddr :=
  match fst addr with
  | V6 v6 => match to_ipv4_mapped v6 with Some v4 => (V4 v4, snd addr) | None => addr end
  | V4 _ => addr
  end.

Inductive Door := DoorProbe | DoorCookie.
#[export] Instance Door_eq_dec : EqDecision Door.
Proof. solve_decision. Defined.

Definition may_reply_to (from : SocketAddr) (door : Door) : bool :=
  if snd from =? 0 then false else
  if is_loopback (fst from) then bool_decide (door = DoorCookie) else
  match fst from with
  | V4 v4 =>
      let this_network := byte_at v4 0 =? 0 in
      let reserved := 240 <=? byte_at v4 0 in
      negb (is_unspecified (V4 v4) || is_multicast (V4 v4) || is_broadcast v4 || is_link_local v4 || this_network || reserved)
  | V6 v6 =>
      let is_link_local := Z.land (be16 v6 0) 65472 =? 65152 in
      negb (is_unspecified (V6 v6) || is_multicast (V6 v6) || is_link_local)
  end.

Definition reply_target (from : SocketAddr) (door : Door) : option SocketAddr :=
  let from := unmap from in if may_reply_to from door then Some from else None.

Inductive CookieVerdict := CvSend | RefusedSource | WouldAmplify.

Definition cookie_verdict (from : SocketAddr) (request_len reply_len : Z) : CookieVerdict :=
  match reply_target from DoorCookie with
  | None => RefusedSource
  | Some _ => if reply_amplifies request_len reply_len then WouldAmplify else CvSend
  end.

(** ** The reference: prefixes *)

(** The address starts with the [bits] bits of [p]. *)
Definition under (o : bytes) (prefix : Z * Z) : bool :=
  let '(p, bits) := prefix in of_be o / 2 ^ (8 * len o - bits) =? p.

(** 0.0.0.0/8, 169.254.0.0/16, 224.0.0.0/4, 240.0.0.0/4. *)
Definition refused_v4 : list (Z * Z) := [(0, 8); (43518, 16); (14, 4); (15, 4)].
(** ::/128, ff00::/8, fe80::/10. *)
Definition refused_v6 : list (Z * Z) := [(0, 128); (255, 8); (1018, 10)].

Definition refused (ip : IpAddr) : bool :=
  match ip with V4 o => existsb (under o) refused_v4 | V6 o => existsb (under o) refused_v6 end.

(** 127.0.0.0/8 and ::1/128. *)
Definition loopback (ip : IpAddr) : bool :=
  match ip with V4 o => under o (127, 8) | V6 o => under o (1, 128) end.

Definition allowed (a : SocketAddr) (door : Door) : bool :=
  negb (snd a =? 0) && negb (refused (fst a)) && negb (loopback (fst a) && bool_decide (door = DoorProbe)).

(** The form in which a dual-stack socket reports an IPv4 source. *)
Definition mapped (v4 : bytes) : bytes := zeros 10 ++ to_be 2 65535 ++ v4.

(** The address a reported source really has. *)
Inductive denotes : SocketAddr -> SocketAddr -> Prop :=
| denotes_v4 v4 port : denotes (V4 v4, port) (V4 v4, port)
| denotes_mapped v4 port : denotes (V6 (mapped v4), port) (V4 v4, port)
| denotes_v6 v6 port : (forall v4, v6 <> mapped v4) -> denotes (V6 v6, port) (V6 v6, port).

(** ** The equivalence *)

Lemma of_be_app a b : of_be (a ++ b) = of_be a * 2 ^ (8 * len b) + of_be b.
Proof.
  unfold of_be. rewrite rev_app_distr, le_combine_app, length_rev, (Z.mul_comm _ 8), Z.lor_comm. unfold len.
  rewrite lor_shiftl_add; [done|lia|]. pose proof (le_combine_bound (rev b)) as Hb. by rewrite length_rev in Hb.
Qed.

Lemma of_be_byte b : of_be [b] = byte.unsigned b.
Proof. apply le_combine_1. Qed.

Lemma land_top10 x : 0 <= x < 2 ^ 16 -> Z.land x 65472 = x / 64 * 64.
Proof.
  intros Hx. change 65472 with (Z.land (Z.ones 16) (Z.lnot (Z.ones 6))). rewrite Z.land_assoc, Z.land_ones, Z.mod_small by lia.
  by rewrite <- Z.ldiff_land, Z.ldiff_ones_r, Z.shiftl_mul_pow2, Z.shiftr_div_pow2 by lia.
Qed.

(** The first two octets of an address and its value. *)
Lemma address_head o n : len o = 2 + n -> 0 <= n ->
  exists b0 b1 r, 0 <= b0 < 256 /\ 0 <= b1 < 256 /\ 0 <= r < 2 ^ (8 * n) /\
    byte_at o 0 = b0 /\ byte_at o 1 = b1 /\ be16 o 0 = b0 * 256 + b1 /\ of_be o = (b0 * 256 + b1) * 2 ^ (8 * n) + r.
Proof.
  intros Hl Hn. destruct o as [|c0 [|c1 o]]; rewrite ?len_cons, ?len_nil in Hl; [lia..|].
  assert (len o = n) as <- by lia. exists (byte.unsigned c0), (byte.unsigned c1), (of_be o).
  pose proof (byte.unsigned_range c0). pose proof (byte.unsigned_range c1).
  assert (of_be [c0; c1] = byte.unsigned c0 * 256 + byte.unsigned c1) as Hw.
  { change [c0; c1] with ([c0] ++ [c1]). rewrite of_be_app, !of_be_byte. done. }
  split_and!; try lia; try apply of_be_bound; try apply of_be_byte; [exact Hw|].
  change (c0 :: c1 :: o) with ([c0; c1] ++ o). by rewrite of_be_app, Hw.
Qed.

Lemma under_head o n x r p bits :
  len o = 2 + n -> 0 <= n -> of_be o = x * 2 ^ (8 * n) + r -> 0 <= r < 2 ^ (8 * n) -> 0 <= bits <= 16 ->
  under o (p, bits) = (x / 2 ^ (16 - bits) =? p).
Proof.
  intros Hl Hn E Hr Hb. unfold under. rewrite E, Hl. replace (8 * (2 + n) - bits) with (8 * n + (16 - bits)) by lia.
  by rewrite Z.pow_add_r, <- Z.div_div, Z.div_add_l, (Z.div_small r), Z.add_0_r by lia.
Qed.

Lemma under_all o p : under o (p, 8 * len o) = (of_be o =? p).
Proof. unfold under. by rewrite Z.sub_diag, Z.div_1_r. Qed.

Lemma may_reply_to_allowed from door : ip_ok (fst from) -> may_reply_to from door = allowed from door.
Proof.
  intros Hip. unfold may_reply_to, allowed. destruct from as [[o|o] port]; cbn [fst snd ip_ok] in *.
  - destruct (address_head o 2) as (b0 & b1 & r & H0 & H1 & Hr & E0 & E1 & _ & E); [lia..|].
    unfold refused, refused_v4, loopback, existsb, is_loopback, is_unspecified, is_multicast, is_broadcast, is_link_local.
    rewrite !(under_head o 2 (b0 * 256 + b1) r), E0, E1, E by (done || lia).
    change (2 ^ (8 * 2)) with 65536 in *. change (2 ^ (16 - 8)) with 256. change (2 ^ (16 - 16)) with 1. change (2 ^ (16 - 4)) with 4096.
    assert ((b0 * 256 + b1) / 256 = b0) as -> by (Z.to_euclidean_division_equations; lia).
    assert (exists q m, (b0 * 256 + b1) / 4096 = q /\ b0 = 16 * q + m /\ 0 <= m < 16) as (q & m & -> & -> & Hm).
    { exists (b0 / 16), (b0 mod 16). Z.to_euclidean_division_equations; lia. }
    rewrite Z.div_1_r. unfold u32_max. destruct (port =? 0); [done|]. destruct door, (Z.eqb_spec (16 * q + m) 127); vm_compute (bool_decide _); lia.
  - destruct (address_head o 14) as (b0 & b1 & r & H0 & H1 & Hr & E0 & E1 & E2 & E); [lia..|].
    unfold refused, refused_v6, loopback, existsb, is_loopback, is_unspecified, is_multicast.
    change 128 with (8 * 16). rewrite <- Hip, !under_all. rewrite !(under_head o 14 (b0 * 256 + b1) r), E0, E2 by (done || lia).
    rewrite land_top10 by lia. change (2 ^ (16 - 8)) with 256. change (2 ^ (16 - 10)) with 64.
    assert ((b0 * 256 + b1) / 256 = b0) as -> by (Z.to_euclidean_division_equations; lia).
    assert (of_be o = 1 -> b0 = 0 /\ b1 = 0) as Hlo by (change (2 ^ (8 * 14)) with 5192296858534827628530496329220096 in *; lia).
    assert (b0 = 0 -> b1 = 0 -> (b0 * 256 + b1) / 64 = 0) as Hq by (by intros -> ->).
    set (q := (b0 * 256 + b1) / 64) in *. destruct (port =? 0); [done|]. destruct door, (Z.eqb_spec (of_be o) 1); vm_compute (bool_decide _); lia.
Qed.

Lemma unmap_ok from : ip_ok (fst from) -> ip_ok (fst (unmap from)).
Proof.
  intros Hip. unfold unmap. destruct from as [[o|o] port]; [done|]. cbn [fst snd] in *. unfold to_ipv4_mapped.
  case_bool_decide; [|done]. cbn in *. rewrite len_zdrop by lia. lia.
Qed.

Lemma unmap_mapped v4 port : unmap (V6 (mapped v4), port) = (V4 v4, port).
Proof.
  unfold unmap, to_ipv4_mapped, mapped. cbn [fst snd]. rewrite app_assoc.
  rewrite ztake_app_exact, zdrop_app_exact by done.
  by rewrite bool_decide_eq_true_2.
Qed.

Lemma to_ipv4_mapped_none o : len o = 16 -> (forall v4, o <> mapped v4) -> to_ipv4_mapped o = None.
Proof.
  intros Ho Hn. unfold to_ipv4_mapped. case_bool_decide as E; [|done]. destruct (Hn (zdrop 12 o)). unfold mapped. rewrite app_assoc, <- E.
  by rewrite ztake_zdrop.
Qed.

Lemma denotes_unmap from a : ip_ok (fst from) -> denotes from a -> unmap from = a.
Proof.
  intros Hip Hd. destruct Hd as [v4 port|v4 port|v6 port Hn]; [done|apply unmap_mapped|]. unfold unmap. cbn [fst snd]. by rewrite to_ipv4_mapped_none.
Qed.
Lemma unmap_denotes from : ip_ok (fst from) -> denotes from (unmap from).
Proof.
  intros Hip. destruct from as [[o|o] port]; [apply denotes_v4|]. unfold unmap. cbn [fst snd]. destruct (to_ipv4_mapped o) as [v4|] eqn:E.
  - unfold to_ipv4_mapped in E. case_bool_decide as Ho; [|done]. injection E as <-.
    replace o with (mapped (zdrop 12 o)) at 1; [apply denotes_mapped|]. unfold mapped. by rewrite app_assoc, <- Ho, ztake_zdrop.
  - apply denotes_v6. intros v4 ->. pose proof (unmap_mapped v4 port) as Hu. unfold unmap in Hu. cbn [fst snd] in Hu. by rewrite E in Hu.
Qed.

Lemma reply_target_allowed from door a : ip_ok (fst from) -> denotes from a ->
  reply_target from door = if allowed a door then Some a else None.
Proof.
  intros Hip Hd. unfold reply_target. rewrite may_reply_to_allowed by (by apply unmap_ok). by rewrite (denotes_unmap _ _ Hip Hd).
Qed.

(** C38. No reply is aimed at an address that cannot be a real source. The
    code's tests agree with the table of prefixes -- this network, link-local,
    multicast, reserved and broadcast space, loopback at the probe door, port
    0 -- applied to the address the source really has, which is unique: the
    IPv4 address inside when it is in the IPv4-mapped form ::ffff:a.b.c.d, and
    otherwise the address itself, also when it is in the IPv4-compatible form
    ::a.b.c.d. That address is also the one answered. A cookie goes out exactly
    to such a target and when it is no longer than the datagram that provoked
    it, and a configuration whose S3 does not exceed its S1 and S2 never loses
    a cookie to that bound. *)
Theorem reply_policy_exact from door request reply :
  ip_ok (fst from) ->
  exists a, denotes from a /\ (forall b, denotes from b -> b = a) /\
  reply_target from door = (if allowed a door then Some a else None) /\
  (cookie_verdict from request reply = CvSend <-> allowed a DoorCookie = true /\ reply <= request) /\
  (cookie_verdict from request reply = RefusedSource <-> allowed a DoorCookie = false) /\
  (forall c kind, config_ok c -> kind = KHandshakeInit \/ kind = KHandshakeResponse ->
     cookie_packet_junk_size c <= outbound_junk_size c kind ->
     cookie_verdict from (outbound_junk_size c kind + base_size kind) (cookie_reply_len c COOKIE_REPLY_SZ) <> WouldAmplify).
Proof.
  intros Hip. pose proof (unmap_denotes from Hip) as Hd. exists (unmap from). split; [done|]. split; [intros b Hb; by rewrite (denotes_unmap _ _ Hip Hb)|].
  set (a := unmap from) in *. clearbody a. split; [by apply reply_target_allowed|]. unfold cookie_verdict. rewrite (reply_target_allowed _ _ _ Hip Hd).
  split; [|split].
  - unfold reply_amplifies. rewrite Z.gtb_ltb. destruct (allowed a _); [|intuition congruence]. destruct (Z.ltb_spec request reply); split; intuition (congruence || lia).
  - destruct (allowed a _), (reply_amplifies request reply); intuition congruence.
  - intros c kind Hc Hk Hle. destruct (allowed a _); [|done].
    unfold reply_amplifies, cookie_reply_len, sat_add, outbound_junk_size in *. cbn [inbound_junk_size]. rewrite Z.gtb_ltb, (proj2 (Z.ltb_ge _ _)); [done|].
    destruct Hk as [-> | ->]; cbn [base_size inbound_junk_size] in *; unfold COOKIE_REPLY_SZ, HANDSHAKE_INIT_SZ, HANDSHAKE_RESP_SZ, usize_max; lia.
Qed.

(** The broadcast address in its mapped form, and 224.0.0.1 in its compatible
    form. *)
Lemma reply_policy_exact_witness :
  let from := (V6 (mapped (to_be 4 4294967295)), 51820) in
  let compatible := (V6 (zeros 12 ++ to_be 4 3758096385), 51820) in
  reply_target from DoorCookie = None /\ cookie_verdict from 148 64 <> CvSend /\ reply_target compatible DoorProbe = Some compatible.
Proof.
  intros from compatible. split_and!.
  - destruct (reply_policy_exact from DoorCookie 148 64 eq_refl) as (a & _ & Hu & -> & _). rewrite <- (Hu _ (denotes_mapped _ _)). vm_compute. reflexivity.
  - destruct (reply_policy_exact from DoorCookie 148 64 eq_refl) as (a & _ & Hu & _ & -> & _). rewrite <- (Hu _ (denotes_mapped _ _)). vm_compute. intros [? _]. congruence.
  - destruct (reply_policy_exact compatible DoorProbe 148 64 eq_refl) as (a & _ & Hu & -> & _).
    rewrite <- (Hu compatible); [vm_compute; reflexivity|]. apply denotes_v6. intros v4 E%(f_equal (fun o => nth 10 o Byte.x00)). vm_compute in E. congruence.
Defined.
