(* ===== verification/ProbeReply.v ===== *)
(** Whether an unauthenticated datagram is answered, and with what:
    [device/probe_reply.rs].

    The budget's atomic is read sequentially here; [ProbeBudget] has the
    interleavings. [millis] is what the responder's clock reads. *)

From Stdlib Require Import String ZifyBool.
From S2P Require Import Prelude Rand Crypto Tags Packet Amnezia HeaderProtection Framing.
From S2P Require Import Dns Stun Quic Sip Imitation ProbeBudget ReplyPolicy.

Local Open Scope Z_scope.
Local Open Scope list_scope.

Definition MAX_REPLY_LEN : Z := 1024.

Record ProbeResponder := {
  budget : ProbeBudget;
  software : bytes;
}.

Definition responder_new `{ImitationEnv} (bytes_per_sec : Z) : ProbeResponder :=
  {| budget := budget_new bytes_per_sec; software := host_software |}.

Inductive Ingress :=
| Wireguard (candidates : list InboundCandidate)
| Reply (reply : bytes)
| Dropped.

Section Responder.
Context `{Crypto} {R : Type} `{RngCore R}.

(** The generator a detected probe goes to; SIP has none. *)
Definition generate_reply (probe : Probe) (request : bytes) (from : SocketAddr) (software : bytes) (rng : R) : option bytes * R :=
  match probe with
  | ProbeDns => (servfail request, rng)
  | ProbeStun => (binding_success request from software, rng)
  | ProbeQuic => version_negotiation request rng
  | ProbeSip => (None, rng)
  end.

Definition reply_to (millis : Z) (request : bytes) (from : SocketAddr) (imitation : AmneziaImitationProtocol)
    (responder : ProbeResponder) (rng : R) : option bytes * ProbeResponder * R :=
  if bool_decide (imitation = ProtoNone) then (None, responder, rng) else
  match reply_target from DoorProbe with
  | None => (None, responder, rng)
  | Some from =>
      match detect request with
      | None => (None, responder, rng)
      | Some probe =>
          if negb (bool_decide (imitation = ProtoAuto)) && negb (probe_is probe imitation) then (None, responder, rng) else
          let '(reply, rng) := generate_reply probe request from (software responder) rng in
          match reply with
          | None => (None, responder, rng)
          | Some reply =>
              if len reply >? MAX_REPLY_LEN then (None, responder, rng) else
              let '(ok, b) := consume (len reply) millis (budget responder) in
              let responder := {| budget := b; software := software responder |} in
              if ok then (Some reply, responder, rng) else (None, responder, rng)
          end
      end
  end.

Definition classify (millis : Z) (datagram : bytes) (amnezia : AmneziaConfig) (obf : ObfuscationRanges) (from : SocketAddr)
    (responder : option ProbeResponder) (rng : R) : Ingress * option ProbeResponder * R :=
  let candidates := inbound_candidates amnezia obf datagram in
  if bool_decide (candidates <> []) then (Wireguard candidates, responder, rng) else
  match responder with
  | None => (Dropped, None, rng)
  | Some r =>
      let '(reply, r, rng) := reply_to millis datagram from (protocol (imitation amnezia)) r rng in
      (match reply with Some reply => Reply reply | None => Dropped end, Some r, rng)
  end.
End Responder.

(** ** No reply is itself a probe *)

Definition sip_method (d : bytes) : bool :=
  existsb (fun p => (len p <=? len (ztake (Z.min (len d) 10) d)) &&
    eq_ignore_ascii_case (ztake (len p) (ztake (Z.min (len d) 10) d)) p) SIP_PREFIXES.

Lemma detect_None d :
  parse_long_header d = None -> binding_request_len d = None ->
  (be32 d 4 = STUN_MAGIC_COOKIE /\ 8 <= len d \/ question_end d = None) -> sip_method d = false ->
  detect d = None.
Proof.
  intros Hq Hs Hd Hsip. unfold detect. destruct (_ =? 0); [done|]. fold (sip_method d). rewrite Hq, Hs, Hsip.
  rewrite !(bool_decide_eq_false_2 (is_Some None)) by by intros [? ?].
  destruct Hd as [[-> Hl]| ->]; [rewrite Z.eqb_refl, (proj2 (Z.leb_le _ _) Hl); done|].
  by rewrite (bool_decide_eq_false_2 (is_Some None)), andb_false_r by by intros [? ?].
Qed.

Definition is_letter (b : Init.Byte.byte) : bool :=
  let z := byte.unsigned b in ((65 <=? z) && (z <=? 90)) || ((97 <=? z) && (z <=? 122)).

Lemma letter_lowercase b c : to_ascii_lowercase b = to_ascii_lowercase c -> is_letter c = true -> is_letter b = true.
Proof.
  intros Heq Hc. assert (forall x, is_letter x = is_letter (to_ascii_lowercase x)) as Hl by (intros x; by destruct x).
  by rewrite Hl, Heq, <- Hl.
Qed.

(** The first three bytes of every SIP method are letters. *)
Lemma sip_excluded d i b : (i < 3)%nat -> d !! i = Some b -> is_letter b = false -> sip_method d = false.
Proof.
  intros Hi Hd Hb. apply not_true_iff_false. intros (p & Hin & [Hl He]%andb_true_iff)%existsb_exists.
  apply bool_decide_eq_true in He. apply (f_equal (fun l : list Init.Byte.byte => l !! i)) in He.
  assert (exists c, p !! i = Some c /\ is_letter c = true) as (c & Hc & Hlc).
  { assert (Forall (fun p => forall i, (i < 3)%nat -> exists c, p !! i = Some c /\ is_letter c = true) SIP_PREFIXES) as Hf.
    { repeat constructor; intros j Hj; do 3 (destruct j as [|j]; [by eexists|]); lia. }
    exact (proj1 (List.Forall_forall _ _) Hf p Hin i Hi). }
  assert (ztake (len p) (ztake (Z.min (len d) 10) d) !! i = Some b) as Ht.
  { apply lookup_lt_Some in Hd as Hdl. apply lookup_lt_Some in Hc as Hcl. unfold ztake, len.
    rewrite !lookup_take_lt by lia. done. }
  assert (forall l, map to_ascii_lowercase l !! i = to_ascii_lowercase <$> (l !! i)) as Hmap by (intros; apply list_lookup_fmap).
  rewrite !Hmap, Ht, Hc in He. cbn in He. apply (inj Some) in He.
  apply letter_lowercase in He; [congruence|done].
Qed.

(** A version whose low half is that of a SERVFAIL's flags is none. *)
Lemma servfail_version hi : is_known_version (hi * 2 ^ 16 + 33280) = false.
Proof.
  set (v := hi * 2 ^ 16 + 33280).
  assert (forall n, 0 <= n < 16 -> Z.testbit v n = Z.testbit 33280 n) as Hbit.
  { intros n Hn. rewrite <- (Z.mod_pow2_bits_low v 16 n) by lia. unfold v. by rewrite Z.add_comm, Z.mod_add. }
  assert (forall m k n, 0 <= n < 16 -> Z.land v m = k -> Z.testbit 33280 n && Z.testbit m n = Z.testbit k n) as Hland.
  { intros m k n Hn <-. by rewrite Z.land_spec, Hbit. }
  unfold is_known_version. assert (is_supported_by_real_servers v = false) as ->.
  { unfold is_supported_by_real_servers, REAL_SERVER_VERSIONS, existsb. lia. }
  destruct (Z.eqb_spec (Z.land v 4294967040) 4278190080) as [E|_]; [by apply (Hland _ _ 15) in E|]. cbn [andb].
  destruct (Z.eqb_spec (Z.land v 252645135) 168430090) as [E|_]; [by apply (Hland _ _ 11) in E|done].
Qed.

Lemma slice_byte d i : 0 <= i < len d -> exists b, slice i (i + 1) d = [b] /\ byte_at d i = byte.unsigned b /\ d !! Z.to_nat i = Some b.
Proof.
  intros Hi. destruct (lookup_lt_is_Some_2 d (Z.to_nat i)) as [b Hb]; [unfold len in Hi; lia|]. exists b.
  assert (slice i (i + 1) d = [b]) as Hs.
  { unfold slice, ztake, zdrop. replace (Z.to_nat (i + 1 - i)) with 1%nat by lia. by rewrite (drop_S d b _ Hb). }
  split; [done|]. split; [|done]. unfold byte_at. rewrite Hs. apply of_be_byte.
Qed.

(** A SERVFAIL has the response bit in its third byte. *)
Lemma servfail_not_probe query r : servfail query = Some r -> detect r = None.
Proof.
  intros Hr. destruct (servfail_spec query r Hr) as (_ & _ & _ & Hq). unfold servfail in Hr.
  destruct (question_end query) as [e|] eqn:He; [|done]. apply question_end_range in He as [H1 H2].
  unfold Dns.HEADER_LEN in *. apply (inj Some) in Hr. symmetry in Hr.
  assert (exists a b, slice 0 2 query = [a; b]) as (a & b & Hab).
  { destruct query as [|a [|b q]]; rewrite ?len_cons, ?len_nil in H2; [lia..|]. by exists a, b. }
  destruct (slice_byte query 2) as (q2 & _ & H2q & _); [lia|]. rewrite Hab, H2q in Hr. set (q := slice 12 e query) in Hr.
  assert (exists c, to_be 1 (Z.lor 128 (Z.land (byte.unsigned q2) (Z.lor 120 1))) = [c] /\ 128 <= byte.unsigned c) as (c & Hc & Hc128).
  { clear. eexists. split; [reflexivity|]. by destruct q2. }
  rewrite Hc in Hr. clear Hc H2q Hab.
  change (r = a :: b :: c :: (to_be 1 130 ++ to_be 2 1 ++ to_be 2 0 ++ to_be 2 0 ++ to_be 2 0) ++ q) in Hr.
  apply detect_None; [..|by right|apply sip_excluded with 2%nat c; [lia|by rewrite Hr|unfold is_letter; lia]].
  - unfold parse_long_header. destruct (_ || _); [done|].
    assert (be32 r 1 = of_be [b; c] * 2 ^ 16 + 33280) as ->; [|by rewrite servfail_version].
    rewrite Hr. change (be32 _ 1) with (of_be ([b; c] ++ to_be 2 33280)). by rewrite of_be_app.
  - rewrite Hr. unfold binding_request_len. destruct (_ || _); [done|]. destruct (negb _); [done|].
    rewrite bool_decide_eq_false_2; [done|]. intros Hm. apply (f_equal of_be) in Hm. vm_compute in Hm. done.
Qed.

Lemma binding_success_shape request client software r :
  binding_success request client software = Some r -> ip_ok (fst client) ->
  len r <= 184 /\ exists al rest, r = Stun.header 257 al (slice 8 20 request) ++ rest /\ in_u16 al /\ len (slice 8 20 request) = 12.
Proof.
  intros Hr Hip. unfold binding_success in Hr. destruct (binding_request_len request) as [n|] eqn:Hn; [|done].
  assert (20 <= len request) as Hlr.
  { unfold binding_request_len, Stun.HEADER_LEN in Hn. by destruct (Z.ltb_spec (len request) 20). }
  assert (len (slice 8 20 request) = 12) as Ht by (rewrite len_slice; lia). set (tid := slice 8 20 request) in *.
  assert (4 + padded (len (xor_mapped_value client tid)) = xor_mapped_len client /\ 0 <= xor_mapped_len client <= 24) as [Hxm Hxl].
  { unfold xor_mapped_value, xor_mapped_len. destruct (fst client) as [ip|ip]; cbn in Hip;
      rewrite !len_app, !len_to_be, len_xor_bytes, ?len_app, ?Ht, Hip; done. }
  set (xm := xor_mapped_value client tid) in *. pose proof (padded_spec (len software) (len_nonneg _)) as [Hp _]. pose proof (len_nonneg software).
  destruct (Z.gtb_spec (len software) MAX_SOFTWARE_LEN) as [|Hs]; [by destruct (check_fingerprint request)|]. unfold MAX_SOFTWARE_LEN in Hs.
  assert (len (Stun.header 257 0 tid) = 20) as Hh by (unfold Stun.header; rewrite !len_app, !len_to_be, Ht; done).
  assert (forall al, len (Stun.header 257 al tid) = 20) as Hh' by (intros al; rewrite <- Hh; unfold Stun.header; by rewrite !len_app, !len_to_be).
  assert (padded (len software) <= 128) as Hp128.
  { pose proof (padded_spec (len software) (len_nonneg _)) as [? Hm]. Z.to_euclidean_division_equations. lia. }
  destruct (check_fingerprint request); [..|done]; apply (inj Some) in Hr; subst r; split.
  - rewrite !len_app, Hh', !len_attr, Hxm, len_nil. lia.
  - do 2 eexists. split; [by rewrite <- app_assoc|]. unfold in_u16, u16_max. lia.
  - rewrite !len_app, Hh', !len_attr, Hxm, len_to_be. change (padded (Z.of_nat 4)) with 4. lia.
  - do 2 eexists. split; [by rewrite <- app_assoc|]. unfold in_u16, u16_max, FP_ATTR_LEN. lia.
Qed.

(** A Binding Success says so in its first two bytes, and has the cookie. *)
Lemma binding_success_not_probe request client software r :
  binding_success request client software = Some r -> ip_ok (fst client) -> detect r = None.
Proof.
  intros Hr Hip. destruct (binding_success_shape _ _ _ _ Hr Hip) as (_ & al & rest & -> & Hal & Ht).
  destruct (header_fields 257 al (slice 8 20 request) rest) as (H0 & _ & H4 & _ & Hl); [done..|].
  pose proof (len_nonneg rest). unfold Stun.HEADER_LEN in Hl. set (d := Stun.header _ _ _ ++ rest) in *.
  assert (d !! 0%nat = Some Byte.x01) as Hd by done.
  apply detect_None; [| | |by apply sip_excluded with 0%nat Byte.x01; [lia|..]].
  - unfold parse_long_header. assert (byte_at d 0 = 1) as -> by done. by rewrite orb_true_r.
  - unfold binding_request_len. rewrite H0. by destruct (_ || _).
  - left. split; [|lia]. unfold be32, STUN_MAGIC_COOKIE. change (4 + 4) with 8. by rewrite H4.
Qed.

Lemma version_negotiation_shape {R} `{RngCore R} initial (rng : R) r rng' :
  version_negotiation initial rng = (Some r, rng') ->
  exists b0 s d, r = b0 :: zeros 4 ++ to_be 1 (len s) ++ s ++ to_be 1 (len d) ++ d ++ flat_map (to_be 4) REAL_SERVER_VERSIONS /\
    192 <= byte.unsigned b0 /\ len s <= 255 /\ len d <= 255.
Proof.
  unfold version_negotiation. destruct (_ <? _); [done|]. destruct (parse_long_header initial) as [h|] eqn:Hp; [|done].
  apply parse_long_header_spec in Hp as (_ & _ & Hd & Hs). destruct (is_supported_by_real_servers _); [done|].
  destruct (next_u32 rng) as [w rng1]. intros Heq.
  exists (byte.of_Z (Z.lor 192 (Z.land (w mod 256) 63))), (lh_scid h), (lh_dcid h).
  split; [by apply (f_equal fst), (inj Some) in Heq|]. split; [|done].
  assert (exists k, 0 <= k < 64 /\ Z.land (w mod 256) 63 = k) as (k & Hk & ->).
  { change 63 with (Z.ones 6). rewrite Z.land_ones by lia. eexists. split; [|done]. by apply Z.mod_pos_bound. }
  assert (Z.lor 192 k = 192 + k) as ->.
  { change 192 with (Z.shiftl 3 6). rewrite lor_shiftl_add by lia. done. }
  rewrite byte.unsigned_of_Z. unfold byte.wrap. rewrite Z.mod_small; lia.
Qed.

(** A Version Negotiation has version 0; read as DNS it has no question. *)
Lemma version_negotiation_not_probe {R} `{RngCore R} initial (rng : R) r rng' :
  version_negotiation initial rng = (Some r, rng') -> detect r = None.
Proof.
  intros Hr. destruct (version_negotiation_spec _ _ _ _ Hr) as (_ & _ & _ & Hq & _).
  destruct (version_negotiation_shape _ _ _ _ Hr) as (b0 & s & d & -> & Hb & Hs & Hd). clear Hr. set (vs := flat_map _ _) in *.
  apply detect_None; [done| |right|apply sip_excluded with 0%nat b0; [lia|done|unfold is_letter; lia]].
  - unfold binding_request_len. destruct (_ || _); [done|]. change (be16 _ 0) with (of_be ([b0] ++ [Byte.x00])).
    rewrite of_be_app, !of_be_byte. change (2 ^ (8 * len [Byte.x00])) with 256. change (byte.unsigned Byte.x00) with 0. unfold BINDING_REQUEST.
    by rewrite (proj2 (Z.eqb_neq _ _)) by lia.
  - unfold question_end. destruct (_ <? _) eqn:Hl; [done|]. destruct (_ || _); [done|].
    set (r := b0 :: _) in *.
    assert (forall x, 0 <= x <= 255 -> of_be (to_be 1 x) = x) as Hrt by (intros x Hx; apply of_be_to_be; cbn; lia).
    assert (be16 r 4 = len s) as ->.
    { change (be16 r 4) with (of_be ([Byte.x00] ++ to_be 1 (len s))). rewrite of_be_app, Hrt; [done|]. pose proof (len_nonneg s). lia. }
    destruct (Z.eqb_spec (len s) 1) as [Hs1|]; [|done]. destruct s as [|s0 [|s1 s]]; [done| |rewrite !len_cons in Hs1; pose proof (len_nonneg s); lia].
    clear Hs Hs1.
    assert (be16 r 6 = byte.unsigned s0 * 256 + len d) as ->.
    { change (be16 r 6) with (of_be ([s0] ++ to_be 1 (len d))). rewrite of_be_app, of_be_byte, Hrt; [done|]. pose proof (len_nonneg d). lia. }
    pose proof (byte.unsigned_range s0). pose proof (len_nonneg d).
    destruct (Z.eqb_spec (byte.unsigned s0 * 256 + len d) 0) as [Hz|]; [|done].
    destruct d; [|rewrite len_cons in Hz; pose proof (len_nonneg d); lia]. by destruct s0.
Qed.

(** ** The bounds *)

Lemma qname_walk_short fuel data pos q e : qname_walk fuel data pos q = Some e -> q + 1 <= MAX_QNAME -> q + (e - pos) <= MAX_QNAME.
Proof.
  revert pos q. induction fuel as [|fuel IH]; [done|]. intros pos q. cbn [qname_walk]. destruct (zget data pos) as [b|]; [|done].
  destruct (negb _); [done|]. destruct (_ =? 0); [intros [= <-]; lia|]. destruct (_ >? MAX_LABEL); [done|].
  destruct (Z.gtb_spec (q + (1 + byte.unsigned b) + 1) MAX_QNAME); [done|]. intros He%IH; lia.
Qed.

Lemma servfail_len query r : servfail query = Some r -> len r <= 271 /\ len r <= len query.
Proof.
  intros Hr. destruct (servfail_spec query r Hr) as [Hle _]. split; [|done]. unfold servfail in Hr.
  destruct (question_end query) as [e|] eqn:He; [|done]. apply question_end_range in He as Hrange.
  unfold question_end in He. destruct (_ <? _); [done|]. destruct (_ || _); [done|]. destruct (_ || _); [done|].
  destruct (qname_end query Dns.HEADER_LEN) as [n|] eqn:Hn; [|done]. apply qname_walk_short in Hn; [|done].
  destruct (_ <? _); [done|]. destruct (negb _); [done|]. apply (inj Some) in He, Hr. subst r. unfold Dns.HEADER_LEN, MAX_QNAME in *.
  rewrite !len_app, !len_to_be, !len_slice by lia. lia.
Qed.

Lemma detect_dns_question d : detect d = Some ProbeDns -> is_Some (question_end d).
Proof.
  unfold detect. destruct (_ =? 0); [done|]. do 2 (case_bool_decide; [done|]).
  destruct (negb _); cbn [andb]; [|by destruct (existsb _ _)]. case_bool_decide; [done|]. by destruct (existsb _ _).
Qed.

Lemma detect_stun_request d : detect d = Some ProbeStun -> is_Some (binding_request_len d).
Proof.
  unfold detect. destruct (_ =? 0); [done|]. case_bool_decide; [done|]. case_bool_decide; [done|].
  destruct (_ && _); [done|]. by destruct (existsb _ _).
Qed.

Lemma detect_quic_header d : detect d = Some ProbeQuic -> is_Some (parse_long_header d).
Proof.
  unfold detect. destruct (_ =? 0); [done|]. case_bool_decide; [done|]. case_bool_decide; [done|].
  destruct (_ && _); [done|]. by destruct (existsb _ _).
Qed.

(** What every generated reply is. *)
Record reply_ok (p : Probe) (request reply : bytes) : Prop := {
  rp_len : len reply <= MAX_LEN;
  rp_attenuates : p = ProbeStun \/ len reply <= len request;
  rp_silent : detect reply = None;
}.

Lemma generate_reply_ok {R} `{RngCore R} p request target software (rng : R) reply rng' :
  ip_ok (fst target) -> generate_reply p request target software rng = (Some reply, rng') ->
  p <> ProbeSip /\ reply_ok p request reply.
Proof.
  intros Hip. unfold generate_reply. destruct p; intros Hg; [|..|done|]; (split; [done|]).
  - apply (f_equal fst) in Hg. cbn in Hg. destruct (servfail_len _ _ Hg). split; [change MAX_LEN with 525; lia|by right|].
    by apply servfail_not_probe in Hg.
  - destruct (version_negotiation_spec _ _ _ _ Hg) as (_ & ? & ? & _). pose proof (len_nonneg reply).
    split; [done|right; lia|by apply version_negotiation_not_probe in Hg].
  - apply (f_equal fst) in Hg. cbn in Hg. destruct (binding_success_shape _ _ _ _ Hg Hip) as [? _].
    split; [change MAX_LEN with 525; lia|by left|by apply binding_success_not_probe in Hg].
Qed.

(** A responder whose budget is in the range its constructor puts it in, with
    a clock of [millis]. *)
Definition responder_ok (millis : Z) (r : ProbeResponder) : Prop :=
  rate_ok (bytes_per_sec (budget r)) /\ word_ok (bytes_per_sec (budget r)) millis (state (budget r)).

Lemma responder_new_ok `{ImitationEnv} bps millis : 0 <= bps -> 0 <= millis -> responder_ok millis (responder_new bps).
Proof.
  intros Hb Hm. destruct (world_ok_new bps 0 Hb) as [Hr Hw]. split; [done|]. eapply word_ok_mono; [|exact (wk_word _ _ Hw)]. done.
Qed.

(** The millibytes the bucket holds, and what it may hold at [millis]. *)
Definition balance (r : ProbeResponder) : Z := tokens (state (budget r)).
Definition allowance (millis : Z) (r : ProbeResponder) : Z :=
  balance r + bytes_per_sec (budget r) * (millis - stamp (state (budget r))).

Lemma consume_spec bytes millis sw b :
  0 <= bytes -> 0 <= millis < 2 ^ 32 -> responder_ok millis {| budget := b; software := sw |} ->
  let '(ok, b') := consume bytes millis b in
  responder_ok millis {| budget := b'; software := sw |} /\
  balance {| budget := b'; software := sw |} + (if ok : bool then bytes * 1000 else 0) <= allowance millis {| budget := b; software := sw |}.
Proof.
  intros Hb Hm [Hr Hw]. unfold consume, allowance, balance in *. cbn [budget] in *.
  destruct (want (bytes_per_sec b) bytes) as [c|] eqn:Hc.
  - destruct (want_spec _ _ _ Hr Hb Hc) as [-> Hc0]. destruct (round _ _ _ _) as [ok new] eqn:Hround.
    destruct (round_spec _ _ _ _ _ _ Hr Hm Hw (proj1 Hc0) Hround) as (Hw' & _ & Hle). by split.
  - split; [done|]. destruct Hw as [_ Hs], Hr as [Hr _].
    pose proof (Z.mul_nonneg_nonneg (bytes_per_sec b) (millis - stamp (state b))). cbv iota. lia.
Qed.

(** A bucket that holds the price of a reply pays it. *)
Lemma consume_enough bytes millis sw b :
  0 <= bytes -> 0 <= millis < 2 ^ 32 -> responder_ok millis {| budget := b; software := sw |} ->
  bytes * 1000 <= tokens (state b) -> fst (consume bytes millis b) = true.
Proof.
  intros Hb Hm [Hr Hw] Henough. unfold consume. cbn [budget] in *. destruct (cap_exact _ Hr) as [Hcap Hmax].
  destruct Hw as [Ht Hs]. unfold want, round. rewrite Hcap.
  assert (unpack (state b) = (tokens (state b), stamp (state b))) as -> by (unfold tokens, stamp; by destruct (unpack _)).
  unfold sat_mul, sat_add, sat_sub, MILLI, u32_max, u64_max in *. rewrite (Z.min_r (2 ^ 64 - 1) (bytes * 1000)) by lia.
  rewrite !(proj2 (Z.leb_le _ _)) by lia. cbn [andb]. rewrite (proj2 (Z.ltb_ge _ _)); [done|].
  assert (0 <= Z.max 0 (millis - stamp (state b)) * bytes_per_sec b) by (unfold rate_ok in Hr; nia). lia.
Qed.

(** ** The theorems *)

Section Policy.
Context `{Crypto} {R : Type} `{RngCore R}.

(** What a reply that is sent is. *)
Lemma reply_to_reply millis request from p responder (rng : R) d r rng' :
  ip_ok (fst from) -> reply_to millis request from p responder rng = (Some d, r, rng') ->
  exists probe target, reply_target from DoorProbe = Some target /\ detect request = Some probe /\
    probe <> ProbeSip /\ (p = ProtoAuto \/ probe_is probe p = true) /\ reply_ok probe request d.
Proof.
  intros Hip. unfold reply_to. case_bool_decide; [done|]. destruct (reply_target from DoorProbe) as [target|] eqn:Ht; [|done].
  assert (ip_ok (fst target)) as Hipt.
  { unfold reply_target in Ht. destruct (may_reply_to _ _); [|done]. apply (inj Some) in Ht. rewrite <- Ht. by apply unmap_ok. }
  destruct (detect request) as [probe|] eqn:Hd; [|done]. destruct (_ && _) eqn:Hp; [done|].
  destruct (generate_reply _ _ _ _ _) as [[d0|] rng0] eqn:Hg; [|done]. apply generate_reply_ok in Hg as [Hsip Hok]; [|done].
  destruct (_ >? _); [done|]. destruct (consume _ _ _) as [[] b]; [|done]. intros [= <- _ _].
  exists probe, target. split_and!; try done. apply andb_false_iff in Hp as [Hp|Hp].
  - left. by apply negb_false_iff, bool_decide_eq_true in Hp.
  - right. by apply negb_false_iff in Hp.
Qed.

(** [reply_to], every branch: the charge, and what a reply that is sent is. *)
Lemma reply_to_spec millis request from p responder (rng : R) :
  ip_ok (fst from) -> 0 <= millis < 2 ^ 32 -> responder_ok millis responder ->
  let '(reply, r, _) := reply_to millis request from p responder rng in
  responder_ok millis r /\
  balance r + from_option len 0 reply * 1000 <= allowance millis responder /\
  (forall d, reply = Some d -> exists probe target, reply_target from DoorProbe = Some target /\ detect request = Some probe /\
     probe <> ProbeSip /\ (p = ProtoAuto \/ probe_is probe p = true) /\ reply_ok probe request d).
Proof.
  intros Hip Hm Hr. assert (balance responder + 0 <= allowance millis responder) as Hkeep.
  { destruct Hr as [[Hr _] [_ Hs]]. unfold allowance. pose proof (Z.mul_nonneg_nonneg (bytes_per_sec (budget responder)) (millis - stamp (state (budget responder)))). lia. }
  destruct (reply_to millis request from p responder rng) as [[reply r] rng'] eqn:E.
  enough (responder_ok millis r /\ balance r + from_option len 0 reply * 1000 <= allowance millis responder) as [? ?].
  { split_and!; [done..|]. intros d ->. by eapply reply_to_reply. }
  unfold reply_to in E. case_bool_decide; [by injection E as <- <- _|]. destruct (reply_target from DoorProbe); [|by injection E as <- <- _].
  destruct (detect request); [|by injection E as <- <- _]. destruct (_ && _); [by injection E as <- <- _|].
  destruct (generate_reply _ _ _ _ _) as [[d|] rng0]; [|by injection E as <- <- _].
  destruct (_ >? _); [by injection E as <- <- _|].
  pose proof (consume_spec (len d) millis (software responder) (budget responder) (len_nonneg _) Hm) as Hc.
  destruct responder as [b sw]. cbn [budget software] in *. specialize (Hc Hr). destruct (consume _ _ _) as [ok b'].
  destruct ok; by injection E as <- <- _.
Qed.

(** C34. A probe is answered safely or not at all. What has a reading as
    WireGuard is handed on with every reading, and neither answered nor
    charged for. Anything else is answered only when it is a probe of the
    imitated protocol (of any, in auto mode), never SIP, and only towards an
    allowed target. The reply is at most [MAX_LEN] bytes -- the size backstop
    never bites -- is no longer than the probe except for STUN, and is not
    itself a probe, so two responders cannot answer each other. Its whole
    length has been paid for: the balance and the reply together stay within
    what the bucket held and has earned since. *)
Theorem probe_reply_safe millis d c obf from r (rng : R) :
  ip_ok (fst from) -> 0 <= millis < 2 ^ 32 -> responder_ok millis r ->
  let candidates := inbound_candidates c obf d in
  exists ingress r' rng', classify millis d c obf from (Some r) rng = (ingress, Some r', rng') /\ responder_ok millis r' /\
  match ingress with
  | Wireguard l => l = candidates /\ l <> [] /\ r' = r
  | Reply reply => candidates = [] /\ balance r' + len reply * 1000 <= allowance millis r /\
      exists probe target, reply_target from DoorProbe = Some target /\ detect d = Some probe /\ probe <> ProbeSip /\
        (protocol (imitation c) = ProtoAuto \/ probe_is probe (protocol (imitation c)) = true) /\
        len reply <= MAX_LEN < MAX_REPLY_LEN /\ (probe = ProbeStun \/ len reply <= len d) /\ detect reply = None
  | Dropped => candidates = [] /\ balance r' <= allowance millis r
  end.
Proof.
  intros Hip Hm Hr candidates. unfold classify. fold candidates. case_bool_decide as Hc; [by do 3 eexists|].
  clearbody candidates. subst candidates.
  pose proof (reply_to_spec millis d from (protocol (imitation c)) r rng Hip Hm Hr) as Hs.
  destruct (reply_to _ _ _ _ _ _) as [[reply r'] rng']. destruct Hs as (Hr' & Hle & Hreply). do 3 eexists. split; [done|]. split; [done|].
  destruct reply as [reply|]; cbn [from_option] in Hle; [|split; [done|lia]]. split; [done|]. split; [done|].
  destruct (Hreply _ eq_refl) as (probe & target & H1 & H2 & H3 & H4 & [H5 H6 H7]). exists probe, target. by split_and!.
Qed.

(** What a generator needs of a detected probe to answer it. *)
Definition answerable (p : Probe) (d : bytes) : Prop :=
  match p with
  | ProbeDns => True
  | ProbeStun => check_fingerprint d <> FpInvalid
  | ProbeQuic => MIN_INITIAL_DATAGRAM <= len d /\ is_supported_by_real_servers (be32 d 1) = false
  | ProbeSip => False
  end.

Lemma generate_reply_answers p d target sw (rng : R) :
  detect d = Some p -> answerable p d -> len sw <= MAX_SOFTWARE_LEN ->
  exists reply rng', generate_reply p d target sw rng = (Some reply, rng').
Proof.
  intros Hd Ha Hsw. unfold generate_reply. destruct p; cbn [answerable] in Ha.
  - apply detect_dns_question in Hd as [e He]. unfold servfail. rewrite He. by do 2 eexists.
  - apply detect_quic_header in Hd as [h Hh]. destruct Ha as [Hl Hv]. unfold version_negotiation. rewrite Hh.
    rewrite (proj2 (Z.ltb_ge _ _) Hl). apply parse_long_header_spec in Hh as (_ & -> & _). rewrite Hv.
    destruct (next_u32 rng). by do 2 eexists.
  - done.
  - apply detect_stun_request in Hd as [n Hn]. unfold binding_success. rewrite Hn, Z.gtb_ltb, (proj2 (Z.ltb_ge _ _)) by done.
    destruct (check_fingerprint d); [..|done]; by do 2 eexists.
Qed.

(** The port behaves as the service it imitates. A datagram with no
    WireGuard reading that is a probe of the imitated protocol (of any, in
    auto mode) from an allowed source is answered whenever the bucket holds
    the longest reply's price: every DNS question, every STUN request whose
    FINGERPRINT is not wrong, every QUIC Initial of full size that offers a
    version no real server has. *)
Theorem probe_answered millis d c obf from r (rng : R) probe target :
  ip_ok (fst from) -> 0 <= millis < 2 ^ 32 -> responder_ok millis r -> len (software r) <= MAX_SOFTWARE_LEN ->
  inbound_candidates c obf d = [] -> detect d = Some probe -> answerable probe d ->
  protocol (imitation c) = ProtoAuto \/ probe_is probe (protocol (imitation c)) = true ->
  reply_target from DoorProbe = Some target -> MAX_LEN * 1000 <= balance r ->
  exists reply r' rng', classify millis d c obf from (Some r) rng = (Reply reply, Some r', rng').
Proof.
  intros Hip Hm Hr Hsw Hc Hd Ha Hp Ht Hb. unfold classify. rewrite Hc, bool_decide_eq_false_2 by by intros [].
  unfold reply_to. rewrite Ht, Hd. rewrite bool_decide_eq_false_2 by (destruct Hp as [->|Hp]; [done|intros E; rewrite E in Hp; by destruct probe]).
  assert (negb (bool_decide (protocol (imitation c) = ProtoAuto)) && negb (probe_is probe (protocol (imitation c))) = false) as ->.
  { apply andb_false_iff. destruct Hp as [->| ->]; [by left|by right]. }
  assert (ip_ok (fst target)) as Hipt.
  { unfold reply_target in Ht. destruct (may_reply_to _ _); [|done]. apply (inj Some) in Ht. rewrite <- Ht. by apply unmap_ok. }
  destruct (generate_reply_answers probe d target (software r) rng Hd Ha Hsw) as (reply & rng' & Hg). rewrite Hg.
  apply generate_reply_ok in Hg as [_ [Hl _ _]]; [|done]. rewrite Z.gtb_ltb, (proj2 (Z.ltb_ge _ _)) by (unfold MAX_REPLY_LEN; change MAX_LEN with 525 in *; lia).
  pose proof (consume_enough (len reply) millis (software r) (budget r) (len_nonneg _) Hm) as He. destruct r as [b sw]. cbn [budget software] in *.
  unfold balance in Hb. cbn [budget] in Hb. specialize (He Hr ltac:(lia)). destruct (consume _ _ _) as [ok b']. cbn in He. subst ok. by do 3 eexists.
Qed.
End Policy.

(** ** Witnesses *)

Import Toy CounterRng SampleEnv.

(** An IPv4 client on a dual-stack socket asks a device that imitates DNS. *)
Definition ex_from : SocketAddr := (V6 (mapped (to_be 4 3405803783)), 40000).
Definition ex_responder : ProbeResponder := responder_new 4096.

Lemma probe_reply_safe_witness :
  exists reply r' rng', classify 500 ex_query ex_dns_config obf_default ex_from (Some ex_responder) 3 = (Reply reply, Some r', rng') /\
    len reply <= len ex_query /\ detect reply = None.
Proof.
  destruct (probe_reply_safe 500 ex_query ex_dns_config obf_default ex_from ex_responder 3) as (ingress & r' & rng' & Hc & _ & H);
    [reflexivity|lia|apply responder_new_ok; lia|].
  assert (exists reply, ingress = Reply reply) as [reply ->].
  { apply (f_equal (fun x => fst (fst x))) in Hc. vm_compute in Hc. eexists. symmetry. exact Hc. }
  exists reply, r', rng'. split; [exact Hc|]. destruct H as (_ & _ & probe & target & _ & Hd & _ & _ & _ & Hl & Hs).
  assert (detect ex_query = Some ProbeDns) as Hq by (vm_compute; reflexivity). split; [|exact Hs].
  destruct Hl as [->|Hl]; [congruence|exact Hl].
Defined.

Lemma probe_answered_witness :
  exists reply r' rng', classify 500 ex_query ex_dns_config obf_default ex_from (Some ex_responder) 3 = (Reply reply, Some r', rng').
Proof.
  apply (probe_answered 500 ex_query ex_dns_config obf_default ex_from ex_responder 3 ProbeDns (V4 (to_be 4 3405803783), 40000)).
  - reflexivity.
  - lia.
  - apply responder_new_ok; lia.
  - vm_compute. congruence.
  - vm_compute. reflexivity.
  - vm_compute. reflexivity.
  - exact I.
  - right. reflexivity.
  - vm_compute. reflexivity.
  - vm_compute. congruence.
Defined.
