(* ===== verification/Text.v ===== *)
(** Text as the configuration protocol reads and writes it: UTF-8, whitespace,
    unsigned integers, booleans, addresses. This is the part of Rust's standard
    library [device/api.rs] and [serialization.rs] rely on; a string is its
    bytes. [Sip.dec] prints an integer. *)

From Stdlib Require Import String.
From stdpp Require Import list.
From S2P Require Import Prelude Rand Packet Amnezia Sip.

Local Open Scope Z_scope.
Local Open Scope list_scope.

(** ** UTF-8 *)

Definition is_cont (b : Init.Byte.byte) : bool := byte_in 128 191 b.

(** [str::from_utf8]: no overlong form, no surrogate, nothing past U+10FFFF. *)
Fixpoint utf8_valid (s : bytes) : bool :=
  match s with
  | [] => true
  | b0 :: s =>
      if byte_in 0 127 b0 then utf8_valid s else
      match s with
      | [] => false
      | b1 :: s =>
          if byte_in 194 223 b0 then is_cont b1 && utf8_valid s else
          match s with
          | [] => false
          | b2 :: s =>
              if byte_in 224 239 b0 then
                byte_in (if byte.unsigned b0 =? 224 then 160 else 128) (if byte.unsigned b0 =? 237 then 159 else 191) b1 && is_cont b2 && utf8_valid s
              else
              match s with
              | [] => false
              | b3 :: s =>
                  byte_in 240 244 b0 &&
                  byte_in (if byte.unsigned b0 =? 240 then 144 else 128) (if byte.unsigned b0 =? 244 then 143 else 191) b1 &&
                  is_cont b2 && is_cont b3 && utf8_valid s
              end
          end
      end
  end.

(** [str::is_char_boundary] *)
Definition is_char_boundary (s : bytes) (i : Z) : bool :=
  (i =? 0) || (i =? len s) || match s !! Z.to_nat i with Some b => negb (is_cont b) | None => false end.

(** [String::pop]: the last character, with its continuation bytes. *)
Fixpoint drop_char (r : bytes) : bytes :=
  match r with [] => [] | b :: r => if is_cont b then drop_char r else r end.
Definition pop (s : bytes) : bytes := rev (drop_char (rev s)).

(** ** Whitespace *)

(** The encodings of the characters with the property White_Space. *)
Definition SPACES : list bytes :=
  map (map byte.of_Z) ([[9]; [10]; [11]; [12]; [13]; [32]; [194; 133]; [194; 160]; [225; 154; 128]] ++
    map (fun c => [226; 128; c]) [128; 129; 130; 131; 132; 133; 134; 135; 136; 137; 138; 168; 169; 175] ++ [[226; 129; 159]; [227; 128; 128]]).

Definition strip_prefix (p s : bytes) : option bytes := if bool_decide (ztake (len p) s = p) then Some (zdrop (len p) s) else None.
Fixpoint strip_any (ps : list bytes) (s : bytes) : option bytes :=
  match ps with [] => None | p :: ps => match strip_prefix p s with Some s => Some s | None => strip_any ps s end end.
Fixpoint strip_all (fuel : nat) (ps : list bytes) (s : bytes) : bytes :=
  match fuel with
  | O => s
  | S fuel => match strip_any ps s with Some s => strip_all fuel ps s | None => s end
  end.
Definition trim_start (s : bytes) : bytes := strip_all (List.length s) SPACES s.
Definition trim_end (s : bytes) : bytes := rev (strip_all (List.length s) (map (@rev _) SPACES) (rev s)).
Definition trim (s : bytes) : bytes := trim_end (trim_start s).

(** ** Splitting *)

(** [split_once], and [splitn(2, c)] when it gives two parts. *)
Fixpoint split_once (c : Init.Byte.byte) (s : bytes) : option (bytes * bytes) :=
  match s with
  | [] => None
  | b :: s => if Byte.eqb b c then Some ([], s) else match split_once c s with Some (l, r) => Some (b :: l, r) | None => None end
  end.

(** [split(c)] *)
Fixpoint split (c : Init.Byte.byte) (s : bytes) : list bytes :=
  match s with
  | [] => [[]]
  | b :: s => if Byte.eqb b c then [] :: split c s else match split c s with l :: ls => (b :: l) :: ls | [] => [[b]] end
  end.

(** ** Integers and booleans *)

Definition digit_value (b : Init.Byte.byte) : option Z :=
  let z := byte.unsigned b in
  if byte_in 48 57 b then Some (z - 48) else if byte_in 97 122 b then Some (z - 87) else if byte_in 65 90 b then Some (z - 55) else None.
Definition to_digit (radix : Z) (b : Init.Byte.byte) : option Z :=
  match digit_value b with Some v => if v <? radix then Some v else None | None => None end.

Fixpoint digits (radix : Z) (acc : Z) (s : bytes) : option Z :=
  match s with
  | [] => Some acc
  | b :: s => match to_digit radix b with Some v => digits radix (acc * radix + v) s | None => None end
  end.

(** [from_str_radix] of an unsigned type with the given maximum: a plus sign is
    taken, a minus sign is not, and neither stands alone. *)
Definition from_str_radix (radix max : Z) (s : bytes) : option Z :=
  let checked s := match digits radix 0 s with Some v => if v <=? max then Some v else None | None => None end in
  match s with
  | [] => None
  | [b] => if Byte.eqb b Byte.x2b || Byte.eqb b Byte.x2d then None else checked [b]
  | b :: rest => if Byte.eqb b Byte.x2b then checked rest else checked s
  end.
Definition parse_u8 : bytes -> option Z := from_str_radix 10 255.
Definition parse_u16 : bytes -> option Z := from_str_radix 10 u16_max.
Definition parse_u32 : bytes -> option Z := from_str_radix 10 u32_max.

Definition parse_bool (s : bytes) : option bool :=
  if bool_decide (s = str "true") then Some true else if bool_decide (s = str "false") then Some false else None.

(** ** Addresses *)

(** The parser of [core::net]: a reader gives a value and the rest, or fails
    and consumes nothing. *)
Definition read_given_char (c : Init.Byte.byte) (s : bytes) : option bytes :=
  match s with b :: s => if Byte.eqb b c then Some s else None | [] => None end.

Fixpoint read_digits (radix max : Z) (count : Z) (limit : option Z) (acc : Z) (s : bytes) : option (Z * Z * bytes) :=
  match s with
  | [] => Some (acc, count, [])
  | b :: rest =>
      match to_digit radix b with
      | None => Some (acc, count, s)
      | Some v =>
          let acc := acc * radix + v in
          let count := count + 1 in
          if match limit with Some n => n <? count | None => max <? acc end then None else read_digits radix max count limit acc rest
      end
  end.
Definition read_number (radix max : Z) (limit : option Z) (allow_zero_prefix : bool) (s : bytes) : option (Z * bytes) :=
  let leading_zero := match s with b :: _ => Byte.eqb b Byte.x30 | [] => false end in
  match read_digits radix max 0 limit 0 s with
  | None => None
  | Some (v, count, rest) =>
      if count =? 0 then None
      else if negb allow_zero_prefix && leading_zero && (1 <? count) then None
      else if v <=? max then Some (v, rest) else None
  end.

(** A separator before every element but the first. *)
Definition read_separator {A} (c : Init.Byte.byte) (index : Z) (read : bytes -> option (A * bytes)) (s : bytes) : option (A * bytes) :=
  if 0 <? index then match read_given_char c s with Some s => read s | None => None end else read s.

Fixpoint read_octets (n : nat) (index : Z) (s : bytes) : option (bytes * bytes) :=
  match n with
  | O => Some ([], s)
  | S n =>
      match read_separator Byte.x2e index (read_number 10 255 (Some 3) false) s with
      | None => None
      | Some (o, s) => match read_octets n (index + 1) s with Some (os, s) => Some (byte.of_Z o :: os, s) | None => None end
      end
  end.
Definition read_ipv4_addr (s : bytes) : option (bytes * bytes) := read_octets 4 0 s.

(** Groups of a half of an IPv6 address: their bytes, how many, and whether they
    end in an embedded IPv4 address. *)
Fixpoint read_groups (limit : nat) (index : Z) (s : bytes) : bytes * Z * bool * bytes :=
  match limit with
  | O => ([], 0, false, s)
  | S limit =>
      match (match limit with O => None | S _ => read_separator Byte.x3a index read_ipv4_addr s end) with
      | Some (v4, s) => (v4, 2, true, s)
      | None =>
          match read_separator Byte.x3a index (read_number 16 u16_max (Some 4) true) s with
          | Some (g, s) => let '(gs, n, v4, s) := read_groups limit (index + 1) s in (to_be 2 g ++ gs, n + 1, v4, s)
          | None => ([], 0, false, s)
          end
      end
  end.
Definition read_ipv6_addr (s : bytes) : option (bytes * bytes) :=
  let '(head, n, v4, s) := read_groups 8 0 s in
  if n =? 8 then Some (head, s) else if v4 then None else
  match read_given_char Byte.x3a s with
  | None => None
  | Some s =>
      match read_given_char Byte.x3a s with
      | None => None
      | Some s =>
          let '(tail, m, _, s) := read_groups (Z.to_nat (8 - (n + 1))) 0 s in
          Some (head ++ zeros (16 - 2 * n - 2 * m) ++ tail, s)
      end
  end.

Definition parse_with {A} (read : bytes -> option (A * bytes)) (s : bytes) : option A :=
  match read s with Some (a, []) => Some a | _ => None end.

Definition read_ip_addr (s : bytes) : option (IpAddr * bytes) :=
  match read_ipv4_addr s with
  | Some (a, s) => Some (V4 a, s)
  | None => match read_ipv6_addr s with Some (a, s) => Some (V6 a, s) | None => None end
  end.
Definition parse_ip_addr : bytes -> option IpAddr := parse_with read_ip_addr.

Definition read_port (s : bytes) : option (Z * bytes) :=
  match read_given_char Byte.x3a s with Some s => read_number 10 u16_max None true s | None => None end.
Definition read_scope_id (s : bytes) : option (Z * bytes) :=
  match read_given_char Byte.x25 s with Some s => read_number 10 u32_max None true s | None => None end.
Definition read_socket_addr_v4 (s : bytes) : option ((IpAddr * Z) * bytes) :=
  match read_ipv4_addr s with
  | None => None
  | Some (a, s) => match read_port s with Some (port, s) => Some ((V4 a, port), s) | None => None end
  end.
(** The scope is read and dropped; Rust's [SocketAddrV6] keeps it and prints it. *)
Definition read_socket_addr_v6 (s : bytes) : option ((IpAddr * Z) * bytes) :=
  match read_given_char Byte.x5b s with
  | None => None
  | Some s =>
      match read_ipv6_addr s with
      | None => None
      | Some (a, s) =>
          let s := match read_scope_id s with Some (_, s) => s | None => s end in
          match read_given_char Byte.x5d s with
          | None => None
          | Some s => match read_port s with Some (port, s) => Some ((V6 a, port), s) | None => None end
          end
      end
  end.
Definition read_socket_addr (s : bytes) : option ((IpAddr * Z) * bytes) :=
  match read_socket_addr_v4 s with Some r => Some r | None => read_socket_addr_v6 s end.
Definition parse_socket_addr : bytes -> option (IpAddr * Z) := parse_with read_socket_addr.

(** ** Digits, read back *)

Definition is_digit (b : Init.Byte.byte) : bool := byte_in 48 57 b.
Definition is_ascii (b : Init.Byte.byte) : bool := byte_in 0 127 b.
Definition digits_only (s : bytes) : Prop := Forall (fun b => is_digit b = true) s.
Definition ascii_text (s : bytes) : Prop := Forall (fun b => is_ascii b = true) s.

Lemma digit_digit n : 0 <= n < 10 -> is_digit (digit n) = true /\ to_digit 10 (digit n) = Some n.
Proof. apply (range_cases (fun n => is_digit (digit n) = true /\ to_digit 10 (digit n) = Some n) 0 10). by repeat constructor. Qed.
Lemma is_digit_value b : is_digit b = true -> to_digit 10 b = Some (byte.unsigned b - 48).
Proof. by destruct b. Qed.
Lemma is_digit_ascii b : is_digit b = true -> is_ascii b = true.
Proof. by destruct b. Qed.

Lemma dec_digits_only fuel n acc : digits_only acc -> digits_only (dec_digits fuel n acc).
Proof.
  revert n acc. induction fuel as [|fuel IH]; intros n acc Ha; [done|]. cbn [dec_digits].
  assert (digits_only (digit (n mod 10) :: acc)) by (constructor; [apply digit_digit, Z.mod_pos_bound; lia|done]).
  destruct (_ =? 0); [done|by apply IH].
Qed.
Lemma dec_only n : digits_only (dec n).
Proof. apply dec_digits_only, Forall_nil_2. Qed.
Lemma dec_digits_ne fuel n acc : acc <> [] -> dec_digits fuel n acc <> [].
Proof. revert n acc. induction fuel as [|fuel IH]; intros n acc Ha; [done|]. cbn [dec_digits]. destruct (_ =? 0); [done|by apply IH]. Qed.
Lemma dec_ne n : dec n <> [].
Proof. unfold dec. cbn [dec_digits]. destruct (_ =? 0); [done|]. by apply (dec_digits_ne 9). Qed.

Lemma digits_value_of acc s : digits_only s -> digits 10 acc s = Some (fold_left (fun v b => v * 10 + (byte.unsigned b - 48)) s acc).
Proof. intros Hs. revert acc. induction Hs as [|b s Hb Hs IH]; intros acc; [done|]. cbn [digits fold_left]. by rewrite (is_digit_value b Hb), IH. Qed.

Lemma parse_dec max n : in_u32 n -> n <= max -> from_str_radix 10 max (dec n) = Some n.
Proof.
  intros Hn Hm. pose proof (dec_only n) as Hd. pose proof (dec_value n Hn) as Hv. pose proof (dec_ne n) as Hne.
  assert (digits 10 0 (dec n) = Some n) as Hp by (rewrite (digits_value_of 0 _ Hd); f_equal; exact Hv).
  assert (match digits 10 0 (dec n) with Some v => if v <=? max then Some v else None | None => None end = Some n) as Hc.
  { rewrite Hp. by destruct (Z.leb_spec n max); [|lia]. }
  unfold from_str_radix. destruct (dec n) as [|b s]; [done|]. apply Forall_cons in Hd as [Hb _].
  assert (Byte.eqb b Byte.x2b = false /\ Byte.eqb b Byte.x2d = false) as [H1 H2] by by destruct b.
  rewrite H1, H2. by destruct s.
Qed.

Lemma digits_nonneg radix acc s v : 0 < radix -> 0 <= acc -> digits radix acc s = Some v -> 0 <= v.
Proof.
  revert acc. induction s as [|b s IH]; intros acc Hr Ha; cbn [digits]; [by intros [= <-]|]. destruct (to_digit radix b) as [w|] eqn:E; [|done].
  apply IH; [done|]. unfold to_digit in E. destruct (digit_value b) as [u|] eqn:Eu; [|done]. destruct (_ <? _); [|done]. injection E as <-.
  assert (0 <= u) by (destruct b; vm_compute in Eu; (done || injection Eu as <-; lia)). nia.
Qed.
Lemma from_str_radix_range radix max s v : 0 < radix -> from_str_radix radix max s = Some v -> 0 <= v <= max.
Proof.
  intros Hr. assert (forall s, match digits radix 0 s with Some v => if v <=? max then Some v else None | None => None end = Some v -> 0 <= v <= max) as Hc.
  { intros s'. destruct (digits radix 0 s') as [w|] eqn:E; [|done]. destruct (Z.leb_spec w max); [|done]. intros [= <-]. split; [|done]. by eapply digits_nonneg. }
  unfold from_str_radix. destruct s as [|b [|b' s]]; [done|destruct (_ || _); [done|apply Hc]|destruct (Byte.eqb b _); apply Hc].
Qed.

(** ** Whitespace *)

(** No character of white space begins, or ends, with the byte. *)
Definition no_space (b : Init.Byte.byte) : bool :=
  forallb (fun p => match p with c :: _ => negb (Byte.eqb c b) | [] => false end) (SPACES ++ map (@rev _) SPACES).

Lemma strip_any_none ps b s : forallb (fun p => match p with c :: _ => negb (Byte.eqb c b) | [] => false end) ps = true -> strip_any ps (b :: s) = None.
Proof.
  induction ps as [|p ps IH]; [done|]. cbn [forallb strip_any]. intros [Hp Hps]%andb_true_iff. unfold strip_prefix. case_bool_decide as Ht; [|by apply IH].
  destruct p as [|c p]; [done|]. unfold ztake, len in Ht. cbn [length] in Ht. rewrite Nat2Z.id in Ht. cbn in Ht. injection Ht as <- _.
  by destruct b.
Qed.
Lemma strip_all_none fuel ps s : match s with [] => True | b :: _ => forallb (fun p => match p with c :: _ => negb (Byte.eqb c b) | [] => false end) ps = true end ->
  forallb (fun p => match p with [] => false | _ => true end) ps = true -> strip_all fuel ps s = s.
Proof.
  intros Hs Hp. destruct fuel; [done|]. cbn [strip_all]. destruct s as [|b s]; [|by rewrite strip_any_none].
  replace (strip_any ps []) with (@None bytes); [done|]. clear Hs. induction ps as [|p ps IH]; [done|]. cbn in Hp |- *. destruct p as [|c p]; [done|].
  unfold strip_prefix. rewrite bool_decide_eq_false_2 by (unfold ztake; by rewrite take_nil). by apply IH.
Qed.

Lemma trim_digits s : digits_only s -> trim s = s.
Proof.
  assert (forall b, is_digit b = true -> no_space b = true) as Hn by (intros b; by destruct b).
  assert (forall s, digits_only s -> match s with [] => True | b :: _ => no_space b = true end) as Hh by (intros s' Hs'; destruct Hs'; auto).
  assert (forall b, no_space b = true -> forallb (fun p => match p with c :: _ => negb (Byte.eqb c b) | [] => false end) SPACES = true /\
    forallb (fun p => match p with c :: _ => negb (Byte.eqb c b) | [] => false end) (map (@rev _) SPACES) = true) as Hsp.
  { intros b Hb. unfold no_space in Hb. rewrite forallb_app in Hb. by apply andb_true_iff in Hb. }
  intros Hs. unfold trim, trim_end, trim_start. rewrite (strip_all_none _ SPACES); [|pose proof (Hh s Hs); destruct s; [done|by apply Hsp]|done].
  rewrite strip_all_none; [apply rev_involutive| |done].
  assert (digits_only (rev s)) as Hr by by apply List.Forall_rev.
  pose proof (Hh _ Hr). destruct (rev s); [done|by apply Hsp].
Qed.

(** ** Splitting *)

Lemma byte_eqb_refl b : Byte.eqb b b = true.
Proof. by destruct b. Qed.
Lemma byte_eqb_ne b c : b <> c -> Byte.eqb b c = false.
Proof. intros Hne. destruct (Byte.eqb b c) eqn:E; [|done]. by apply Byte.byte_dec_bl in E. Qed.

Lemma split_once_none c s : c ∉ s -> split_once c s = None.
Proof.
  induction s as [|b s IH]; [done|]. intros [Hb Hs]%not_elem_of_cons. cbn. rewrite byte_eqb_ne by congruence. by rewrite IH.
Qed.
Lemma split_once_app c l r : c ∉ l -> split_once c (l ++ c :: r) = Some (l, r).
Proof.
  induction l as [|b l IH]; [intros _; cbn; by rewrite byte_eqb_refl|]. intros [Hb Hl]%not_elem_of_cons. cbn. rewrite byte_eqb_ne by congruence. by rewrite IH.
Qed.
Lemma digits_no b s : digits_only s -> is_digit b = false -> b ∉ s.
Proof. intros Hs Hb Hin. pose proof (proj1 (Forall_forall _ _) Hs _ Hin). cbn in *. congruence. Qed.

(** ** UTF-8 *)

Lemma ascii_utf8 s : ascii_text s -> utf8_valid s = true.
Proof. induction 1 as [|b s Hb Hs IH]; [done|]. cbn [utf8_valid]. unfold is_ascii in Hb. by rewrite Hb. Qed.
Lemma digits_ascii s : digits_only s -> ascii_text s.
Proof. intros Hs. eapply Forall_impl; [exact Hs|]. apply is_digit_ascii. Qed.

Lemma pop_ascii s b : is_ascii b = true -> pop (s ++ [b]) = s.
Proof.
  intros Hb. unfold pop. rewrite rev_app_distr. cbn [rev app drop_char]. replace (is_cont b) with false by (by destruct b). apply rev_involutive.
Qed.
