(* ===== verification/AddrText.v ===== *)
(** Addresses as Rust's standard library prints them, and the proof that its
    parser ([Text]) reads them back: what [get=1] prints of an endpoint or a
    prefix is what [set=1] takes. *)

From Stdlib Require Import String.
From stdpp Require Import list.
From S2P Require Import Prelude Rand Packet Amnezia Sip Stun ReplyPolicy Text.

Local Open Scope Z_scope.
Local Open Scope list_scope.

(** ** Printing *)

(** The digits of a number, without leading zeros; twenty are enough for 64 bits
    in base ten. *)
Fixpoint radix_digits (fuel : nat) (radix n : Z) (acc : bytes) : bytes :=
  match fuel with
  | O => acc
  | S fuel => let acc := hex_lower (n mod radix) :: acc in if n / radix =? 0 then acc else radix_digits fuel radix (n / radix) acc
  end.
Definition print_radix (radix n : Z) : bytes := radix_digits 20 radix n [].

(** With a separator between, and before each when others have gone before. *)
Fixpoint join (sep : Init.Byte.byte) (first : bool) (parts : list bytes) : bytes :=
  match parts with
  | [] => []
  | p :: parts => (if first then [] else [sep]) ++ p ++ join sep false parts
  end.

Definition print_ipv4 (a : bytes) : bytes := join Byte.x2e true (map (fun b => dec (byte.unsigned b)) a).

Fixpoint segments (a : bytes) : list Z :=
  match a with
  | hi :: lo :: a => of_be [hi; lo] :: segments a
  | _ => []
  end.

(** The longest run of zero segments, the first of several: where it starts and
    its length. *)
Fixpoint longest_zeroes (i : nat) (zero : list bool) (longest current : nat * nat) : nat * nat :=
  match zero with
  | [] => longest
  | true :: zero =>
      let current := (if (snd current =? 0)%nat then i else fst current, S (snd current)) in
      longest_zeroes (S i) zero (if (snd longest <? snd current)%nat then current else longest) current
  | false :: zero => longest_zeroes (S i) zero longest (0, 0)%nat
  end.

Definition fmt_subslice (chunk : list Z) : bytes := join Byte.x3a true (map (print_radix 16) chunk).
Definition print_ipv6 (a : bytes) : bytes :=
  match to_ipv4_mapped a with
  | Some v4 => str "::ffff:" ++ print_ipv4 v4
  | None =>
      let segs := segments a in
      let '(start, n) := longest_zeroes 0 (map (fun s => s =? 0) segs) (0, 0)%nat (0, 0)%nat in
      if (1 <? n)%nat then fmt_subslice (take start segs) ++ str "::" ++ fmt_subslice (drop (start + n) segs)
      else fmt_subslice segs
  end.

Definition print_ip (ip : IpAddr) : bytes := match ip with V4 a => print_ipv4 a | V6 a => print_ipv6 a end.
Definition print_socket_addr (addr : SocketAddr) : bytes :=
  match addr with
  | (V4 a, port) => print_ipv4 a ++ str ":" ++ dec port
  | (V6 a, port) => str "[" ++ print_ipv6 a ++ str "]:" ++ dec port
  end.

(** ** Numbers, read back *)

(** A text on which a number stops. *)
Definition stops (radix : Z) (s : bytes) : Prop := match s with [] => True | b :: _ => to_digit radix b = None end.

Definition digits_of (radix : Z) (ds : bytes) : Prop := Forall (fun b => is_Some (to_digit radix b)) ds.
Definition value_from (radix acc : Z) (ds : bytes) : Z := fold_left (fun v b => v * radix + default 0 (to_digit radix b)) ds acc.

Lemma to_digit_range radix b v : to_digit radix b = Some v -> 0 <= v < radix.
Proof.
  unfold to_digit. destruct (digit_value b) as [u|] eqn:E; [|done]. destruct (Z.ltb_spec u radix); [|done]. intros [= <-].
  split; [|done]. destruct b; vm_compute in E; (done || injection E as <-; lia).
Qed.
Lemma value_from_ge radix acc ds : 1 <= radix -> 0 <= acc -> digits_of radix ds -> acc <= value_from radix acc ds.
Proof.
  intros Hr Ha Hd. revert acc Ha. induction Hd as [|b ds [v Hb] Hd IH]; intros acc Ha; [done|]. unfold value_from in *. cbn [fold_left].
  replace (default 0 (to_digit radix b)) with v by (by rewrite Hb).
  pose proof (to_digit_range _ _ _ Hb). assert (0 <= acc * (radix - 1)) by (apply Z.mul_nonneg_nonneg; lia).
  etrans; [|apply IH; lia]. lia.
Qed.

Lemma read_digits_all radix max limit count acc ds rest : 1 <= radix -> 0 <= acc -> digits_of radix ds -> stops radix rest ->
  match limit with Some n => count + len ds <= n | None => value_from radix acc ds <= max end ->
  read_digits radix max count limit acc (ds ++ rest) = Some (value_from radix acc ds, count + len ds, rest).
Proof.
  intros Hr Ha Hd Hs. revert count acc Ha. induction Hd as [|b ds [v Hb] Hd IH]; intros count acc Ha Hl.
  - replace (count + len []) with count by (rewrite len_nil; lia). destruct rest as [|c rest]; cbn [app read_digits stops] in *; [done|]. by rewrite Hs.
  - pose proof (to_digit_range _ _ _ Hb). rewrite len_cons in Hl |- *. pose proof (len_nonneg ds). cbn [app read_digits]. rewrite Hb.
    replace (value_from radix acc (b :: ds)) with (value_from radix (acc * radix + v) ds) in * by (unfold value_from; cbn [fold_left]; by rewrite Hb).
    rewrite (IH (count + 1) (acc * radix + v)) by (first [nia|destruct limit; [lia|done]]).
    replace (match limit with Some n => n <? count + 1 | None => max <? acc * radix + v end) with false; [do 3 f_equal; lia|].
    symmetry. destruct limit as [n|]; apply Z.ltb_ge; [lia|]. etrans; [apply (value_from_ge radix _ ds); [done|nia|done]|done].
Qed.

Lemma read_number_all radix max limit zeroes ds rest : 1 <= radix -> digits_of radix ds -> ds <> [] -> stops radix rest -> value_from radix 0 ds <= max ->
  match limit with Some n => len ds <= n | None => True end ->
  zeroes || match ds with [_] => true | b :: _ => negb (Byte.eqb b Byte.x30) | [] => true end = true ->
  read_number radix max limit zeroes (ds ++ rest) = Some (value_from radix 0 ds, rest).
Proof.
  intros Hr Hd Hne Hs Hm Hl Hz. unfold read_number. rewrite read_digits_all; [|done|done|done|done|destruct limit; [lia|done]]. cbv zeta.
  destruct ds as [|b ds]; [done|]. rewrite len_cons. pose proof (len_nonneg ds). destruct (Z.eqb_spec (0 + (1 + len ds)) 0); [lia|]. cbn [app].
  replace (negb zeroes && Byte.eqb b Byte.x30 && (1 <? 0 + (1 + len ds))) with false; [by rewrite (proj2 (Z.leb_le _ _) Hm)|].
  symmetry. destruct zeroes; [done|]. cbn in Hz |- *. destruct ds as [|b' ds]; [by rewrite andb_comm|]. by apply negb_true_iff in Hz as ->.
Qed.

Lemma hex_lower_digit radix v : 2 <= radix <= 16 -> 0 <= v < radix -> to_digit radix (hex_lower v) = Some v.
Proof.
  intros Hr Hv. unfold to_digit. replace (digit_value (hex_lower v)) with (Some v); [by destruct (Z.ltb_spec v radix); [|lia]|].
  assert (forallb (fun n => bool_decide (digit_value (hex_lower (Z.of_nat n)) = Some (Z.of_nat n))) (seq 0 16) = true) as Hall by (by vm_compute).
  rewrite forallb_forall in Hall. specialize (Hall (Z.to_nat v) ltac:(apply in_seq; lia)). apply bool_decide_eq_true in Hall. by rewrite Z2Nat.id in Hall by lia.
Qed.

Lemma radix_digits_spec fuel radix n acc : 2 <= radix <= 16 -> 0 <= n < radix ^ Z.of_nat fuel ->
  exists ds, radix_digits fuel radix n acc = ds ++ acc /\ digits_of radix ds /\ value_from radix 0 ds = n.
Proof.
  intros Hr. revert n acc. induction fuel as [|fuel IH]; intros n acc Hn; cbn [radix_digits]; [exists []; cbn in *; split_and!; [done|constructor|lia]|].
  pose proof (Z.mod_pos_bound n radix). pose proof (Z.div_mod n radix). pose proof (hex_lower_digit radix (n mod radix) Hr ltac:(lia)) as Hd.
  destruct (Z.eqb_spec (n / radix) 0).
  - exists [hex_lower (n mod radix)]. split; [done|]. split; [constructor; [by eexists|constructor]|]. unfold value_from. cbn [fold_left]. rewrite Hd. cbn. nia.
  - assert (0 <= n / radix < radix ^ Z.of_nat fuel) as Hq.
    { split; [apply Z.div_pos; lia|]. apply Z.div_lt_upper_bound; [lia|]. rewrite Nat2Z.inj_succ, Z.pow_succ_r in Hn by lia. lia. }
    destruct (IH (n / radix) (hex_lower (n mod radix) :: acc) Hq) as (ds & -> & Hds & Hv). exists (ds ++ [hex_lower (n mod radix)]). split; [by rewrite <- app_assoc|].
    split; [apply Forall_app; split; [done|constructor; [by eexists|constructor]]|]. unfold value_from in *. rewrite fold_left_app, Hv. cbn [fold_left]. rewrite Hd. cbn. nia.
Qed.
Lemma radix_digits_ne fuel radix n acc : acc <> [] -> radix_digits fuel radix n acc <> [].
Proof. revert n acc. induction fuel as [|fuel IH]; intros n acc Ha; [done|]. cbn [radix_digits]. destruct (_ =? 0); [done|by apply IH]. Qed.
Lemma radix_digits_len fuel radix n acc k : 2 <= radix -> 0 <= n < radix ^ Z.of_nat (S k) -> (length (radix_digits fuel radix n acc) <= S k + length acc)%nat.
Proof.
  intros Hr. revert n acc k. induction fuel as [|fuel IH]; intros n acc k Hn; cbn [radix_digits]; [lia|].
  destruct (Z.eqb_spec (n / radix) 0); [cbn; lia|]. rewrite Nat2Z.inj_succ, Z.pow_succ_r in Hn by lia.
  assert (0 <= n / radix < radix ^ Z.of_nat k) as Hq by (split; [apply Z.div_pos; lia|apply Z.div_lt_upper_bound; lia]).
  destruct k as [|k]; [cbn in Hq; lia|]. specialize (IH (n / radix) (hex_lower (n mod radix) :: acc) k Hq). cbn in IH |- *. lia.
Qed.

(** A printed 16-bit number in base sixteen. *)
Lemma hex_group g : in_u16 g -> digits_of 16 (print_radix 16 g) /\ print_radix 16 g <> [] /\ value_from 16 0 (print_radix 16 g) = g /\ len (print_radix 16 g) <= 4.
Proof.
  intros Hg. destruct (radix_digits_spec 20 16 g []) as (ds & E & Hd & Hv); [lia|unfold in_u16, u16_max in Hg; lia|]. rewrite app_nil_r in E.
  unfold print_radix. rewrite E. split_and!; [done| |done|].
  - rewrite <- E. cbn [radix_digits]. destruct (_ =? 0); [done|]. by apply (radix_digits_ne 19).
  - pose proof (radix_digits_len 20 16 g [] 3 ltac:(lia) ltac:(unfold in_u16, u16_max in Hg; cbn; lia)) as Hl. rewrite E in Hl. cbn [length] in Hl. unfold len. lia.
Qed.

Lemma dec_spec n : in_u32 n -> digits_of 10 (dec n) /\ value_from 10 0 (dec n) = n.
Proof.
  intros Hn. pose proof (dec_only n) as Hd. split; [eapply Forall_impl; [exact Hd|]; intros b Hb; by rewrite (is_digit_value b Hb)|].
  rewrite <- (dec_value n Hn) at 2. unfold value_from, digits_value. generalize 0 at 2 3. induction Hd as [|b ds Hb Hd IH]; intros acc; [done|].
  cbn [fold_left]. rewrite (is_digit_value b Hb). apply IH.
Qed.

(** ** IPv4 *)

Lemma read_octet b rest : stops 10 rest -> read_number 10 255 (Some 3) false (dec (byte.unsigned b) ++ rest) = Some (byte.unsigned b, rest).
Proof.
  intros Hs. pose proof (byte.unsigned_range b). destruct (dec_spec (byte.unsigned b)) as [Hd Hv]; [unfold in_u32, u32_max; lia|].
  rewrite read_number_all; [by rewrite Hv|done|done|apply dec_ne|done|rewrite Hv; lia|by destruct b|by destruct b].
Qed.

Lemma join_stops radix sep first parts rest : stops radix rest -> to_digit radix sep = None -> first = false -> stops radix (join sep first parts ++ rest).
Proof. intros Hs Hsep ->. by destruct parts. Qed.

Lemma read_octets_print index a rest : 0 <= index -> stops 10 rest ->
  read_octets (length a) index (join Byte.x2e (index =? 0) (map (fun b => dec (byte.unsigned b)) a) ++ rest) = Some (a, rest).
Proof.
  intros Hi Hs. revert index Hi. induction a as [|b a IH]; intros index Hi; [done|]. cbn [length read_octets map join].
  replace (read_separator Byte.x2e index (read_number 10 255 (Some 3) false) _) with
    (read_number 10 255 (Some 3) false (dec (byte.unsigned b) ++ join Byte.x2e false (map (fun b => dec (byte.unsigned b)) a) ++ rest)).
  2: { unfold read_separator. rewrite <- !app_assoc. destruct (Z.ltb_spec 0 index), (Z.eqb_spec index 0); try lia; done. }
  rewrite read_octet by by apply join_stops. specialize (IH (index + 1) ltac:(lia)). replace (index + 1 =? 0) with false in IH by (symmetry; apply Z.eqb_neq; lia).
  rewrite IH. by rewrite byte.of_Z_unsigned.
Qed.
Lemma read_ipv4_print a rest : len a = 4 -> stops 10 rest -> read_ipv4_addr (print_ipv4 a ++ rest) = Some (a, rest).
Proof. intros Ha Hs. unfold read_ipv4_addr, print_ipv4. replace 4%nat with (length a) by (unfold len in Ha; lia). by apply (read_octets_print 0). Qed.

Lemma read_number_stops radix max limit zeroes s : stops radix s -> read_number radix max limit zeroes s = None.
Proof. intros Hs. unfold read_number. destruct s as [|b s]; [done|]. cbn [read_digits]. by rewrite Hs. Qed.
Lemma read_ipv4_stops s : stops 10 s -> read_ipv4_addr s = None.
Proof. intros Hs. unfold read_ipv4_addr. cbn [read_octets]. unfold read_separator. cbn. by rewrite read_number_stops. Qed.

Lemma read_digits_suffix radix max count limit acc s v n rest : read_digits radix max count limit acc s = Some (v, n, rest) -> exists pre, s = pre ++ rest.
Proof.
  revert count acc. induction s as [|b s IH]; intros count acc; cbn [read_digits]; [intros [= _ _ <-]; by exists []|].
  destruct (to_digit radix b); [|intros [= _ _ <-]; by exists []]. destruct (match limit with Some _ => _ | None => _ end); [done|].
  intros [pre ->]%IH. by exists (b :: pre).
Qed.
(** Without a dot there is no IPv4 address. *)
Lemma read_ipv4_nodot s : Byte.x2e ∉ s -> read_ipv4_addr s = None.
Proof.
  intros Hs. unfold read_ipv4_addr. cbn [read_octets]. unfold read_separator at 1. cbn [Z.ltb Z.compare]. destruct (read_number _ _ _ _ s) as [[v rest]|] eqn:E; [|done].
  assert (Byte.x2e ∉ rest) as Hr.
  { unfold read_number in E. destruct (read_digits _ _ _ _ _ _) as [[[w n] r]|] eqn:Ed; [|done]. apply read_digits_suffix in Ed as [pre ->].
    repeat (destruct (_ : bool) in E; try done). injection E as _ <-. intros Hin. apply Hs, elem_of_app. by right. }
  unfold read_separator at 1. cbn. replace (read_given_char Byte.x2e rest) with (@None bytes); [done|]. destruct rest as [|c rest]; [done|].
  cbn. apply not_elem_of_cons in Hr as [Hc _]. by rewrite byte_eqb_ne by congruence.
Qed.

(** ** IPv6 *)

(** A text on which the groups stop. *)
Definition group_end (s : bytes) : Prop := stops 16 s /\ forall s', read_given_char Byte.x3a s = Some s' -> stops 16 s'.

Lemma stops_16_10 s : stops 16 s -> stops 10 s.
Proof.
  destruct s as [|b s]; [done|]. cbn. unfold to_digit. destruct (digit_value b) as [v|]; [|done]. destruct (Z.ltb_spec v 16); [done|].
  by destruct (Z.ltb_spec v 10); [lia|].
Qed.
Lemma separator_end {A} index (read : bytes -> option (A * bytes)) s : group_end s -> (forall s', stops 16 s' -> read s' = None) -> read_separator Byte.x3a index read s = None.
Proof. intros [Hs Hr] Hread. unfold read_separator. destruct (0 <? index); [|by apply Hread]. destruct (read_given_char _ s) as [s'|] eqn:E; [|done]. by apply Hread, Hr. Qed.

Lemma read_groups_print limit index gs rest : 0 <= index -> Forall in_u16 gs -> (length gs <= limit)%nat -> group_end rest ->
  Byte.x2e ∉ join Byte.x3a (index =? 0) (map (print_radix 16) gs) ++ rest ->
  read_groups limit index (join Byte.x3a (index =? 0) (map (print_radix 16) gs) ++ rest) = (concat (map (to_be 2) gs), Z.of_nat (length gs), false, rest).
Proof.
  intros Hi Hg. revert limit index Hi. induction Hg as [|g gs Hg Hgs IH]; intros limit index Hi Hl He Hdot; destruct limit as [|limit]; try done; [|cbn in Hl; lia|].
  - cbn [map join app read_groups]. rewrite !separator_end; [by destruct limit|done|intros s' Hs; by apply read_number_stops|done|intros s' Hs; by apply read_ipv4_stops, stops_16_10].
  - cbn [map join] in Hdot |- *. set (tail := join Byte.x3a false (map (print_radix 16) gs)) in *.
    destruct (hex_group g Hg) as (Hd & Hne & Hv & Hlen).
    assert (forall A (read : bytes -> option (A * bytes)), read_separator Byte.x3a index read (((if index =? 0 then [] else [Byte.x3a]) ++ print_radix 16 g ++ tail) ++ rest) =
      read (print_radix 16 g ++ tail ++ rest)) as Hsep.
    { intros A read. unfold read_separator. rewrite <- !app_assoc. destruct (Z.ltb_spec 0 index), (Z.eqb_spec index 0); try lia; done. }
    cbn [read_groups]. rewrite !Hsep.
    assert (Byte.x2e ∉ print_radix 16 g ++ tail ++ rest) as Hdot' by (intros Hin; apply Hdot; rewrite <- !app_assoc; apply elem_of_app; by right).
    rewrite read_ipv4_nodot by done.
    rewrite read_number_all; [|done|done|done|apply join_stops; [exact (proj1 He)|done|done]|rewrite Hv; apply Hg|done|done].
    assert (Byte.x2e ∉ tail ++ rest) as Htail by (intros Hin; apply Hdot', elem_of_app; by right).
    specialize (IH limit (index + 1) ltac:(lia) ltac:(cbn in Hl; lia) He). replace (index + 1 =? 0) with false in IH by (symmetry; apply Z.eqb_neq; lia).
    fold tail in IH. rewrite Hv, (IH Htail). cbn [map concat length]. rewrite Nat2Z.inj_succ. by destruct limit.
Qed.

Lemma longest_zeroes_run zero : length zero = 8%nat ->
  let '(start, n) := longest_zeroes 0 zero (0, 0)%nat (0, 0)%nat in (start + n <= 8)%nat /\ take n (drop start zero) = replicate n true.
Proof.
  intros Hl. destruct zero as [|b0 [|b1 [|b2 [|b3 [|b4 [|b5 [|b6 [|b7 [|]]]]]]]]]; try done.
  destruct b0, b1, b2, b3, b4, b5, b6, b7; cbn; (split; [lia|done]).
Qed.

Lemma of_be_pair hi lo : to_be 2 (of_be [hi; lo]) = [hi; lo] /\ in_u16 (of_be [hi; lo]).
Proof.
  split; [unfold to_be, of_be; change (le_split 2 (le_combine (rev [hi; lo]))) with (to_le 2 (of_le [lo; hi])); by rewrite to_le_of_le|].
  pose proof (of_be_bound [hi; lo]) as Hb. change (8 * len [hi; lo]) with 16 in Hb. unfold in_u16, u16_max. lia.
Qed.

Lemma segments_spec a : len a = 16 -> length (segments a) = 8%nat /\ Forall in_u16 (segments a) /\ concat (map (to_be 2) (segments a)) = a.
Proof.
  intros Ha. do 16 (destruct a as [|? a]; [done|]). destruct a; [|rewrite !len_cons in Ha; pose proof (len_nonneg a); lia]. clear Ha. cbn [segments length].
  split; [done|]. split; [repeat (constructor; [apply of_be_pair|]); constructor|]. cbn [map concat]. by rewrite !(proj1 (of_be_pair _ _)).
Qed.

(** The run of zeros cut out of the segments. *)
Lemma cut_zeroes segs : length segs = 8%nat ->
  let '(start, n) := longest_zeroes 0 (map (fun s => s =? 0) segs) (0, 0)%nat (0, 0)%nat in
  (start + n <= 8)%nat /\ segs = take start segs ++ replicate n 0 ++ drop (start + n) segs.
Proof.
  intros Hl. pose proof (longest_zeroes_run (map (fun s => s =? 0) segs) ltac:(by rewrite length_map)) as Hr.
  destruct (longest_zeroes _ _ _ _) as [start n]. destruct Hr as [Hle Ht]. split; [done|].
  rewrite <- (take_drop start segs) at 1. f_equal. rewrite <- (take_drop n (drop start segs)) at 1. rewrite drop_drop. f_equal.
  change (@map Z bool) with (@fmap list _ Z bool) in Ht. rewrite <- fmap_drop, <- fmap_take in Ht.
  assert (length (take n (drop start segs)) = n) as Hn by (rewrite length_take, length_drop; lia).
  apply list_eq. intros i. destruct (take n (drop start segs) !! i) as [s|] eqn:E.
  - assert (i < n)%nat as Hi by (rewrite <- Hn; by eapply lookup_lt_Some). rewrite lookup_replicate_2 by done. f_equal.
    assert ((fun s => s =? 0) <$> take n (drop start segs) !! i = replicate n true !! i) as Hb by (by rewrite <- list_lookup_fmap, Ht).
    rewrite E, lookup_replicate_2 in Hb by done. cbn in Hb. injection Hb as Hb. by apply Z.eqb_eq in Hb.
  - symmetry. apply lookup_ge_None. apply lookup_ge_None in E. rewrite length_replicate. lia.
Qed.

Definition addr_char (b : Init.Byte.byte) : bool := match to_digit 16 b with Some _ => true | None => Byte.eqb b Byte.x3a end.
Lemma join_chars (P : Init.Byte.byte -> Prop) sep first parts : P sep -> Forall (Forall P) parts -> Forall P (join sep first parts).
Proof.
  intros Hs Hp. revert first. induction Hp as [|p parts Hp Hps IH]; intros first; [constructor|]. cbn [join]. apply Forall_app. split; [|apply Forall_app; by split].
  destruct first; [constructor|]. by repeat constructor.
Qed.
Lemma fmt_chars chunk : Forall in_u16 chunk -> Forall (fun b => addr_char b = true) (fmt_subslice chunk).
Proof.
  intros Hc. apply join_chars; [done|]. apply Forall_fmap. eapply Forall_impl; [exact Hc|]. intros g Hg. destruct (hex_group g Hg) as (Hd & _).
  eapply Forall_impl; [exact Hd|]. intros b [v Hv]. unfold addr_char. by rewrite Hv.
Qed.
Lemma chars_nodot s : Forall (fun b => addr_char b = true) s -> Byte.x2e ∉ s.
Proof. intros Hs Hin. by pose proof (proj1 (Forall_forall _ _) Hs _ Hin). Qed.

Lemma read_groups_fmt limit gs rest : Forall in_u16 gs -> (length gs <= limit)%nat -> group_end rest -> Byte.x2e ∉ rest ->
  read_groups limit 0 (fmt_subslice gs ++ rest) = (concat (map (to_be 2) gs), Z.of_nat (length gs), false, rest).
Proof.
  intros Hg Hl He Hdot. apply (read_groups_print limit 0); try done. intros [Hin|Hin]%elem_of_app; [|done]. by apply (chars_nodot _ (fmt_chars gs Hg)).
Qed.

Lemma read_ipv6_mapped v4 rest : len v4 = 4 -> stops 10 rest ->
  read_ipv6_addr (str "::ffff:" ++ print_ipv4 v4 ++ rest) = Some (zeros 10 ++ to_be 2 65535 ++ v4, rest).
Proof.
  intros Hv Hs. set (tail := print_ipv4 v4 ++ rest).
  assert (read_groups 7 0 (str "ffff" ++ Byte.x3a :: tail) = (to_be 2 65535 ++ v4, 3, true, rest)) as Ht.
  { cbn [read_groups]. unfold read_separator at 1 2. cbn [Z.ltb Z.compare]. rewrite read_ipv4_stops by done.
    rewrite read_number_all; [|done|by repeat (constructor; [by eexists|])|done|done|vm_compute; congruence|vm_compute; congruence|done].
    cbn [read_groups]. unfold read_separator. cbn [Z.add Z.ltb Z.compare read_given_char]. rewrite byte_eqb_refl. unfold tail.
    by rewrite read_ipv4_print by done. }
  unfold read_ipv6_addr. change (str "::ffff:" ++ tail) with (fmt_subslice [] ++ Byte.x3a :: Byte.x3a :: str "ffff" ++ Byte.x3a :: tail).
  assert (forall s, read_groups 8 0 (Byte.x3a :: s) = ([], 0, false, Byte.x3a :: s)) as Hh.
  { intros s. cbn [read_groups]. unfold read_separator. cbn [Z.ltb Z.compare]. by rewrite read_ipv4_stops, read_number_stops. }
  cbn [fmt_subslice map join app]. rewrite Hh. cbn [Z.eqb]. unfold read_given_char at 1. rewrite byte_eqb_refl. cbn [read_given_char]. rewrite byte_eqb_refl.
  change (Z.to_nat (8 - (0 + 1))) with 7%nat. cbn [app] in Ht. rewrite Ht. done.
Qed.

Lemma read_ipv6_print a rest : len a = 16 -> group_end rest -> Byte.x2e ∉ rest -> read_ipv6_addr (print_ipv6 a ++ rest) = Some (a, rest).
Proof.
  intros Ha He Hdot. unfold print_ipv6, to_ipv4_mapped. case_bool_decide as Hm.
  - rewrite <- app_assoc, read_ipv6_mapped; [|rewrite len_zdrop by lia; lia|exact (stops_16_10 _ (proj1 He))]. rewrite app_assoc, <- Hm. by rewrite ztake_zdrop.
  - destruct (segments_spec a Ha) as (Hl & Hu & Hc). pose proof (cut_zeroes (segments a) Hl) as Hcut.
    destruct (longest_zeroes _ _ _ _) as [start n]. destruct Hcut as [Hle Hcut]. destruct (Nat.ltb_spec 1 n).
    + set (pre := take start (segments a)) in *. set (post := drop (start + n) (segments a)) in *.
      assert (Forall in_u16 pre /\ Forall in_u16 post) as [Hpre Hpost] by (split; [by apply Forall_take|by apply Forall_drop]).
      assert (length pre = start) as Hlp by (unfold pre; rewrite length_take; lia).
      assert (length post = (8 - (start + n))%nat) as Hlq by (unfold post; rewrite length_drop; lia).
      unfold read_ipv6_addr. rewrite <- !app_assoc. change (str "::" ++ fmt_subslice post ++ rest) with (Byte.x3a :: Byte.x3a :: fmt_subslice post ++ rest).
      rewrite read_groups_fmt; [|done|lia|split; [done|by intros s' [= <-]]|].
      2: { intros [?|[?|[Hin|Hin]%elem_of_app]%elem_of_cons]%elem_of_cons; try done. by apply (chars_nodot _ (fmt_chars post Hpost)). }
      rewrite Hlp. destruct (Z.eqb_spec (Z.of_nat start) 8); [lia|]. unfold read_given_char at 1. rewrite byte_eqb_refl. cbn [read_given_char]. rewrite byte_eqb_refl.
      rewrite read_groups_fmt by (first [done|lia]). rewrite Hlq. do 2 f_equal. etrans; [|exact Hc]. rewrite Hcut, !map_app, !concat_app. do 2 f_equal.
      replace (16 - 2 * Z.of_nat start - 2 * Z.of_nat (8 - (start + n))) with (2 * Z.of_nat n) by lia. clear. induction n as [|n IH]; [done|].
      cbn [replicate map concat]. rewrite <- IH. unfold zeros, zreplicate. replace (Z.to_nat (2 * Z.of_nat (S n))) with (2 + Z.to_nat (2 * Z.of_nat n))%nat by lia. done.
    + unfold read_ipv6_addr. rewrite read_groups_fmt; [|done|lia|done|done]. rewrite Hl. cbn [Z.of_nat Z.eqb]. by rewrite Hc.
Qed.

(** ** Addresses *)

Lemma print_ipv6_nodot a : len a = 16 -> read_ipv4_addr (print_ipv6 a) = None.
Proof.
  intros Ha. unfold print_ipv6. destruct (to_ipv4_mapped a); [by apply read_ipv4_stops|]. apply read_ipv4_nodot, chars_nodot.
  destruct (segments_spec a Ha) as (_ & Hu & _). destruct (longest_zeroes _ _ _ _) as [start n]. destruct (1 <? n)%nat; [|by apply fmt_chars].
  apply Forall_app. split; [by apply fmt_chars, Forall_take|]. repeat (constructor; [done|]). by apply fmt_chars, Forall_drop.
Qed.

Lemma parse_print_ip ip : ip_ok ip -> parse_ip_addr (print_ip ip) = Some ip.
Proof.
  intros Hip. unfold parse_ip_addr, parse_with, read_ip_addr. destruct ip as [a|a]; cbn [print_ip ip_ok] in *.
  - rewrite <- (app_nil_r (print_ipv4 a)). by rewrite read_ipv4_print.
  - rewrite print_ipv6_nodot by done. rewrite <- (app_nil_r (print_ipv6 a)), read_ipv6_print; [done|done|done|apply not_elem_of_nil].
Qed.

Lemma read_port_print port : in_u16 port -> read_port (Byte.x3a :: dec port) = Some (port, []).
Proof.
  intros Hp. assert (in_u32 port) as Hu by (unfold in_u16, u16_max, in_u32, u32_max in *; lia). destruct (dec_spec port Hu) as [Hd Hv].
  unfold read_port. cbn [read_given_char]. rewrite byte_eqb_refl, <- (app_nil_r (dec port)).
  rewrite read_number_all; [by rewrite Hv|done|done|apply dec_ne|done|rewrite Hv; apply Hp|done|done].
Qed.

Lemma parse_print_socket_addr addr : ip_ok (fst addr) -> in_u16 (snd addr) -> parse_socket_addr (print_socket_addr addr) = Some addr.
Proof.
  intros Hip Hp. unfold parse_socket_addr, parse_with, read_socket_addr. destruct addr as [[a|a] port]; cbn [print_socket_addr fst snd ip_ok] in *.
  - unfold read_socket_addr_v4. rewrite read_ipv4_print by done. change (str ":" ++ dec port) with (Byte.x3a :: dec port). by rewrite read_port_print.
  - change (str "[" ++ print_ipv6 a ++ str "]:" ++ dec port) with (Byte.x5b :: (print_ipv6 a ++ (Byte.x5d :: Byte.x3a :: dec port))).
    unfold read_socket_addr_v4. rewrite read_ipv4_stops by done. unfold read_socket_addr_v6. unfold read_given_char at 1. rewrite byte_eqb_refl.
    rewrite read_ipv6_print; [|done|split; [done|by intros s']|].
    2: { intros [?|[?|Hin]%elem_of_cons]%elem_of_cons; try done. by apply (digits_no Byte.x2e _ (dec_only port)). }
    change (read_scope_id (Byte.x5d :: Byte.x3a :: dec port)) with (@None (Z * bytes)). cbv iota zeta.
    change (read_given_char Byte.x5d (Byte.x5d :: Byte.x3a :: dec port)) with (Some (Byte.x3a :: dec port)). cbv iota. by rewrite read_port_print.
Qed.

(** What is read is an address. *)
Lemma read_octets_len n index s a rest : read_octets n index s = Some (a, rest) -> len a = Z.of_nat n.
Proof.
  revert index s a rest. induction n as [|n IH]; intros index s a rest; cbn [read_octets]; [by intros [= <- _]|].
  destruct (read_separator _ _ _ _) as [[o s']|]; [|done]. destruct (read_octets n _ s') as [[os s'']|] eqn:E; [|done]. intros [= <- _].
  rewrite len_cons, (IH _ _ _ _ E). lia.
Qed.
Lemma read_groups_len limit index s gs n v4 rest : read_groups limit index s = (gs, n, v4, rest) -> len gs = 2 * n /\ 0 <= n <= Z.of_nat limit.
Proof.
  revert index s gs n v4 rest. induction limit as [|limit IH]; intros index s gs n v4 rest; cbn [read_groups]; [intros [= <- <- _ _]; by cbn|].
  destruct (match limit with O => None | S _ => _ end) as [[a s']|] eqn:E4.
  { intros [= <- <- _ _]. destruct limit as [|limit]; [done|]. unfold read_separator in E4.
    assert (len a = 4) as ->; [|split; lia]. destruct (0 <? index); [destruct (read_given_char _ s); [|done]|]; by apply (read_octets_len 4) in E4. }
  clear E4. destruct (read_separator _ _ _ s) as [[g s']|]; [|intros Hr; simplify_eq; split; [done|lia]].
  destruct (read_groups limit _ s') as [[[gs' n'] v'] s''] eqn:E. intros Hr. simplify_eq. destruct (IH _ _ _ _ _ _ E) as [Hl Hn].
  rewrite len_app, len_to_be, Hl. split; lia.
Qed.
Lemma read_ip_ok s ip rest : read_ip_addr s = Some (ip, rest) -> ip_ok ip.
Proof.
  unfold read_ip_addr. destruct (read_ipv4_addr s) as [[a r]|] eqn:E4; [intros [= <- _]; by apply (read_octets_len 4) in E4|].
  destruct (read_ipv6_addr s) as [[a r]|] eqn:E6; [|done]. intros [= <- _]. unfold read_ipv6_addr in E6.
  destruct (read_groups 8 0 s) as [[[head n] v4] s1] eqn:Eh. apply read_groups_len in Eh as [Hl Hn]. destruct (Z.eqb_spec n 8); [injection E6 as <- _; cbn; lia|].
  destruct v4; [done|]. destruct (read_given_char _ s1) as [s2|]; [|done]. destruct (read_given_char _ s2) as [s3|]; [|done].
  destruct (read_groups _ 0 s3) as [[[tail m] v4] s4] eqn:Et. apply read_groups_len in Et as [Hl' Hm]. injection E6 as <- _. cbn.
  unfold zeros. rewrite !len_app, len_zreplicate. lia.
Qed.
Lemma parse_ip_ok s ip : parse_ip_addr s = Some ip -> ip_ok ip.
Proof. unfold parse_ip_addr, parse_with. destruct (read_ip_addr s) as [[a [|]]|] eqn:E; [|done..]. intros [= <-]. by eapply read_ip_ok. Qed.
