(* ===== verification/ApiTransport.v ===== *)
(** The stream transport of the configuration protocol,
    [device/api_transport.rs]: a connection accumulates a request up to its
    empty line, hands the complete frame to the parser, and writes the reply
    before it looks for the next.

    What the connection serves -- [api_get] and [api_set] on the device -- is a
    pair of arguments, and so is what the socket and the clock answer at each
    step. The registration of connections with the event queue and the
    watchdog's list of them are not part of the model; [expired], which the
    watchdog sets, is. *)

From Stdlib Require Import String.
From stdpp Require Import list.
From S2P Require Import Prelude Rand Packet Amnezia Sip Text AddrText.

Local Open Scope Z_scope.
Local Open Scope list_scope.

Definition MAX_REQUEST : Z := 1024 * 1024.
Definition MAX_RESPONSE : Z := 4 * 1024 * 1024.
Definition TRANSACTION_TIMEOUT : Z := from_secs 5.
Definition IO_BUDGET : Z := 64 * 1024.
Definition E2BIG : Z := 7.
Definition EOVERFLOW : Z := 75.
Definition ERR_IO : Z := 5.

Definition EMPTY_LINE : bytes := [Byte.x0a; Byte.x0a].

(** ** A response *)

Record Response := { r_bytes : bytes; overflow : bool }.
Definition response_default : Response := {| r_bytes := []; overflow := false |}.

Definition response_write (bs : bytes) (r : Response) : Response :=
  if overflow r || (MAX_RESPONSE - len (r_bytes r) <? len bs) then {| r_bytes := r_bytes r; overflow := true |}
  else {| r_bytes := r_bytes r ++ bs; overflow := false |}.

Definition errno_line (status : Z) : bytes := str "errno=" ++ print_radix 10 status ++ EMPTY_LINE.

(** ** A connection *)

Record Conn := {
  inherited : bool;
  input : bytes;
  scanned : Z;
  output : Response;
  written : Z;
  read_deadline : option Z;
  write_deadline : option Z;
  close_after_write : bool;
  expired : bool;
}.

Definition conn_new (now : Z) (inh : bool) : Conn := {|
  inherited := inh; input := []; scanned := 0; output := response_default; written := 0;
  read_deadline := if inh then None else Some (now + TRANSACTION_TIMEOUT); write_deadline := None;
  close_after_write := negb inh; expired := false |}.

Definition set_input (i : bytes) (sc : Z) (rd : option Z) (c : Conn) : Conn := {|
  inherited := inherited c; input := i; scanned := sc; output := output c; written := written c; read_deadline := rd;
  write_deadline := write_deadline c; close_after_write := close_after_write c; expired := expired c |}.
Definition set_output (o : Response) (w : Z) (wd : option Z) (close : bool) (c : Conn) : Conn := {|
  inherited := inherited c; input := input c; scanned := scanned c; output := o; written := w; read_deadline := read_deadline c;
  write_deadline := wd; close_after_write := close; expired := expired c |}.

Definition timed_out (now : Z) (c : Conn) : bool :=
  match (match write_deadline c with Some d => Some d | None => read_deadline c end) with Some d => d <=? now | None => false end.

(** Where the first empty line ends. *)
Fixpoint find_frame (s : bytes) : option Z :=
  match s with
  | a :: (b :: _) as rest => if Byte.eqb a Byte.x0a && Byte.eqb b Byte.x0a then Some 2 else (fun n => n + 1) <$> find_frame rest
  | _ => None
  end.

(** [&self.input[self.scanned..]] *)
Definition frame_end (c : Conn) : outcome (option Z * Conn) :=
  if len (input c) <? scanned c then Panic else
  let found := (fun n => scanned c + n) <$> find_frame (zdrop (scanned c) (input c)) in
  Ret (found, set_input (input c) (sat_sub (len (input c)) 1) (read_deadline c) c).

Inductive Action := WaitForRead | WaitForWrite | Close.

Definition respond (status now : Z) (c : Conn) : Action * Conn :=
  let o := response_write (errno_line status) (output c) in
  let o := if overflow o then response_write (errno_line EOVERFLOW) response_default else o in
  (WaitForWrite, set_output o (written c) (Some (now + TRANSACTION_TIMEOUT)) (close_after_write c) c).

(** What the socket answers: bytes moved, nothing ready (or interrupted), or
    an error. *)
Inductive Answer := Moved (n : Z) | NotReady | Failed.

(** What a step did to the stream, and the frame it handed over. *)
Record Io := { io_sent : bytes; io_read : bytes; io_frame : option bytes; io_refused : bool }.
Definition quiet : Io := {| io_sent := []; io_read := []; io_frame := None; io_refused := false |}.
Definition with_sent (bs : bytes) (i : Io) : Io := {| io_sent := bs; io_read := io_read i; io_frame := io_frame i; io_refused := io_refused i |}.
Definition with_read (bs : bytes) (i : Io) : Io := {| io_sent := io_sent i; io_read := bs; io_frame := io_frame i; io_refused := io_refused i |}.

Section Transport.
Context {S : Type} (get : S -> outcome bytes) (set : bytes -> S -> outcome (Z * S)).

(** The status and the reply's body of a complete frame. *)
Definition serve (frame : bytes) (s : S) : outcome (Z * bytes * S) :=
  if bool_decide (frame = str "get=1" ++ EMPTY_LINE) then let! body := get s in Ret (0, body, s)
  else if bool_decide (ztake 6 frame = str "set=1" ++ [Byte.x0a]) then let! (status, s) := set (zdrop 6 frame) s in Ret (status, [], s)
  else Ret (ERR_IO, [], s).

(** The body is written line by line; the lines fit or overflow as one. *)
Definition process_frame (end_ : Z) (now : Z) (c : Conn) (s : S) : outcome (Action * Conn * S * Io) :=
  let frame := ztake end_ (input c) in
  let rest := zdrop end_ (input c) in
  let c := set_input rest 0 (if len rest =? 0 then None else read_deadline c) c in
  let! (status, body, s) := serve frame s in
  let c := set_output (response_write body (output c)) (written c) (write_deadline c) (close_after_write c) c in
  let '(a, c) := respond status now c in
  Ret (a, c, s, {| io_sent := []; io_read := []; io_frame := Some frame; io_refused := false |}).

Definition refuse_oversized_request (now : Z) (c : Conn) : Action * Conn :=
  let c := set_input [] 0 (read_deadline c) c in
  respond E2BIG now (set_output (output c) (written c) (write_deadline c) true c).

(** The part of [step] that writes: the action that ends the step, if one
    does, and the bytes the socket took. *)
Definition flush (answer : Answer) (c : Conn) : option Action * Conn * bytes :=
  let bs := r_bytes (output c) in
  if len bs =? 0 then (None, c, []) else
  let chunk := slice (written c) (Z.min (written c + IO_BUDGET) (len bs)) bs in
  match answer with
  | NotReady => (Some WaitForWrite, c, [])
  | Failed => (Some Close, c, [])
  | Moved n =>
      if n <=? 0 then (Some Close, c, []) else
      let sent := ztake n chunk in
      let w := written c + len sent in
      if negb (w =? len bs) then (Some WaitForWrite, set_output (output c) w (write_deadline c) (close_after_write c) c, sent) else
      let c := set_output response_default 0 None (close_after_write c) c in
      (if close_after_write c then Some Close else None, c, sent)
  end.

(** A frame if there is one, a refusal if the request is too large. *)
Definition frame_or_refusal (now : Z) (c : Conn) (s : S) (otherwise : Conn -> outcome (Action * Conn * S * Io)) : outcome (Action * Conn * S * Io) :=
  let! (found, c) := frame_end c in
  match found with
  | Some end_ => process_frame end_ now c s
  | None =>
      if len (input c) =? MAX_REQUEST then
        let '(a, c) := refuse_oversized_request now c in
        Ret (a, c, s, {| io_sent := []; io_read := []; io_frame := None; io_refused := true |})
      else otherwise c
  end.

(** The part of [step] that reads, from what has [arrived]. *)
Definition receive (now : Z) (answer : Answer) (arrived : bytes) (c : Conn) (s : S) : outcome (Action * Conn * S * Io) :=
  let room := Z.min (MAX_REQUEST - len (input c)) IO_BUDGET in
  match answer with
  | NotReady => Ret (WaitForRead, c, s, quiet)
  | Failed => Ret (Close, c, s, quiet)
  | Moved n =>
      let bs := ztake (Z.min n room) arrived in
      if len bs =? 0 then Ret (Close, c, s, quiet) else
      let c := set_input (input c ++ bs) (scanned c) (Some (default (now + TRANSACTION_TIMEOUT) (read_deadline c))) c in
      let! (a, c, s, io) := frame_or_refusal now c s (fun c => Ret (WaitForRead, c, s, quiet)) in
      Ret (a, c, s, with_read bs io)
  end.

Definition conn_step (now : Z) (write_answer read_answer : Answer) (arrived : bytes) (c : Conn) (s : S) : outcome (Action * Conn * S * Io) :=
  if expired c || timed_out now c then Ret (Close, c, s, quiet) else
  let '(ended, c, sent) := flush write_answer c in
  match ended with
  | Some a => Ret (a, c, s, with_sent sent quiet)
  | None =>
      let! (a, c, s, io) := frame_or_refusal now c s (fun c => receive now read_answer arrived c s) in
      Ret (a, c, s, with_sent sent io)
  end.
End Transport.

(** ** Frames *)

(** The frames of a stream: everything up to an empty line, again and again. *)
Fixpoint frames (acc s : bytes) : list bytes :=
  match s with
  | a :: ((b :: rest') as rest) =>
      if Byte.eqb a Byte.x0a && Byte.eqb b Byte.x0a then (acc ++ [a; b]) :: frames [] rest' else frames (acc ++ [a]) rest
  | _ => []
  end.

Lemma find_frame_cons2 a b s : find_frame (a :: b :: s) =
  if Byte.eqb a Byte.x0a && Byte.eqb b Byte.x0a then Some 2 else (fun n => n + 1) <$> find_frame (b :: s).
Proof. done. Qed.
Lemma frames_cons2 acc a b s : frames acc (a :: b :: s) =
  if Byte.eqb a Byte.x0a && Byte.eqb b Byte.x0a then (acc ++ [a; b]) :: frames [] s else frames (acc ++ [a]) (b :: s).
Proof. done. Qed.

Lemma find_frame_range s n : find_frame s = Some n -> 2 <= n <= len s.
Proof.
  revert n. induction s as [|a [|b s] IH]; intros n; [done..|]. rewrite find_frame_cons2, !len_cons. destruct (_ && _); [intros [= <-]; pose proof (len_nonneg s); lia|].
  destruct (find_frame (b :: s)) as [m|]; [|done]. intros [= <-]. specialize (IH m eq_refl). rewrite len_cons in IH. lia.
Qed.
Lemma find_frame_app s t n : find_frame s = Some n -> find_frame (s ++ t) = Some n.
Proof.
  revert n. induction s as [|a [|b s] IH]; intros n; [done..|]. cbn [app]. rewrite !find_frame_cons2. destruct (_ && _); [done|].
  destruct (find_frame (b :: s)) as [m|]; [|done]. intros [= <-]. cbn [app] in IH. by rewrite (IH m eq_refl).
Qed.
Lemma find_frame_take s k : find_frame s = None -> find_frame (ztake k s) = None.
Proof.
  intros Hs. destruct (find_frame (ztake k s)) as [n|] eqn:E; [|done]. apply (find_frame_app _ (zdrop k s)) in E. by rewrite ztake_zdrop, Hs in E.
Qed.

(** A scan resumes one byte before the end of what it has seen. *)
Lemma find_frame_resume (k : nat) s : find_frame (take (S k) s) = None -> find_frame s = (fun n => Z.of_nat k + n) <$> find_frame (drop k s).
Proof.
  revert s. induction k as [|k IH]; intros s Hs; [rewrite drop_0; by destruct (find_frame s)|]. destruct s as [|a [|b s]]; [done|by destruct k|].
  cbn [take] in Hs. rewrite find_frame_cons2 in Hs |- *. destruct (_ && _); [done|]. cbn [drop]. rewrite (IH (b :: s)) by (cbn [take]; by destruct (find_frame _)).
  destruct (find_frame (drop k (b :: s))); cbn; [f_equal; lia|done].
Qed.

Lemma frames_none acc s : find_frame s = None -> frames acc s = [].
Proof.
  revert acc. induction s as [|a [|b s] IH]; intros acc; [done..|]. rewrite find_frame_cons2, frames_cons2. destruct (_ && _); [done|]. intros Hs. apply IH.
  by destruct (find_frame (b :: s)).
Qed.
Lemma frames_some acc s n : find_frame s = Some n -> frames acc s = (acc ++ ztake n s) :: frames [] (zdrop n s).
Proof.
  revert acc n. induction s as [|a [|b s] IH]; intros acc n; [done..|]. rewrite find_frame_cons2, frames_cons2. destruct (_ && _); [by intros [= <-]|].
  destruct (find_frame (b :: s)) as [m|] eqn:E; [|done]. intros [= <-]. pose proof (find_frame_range _ _ E). rewrite (IH _ m eq_refl).
  unfold ztake, zdrop. replace (Z.to_nat (m + 1)) with (S (Z.to_nat m)) by lia. cbn [take drop]. by rewrite <- app_assoc.
Qed.

Definition complete (f : bytes) : Prop := find_frame f = Some (len f).
Lemma frames_served fs s : Forall complete fs -> frames [] (concat fs ++ s) = fs ++ frames [] s.
Proof.
  induction 1 as [|f fs Hf Hfs IH]; [done|]. cbn [concat]. rewrite <- app_assoc, (frames_some [] _ (len f)) by by apply find_frame_app.
  by rewrite ztake_app_exact, zdrop_app_exact, IH by done.
Qed.
Lemma find_frame_complete s n : find_frame s = Some n -> complete (ztake n s).
Proof.
  intros Hs. pose proof (find_frame_range _ _ Hs). unfold complete. rewrite len_ztake. replace (Z.max 0 (Z.min n (len s))) with n by lia.
  destruct (find_frame (ztake n s)) as [m|] eqn:E; [pose proof (find_frame_app _ (zdrop n s) _ E) as E'; rewrite ztake_zdrop in E'; congruence|exfalso].
  unfold ztake in E. revert n Hs H E. induction s as [|a [|b s] IH]; intros n; [done..|]. rewrite find_frame_cons2. intros Hs Hn E.
  replace (Z.to_nat n) with (S (S (Z.to_nat (n - 2)))) in E by lia. cbn [take] in E. rewrite find_frame_cons2 in E. destruct (_ && _); [done|].
  destruct (find_frame (b :: s)) as [m|] eqn:Em; [|done]. injection Hs as <-. pose proof (find_frame_range _ _ Em).
  apply (IH m eq_refl ltac:(lia)). replace (Z.to_nat m) with (S (Z.to_nat (m + 1 - 2))) by lia. cbn [take].
  by destruct (find_frame (b :: take (Z.to_nat (m + 1 - 2)) s)).
Qed.

(** ** What a client sees *)

(** The reply to a frame. *)
Definition reply (status : Z) (body : bytes) : bytes :=
  let o := body ++ errno_line status in if MAX_RESPONSE <? len o then errno_line EOVERFLOW else o.

Record History := { received : bytes; sent : bytes; served : list bytes; refused : bool }.
Definition no_history : History := {| received := []; sent := []; served := []; refused := false |}.
Definition after (h : History) (io : Io) : History := {|
  received := received h ++ io_read io; sent := sent h ++ io_sent io; served := served h ++ option_list (io_frame io);
  refused := refused h || io_refused io |}.

(** The watchdog's mark. *)
Definition expire (c : Conn) : Conn := {|
  inherited := inherited c; input := input c; scanned := scanned c; output := output c; written := written c; read_deadline := read_deadline c;
  write_deadline := write_deadline c; close_after_write := close_after_write c; expired := true |}.

Record conn_ok (c : Conn) : Prop := {
  co_scanned : 0 <= scanned c <= len (input c);
  co_input : len (input c) <= MAX_REQUEST;
  co_seen : find_frame (ztake (scanned c + 1) (input c)) = None;
  co_overflow : overflow (output c) = false;
  co_output : len (r_bytes (output c)) <= MAX_RESPONSE;
  co_written : 0 <= written c /\ (written c < len (r_bytes (output c)) \/ r_bytes (output c) = [] /\ written c = 0);
}.

Lemma conn_new_ok now inh : conn_ok (conn_new now inh).
Proof. split; cbn; try done. split; [done|by right]. Qed.

Lemma len_errno_pos status : 0 < len (errno_line status).
Proof. unfold errno_line. rewrite !len_app. pose proof (len_nonneg (print_radix 10 status)). change (len (str "errno=")) with 6. change (len EMPTY_LINE) with 2. lia. Qed.
Lemma reply_len status body : 0 < len (reply status body) <= MAX_RESPONSE.
Proof.
  unfold reply. cbv zeta. destruct (Z.ltb_spec MAX_RESPONSE (len (body ++ errno_line status))); [vm_compute; split; [done|congruence]|].
  rewrite len_app in *. pose proof (len_errno_pos status). pose proof (len_nonneg body). lia.
Qed.

Lemma respond_reply status now body c : output c = response_default ->
  exists wd, respond status now (set_output (response_write body (output c)) (written c) (write_deadline c) (close_after_write c) c) =
    (WaitForWrite, set_output {| r_bytes := reply status body; overflow := false |} (written c) wd (close_after_write c) c).
Proof.
  intros Ho. exists (Some (now + TRANSACTION_TIMEOUT)). unfold respond, set_output, reply. cbn [output written close_after_write inherited input scanned read_deadline write_deadline expired].
  f_equal. rewrite Ho. set (e := errno_line status). pose proof (len_nonneg body). assert (0 < len e) as He by apply len_errno_pos.
  assert (response_write (errno_line EOVERFLOW) response_default = {| r_bytes := errno_line EOVERFLOW; overflow := false |}) as Hov by (by vm_compute).
  assert (response_write body response_default = if MAX_RESPONSE <? len body then {| r_bytes := []; overflow := true |} else {| r_bytes := body; overflow := false |}) as Hb.
  { unfold response_write. cbn [overflow r_bytes response_default orb app]. by rewrite len_nil, Z.sub_0_r. }
  rewrite Hov, Hb, len_app. cbv zeta. destruct (Z.ltb_spec MAX_RESPONSE (len body)); [by destruct (Z.ltb_spec MAX_RESPONSE (len body + len e)); [|lia]|].
  change (response_write e {| r_bytes := body; overflow := false |}) with
    (if MAX_RESPONSE - len body <? len e then {| r_bytes := body; overflow := true |} else {| r_bytes := body ++ e; overflow := false |}).
  by destruct (Z.ltb_spec (MAX_RESPONSE - len body) (len e)), (Z.ltb_spec MAX_RESPONSE (len body + len e)); try (exfalso; lia).
Qed.

Lemma prefix_cut (k : nat) (l : bytes) : take k l ++ drop (length (take k l)) l = l.
Proof.
  rewrite length_take. destruct (decide (k <= length l)%nat); [rewrite Nat.min_l by done; apply take_drop|].
  rewrite Nat.min_r, drop_all, take_ge, app_nil_r by lia. done.
Qed.

Lemma flush_spec answer c ended c' bs : conn_ok c -> flush answer c = (ended, c', bs) ->
  conn_ok c' /\ bs ++ zdrop (written c') (r_bytes (output c')) = zdrop (written c) (r_bytes (output c)) /\
  (input c', scanned c', close_after_write c') = (input c, scanned c, close_after_write c) /\
  match ended with
  | None => output c' = response_default /\ written c' = 0 /\ (r_bytes (output c) = [] \/ close_after_write c = false)
  | Some a => a <> WaitForRead /\ (a = WaitForWrite -> r_bytes (output c') <> [])
  end.
Proof.
  intros Hc. pose proof Hc as [Hs Hi Hse Hov Ho [Hw0 Hw]]. unfold flush. destruct (Z.eqb_spec (len (r_bytes (output c))) 0) as [Hl|Hl].
  { intros [= <- <- <-]. assert (r_bytes (output c) = []) as Hn by (apply nil_length_inv; unfold len in Hl; lia). split; [done|]. split; [done|]. split; [done|].
    split; [|split; [destruct Hw as [Hw|[_ Hw]]; [rewrite Hl in Hw; lia|done]|by left]]. destruct (output c) as [b o]; cbn in *. by subst. }
  destruct Hw as [Hw|[Hn _]]; [|by rewrite Hn in Hl]. assert (r_bytes (output c) <> []) as Hne by (intros Hn; by rewrite Hn in Hl).
  destruct answer as [n| |]; [|intros [= <- <- <-]; by split_and!..]. destruct (Z.leb_spec n 0) as [Hz|Hz]; [intros [= <- <- <-]; by split_and!|].
  set (chunk := slice _ _ _). set (sent0 := ztake n chunk).
  assert (len chunk = Z.min (written c + IO_BUDGET) (len (r_bytes (output c))) - written c) as Hlc.
  { unfold chunk. rewrite len_slice; unfold IO_BUDGET; lia. }
  assert (0 < len sent0 <= len chunk) as Hls by (unfold sent0; rewrite len_ztake; unfold IO_BUDGET in Hlc; lia).
  assert (sent0 ++ zdrop (written c + len sent0) (r_bytes (output c)) = zdrop (written c) (r_bytes (output c))) as Hcut.
  { unfold sent0, chunk, slice, ztake, zdrop, len. rewrite take_take, Z2Nat.inj_add, Nat2Z.id by lia. rewrite <- drop_drop. apply prefix_cut. }
  destruct (Z.eqb_spec (written c + len sent0) (len (r_bytes (output c)))) as [He|He]; cbn [negb].
  - destruct (close_after_write c) eqn:Hcl; intros [= <- <- <-].
    all: (split; [split; cbn; try done; by split; [|right]|]).
    all: (split; [|by split_and!; try done; right]).
    all: cbn [set_output output written r_bytes response_default]; rewrite <- Hcut, He; unfold zdrop, len; rewrite Nat2Z.id, drop_all; done.
  - intros [= <- <- <-]. split; [split; cbn; try done; split; [lia|left; lia]|]. by split_and!.
Qed.

Lemma frame_end_spec c : conn_ok c ->
  frame_end c = Ret (find_frame (input c), set_input (input c) (sat_sub (len (input c)) 1) (read_deadline c) c) /\
  (find_frame (input c) = None -> conn_ok (set_input (input c) (sat_sub (len (input c)) 1) (read_deadline c) c)).
Proof.
  intros [Hs Hi Hse Hov Ho Hw]. split.
  - unfold frame_end. destruct (Z.ltb_spec (len (input c)) (scanned c)); [lia|]. do 2 f_equal. symmetry.
    rewrite (find_frame_resume (Z.to_nat (scanned c))); [by rewrite Z2Nat.id by lia|]. unfold ztake in Hse.
    by replace (Z.to_nat (scanned c + 1)) with (S (Z.to_nat (scanned c))) in Hse by lia.
  - intros Hn. split; cbn; try done; [unfold sat_sub; lia|]. by apply find_frame_take.
Qed.

(** More input after a scan that found nothing. *)
Lemma conn_ok_more c bs rd : conn_ok c -> find_frame (input c) = None -> scanned c = sat_sub (len (input c)) 1 -> len (input c) + len bs <= MAX_REQUEST ->
  conn_ok (set_input (input c ++ bs) (scanned c) rd c).
Proof.
  intros [Hs Hi Hse Hov Ho Hw] Hn Hsc Hl. pose proof (len_nonneg bs). split; cbn; try done; [rewrite len_app; lia|rewrite len_app; lia|].
  destruct (decide (len (input c) = 0)) as [Hz|Hz].
  - rewrite Hsc, Hz. change (sat_sub 0 1 + 1) with 1. replace (input c) with (@nil Init.Byte.byte) by (symmetry; apply nil_length_inv; unfold len in Hz; lia).
    by destruct bs as [|b bs].
  - pose proof (len_nonneg (input c)). replace (scanned c + 1) with (len (input c)) by (rewrite Hsc; unfold sat_sub; lia). by rewrite ztake_app_exact.
Qed.

Section Refinement.
Context {S : Type} (get : S -> outcome bytes) (set : bytes -> S -> outcome (Z * S)).

(** Serving frames one after the other. *)
Fixpoint serve_all (fs : list bytes) (s : S) : outcome (list bytes * S) :=
  match fs with
  | [] => Ret ([], s)
  | f :: fs =>
      let! (status, body, s) := serve get set f s in
      let! (replies, s) := serve_all fs s in
      Ret (reply status body :: replies, s)
  end.

(** Runs of a connection: steps until it closes, the watchdog between them. *)
Inductive conn_runs (c0 : Conn) (s0 : S) : History -> option Action -> Conn -> S -> Prop :=
| conn_runs_start : conn_runs c0 s0 no_history None c0 s0
| conn_runs_step h a c s now wa ra arrived a' c' s' io :
    conn_runs c0 s0 h a c s -> a <> Some Close -> conn_step get set now wa ra arrived c s = Ret (a', c', s', io) ->
    conn_runs c0 s0 (after h io) (Some a') c' s'
| conn_runs_expire h a c s : conn_runs c0 s0 h a c s -> conn_runs c0 s0 h a (expire c) s.

Lemma serve_all_snoc fs s0 rs s f status body s' : serve_all fs s0 = Ret (rs, s) -> serve get set f s = Ret (status, body, s') ->
  serve_all (fs ++ [f]) s0 = Ret (rs ++ [reply status body], s').
Proof.
  revert s0 rs. induction fs as [|f0 fs IH]; intros s0 rs Hr Hf; cbn [serve_all app] in *; [injection Hr as <- <-; by rewrite Hf|].
  destruct (serve get set f0 s0) as [[[st b] s1]|]; [|done]. cbn [obind] in *. destruct (serve_all fs s1) as [[rs1 s2]|] eqn:E; [|done].
  injection Hr as <- <-. by rewrite (IH s1 rs1 E Hf).
Qed.

(** What holds of a connection that has not been told to close, with the
    replies to what it has served. *)
Record tracked (s0 : S) (h : History) (a : option Action) (c : Conn) (s : S) (replies : list bytes) : Prop := {
  tr_conn : conn_ok c;
  tr_served : serve_all (served h) s0 = Ret (replies, s);
  tr_complete : Forall complete (served h);
  tr_sent : sent h ++ zdrop (written c) (r_bytes (output c)) = concat (replies ++ if refused h then [errno_line E2BIG] else []);
  tr_received : exists rest, received h = concat (served h) ++ rest /\
    if refused h then find_frame rest = None /\ len rest = MAX_REQUEST /\ close_after_write c = true /\ (a = Some Close \/ r_bytes (output c) <> [])
    else rest = input c;
  tr_waiting : a = Some WaitForRead -> find_frame (input c) = None /\ r_bytes (output c) = [] /\ refused h = false;
}.

(** The connection as a write left it, ready for the next frame. *)
Record ready (s0 : S) (h : History) (c : Conn) (s : S) (replies : list bytes) : Prop := {
  rd_conn : conn_ok c;
  rd_output : output c = response_default /\ written c = 0;
  rd_served : serve_all (served h) s0 = Ret (replies, s);
  rd_complete : Forall complete (served h);
  rd_sent : sent h = concat replies;
  rd_received : received h = concat (served h) ++ input c;
  rd_refused : refused h = false;
}.

Lemma ready_tracked s0 h a c s replies : ready s0 h c s replies -> (a = Some WaitForRead -> find_frame (input c) = None) -> tracked s0 h a c s replies.
Proof.
  intros [Hc [Ho Hw] Hs Hcm Hse Hr Hrf] Hn. split; try done.
  - rewrite Ho, Hw, Hrf, Hse. cbn. by rewrite !app_nil_r.
  - exists (input c). split; [done|by rewrite Hrf].
  - intros Ha. rewrite Ho, Hrf. by split; [apply Hn|].
Qed.

Lemma process_frame_tracked s0 h now c s replies n a c' s' io : ready s0 h c s replies -> find_frame (input c) = Some n ->
  process_frame get set n now c s = Ret (a, c', s', io) -> io_sent io = [] /\ io_read io = [] /\ io_refused io = false /\
  exists replies', tracked s0 (after h io) (Some a) c' s' replies'.
Proof.
  intros [Hc [Ho Hw] Hs Hcm Hse Hr Hrf] Hn. unfold process_frame. set (f := ztake n (input c)). set (c1 := set_input _ _ _ c).
  destruct (serve get set f s) as [[[status body] s1]|] eqn:Es; [|done]. cbn [obind].
  destruct (respond_reply status now body c1 Ho) as [wd ->]. intros [= <- <- <- <-]. split; [done|]. split; [done|]. split; [done|].
  pose proof (find_frame_range _ _ Hn) as Hrange. pose proof (reply_len status body) as [Hl0 Hl]. exists (replies ++ [reply status body]).
  split; cbn [after served received sent refused io_sent io_read io_frame io_refused option_list output written set_output r_bytes input close_after_write].
  - destruct Hc as [Hsc Hi _ _ _ _]. split; cbn; try done.
    + pose proof (len_nonneg (zdrop n (input c))). lia.
    + rewrite len_zdrop. lia.
    + by destruct (zdrop n (input c)) as [|b [|b' l]].
    + rewrite Hw. split; [done|left; lia].
  - by eapply serve_all_snoc.
  - apply Forall_app. split; [done|]. constructor; [by apply find_frame_complete|constructor].
  - cbn [c1 set_input written]. rewrite Hw, zdrop_zero by done. rewrite Hrf. cbn [orb]. rewrite !app_nil_r, concat_app, Hse. cbn. by rewrite app_nil_r.
  - exists (zdrop n (input c)). rewrite Hrf. cbn [orb]. split; [|done]. rewrite app_nil_r, concat_app, Hr. cbn [concat]. unfold f.
    change (concat (option_list (Some (ztake n (input c))))) with (ztake n (input c) ++ []).
    by rewrite app_nil_r, <- app_assoc, ztake_zdrop.
  - done.
Qed.

Lemma respond_default status now c : output c = response_default -> exists wd,
  respond status now c = (WaitForWrite, set_output {| r_bytes := reply status []; overflow := false |} (written c) wd (close_after_write c) c).
Proof.
  intros Ho. destruct (respond_reply status now [] c Ho) as [wd Hr]. exists wd. rewrite <- Hr. do 2 f_equal. rewrite Ho. destruct c. cbn in *. by subst.
Qed.

Lemma frame_or_refusal_tracked s0 h now c s replies otherwise a c' s' io :
  ready s0 h c s replies -> frame_or_refusal get set now c s otherwise = Ret (a, c', s', io) ->
  (io_sent io = [] /\ io_read io = [] /\ exists replies', tracked s0 (after h io) (Some a) c' s' replies') \/
  exists c1, ready s0 h c1 s replies /\ find_frame (input c1) = None /\ scanned c1 = sat_sub (len (input c1)) 1 /\ len (input c1) < MAX_REQUEST /\
    otherwise c1 = Ret (a, c', s', io).
Proof.
  intros Hrd. pose proof Hrd as [Hc [Ho Hw] Hs Hcm Hse Hr Hrf]. unfold frame_or_refusal. destruct (frame_end_spec c Hc) as [-> Hn]. cbn [obind].
  set (c1 := set_input (input c) _ _ c) in *. destruct (find_frame (input c)) as [n|] eqn:Ef.
  - intros Hp. left. assert (process_frame get set n now c s = Ret (a, c', s', io)) as Hp' by exact Hp.
    destruct (process_frame_tracked s0 h now c s replies n a c' s' io Hrd Ef Hp') as (Hsent & Hread & _ & Ht). by split.
  - specialize (Hn eq_refl). change (input c1) with (input c). destruct (Z.eqb_spec (len (input c)) MAX_REQUEST) as [Hl|Hl].
    2: { intros Hot. right. exists c1. split_and!; [by split|done|done|pose proof (co_input _ Hc); change (len (input c) < MAX_REQUEST); lia|done]. }
    unfold refuse_oversized_request. set (c2 := set_output _ _ _ true _).
    destruct (respond_default E2BIG now c2 Ho) as [wd ->]. intros [= <- <- <- <-]. left. split; [done|]. split; [done|]. exists replies. pose proof (reply_len E2BIG []) as [Hl0 Hl1].
    split; cbn [after served received sent refused io_sent io_read io_frame io_refused option_list set_output output written r_bytes input close_after_write];
      rewrite ?app_nil_r, ?orb_true_r; try done.
    + destruct Hc as [Hsc Hi _ _ _ _]. split; cbn; try done. rewrite Hw. split; [done|left; lia].
    + cbn [c2 set_output set_input written]. rewrite Hw, zdrop_zero by done. rewrite concat_app, Hse. cbn [concat]. rewrite app_nil_r. done.
    + exists (input c). split; [done|]. split_and!; try done. right. intros Hnil. by rewrite Hnil in Hl0.
Qed.

Lemma after_quiet h : after h quiet = h.
Proof. unfold after, quiet. cbn. rewrite !app_nil_r, orb_false_r. by destruct h. Qed.

Lemma receive_tracked s0 h now answer arrived c s replies a c' s' io :
  ready s0 h c s replies -> find_frame (input c) = None -> scanned c = sat_sub (len (input c)) 1 -> len (input c) < MAX_REQUEST ->
  receive get set now answer arrived c s = Ret (a, c', s', io) -> io_sent io = [] /\ exists replies', tracked s0 (after h io) (Some a) c' s' replies'.
Proof.
  intros Hrd Hn Hsc Hl. unfold receive. set (room := Z.min _ _). destruct answer as [n| |].
  2,3: intros [= <- <- <- <-]; split; [done|]; exists replies; rewrite after_quiet; by apply ready_tracked.
  set (bs := ztake _ _). destruct (len bs =? 0); [intros [= <- <- <- <-]; split; [done|]; exists replies; rewrite after_quiet; by apply ready_tracked|].
  set (c1 := set_input _ _ _ c). set (h1 := after h (with_read bs quiet)).
  assert (ready s0 h1 c1 s replies) as Hrd1.
  { destruct Hrd as [Hc [Ho Hw] Hs Hcm Hse Hr Hrf]. split; cbn; rewrite ?app_nil_r; try done.
    - apply conn_ok_more; try done. pose proof (len_nonneg arrived). unfold bs, room. rewrite len_ztake. lia.
    - by rewrite Hr, <- app_assoc.
    - by rewrite Hrf. }
  destruct (frame_or_refusal _ _ _ _ _ _) as [[[[a1 c2] s1] io1]|] eqn:E; [|done]. cbn [obind]. intros [= <- <- <- <-].
  assert (io_sent io1 = [] /\ io_read io1 = [] /\ exists replies', tracked s0 (after h1 io1) (Some a1) c2 s1 replies') as (Hs & Hr & replies' & Ht).
  { destruct (frame_or_refusal_tracked s0 h1 now c1 s replies _ a1 c2 s1 io1 Hrd1 E) as [?|(c3 & Hrd3 & Hn3 & _ & _ & [= <- <- <- <-])]; [done|].
    split; [done|]. split; [done|]. exists replies. rewrite after_quiet. by apply ready_tracked. }
  split; [done|]. exists replies'. replace (after h (with_read bs io1)) with (after h1 io1); [done|]. unfold after, h1, with_read. cbn. rewrite Hs, Hr, !app_nil_r, orb_false_r. done.
Qed.

Lemma conn_step_tracked s0 h a c s replies now wa ra arrived a' c' s' io : tracked s0 h a c s replies -> a <> Some Close ->
  conn_step get set now wa ra arrived c s = Ret (a', c', s', io) -> exists replies', tracked s0 (after h io) (Some a') c' s' replies'.
Proof.
  intros [Hc Hs Hcm Hse (rest & Hr & Hrest) Hwait] Ha. unfold conn_step. destruct (expired c || timed_out now c).
  { intros [= <- <- <- <-]. exists replies. rewrite after_quiet. split; try done. exists rest. split; [done|]. destruct (refused h); [|done].
    destruct Hrest as (? & ? & ? & _). split_and!; try done. by left. }
  destruct (flush wa c) as [[ended c1] sent1] eqn:Ef. destruct (flush_spec _ _ _ _ _ Hc Ef) as (Hc1 & Hcut & [= Hin Hsc Hcl] & He).
  destruct ended as [b|].
  - intros [= <- <- <- <-]. exists replies. destruct He as [Hb1 Hb2]. split; cbn [after with_sent quiet served received sent refused io_sent io_read io_frame io_refused option_list];
      rewrite ?app_nil_r, ?orb_false_r; try done.
    + by rewrite <- app_assoc, Hcut.
    + exists rest. split; [done|]. rewrite Hin, Hcl. destruct (refused h); [|done]. destruct Hrest as (H1 & H2 & H3 & _). split_and!; try done. destruct b; [done|right; auto|by left].
    + intros [= ->]. done.
  - destruct He as (Ho & Hw & Hopen). assert (refused h = false) as Hrf.
    { destruct (refused h); [|done]. destruct Hrest as (_ & _ & Hcl' & [->|Hne]); [done|]. destruct Hopen; congruence. }
    rewrite Hrf in *. subst rest. set (h1 := after h (with_sent sent1 quiet)).
    assert (ready s0 h1 c1 s replies) as Hrd.
    { assert (sent1 = zdrop (written c) (r_bytes (output c))) as Hcut' by (rewrite <- Hcut, Ho, Hw; by rewrite app_nil_r).
      split; cbn; rewrite ?app_nil_r, ?Hrf; try done; [|by rewrite Hin]. by rewrite Hcut', Hse, app_nil_r. }
    destruct (frame_or_refusal _ _ _ _ _ _) as [[[[a1 c2] s1] io1]|] eqn:E; [|done]. cbn [obind]. intros [= <- <- <- <-].
    assert (io_sent io1 = [] /\ exists replies', tracked s0 (after h1 io1) (Some a1) c2 s1 replies') as (Hs1 & replies' & Ht).
    { destruct (frame_or_refusal_tracked s0 h1 now c1 s replies _ a1 c2 s1 io1 Hrd E) as [(? & _ & ?)|(c3 & Hrd3 & Hn3 & Hsc3 & Hl3 & Hrec)]; [done|].
      by apply (receive_tracked s0 h1 now ra arrived c3 s replies). }
    exists replies'. replace (after h (with_sent sent1 io1)) with (after h1 io1); [done|]. unfold after, h1, with_sent. cbn. by rewrite Hs1, !app_nil_r, orb_false_r.
Qed.

Lemma conn_runs_tracked now inh s0 h a c s : conn_runs (conn_new now inh) s0 h a c s -> exists replies, tracked s0 h a c s replies.
Proof.
  induction 1 as [|h a c s now' wa ra arrived a' c' s' io _ [replies IH] Ha Hst|h a c s _ [replies IH]].
  - exists []. split; cbn; try done; [apply conn_new_ok|by exists []].
  - by eapply conn_step_tracked.
  - exists replies. destruct IH as [Hc Hs Hcm Hse Hr Hwait]. split; try done. by destruct Hc.
Qed.

(** C11. A connection serves exactly the requests of its stream, whatever
    pieces the bytes arrive in. After any run of steps, timeouts included, the
    frames handed over are the first ones of the stream cut at its empty lines,
    each served once and in order on the state the one before left; what has
    been written is a prefix of the replies to them (and of the refusal of a
    request that is too large). When the connection waits for more, nothing
    complete is left unserved and every reply has been written. The buffers
    stay within their limits. *)
Theorem transport_exact now inh s0 h a c s : conn_runs (conn_new now inh) s0 h a c s ->
  exists replies, serve_all (served h) s0 = Ret (replies, s) /\
    served h `prefix_of` frames [] (received h) /\
    sent h `prefix_of` concat (replies ++ if refused h then [errno_line E2BIG] else []) /\
    (a = Some WaitForRead -> served h = frames [] (received h) /\ sent h = concat replies /\ refused h = false) /\
    len (input c) <= MAX_REQUEST /\ len (r_bytes (output c)) <= MAX_RESPONSE.
Proof.
  intros Hr. destruct (conn_runs_tracked _ _ _ _ _ _ _ Hr) as [replies [Hc Hs Hcm Hse (rest & Hrec & Hrest) Hwait]]. exists replies. split; [done|].
  split_and!; [| | |apply Hc|apply Hc].
  - rewrite Hrec, frames_served by done. by apply prefix_app_r.
  - rewrite <- Hse. by apply prefix_app_r.
  - intros Ha. destruct (Hwait Ha) as (Hn & Ho & Hrf). rewrite Hrf in *. subst rest. rewrite Hrec, frames_served, (frames_none _ _ Hn), app_nil_r by done.
    split; [done|]. split; [|done]. rewrite Ho in Hse. unfold zdrop in Hse. rewrite drop_nil, !app_nil_r in Hse. done.
Qed.
End Refinement.

(** ** A witness *)

(** A state that remembers the requests it was sent, and prints them. *)
Definition note_get (s : list bytes) : outcome bytes := Ret (concat s).
Definition note_set (request : bytes) (s : list bytes) : outcome (Z * list bytes) := Ret (0, s ++ [request]).

Definition ex_request : bytes := str "set=1" ++ [Byte.x0a] ++ str "jc=4" ++ EMPTY_LINE.
Definition ex_stream : bytes := ex_request ++ str "get=1" ++ EMPTY_LINE.
Definition ex_pieces : list (Answer * Answer * bytes) :=
  [(NotReady, Moved 8, ex_stream); (NotReady, Moved 100, zdrop 8 ex_stream); (Moved 5, NotReady, []); (Moved 100, NotReady, []); (Moved 100, NotReady, [])].
Fixpoint ex_run (l : list (Answer * Answer * bytes)) (h : History) (a : option Action) (c : Conn) (s : list bytes) : History * option Action * Conn * list bytes :=
  match l with
  | [] => (h, a, c, s)
  | (wa, ra, arrived) :: l =>
      match conn_step note_get note_set 0 wa ra arrived c s with
      | Ret (a', c', s', io) => ex_run l (after h io) (Some a') c' s'
      | Panic => (h, a, c, s)
      end
  end.

Definition open_action (a : option Action) : bool := match a with Some Close => false | _ => true end.
Fixpoint ex_run_open (l : list (Answer * Answer * bytes)) (a : option Action) (c : Conn) (s : list bytes) : bool :=
  match l with
  | [] => true
  | (wa, ra, arrived) :: l => open_action a && match conn_step note_get note_set 0 wa ra arrived c s with
      | Ret (a', c', s', io) => ex_run_open l (Some a') c' s' | Panic => false end
  end.
Lemma ex_run_runs c0 s0 l h a c s : conn_runs note_get note_set c0 s0 h a c s -> ex_run_open l a c s = true ->
  let '(h', a', c', s') := ex_run l h a c s in conn_runs note_get note_set c0 s0 h' a' c' s'.
Proof.
  revert h a c s. induction l as [|[[wa ra] arrived] l IH]; intros h a c s Hr; [done|]. cbn [ex_run ex_run_open]. destruct (conn_step _ _ _ _ _ _ _ _) as [[[[a' c'] s'] io]|] eqn:E;
    [|by rewrite andb_false_r]. intros [Ha Hl]%andb_true_iff. apply IH; [|done]. eapply conn_runs_step; [done| |done]. by destruct a as [[]|].
Qed.

Lemma transport_exact_witness :
  let '(h, a, c, s) := ex_run ex_pieces no_history None (conn_new 0 true) [] in
  conn_runs note_get note_set (conn_new 0 true) [] h a c s /\ a = Some WaitForRead /\ s = [str "jc=4" ++ EMPTY_LINE] /\
  served h = [ex_request; str "get=1" ++ EMPTY_LINE] /\ sent h = reply 0 [] ++ reply 0 (str "jc=4" ++ EMPTY_LINE).
Proof.
  pose proof (ex_run_runs (conn_new 0 true) [] ex_pieces no_history None (conn_new 0 true) [] (conn_runs_start _ _ _ _) ltac:(vm_compute; reflexivity)) as Hr.
  destruct (ex_run _ _ _ _ _) as [[[h a] c] s] eqn:E.
  assert (a = Some WaitForRead /\ received h = ex_stream) as [Ha Hrec] by (vm_compute in E; injection E as <- <- <- <-; split; reflexivity).
  destruct (transport_exact note_get note_set 0 true [] h a c s Hr) as (replies & Hs & _ & _ & Hw & _). destruct (Hw Ha) as (Hserved & Hsent & _).
  split; [exact Hr|]. split; [exact Ha|]. rewrite Hrec in Hserved. change (frames [] ex_stream) with [ex_request; str "get=1" ++ EMPTY_LINE] in Hserved.
  rewrite Hserved in Hs. vm_compute in Hs. injection Hs as <- <-. split; [reflexivity|]. split; [exact Hserved|]. rewrite Hsent. vm_compute. reflexivity.
Defined.
