(* ===== verification/UdpDiagnostics.v ===== *)
(** What the device reports of its sockets' errors, [device/udp_diagnostics.rs]:
    the generations that name sockets, the classes of errors, and per peer two
    episodes of failure with the cooldowns that bound what is logged.

    An observation returns the lines it logs ([Report]); the text of a line is
    not modelled. The device-wide latches are an argument and a result: the
    code keeps them in atomics that all peers share. An [io::Error] is its kind
    and its errno; the clock is an argument. *)

From stdpp Require Import list.
From S2P Require Import Prelude Instant Rand Packet Stun ReplyPolicy.

Definition WARN_COOLDOWN : Z := from_secs 60.
Definition ERROR_COOLDOWN : Z := from_secs 60.

(** ** Generations *)

Inductive DiagGen := Tracked (g : Z) | Untracked.
#[export] Instance DiagGen_eq_dec : EqDecision DiagGen.
Proof. solve_decision. Defined.
Definition tracked (g : DiagGen) : option Z := match g with Tracked g => Some g | Untracked => None end.

(** [GenAllocator]: the next value to hand out, 0 once exhausted. *)
Definition allocator_new : Z := 1.
Definition allocate (next : Z) : DiagGen * Z :=
  if next =? 0 then (Untracked, next) else (Tracked next, if next =? u64_max then 0 else next + 1).

(** ** Sites *)

Inductive Family := FamilyV4 | FamilyV6.
Record ListenerId := { family : Family; id_gen : DiagGen }.
#[export] Instance Family_eq_dec : EqDecision Family.
Proof. solve_decision. Defined.
#[export] Instance ListenerId_eq_dec : EqDecision ListenerId.
Proof. solve_decision. Defined.

Inductive DiagOp := OpSend | OpRecv.
Inductive Site :=
| TimerV4 | TimerV6 | SiteProbeReply | CookieReply | HandshakeReply | ListenerFlush | ConnectedReply | ConnectedFlush
| TunConnected | TunV4 | TunV6 | SiteConnectedRecv.
Inductive Provenance := ConfiguredPeer | Mixed | Unauthenticated | ConnectedRecv.
Definition provenance (s : Site) : Provenance :=
  match s with
  | TimerV4 | TimerV6 | HandshakeReply | ListenerFlush | ConnectedFlush | TunConnected | TunV4 | TunV6 => ConfiguredPeer
  | ConnectedReply => Mixed
  | SiteProbeReply | CookieReply => Unauthenticated
  | SiteConnectedRecv => ConnectedRecv
  end.

Inductive Identity := IdConnected (g : Z) | IdListener (g : Z) (to : SocketAddr).
#[export] Instance Identity_eq_dec : EqDecision Identity.
Proof. solve_decision. Defined.

Inductive Target := OnConnected (gen : DiagGen) (to : option SocketAddr) | OnListener (id : ListenerId) (to : SocketAddr).
Definition target_identity (t : Target) : option Identity :=
  match t with
  | OnConnected gen _ => IdConnected <$> tracked gen
  | OnListener id to => (fun g => IdListener g to) <$> tracked (id_gen id)
  end.
Definition target_gen (t : Target) : DiagGen := match t with OnConnected gen _ => gen | OnListener id _ => id_gen id end.

(** ** Classes *)

Inductive ErrorKind := WouldBlock | Interrupted | OtherKind.
#[export] Instance ErrorKind_eq_dec : EqDecision ErrorKind.
Proof. solve_decision. Defined.
Record SocketError := { kind : ErrorKind; os_error : option Z }.

Inductive ErrorClass := Transient | Size | Route | Refused | Policy | Lifecycle | Teardown | Unknown.
#[export] Instance ErrorClass_eq_dec : EqDecision ErrorClass.
Proof. solve_decision. Defined.

Definition errno_class (errno : Z) : ErrorClass :=
  let any l := existsb (Z.eqb errno) l in
  if errno =? 105 (* ENOBUFS *) then Transient
  else if errno =? 90 (* EMSGSIZE *) then Size
  else if any [101; 113; 112; 99] (* ENETUNREACH, EHOSTUNREACH, EHOSTDOWN, EADDRNOTAVAIL *) then Route
  else if errno =? 64 (* ENONET *) then Route
  else if errno =? 111 (* ECONNREFUSED *) then Refused
  else if any [13; 1; 22] (* EACCES, EPERM, EINVAL *) then Policy
  else if any [9; 88; 97; 89; 106; 107; 32] (* EBADF, ENOTSOCK, EAFNOSUPPORT, EDESTADDRREQ, EISCONN, ENOTCONN, EPIPE *) then Lifecycle
  else Unknown.

Definition classify_error (op : DiagOp) (e : SocketError) (retired : bool) : option ErrorClass :=
  match op, kind e with
  | OpRecv, WouldBlock => None
  | _, _ =>
      if retired then Some Teardown else
      match kind e with
      | WouldBlock | Interrupted => Some Transient
      | OtherKind => Some (match os_error e with None => Unknown | Some errno => errno_class errno end)
      end
  end.

(** ** The device's latches *)

(** Per family: the last tracked generation that was an ERROR, and when an
    untracked listener last was, in nanoseconds plus one. *)
Record Latches := { latch4 : Z; latch6 : Z; untracked4 : Z; untracked6 : Z }.
Definition latches_new : Latches := {| latch4 := 0; latch6 := 0; untracked4 := 0; untracked6 := 0 |}.
Definition latch (f : Family) (l : Latches) : Z := match f with FamilyV4 => latch4 l | FamilyV6 => latch6 l end.
Definition untracked_at (f : Family) (l : Latches) : Z := match f with FamilyV4 => untracked4 l | FamilyV6 => untracked6 l end.
Definition set_latch (f : Family) (g : Z) (l : Latches) : Latches :=
  {| latch4 := match f with FamilyV4 => g | FamilyV6 => latch4 l end; latch6 := match f with FamilyV6 => g | FamilyV4 => latch6 l end;
     untracked4 := untracked4 l; untracked6 := untracked6 l |}.
Definition set_untracked (f : Family) (at_ : Z) (l : Latches) : Latches :=
  {| latch4 := latch4 l; latch6 := latch6 l; untracked4 := match f with FamilyV4 => at_ | FamilyV6 => untracked4 l end;
     untracked6 := match f with FamilyV6 => at_ | FamilyV4 => untracked6 l end |}.

Definition listener_error_first (id : ListenerId) (now : Z) (l : Latches) : bool * Latches :=
  match tracked (id_gen id) with
  | Some g => (negb (latch (family id) l =? g), set_latch (family id) g l)
  | None =>
      let at_ := Z.min now (u64_max - 1) + 1 in
      let last := untracked_at (family id) l in
      if (last =? 0) || (ERROR_COOLDOWN <=? sat_sub at_ last) then (true, set_untracked (family id) at_ l) else (false, l)
  end.

(** ** Episodes *)

Record Failure := { fail_class : ErrorClass; fail_errno : option Z }.
Record Episode := {
  identity_of : option Identity;
  active : bool;
  announced : bool;
  error_latched : bool;
  failures : Z;
  last : option Failure;
}.
Definition episode_default : Episode :=
  {| identity_of := None; active := false; announced := false; error_latched := false; failures := 0; last := None |}.
Definition episode_named (id : option Identity) : Episode :=
  {| identity_of := id; active := false; announced := false; error_latched := false; failures := 0; last := None |}.

Record PeerUdpDiagnostics := { connected_ep : Episode; listener_ep : Episode; last_warn : option Z; last_error : option Z }.
Definition diag_default : PeerUdpDiagnostics := {| connected_ep := episode_default; listener_ep := episode_default; last_warn := None; last_error := None |}.

Definition cooldown_open (anchor : option Z) (now cooldown : Z) : bool :=
  match anchor with None => true | Some t => cooldown <=? sat_sub now t end.

Definition record (t : Target) (d : PeerUdpDiagnostics) : Episode := match t with OnConnected _ _ => connected_ep d | OnListener _ _ => listener_ep d end.
Definition set_record (t : Target) (ep : Episode) (d : PeerUdpDiagnostics) : PeerUdpDiagnostics :=
  match t with
  | OnConnected _ _ => {| connected_ep := ep; listener_ep := listener_ep d; last_warn := last_warn d; last_error := last_error d |}
  | OnListener _ _ => {| connected_ep := connected_ep d; listener_ep := ep; last_warn := last_warn d; last_error := last_error d |}
  end.
Definition set_anchors (w e : option Z) (d : PeerUdpDiagnostics) : PeerUdpDiagnostics :=
  {| connected_ep := connected_ep d; listener_ep := listener_ep d; last_warn := w; last_error := e |}.

(** ** Lines *)

Inductive DiagLine := WarnOpening | WarnSummary | ErrorConnected | ErrorListener | DebugFailure | DebugRecovery | DebugClosed | DebugRetired.
#[export] Instance DiagLine_eq_dec : EqDecision DiagLine.
Proof. solve_decision. Defined.

(** A line with the class it names and, in an episode, the count of failures. *)
Record Report := { rp_line : DiagLine; rp_class : option ErrorClass; rp_gen : DiagGen; rp_failures : option Z }.
Definition emit_closed (ep : Episode) (replacing : DiagGen) : Report :=
  {| rp_line := DebugClosed; rp_class := fail_class <$> last ep; rp_gen := replacing; rp_failures := Some (failures ep) |}.
Definition emit_recovery (ep : Episode) (gen : DiagGen) : Report :=
  {| rp_line := DebugRecovery; rp_class := fail_class <$> last ep; rp_gen := gen; rp_failures := Some (failures ep) |}.
Definition emit_failure (line : DiagLine) (class : ErrorClass) (gen : DiagGen) (n : option Z) : Report :=
  {| rp_line := line; rp_class := Some class; rp_gen := gen; rp_failures := n |}.

(** ** Observers *)

Definition replace_connected (gen : DiagGen) (d : PeerUdpDiagnostics) : list Report * PeerUdpDiagnostics :=
  let new := IdConnected <$> tracked gen in
  let ep := connected_ep d in
  let changed := negb (bool_decide (identity_of ep = new)) in
  ((if active ep && changed then [emit_closed ep gen] else []),
   if changed || bool_decide (new = None) then set_record (OnConnected gen None) (episode_named new) d else d).

Definition success_slow (t : Target) (d : PeerUdpDiagnostics) : list Report * PeerUdpDiagnostics :=
  match target_identity t with
  | None => ([], d)
  | Some id =>
      let ep := record t d in
      if bool_decide (identity_of ep = Some id) then
        ([emit_recovery ep (target_gen t)],
         set_record t {| identity_of := identity_of ep; active := false; announced := false; error_latched := error_latched ep; failures := 0; last := None |} d)
      else
        match t with
        | OnListener _ _ => ((if active ep then [emit_closed ep (target_gen t)] else []), set_record t (episode_named (Some id)) d)
        | OnConnected _ _ => ([], d)
        end
  end.

(** Whether a class, on such a path, is worth a WARN. *)
Definition eligible (site : Site) : bool := match provenance site with ConfiguredPeer | ConnectedRecv => true | Mixed | Unauthenticated => false end.
Definition actionable (class : ErrorClass) : bool := match class with Size | Route | Refused | Policy | Unknown => true | Transient | Lifecycle | Teardown => false end.

Definition untracked_line (t : Target) (class : ErrorClass) (el : bool) (now : Z) (l : Latches) (d : PeerUdpDiagnostics)
    : DiagLine * Latches * PeerUdpDiagnostics :=
  match class with
  | Lifecycle =>
      match t with
      | OnConnected _ _ =>
          if cooldown_open (last_error d) now ERROR_COOLDOWN then (ErrorConnected, l, set_anchors (last_warn d) (Some now) d) else (DebugFailure, l, d)
      | OnListener id _ => let '(first, l) := listener_error_first id now l in (if first then ErrorListener else DebugFailure, l, d)
      end
  | _ =>
      if actionable class && el then
        if cooldown_open (last_warn d) now WARN_COOLDOWN then (WarnOpening, l, set_anchors (Some now) (last_error d) d) else (DebugFailure, l, d)
      else (DebugFailure, l, d)
  end.

(** The episode's record with one more failure, and what was closed for it. *)
Definition count_failure (t : Target) (id : Identity) (f : Failure) (ep : Episode) : list Report * Episode :=
  let same := bool_decide (identity_of ep = Some id) in
  let closed := if negb same && active ep then [emit_closed ep (target_gen t)] else [] in
  let ep := if same then ep else episode_named (Some id) in
  let fresh := negb (active ep) in
  (closed,
   {| identity_of := identity_of ep; active := true; announced := if fresh then false else announced ep; error_latched := error_latched ep;
      failures := sat_add u32_max (if fresh then 0 else failures ep) 1; last := Some f |}).

Definition announce (latched : bool) (ep : Episode) : Episode :=
  {| identity_of := identity_of ep; active := active ep; announced := true; error_latched := error_latched ep || latched; failures := failures ep; last := last ep |}.

(** The line for a counted failure. *)
Definition tracked_line (t : Target) (class : ErrorClass) (el : bool) (now : Z) (l : Latches) (ep : Episode) (d : PeerUdpDiagnostics)
    : DiagLine * Latches * PeerUdpDiagnostics :=
  match class with
  | Lifecycle =>
      match t with
      | OnConnected _ _ =>
          if negb (error_latched ep) && cooldown_open (last_error d) now ERROR_COOLDOWN
          then (ErrorConnected, l, set_anchors (last_warn d) (Some now) (set_record t (announce true ep) d))
          else (DebugFailure, l, set_record t ep d)
      | OnListener id _ =>
          let '(first, l) := listener_error_first id now l in
          if first then (ErrorListener, l, set_record t (announce false ep) d) else (DebugFailure, l, set_record t ep d)
      end
  | _ =>
      if actionable class && el then
        if cooldown_open (last_warn d) now WARN_COOLDOWN
        then (if announced ep then WarnSummary else WarnOpening, l, set_anchors (Some now) (last_error d) (set_record t (announce false ep) d))
        else (DebugFailure, l, set_record t ep d)
      else (DebugFailure, l, set_record t ep d)
  end.

Definition failure (t : Target) (site : Site) (op : DiagOp) (e : SocketError) (retired : bool) (now : Z) (l : Latches) (d : PeerUdpDiagnostics)
    : list Report * Latches * PeerUdpDiagnostics :=
  match classify_error op e retired with
  | None => ([], l, d)
  | Some class =>
      let gen := target_gen t in
      match class, op with
      | Teardown, _ => ([emit_failure DebugRetired class gen None], l, d)
      | Transient, OpRecv => ([emit_failure DebugFailure class gen None], l, d)
      | _, _ =>
          match target_identity t with
          | None =>
              let '(line, l, d) := untracked_line t class (eligible site) now l d in
              ([emit_failure line class gen None], l, d)
          | Some id =>
              let '(closed, ep) := count_failure t id {| fail_class := class; fail_errno := os_error e |} (record t d) in
              let '(line, l, d) := tracked_line t class (eligible site) now l ep d in
              (closed ++ [emit_failure line class gen (Some (failures ep))], l, d)
          end
      end
  end.

(** [result] is the socket's answer, [None] when it took the datagram. *)
Definition observe_peer_send (t : Target) (site : Site) (result : option SocketError) (retired : bool) (now : Z) (l : Latches) (d : PeerUdpDiagnostics)
    : list Report * Latches * PeerUdpDiagnostics :=
  match result with
  | None => if active (record t d) then let '(out, d) := success_slow t d in (out, l, d) else ([], l, d)
  | Some e => failure t site OpSend e retired now l d
  end.
Definition observe_peer_recv_error (gen : DiagGen) (to : option SocketAddr) (e : SocketError) (retired : bool) (now : Z) (l : Latches) (d : PeerUdpDiagnostics)
    : list Report * Latches * PeerUdpDiagnostics :=
  failure (OnConnected gen to) SiteConnectedRecv OpRecv e retired now l d.
Definition observe_unauthenticated_send (id : ListenerId) (result : option SocketError) (now : Z) (l : Latches) : list Report * Latches :=
  match result with
  | None => ([], l)
  | Some e =>
      let class := default Unknown (classify_error OpSend e false) in
      match class with
      | Lifecycle =>
          let '(first, l) := listener_error_first id now l in
          ([emit_failure (if first then ErrorListener else DebugFailure) class (id_gen id) None], l)
      | _ => ([emit_failure DebugFailure class (id_gen id) None], l)
      end
  end.

(** ** A peer's observations, in order *)

Inductive Observation :=
| ObSend (t : Target) (site : Site) (result : option SocketError) (retired : bool)
| ObRecv (gen : DiagGen) (to : option SocketAddr) (e : SocketError) (retired : bool)
| ObReplace (gen : DiagGen).
Definition observe (now : Z) (l : Latches) (ob : Observation) (d : PeerUdpDiagnostics) : list Report * PeerUdpDiagnostics :=
  match ob with
  | ObSend t site result retired => let '(out, _, d) := observe_peer_send t site result retired now l d in (out, d)
  | ObRecv gen to e retired => let '(out, _, d) := observe_peer_recv_error gen to e retired now l d in (out, d)
  | ObReplace gen => replace_connected gen d
  end.

(** The latches are whatever the other peers have left of them. *)
Fixpoint watch (obs : list (Z * Latches * Observation)) (d : PeerUdpDiagnostics) : list (Z * Report) :=
  match obs with
  | [] => []
  | (now, l, ob) :: obs => let '(out, d) := observe now l ob d in map (pair now) out ++ watch obs d
  end.

(** The whole device: the observations of its peers, each with a record of its
    own, and of the replies to unauthenticated datagrams share the latches. *)
Inductive DeviceObservation :=
| OfPeer (peer : nat) (ob : Observation)
| OfReply (id : ListenerId) (result : option SocketError).

Definition observe_latched (now : Z) (l : Latches) (ob : Observation) (d : PeerUdpDiagnostics) : list Report * Latches * PeerUdpDiagnostics :=
  match ob with
  | ObSend t site result retired => observe_peer_send t site result retired now l d
  | ObRecv gen to e retired => observe_peer_recv_error gen to e retired now l d
  | ObReplace gen => let '(out, d) := replace_connected gen d in (out, l, d)
  end.
Definition observe_device (now : Z) (ob : DeviceObservation) (l : Latches) (peers : nat -> PeerUdpDiagnostics) : list Report * Latches * (nat -> PeerUdpDiagnostics) :=
  match ob with
  | OfPeer peer ob => let '(out, l, d) := observe_latched now l ob (peers peer) in (out, l, fun k => if (k =? peer)%nat then d else peers k)
  | OfReply id result => let '(out, l) := observe_unauthenticated_send id result now l in (out, l, peers)
  end.
Fixpoint watch_device (obs : list (Z * DeviceObservation)) (l : Latches) (peers : nat -> PeerUdpDiagnostics) : list (Z * DeviceObservation * Report) :=
  match obs with
  | [] => []
  | (now, ob) :: obs => let '(out, l, peers) := observe_device now ob l peers in map (pair (now, ob)) out ++ watch_device obs l peers
  end.

Definition is_listener_error (r : Report) : bool := match rp_line r with ErrorListener => true | _ => false end.

(** ** Cooldowns *)












(** ** Listener errors *)







(** The listener an observation is about, and that of a lifecycle failure on a
    listener. *)
Definition listener_of (ob : DeviceObservation) : option ListenerId :=
  match ob with OfPeer _ (ObSend (OnListener id _) _ _ _) | OfReply id _ => Some id | OfPeer _ _ => None end.

(** The ERROR lines about listeners in what the device logs: which listener,
    and when. *)
Definition listener_lines (tr : list (Z * DeviceObservation * Report)) : list (ListenerId * Z) :=
  omap (fun '(now, ob, r) => if is_listener_error r then (fun id => (id, now)) <$> listener_of ob else None) tr.


(** What an observation adds to those lines and to the latches: nothing, or
    what the latch of the faulty listener decides. *)
Definition latched (fault : option ListenerId) (now : Z) (out : list Report) (l l' : Latches) : Prop :=
  match fault with
  | Some id => exists first, listener_error_first id now l = (first, l') /\ length (List.filter is_listener_error out) = if first then 1%nat else 0%nat
  | None => List.filter is_listener_error out = [] /\ l' = l
  end.












(** A listener fails under two peers and under a reply, and so does the one
    that replaces it: two lines. *)
Definition ex_listener (g : Z) : ListenerId := {| family := FamilyV4; id_gen := Tracked g |}.
Definition ex_bad_socket : SocketError := {| kind := OtherKind; os_error := Some 9 |}.
Definition ex_failed_send (g : Z) : Observation := ObSend (OnListener (ex_listener g) (V4 (to_be 4 7), 51820)) TimerV4 (Some ex_bad_socket) false.
Example listener_lines_once :
  listener_lines (watch_device [(1, OfPeer 0 (ex_failed_send 1)); (2, OfPeer 1 (ex_failed_send 1)); (3, OfReply (ex_listener 1) (Some ex_bad_socket));
    (4, OfPeer 0 (ex_failed_send 1)); (5, OfReply (ex_listener 2) (Some ex_bad_socket)); (6, OfPeer 1 (ex_failed_send 2))] latches_new (fun _ => diag_default)) =
  [(ex_listener 1, 1); (ex_listener 2, 5)].
Proof. vm_compute. reflexivity. Qed.

(** ** Episodes, by their history *)

(** The failures an episode counts. *)
Definition counted (op : DiagOp) (e : SocketError) (retired : bool) : option Failure :=
  match classify_error op e retired, op with
  | None, _ | Some Teardown, _ | Some Transient, OpRecv => None
  | Some class, _ => Some {| fail_class := class; fail_errno := os_error e |}
  end.

(** A peer's sends on one kind of socket, by what they were about: failing
    since when, how often, how last. *)
Record Streak := { about : Identity; count : Z; latest : Failure }.
Inductive Ending := Resumed (s : Streak) | Abandoned (s : Streak).

Definition streak_failure (id : Identity) (f : Failure) (s : option Streak) : list Ending * option Streak :=
  match s with
  | Some s =>
      if bool_decide (about s = id) then ([], Some {| about := id; count := count s + 1; latest := f |})
      else ([Abandoned s], Some {| about := id; count := 1; latest := f |})
  | None => ([], Some {| about := id; count := 1; latest := f |})
  end.
Definition streak_success (on_listener : bool) (id : Identity) (s : option Streak) : list Ending * option Streak :=
  match s with
  | Some s => if bool_decide (about s = id) then ([Resumed s], None) else if on_listener then ([Abandoned s], None) else ([], Some s)
  | None => ([], None)
  end.
Definition streak_replaced (id : option Identity) (s : option Streak) : list Ending * option Streak :=
  match s with Some s => if bool_decide (Some (about s) = id) then ([], Some s) else ([Abandoned s], None) | None => ([], None) end.

(** The two kinds of socket have a streak each. *)
Definition on_listener (t : Target) : bool := match t with OnListener _ _ => true | OnConnected _ _ => false end.
Definition on_streak (listener : bool) (f : option Streak -> list Ending * option Streak) (ss : option Streak * option Streak) : list Ending * (option Streak * option Streak) :=
  if listener then let '(out, s) := f (snd ss) in (out, (fst ss, s)) else let '(out, s) := f (fst ss) in (out, (s, snd ss)).
Definition streaks (ob : Observation) (ss : option Streak * option Streak) : list Ending * (option Streak * option Streak) :=
  match ob with
  | ObSend t _ (Some e) retired =>
      match target_identity t, counted OpSend e retired with Some id, Some f => on_streak (on_listener t) (streak_failure id f) ss | _, _ => ([], ss) end
  | ObSend t _ None _ => match target_identity t with Some id => on_streak (on_listener t) (streak_success (on_listener t) id) ss | None => ([], ss) end
  | ObRecv gen _ e retired =>
      match tracked gen, counted OpRecv e retired with Some g, Some f => on_streak false (streak_failure (IdConnected g) f) ss | _, _ => ([], ss) end
  | ObReplace gen => on_streak false (streak_replaced (IdConnected <$> tracked gen)) ss
  end.

(** The endings a report tells of. *)
Definition ending_told (r : Report) : list (DiagLine * option ErrorClass * option Z) :=
  match rp_line r with DebugRecovery | DebugClosed => [(rp_line r, rp_class r, rp_failures r)] | _ => [] end.
Definition ending_due (e : Ending) : DiagLine * option ErrorClass * option Z :=
  match e with
  | Resumed s => (DebugRecovery, Some (fail_class (latest s)), Some (Z.min (count s) u32_max))
  | Abandoned s => (DebugClosed, Some (fail_class (latest s)), Some (Z.min (count s) u32_max))
  end.

Fixpoint told (obs : list (Z * Latches * Observation)) (d : PeerUdpDiagnostics) : list (DiagLine * option ErrorClass * option Z) :=
  match obs with
  | [] => []
  | (now, l, ob) :: obs => let '(out, d) := observe now l ob d in concat (map ending_told out) ++ told obs d
  end.
Fixpoint due (obs : list (Z * Latches * Observation)) (ss : option Streak * option Streak) : list (DiagLine * option ErrorClass * option Z) :=
  match obs with [] => [] | (_, _, ob) :: obs => let '(out, ss) := streaks ob ss in map ending_due out ++ due obs ss end.

(** An episode stands for a streak. *)
Definition stands (ep : Episode) (s : option Streak) : Prop :=
  match s with
  | Some s => active ep = true /\ identity_of ep = Some (about s) /\ last ep = Some (latest s) /\ failures ep = Z.min (count s) u32_max /\ 1 <= count s
  | None => active ep = false
  end.
Definition stand (d : PeerUdpDiagnostics) (ss : option Streak * option Streak) : Prop := stands (connected_ep d) (fst ss) /\ stands (listener_ep d) (snd ss).

Lemma count_stands t id f ep s : stands ep s -> let '(closed, ep') := count_failure t id f ep in let '(out, s') := streak_failure id f s in
  concat (map ending_told closed) = map ending_due out /\ stands ep' s'.
Proof.
  intros Hs. unfold count_failure, streak_failure. destruct s as [s|]; cbn [stands] in Hs.
  - destruct Hs as (Ha & Hi & Hl & Hf & Hc). rewrite Hi. destruct (decide (about s = id)) as [E|E].
    + rewrite !bool_decide_eq_true_2 by congruence. cbn. rewrite Ha. cbn. split_and!; try done; [by rewrite Hi, E|rewrite Hf; unfold sat_add; lia|lia].
    + rewrite !bool_decide_eq_false_2 by congruence. cbn. rewrite Ha. cbn. rewrite Hl, Hf. by split_and!.
  - destruct (bool_decide (identity_of ep = Some id)) eqn:E; cbn; rewrite ?Hs; cbn; [|by split_and!].
    apply bool_decide_eq_true in E. rewrite E. by split_and!.
Qed.

(** A line of a failure tells of no ending and leaves the episodes' standing. *)
Definition failure_line (line : DiagLine) : bool := match line with DebugRecovery | DebugClosed => false | _ => true end.
Lemma untracked_line_stands t class el now l d : let '(line, _, d') := untracked_line t class el now l d in
  failure_line line = true /\ connected_ep d' = connected_ep d /\ listener_ep d' = listener_ep d.
Proof.
  unfold untracked_line. destruct class, t as [gen to|id to], el; cbn; try done; try destruct (listener_error_first id now l) as [[] l']; try done.
  all: by destruct (cooldown_open _ now _).
Qed.
Lemma tracked_line_stands t class el now l ep d : let '(line, _, d') := tracked_line t class el now l ep d in
  failure_line line = true /\ exists ep', (ep' = ep \/ exists b, ep' = announce b ep) /\ connected_ep d' = connected_ep (set_record t ep' d) /\ listener_ep d' = listener_ep (set_record t ep' d).
Proof.
  assert (forall b ep', (ep' = ep \/ ep' = announce b ep) -> ep' = ep \/ exists b, ep' = announce b ep) as Hann by (intros b ep' [?|?]; [by left|right; by exists b]).
  unfold tracked_line. destruct class, t as [gen to|id to], el; cbn; try destruct (listener_error_first id now l) as [[] l']; cbn.
  all: repeat match goal with |- context [if ?b then _ else _] => destruct b; cbn end.
  all: (split; [done|]); first [exists ep; by split; [left|]|exists (announce true ep); by split; [right; exists true|]|exists (announce false ep); by split; [right; exists false|]].
Qed.
Lemma announced_stands b ep s : stands ep s -> stands (announce b ep) s.
Proof. by destruct s. Qed.

Lemma record_stands t ep d ss out s' : stand d ss -> stands ep s' -> stand (set_record t ep d) (snd (on_streak (on_listener t) (fun _ => (out, s')) ss)).
Proof. intros [Hc Hl] Hs. destruct t; by split. Qed.

Lemma failure_refines t site op e retired now l d ss : stand d ss -> let '(out, _, d') := failure t site op e retired now l d in
  let '(ends, ss') := match target_identity t, counted op e retired with Some id, Some f => on_streak (on_listener t) (streak_failure id f) ss | _, _ => ([], ss) end in
  concat (map ending_told out) = map ending_due ends /\ stand d' ss'.
Proof.
  intros Hs. unfold failure, counted. destruct (classify_error op e retired) as [class|]; [|by destruct (target_identity t)].
  assert (forall line gen n, failure_line line = true -> ending_told (emit_failure line class gen n) = []) as Htold by (by intros []).
  destruct (target_identity t) as [id|].
  - set (f := {| fail_class := class; fail_errno := os_error e |}).
    assert (stands (record t d) (if on_listener t then snd ss else fst ss)) as Hr by (destruct t; apply Hs).
    pose proof (count_stands t id f (record t d) _ Hr) as Hc. destruct (count_failure t id f (record t d)) as [closed ep].
    pose proof (tracked_line_stands t class (eligible site) now l ep d) as Hl. destruct (tracked_line t class (eligible site) now l ep d) as [[line l'] d'].
    destruct Hl as (Hline & ep' & Hep & E1 & E2).
    assert (let '(ends, ss') := on_streak (on_listener t) (streak_failure id f) ss in
      concat (map ending_told (closed ++ [emit_failure line class (target_gen t) (Some (failures ep))])) = map ending_due ends /\ stand d' ss') as Hmain.
    { unfold on_streak. destruct (streak_failure id f (if on_listener t then snd ss else fst ss)) as [ends s'] eqn:Es. destruct Hc as [Hc1 Hc2].
      assert (stands ep' s') as Hep' by (destruct Hep as [->|[b ->]]; [done|by apply announced_stands]).
      destruct t; cbn [on_listener] in *; rewrite Es, map_app, concat_app, Hc1; cbn; rewrite Htold, app_nil_r by done; (split; [done|]); split; rewrite ?E1, ?E2; cbn; done || apply Hs. }
    destruct class, op; done.
  - pose proof (untracked_line_stands t class (eligible site) now l d) as Hl. destruct (untracked_line t class (eligible site) now l d) as [[line l'] d'].
    destruct Hl as (Hline & E1 & E2). assert (stand d' ss) as Hd' by (split; rewrite ?E1, ?E2; apply Hs).
    destruct class, op; cbn [map concat app]; rewrite ?Htold by done; by split.
Qed.

Lemma success_refines t d ss : stand d ss -> let '(out, d') := (if active (record t d) then success_slow t d else ([], d)) in
  let '(ends, ss') := match target_identity t with Some id => on_streak (on_listener t) (streak_success (on_listener t) id) ss | None => ([], ss) end in
  concat (map ending_told out) = map ending_due ends /\ stand d' ss'.
Proof.
  intros Hs. unfold success_slow. destruct (target_identity t) as [id|]; [|by destruct (active (record t d))].
  assert (stands (record t d) (if on_listener t then snd ss else fst ss)) as Hr by (destruct t; apply Hs). destruct Hs as [Hc Hl].
  assert (forall s, bool_decide (identity_of (record t d) = Some id) = bool_decide (about s = id) \/ identity_of (record t d) <> Some (about s)) as Hid.
  { intros s. destruct (decide (identity_of (record t d) = Some (about s))) as [->|]; [left; apply bool_decide_ext; split; congruence|by right]. }
  unfold on_streak. destruct (if on_listener t then snd ss else fst ss) as [s|] eqn:Es; cbn in Hr.
  - destruct Hr as (Ha & Hi & Hla & Hf & Hn). rewrite Ha. destruct (Hid s) as [->|]; [|done].
    destruct t as [gen to|lid to]; cbn [on_listener record streak_success] in *; rewrite Es; cbn [streak_success]; destruct (bool_decide (about s = id)); cbn; rewrite ?Ha; cbn; rewrite ?Hla, ?Hf; done.
  - rewrite Hr. destruct t; cbn [on_listener] in *; by rewrite Es.
Qed.

Lemma replace_refines gen d ss : stand d ss -> let '(out, d') := replace_connected gen d in
  let '(ends, ss') := on_streak false (streak_replaced (IdConnected <$> tracked gen)) ss in concat (map ending_told out) = map ending_due ends /\ stand d' ss'.
Proof.
  intros [Hc Hl]. unfold replace_connected, on_streak. destruct (fst ss) as [s|]; cbn in Hc |- *.
  - destruct Hc as (Ha & Hi & Hla & Hf & Hn). rewrite Ha, Hi. destruct (bool_decide_reflect (Some (about s) = IdConnected <$> tracked gen)) as [E|E]; cbn; [|by rewrite Hla, Hf].
    rewrite <- E. by split.
  - rewrite Hc. cbn. split; [done|]. split; cbn; by destruct (_ || _).
Qed.

Lemma observe_refines now l ob d ss : stand d ss -> let '(out, d') := observe now l ob d in let '(ends, ss') := streaks ob ss in
  concat (map ending_told out) = map ending_due ends /\ stand d' ss'.
Proof.
  intros Hs. destruct ob as [t site [e|] retired|gen to e retired|gen]; cbn [observe streaks]; [| | |by apply replace_refines].
  - unfold observe_peer_send. pose proof (failure_refines t site OpSend e retired now l d ss Hs) as Hf. by destruct (failure _ _ _ _ _ _ _ _) as [[out l'] d'].
  - unfold observe_peer_send. pose proof (success_refines t d ss Hs) as Hf. destruct (active (record t d)); [|done]. by destruct (success_slow t d).
  - unfold observe_peer_recv_error. pose proof (failure_refines (OnConnected gen to) SiteConnectedRecv OpRecv e retired now l d ss Hs) as Hf.
    destruct (failure _ _ _ _ _ _ _ _) as [[out l'] d']. cbn in Hf. by destruct (tracked gen).
Qed.

(** C37. The episodes a peer's diagnostics keep are the streaks of failures that
    its history has. Over every sequence of sends, receive errors and socket
    replacements, the recoveries and closings that are logged are, in order,
    those of the streaks: consecutive counted failures about one socket (and
    one destination, on a listener) make a streak, which a send that goes
    through ends as a recovery, and which a failure about another socket, a
    send to another destination or a replaced socket abandons; each line
    carries the streak's own count of failures and the class of its last, and
    no failure is told in two streaks. *)
Theorem episodes_refine obs : told obs diag_default = due obs (None, None).
Proof.
  assert (stand diag_default (None, None)) as Hs by done. revert Hs. generalize diag_default as d, ((None, None) : option Streak * option Streak) as ss.
  induction obs as [|[[now l] ob] obs IH]; intros d ss Hs; [done|]. cbn [told due]. pose proof (observe_refines now l ob d ss Hs) as Ho.
  destruct (observe now l ob d) as [out d'], (streaks ob ss) as [ends ss']. destruct Ho as [-> Hs']. by rewrite (IH d' ss').
Qed.

(** Three refusals and a send that goes through, on a connected socket: a
    warning, two lines in its cooldown, a recovery that counts three. *)
Lemma episode_example :
  let refused := Some {| kind := OtherKind; os_error := Some 111 |} in
  let send r := (from_secs 1, latches_new, ObSend (OnConnected (Tracked 1) None) TimerV4 r false) in
  map (fun x => (rp_line (snd x), rp_failures (snd x))) (watch [send refused; send refused; send refused; send None] diag_default) =
  [(WarnOpening, Some 1); (DebugFailure, Some 2); (DebugFailure, Some 3); (DebugRecovery, Some 3)].
Proof. reflexivity. Qed.

(** ** Generations are never given twice *)

Fixpoint allocations (n : nat) (next : Z) : list DiagGen :=
  match n with O => [] | S n => let '(g, next) := allocate next in g :: allocations n next end.
Lemma allocations_from n next (i : nat) g : 1 <= next <= u64_max -> allocations n next !! i = Some (Tracked g) -> g = next + Z.of_nat i /\ g <= u64_max.
Proof.
  revert next i. induction n as [|n IH]; intros next i Hn Hi; [done|]. cbn [allocations] in Hi. unfold allocate in Hi. destruct (Z.eqb_spec next 0); [lia|].
  destruct i as [|i]; cbn in Hi; [injection Hi as <-; lia|]. destruct (Z.eqb_spec next u64_max) as [->|].
  - exfalso. clear IH. revert i Hi. induction n as [|n IH]; intros i Hi; [done|]. destruct i as [|i]; [done|]. by apply (IH i).
  - apply (IH (next + 1)) in Hi; lia.
Qed.
