(* ===== verification/ImitationHints.v ===== *)
(** The device's table of camouflage evidence, [device/imitation_auto.rs]: in
    auto mode, which protocol each unauthenticated source last imitated. One
    entry per source, at most 1024 of them, each live for thirty seconds.

    The table is a map with a queue of its keys. The reference is the map of
    its live entries, [live]; the queue is how the code finds the dead and the
    oldest ones. Each operation runs under the table's mutex, with one clock
    reading [now]. *)

From stdpp Require Import gmap sorting.
From S2P Require Import Prelude Instant Rand Crypto Tags Packet Amnezia Framing Stun Imitation ReplyPolicy ProbeBudget ProbeReply Dns.

#[export] Instance byte_countable : Countable Init.Byte.byte := inj_countable' byte.unsigned byte.of_Z byte.of_Z_unsigned.
#[export] Instance IpAddr_countable : Countable IpAddr.
Proof.
  refine (inj_countable' (fun ip => match ip with V4 o => inl o | V6 o => inr o end)
    (fun s => match s with inl o => V4 o | inr o => V6 o end) _). by intros [].
Defined.
#[export] Instance SocketAddr_eq_dec : EqDecision SocketAddr := _ : EqDecision (IpAddr * Z).
#[export] Instance SocketAddr_countable : Countable SocketAddr := _ : Countable (IpAddr * Z).

Definition MAX_HINTS : nat := 1024.

Record Pending := {
  by_source : gmap SocketAddr Hint;
  order : list SocketAddr;
}.

Definition pending_default : Pending := {| by_source := ∅; order := [] |}.

Definition pop_oldest (p : Pending) : Pending :=
  match order p with
  | [] => p
  | source :: rest => {| by_source := delete source (by_source p); order := rest |}
  end.

(** The loop pops one entry each time round: the queue's length is fuel
    enough, and the loop leaves by itself ([expire_spec]). *)
Fixpoint expire_loop (fuel : nat) (now : Z) (p : Pending) : outcome Pending :=
  match order p with
  | [] => Ret p
  | source :: _ =>
      match by_source p !! source with
      | None => Panic
      | Some hint =>
          if hint_is_live now hint then Ret p
          else match fuel with O => Panic | S fuel => expire_loop fuel now (pop_oldest p) end
      end
  end.
Definition hints_expire (now : Z) (p : Pending) : outcome Pending := expire_loop (length (order p)) now p.

Definition hints_observe (now : Z) (source : SocketAddr) (datagram : bytes) (p : Pending) : outcome Pending :=
  match hint_detect now datagram with
  | None => Ret p
  | Some hint =>
      let! p := hints_expire now p in
      if bool_decide (is_Some (by_source p !! source)) then Ret p else
      let p := if (length (order p) =? MAX_HINTS)%nat then pop_oldest p else p in
      Ret {| by_source := <[source := hint_new now (hint_protocol hint)]> (by_source p); order := order p ++ [source] |}
  end.

Definition hints_get (now : Z) (source : SocketAddr) (p : Pending) : outcome (option AmneziaImitationProtocol * Pending) :=
  let! p := hints_expire now p in
  Ret (hint_protocol <$> by_source p !! source, p).

Definition discard (source : SocketAddr) (p : Pending) : Pending :=
  match by_source p !! source with
  | None => p
  | Some _ => {| by_source := delete source (by_source p); order := filter (fun entry => entry <> source) (order p) |}
  end.

Definition hints_clear (p : Pending) : Pending := pending_default.

Definition observe_refused (now : Z) (datagram : bytes) (amnezia : AmneziaConfig) (source : SocketAddr) (p : Pending) : outcome Pending :=
  if bool_decide (protocol (imitation amnezia) = ProtoAuto) then hints_observe now source datagram p else Ret p.

Definition cookie_config (now : Z) (amnezia : AmneziaConfig) (source : SocketAddr) (datagram : bytes) (p : Pending)
    : outcome (AmneziaConfig * Pending) :=
  if negb (bool_decide (protocol (imitation amnezia) = ProtoAuto)) then Ret (amnezia, p) else
  let! (got, p) := hints_get now source p in
  let found := match got with Some x => Some x | None => hint_protocol <$> hint_detect now datagram end in
  Ret (resolve_imitation amnezia (from_option id ProtoNone found), p).

Section Listener.
Context `{Crypto} {R : Type} `{RngCore R}.

Definition hints_classify (now millis : Z) (datagram : bytes) (amnezia : AmneziaConfig) (obf : ObfuscationRanges) (source : SocketAddr)
    (responder : option ProbeResponder) (rng : R) (p : Pending) : outcome (Ingress * option ProbeResponder * R * Pending) :=
  let '(ingress, responder, rng) := classify millis datagram amnezia obf source responder rng in
  let! p :=
    if bool_decide (protocol (imitation amnezia) = ProtoAuto) && negb (match ingress with Wireguard _ => true | _ => false end)
    then hints_observe now source datagram p else Ret p in
  Ret (ingress, responder, rng, p).
End Listener.

(** ** The invariant *)

Definition before (m : gmap SocketAddr Hint) (s1 s2 : SocketAddr) : Prop :=
  forall h1 h2, m !! s1 = Some h1 -> m !! s2 = Some h2 -> hint_received h1 <= hint_received h2.

(** The queue holds the map's keys, each once, oldest first. *)
Record hints_ok (now : Z) (p : Pending) : Prop := {
  ho_nodup : NoDup (order p);
  ho_dom : forall s, s ∈ order p <-> is_Some (by_source p !! s);
  ho_len : (length (order p) <= MAX_HINTS)%nat;
  ho_sorted : StronglySorted (before (by_source p)) (order p);
  ho_past : map_Forall (fun _ h => hint_received h <= now) (by_source p);
}.

(** What the table knows at [now]. *)
Definition live (now : Z) (p : Pending) : gmap SocketAddr Hint := filter (fun e => hint_is_live now (snd e) = true) (by_source p).

Lemma hints_ok_default now : hints_ok now pending_default.
Proof.
  split; cbn; [constructor| |unfold MAX_HINTS; lia|constructor|apply map_Forall_empty].
  intros s. rewrite lookup_empty. split; [intros H; by apply elem_of_nil in H|by intros []].
Qed.

Lemma hints_ok_later now t p : now <= t -> hints_ok now p -> hints_ok t p.
Proof. intros Hle [? ? ? ? Hp]. split; try done. intros s h Hh. specialize (Hp s h Hh). cbn in Hp. lia. Qed.

Lemma before_delete m s l : StronglySorted (before m) l -> StronglySorted (before (delete s m)) l.
Proof.
  assert (forall s1 s2, before m s1 s2 -> before (delete s m) s1 s2) as Hb.
  { intros s1 s2 Hb h1 h2 [_ H1]%lookup_delete_Some [_ H2]%lookup_delete_Some. by apply Hb. }
  induction 1 as [|a l Hl IH Hf]; constructor; [done|]. eapply Forall_impl; [exact Hf|]. auto.
Qed.

Lemma pop_oldest_ok now p : hints_ok now p -> hints_ok now (pop_oldest p).
Proof.
  intros [Hn Hd Hl Hs Hp]. destruct p as [m [|s rest]]; [done|]. cbn [order by_source] in *.
  apply NoDup_cons in Hn as [Hni Hn]. apply StronglySorted_inv in Hs as [Hs _].
  split; cbn [pop_oldest order by_source]; [done| |cbn in Hl; lia|by apply before_delete|by apply map_Forall_delete].
  intros s'. specialize (Hd s'). rewrite elem_of_cons in Hd. destruct (decide (s' = s)) as [->|Hne].
  - rewrite lookup_delete_eq. split; [done|by intros []].
  - rewrite lookup_delete_ne by done. rewrite <- Hd. split; [by right|by intros [?|?]].
Qed.

Lemma live_later now t h : now <= t -> hint_is_live t h = true -> hint_is_live now h = true.
Proof. unfold hint_is_live, duration_since, sat_sub. rewrite !Z.ltb_lt. lia. Qed.

Lemma live_younger now h h' : hint_received h <= hint_received h' -> hint_is_live now h = true -> hint_is_live now h' = true.
Proof. unfold hint_is_live, duration_since, sat_sub. rewrite !Z.ltb_lt. lia. Qed.

(** Popping until the front is live leaves exactly the live entries. *)
Lemma expire_spec now t p : hints_ok t p -> t <= now ->
  exists p', hints_expire now p = Ret p' /\ hints_ok now p' /\ by_source p' = live now p.
Proof.
  intros Hok Hle. apply (hints_ok_later _ now) in Hok; [|done]. clear t Hle. unfold hints_expire.
  assert (length (order p) <= length (order p))%nat as Hf by done. revert Hf. generalize (length (order p)) at 2 3. intros fuel.
  revert p Hok. induction fuel as [|fuel IH]; intros p Hok Hf; destruct p as [m [|s rest]]; cbn [length order] in Hf; try lia.
  1,2: exists {| by_source := m; order := [] |}; split; [done|]; split; [done|]; symmetry; apply map_filter_id;
    intros s h Hh; pose proof (proj2 (ho_dom _ _ Hok s) (ex_intro _ h Hh)) as Hin; by apply elem_of_nil in Hin.
  - destruct (proj1 (ho_dom _ _ Hok s)) as [h Hh]; [by left|]. cbn [by_source] in Hh. cbn [expire_loop order by_source]. rewrite Hh.
    destruct (hint_is_live now h) eqn:Hlive.
    + eexists. split; [done|]. split; [done|]. unfold live. cbn [by_source]. symmetry. apply map_filter_id. intros s' h' Hh'. cbn [snd].
      pose proof (proj2 (ho_dom _ _ Hok s') (ex_intro _ h' Hh')) as Hin. cbn [order] in Hin. apply elem_of_cons in Hin as [->|Hin]; [congruence|].
      pose proof (ho_sorted _ _ Hok) as Hs. apply StronglySorted_inv in Hs as [_ Hs]. rewrite Forall_forall in Hs.
      by apply live_younger with h; [apply (Hs s' Hin)|].
    + destruct (IH _ (pop_oldest_ok _ _ Hok)) as (p' & -> & Hok' & Hm); [cbn; lia|]. exists p'. split; [done|]. split; [done|]. rewrite Hm.
      unfold live. cbn [pop_oldest order by_source]. apply map_filter_delete_not. intros h' Hh'. rewrite Hh in Hh'. injection Hh' as <-. cbn. congruence.
Qed.

(** ** The operations, against the live entries *)

(** Making room: nothing when the table has any, else its oldest entry goes. *)
Definition makes_room (m m' : gmap SocketAddr Hint) : Prop :=
  (size m < MAX_HINTS)%nat /\ m' = m \/
  size m = MAX_HINTS /\ exists s h, m !! s = Some h /\ m' = delete s m /\ map_Forall (fun _ h' => hint_received h <= hint_received h') m.

Lemma size_order now p : hints_ok now p -> size (by_source p) = length (order p).
Proof.
  intros Hok. rewrite <- size_dom. rewrite <- (size_list_to_set (C := gset SocketAddr) (order p)) by apply Hok. f_equal.
  apply set_eq. intros s. rewrite elem_of_dom, elem_of_list_to_set. symmetry. apply (ho_dom _ _ Hok).
Qed.

Lemma make_room now p : hints_ok now p ->
  let p' := if (length (order p) =? MAX_HINTS)%nat then pop_oldest p else p in
  hints_ok now p' /\ (length (order p') < MAX_HINTS)%nat /\ makes_room (by_source p) (by_source p').
Proof.
  intros Hok p'. pose proof (ho_len _ _ Hok) as Hl. pose proof (size_order _ _ Hok) as Hs. unfold p', makes_room. rewrite Hs.
  destruct (Nat.eqb_spec (length (order p)) MAX_HINTS) as [He|He]; [|split; [done|split; [lia|left; split; [lia|done]]]].
  split; [by apply pop_oldest_ok|]. destruct p as [m [|s rest]]; cbn [order length pop_oldest] in *; [done|].
  split; [lia|]. right. split; [done|]. destruct (proj1 (ho_dom _ _ Hok s)) as [h Hh]; [by left|]. exists s, h. split; [done|]. split; [done|].
  intros s' h' Hh'. pose proof (proj2 (ho_dom _ _ Hok s') (ex_intro _ h' Hh')) as Hin. cbn [order] in Hin. apply elem_of_cons in Hin as [->|Hin].
  - cbn [by_source] in *. rewrite Hh in Hh'. by injection Hh' as <-.
  - pose proof (ho_sorted _ _ Hok) as Hsort. apply StronglySorted_inv in Hsort as [_ Hsort]. rewrite Forall_forall in Hsort. by apply (Hsort s' Hin).
Qed.

Lemma before_insert m s h l : s ∉ l -> StronglySorted (before m) l -> StronglySorted (before (<[s := h]> m)) l.
Proof.
  induction l as [|a l IH]; intros Hni Hs; [constructor|]. apply not_elem_of_cons in Hni as [Hna Hni].
  apply StronglySorted_inv in Hs as [Hs Hf]. constructor; [by apply IH|]. rewrite Forall_forall in Hf |- *. intros b Hb h1 h2.
  rewrite !lookup_insert_ne by set_solver. by apply Hf.
Qed.

(** A new entry goes to the back with the present time. *)
Lemma push_back_ok now source proto p :
  hints_ok now p -> by_source p !! source = None -> (length (order p) < MAX_HINTS)%nat ->
  hints_ok now {| by_source := <[source := hint_new now proto]> (by_source p); order := order p ++ [source] |}.
Proof.
  intros [Hn Hd Hl Hs Hp] Hnone Hlt. assert (source ∉ order p) as Hni by (intros [h Hh]%Hd; congruence).
  split; cbn [order by_source].
  - apply NoDup_app. split; [done|]. split; [|by apply NoDup_singleton]. intros x Hx Hx'%list_elem_of_singleton. by subst.
  - intros s. rewrite elem_of_app, list_elem_of_singleton, Hd. destruct (decide (s = source)) as [->|Hne].
    + rewrite lookup_insert_eq. split; [done|by right].
    + rewrite lookup_insert_ne by done. split; [by intros [?|?]|by left].
  - rewrite length_app. cbn. lia.
  - apply StronglySorted_app_2; [|by apply before_insert|by repeat constructor].
    intros s1 s2 H1 ->%list_elem_of_singleton h1 h2. assert (s1 <> source) by (intros ->; done).
    rewrite lookup_insert_ne, lookup_insert_eq by done. intros Hh1 [= <-]. exact (Hp s1 h1 Hh1).
  - apply map_Forall_insert_2; [cbn; lia|done].
Qed.

Lemma live_lookup now p s h : live now p !! s = Some h <-> by_source p !! s = Some h /\ hint_is_live now h = true.
Proof. unfold live. by rewrite map_lookup_filter_Some. Qed.

(** A map whose entries are live is all there is to see of it. *)
Lemma live_all now p : map_Forall (fun _ h => hint_is_live now h = true) (by_source p) -> live now p = by_source p.
Proof. intros Hl. apply map_filter_id. intros s h Hh. exact (Hl s h Hh). Qed.

Lemma live_live now p : map_Forall (fun _ h => hint_is_live now h = true) (live now p).
Proof. intros s h Hh. by apply live_lookup in Hh as [_ ?]. Qed.

Lemma hints_get_spec now t source p : hints_ok t p -> t <= now ->
  exists p', hints_get now source p = Ret (hint_protocol <$> live now p !! source, p') /\ hints_ok now p' /\ live now p' = live now p.
Proof.
  intros Hok Hle. destruct (expire_spec now t p Hok Hle) as (p' & He & Hok' & Hm). exists p'. unfold hints_get. rewrite He. cbn [obind].
  rewrite Hm. split; [done|]. split; [done|]. rewrite live_all; [done|]. rewrite Hm. apply live_live.
Qed.

Lemma hints_observe_spec now t source d p : hints_ok t p -> t <= now ->
  exists p', hints_observe now source d p = Ret p' /\ hints_ok now p' /\
    match detect d, live now p !! source with
    | Some probe, None => exists m, makes_room (live now p) m /\ live now p' = <[source := hint_new now (probe_protocol probe)]> m
    | _, _ => live now p' = live now p
    end.
Proof.
  intros Hok Hle. unfold hints_observe, hint_detect. destruct (detect d) as [probe|]; [|exists p; by split_and!; [..|eapply hints_ok_later|]].
  destruct (expire_spec now t p Hok Hle) as (p1 & -> & Hok1 & Hm). cbn [obind hint_protocol hint_new]. rewrite <- Hm.
  assert (map_Forall (fun _ h => hint_is_live now h = true) (by_source p1)) as Hall by (rewrite Hm; apply live_live).
  case_bool_decide as Hsome; destruct (by_source p1 !! source) as [h|] eqn:Hs; try (by destruct Hsome); try (by exfalso; apply Hsome).
  { exists p1. split; [done|]. split; [done|]. by apply live_all. }
  pose proof (make_room now p1 Hok1) as Hroom. cbv zeta in Hroom. set (p2 := if (length (order p1) =? MAX_HINTS)%nat then pop_oldest p1 else p1) in *. destruct Hroom as (Hok2 & Hl2 & Hr).
  assert (by_source p2 !! source = None) as Hnone.
  { destruct Hr as [[_ ->]|(_ & s & h & _ & -> & _)]; [done|]. by rewrite lookup_delete_None; right. }
  eexists. split; [done|]. split; [by apply push_back_ok|]. exists (by_source p2). split; [done|]. rewrite live_all; [done|]. cbn [by_source].
  apply map_Forall_insert_2; [unfold hint_is_live, duration_since, sat_sub; cbn; by rewrite Z.sub_diag|].
  destruct Hr as [[_ ->]|(_ & s & h & _ & -> & _)]; [done|]. by apply map_Forall_delete.
Qed.

Lemma sorted_filter (r : relation SocketAddr) s l : StronglySorted r l -> StronglySorted r (filter (fun x => x <> s) l).
Proof.
  induction 1 as [|a l _ IH Hf]; [constructor|]. rewrite filter_cons. destruct (decide (a <> s)); [|done].
  constructor; [done|]. rewrite Forall_forall in Hf |- *. intros x [_ Hx]%list_elem_of_filter. by apply Hf.
Qed.

Lemma discard_spec now source p : hints_ok now p -> hints_ok now (discard source p) /\ live now (discard source p) = delete source (live now p).
Proof.
  intros Hok. unfold discard. destruct (by_source p !! source) as [h|] eqn:Hs.
  - split; [|unfold live; cbn [by_source]; apply map_filter_delete]. destruct Hok as [Hn Hd Hl Hst Hp]. split; cbn [order by_source].
    + by apply NoDup_filter.
    + intros s. rewrite list_elem_of_filter, Hd. destruct (decide (s = source)) as [->|Hne].
      * rewrite lookup_delete_eq. split; [by intros [? _]|by intros []].
      * rewrite lookup_delete_ne by done. split; [by intros [_ ?]|done].
    + pose proof (length_filter (fun entry => entry <> source) (order p)). lia.
    + apply before_delete. by apply sorted_filter.
    + by apply map_Forall_delete.
  - split; [done|]. rewrite delete_id; [done|]. apply eq_None_not_Some. intros [h [Hh _]%live_lookup]. congruence.
Qed.

(** ** Sequences of operations *)

Inductive HintOp :=
| HObserve (source : SocketAddr) (datagram : bytes)
| HGet (source : SocketAddr)
| HDiscard (source : SocketAddr)
| HClear.

Definition hint_step (now : Z) (op : HintOp) (p : Pending) : outcome Pending :=
  match op with
  | HObserve source datagram => hints_observe now source datagram p
  | HGet source => let! (_, p) := hints_get now source p in Ret p
  | HDiscard source => Ret (discard source p)
  | HClear => Ret (hints_clear p)
  end.

Fixpoint hints_run (ops : list (Z * HintOp)) (p : Pending) : outcome Pending :=
  match ops with
  | [] => Ret p
  | (now, op) :: ops => let! p := hint_step now op p in hints_run ops p
  end.

(** The clock of the operations does not run backwards, from [t] to [t']. *)
Fixpoint clocked (t : Z) (ops : list (Z * HintOp)) (t' : Z) : Prop :=
  match ops with
  | [] => t <= t'
  | (now, _) :: ops => t <= now /\ clocked now ops t'
  end.

Lemma hints_run_ok ops t t' p : clocked t ops t' -> hints_ok t p -> exists p', hints_run ops p = Ret p' /\ hints_ok t' p'.
Proof.
  revert t p. induction ops as [|[now op] ops IH]; cbn [clocked hints_run]; intros t p Hc Hok.
  - exists p. split; [done|]. by apply hints_ok_later with t.
  - destruct Hc as [Hle Hc]. assert (exists p', hint_step now op p = Ret p' /\ hints_ok now p') as (p' & -> & Hok'); [|by apply (IH now)].
    destruct op as [source d|source|source|]; cbn [hint_step].
    + destruct (hints_observe_spec now t source d p Hok Hle) as (p' & ? & ? & _). by exists p'.
    + destruct (hints_get_spec now t source p Hok Hle) as (p' & -> & ? & _). by exists p'.
    + eexists. split; [done|]. by apply discard_spec, hints_ok_later with t.
    + eexists. split; [done|]. apply hints_ok_default.
Qed.

(** C39. The evidence table is a bounded map of live entries. After any sequence
    of operations none of which has read a later clock, the table holds at
    most 1024 sources, and each operation does on its live entries what a map
    does: [get] looks one up; [discard] removes one; [observe] keeps the first
    evidence of a source while that is live, and else records the present one,
    giving up the oldest entry of all when 1024 are live and no entry
    otherwise. None of them panics: the queue's front is always in the map. *)
Theorem hints_refine_map ops t now source d :
  clocked t ops now ->
  exists p, hints_run ops pending_default = Ret p /\ (size (by_source p) <= MAX_HINTS)%nat /\
  (exists p', hints_get now source p = Ret (hint_protocol <$> live now p !! source, p') /\ live now p' = live now p) /\
  (exists p', hints_observe now source d p = Ret p' /\
     match detect d, live now p !! source with
     | Some probe, None => exists m, makes_room (live now p) m /\ live now p' = <[source := hint_new now (probe_protocol probe)]> m
     | _, _ => live now p' = live now p
     end) /\
  live now (discard source p) = delete source (live now p).
Proof.
  intros Hc. destruct (hints_run_ok ops t now pending_default Hc (hints_ok_default t)) as (p & Hp & Hok). exists p. split; [done|].
  split; [rewrite (size_order now) by done; apply Hok|].
  destruct (hints_get_spec now now source p Hok ltac:(lia)) as (p1 & ? & _ & ?).
  destruct (hints_observe_spec now now source d p Hok ltac:(lia)) as (p2 & ? & _ & ?).
  split; [by exists p1|]. split; [by exists p2|]. by apply discard_spec.
Qed.

Section Evidence.
Context `{Crypto} {R : Type} `{RngCore R}.

(** Auto mode learns from what it does not answer. A datagram that has no
    WireGuard reading and looks like a probe, from a source with no live
    evidence, is recorded whether or not probe replies are on and paid for;
    for thirty seconds a cookie to that source is camouflaged as that
    protocol, and after that the evidence is gone. *)
Theorem evidence_lifetime now t millis d c obf source responder (rng : R) p probe :
  hints_ok now p -> now <= t -> protocol (imitation c) = ProtoAuto ->
  inbound_candidates c obf d = [] -> detect d = Some probe -> live now p !! source = None ->
  exists ingress r' rng' p' p1 p2, hints_classify now millis d c obf source responder rng p = Ret (ingress, r', rng', p') /\
    hints_get t source p' = Ret ((if t - now <? HINT_LIFETIME then Some (probe_protocol probe) else None), p1) /\
    cookie_config t c source [] p' = Ret (resolve_imitation c (if t - now <? HINT_LIFETIME then probe_protocol probe else ProtoNone), p2).
Proof.
  intros Hok Hle Hauto Hc Hd Hnone. unfold hints_classify, classify. rewrite Hc, bool_decide_eq_false_2 by by intros [].
  destruct (hints_observe_spec now now source d p Hok ltac:(lia)) as (p' & Ho & Hok' & Hp'). rewrite Hd, Hnone in Hp'.
  destruct Hp' as (m & _ & Hlive).
  assert (hint_protocol <$> live t p' !! source = if t - now <? HINT_LIFETIME then Some (probe_protocol probe) else None) as Hget.
  { assert (by_source p' !! source = Some (hint_new now (probe_protocol probe))) as Hs.
    { apply (live_lookup now). by rewrite Hlive, lookup_insert_eq. }
    unfold live. rewrite map_lookup_filter, Hs. cbn. unfold hint_is_live, duration_since, sat_sub. cbn [hint_received hint_new].
    rewrite Z.max_r by lia. by destruct (t - now <? HINT_LIFETIME). }
  destruct (hints_get_spec t now source p' Hok' Hle) as (p1 & Hg & _ & _). rewrite Hget in Hg.
  assert (exists p2, cookie_config t c source [] p' = Ret (resolve_imitation c (if t - now <? HINT_LIFETIME then probe_protocol probe else ProtoNone), p2)) as [p2 Hck].
  { unfold cookie_config. rewrite bool_decide_eq_true_2, Hg by done. cbn [negb obind]. exists p1. by destruct (t - now <? HINT_LIFETIME). }
  rewrite Hauto, Ho. destruct responder as [r|].
  - destruct (reply_to _ _ _ _ _ _) as [[[reply|] r'] rng']; cbn; by do 6 eexists.
  - cbn. by do 6 eexists.
Qed.
End Evidence.

(** ** Witnesses *)

Import Toy CounterRng SampleEnv.

Lemma hints_refine_map_witness :
  let seen := [(10, HObserve ex_from ex_query); (20, HGet ex_from)] in
  exists p, hints_run seen pending_default = Ret p /\ (size (by_source p) <= MAX_HINTS)%nat /\
    live 25 (discard ex_from p) = delete ex_from (live 25 p).
Proof.
  intros seen. destruct (hints_refine_map seen 5 25 ex_from ex_query) as (p & H1 & H2 & _ & _ & H3); [cbn; lia|].
  exists p. split; [exact H1|]. split; [exact H2|exact H3].
Defined.

Definition ex_auto_config : AmneziaConfig := set_imitation (imitation_new ProtoAuto None BrowserDefault) (config_new 0 0 0 0).

Lemma evidence_lifetime_witness :
  exists ingress r' rng' p' p1, hints_classify 10 0 ex_query ex_auto_config obf_default ex_from None 3 pending_default = Ret (ingress, r', rng', p') /\
    hints_get 500 ex_from p' = Ret (Some ProtoDns, p1).
Proof.
  destruct (evidence_lifetime 10 500 0 ex_query ex_auto_config obf_default ex_from None 3 pending_default ProbeDns)
    as (ingress & r' & rng' & p' & p1 & _ & H1 & H2 & _).
  - apply hints_ok_default.
  - lia.
  - reflexivity.
  - vm_compute. reflexivity.
  - vm_compute. reflexivity.
  - reflexivity.
  - exists ingress, r', rng', p', p1. split; [exact H1|exact H2].
Defined.
