(* ===== verification/AllowedIps.v ===== *)
(** Which peer an address belongs to, [device/allowed_ips.rs]: a table from
    networks to peers, searched for the longest prefix.

    The networks and the table itself are crates outside the repository
    (ip_network, ip_network_table): they are the class [NetworkTable], and what
    their documentation promises is [NetworkTableLaws]. [ListTable] is an
    instance, an association list. *)

From stdpp Require Import gmap.
From S2P Require Import Prelude Packet ReplyPolicy ImitationHints.

(** The number of bits of an address, and whether two agree on the first [n]. *)
Definition ip_bits (ip : IpAddr) : Z := match ip with V4 _ => 32 | V6 _ => 128 end.
Definition same_prefix (n : Z) (a b : IpAddr) : bool :=
  match a, b with
  | V4 x, V4 y => of_be x / 2 ^ (32 - n) =? of_be y / 2 ^ (32 - n)
  | V6 x, V6 y => of_be x / 2 ^ (128 - n) =? of_be y / 2 ^ (128 - n)
  | _, _ => false
  end.

Class NetworkTable := {
  Network : Type;
  network_eq_dec :: EqDecision Network;
  network_countable :: Countable Network;
  (** [IpNetwork::new_truncate], [contains], [network_address], [netmask] *)
  new_truncate : IpAddr -> Z -> option Network;
  net_contains : Network -> IpAddr -> bool;
  network_address : Network -> IpAddr;
  netmask : Network -> Z;
  (** [IpNetworkTable::new], [insert], [longest_match], [retain], [iter] *)
  Table : Type -> Type;
  table_new {D} : Table D;
  table_insert {D} : Network -> D -> Table D -> option D * Table D;
  longest_match {D} : IpAddr -> Table D -> option (Network * D);
  table_retain {D} : (Network -> D -> bool) -> Table D -> Table D;
  table_iter {D} : Table D -> list (Network * D);
}.

(** A table's entries, as [iter] gives them. *)
Definition entries `{NetworkTable} {D} (t : Table D) : gmap Network D := list_to_map (table_iter t).

Class NetworkTableLaws `{NetworkTable} : Prop := {
  (** A length the family has is accepted, and names the addresses that share
      that many bits; the host bits are dropped. *)
  truncate_some ip n : ip_ok ip -> is_Some (new_truncate ip n) <-> 0 <= n <= ip_bits ip;
  truncate_contains ip n net ip' : ip_ok ip -> ip_ok ip' -> new_truncate ip n = Some net -> net_contains net ip' = same_prefix n ip ip';
  truncate_netmask ip n net : new_truncate ip n = Some net -> netmask net = n;
  truncate_same ip ip' n : ip_ok ip -> ip_ok ip' -> same_prefix n ip ip' = true -> new_truncate ip n = new_truncate ip' n;
  network_truncated net : ip_ok (network_address net) /\ new_truncate (network_address net) (netmask net) = Some net;
  (** The table is a map. *)
  iter_nodup {D} (t : Table D) : NoDup (table_iter t).*1;
  new_entries {D} : entries (table_new (D := D)) = ∅;
  insert_entries {D} net (d : D) t : table_insert net d t = (entries t !! net, snd (table_insert net d t)) /\
    entries (snd (table_insert net d t)) = <[net := d]> (entries t);
  retain_entries {D} f (t : Table D) : entries (table_retain f t) = filter (fun e => f (fst e) (snd e) = true) (entries t);
  (** The longest entry that contains the address. *)
  longest_match_some {D} ip (t : Table D) net d : longest_match ip t = Some (net, d) ->
    entries t !! net = Some d /\ net_contains net ip = true /\
    map_Forall (fun net' _ => net_contains net' ip = true -> netmask net' <= netmask net) (entries t);
  longest_match_none {D} ip (t : Table D) : longest_match ip t = None -> map_Forall (fun net _ => net_contains net ip = false) (entries t);
}.

(** ** The module *)

Section AllowedIps.
Context `{NetworkTable} {D : Type}.

Definition allowed_ips_new : Table D := table_new.
Definition allowed_ips_clear (ips : Table D) : Table D := table_new.

(** [cidr as u8], and a panic if the family has no such length. *)
Definition allowed_ips_insert (key : IpAddr) (cidr : Z) (data : D) (ips : Table D) : outcome (option D * Table D) :=
  match new_truncate key (wrap8 cidr) with
  | Some net => Ret (table_insert net data ips)
  | None => Panic
  end.

Definition allowed_ips_find (key : IpAddr) (ips : Table D) : option D := snd <$> longest_match key ips.

Definition allowed_ips_remove (predicate : D -> bool) (ips : Table D) : Table D :=
  table_retain (fun _ v => negb (predicate v)) ips.

Definition allowed_ips_iter (ips : Table D) : list (D * IpAddr * Z) :=
  map (fun '(net, d) => (d, network_address net, netmask net)) (table_iter ips).

Fixpoint insert_all (l : list (IpAddr * Z * D)) (ips : Table D) : outcome (Table D) :=
  match l with
  | [] => Ret ips
  | (addr, cidr, data) :: l => let! (_, ips) := allowed_ips_insert addr cidr data ips in insert_all l ips
  end.
Definition from_iter (l : list (IpAddr * Z * D)) : outcome (Table D) := insert_all l allowed_ips_new.
End AllowedIps.

(** ** The reference: a scan for the longest prefix *)

Section Reference.
Context {D : Type}.

(** A prefix the configuration can carry ([AllowedIP::from_str]). *)
Definition prefix_ok (p : IpAddr * Z * D) : Prop :=
  ip_ok (fst (fst p)) /\ 0 <= snd (fst p) <= ip_bits (fst (fst p)).

(** The prefix at hand replaces the best so far if it covers the address and is
    no shorter. *)
Definition closer (ip : IpAddr) (best : option (Z * D)) (p : IpAddr * Z * D) : option (Z * D) :=
  let '(addr, cidr, d) := p in
  if same_prefix cidr addr ip && match best with Some (n, _) => n <=? cidr | None => true end
  then Some (cidr, d) else best.

Definition route (l : list (IpAddr * Z * D)) (ip : IpAddr) : option (Z * D) := fold_left (closer ip) l None.
End Reference.

Section Spec.
Context `{NetworkTable} `{!NetworkTableLaws} {D : Type}.
Implicit Types t : Table D.

(** The prefixes of a table, as [iter] lists them. *)
Definition prefixes t : list (IpAddr * Z * D) := map (fun '(d, addr, cidr) => (addr, cidr, d)) (allowed_ips_iter t).

(** The length and the data of the entry found. *)
Definition find_len (ip : IpAddr) t : option (Z * D) := (fun e => (netmask (fst e), snd e)) <$> longest_match ip t.

(** The entry of [ip] in a map. *)
Definition owner (m : gmap Network D) (ip : IpAddr) (n : Z) (d : D) : Prop :=
  exists net, m !! net = Some d /\ netmask net = n /\ net_contains net ip = true /\
    map_Forall (fun net' _ => net_contains net' ip = true -> netmask net' <= n) m.

Lemma same_prefix_sym n a b : same_prefix n a b = same_prefix n b a.
Proof. destruct a, b; cbn; try done; apply Z.eqb_sym. Qed.

Lemma same_prefix_trans n a b c : same_prefix n a b = true -> same_prefix n b c = true -> same_prefix n a c = true.
Proof. destruct a, b, c; cbn; try done; rewrite !Z.eqb_eq; congruence. Qed.

(** Two networks of one length that share an address are one. *)
Lemma network_unique net net' ip :
  ip_ok ip -> netmask net = netmask net' -> net_contains net ip = true -> net_contains net' ip = true -> net = net'.
Proof.
  intros Hip Hm H1 H2. destruct (network_truncated net) as [Ho1 Ht1], (network_truncated net') as [Ho2 Ht2].
  rewrite (truncate_contains _ _ _ ip Ho1 Hip Ht1) in H1. rewrite (truncate_contains _ _ _ ip Ho2 Hip Ht2), <- Hm in H2.
  rewrite same_prefix_sym in H2. pose proof (truncate_same _ _ _ Ho1 Ho2 (same_prefix_trans _ _ _ _ H1 H2)) as Heq.
  rewrite <- Hm in Ht2. congruence.
Qed.

Lemma owner_unique m ip n d n' d' : ip_ok ip -> owner m ip n d -> owner m ip n' d' -> (n, d) = (n', d').
Proof.
  intros Hip (net & Hl & Hn & Hc & Hmax) (net' & Hl' & Hn' & Hc' & Hmax').
  assert (n = n') as -> by (specialize (Hmax _ _ Hl' Hc'); specialize (Hmax' _ _ Hl Hc); cbn in *; lia).
  assert (net = net') as -> by (eapply network_unique; eauto; congruence). congruence.
Qed.

Lemma find_len_owner ip t n d : ip_ok ip -> find_len ip t = Some (n, d) <-> owner (entries t) ip n d.
Proof.
  intros Hip. unfold find_len. split.
  - destruct (longest_match ip t) as [[net d']|] eqn:E; [|done]. intros [= <- <-].
    apply longest_match_some in E as (? & ? & ?). by exists net.
  - intros Ho. destruct (longest_match ip t) as [[net d']|] eqn:E; cbn.
    + apply longest_match_some in E as (? & ? & ?). f_equal. eapply owner_unique; [done| |done]. by exists net.
    + destruct Ho as (net & Hl & _ & Hc & _). pose proof (longest_match_none _ _ E _ _ Hl) as Hf. cbn in Hf. congruence.
Qed.

Lemma find_len_entries ip t t' : ip_ok ip -> entries t = entries t' -> find_len ip t = find_len ip t'.
Proof.
  intros Hip He. apply option_eq. intros [n d]. rewrite !find_len_owner by done. by rewrite He.
Qed.

Lemma find_len_none ip t : ip_ok ip -> find_len ip t = None <-> map_Forall (fun net _ => net_contains net ip = false) (entries t).
Proof.
  intros Hip. unfold find_len. destruct (longest_match ip t) as [[net d]|] eqn:E; cbn.
  - split; [done|]. intros Hf. apply longest_match_some in E as (Hl & Hc & _). specialize (Hf _ _ Hl). cbn in Hf. congruence.
  - split; [|done]. intros _. by apply longest_match_none.
Qed.

(** An entry of the map after an insertion is the best it can be. *)
Lemma insert_owner m net (d : D) ip :
  ip_ok ip -> net_contains net ip = true ->
  (forall n0 d0, owner m ip n0 d0 -> n0 <= netmask net) ->
  (forall net' d', m !! net' = Some d' -> net_contains net' ip = true -> exists n0 d0, owner m ip n0 d0 /\ netmask net' <= n0) ->
  owner (<[net := d]> m) ip (netmask net) d.
Proof.
  intros Hip Hc Hbest Hsome. exists net. rewrite lookup_insert_eq. split_and!; try done.
  intros net' d' [[-> _]|[Hne Hl]]%lookup_insert_Some Hc'; [lia|].
  destruct (Hsome net' d' Hl Hc') as (n0 & d0 & Ho & Hle). specialize (Hbest _ _ Ho). lia.
Qed.

Lemma allowed_ips_insert_spec key cidr d t : prefix_ok (key, cidr, d) ->
  exists net prev t', new_truncate key cidr = Some net /\ allowed_ips_insert key cidr d t = Ret (prev, t') /\
    entries t' = <[net := d]> (entries t) /\
    (forall ip, ip_ok ip -> find_len ip t' = closer ip (find_len ip t) (key, cidr, d)).
Proof.
  intros [Hk Hn]. cbn [fst snd] in *. destruct (proj2 (truncate_some key cidr Hk) Hn) as [net Ht]. unfold allowed_ips_insert.
  assert (wrap8 cidr = cidr) as -> by (unfold wrap8; apply Z.mod_small; destruct key; cbn in Hn; lia). rewrite Ht.
  destruct (insert_entries net d t) as [Hi He]. exists net, (entries t !! net), (snd (table_insert net d t)). rewrite Hi. cbn [fst snd].
  split; [done|]. split; [done|]. split; [done|]. intros ip Hip. pose proof (truncate_netmask _ _ _ Ht) as Hm.
  assert (forall net' d', entries t !! net' = Some d' -> net_contains net' ip = true -> exists n0 d0, owner (entries t) ip n0 d0 /\ netmask net' <= n0) as Hsome.
  { intros net' d' Hl Hc. destruct (find_len ip t) as [[n0 d0]|] eqn:E; [|apply find_len_none in E; [|done]; specialize (E _ _ Hl); cbn in E; congruence].
    apply find_len_owner in E; [|done]. exists n0, d0. split; [done|]. destruct E as (? & _ & _ & _ & Hmax). exact (Hmax _ _ Hl Hc). }
  unfold closer. rewrite <- (truncate_contains _ _ _ ip Hk Hip Ht), <- Hm.
  destruct (net_contains net ip) eqn:Hc; cbn [andb].
  - destruct (find_len ip t) as [[n0 d0]|] eqn:E.
    + pose proof E as Ho. apply find_len_owner in Ho; [|done]. destruct (Z.leb_spec n0 (netmask net)) as [Hle|Hlt].
      * apply find_len_owner; [done|]. rewrite He. apply insert_owner; try done.
        intros n1 d1 Ho1. by pose proof (owner_unique _ _ _ _ _ _ Hip Ho Ho1) as [= -> ->].
      * apply find_len_owner; [done|]. rewrite He. destruct Ho as (net0 & Hl & Hn0 & Hc0 & Hmax). exists net0.
        rewrite lookup_insert_ne by (intros ->; lia). split_and!; try done. intros net' d' [[<- _]|[_ Hl']]%lookup_insert_Some Hc'; [lia|].
        exact (Hmax _ _ Hl' Hc').
    + apply find_len_owner; [done|]. rewrite He. apply insert_owner; try done. intros n0 d0 Ho. apply find_len_owner in Ho; [congruence|done].
  - destruct (find_len ip t) as [[n0 d0]|] eqn:E.
    + apply find_len_owner in E; [|done]. apply find_len_owner; [done|]. rewrite He. destruct E as (net0 & Hl & Hn0 & Hc0 & Hmax). exists net0.
      rewrite lookup_insert_ne by congruence. split_and!; try done. intros net' d' [[<- _]|[_ Hl']]%lookup_insert_Some Hc'; [congruence|].
      exact (Hmax _ _ Hl' Hc').
    + apply find_len_none in E; [|done]. apply find_len_none; [done|]. rewrite He. by apply map_Forall_insert_2.
Qed.

Lemma insert_all_spec l t : Forall prefix_ok l ->
  exists t', insert_all l t = Ret t' /\ (forall ip, ip_ok ip -> find_len ip t' = fold_left (closer ip) l (find_len ip t)) /\
    (forall net d, entries t' !! net = Some d -> entries t !! net = Some d \/ exists p, p ∈ l /\ snd p = d).
Proof.
  intros Hl. revert t. induction Hl as [|[[key cidr] d] l Hp Hl IH]; intros t; cbn [insert_all fold_left].
  - exists t. split; [done|]. split; [done|]. by left.
  - destruct (allowed_ips_insert_spec key cidr d t Hp) as (net & prev & t1 & _ & Hi & He & Hf). rewrite Hi. cbn [obind].
    destruct (IH t1) as (t' & Hi' & Hf' & Hd). exists t'. split; [done|]. split; [intros ip Hip; by rewrite Hf', Hf|].
    intros net' d' Hl'. destruct (Hd _ _ Hl') as [Hl1|(p & Hp' & <-)]; [|right; exists p; by split; [right|]].
    rewrite He in Hl1. apply lookup_insert_Some in Hl1 as [[_ <-]|[_ ?]]; [right|by left]. by exists (key, cidr, d); split; [left|].
Qed.

Definition prefix_of (e : Network * D) : IpAddr * Z * D := (network_address (fst e), netmask (fst e), snd e).

Lemma prefix_of_ok e : prefix_ok (prefix_of e).
Proof.
  destruct (network_truncated (fst e)) as [Ho Ht]. split; [done|]. apply truncate_some; [done|]. by eexists.
Qed.

Lemma prefixes_iter t : prefixes t = map prefix_of (table_iter t).
Proof. unfold prefixes, allowed_ips_iter. rewrite map_map. apply map_ext. by intros []. Qed.

(** Inserting the entries of a table one by one gives its map back. *)
Lemma insert_all_entries es t : NoDup es.*1 ->
  exists t', insert_all (map prefix_of es) t = Ret t' /\ entries t' = list_to_map es ∪ entries t /\
    (forall ip, ip_ok ip -> find_len ip t' = fold_left (closer ip) (map prefix_of es) (find_len ip t)).
Proof.
  revert t. induction es as [|[net d] es IH]; intros t Hnd; cbn [map insert_all fold_left].
  - exists t. split; [done|]. split; [by rewrite list_to_map_nil, (left_id_L ∅ (∪))|done].
  - apply NoDup_cons in Hnd as [Hni Hnd]. unfold prefix_of at 1. cbn [fst snd].
    destruct (allowed_ips_insert_spec _ _ d t (prefix_of_ok (net, d))) as (net' & prev & t1 & Ht & Hi & He & Hf). cbn [fst snd] in *. rewrite Hi. cbn [obind].
    rewrite (proj2 (network_truncated net)) in Ht. injection Ht as <-. destruct (IH t1 Hnd) as (t' & Hi' & He' & Hf'). exists t'. split; [done|]. split.
    + rewrite He', He, list_to_map_cons. rewrite <- insert_union_r; [by rewrite <- insert_union_l|]. by apply not_elem_of_list_to_map_1.
    + intros ip Hip. by rewrite Hf', Hf.
Qed.

Lemma find_len_new ip : ip_ok ip -> find_len ip (table_new (D := D)) = None.
Proof. intros Hip. apply find_len_none; [done|]. rewrite new_entries. apply map_Forall_empty. Qed.

(** What [find] returns, with the length, is what a scan of the entries finds. *)
Lemma find_len_scan es t ip : ip_ok ip -> NoDup es.*1 -> entries t = list_to_map es -> find_len ip t = route (map prefix_of es) ip.
Proof.
  intros Hip Hnd He. destruct (insert_all_entries es table_new Hnd) as (t' & _ & He' & Hf). rewrite new_entries, (right_id_L ∅ (∪)) in He'.
  unfold route. rewrite <- (find_len_new ip Hip), <- Hf by done. apply find_len_entries; [done|congruence].
Qed.

Lemma find_find_len ip t : allowed_ips_find ip t = snd <$> find_len ip t.
Proof. unfold allowed_ips_find, find_len. by destruct (longest_match ip t) as [[]|]. Qed.

Lemma remove_entries p t : entries (allowed_ips_remove p t) = filter (fun e => p (snd e) = false) (entries t).
Proof.
  unfold allowed_ips_remove. rewrite retain_entries. apply map_filter_ext. intros net d _. cbn. by destruct (p d).
Qed.

Lemma filter_keys_nodup (P : Network * D -> Prop) `{!forall e, Decision (P e)} es : NoDup es.*1 -> NoDup (filter P es).*1.
Proof.
  induction es as [|e es IH]; [done|]. rewrite fmap_cons. intros [Hni Hnd]%NoDup_cons. rewrite filter_cons. destruct (decide (P e)); [|by apply IH].
  rewrite fmap_cons. apply NoDup_cons. split; [|by apply IH]. intros (x & Hx & [_ Hin]%list_elem_of_filter)%list_elem_of_fmap.
  apply Hni. rewrite Hx. by apply list_elem_of_fmap_2.
Qed.

Lemma filter_entries (P : Network * D -> Prop) `{!forall e, Decision (P e)} t : filter P (entries t) = list_to_map (filter P (table_iter t)).
Proof.
  apply map_eq. intros net. apply option_eq. intros d. rewrite map_lookup_filter_Some. unfold entries.
  rewrite <- !elem_of_list_to_map; [|apply filter_keys_nodup|]; [|apply iter_nodup..].
  rewrite list_elem_of_filter. tauto.
Qed.

Lemma find_len_route t ip : ip_ok ip -> find_len ip t = route (prefixes t) ip.
Proof. intros Hip. rewrite prefixes_iter. apply find_len_scan; [done|apply iter_nodup|done]. Qed.

Lemma filter_prefixes (p : D -> bool) es :
  filter (fun x => p (snd x) = false) (map prefix_of es) = map prefix_of (filter (fun e => p (snd e) = false) es).
Proof.
  induction es as [|e es IH]; [done|]. cbn [map]. rewrite !filter_cons. cbn [prefix_of snd].
  destruct (decide (p (snd e) = false)); cbn [map]; by rewrite IH.
Qed.

Lemma find_len_remove (p : D -> bool) t ip : ip_ok ip ->
  find_len ip (allowed_ips_remove p t) = route (filter (fun x => p (snd x) = false) (prefixes t)) ip.
Proof.
  intros Hip. rewrite prefixes_iter, filter_prefixes. apply find_len_scan; [done|apply filter_keys_nodup, iter_nodup|].
  by rewrite remove_entries, filter_entries.
Qed.

Lemma insert_all_app l l' t : insert_all (l ++ l') t = let! t := insert_all l t in insert_all l' t.
Proof.
  revert t. induction l as [|[[addr cidr] d] l IH]; intros t; [done|]. cbn [insert_all app].
  destruct (allowed_ips_insert addr cidr d t) as [[prev t1]|]; [|done]. apply IH.
Qed.

(** Taking some owners' entries out and putting them back changes nothing. *)
Lemma insert_back (p : D -> bool) t :
  exists t', insert_all (map prefix_of (filter (fun e => p (snd e) = true) (table_iter t))) (allowed_ips_remove p t) = Ret t' /\ entries t' = entries t.
Proof.
  destruct (insert_all_entries (filter (fun e => p (snd e) = true) (table_iter t)) (allowed_ips_remove p t)) as (t' & Hi & He & _);
    [apply filter_keys_nodup, iter_nodup|]. exists t'. split; [done|].
  rewrite He, remove_entries, <- filter_entries. etrans; [|apply (map_filter_union_complement (fun e => p (snd e) = true) (entries t))].
  f_equal. apply map_filter_ext. intros net d _. cbn. by rewrite not_true_iff_false.
Qed.

(** C26. The allowed-IP table routes by longest prefix. Whatever a table holds,
    [find] returns the owner a scan of its entries for the longest prefix
    returns; inserting a prefix changes the answer for exactly the addresses
    under it that had no longer one, to its owner; removing the entries of
    some owners leaves the answer the scan of the others gives. A prefix of a
    length its family has is never refused. *)
Theorem longest_prefix_routing t key cidr d p ip :
  prefix_ok (key, cidr, d) -> ip_ok ip ->
  allowed_ips_find ip t = snd <$> route (prefixes t) ip /\
  (exists prev t', allowed_ips_insert key cidr d t = Ret (prev, t') /\
     allowed_ips_find ip t' = snd <$> closer ip (route (prefixes t) ip) (key, cidr, d)) /\
  allowed_ips_find ip (allowed_ips_remove p t) = snd <$> route (filter (fun x => p (snd x) = false) (prefixes t)) ip.
Proof.
  intros Hp Hip. split; [by rewrite find_find_len, find_len_route|]. split; [|by rewrite find_find_len, find_len_remove].
  destruct (allowed_ips_insert_spec key cidr d t Hp) as (net & prev & t' & _ & Hi & _ & Hf). exists prev, t'.
  split; [done|]. by rewrite find_find_len, Hf, find_len_route.
Qed.
End Spec.

(** ** An instance *)

Module ListTable.
(** The first [n] bits, the rest zero. *)
Definition truncate (ip : IpAddr) (n : Z) : IpAddr :=
  match ip with
  | V4 o => V4 (to_be 4 (of_be o / 2 ^ (32 - n) * 2 ^ (32 - n)))
  | V6 o => V6 (to_be 16 (of_be o / 2 ^ (128 - n) * 2 ^ (128 - n)))
  end.

(** A network is a truncated address and its length. *)
Definition valid (x : IpAddr * Z) : Prop :=
  ip_ok (fst x) /\ 0 <= snd x <= ip_bits (fst x) /\ truncate (fst x) (snd x) = fst x.
#[export] Instance valid_dec x : Decision (valid x).
Proof. unfold valid, ip_ok. destruct (fst x); apply _. Defined.
Definition Net : Type := dsig valid.
Definition mk (x : IpAddr * Z) : option Net := match decide (valid x) with left H => Some (dexist x H) | right _ => None end.

Section Pick.
Context {X : Type} (c : X -> bool) (w : X -> Z).

(** The heaviest candidate, the later of two equals. *)
Definition pick (best : option X) (e : X) : option X :=
  if c e && match best with Some b => w b <=? w e | None => true end then Some e else best.

Lemma pick_spec es best :
  match fold_left pick es best with
  | Some e => (best = Some e \/ e ∈ es /\ c e = true) /\ (forall e', e' ∈ es -> c e' = true -> w e' <= w e) /\
      (forall b, best = Some b -> w b <= w e)
  | None => best = None /\ forall e', e' ∈ es -> c e' = false
  end.
Proof.
  revert best. induction es as [|e0 es IH]; intros best; cbn [fold_left].
  - destruct best as [b|]; [|by split; [|intros ? ?%elem_of_nil]].
    split; [by left|]. split; [by intros ? ?%elem_of_nil|]. intros ? [= <-]. lia.
  - specialize (IH (pick best e0)).
    assert (forall b, best = Some b -> exists b', pick best e0 = Some b' /\ w b <= w b') as Hup.
    { intros b ->. unfold pick. destruct (c e0); cbn [andb]; [|by exists b; split; [|lia]].
      destruct (Z.leb_spec (w b) (w e0)); [by exists e0|by exists b; split; [|lia]]. }
    assert (c e0 = true -> exists b', pick best e0 = Some b' /\ w e0 <= w b') as Hnew.
    { intros Hc. unfold pick. rewrite Hc. cbn [andb]. destruct best as [b|]; [|by exists e0; split; [|lia]].
      destruct (Z.leb_spec (w b) (w e0)); [by exists e0; split; [|lia]|by exists b; split; [|lia]]. }
    destruct (fold_left pick es (pick best e0)) as [e|].
    + destruct IH as (Hfrom & Hmax & Hbest). split_and!.
      * destruct Hfrom as [Hf|[? ?]]; [|right; split; [by right|done]]. unfold pick in Hf.
        destruct (c e0) eqn:Hc; cbn [andb] in Hf; [|by left]. destruct best as [b|]; [destruct (w b <=? w e0)|]; [|by left|];
          injection Hf as <-; right; by split; [left|].
      * intros e' [->|Hin]%elem_of_cons Hc; [|by apply Hmax]. destruct (Hnew Hc) as (b' & Hb & ?). specialize (Hbest _ Hb). lia.
      * intros b Hb. destruct (Hup b Hb) as (b' & Hb' & ?). specialize (Hbest _ Hb'). lia.
    + destruct IH as [Hnone Hall]. split; [destruct best as [b|]; [|done]; destruct (Hup b eq_refl) as (? & ? & _); congruence|].
      intros e' [->|Hin]%elem_of_cons; [|by apply Hall]. destruct (c e0); [|done]. destruct (Hnew eq_refl) as (? & ? & _). congruence.
Qed.
End Pick.

Definition contains (net : Net) (ip : IpAddr) : bool := same_prefix (snd (proj1_sig net)) (fst (proj1_sig net)) ip.
Definition longest {D} (ip : IpAddr) (t : gmap Net D) : option (Net * D) :=
  fold_left (pick (fun e => contains (fst e) ip) (fun e => snd (proj1_sig (fst e)))) (map_to_list t) None.

Lemma longest_spec {D} (ip : IpAddr) (t : gmap Net D) :
  match longest ip t with
  | Some (net, d) => t !! net = Some d /\ contains net ip = true /\
      map_Forall (fun net' _ => contains net' ip = true -> snd (proj1_sig net') <= snd (proj1_sig net)) t
  | None => map_Forall (fun net _ => contains net ip = false) t
  end.
Proof.
  pose proof (pick_spec (fun e : Net * D => contains (fst e) ip) (fun e => snd (proj1_sig (fst e))) (map_to_list t) None) as Hp.
  unfold longest. destruct (fold_left _ _ _) as [[net d]|].
  - destruct Hp as ([Hf|[Hin Hc]] & Hmax & _); [done|]. split; [by apply elem_of_map_to_list|]. split; [exact Hc|].
    intros net' d' Hl Hc'. exact (Hmax (net', d') (proj2 (elem_of_map_to_list _ _ _) Hl) Hc').
  - destruct Hp as [_ Hall]. intros net d Hl. exact (Hall (net, d) (proj2 (elem_of_map_to_list _ _ _) Hl)).
Qed.

#[export] Instance table : NetworkTable := {|
  Network := Net;
  new_truncate ip n := mk (truncate ip n, n);
  net_contains net ip := contains net ip;
  network_address net := fst (proj1_sig net);
  netmask net := snd (proj1_sig net);
  Table := gmap Net;
  table_new D := ∅;
  table_insert D net d t := (t !! net, <[net := d]> t);
  longest_match D ip t := longest ip t;
  table_retain D f t := filter (fun e => f (fst e) (snd e) = true) t;
  table_iter D t := map_to_list t;
|}.

Lemma truncated_bits o w n : len o = w -> 0 <= n <= 8 * w ->
  let z := of_be o / 2 ^ (8 * w - n) * 2 ^ (8 * w - n) in
  of_be (to_be (Z.to_nat w) z) = z /\ z / 2 ^ (8 * w - n) = of_be o / 2 ^ (8 * w - n).
Proof.
  intros Hl Hn z. pose proof (of_be_bound o) as Hb. rewrite Hl in Hb. pose proof (len_nonneg o).
  assert (0 < 2 ^ (8 * w - n)) as Hp by (apply Z.pow_pos_nonneg; lia).
  split; [|unfold z; by rewrite Z.div_mul by lia]. apply of_be_to_be. rewrite Z2Nat.id by lia. replace (w * 8) with (8 * w) by lia.
  unfold z. pose proof (Z.mul_div_le (of_be o) _ Hp). pose proof (Z.div_pos (of_be o) _ (proj1 Hb) Hp). nia.
Qed.

Lemma truncate_spec ip n : ip_ok ip -> 0 <= n <= ip_bits ip ->
  ip_ok (truncate ip n) /\ ip_bits (truncate ip n) = ip_bits ip /\ truncate (truncate ip n) n = truncate ip n /\
  forall ip', same_prefix n (truncate ip n) ip' = same_prefix n ip ip'.
Proof.
  intros Hip Hn. destruct ip as [o|o]; cbn in Hip, Hn.
  - destruct (truncated_bits o 4 n Hip) as [H1 H2]; [lia|]. change (8 * 4) with 32 in *. change (Z.to_nat 4) with 4%nat in H1. cbn [truncate].
    split_and!; [apply len_to_be|done| |]; [by rewrite H1, H2|]. intros [o'|o']; [|done]. cbn [same_prefix]. by rewrite H1, H2.
  - destruct (truncated_bits o 16 n Hip) as [H1 H2]; [lia|]. change (8 * 16) with 128 in *. change (Z.to_nat 16) with 16%nat in H1. cbn [truncate].
    split_and!; [apply len_to_be|done| |]; [by rewrite H1, H2|]. intros [o'|o']; [done|]. cbn [same_prefix]. by rewrite H1, H2.
Qed.

Lemma mk_Some x net : mk x = Some net <-> valid x /\ proj1_sig net = x.
Proof.
  unfold mk. destruct (decide (valid x)) as [Hv|Hv].
  - split; [intros [= <-]; done|]. intros [_ He]. f_equal. by apply dsig_eq.
  - split; [done|]. by intros [? _].
Qed.

Lemma entries_id {D} (t : gmap Net D) : entries (D := D) t = t.
Proof. apply list_to_map_to_list. Qed.

Lemma net_valid (net : Net) : valid (proj1_sig net).
Proof. apply (proj2_dsig net). Qed.

Lemma pair_eta {A B} (p : A * B) : (fst p, snd p) = p.
Proof. by destruct p. Qed.

#[export] Instance laws : NetworkTableLaws.
Proof.
  split.
  - intros ip n Hip. cbn [new_truncate table]. split.
    + intros [net [[Ho [Hn _]] _]%mk_Some]. cbn [fst snd] in *. by destruct ip.
    + intros Hn. destruct (truncate_spec ip n Hip Hn) as (Ho & Hb & Ht & _). unfold mk.
      destruct (decide (valid (truncate ip n, n))) as [|Hv]; [by eexists|]. exfalso. apply Hv. unfold valid. cbn [fst snd]. by rewrite Hb.
  - intros ip n net ip' Hip Hip' [[Ho [Hn _]] He]%mk_Some. cbn [net_contains table]. unfold contains. rewrite He. cbn [fst snd] in *.
    apply truncate_spec; [done|]. by destruct ip.
  - intros ip n net [_ He]%mk_Some. cbn [netmask table]. by rewrite He.
  - intros ip ip' n Hip Hip' Hs. cbn [new_truncate table]. do 2 f_equal. destruct ip, ip'; try done; cbn in Hs |- *; apply Z.eqb_eq in Hs; by rewrite Hs.
  - intros net. destruct (net_valid net) as (Ho & Hn & Ht). cbn [network_address netmask new_truncate table]. split; [done|].
    apply mk_Some. rewrite Ht, pair_eta. split; [apply net_valid|done].
  - intros D t. apply NoDup_fst_map_to_list.
  - intros D. apply entries_id.
  - intros D net d t. cbn [table_insert table snd]. by rewrite !entries_id.
  - intros D f t. cbn [table_retain table]. by rewrite !entries_id.
  - intros D ip t net d E. rewrite entries_id. pose proof (longest_spec ip t) as Hs. cbn [longest_match table] in E. by rewrite E in Hs.
  - intros D ip t E. rewrite entries_id. pose proof (longest_spec ip t) as Hs. cbn [longest_match table] in E. by rewrite E in Hs.
Qed.
End ListTable.

Import ListTable.

(** A /24 and the /8 around it; the address under both goes to the /24, and to
    the /8 once the /24's owner is removed. *)
Definition ex_net : IpAddr * Z := (V4 (to_be 4 167772160), 8).
Definition ex_ip : IpAddr := V4 (to_be 4 167837953).

Lemma longest_prefix_routing_witness :
  exists prev t', allowed_ips_insert (fst ex_net) (snd ex_net) 1%nat (allowed_ips_new (D := nat)) = Ret (prev, t') /\
    allowed_ips_find ex_ip t' = Some 1%nat.
Proof.
  destruct (longest_prefix_routing (allowed_ips_new (D := nat)) (fst ex_net) (snd ex_net) 1%nat (fun _ => false) ex_ip) as (_ & (prev & t' & Hi & Hf) & _).
  - split; [reflexivity|cbn; lia].
  - reflexivity.
  - exists prev, t'. split; [exact Hi|]. rewrite Hf. vm_compute. reflexivity.
Defined.
