(* ===== verification/PeerIndex.v ===== *)
(** The peers' indices, [device/mod.rs]: a 24-bit shift register with feedback,
    whose states, masked, are the indices the device gives its peers. The
    register has the full period, so that the indices never repeat and the
    assertion against reuse fires only after all of them have been issued. *)

From S2P Require Import Prelude.

(** ** The register *)

Record IndexLfsr := {
  lfsr_initial : Z;
  lfsr : Z;
  lfsr_mask : Z;
}.

Definition LFSR_MAX : Z := 16777215.
Definition LFSR_POLY : Z := 14155776.

(** The loop over the operating system's generator, whose draws are given. *)
Fixpoint random_index (draws : list Z) : option (Z * list Z) :=
  match draws with
  | [] => None
  | x :: draws => let i := Z.land x LFSR_MAX in if 0 <? i then Some (i, draws) else random_index draws
  end.

Definition lfsr_default (draws : list Z) : option IndexLfsr :=
  match random_index draws with
  | None => None
  | Some (seed, draws) =>
      match random_index draws with
      | None => None
      | Some (mask, _) => Some {| lfsr_initial := seed; lfsr := seed; lfsr_mask := mask |}
      end
  end.

Definition lfsr_step (z : Z) : Z := Z.lxor (Z.shiftr z 1) (Z.land (wrap32 (0 - Z.land z 1)) LFSR_POLY).

Definition lfsr_next (l : IndexLfsr) : outcome (Z * IndexLfsr) :=
  if lfsr l <=? 0 then Panic else
  let value := lfsr l - 1 in
  let next := lfsr_step (lfsr l) in
  if next =? lfsr_initial l then Panic else
  Ret (Z.lxor value (lfsr_mask l), {| lfsr_initial := lfsr_initial l; lfsr := next; lfsr_mask := lfsr_mask l |}).

(** ** No index twice *)


Definition in_24 (z : Z) : Prop := 0 <= z < 2 ^ 24.

Lemma feedback b : b = 0 \/ b = 1 -> Z.land (wrap32 (0 - b)) LFSR_POLY = b * LFSR_POLY.
Proof. by intros [-> | ->]. Qed.

Lemma low_bit z : Z.land z 1 = 0 \/ Z.land z 1 = 1.
Proof. change (Z.land z 1) with (Z.land z (Z.ones 1)). rewrite Z.land_ones by lia. pose proof (Z.mod_pos_bound z (2 ^ 1) eq_refl). lia. Qed.

Lemma lfsr_step_eq z : lfsr_step z = Z.lxor (Z.shiftr z 1) (Z.land z 1 * LFSR_POLY).
Proof. unfold lfsr_step. by rewrite feedback by apply low_bit. Qed.

Lemma shiftr_24 z : in_24 z -> 0 <= Z.shiftr z 1 < 2 ^ 23.
Proof. unfold in_24. intros Hz. rewrite Z.shiftr_div_pow2 by lia. change (2 ^ 1) with 2. Z.to_euclidean_division_equations; lia. Qed.

Lemma lfsr_step_range z : in_24 z -> in_24 (lfsr_step z).
Proof.
  intros Hz. pose proof (shiftr_24 z Hz). rewrite lfsr_step_eq. unfold in_24. apply lxor_range; [done|lia|].
  destruct (low_bit z) as [-> | ->]; vm_compute; split; congruence.
Qed.

(** The bit shifted out comes back as the top bit. *)
Lemma lfsr_top z : in_24 z -> Z.testbit (lfsr_step z) 23 = (Z.land z 1 =? 1).
Proof.
  intros Hz. rewrite lfsr_step_eq, Z.lxor_spec. rewrite (bits_above 23 (Z.shiftr z 1)) by (done || by apply shiftr_24).
  destruct (low_bit z) as [-> | ->]; done.
Qed.

Lemma lfsr_step_inj a b : in_24 a -> in_24 b -> lfsr_step a = lfsr_step b -> a = b.
Proof.
  intros Ha Hb E. pose proof (lfsr_top a Ha) as Ta. rewrite E, (lfsr_top b Hb) in Ta.
  assert (Z.land a 1 = Z.land b 1) as El by (destruct (low_bit a) as [Ea|Ea], (low_bit b) as [Eb|Eb]; rewrite Ea, Eb in *; done).
  rewrite !lfsr_step_eq, El in E. apply (f_equal (fun x => Z.lxor x (Z.land b 1 * LFSR_POLY))) in E.
  rewrite !Z.lxor_assoc, Z.lxor_nilpotent, !Z.lxor_0_r in E.
  rewrite !Z.shiftr_div_pow2 in E by lia. change (Z.land a (Z.ones 1) = Z.land b (Z.ones 1)) in El. rewrite !Z.land_ones in El by lia.
  rewrite (Z.div_mod a (2 ^ 1)), (Z.div_mod b (2 ^ 1)) by lia. by rewrite E, El.
Qed.

Lemma lfsr_iter_range n z : in_24 z -> in_24 (Nat.iter n lfsr_step z).
Proof. intros Hz. induction n; [done|]. by apply lfsr_step_range. Qed.

(** Going back [j] steps. *)
Lemma lfsr_iter_cancel j n z : in_24 z -> Nat.iter (j + n) lfsr_step z = Nat.iter j lfsr_step z -> Nat.iter n lfsr_step z = z.
Proof.
  intros Hz. induction j as [|j IH]; [done|]. cbn. intros E%lfsr_step_inj; [by apply IH|by apply lfsr_iter_range..].
Qed.

(** After [k] indices the register has not come back to its seed. *)
Record lfsr_at (l : IndexLfsr) (k : nat) : Prop := {
  la_seed : 0 < lfsr_initial l < 2 ^ 24;
  la_state : lfsr l = Nat.iter k lfsr_step (lfsr_initial l);
  la_first : forall j, (0 < j <= k)%nat -> Nat.iter j lfsr_step (lfsr_initial l) <> lfsr_initial l;
}.

Definition index_of (l : IndexLfsr) (j : nat) : Z := Z.lxor (Nat.iter j lfsr_step (lfsr_initial l) - 1) (lfsr_mask l).

Lemma lfsr_iter_pos n z : 0 < z < 2 ^ 24 -> 0 < Nat.iter n lfsr_step z < 2 ^ 24.
Proof.
  intros Hz. pose proof (lfsr_iter_range n z ltac:(unfold in_24; lia)) as Hr. unfold in_24 in Hr.
  enough (Nat.iter n lfsr_step z <> 0) by lia. induction n as [|n IH]; [cbn; lia|]. cbn. intros E. apply IH.
  - apply lfsr_iter_range. unfold in_24. lia.
  - apply lfsr_step_inj; [apply lfsr_iter_range; unfold in_24; lia|unfold in_24; lia|exact E].
Qed.

(** The next index is none of those issued before. *)
Lemma lfsr_next_spec l k i l' : lfsr_at l k -> lfsr_next l = Ret (i, l') ->
  lfsr_at l' (S k) /\ i = index_of l' k /\ (forall j, (j < k)%nat -> index_of l' j = index_of l j /\ index_of l j <> i).
Proof.
  intros [Hs Hst Hf]. unfold lfsr_next. destruct (Z.leb_spec (lfsr l) 0); [done|].
  destruct (Z.eqb_spec (lfsr_step (lfsr l)) (lfsr_initial l)) as [|Hne]; [done|]. intros [= <- <-]. split; [|split].
  - split; cbn; [done|by rewrite Hst|]. intros j Hj. destruct (decide (j = S k)) as [->|]; [|apply Hf; lia].
    intros E. apply Hne. rewrite Hst. exact E.
  - unfold index_of. cbn. by rewrite Hst.
  - intros j Hj. split; [done|]. unfold index_of. rewrite Hst. intros E.
    apply (f_equal (fun x => Z.lxor x (lfsr_mask l))) in E. rewrite !Z.lxor_assoc, Z.lxor_nilpotent, !Z.lxor_0_r in E.
    assert (Nat.iter (j + (k - j)) lfsr_step (lfsr_initial l) = Nat.iter j lfsr_step (lfsr_initial l)) as E2 by (replace (j + (k - j))%nat with k by lia; lia).
    apply lfsr_iter_cancel in E2; [|unfold in_24; lia]. by apply (Hf (k - j)%nat); [lia|].
Qed.

(** ** The period

    The step is linear over the bits. A linear map on 24 bits is the list of
    its values on the single bits; powers of the step are then computed. *)

Record linear (f : Z -> Z) : Prop := { linear_lxor a b : f (Z.lxor a b) = Z.lxor (f a) (f b) }.

Lemma linear_0 f : linear f -> f 0 = 0.
Proof. intros [Hf]. pose proof (Hf 0 0) as E. by rewrite !Z.lxor_nilpotent in E. Qed.

Lemma lfsr_step_linear : linear lfsr_step.
Proof.
  assert (forall x y z w, Z.lxor (Z.lxor x y) (Z.lxor z w) = Z.lxor (Z.lxor x z) (Z.lxor y w)) as Hswap.
  { intros x y z w. apply Z.bits_inj'. intros n _. rewrite !Z.lxor_spec. by repeat destruct (Z.testbit _ n). }
  split. intros a b. rewrite !lfsr_step_eq, Z.shiftr_lxor, Hswap. f_equal.
  assert (Z.land (Z.lxor a b) 1 = Z.lxor (Z.land a 1) (Z.land b 1)) as ->.
  { apply Z.bits_inj'. intros n _. rewrite !Z.land_spec, !Z.lxor_spec, !Z.land_spec. by repeat destruct (Z.testbit _ n). }
  by destruct (low_bit a) as [-> | ->], (low_bit b) as [-> | ->].
Qed.

(** The value of the map with the columns [m]. *)
Fixpoint mapply (m : list Z) (z : Z) : Z :=
  match m with
  | [] => 0
  | c :: m => Z.lxor (if Z.odd z then c else 0) (mapply m (Z.shiftr z 1))
  end.

Lemma mapply_linear m : linear (mapply m).
Proof.
  split. induction m as [|c m IH]; intros a b; cbn [mapply]; [done|]. rewrite Z.shiftr_lxor, IH, <- !Z.bit0_odd, Z.lxor_spec.
  apply Z.bits_inj'. intros n _. destruct (Z.testbit a 0), (Z.testbit b 0); cbn [xorb]; rewrite !Z.lxor_spec, ?Z.bits_0;
    by repeat destruct (Z.testbit _ n).
Qed.

(** The bits from the [k]th on. *)
Fixpoint bits_from (k : Z) (n : nat) : list Z := match n with O => [] | S n => 2 ^ k :: bits_from (k + 1) n end.
Definition unit_24 : list Z := bits_from 0 24.
Definition columns (f : Z -> Z) : list Z := map f unit_24.

Lemma low_bit_split z : z = Z.lxor (if Z.odd z then 1 else 0) (Z.shiftl (Z.shiftr z 1) 1).
Proof.
  rewrite <- Z.add_nocarry_lxor.
  - rewrite Z.shiftl_mul_pow2, Z.shiftr_div_pow2 by lia. change (2 ^ 1) with 2.
    rewrite (Z.div_mod z 2) at 1 by lia. rewrite Zmod_odd. destruct (Z.odd z); lia.
  - destruct (Z.odd z); [|done]. rewrite Z.land_comm. change 1 with (Z.ones 1) at 3. rewrite Z.land_ones by lia.
    rewrite Z.shiftl_mul_pow2 by lia. apply Z.mod_mul. done.
Qed.

Lemma mapply_bits f k n z : linear f -> 0 <= k -> 0 <= z < 2 ^ Z.of_nat n -> mapply (map f (bits_from k n)) z = f (Z.shiftl z k).
Proof.
  intros Hf. revert k z. induction n as [|n IH]; intros k z Hk Hz; cbn [bits_from map mapply].
  - assert (z = 0) as -> by (cbn in Hz; lia). by rewrite Z.shiftl_0_l, linear_0.
  - rewrite IH; [|lia|rewrite Z.shiftr_div_pow2 by lia; change (2 ^ 1) with 2; rewrite Nat2Z.inj_succ, Z.pow_succ_r in Hz by lia;
      Z.to_euclidean_division_equations; lia].
    rewrite (low_bit_split z) at 3. rewrite Z.shiftl_lxor, (linear_lxor _ Hf), Z.shiftl_shiftl, (Z.add_comm 1 k) by lia. f_equal.
    destruct (Z.odd z); [by rewrite Z.shiftl_1_l|by rewrite Z.shiftl_0_l, linear_0].
Qed.

Lemma mapply_columns f z : linear f -> in_24 z -> mapply (columns f) z = f z.
Proof. intros Hf Hz. unfold columns, unit_24. rewrite mapply_bits by done. by rewrite Z.shiftl_0_r. Qed.

Lemma mapply_unit z : in_24 z -> mapply unit_24 z = z.
Proof. intros Hz. rewrite <- (mapply_columns (fun z => z) z) at 2 by done. unfold columns. by rewrite List.map_id. Qed.

Definition mcomp (m n : list Z) : list Z := map (mapply m) n.
Lemma mapply_mcomp m n z : mapply (mcomp m n) z = mapply m (mapply n z).
Proof.
  pose proof (mapply_linear m) as Hm. revert z. induction n as [|c n IH]; intros z; cbn [mcomp map mapply]; [by rewrite linear_0|].
  rewrite (linear_lxor _ Hm). unfold mcomp in IH. rewrite IH. f_equal. destruct (Z.odd z); [done|by rewrite linear_0].
Qed.

Fixpoint mpow (p : positive) (m : list Z) : list Z :=
  match p with
  | xH => m
  | xO p => let h := mpow p m in mcomp h h
  | xI p => let h := mpow p m in mcomp m (mcomp h h)
  end.

Definition madd (m n : list Z) : list Z := zip_with Z.lxor m n.
Lemma mapply_madd m n z : length m = length n -> mapply (madd m n) z = Z.lxor (mapply m z) (mapply n z).
Proof.
  revert n z. induction m as [|c m IH]; intros [|d n] z Hl; cbn in Hl; try done. cbn [madd zip_with mapply]. unfold madd in IH. rewrite IH by lia.
  apply Z.bits_inj'. intros i _. rewrite !Z.lxor_spec. destruct (Z.odd z); rewrite ?Z.lxor_spec, ?Z.bits_0; by repeat destruct (Z.testbit _ i).
Qed.

Definition turn (n : Z) (z : Z) : Z := Nat.iter (Z.to_nat n) lfsr_step z.
Lemma turn_add a b z : 0 <= a -> 0 <= b -> turn (a + b) z = turn a (turn b z).
Proof. intros Ha Hb. unfold turn. by rewrite Z2Nat.inj_add, Nat.iter_add by lia. Qed.
Lemma turn_range n z : in_24 z -> in_24 (turn n z).
Proof. apply lfsr_iter_range. Qed.
Lemma turn_mul a k z : 0 <= a -> 0 <= k -> turn a z = z -> turn (k * a) z = z.
Proof.
  intros Ha Hk E. revert k Hk. apply natlike_ind; [done|]. intros k Hk IH. rewrite Z.mul_succ_l, Z.add_comm, turn_add by lia. by rewrite IH.
Qed.

Definition step_columns : list Z := columns lfsr_step.

Lemma mpow_turn p z : in_24 z -> mapply (mpow p step_columns) z = turn (Z.pos p) z.
Proof.
  revert z. induction p as [p IH|p IH|]; intros z Hz; cbn [mpow].
  - rewrite !mapply_mcomp, (IH z Hz), IH by by apply turn_range. unfold step_columns.
    rewrite (mapply_columns _ _ lfsr_step_linear) by by repeat apply turn_range.
    rewrite <- turn_add by lia. change (lfsr_step ?x) with (turn 1 x). rewrite <- turn_add by lia. f_equal. lia.
  - rewrite !mapply_mcomp, (IH z Hz), IH by by apply turn_range. rewrite <- turn_add by lia. f_equal. lia.
  - unfold step_columns. by rewrite (mapply_columns _ _ lfsr_step_linear).
Qed.

Definition period : Z := 2 ^ 24 - 1.

Lemma turn_period z : in_24 z -> turn period z = z.
Proof.
  intros Hz. change period with (Z.pos 16777215). rewrite <- mpow_turn by done.
  assert (mpow 16777215 step_columns = unit_24) as -> by (vm_compute; reflexivity). by apply mapply_unit.
Qed.

(** [T^d + 1] has an inverse: its own power, in the field the register walks. *)
Definition no_return (d : positive) : bool :=
  let m := madd (mpow d step_columns) unit_24 in bool_decide (mcomp (mpow 16777214 m) m = unit_24).

Lemma mpow_length p m : length (mpow p m) = length m.
Proof. induction p; cbn [mpow]; unfold mcomp; rewrite ?length_map; done. Qed.

Lemma no_return_spec d z : no_return d = true -> in_24 z -> turn (Z.pos d) z = z -> z = 0.
Proof.
  unfold no_return. intros E%bool_decide_eq_true Hz Ht. rewrite <- (mapply_unit z Hz), <- E, mapply_mcomp, mapply_madd by by rewrite mpow_length.
  rewrite mpow_turn, Ht, mapply_unit, Z.lxor_nilpotent by done. apply linear_0, mapply_linear.
Qed.

(** The primes of the period, and the largest proper divisors. *)
Definition period_primes : list positive := [3; 5; 7; 13; 17; 241]%positive.
Definition prime_cofactor (p : positive) : positive := Z.to_pos (period / Z.pos p).

Lemma no_return_cofactors : forallb (fun p => no_return (prime_cofactor p)) period_primes = true.
Proof. vm_compute. reflexivity. Qed.

Lemma prime_coprime p m : forallb (fun h => negb (p mod h =? 0)) (seqZ 2 (p - 2)) = true -> 1 < p -> ~ (p | m) -> Z.gcd m p = 1.
Proof.
  intros Hf Hp Hn. rewrite forallb_forall in Hf. pose proof (Z.gcd_divide_l m p) as Hl. pose proof (Z.gcd_divide_r m p) as [k Hk].
  pose proof (Z.gcd_nonneg m p). destruct (decide (Z.gcd m p = p)) as [E|]; [congruence|]. destruct (decide (Z.gcd m p = 1)) as [|]; [done|].
  specialize (Hf (Z.gcd m p)). replace (p mod Z.gcd m p) with 0 in Hf by (rewrite Hk at 1; symmetry; apply Z.mod_mul; lia).
  assert (0 < Z.gcd m p) by (destruct (decide (Z.gcd m p = 0)) as [E|]; [rewrite E in Hk|]; lia).
  assert (Z.gcd m p <= p) by (apply Z.divide_pos_le; [lia|apply Z.gcd_divide_r]).
  assert (In (Z.gcd m p) (seqZ 2 (p - 2))) as Hin by (apply list_elem_of_In, elem_of_seqZ; lia). by apply Hf in Hin.
Qed.

(** A number no prime divides is coprime to the period. *)
Lemma coprime_period m : Forall (fun p => ~ (Z.pos p | m)) period_primes -> Z.gcd m period = 1.
Proof.
  intros Hn. assert (Forall (fun p => Z.gcd m (Z.pos p) = 1) period_primes) as Hp.
  { unfold period_primes in *. rewrite !Forall_cons in *. destruct Hn as (? & ? & ? & ? & ? & ? & _).
    split_and!; try done; apply prime_coprime; try done; vm_compute; reflexivity. }
  unfold period_primes in Hp. rewrite !Forall_cons in Hp. destruct Hp as (? & ? & ? & ? & ? & ? & _).
  change period with (3 * (3 * (5 * (7 * (13 * (17 * 241)))))). by repeat apply Z.coprime_mul_r.
Qed.

(** A divisor of the period other than itself divides a cofactor. *)
Lemma proper_divisor g : 0 < g < period -> (g | period) -> exists p, p ∈ period_primes /\ (g | Z.pos (prime_cofactor p)).
Proof.
  intros Hg [m Hm]. assert (0 < m) as Hpos by (unfold period in *; nia).
  destruct (decide (Exists (fun p => m mod Z.pos p = 0) period_primes)) as [He|Hn].
  - apply Exists_exists in He as (p & Hp & [k ->]%Z.mod_divide); [|done]. exists p. split; [done|]. exists k. unfold prime_cofactor. rewrite Hm.
    replace (k * Z.pos p * g) with (k * g * Z.pos p) by lia. rewrite Z.div_mul by lia. apply Z2Pos.id. nia.
  - exfalso. assert (Forall (fun p => ~ (Z.pos p | m)) period_primes) as Hd.
    { apply Forall_forall. intros p Hp Hdiv. apply Hn, Exists_exists. exists p. split; [done|]. by apply Z.mod_divide. }
    apply coprime_period in Hd. rewrite Hm, (proj1 (Z.divide_gcd_iff m (m * g) ltac:(lia))) in Hd by (exists g; lia). nia.
Qed.

Lemma turn_gcd a b z : 0 <= a -> 0 <= b -> turn a z = z -> turn b z = z -> turn (Z.gcd a b) z = z.
Proof.
  intros Ha Hb. revert a Ha. induction b as [b IH] using (well_founded_induction (Z.lt_wf 0)). intros a Ha Ea Eb.
  destruct (decide (b = 0)) as [->|Hne]; [by rewrite Z.gcd_0_r, Z.abs_eq|]. pose proof (Z.mod_pos_bound a b ltac:(lia)).
  rewrite Z.gcd_comm, <- Z.gcd_mod, Z.gcd_comm by done. apply IH; [lia|lia|lia|done|].
  assert (0 <= a / b) by (apply Z.div_pos; lia).
  rewrite (Z.div_mod a b Hne), Z.add_comm, turn_add, Z.mul_comm, turn_mul in Ea by (done || lia || nia). done.
Qed.

(** A state does not come back before the period is over. *)
Lemma turn_full j z : 0 < z < 2 ^ 24 -> 0 < j < period -> turn j z <> z.
Proof.
  intros Hz Hj E. assert (in_24 z) as Hr by (unfold in_24; lia).
  pose proof (turn_gcd j period z ltac:(lia) ltac:(done) E (turn_period z Hr)) as Eg.
  pose proof (Z.gcd_divide_l j period) as Hl. assert (0 < Z.gcd j period).
  { pose proof (Z.gcd_nonneg j period). enough (Z.gcd j period <> 0) by lia. intros E0%Z.gcd_eq_0_l. lia. }
  apply Z.divide_pos_le in Hl; [|lia].
  destruct (proper_divisor (Z.gcd j period)) as (p & Hp & k & Hk); [lia|apply Z.gcd_divide_r|].
  pose proof no_return_cofactors as Hc. rewrite forallb_forall in Hc. specialize (Hc p (proj1 (list_elem_of_In _ _) Hp)).
  apply (no_return_spec _ z Hc) in Hr; [lia|]. rewrite Hk. apply turn_mul; [lia|nia|done].
Qed.

Lemma lfsr_next_left l k : lfsr_at l k -> Z.of_nat k + 1 < period -> exists i l', lfsr_next l = Ret (i, l').
Proof.
  intros [Hs Hst _] Hk. unfold lfsr_next. pose proof (lfsr_iter_pos k _ Hs) as Hp. rewrite <- Hst in Hp.
  destruct (Z.leb_spec (lfsr l) 0); [lia|]. destruct (Z.eqb_spec (lfsr_step (lfsr l)) (lfsr_initial l)) as [E|]; [|by eexists _, _].
  exfalso. apply (turn_full (Z.of_nat k + 1) (lfsr_initial l) Hs); [lia|]. unfold turn.
  replace (Z.to_nat (Z.of_nat k + 1)) with (S k) by lia. rewrite Hst in E. exact E.
Qed.

Lemma lfsr_next_over l k : lfsr_at l k -> Z.of_nat k + 1 = period -> lfsr_next l = Panic.
Proof.
  intros [Hs Hst _] Hk. unfold lfsr_next. destruct (lfsr l <=? 0); [done|]. rewrite (proj2 (Z.eqb_eq _ _)); [done|].
  rewrite <- (turn_period (lfsr_initial l)) by (unfold in_24; lia). rewrite Hst, <- Hk. unfold turn.
  by replace (Z.to_nat (Z.of_nat k + 1)) with (S k) by lia.
Qed.

(** ** The indices a device can issue *)

Fixpoint issue (n : nat) (l : IndexLfsr) : outcome (list Z * IndexLfsr) :=
  match n with
  | O => Ret ([], l)
  | S n => let! (i, l) := lfsr_next l in let! (ixs, l) := issue n l in Ret (i :: ixs, l)
  end.

Lemma issue_spec n l k : lfsr_at l k -> Z.of_nat k + Z.of_nat n < period ->
  exists l', issue n l = Ret (map (index_of l) (seq k n), l') /\ lfsr_at l' (k + n).
Proof.
  revert l k. induction n as [|n IH]; intros l k Hl Hn; cbn [issue seq map].
  - exists l. by rewrite Nat.add_0_r.
  - destruct (lfsr_next_left l k Hl) as (i & l1 & E); [lia|]. rewrite E. cbn [obind].
    destruct (lfsr_next_spec _ _ _ _ Hl E) as (H1 & Hi & _). destruct (IH l1 (S k) H1) as (l' & Ei & Hl'); [lia|]. rewrite Ei. cbn [obind].
    exists l'. split; [|by rewrite <- Nat.add_succ_comm].
    assert (forall j, index_of l1 j = index_of l j) as Hsame.
    { intros j. unfold lfsr_next in E. destruct (lfsr l <=? 0); [done|]. destruct (_ =? lfsr_initial l); [done|]. by injection E as _ <-. }
    rewrite Hi, Hsame. by rewrite (map_ext _ _ Hsame).
Qed.

Lemma issue_over n l k : lfsr_at l k -> Z.of_nat k < period -> period <= Z.of_nat k + Z.of_nat n -> issue n l = Panic.
Proof.
  revert l k. induction n as [|n IH]; intros l k Hl Hk Hn; [lia|]. cbn [issue].
  destruct (decide (Z.of_nat k + 1 = period)) as [E|Hne]; [by rewrite (lfsr_next_over l k)|].
  destruct (lfsr_next_left l k Hl) as (i & l1 & E); [lia|]. rewrite E. cbn [obind].
  destruct (lfsr_next_spec _ _ _ _ Hl E) as (H1 & _). by rewrite (IH l1 (S k)) by (done || lia).
Qed.

Lemma index_of_apart l a b : 0 < lfsr_initial l < 2 ^ 24 -> (a < b)%nat -> Z.of_nat b < period -> index_of l a <> index_of l b.
Proof.
  intros Hs Hab Hb E. unfold index_of in E. apply (f_equal (fun x => Z.lxor x (lfsr_mask l))) in E.
  rewrite !Z.lxor_assoc, Z.lxor_nilpotent, !Z.lxor_0_r in E.
  apply (turn_full (Z.of_nat (b - a)) (lfsr_initial l) Hs); [lia|]. unfold turn. rewrite Nat2Z.id.
  apply (lfsr_iter_cancel a); [unfold in_24; lia|]. replace (a + (b - a))%nat with b by lia. lia.
Qed.
Lemma index_of_inj l a b : 0 < lfsr_initial l < 2 ^ 24 -> Z.of_nat a < period -> Z.of_nat b < period -> index_of l a = index_of l b -> a = b.
Proof.
  intros Hs Ha Hb E. destruct (Nat.lt_trichotomy a b) as [Hlt|[?|Hlt]]; [|done|]; exfalso; by eapply index_of_apart.
Qed.

Lemma index_of_range l j : 0 < lfsr_initial l < 2 ^ 24 -> in_24 (lfsr_mask l) -> in_24 (index_of l j).
Proof.
  intros Hs Hm. pose proof (lfsr_iter_pos j _ Hs). unfold index_of, in_24. apply lxor_range; [lia|lia|done].
Qed.

Lemma random_index_spec draws i rest : random_index draws = Some (i, rest) -> 0 < i < 2 ^ 24.
Proof.
  revert rest. induction draws as [|x draws IH]; intros rest; cbn [random_index]; [done|].
  destruct (Z.ltb_spec 0 (Z.land x LFSR_MAX)); [|apply IH]. intros [= <- <-]. split; [done|].
  change LFSR_MAX with (Z.ones 24). rewrite Z.land_ones by lia. by apply Z.mod_pos_bound.
Qed.

Lemma lfsr_default_at draws l : lfsr_default draws = Some l -> lfsr_at l 0 /\ in_24 (lfsr_mask l).
Proof.
  unfold lfsr_default. destruct (random_index draws) as [[seed rest]|] eqn:E1; [|done].
  destruct (random_index rest) as [[mask rest']|] eqn:E2; [|done]. intros [= <-].
  apply random_index_spec in E1, E2. split; [|unfold in_24; cbn; lia]. split; cbn; [done|done|]. lia.
Qed.

(** C25. A device can give every 24-bit index but one to its peers before it
    refuses. Whatever the seed and the mask the operating system drew, the
    register issues [2^24 - 2] indices without a panic, pairwise distinct and
    of 24 bits -- what the demultiplexing of a receiver index by its upper 24
    bits needs -- and the assertion that none is used twice stops the next. *)
Theorem peer_indices draws l n :
  lfsr_default draws = Some l ->
  (Z.of_nat n < period -> exists ixs l', issue n l = Ret (ixs, l') /\ length ixs = n /\ NoDup ixs /\ Forall (fun i => 0 <= i < 2 ^ 24) ixs) /\
  (period <= Z.of_nat n -> issue n l = Panic).
Proof.
  intros [Hl Hm]%lfsr_default_at. pose proof (la_seed _ _ Hl) as Hs. split.
  - intros Hn. destruct (issue_spec n l 0 Hl) as (l' & E & _); [lia|]. exists (map (index_of l) (seq 0 n)), l'.
    split; [done|]. split; [by rewrite length_map, length_seq|]. split.
    + apply NoDup_fmap_2_strong; [|apply NoDup_seq]. intros a b Ha%elem_of_seq Hb%elem_of_seq. apply index_of_inj; [done|lia..].
    + apply Forall_fmap, Forall_forall. intros j _. by apply index_of_range.
  - intros Hn. apply (issue_over n l 0); [done|done|lia].
Qed.

Lemma peer_indices_witness : exists ixs l',
  issue 3 {| lfsr_initial := 1; lfsr := 1; lfsr_mask := 5 |} = Ret (ixs, l') /\ length ixs = 3%nat /\ NoDup ixs.
Proof.
  destruct (peer_indices [0; 1; 16777216; 5] _ 3 eq_refl) as [H _]. destruct H as (ixs & l' & E & Hl & Hnd & _); [done|].
  exists ixs, l'. split; [exact E|by split].
Defined.
