(* ===== verification/Inbound.v ===== *)
(** Receiving a datagram that could be more than one packet kind,
    [noise/inbound.rs].

    [receive] tries the candidate readings of [Framing.inbound_candidates] in
    order and accepts the first that its [trial] authenticates. The trial is a
    parameter, as in the code: the tunnel's [authenticate_with_budget]
    ([Tunn.v]) or the device's anonymous ingress. It returns what it learned
    and, on a refusal, nothing.

    The theorems: what is accepted is the first reading that parses, passes the
    gate and authenticates; a datagram charges the rate limiter at most once;
    a reading that authenticates is never lost to an earlier false one. *)

From S2P Require Import Prelude Budget Instant Crypto Rand Tags Packet RateLimiter HeaderProtection Amnezia Framing Imitation.

Record Refusal := {
  error : WireGuardError;
  refusal_allows_hint : bool;
}.

Inductive Inbound (T : Type) :=
| NotOurs
| Accepted (t : T)
| Cookie (demand : CookieDemand)
| Refused (r : Refusal).
Arguments NotOurs {T}.
Arguments Accepted {T} t.
Arguments Cookie {T} demand.
Arguments Refused {T} r.

Section Receive.
Context `{Crypto} {T : Type}.

(** The variables of the loop. *)
Record Scan := {
  scan_load : LoadDecision;
  scan_cookie : option CookieDemand;
  scan_under_load : bool;
  scan_refusal : option WireGuardError;
  scan_hint_allowed : bool;
}.
Definition scan_start : Scan := {|
  scan_load := load_default; scan_cookie := None; scan_under_load := false;
  scan_refusal := None; scan_hint_allowed := true |}.

(** The closure [refuse]. *)
Definition refuse (e : WireGuardError) (s : Scan) : Scan := {|
  scan_load := scan_load s; scan_cookie := scan_cookie s; scan_under_load := scan_under_load s;
  scan_refusal := match scan_refusal s with Some e => Some e | None => Some e end;
  scan_hint_allowed := scan_hint_allowed s && allows_imitation_hint e |}.
Definition scan_set_load (ld : LoadDecision) (s : Scan) : Scan := {|
  scan_load := ld; scan_cookie := scan_cookie s; scan_under_load := scan_under_load s;
  scan_refusal := scan_refusal s; scan_hint_allowed := scan_hint_allowed s |}.
Definition hold_under_load (s : Scan) : Scan := {|
  scan_load := scan_load s; scan_cookie := scan_cookie s; scan_under_load := true;
  scan_refusal := scan_refusal s; scan_hint_allowed := scan_hint_allowed s |}.
Definition hold_cookie (d : CookieDemand) (s : Scan) : Scan := {|
  scan_load := scan_load s; scan_cookie := match scan_cookie s with Some d => Some d | None => Some d end;
  scan_under_load := scan_under_load s;
  scan_refusal := scan_refusal s; scan_hint_allowed := scan_hint_allowed s |}.

Variables (now : Z) (amnezia : AmneziaConfig) (obf : ObfuscationRanges) (src_addr : option Source) (datagram : bytes).
Variable trial : Packet -> outcome (result WireGuardError T).

(** The gate of one reading: [true] when it goes on to the trial. *)
Definition gate_reading (packet : Packet) (message : bytes) (s : Scan) (limiter : RateLimiter) : bool * Scan * RateLimiter :=
  match handshake_sender packet with
  | None => (true, s, limiter)
  | Some sender_idx =>
      let '(g, ld, limiter) :=
        gate_handshake now src_addr message sender_idx (cookie_defense amnezia) (scan_load s) limiter in
      let s := scan_set_load ld s in
      match g with
      | GatePass => (true, s, limiter)
      | GateBadMac => (false, refuse InvalidMac s, limiter)
      | GateUnderLoad => (false, hold_under_load s, limiter)
      | GateCookieDemanded demand => (false, hold_cookie demand s, limiter)
      end
  end.

(** The loop: the accepted value, or the variables after the last reading. *)
Fixpoint try_candidates (candidates : list InboundCandidate) (s : Scan) (limiter : RateLimiter)
  : outcome ((T + Scan) * RateLimiter) :=
  match candidates with
  | [] => Ret (inr s, limiter)
  | candidate :: candidates =>
      match candidate_message amnezia datagram candidate with
      | None => try_candidates candidates (refuse InvalidPacket s) limiter
      | Some message =>
          match parse_incoming_packet obf message with
          | Err e => try_candidates candidates (refuse e s) limiter
          | Ok packet =>
              let '(pass, s, limiter) := gate_reading packet message s limiter in
              if negb pass then try_candidates candidates s limiter else
              let! r := trial packet in
              match r with
              | Ok accepted => Ret (inl accepted, limiter)
              | Err e => try_candidates candidates (refuse e s) limiter
              end
          end
      end
  end.

Definition receive (candidates : list InboundCandidate) (limiter : RateLimiter) : outcome (Inbound T * RateLimiter) :=
  let! (r, limiter) := try_candidates candidates scan_start limiter in
  Ret (match r with
       | inl accepted => Accepted accepted
       | inr s =>
           match scan_cookie s with
           | Some demand => Cookie demand
           | None =>
               if scan_under_load s then Refused {| error := UnderLoad; refusal_allows_hint := false |}
               else match scan_refusal s with
                    | Some e => Refused {| error := e; refusal_allows_hint := scan_hint_allowed s |}
                    | None => NotOurs
                    end
           end
       end, limiter).
End Receive.

(** ** What is accepted *)

Section ReceiveSpec.
Context `{Crypto} {T : Type}.
Variables (now : Z) (amnezia : AmneziaConfig) (obf : ObfuscationRanges) (src_addr : option Source) (datagram : bytes).
Variable trial : Packet -> outcome (result WireGuardError T).

(** A reading that needs no load decision to reach its trial: a cookie reply or
    transport, or any handshake message with a valid mac1 when the cookie
    defence is off. *)
Definition ungated (limiter : RateLimiter) (message : bytes) (packet : Packet) : bool :=
  match handshake_sender packet with
  | None => true
  | Some _ => bool_decide (cookie_defense amnezia = Bypassed) && mac1_valid limiter message
  end.

(** The reading [cand] of the datagram. *)
Definition reads_as (cand : InboundCandidate) (message : bytes) (packet : Packet) : Prop :=
  candidate_message amnezia datagram cand = Some message /\ parse_incoming_packet obf message = Ok packet.

(** No ungated reading of [cand] authenticates. *)
Definition passed_over (limiter : RateLimiter) (cand : InboundCandidate) : Prop :=
  forall message packet t, reads_as cand message packet -> ungated limiter message packet = true ->
    trial packet <> Ret (Ok t).

Definition accepted_by (limiter : RateLimiter) (candidates : list InboundCandidate) (t : T) : Prop :=
  exists l1 cand l2 message packet, candidates = l1 ++ cand :: l2 /\ reads_as cand message packet /\
    (handshake_sender packet <> None -> mac1_valid limiter message = true) /\
    trial packet = Ret (Ok t) /\ Forall (passed_over limiter) l1.

Lemma gate_reading_spec packet message s limiter r0 pass s' limiter' :
  charged now src_addr r0 (scan_load s) limiter ->
  gate_reading now amnezia src_addr packet message s limiter = (pass, s', limiter') ->
  charged now src_addr r0 (scan_load s') limiter' /\ same_keys limiter limiter' /\
  (pass = true -> handshake_sender packet <> None -> mac1_valid limiter message = true) /\
  (ungated limiter message packet = true -> pass = true).
Proof.
  intros Hch. unfold gate_reading, ungated. destruct (handshake_sender packet) as [idx|]; [|by intros [= <- <- <-]].
  destruct (gate_handshake _ _ _ _ _ _ _) as [[g ld] lim] eqn:Hg. intros Heq.
  pose proof (gate_charged _ _ _ _ _ _ _ _ _ _ _ Hch Hg) as Hch'. pose proof (gate_keys _ _ _ _ _ _ _ _ _ _ Hg) as Hk.
  assert (scan_load s' = ld /\ limiter' = lim /\ (pass = true -> g = GatePass) /\ (g = GatePass -> pass = true))
    as (-> & -> & Hp & Hp') by (by destruct g; simplify_eq). split_and!; try done.
  - intros ->%Hp _. by eapply gate_pass_mac1.
  - intros [Hb%bool_decide_eq_true Hm]%andb_prop. apply Hp'. rewrite Hb in Hg.
    rewrite gate_bypassed in Hg by done. congruence.
Qed.

Lemma mac1_same_keys l l' m : same_keys l l' -> mac1_valid l' m = mac1_valid l m.
Proof. intros (_ & _ & Hm & _). unfold mac1_valid. by rewrite Hm. Qed.

Lemma passed_over_keys l l' cand : same_keys l l' -> passed_over l cand <-> passed_over l' cand.
Proof.
  intros Hk. unfold passed_over, ungated. split; intros Hp message packet t Hr Hu; apply (Hp message packet t Hr);
    by rewrite ?(mac1_same_keys l l' message Hk) in *.
Qed.

Definition trial_safe : Prop := forall packet, packet_ok packet -> trial packet <> Panic.

Lemma try_candidates_spec candidates s limiter r0 :
  trial_safe -> charged now src_addr r0 (scan_load s) limiter ->
  safely (try_candidates now amnezia obf src_addr datagram trial candidates s limiter) (fun '(r, limiter') =>
    (exists ld, charged now src_addr r0 ld limiter') /\
    match r with
    | inl t => accepted_by limiter candidates t
    | inr _ => Forall (passed_over limiter) candidates
    end).
Proof.
  intros Hsafe. revert s limiter. induction candidates as [|cand cands IH]; intros s limiter Hch; cbn [try_candidates].
  { split; [by eexists|apply List.Forall_nil]. }
  assert (forall s' lim', same_keys limiter lim' -> charged now src_addr r0 (scan_load s') lim' ->
    passed_over limiter cand ->
    safely (try_candidates now amnezia obf src_addr datagram trial cands s' lim') (fun '(r, limiter') =>
      (exists ld, charged now src_addr r0 ld limiter') /\
      match r with inl t => accepted_by limiter (cand :: cands) t | inr _ => Forall (passed_over limiter) (cand :: cands) end))
    as Hskip.
  { intros s' lim' Hk Hch' Hp. eapply safely_mono; [by apply IH|]. intros [[t|s''] l'] [Hc Hr]; (split; [done|]).
    - destruct Hr as (l1 & c & l2 & m & pk & -> & Hrd & Hm & Ht & Hf).
      exists (cand :: l1), c, l2, m, pk. split_and!; try done.
      + intros Hh. rewrite <- (mac1_same_keys _ _ m Hk). by apply Hm.
      + apply List.Forall_cons; [done|]. eapply List.Forall_impl; [|exact Hf]. intros c'. by apply passed_over_keys.
    - apply List.Forall_cons; [done|]. eapply List.Forall_impl; [|exact Hr]. intros c'. by apply passed_over_keys. }
  assert (same_keys limiter limiter) as Hrefl by done.
  destruct (candidate_message amnezia datagram cand) as [message|] eqn:Hcm;
    [|by apply Hskip; [..|intros m p t [Hm _]; congruence]].
  destruct (parse_incoming_packet obf message) as [packet|e] eqn:Hpar;
    [|by apply Hskip; [..|intros m p t [Hm Hp]; congruence]].
  destruct (gate_reading now amnezia src_addr packet message s limiter) as [[pass s1] lim1] eqn:Hg.
  destruct (gate_reading_spec _ _ _ _ _ _ _ _ Hch Hg) as (Hch1 & Hk1 & Hmac & Hun).
  assert (forall m p, reads_as cand m p -> m = message /\ p = packet) as Hread.
  { intros m p [Hm Hp]. split; congruence. }
  destruct pass; cbn [negb]; [|apply Hskip; [done..|]; intros m p t [-> ->]%Hread Hu; by specialize (Hun Hu)].
  destruct (trial packet) as [[t|e]|] eqn:Ht; cbn [obind].
  - split; [by eexists|]. exists [], cand, cands, message, packet. split_and!; try done. auto.
  - apply Hskip; [done..|]. intros m p t [-> ->]%Hread _. congruence.
  - exfalso. apply (Hsafe packet); [by eapply parse_packet_ok|done].
Qed.

(** [receive], every outcome. *)
Lemma receive_spec candidates limiter :
  trial_safe ->
  safely (receive now amnezia obf src_addr datagram trial candidates limiter) (fun '(r, limiter') =>
    (exists ld, charged now src_addr limiter ld limiter') /\
    match r with
    | Accepted t => accepted_by limiter candidates t
    | _ => Forall (passed_over limiter) candidates
    end).
Proof.
  intros Hsafe. unfold receive. apply safely_bind.
  eapply safely_mono; [by apply (try_candidates_spec candidates scan_start limiter limiter)|].
  intros [[t|s] l] [Hch Hr]; (split; [done|]); [done|]. repeat case_match; simplify_eq; done.
Qed.

(** The demand a cookie outcome carries. *)
Definition demand_ok (d : CookieDemand) : Prop := in_u32 (cd_sender_idx d) /\ len (cd_cookie d) = 16.
Definition scan_ok (s : Scan) : Prop := match scan_cookie s with Some d => demand_ok d | None => True end.

Lemma gate_demand_ok `{!CryptoLaws} message idx defense ld r d ld' r' :
  in_u32 idx -> gate_handshake now src_addr message idx defense ld r = (GateCookieDemanded d, ld', r') -> demand_ok d.
Proof.
  unfold gate_handshake. destruct (mac_fields message) as [[msg mac1] mac2]. intros Hi.
  destruct (negb _); [done|]. destruct (bool_decide _); [done|]. destruct (get_load _ _ _ _) as [[l ld1] r1].
  destruct (bool_decide _); [done|]. destruct src_addr as [addr|]; [|done]. destruct (negb _).
  - intros [= <- <- <-]. split; [done|]. apply len_current_cookie.
  - destruct (get_proven _ _ _ _ _) as [[[] ld2] r2]; congruence.
Qed.

Lemma gate_reading_ok `{!CryptoLaws} packet message s limiter pass s' limiter' :
  packet_ok packet -> scan_ok s -> gate_reading now amnezia src_addr packet message s limiter = (pass, s', limiter') -> scan_ok s'.
Proof.
  intros Hp Hs. unfold gate_reading. destruct (handshake_sender packet) as [idx|] eqn:Hh; [|by intros [= <- <- <-]].
  assert (in_u32 idx) as Hi by (destruct packet; simplify_eq/=; by destruct Hp).
  destruct (gate_handshake _ _ _ _ _ _ _) as [[g ld] lim] eqn:Hg. destruct g; intros [= <- <- <-]; try done.
  apply gate_demand_ok in Hg; [|done]. unfold scan_ok, hold_cookie in *. cbn in *. by destruct (scan_cookie s).
Qed.

Lemma try_candidates_demand `{!CryptoLaws} candidates s limiter s' limiter' :
  scan_ok s -> try_candidates now amnezia obf src_addr datagram trial candidates s limiter = Ret (inr s', limiter') -> scan_ok s'.
Proof.
  revert s limiter. induction candidates as [|cand cands IH]; intros s limiter Hs; cbn [try_candidates]; [by intros [= <- <-]|].
  destruct (candidate_message _ _ _) as [message|]; [|by apply IH].
  destruct (parse_incoming_packet obf message) as [packet|e] eqn:Hp; [|by apply IH]. apply parse_packet_ok in Hp.
  destruct (gate_reading _ _ _ _ _ _ _) as [[pass s1] lim1] eqn:Hg. apply gate_reading_ok in Hg; [|done..].
  destruct pass; cbn [negb]; [|by apply IH]. destruct (trial packet) as [[t|e]|]; cbn [obind]; [done|by apply IH|done].
Qed.

Lemma receive_demand `{!CryptoLaws} candidates limiter d limiter' :
  receive now amnezia obf src_addr datagram trial candidates limiter = Ret (Cookie d, limiter') -> demand_ok d.
Proof.
  unfold receive. destruct (try_candidates _ _ _ _ _ _ _ _ _) as [[[t|s] l]|] eqn:Ht; cbn [obind]; [done| |done].
  apply try_candidates_demand in Ht; [|done]. unfold scan_ok in Ht. destruct (scan_cookie s); [by intros [= <- <-]|].
  destruct (scan_under_load s); [done|]. by destruct (scan_refusal s).
Qed.

(** A reading the gate lets through on a datagram of its own. *)
Definition passes_gate (limiter : RateLimiter) (message : bytes) (packet : Packet) : Prop :=
  handshake_sender packet <> None -> mac1_valid limiter message = true /\
    (cookie_defense amnezia = Bypassed \/ fst (is_under_load now src_addr limiter) = Clear).

(** No load decided yet, or a clear one. *)
Definition unloaded (limiter0 : RateLimiter) (s : Scan) (limiter : RateLimiter) : Prop :=
  same_keys limiter0 limiter /\
  (cookie_defense amnezia = Bypassed \/
   match ld_load (scan_load s) with Some l => l = Clear | None => limiter = limiter0 end).

Lemma gate_unloaded limiter0 packet message s limiter pass s' limiter' :
  (cookie_defense amnezia = Bypassed \/ fst (is_under_load now src_addr limiter0) = Clear) ->
  unloaded limiter0 s limiter -> gate_reading now amnezia src_addr packet message s limiter = (pass, s', limiter') ->
  unloaded limiter0 s' limiter' /\ (mac1_valid limiter0 message = true -> pass = true).
Proof.
  intros Hcl [Hk Hl]. unfold gate_reading. destruct (handshake_sender packet) as [idx|] eqn:Hh; [|by intros [= <- <- <-]].
  destruct (gate_handshake _ _ _ _ _ _ _) as [[g ld] lim] eqn:Hg.
  pose proof (same_keys_trans _ _ _ Hk (gate_keys _ _ _ _ _ _ _ _ _ _ Hg)) as Hk'.
  assert (unloaded limiter0 (scan_set_load ld s) lim /\ (mac1_valid limiter message = true -> g = GatePass)) as [Hu Hgp].
  { revert Hg. unfold gate_handshake, mac1_valid. destruct (mac_fields message) as [[msg mac1] mac2].
    destruct (constant_time_eq _ mac1) eqn:Hm; cbn [negb]; [|intros [= <- <- <-]; split; [|done]; by split].
    case_bool_decide as Hb; [intros [= <- <- <-]; split; [|done]; by split|].
    destruct (get_load _ _ _ _) as [[l ld1] r1] eqn:Hgl.
    assert (l = Clear /\ ld_load ld1 = Some Clear) as [-> Hld].
    { destruct Hl as [?|Hl]; [done|]. destruct Hcl as [?|Hcl]; [done|]. unfold get_load in Hgl.
      destruct (ld_load (scan_load s)) as [l0|] eqn:El; [injection Hgl as <- <- <-; by subst|]. subst limiter.
      destruct (is_under_load now src_addr limiter0) as [l0 r0]. injection Hgl as <- <- <-. cbn in *. by subst. }
    rewrite bool_decide_eq_true_2 by done. intros [= <- <- <-]. split; [|done]. split; [done|]. right. cbn. by rewrite Hld. }
  destruct g; intros [= <- <- <-]; (split; [exact Hu|]); try done; intros Hm.
  all: rewrite <- (mac1_same_keys _ _ message Hk) in Hm; by specialize (Hgp Hm).
Qed.

(** A genuine reading is accepted, when no other reading authenticates. *)
Lemma try_candidates_accepts candidates cand message packet t s limiter limiter0 :
  trial_safe -> (handshake_sender packet <> None -> unloaded limiter0 s limiter) ->
  In cand candidates -> reads_as cand message packet -> passes_gate limiter0 message packet ->
  trial packet = Ret (Ok t) ->
  (forall c m p x, In c candidates -> reads_as c m p -> trial p = Ret (Ok x) -> x = t) ->
  exists limiter', try_candidates now amnezia obf src_addr datagram trial candidates s limiter = Ret (inl t, limiter').
Proof.
  intros Hsafe. revert s limiter. induction candidates as [|c cands IH]; intros s limiter Hu Hin Hr Hg Ht Hother; [done|].
  cbn [try_candidates].
  assert (In cand cands -> forall s' l', (handshake_sender packet <> None -> unloaded limiter0 s' l') ->
    exists limiter', try_candidates now amnezia obf src_addr datagram trial cands s' l' = Ret (inl t, limiter')) as Hrest.
  { intros Hin' s' l' Hu'. apply (IH s' l' Hu' Hin' Hr Hg Ht). intros c' m p x Hc'. apply (Hother c' m p x). by right. }
  destruct Hin as [-> | Hin].
  - destruct Hr as [-> Hp]. rewrite Hp. destruct (gate_reading _ _ _ _ _ _ _) as [[pass s1] lim1] eqn:Hgr.
    assert (pass = true) as ->; [|cbn [negb]; rewrite Ht; cbn [obind]; by eexists].
    destruct (handshake_sender packet) as [idx|] eqn:Hh; [|by unfold gate_reading in Hgr; rewrite Hh in Hgr; injection Hgr].
    destruct Hg as [Hm Hcl]; [by rewrite Hh|]. by eapply (gate_unloaded _ _ _ _ _ _ _ _ Hcl (Hu ltac:(done))).
  - specialize (Hrest Hin).
    destruct (candidate_message amnezia datagram c) as [m|] eqn:Hm; [|by apply Hrest].
    destruct (parse_incoming_packet obf m) as [p|e] eqn:Hp; [|by apply Hrest].
    destruct (gate_reading _ _ _ _ _ _ _) as [[pass s1] lim1] eqn:Hgr.
    assert (handshake_sender packet <> None -> unloaded limiter0 s1 lim1) as Hu1.
    { intros Hh. by eapply (gate_unloaded _ _ _ _ _ _ _ _ (proj2 (Hg Hh)) (Hu Hh)). }
    destruct pass; cbn [negb]; [|by apply Hrest]. destruct (trial p) as [[x|e]|] eqn:Hx; cbn [obind].
    + assert (x = t) as -> by (apply (Hother c m p x); [by left|done|done]). by eexists.
    + by apply Hrest.
    + exfalso. apply (Hsafe p); [by eapply parse_packet_ok|done].
Qed.

Lemma receive_accepts candidates cand message packet t limiter :
  trial_safe -> In cand candidates -> reads_as cand message packet -> passes_gate limiter message packet ->
  trial packet = Ret (Ok t) ->
  (forall c m p x, In c candidates -> reads_as c m p -> trial p = Ret (Ok x) -> x = t) ->
  exists limiter', receive now amnezia obf src_addr datagram trial candidates limiter = Ret (Accepted t, limiter').
Proof.
  intros Hsafe Hin Hr Hg Ht Ho. unfold receive.
  destruct (try_candidates_accepts candidates cand message packet t scan_start limiter limiter) as [lim ->]; try done; [|by exists lim].
  intros _. split; [done|by right].
Qed.

(** What a datagram is taken for. Whatever the candidate readings and
    whatever the trial, as long as the trial does not panic: an accepted
    datagram is accepted as a reading that parses, has a valid mac1 if it is a
    handshake message, and authenticated -- and no earlier reading that reaches
    its trial without a load decision authenticates; a datagram that is not
    accepted has no such reading at all. So a false reading in front never
    costs a genuine transport frame or cookie reply, nor any message when the
    cookie defence is off. *)
Theorem receive_sound candidates limiter :
  trial_safe ->
  safely (receive now amnezia obf src_addr datagram trial candidates limiter) (fun '(r, _) =>
    match r with
    | Accepted t => accepted_by limiter candidates t
    | _ => Forall (passed_over limiter) candidates
    end).
Proof.
  intros Hsafe. eapply safely_mono; [by apply receive_spec|]. by intros [r l] [_ Hr].
Qed.

(** A datagram is one event for the handshake budget, however many ways it is
    read: receiving it leaves the limiter as it was, or charged by exactly one
    load decision, or by that one load decision and one charge of a
    cookie-proven message. *)
Theorem receive_charges_once candidates limiter :
  trial_safe ->
  safely (receive now amnezia obf src_addr datagram trial candidates limiter) (fun '(_, limiter') =>
    limiter' = limiter \/
    limiter' = snd (is_under_load now src_addr limiter) \/
    exists addr, src_addr = Some addr /\
      limiter' = snd (admit_proven now (fst (is_under_load now src_addr limiter)) addr (snd (is_under_load now src_addr limiter)))).
Proof.
  intros Hsafe. eapply safely_mono; [by apply receive_spec|].
  intros [r l] [[ld Hch] _]. unfold charged in Hch.
  destruct (ld_load ld) as [lo|], (ld_proven ld) as [b|].
  - destruct Hch as (addr & Hs & -> & Ha). right; right. exists addr. by rewrite Ha.
  - right; left. by rewrite Hch.
  - done.
  - by left.
Qed.
End ReceiveSpec.

(** ** Witnesses *)

Import Toy.

(** A transport frame with no junk prefix, read as what it is. *)
Definition ex_frame : bytes := data_bytes 4 9 0 (zeros 16).
Definition ex_trial (p : Packet) : outcome (result WireGuardError Z) :=
  match p with PPacketData d => Ret (Ok (pd_receiver_idx d)) | _ => Ret (Err InvalidAeadTag) end.
Definition ex_plain : AmneziaConfig := config_new 0 0 0 0.
Definition ex_candidates : list InboundCandidate := inbound_candidates ex_plain obf_default ex_frame.

Lemma ex_trial_safe : trial_safe ex_trial.
Proof. by intros []. Qed.

Lemma receive_sound_witness :
  exists t lim', receive 0 ex_plain obf_default None ex_frame ex_trial ex_candidates ex_limiter = Ret (Accepted t, lim') /\
    accepted_by ex_plain obf_default ex_frame ex_trial ex_limiter ex_candidates t.
Proof.
  pose proof (receive_sound 0 ex_plain obf_default None ex_frame ex_trial ex_candidates ex_limiter ex_trial_safe) as Hr.
  destruct (receive _ _ _ _ _ _ _ _) as [[[|t| |] lim']|] eqn:E; try (exfalso; vm_compute in E; congruence).
  by exists t, lim'.
Defined.

Lemma receive_charges_once_witness :
  exists r lim', receive 0 ex_plain obf_default None ex_frame ex_trial ex_candidates ex_limiter = Ret (r, lim') /\
    (lim' = ex_limiter \/ lim' = snd (is_under_load 0 None ex_limiter) \/ exists addr : Source, None = Some addr).
Proof.
  pose proof (receive_charges_once 0 ex_plain obf_default None ex_frame ex_trial ex_candidates ex_limiter ex_trial_safe) as Hr.
  destruct (receive _ _ _ _ _ _ _ _) as [[r lim']|] eqn:E; [|done]. exists r, lim'. split; [reflexivity|].
  destruct Hr as [Hr|[Hr|(addr & Hr & _)]]; [by left|by right; left|right; right; by exists addr].
Defined.
