(* ===== verification/Timers.v ===== *)
(** The timers of a tunnel, [noise/timers.rs]: the state [Timers] and the
    operations on it alone. What drives the tunnel from them is in [Tunn.v].

    Durations are nanoseconds since the tunnel started. The nine named timers
    are a function of their name ([TimerName::Top] only counts them); the eight
    session timers are a list by ring slot. A call reads the clock once, as
    [now]. *)

From stdpp Require Import functions.
From S2P Require Import Prelude Instant Rand Packet Amnezia.

Inductive TimerName :=
| TimeCurrent
| TimeSessionEstablished
| TimeLastHandshakeStarted
| TimeLastPacketReceived
| TimeLastPacketSent
| TimeLastDataPacketReceived
| TimeLastDataPacketSent
| TimeCookieReceived
| TimePersistentKeepalive.
#[export] Instance TimerName_eq_dec : EqDecision TimerName.
Proof. solve_decision. Defined.

Definition untuned_attempt_window : Z :=
  let intervals := as_secs REKEY_ATTEMPT_TIME / as_secs REKEY_TIMEOUT in
  REKEY_ATTEMPT_TIME + from_millis REKEY_TIMEOUT_JITTER_MAX_MS * intervals.

Record Timers (R : Type) := {
  is_initiator : bool;
  time_started : Z;
  ticks : TimerName -> Z;
  session_timers : list Z;
  want_keepalive : option Z;
  want_handshake : option Z;
  persistent_keepalive : Z * Z;
  persistent_keepalive_current : Z;
  persistent_keepalive_due : bool;
  jitter_rng : R;
  should_reset_rr : bool;
  retransmit_current : Z;
  handshake_attempts : Z;
  max_retransmissions_current : Z;
  keepalive_current : Z;
  new_handshake_current : Z;
  rekey_after_current : Z;
  refresh_receive_current : Z;
}.
Arguments is_initiator {R} t.
Arguments time_started {R} t.
Arguments ticks {R} t.
Arguments session_timers {R} t.
Arguments want_keepalive {R} t.
Arguments want_handshake {R} t.
Arguments persistent_keepalive {R} t.
Arguments persistent_keepalive_current {R} t.
Arguments persistent_keepalive_due {R} t.
Arguments jitter_rng {R} t.
Arguments should_reset_rr {R} t.
Arguments retransmit_current {R} t.
Arguments handshake_attempts {R} t.
Arguments max_retransmissions_current {R} t.
Arguments keepalive_current {R} t.
Arguments new_handshake_current {R} t.
Arguments rekey_after_current {R} t.
Arguments refresh_receive_current {R} t.

Section Timers.
Context {R : Type}.
Implicit Types t : Timers R.

Definition tm_set_is_initiator (v : bool) (t : Timers R) : Timers R := {|
  is_initiator := v; time_started := time_started t; ticks := ticks t; session_timers := session_timers t;
  want_keepalive := want_keepalive t; want_handshake := want_handshake t;
  persistent_keepalive := persistent_keepalive t; persistent_keepalive_current := persistent_keepalive_current t;
  persistent_keepalive_due := persistent_keepalive_due t; jitter_rng := jitter_rng t;
  should_reset_rr := should_reset_rr t; retransmit_current := retransmit_current t;
  handshake_attempts := handshake_attempts t; max_retransmissions_current := max_retransmissions_current t;
  keepalive_current := keepalive_current t; new_handshake_current := new_handshake_current t;
  rekey_after_current := rekey_after_current t; refresh_receive_current := refresh_receive_current t |}.
Definition tm_set_ticks (v : TimerName -> Z) (t : Timers R) : Timers R := {|
  is_initiator := is_initiator t; time_started := time_started t; ticks := v; session_timers := session_timers t;
  want_keepalive := want_keepalive t; want_handshake := want_handshake t;
  persistent_keepalive := persistent_keepalive t; persistent_keepalive_current := persistent_keepalive_current t;
  persistent_keepalive_due := persistent_keepalive_due t; jitter_rng := jitter_rng t;
  should_reset_rr := should_reset_rr t; retransmit_current := retransmit_current t;
  handshake_attempts := handshake_attempts t; max_retransmissions_current := max_retransmissions_current t;
  keepalive_current := keepalive_current t; new_handshake_current := new_handshake_current t;
  rekey_after_current := rekey_after_current t; refresh_receive_current := refresh_receive_current t |}.
Definition tm_set_session_timers (v : list Z) (t : Timers R) : Timers R := {|
  is_initiator := is_initiator t; time_started := time_started t; ticks := ticks t; session_timers := v;
  want_keepalive := want_keepalive t; want_handshake := want_handshake t;
  persistent_keepalive := persistent_keepalive t; persistent_keepalive_current := persistent_keepalive_current t;
  persistent_keepalive_due := persistent_keepalive_due t; jitter_rng := jitter_rng t;
  should_reset_rr := should_reset_rr t; retransmit_current := retransmit_current t;
  handshake_attempts := handshake_attempts t; max_retransmissions_current := max_retransmissions_current t;
  keepalive_current := keepalive_current t; new_handshake_current := new_handshake_current t;
  rekey_after_current := rekey_after_current t; refresh_receive_current := refresh_receive_current t |}.
Definition tm_set_want_keepalive (v : option Z) (t : Timers R) : Timers R := {|
  is_initiator := is_initiator t; time_started := time_started t; ticks := ticks t;
  session_timers := session_timers t; want_keepalive := v; want_handshake := want_handshake t;
  persistent_keepalive := persistent_keepalive t; persistent_keepalive_current := persistent_keepalive_current t;
  persistent_keepalive_due := persistent_keepalive_due t; jitter_rng := jitter_rng t;
  should_reset_rr := should_reset_rr t; retransmit_current := retransmit_current t;
  handshake_attempts := handshake_attempts t; max_retransmissions_current := max_retransmissions_current t;
  keepalive_current := keepalive_current t; new_handshake_current := new_handshake_current t;
  rekey_after_current := rekey_after_current t; refresh_receive_current := refresh_receive_current t |}.
Definition tm_set_want_handshake (v : option Z) (t : Timers R) : Timers R := {|
  is_initiator := is_initiator t; time_started := time_started t; ticks := ticks t;
  session_timers := session_timers t; want_keepalive := want_keepalive t; want_handshake := v;
  persistent_keepalive := persistent_keepalive t; persistent_keepalive_current := persistent_keepalive_current t;
  persistent_keepalive_due := persistent_keepalive_due t; jitter_rng := jitter_rng t;
  should_reset_rr := should_reset_rr t; retransmit_current := retransmit_current t;
  handshake_attempts := handshake_attempts t; max_retransmissions_current := max_retransmissions_current t;
  keepalive_current := keepalive_current t; new_handshake_current := new_handshake_current t;
  rekey_after_current := rekey_after_current t; refresh_receive_current := refresh_receive_current t |}.
Definition tm_set_persistent_keepalive (v : Z * Z) (t : Timers R) : Timers R := {|
  is_initiator := is_initiator t; time_started := time_started t; ticks := ticks t;
  session_timers := session_timers t; want_keepalive := want_keepalive t; want_handshake := want_handshake t;
  persistent_keepalive := v; persistent_keepalive_current := persistent_keepalive_current t;
  persistent_keepalive_due := persistent_keepalive_due t; jitter_rng := jitter_rng t;
  should_reset_rr := should_reset_rr t; retransmit_current := retransmit_current t;
  handshake_attempts := handshake_attempts t; max_retransmissions_current := max_retransmissions_current t;
  keepalive_current := keepalive_current t; new_handshake_current := new_handshake_current t;
  rekey_after_current := rekey_after_current t; refresh_receive_current := refresh_receive_current t |}.
Definition tm_set_persistent_keepalive_current (v : Z) (t : Timers R) : Timers R := {|
  is_initiator := is_initiator t; time_started := time_started t; ticks := ticks t;
  session_timers := session_timers t; want_keepalive := want_keepalive t; want_handshake := want_handshake t;
  persistent_keepalive := persistent_keepalive t; persistent_keepalive_current := v;
  persistent_keepalive_due := persistent_keepalive_due t; jitter_rng := jitter_rng t;
  should_reset_rr := should_reset_rr t; retransmit_current := retransmit_current t;
  handshake_attempts := handshake_attempts t; max_retransmissions_current := max_retransmissions_current t;
  keepalive_current := keepalive_current t; new_handshake_current := new_handshake_current t;
  rekey_after_current := rekey_after_current t; refresh_receive_current := refresh_receive_current t |}.
Definition tm_set_persistent_keepalive_due (v : bool) (t : Timers R) : Timers R := {|
  is_initiator := is_initiator t; time_started := time_started t; ticks := ticks t;
  session_timers := session_timers t; want_keepalive := want_keepalive t; want_handshake := want_handshake t;
  persistent_keepalive := persistent_keepalive t; persistent_keepalive_current := persistent_keepalive_current t;
  persistent_keepalive_due := v; jitter_rng := jitter_rng t; should_reset_rr := should_reset_rr t;
  retransmit_current := retransmit_current t; handshake_attempts := handshake_attempts t;
  max_retransmissions_current := max_retransmissions_current t; keepalive_current := keepalive_current t;
  new_handshake_current := new_handshake_current t; rekey_after_current := rekey_after_current t;
  refresh_receive_current := refresh_receive_current t |}.
Definition tm_set_jitter_rng (v : R) (t : Timers R) : Timers R := {|
  is_initiator := is_initiator t; time_started := time_started t; ticks := ticks t;
  session_timers := session_timers t; want_keepalive := want_keepalive t; want_handshake := want_handshake t;
  persistent_keepalive := persistent_keepalive t; persistent_keepalive_current := persistent_keepalive_current t;
  persistent_keepalive_due := persistent_keepalive_due t; jitter_rng := v; should_reset_rr := should_reset_rr t;
  retransmit_current := retransmit_current t; handshake_attempts := handshake_attempts t;
  max_retransmissions_current := max_retransmissions_current t; keepalive_current := keepalive_current t;
  new_handshake_current := new_handshake_current t; rekey_after_current := rekey_after_current t;
  refresh_receive_current := refresh_receive_current t |}.
Definition tm_set_should_reset_rr (v : bool) (t : Timers R) : Timers R := {|
  is_initiator := is_initiator t; time_started := time_started t; ticks := ticks t;
  session_timers := session_timers t; want_keepalive := want_keepalive t; want_handshake := want_handshake t;
  persistent_keepalive := persistent_keepalive t; persistent_keepalive_current := persistent_keepalive_current t;
  persistent_keepalive_due := persistent_keepalive_due t; jitter_rng := jitter_rng t; should_reset_rr := v;
  retransmit_current := retransmit_current t; handshake_attempts := handshake_attempts t;
  max_retransmissions_current := max_retransmissions_current t; keepalive_current := keepalive_current t;
  new_handshake_current := new_handshake_current t; rekey_after_current := rekey_after_current t;
  refresh_receive_current := refresh_receive_current t |}.
Definition tm_set_retransmit_current (v : Z) (t : Timers R) : Timers R := {|
  is_initiator := is_initiator t; time_started := time_started t; ticks := ticks t;
  session_timers := session_timers t; want_keepalive := want_keepalive t; want_handshake := want_handshake t;
  persistent_keepalive := persistent_keepalive t; persistent_keepalive_current := persistent_keepalive_current t;
  persistent_keepalive_due := persistent_keepalive_due t; jitter_rng := jitter_rng t;
  should_reset_rr := should_reset_rr t; retransmit_current := v; handshake_attempts := handshake_attempts t;
  max_retransmissions_current := max_retransmissions_current t; keepalive_current := keepalive_current t;
  new_handshake_current := new_handshake_current t; rekey_after_current := rekey_after_current t;
  refresh_receive_current := refresh_receive_current t |}.
Definition tm_set_handshake_attempts (v : Z) (t : Timers R) : Timers R := {|
  is_initiator := is_initiator t; time_started := time_started t; ticks := ticks t;
  session_timers := session_timers t; want_keepalive := want_keepalive t; want_handshake := want_handshake t;
  persistent_keepalive := persistent_keepalive t; persistent_keepalive_current := persistent_keepalive_current t;
  persistent_keepalive_due := persistent_keepalive_due t; jitter_rng := jitter_rng t;
  should_reset_rr := should_reset_rr t; retransmit_current := retransmit_current t; handshake_attempts := v;
  max_retransmissions_current := max_retransmissions_current t; keepalive_current := keepalive_current t;
  new_handshake_current := new_handshake_current t; rekey_after_current := rekey_after_current t;
  refresh_receive_current := refresh_receive_current t |}.
Definition tm_set_max_retransmissions_current (v : Z) (t : Timers R) : Timers R := {|
  is_initiator := is_initiator t; time_started := time_started t; ticks := ticks t;
  session_timers := session_timers t; want_keepalive := want_keepalive t; want_handshake := want_handshake t;
  persistent_keepalive := persistent_keepalive t; persistent_keepalive_current := persistent_keepalive_current t;
  persistent_keepalive_due := persistent_keepalive_due t; jitter_rng := jitter_rng t;
  should_reset_rr := should_reset_rr t; retransmit_current := retransmit_current t;
  handshake_attempts := handshake_attempts t; max_retransmissions_current := v;
  keepalive_current := keepalive_current t; new_handshake_current := new_handshake_current t;
  rekey_after_current := rekey_after_current t; refresh_receive_current := refresh_receive_current t |}.
Definition tm_set_keepalive_current (v : Z) (t : Timers R) : Timers R := {|
  is_initiator := is_initiator t; time_started := time_started t; ticks := ticks t;
  session_timers := session_timers t; want_keepalive := want_keepalive t; want_handshake := want_handshake t;
  persistent_keepalive := persistent_keepalive t; persistent_keepalive_current := persistent_keepalive_current t;
  persistent_keepalive_due := persistent_keepalive_due t; jitter_rng := jitter_rng t;
  should_reset_rr := should_reset_rr t; retransmit_current := retransmit_current t;
  handshake_attempts := handshake_attempts t; max_retransmissions_current := max_retransmissions_current t;
  keepalive_current := v; new_handshake_current := new_handshake_current t;
  rekey_after_current := rekey_after_current t; refresh_receive_current := refresh_receive_current t |}.
Definition tm_set_new_handshake_current (v : Z) (t : Timers R) : Timers R := {|
  is_initiator := is_initiator t; time_started := time_started t; ticks := ticks t;
  session_timers := session_timers t; want_keepalive := want_keepalive t; want_handshake := want_handshake t;
  persistent_keepalive := persistent_keepalive t; persistent_keepalive_current := persistent_keepalive_current t;
  persistent_keepalive_due := persistent_keepalive_due t; jitter_rng := jitter_rng t;
  should_reset_rr := should_reset_rr t; retransmit_current := retransmit_current t;
  handshake_attempts := handshake_attempts t; max_retransmissions_current := max_retransmissions_current t;
  keepalive_current := keepalive_current t; new_handshake_current := v;
  rekey_after_current := rekey_after_current t; refresh_receive_current := refresh_receive_current t |}.
Definition tm_set_rekey_after_current (v : Z) (t : Timers R) : Timers R := {|
  is_initiator := is_initiator t; time_started := time_started t; ticks := ticks t;
  session_timers := session_timers t; want_keepalive := want_keepalive t; want_handshake := want_handshake t;
  persistent_keepalive := persistent_keepalive t; persistent_keepalive_current := persistent_keepalive_current t;
  persistent_keepalive_due := persistent_keepalive_due t; jitter_rng := jitter_rng t;
  should_reset_rr := should_reset_rr t; retransmit_current := retransmit_current t;
  handshake_attempts := handshake_attempts t; max_retransmissions_current := max_retransmissions_current t;
  keepalive_current := keepalive_current t; new_handshake_current := new_handshake_current t;
  rekey_after_current := v; refresh_receive_current := refresh_receive_current t |}.
Definition tm_set_refresh_receive_current (v : Z) (t : Timers R) : Timers R := {|
  is_initiator := is_initiator t; time_started := time_started t; ticks := ticks t;
  session_timers := session_timers t; want_keepalive := want_keepalive t; want_handshake := want_handshake t;
  persistent_keepalive := persistent_keepalive t; persistent_keepalive_current := persistent_keepalive_current t;
  persistent_keepalive_due := persistent_keepalive_due t; jitter_rng := jitter_rng t;
  should_reset_rr := should_reset_rr t; retransmit_current := retransmit_current t;
  handshake_attempts := handshake_attempts t; max_retransmissions_current := max_retransmissions_current t;
  keepalive_current := keepalive_current t; new_handshake_current := new_handshake_current t;
  rekey_after_current := rekey_after_current t; refresh_receive_current := v |}.

(** [self[name] = d]. *)
Definition set_tick (name : TimerName) (d : Z) t : Timers R := tm_set_ticks (<[name := d]> (ticks t)) t.

Context `{RngCore R}.

Definition timers_new (now : Z) (keepalive : option Z) (reset_rr : bool) (jitter : R) : Timers R :=
  let interval := from_option id 0 keepalive in {|
  is_initiator := false;
  time_started := now;
  ticks := fun _ => 0;
  session_timers := zreplicate N_SESSIONS 0;
  want_keepalive := None;
  want_handshake := None;
  persistent_keepalive := (interval, interval);
  persistent_keepalive_current := from_secs interval;
  persistent_keepalive_due := 0 <? interval;
  jitter_rng := jitter;
  should_reset_rr := reset_rr;
  retransmit_current := REKEY_TIMEOUT;
  handshake_attempts := 0;
  max_retransmissions_current := sat_sub (as_secs REKEY_ATTEMPT_TIME / as_secs REKEY_TIMEOUT) 1;
  keepalive_current := KEEPALIVE_TIMEOUT;
  new_handshake_current := KEEPALIVE_TIMEOUT + REKEY_TIMEOUT;
  rekey_after_current := REKEY_AFTER_TIME;
  refresh_receive_current := sat_sub (sat_sub REJECT_AFTER_TIME KEEPALIVE_TIMEOUT) REKEY_TIMEOUT;
|}.

(** The time since the tunnel started, never earlier than the last poll's:
    [Timers::clear] and [Tunn::monotonic_now]. *)
Definition monotonic_now (now : Z) t : Z := Z.max (duration_since now (time_started t)) (ticks t TimeCurrent).

Definition clear (now : Z) t : Timers R :=
  let n := monotonic_now now t in
  tm_set_want_keepalive None (tm_set_want_handshake None (tm_set_ticks (fun _ => n) t)).

Definition rearm_persistent_keepalive t : Timers R :=
  let '(lo, hi) := persistent_keepalive t in
  if lo =? hi then tm_set_persistent_keepalive_current (from_secs lo) t
  else
    let '(secs, rng) := random_usize_inclusive lo hi (jitter_rng t) in
    tm_set_persistent_keepalive_current (from_secs secs) (tm_set_jitter_rng rng t).

Definition persistent_keepalive_on t : bool := 0 <? snd (persistent_keepalive t).

Definition jitter t : Z * Timers R :=
  let '(w, rng) := next_u32 (jitter_rng t) in
  (from_millis (w mod REKEY_TIMEOUT_JITTER_MAX_MS), tm_set_jitter_rng rng t).

Definition normalize_persistent_keepalive_range (low high : Z) : option (Z * Z) :=
  if high <? low then None else
  let cap v := Z.min v u16_max in
  let '(lo, hi) := (cap low, cap high) in
  if low =? high then Some (lo, lo) else Some (Z.max lo 1, hi).

Definition set_persistent_keepalive_range (range : Z * Z) t : Timers R :=
  if bool_decide (range = persistent_keepalive t) then t else
  let was_on := persistent_keepalive_on t in
  let t := tm_set_persistent_keepalive range t in
  let t := if negb (persistent_keepalive_on t) then tm_set_persistent_keepalive_due false t
           else if negb was_on then tm_set_persistent_keepalive_due true t else t in
  rearm_persistent_keepalive t.

Definition set_persistent_keepalive (keepalive : option Z) t : Timers R :=
  let interval := from_option id 0 keepalive in set_persistent_keepalive_range (interval, interval) t.
End Timers.
