(* ===== verification/OpReport.v ===== *)
(** Operation reports, [noise/op_report.rs]: the results of an operation
    ([TunnResult], [AuthenticatedPacketKind] of [noise/mod.rs]) and the
    per-tunnel bookkeeping behind the report of the C [_ex] entry points. The
    report itself, which reads the whole tunnel, is in [Tunn.v]. *)

From S2P Require Import Prelude Budget Packet.

Inductive TunnResult :=
| Done
| TErr (e : WireGuardError)
| WriteToNetwork (datagram : bytes)
| WriteToTunnelV4 (packet addr : bytes)
| WriteToTunnelV6 (packet addr : bytes).

Definition is_terr (r : TunnResult) : bool := match r with TErr _ => true | _ => false end.
Definition is_network (r : TunnResult) : bool := match r with WriteToNetwork _ => true | _ => false end.
(** The two capacity refusals. *)
Definition is_capacity (r : TunnResult) : bool :=
  match r with TErr DestinationBufferTooSmall | TErr OutputBudgetExceeded => true | _ => false end.
(** [Result<TunnResult, WireGuardError>] collapsed by [unwrap_or_else(TunnResult::from)]. *)
Definition of_result (r : result WireGuardError TunnResult) : TunnResult :=
  match r with Ok r => r | Err e => TErr e end.

Inductive AuthenticatedPacketKind := AHandshakeInitiation | AHandshakeResponse | ATransport | ACookieReply.

Definition moves_endpoint (k : AuthenticatedPacketKind) : bool :=
  match k with
  | AHandshakeInitiation | AHandshakeResponse | ATransport => true
  | ACookieReply => false
  end.

(** [op_report::PacketKind], with its ABI values. *)
Inductive ReportKind := RkNone | RkHandshakeInitiation | RkHandshakeResponse | RkCookieReply
| RkTransportData | RkTransportKeepalive | RkJunk | RkImitation.
#[export] Instance ReportKind_eq_dec : EqDecision ReportKind.
Proof. solve_decision. Defined.

Definition report_kind_code (k : ReportKind) : Z :=
  match k with
  | RkNone => 0 | RkHandshakeInitiation => 1 | RkHandshakeResponse => 2 | RkCookieReply => 3
  | RkTransportData => 4 | RkTransportKeepalive => 5 | RkJunk => 6 | RkImitation => 7
  end.

Definition EV_INPUT_ACCEPTED : Z := 1.
Definition EV_PEER_AUTHENTICATED : Z := 2.
Definition EV_SESSION_STORED : Z := 4.
Definition EV_CURRENT_SESSION_CHANGED : Z := 8.
Definition EV_INITIATION_PRODUCED : Z := 16.
Definition EV_QUEUE_ADMITTED : Z := 32.
Definition EV_HANDSHAKE_EXPIRED : Z := 64.
Definition EV_SESSIONS_AGED_OUT : Z := 128.
Definition EV_BURST_PREPARED : Z := 256.
Definition EV_TICK_DEMAND_REFUSED : Z := 512.
Definition EV_QUEUE_HEAD_DROPPED : Z := 65536.

Definition ST_SESSION_CURRENT : Z := 1.
Definition ST_INITIATION_PENDING : Z := 2.
Definition ST_HANDSHAKE_EXPIRED : Z := 4.
Definition ST_QUEUE_NONEMPTY : Z := 8.
Definition ST_BURST_PENDING : Z := 16.
Definition ST_COOKIE_HELD : Z := 32.

Definition BURST_DUE_NONE : Z := u32_max.
Definition BURST_DUE_MAX : Z := u32_max - 1.

Record OpState := {
  op_seq : Z;
  slot_serial : list Z;
  next_session_serial : Z;
  events : Z;
  input_kind : ReportKind;
  output_kind : ReportKind;
  receive_input : option AuthenticatedPacketKind;
}.

Definition op_default : OpState := {|
  op_seq := 0; slot_serial := zreplicate N_SESSIONS 0; next_session_serial := 1; events := 0;
  input_kind := RkNone; output_kind := RkNone; receive_input := None |}.

Definition op_set_op_seq (v : Z) (o : OpState) : OpState := {|
  op_seq := v; slot_serial := slot_serial o; next_session_serial := next_session_serial o; events := events o;
  input_kind := input_kind o; output_kind := output_kind o; receive_input := receive_input o |}.
Definition op_set_slot_serial (v : list Z) (o : OpState) : OpState := {|
  op_seq := op_seq o; slot_serial := v; next_session_serial := next_session_serial o; events := events o;
  input_kind := input_kind o; output_kind := output_kind o; receive_input := receive_input o |}.
Definition op_set_next_session_serial (v : Z) (o : OpState) : OpState := {|
  op_seq := op_seq o; slot_serial := slot_serial o; next_session_serial := v; events := events o;
  input_kind := input_kind o; output_kind := output_kind o; receive_input := receive_input o |}.
Definition op_set_events (v : Z) (o : OpState) : OpState := {|
  op_seq := op_seq o; slot_serial := slot_serial o; next_session_serial := next_session_serial o; events := v;
  input_kind := input_kind o; output_kind := output_kind o; receive_input := receive_input o |}.
Definition op_set_input_kind (v : ReportKind) (o : OpState) : OpState := {|
  op_seq := op_seq o; slot_serial := slot_serial o; next_session_serial := next_session_serial o;
  events := events o; input_kind := v; output_kind := output_kind o; receive_input := receive_input o |}.
Definition op_set_output_kind (v : ReportKind) (o : OpState) : OpState := {|
  op_seq := op_seq o; slot_serial := slot_serial o; next_session_serial := next_session_serial o;
  events := events o; input_kind := input_kind o; output_kind := v; receive_input := receive_input o |}.
Definition op_set_receive_input (v : option AuthenticatedPacketKind) (o : OpState) : OpState := {|
  op_seq := op_seq o; slot_serial := slot_serial o; next_session_serial := next_session_serial o;
  events := events o; input_kind := input_kind o; output_kind := output_kind o; receive_input := v |}.

Definition note (ev : Z) (o : OpState) : OpState := op_set_events (Z.lor (events o) ev) o.

Definition note_input (kind : ReportKind) (accepted : AuthenticatedPacketKind) (o : OpState) : OpState :=
  let o := note EV_INPUT_ACCEPTED (op_set_input_kind kind o) in
  let o := if moves_endpoint accepted then note EV_PEER_AUTHENTICATED o else o in
  op_set_receive_input (Some accepted) o.

Definition begin_receive (o : OpState) : OpState := op_set_receive_input None o.

Definition take_receive_input (o : OpState) : option AuthenticatedPacketKind * OpState :=
  (receive_input o, op_set_receive_input None o).

Definition note_output (kind : ReportKind) (r : TunnResult) (o : OpState) : OpState :=
  if is_network r then op_set_output_kind kind o else o.

Definition session_stored (slot : Z) (o : OpState) : OpState :=
  let o := op_set_slot_serial (zset (slot_serial o) slot (next_session_serial o)) o in
  let o := op_set_next_session_serial (sat_add u64_max (next_session_serial o) 1) o in
  note EV_SESSION_STORED o.

Definition session_removed (slot : Z) (o : OpState) : OpState :=
  op_set_slot_serial (zset (slot_serial o) slot 0) o.

Definition all_sessions_removed (o : OpState) : OpState :=
  op_set_slot_serial (zreplicate N_SESSIONS 0) o.
