(* ===== verification/Tunn.v ===== *)
(** The tunnel, [noise/mod.rs] and [noise/timers.rs]: its state, and the
    operations that produce output -- [encapsulate], the queue, the
    pre-handshake burst and the initiation behind it -- with the timers they
    tick. Receiving is in [TunnReceive.v], the timer poll in [TunnTick.v],
    construction and reconfiguration in [TunnConfig.v].

    An operation is a state transformer that may panic, [M A]. One call reads
    the clock once ([now]) and draws at most one ephemeral secret ([eph]);
    [dst] is the caller's buffer with its contents. The rate limiter, shared
    behind an [Arc] in the code, is the tunnel's own here. [tx_bytes] and
    [rx_bytes] wrap, as in a release build. *)

From stdpp Require Import functions.
From S2P Require Import Prelude Budget Instant Crypto Rand Tags Packet Session RateLimiter Amnezia Framing.
From S2P Require Import Handshake Imitation Timers OpReport.

Record PendingAmneziaJunk := {
  imitation_datagrams : list (Z * bytes);
  remaining : Z;
  last_packet_at : option Z;
  reset_expired_timers : bool;
}.

Definition burst_set_imitation_datagrams (v : list (Z * bytes)) (p : PendingAmneziaJunk) : PendingAmneziaJunk := {|
  imitation_datagrams := v; remaining := remaining p; last_packet_at := last_packet_at p;
  reset_expired_timers := reset_expired_timers p |}.
Definition burst_set_remaining (v : Z) (p : PendingAmneziaJunk) : PendingAmneziaJunk := {|
  imitation_datagrams := imitation_datagrams p; remaining := v; last_packet_at := last_packet_at p;
  reset_expired_timers := reset_expired_timers p |}.
Definition burst_set_last_packet_at (v : option Z) (p : PendingAmneziaJunk) : PendingAmneziaJunk := {|
  imitation_datagrams := imitation_datagrams p; remaining := remaining p; last_packet_at := v;
  reset_expired_timers := reset_expired_timers p |}.
Definition burst_set_reset_expired_timers (v : bool) (p : PendingAmneziaJunk) : PendingAmneziaJunk := {|
  imitation_datagrams := imitation_datagrams p; remaining := remaining p; last_packet_at := last_packet_at p;
  reset_expired_timers := v |}.

Record Tunn (R : Type) := {
  handshake : Handshake R;
  sessions : list (option Session);
  current : Z;
  packet_queue : list bytes;
  tunn_timers : Timers R;
  tx_bytes : Z;
  rx_bytes : Z;
  amnezia : AmneziaConfig;
  auto_imitation : AutoImitation;
  pending_amnezia_junk : option PendingAmneziaJunk;
  rate_limiter : RateLimiter;
  udp_window : Z;
  meta : OpState;
}.
Arguments handshake {R} t.
Arguments sessions {R} t.
Arguments current {R} t.
Arguments packet_queue {R} t.
Arguments tunn_timers {R} t.
Arguments tx_bytes {R} t.
Arguments rx_bytes {R} t.
Arguments amnezia {R} t.
Arguments auto_imitation {R} t.
Arguments pending_amnezia_junk {R} t.
Arguments rate_limiter {R} t.
Arguments udp_window {R} t.
Arguments meta {R} t.

Section State.
Context {R : Type}.
Implicit Types t : Tunn R.

Definition set_handshake (v : Handshake R) (t : Tunn R) : Tunn R := {|
  handshake := v; sessions := sessions t; current := current t; packet_queue := packet_queue t;
  tunn_timers := tunn_timers t; tx_bytes := tx_bytes t; rx_bytes := rx_bytes t; amnezia := amnezia t;
  auto_imitation := auto_imitation t; pending_amnezia_junk := pending_amnezia_junk t;
  rate_limiter := rate_limiter t; udp_window := udp_window t; meta := meta t |}.
Definition set_sessions (v : list (option Session)) (t : Tunn R) : Tunn R := {|
  handshake := handshake t; sessions := v; current := current t; packet_queue := packet_queue t;
  tunn_timers := tunn_timers t; tx_bytes := tx_bytes t; rx_bytes := rx_bytes t; amnezia := amnezia t;
  auto_imitation := auto_imitation t; pending_amnezia_junk := pending_amnezia_junk t;
  rate_limiter := rate_limiter t; udp_window := udp_window t; meta := meta t |}.
Definition set_current (v : Z) (t : Tunn R) : Tunn R := {|
  handshake := handshake t; sessions := sessions t; current := v; packet_queue := packet_queue t;
  tunn_timers := tunn_timers t; tx_bytes := tx_bytes t; rx_bytes := rx_bytes t; amnezia := amnezia t;
  auto_imitation := auto_imitation t; pending_amnezia_junk := pending_amnezia_junk t;
  rate_limiter := rate_limiter t; udp_window := udp_window t; meta := meta t |}.
Definition set_packet_queue (v : list bytes) (t : Tunn R) : Tunn R := {|
  handshake := handshake t; sessions := sessions t; current := current t; packet_queue := v;
  tunn_timers := tunn_timers t; tx_bytes := tx_bytes t; rx_bytes := rx_bytes t; amnezia := amnezia t;
  auto_imitation := auto_imitation t; pending_amnezia_junk := pending_amnezia_junk t;
  rate_limiter := rate_limiter t; udp_window := udp_window t; meta := meta t |}.
Definition set_tunn_timers (v : Timers R) (t : Tunn R) : Tunn R := {|
  handshake := handshake t; sessions := sessions t; current := current t; packet_queue := packet_queue t;
  tunn_timers := v; tx_bytes := tx_bytes t; rx_bytes := rx_bytes t; amnezia := amnezia t;
  auto_imitation := auto_imitation t; pending_amnezia_junk := pending_amnezia_junk t;
  rate_limiter := rate_limiter t; udp_window := udp_window t; meta := meta t |}.
Definition set_tx_bytes (v : Z) (t : Tunn R) : Tunn R := {|
  handshake := handshake t; sessions := sessions t; current := current t; packet_queue := packet_queue t;
  tunn_timers := tunn_timers t; tx_bytes := v; rx_bytes := rx_bytes t; amnezia := amnezia t;
  auto_imitation := auto_imitation t; pending_amnezia_junk := pending_amnezia_junk t;
  rate_limiter := rate_limiter t; udp_window := udp_window t; meta := meta t |}.
Definition set_rx_bytes (v : Z) (t : Tunn R) : Tunn R := {|
  handshake := handshake t; sessions := sessions t; current := current t; packet_queue := packet_queue t;
  tunn_timers := tunn_timers t; tx_bytes := tx_bytes t; rx_bytes := v; amnezia := amnezia t;
  auto_imitation := auto_imitation t; pending_amnezia_junk := pending_amnezia_junk t;
  rate_limiter := rate_limiter t; udp_window := udp_window t; meta := meta t |}.
Definition set_amnezia (v : AmneziaConfig) (t : Tunn R) : Tunn R := {|
  handshake := handshake t; sessions := sessions t; current := current t; packet_queue := packet_queue t;
  tunn_timers := tunn_timers t; tx_bytes := tx_bytes t; rx_bytes := rx_bytes t; amnezia := v;
  auto_imitation := auto_imitation t; pending_amnezia_junk := pending_amnezia_junk t;
  rate_limiter := rate_limiter t; udp_window := udp_window t; meta := meta t |}.
Definition set_auto_imitation (v : AutoImitation) (t : Tunn R) : Tunn R := {|
  handshake := handshake t; sessions := sessions t; current := current t; packet_queue := packet_queue t;
  tunn_timers := tunn_timers t; tx_bytes := tx_bytes t; rx_bytes := rx_bytes t; amnezia := amnezia t;
  auto_imitation := v; pending_amnezia_junk := pending_amnezia_junk t; rate_limiter := rate_limiter t;
  udp_window := udp_window t; meta := meta t |}.
Definition set_pending_amnezia_junk (v : option PendingAmneziaJunk) (t : Tunn R) : Tunn R := {|
  handshake := handshake t; sessions := sessions t; current := current t; packet_queue := packet_queue t;
  tunn_timers := tunn_timers t; tx_bytes := tx_bytes t; rx_bytes := rx_bytes t; amnezia := amnezia t;
  auto_imitation := auto_imitation t; pending_amnezia_junk := v; rate_limiter := rate_limiter t;
  udp_window := udp_window t; meta := meta t |}.
Definition set_rate_limiter (v : RateLimiter) (t : Tunn R) : Tunn R := {|
  handshake := handshake t; sessions := sessions t; current := current t; packet_queue := packet_queue t;
  tunn_timers := tunn_timers t; tx_bytes := tx_bytes t; rx_bytes := rx_bytes t; amnezia := amnezia t;
  auto_imitation := auto_imitation t; pending_amnezia_junk := pending_amnezia_junk t; rate_limiter := v;
  udp_window := udp_window t; meta := meta t |}.
Definition set_udp_window (v : Z) (t : Tunn R) : Tunn R := {|
  handshake := handshake t; sessions := sessions t; current := current t; packet_queue := packet_queue t;
  tunn_timers := tunn_timers t; tx_bytes := tx_bytes t; rx_bytes := rx_bytes t; amnezia := amnezia t;
  auto_imitation := auto_imitation t; pending_amnezia_junk := pending_amnezia_junk t;
  rate_limiter := rate_limiter t; udp_window := v; meta := meta t |}.
Definition set_meta (v : OpState) (t : Tunn R) : Tunn R := {|
  handshake := handshake t; sessions := sessions t; current := current t; packet_queue := packet_queue t;
  tunn_timers := tunn_timers t; tx_bytes := tx_bytes t; rx_bytes := rx_bytes t; amnezia := amnezia t;
  auto_imitation := auto_imitation t; pending_amnezia_junk := pending_amnezia_junk t;
  rate_limiter := rate_limiter t; udp_window := udp_window t; meta := v |}.

(** ** The monad *)

Definition M (A : Type) : Type := Tunn R -> outcome (A * Tunn R).
Definition mreturn {A} (a : A) : M A := fun t => Ret (a, t).
Definition mthen {A B} (m : M A) (k : A -> M B) : M B := fun t => let! (a, t) := m t in k a t.
Definition gets {A} (f : Tunn R -> A) : M A := fun t => Ret (f t, t).
Definition modify (f : Tunn R -> Tunn R) : M unit := fun t => Ret (tt, f t).
Definition lift {A} (o : outcome A) : M A := fun t => let! a := o in Ret (a, t).
End State.
Arguments M R A : clear implicits.

Notation "'let*' x ':=' m 'in' k" := (mthen m (fun x => k))
  (at level 10, x pattern, m at level 100, k at level 200) : wg_scope.
Notation "m '&;' k" := (mthen m (fun _ => k)) (at level 98, right associativity) : wg_scope.

Section Ops.
Context `{Crypto} {R : Type} `{RngCore R} `{PrefixFillers R} `{ImitationEnv}.
Implicit Types t : Tunn R.

Definition upd_timers (f : Timers R -> Timers R) : M R unit := modify (fun t => set_tunn_timers (f (tunn_timers t)) t).
Definition upd_meta (f : OpState -> OpState) : M R unit := modify (fun t => set_meta (f (meta t)) t).
Definition upd_handshake (f : Handshake R -> Handshake R) : M R unit := modify (fun t => set_handshake (f (handshake t)) t).

(** A draw from the handshake's generator, and one of jitter. *)
Definition draw {A} (f : R -> A * R) : M R A := fun t =>
  let '(a, rng) := f (hs_rng (handshake t)) in Ret (a, set_handshake (set_rng rng (handshake t)) t).
(** A draw that may panic. *)
Definition draw_checked {A} (f : R -> outcome (A * R)) : M R A := fun t =>
  let! (a, rng) := f (hs_rng (handshake t)) in Ret (a, set_handshake (set_rng rng (handshake t)) t).
Definition draw_jitter : M R Z := fun t =>
  let '(d, tm) := jitter (tunn_timers t) in Ret (d, set_tunn_timers tm t).

(** ** Timers *)

(** What [timer_tick] does before it stamps the timer: its [match]. *)
Definition on_tick (timer_name : TimerName) (time : Z) : M R unit :=
  let* awg := gets (fun t => timers (amnezia t)) in
  match timer_name with
  | TimeLastPacketReceived =>
      upd_timers (fun tm => rearm_persistent_keepalive (set_tick TimePersistentKeepalive time (tm_set_want_handshake None tm)))
  | TimeLastPacketSent =>
      upd_timers (fun tm => tm_set_persistent_keepalive_due false (rearm_persistent_keepalive
        (set_tick TimePersistentKeepalive time (tm_set_want_keepalive None tm))))
  | TimeLastDataPacketReceived =>
      let* armed := gets (fun t => want_keepalive (tunn_timers t)) in
      match armed with
      | Some _ => mreturn tt
      | None =>
          let* d := draw (timers_keepalive awg) in
          upd_timers (fun tm => tm_set_want_keepalive (Some time) (tm_set_keepalive_current d tm))
      end
  | TimeLastDataPacketSent =>
      let* armed := gets (fun t => want_handshake (tunn_timers t)) in
      match armed with
      | Some _ => mreturn tt
      | None =>
          let* d := draw (new_handshake_timeout awg) in
          let* j := draw_jitter in
          upd_timers (fun tm => tm_set_want_handshake (Some time) (tm_set_new_handshake_current (d + j) tm))
      end
  | _ => mreturn tt
  end.

Definition timer_tick (timer_name : TimerName) : M R unit :=
  let* time := gets (fun t => ticks (tunn_timers t) TimeCurrent) in
  on_tick timer_name time &;
  upd_timers (set_tick timer_name time).

Definition timer_tick_session_established (is_init : bool) (session_idx : Z) : M R unit :=
  timer_tick TimeSessionEstablished &;
  upd_timers (fun tm => tm_set_is_initiator is_init
    (tm_set_session_timers (zset (session_timers tm) (session_idx mod N_SESSIONS) (ticks tm TimeCurrent)) tm)) &;
  modify (set_pending_amnezia_junk None) &;
  let* awg := gets (fun t => timers (amnezia t)) in
  let* rekey_after := draw (key_refresh_sending awg) in
  let* refresh_receive := draw (key_refresh_receiving awg) in
  upd_timers (fun tm => tm_set_refresh_receive_current refresh_receive (tm_set_rekey_after_current rekey_after tm)).

Variable now : Z.

Definition clear_all : M R unit :=
  modify (set_sessions (zreplicate N_SESSIONS None)) &;
  upd_meta all_sessions_removed &;
  modify (set_packet_queue []) &;
  modify (set_pending_amnezia_junk None) &;
  upd_timers (clear now).

(** ** Framing for the wire *)

Definition imitation_protocol t : AmneziaImitationProtocol :=
  if bool_decide (protocol (imitation (amnezia t)) = ProtoAuto)
  then from_option id ProtoNone (learned (auto_imitation t))
  else protocol (imitation (amnezia t)).

(** The buffer with [packet] formatted at its front. *)
Definition in_buffer (packet dst : bytes) : bytes := packet ++ zdrop (len packet) dst.

Definition write_to_network_with_imitation (dst packet : bytes) (room : TrailerRoom) (p : AmneziaImitationProtocol)
  : M R TunnResult :=
  let* c := gets (fun t => resolve_imitation (amnezia t) p) in
  let* obf := gets (fun t => hs_obf (handshake t)) in
  let* r := draw (prepend_outbound_with_trailer c obf (in_buffer packet dst) (len packet) (Some room)) in
  mreturn (match r with Ok d => WriteToNetwork d | Err e => TErr e end).

Definition write_to_network_with (dst packet : bytes) (room : TrailerRoom) : M R TunnResult :=
  let* p := gets imitation_protocol in write_to_network_with_imitation dst packet room p.

Definition write_to_network (dst packet : bytes) : M R TunnResult :=
  let* w := gets udp_window in write_to_network_with dst packet (trailer_window w).

Definition write_handshake_to_network (dst packet : bytes) (ceiling : Z) : M R TunnResult :=
  let* w := gets udp_window in write_to_network_with dst packet (trailer_within (trailer_window w) ceiling).

(** ** Transport *)

Definition grown_window (window size : Z) : Z := Z.max window (Z.min size u32_max).
Definition grow_window (size : Z) : M R unit := modify (fun t => set_udp_window (grown_window (udp_window t) size) t).

Definition session_at t (idx : Z) : option Session := from_option id None (zget (sessions t) (idx mod N_SESSIONS)).
Definition store_session (slot : Z) (s : Session) : M R unit := modify (fun t => set_sessions (zset (sessions t) slot (Some s)) t).

Definition has_current_session t : bool :=
  match session_at t (current t) with Some s => negb (sending_exhausted s) | None => false end.

Definition format_on (s : Session) (src : bytes) (pad dst_len : Z) : M R (result WireGuardError bytes * Session) :=
  let* obf := gets (fun t => hs_obf (handshake t)) in
  draw (fun rng => format_packet_data obf src pad dst_len s rng).

Definition encapsulate_on_session (src dst : bytes) (budget : OutputBudget) : M R TunnResult :=
  let* cur := gets current in
  let* c := gets amnezia in
  let transport_junk := transport_junk_size c in
  let* s := gets (fun t => session_at t cur) in
  match s with
  | None => mreturn (TErr NoCurrentSession)
  | Some session =>
      match admit_datagram (transport_frame (len src) transport_junk) (len dst) (transport budget) with
      | Err e => mreturn (TErr e)
      | Ok ceiling =>
          grow_window (transport_window_observation c (len src)) &;
          let* w := gets udp_window in
          let* pad := draw (content_padding_for_frame c (len src) ceiling transport_junk w) in
          let* (r, session) := format_on session src pad (len dst) in
          store_session (cur mod N_SESSIONS) session &;
          match r with
          | Err e => mreturn (TErr e)
          | Ok packet =>
              timer_tick TimeLastPacketSent &;
              (if len src =? 0 then mreturn tt else timer_tick TimeLastDataPacketSent) &;
              modify (fun t => set_tx_bytes (wrap64 (tx_bytes t + len src)) t) &;
              let* result := write_to_network dst packet in
              upd_meta (note_output (if len src =? 0 then RkTransportKeepalive else RkTransportData) result) &;
              mreturn result
          end
      end
  end.

(** ** The queue *)

Definition queue_has_room t : bool := len (packet_queue t) <? MAX_QUEUE_DEPTH.

Definition queue_packet (packet : bytes) : M R (result WireGuardError unit) :=
  let* room := gets queue_has_room in
  if negb room then mreturn (Err PacketQueueFull) else
  modify (fun t => set_packet_queue (packet_queue t ++ [packet]) t) &;
  upd_meta (note EV_QUEUE_ADMITTED) &; mreturn (Ok tt).

Definition requeue_packet (packet : bytes) : M R unit := modify (fun t => set_packet_queue (packet :: packet_queue t) t).

Definition dequeue_packet : M R (option bytes) := fun t =>
  match packet_queue t with
  | [] => Ret (None, t)
  | p :: q => Ret (Some p, set_packet_queue q t)
  end.

(** ** The pre-handshake burst and the initiation *)

Definition new_pre_handshake_burst (last : option Z) (reset : bool) : M R PendingAmneziaJunk :=
  let* c := gets amnezia in
  if negb (emits_pre_handshake c)
  then mreturn {| imitation_datagrams := []; remaining := 0; last_packet_at := last; reset_expired_timers := reset |}
  else
    let* ds := draw_checked (pre_handshake_imitation_datagrams c) in
    mreturn {| imitation_datagrams := ds; remaining := packet_count (pre_handshake_junk c);
               last_packet_at := last; reset_expired_timers := reset |}.

Definition initiation_wire_floor t : Z := HANDSHAKE_INIT_SZ + handshake_init_junk_size (amnezia t).

Definition burst_owes_expired_reset t : bool :=
  handshake_is_expired (handshake t) &&
  match pending_amnezia_junk t with Some p => reset_expired_timers p | None => false end.

Definition reset_expired_timers_on_first_emit : M R unit :=
  let* pending := gets pending_amnezia_junk in
  match pending with
  | None => mreturn tt
  | Some p =>
      modify (set_pending_amnezia_junk (Some (burst_set_reset_expired_timers false p))) &;
      let* expired := gets (fun t => handshake_is_expired (handshake t)) in
      if reset_expired_timers p && expired then upd_timers (clear now) else mreturn tt
  end.

Variable eph : bytes.

(** [self.handshake.format_handshake_initiation(dst)] *)
Definition handshake_format_initiation (dst_len : Z) : M R (result WireGuardError bytes) := fun t =>
  let '(r, h) := Handshake.format_handshake_initiation now eph dst_len (handshake t) in Ret (r, set_handshake h t).

(** The timers of a formatted initiation: the next retransmission, and the
    attempts of the cycle. *)
Definition arm_retransmission (starting_new_handshake : bool) : M R unit :=
  let* awg := gets (fun t => timers (amnezia t)) in
  let* d := draw (retransmit_timeout awg) in
  let* j := draw_jitter in
  upd_timers (tm_set_retransmit_current (d + j)) &;
  if starting_new_handshake then
    upd_timers (tm_set_handshake_attempts 0) &;
    let* n := draw (max_retransmissions awg) in
    upd_timers (tm_set_max_retransmissions_current n) &;
    timer_tick TimeLastHandshakeStarted
  else upd_timers (fun tm => tm_set_handshake_attempts (sat_add u32_max (handshake_attempts tm) 1) tm).

Definition format_handshake_initiation_now_with_budget (dst : bytes) (force_resend reset : bool) (budget : OutputBudget)
  : M R TunnResult :=
  let* in_progress := gets (fun t => is_in_progress (handshake t)) in
  if in_progress && negb force_resend then mreturn Done else
  let* floor := gets initiation_wire_floor in
  match admit_datagram (Some floor) (len dst) (control_for budget Other) with
  | Err e => mreturn (TErr e)
  | Ok ceiling =>
      let* expired := gets (fun t => handshake_is_expired (handshake t)) in
      (if reset && expired then upd_timers (clear now) else mreturn tt) &;
      let starting_new_handshake := negb in_progress in
      let* r := handshake_format_initiation (len dst) in
      match r with
      | Err e => mreturn (TErr e)
      | Ok packet =>
          arm_retransmission starting_new_handshake &;
          timer_tick TimeLastPacketSent &;
          let* result := write_handshake_to_network dst packet ceiling in
          (if is_network result then upd_meta (note EV_INITIATION_PRODUCED) else mreturn tt) &;
          upd_meta (note_output RkHandshakeInitiation result) &;
          mreturn result
      end
  end.

(** The delay the pacing gate applies to the next item ([burst_delay]). *)
Definition burst_delay t (p : PendingAmneziaJunk) : Z :=
  match imitation_datagrams p with
  | (d, _) :: _ => d
  | [] => junk_delay (pre_handshake_junk (amnezia t))
  end.

Definition advance_amnezia_junk (dst : bytes) (budget : OutputBudget) : M R TunnResult :=
  let* pending := gets pending_amnezia_junk in
  match pending with
  | None => mreturn Done
  | Some p =>
      let* delay := gets (fun t => burst_delay t p) in
      let delay_elapsed := match last_packet_at p with
        | Some last => delay <=? duration_since now last | None => true end in
      if negb delay_elapsed then mreturn Done else
      match imitation_datagrams p with
      | (_, datagram) :: rest =>
          match admit_datagram (Some (len datagram)) (len dst) (control_for budget Other) with
          | Err e => mreturn (TErr e)
          | Ok _ =>
              modify (set_pending_amnezia_junk (Some (burst_set_last_packet_at
                (match rest with [] => None | _ => Some now end) (burst_set_imitation_datagrams rest p)))) &;
              reset_expired_timers_on_first_emit &;
              let result := WriteToNetwork datagram in
              upd_meta (note_output RkImitation result) &;
              mreturn result
          end
      | [] =>
          if remaining p =? 0 then
            let* result := format_handshake_initiation_now_with_budget dst true (reset_expired_timers p) budget in
            (if is_network result then modify (set_pending_amnezia_junk None) else mreturn tt) &;
            mreturn result
          else
            let* c := gets amnezia in
            match pre_handshake_junk_range_within c budget with
            | Err e => mreturn (TErr e)
            | Ok range =>
                if len dst <? pre_handshake_junk_max_size_in c range then mreturn (TErr DestinationBufferTooSmall) else
                reset_expired_timers_on_first_emit &;
                let* r := draw (fill_pre_handshake_junk_in c dst range) in
                match r with
                | Err e => mreturn (TErr e)
                | Ok packet =>
                    modify (fun t => match pending_amnezia_junk t with
                      | Some p => set_pending_amnezia_junk (Some (burst_set_last_packet_at (Some now)
                                    (burst_set_remaining (remaining p - 1) p))) t
                      | None => t end) &;
                    let result := WriteToNetwork packet in
                    upd_meta (note_output RkJunk result) &;
                    mreturn result
                end
            end
      end
  end.

Definition format_handshake_initiation_with_budget (dst : bytes) (force_resend : bool) (budget : OutputBudget)
  : M R TunnResult :=
  let* burst := gets (fun t => match pending_amnezia_junk t with Some _ => true | None => false end) in
  if burst then advance_amnezia_junk dst budget else
  let* in_progress := gets (fun t => is_in_progress (handshake t)) in
  if in_progress && negb force_resend then mreturn Done else
  let* reset := gets (fun t => handshake_is_expired (handshake t)) in
  let* emits := gets (fun t => emits_pre_handshake (amnezia t)) in
  if emits then
    let* p := new_pre_handshake_burst None reset in
    modify (set_pending_amnezia_junk (Some p)) &;
    upd_meta (note EV_BURST_PREPARED) &;
    advance_amnezia_junk dst budget
  else format_handshake_initiation_now_with_budget dst force_resend reset budget.

Definition format_handshake_initiation (dst : bytes) (force_resend : bool) : M R TunnResult :=
  format_handshake_initiation_with_budget dst force_resend UNBOUNDED.

(** ** Writing *)

Definition admit_without_session (src dst : bytes) (budget : OutputBudget) : M R TunnResult :=
  let* room := gets queue_has_room in
  if negb room then mreturn (TErr PacketQueueFull) else
  let* result := format_handshake_initiation_with_budget dst false budget in
  if is_terr result then mreturn result else
  let* q := queue_packet src in
  mreturn (match q with Ok _ => result | Err e => TErr e end).

Definition encapsulate_with_budget (src dst : bytes) (budget : OutputBudget) : M R TunnResult :=
  let* session := gets has_current_session in
  if session then encapsulate_on_session src dst budget else admit_without_session src dst budget.

Definition encapsulate (src dst : bytes) : M R TunnResult := encapsulate_with_budget src dst UNBOUNDED.

(** The loop of [send_queued_packet], at most as many heads as the queue held. *)
Fixpoint send_heads (n : nat) (dst : bytes) (budget : OutputBudget) : M R TunnResult :=
  match n with
  | O => mreturn Done
  | S n =>
      let* q := gets packet_queue in
      let* c := gets amnezia in
      match q with
      | [] => mreturn Done
      | head :: _ =>
          if exceeds (transport_frame (len head) (transport_junk_size c)) (transport budget) then
            dequeue_packet &; upd_meta (note EV_QUEUE_HEAD_DROPPED) &; send_heads n dst budget
          else
            let* p := dequeue_packet in
            match p with
            | None => mreturn Done
            | Some packet =>
                let* r := encapsulate_on_session packet dst budget in
                match r with
                | TErr e => requeue_packet packet &; mreturn (if is_capacity (TErr e) then TErr e else Done)
                | r => mreturn r
                end
            end
      end
  end.

Definition send_queued_packet (dst : bytes) (budget : OutputBudget) : M R TunnResult :=
  let* q := gets packet_queue in
  if len q =? 0 then mreturn Done else
  let* session := gets has_current_session in
  if negb session then format_handshake_initiation_with_budget dst false budget
  else send_heads (length q) dst budget.
End Ops.
