(* ===== verification/TunnLogic.v ===== *)
(** Reasoning about tunnel operations: a weakest precondition for the monad of
    [Tunn.v] (a panic satisfies nothing), the tunnel invariant, and the two
    relations every output operation is proved to respect -- [traffic], what
    sending on a session may change, and [initiating], what producing a
    handshake initiation or its burst may change. *)

From stdpp Require Import functions.
From S2P Require Import Prelude Budget Instant Crypto Rand Tags Packet Replay Session RateLimiter HeaderProtection.
From S2P Require Import Amnezia Framing Handshake Imitation Timers OpReport Tunn.

(** ** Weakest preconditions *)

Section Wp.
Context {R : Type}.
Implicit Types t : Tunn R.

Definition wp {A} (m : M R A) (Q : A -> Tunn R -> Prop) t : Prop := safely (m t) (fun p => Q (fst p) (snd p)).

Lemma wp_return {A} (a : A) Q t : Q a t -> wp (mreturn a) Q t.
Proof. done. Qed.
Lemma wp_then {A B} (m : M R A) (k : A -> M R B) Q t : wp m (fun a t => wp (k a) Q t) t -> wp (mthen m k) Q t.
Proof. unfold wp, mthen. intros Hm. apply safely_bind. eapply safely_mono; [exact Hm|]. by intros [a t']. Qed.
Lemma wp_gets {A} (f : Tunn R -> A) Q t : Q (f t) t -> wp (gets f) Q t.
Proof. done. Qed.
Lemma wp_modify f Q t : Q tt (f t) -> wp (modify f) Q t.
Proof. done. Qed.
Lemma wp_lift {A} (o : outcome A) Q t : safely o (fun a => Q a t) -> wp (lift o) Q t.
Proof. unfold wp, lift. intros Ho. apply safely_bind. eapply safely_mono; [exact Ho|]. done. Qed.
Lemma wp_mono {A} (m : M R A) (P Q : A -> Tunn R -> Prop) t :
  wp m P t -> (forall a t', P a t' -> Q a t') -> wp m Q t.
Proof. intros Hm HPQ. eapply safely_mono; [exact Hm|]. intros [a t']. apply HPQ. Qed.
Lemma wp_if {A} (b : bool) (m1 m2 : M R A) Q t :
  (b = true -> wp m1 Q t) -> (b = false -> wp m2 Q t) -> wp (if b then m1 else m2) Q t.
Proof. destruct b; auto. Qed.
Lemma wp_conj {A} (m : M R A) (P Q : A -> Tunn R -> Prop) t : wp m P t -> wp m Q t -> wp m (fun a t => P a t /\ Q a t) t.
Proof. unfold wp, safely. destruct (m t); [done|tauto]. Qed.
Lemma wp_run {A} (m : M R A) Q t a t' : wp m Q t -> m t = Ret (a, t') -> Q a t'.
Proof. unfold wp. intros Hm Hr. by rewrite Hr in Hm. Qed.
End Wp.

(** One step of a straight-line operation. *)
Ltac wp_step :=
  match goal with
  | |- wp (mreturn _) _ _ => apply wp_return; cbv beta
  | |- wp (mthen _ _) _ _ => apply wp_then; cbv beta
  | |- wp (gets _) _ _ => apply wp_gets; cbv beta
  | |- wp (modify _) _ _ => apply wp_modify; cbv beta
  | |- wp (upd_timers _) _ _ => unfold upd_timers
  | |- wp (upd_meta _) _ _ => unfold upd_meta
  | |- wp (upd_handshake _) _ _ => unfold upd_handshake
  | |- wp (grow_window _) _ _ => unfold grow_window
  | |- wp (store_session _ _) _ _ => unfold store_session
  end.
Ltac wp_steps := repeat wp_step.
(** Use the specification [H] of a call, naming nothing. *)
Ltac wp_use H := eapply wp_mono; [apply H|cbv beta].

(** ** The invariant *)

Section Invariant.
Context `{Crypto} {R : Type}.
Implicit Types t : Tunn R.

Record timers_ok (tm : Timers R) : Prop := {
  tk_ticks n : 0 <= ticks tm n <= ticks tm TimeCurrent;
  tk_slots : len (session_timers tm) = N_SESSIONS;
  tk_armed : Forall (fun x => 0 <= x <= ticks tm TimeCurrent) (session_timers tm);
}.

(** The occupants of the ring: each well-formed, in the slot its index names. *)
Record ring_ok (ss : list (option Session)) : Prop := {
  ri_len : len ss = N_SESSIONS;
  ri_ok i s : zget ss i = Some (Some s) -> session_ok s /\ receiving_index s mod N_SESSIONS = i;
}.

Definition burst_ok (p : option PendingAmneziaJunk) : Prop :=
  match p with Some p => 0 <= remaining p | None => True end.

Record tunn_ok t : Prop := {
  to_handshake : hs_ok (handshake t);
  to_ring : ring_ok (sessions t);
  to_queue : len (packet_queue t) <= MAX_QUEUE_DEPTH;
  to_timers : timers_ok (tunn_timers t);
  to_config : config_ok (amnezia t);
  to_nonce : check_header_protection_nonce (amnezia t) = Ok tt;
  to_burst : burst_ok (pending_amnezia_junk t);
  to_window : 0 <= udp_window t <= u32_max;
}.

(** ** Timers *)

Record timers_step (a b : Timers R) : Prop := {
  ts_ok : timers_ok a -> timers_ok b;
  ts_current : ticks b TimeCurrent = ticks a TimeCurrent;
  ts_started : time_started b = time_started a;
  ts_slots : session_timers b = session_timers a;
  ts_attempts : handshake_attempts b = handshake_attempts a;
  ts_limit : max_retransmissions_current b = max_retransmissions_current a;
}.
#[export] Instance timers_step_preorder : PreOrder timers_step.
Proof. split; [by split|]. intros a b c [] []. split; [auto|congruence..]. Qed.

(** What a session in a slot may become while sending: the same session, only
    its sending counter moved. *)
Definition slot_step (a b : option Session) : Prop :=
  match a, b with
  | None, None => True
  | Some a, Some b => exists n, sending_key_counter a <= n /\ b = with_sending_key_counter a n /\ (session_ok a -> session_ok b)
  | _, _ => False
  end.
#[export] Instance slot_step_preorder : PreOrder slot_step.
Proof.
  split.
  - intros [s|]; [|done]. exists (sending_key_counter s). split; [lia|]. by destruct s.
  - intros [a|] [b|] [c|]; try done. intros (n & Hn & -> & Hb) (m & Hm & -> & Hc).
    exists m. cbn in Hm. split; [lia|]. split; [by destruct a|auto].
Qed.

Definition ring_step : relation (list (option Session)) := Forall2 slot_step.
#[export] Instance ring_step_preorder : PreOrder ring_step.
Proof. unfold ring_step. split; apply _. Qed.

(** ** Sending on a session *)

Record traffic t t' : Prop := {
  tr_handshake : exists r, handshake t' = set_rng r (handshake t);
  tr_ring : ring_step (sessions t) (sessions t');
  tr_current : current t' = current t;
  tr_queue : packet_queue t' = packet_queue t;
  tr_timers : timers_step (tunn_timers t) (tunn_timers t');
  tr_amnezia : amnezia t' = amnezia t;
  tr_auto : auto_imitation t' = auto_imitation t;
  tr_burst : pending_amnezia_junk t' = pending_amnezia_junk t;
  tr_limiter : rate_limiter t' = rate_limiter t;
  tr_window : udp_window t' = udp_window t \/ udp_window t <= udp_window t' <= u32_max;
}.
#[export] Instance traffic_preorder : PreOrder traffic.
Proof.
  split.
  - intros t. split; auto; try done. exists (hs_rng (handshake t)). by destruct (handshake t).
  - intros a b c [[r1 Hh1] Hs1 Hc1 Hq1 Ht1 Ha1 Hi1 Hb1 Hl1 Hw1] [[r2 Hh2] Hs2 Hc2 Hq2 Ht2 Ha2 Hi2 Hb2 Hl2 Hw2].
    split; try congruence; try (by etrans); [|lia]. exists r2. rewrite Hh2, Hh1. done.
Qed.

Lemma zget_Forall2 {A B} (P : A -> B -> Prop) l l' i y :
  Forall2 P l l' -> zget l' i = Some y -> exists x, zget l i = Some x /\ P x y.
Proof. unfold zget. destruct (i <? 0); [done|]. intros Hf Hl. by eapply Forall2_lookup_r. Qed.

Lemma ring_step_ok a b : ring_step a b -> ring_ok a -> ring_ok b.
Proof.
  intros Hs [Hl Ho]. split; [unfold len in *; by rewrite <- (Forall2_length _ _ _ Hs)|].
  intros i s Hg. destruct (zget_Forall2 _ _ _ _ _ Hs Hg) as ([x|] & Hx & Hst); [|done].
  destruct Hst as (n & _ & -> & Hok). destruct (Ho _ _ Hx) as [Hx1 Hx2]. auto.
Qed.

Lemma traffic_ok t t' : traffic t t' -> tunn_ok t -> tunn_ok t'.
Proof.
  intros [[r Hh] Hs _ Hq Ht Ha _ Hb _ Hw] []. split; rewrite ?Hh, ?Hq, ?Ha, ?Hb; try done.
  - by apply hs_ok_rng.
  - by eapply ring_step_ok.
  - by apply Ht.
  - lia.
Qed.
End Invariant.

(** ** Ticking *)

Section Ticking.
Context `{Crypto} {R : Type} `{RngCore R} `{PrefixFillers R} `{ImitationEnv}.
Implicit Types t : Tunn R.
Implicit Types tm : Timers R.

Lemma timers_same tm tm' :
  ticks tm' = ticks tm -> session_timers tm' = session_timers tm -> time_started tm' = time_started tm ->
  handshake_attempts tm' = handshake_attempts tm -> max_retransmissions_current tm' = max_retransmissions_current tm ->
  timers_step tm tm'.
Proof. intros Ht Hs Hst Hha Hmr. split; try done; [|by rewrite Ht]. intros []. by split; rewrite ?Ht, ?Hs. Qed.

Lemma timers_set_tick n tm : timers_step tm (set_tick n (ticks tm TimeCurrent) tm).
Proof.
  assert (forall m, ticks (set_tick n (ticks tm TimeCurrent) tm) m = if decide (n = m) then ticks tm TimeCurrent else ticks tm m) as Hm.
  { intros m. cbn. destruct (decide (n = m)) as [->|Hne]; [apply fn_lookup_insert|by apply fn_lookup_insert_ne]. }
  assert (ticks (set_tick n (ticks tm TimeCurrent) tm) TimeCurrent = ticks tm TimeCurrent) as Hc.
  { rewrite Hm. by destruct (decide _). }
  split; try done. intros [Ht Hs Ha]. split; [|done|by rewrite Hc].
  intros m. rewrite Hc, Hm. pose proof (Ht TimeCurrent). destruct (decide _); [lia|apply Ht].
Qed.

Lemma timers_rearm tm : timers_step tm (rearm_persistent_keepalive tm).
Proof.
  unfold rearm_persistent_keepalive. destruct (persistent_keepalive tm) as [lo hi].
  destruct (lo =? hi); [by apply timers_same|]. destruct (random_usize_inclusive _ _ _). by apply timers_same.
Qed.

Lemma timers_jitter tm : timers_step tm (snd (jitter tm)).
Proof. unfold jitter. destruct (next_u32 _). by apply timers_same. Qed.

(** Only the timers and the generator move. *)
Definition retimed t t' : Prop :=
  exists r tm, t' = set_tunn_timers tm (set_handshake (set_rng r (handshake t)) t) /\ timers_step (tunn_timers t) tm.

#[export] Instance retimed_preorder : PreOrder retimed.
Proof.
  split.
  - intros t. exists (hs_rng (handshake t)), (tunn_timers t). split; [by destruct t as [[]]|done].
  - intros a b c (r1 & tm1 & -> & H1') (r2 & tm2 & -> & H2'). exists r2, tm2. split; [done|]. by etrans.
Qed.

Lemma retimed_timers t tm : timers_step (tunn_timers t) tm -> retimed t (set_tunn_timers tm t).
Proof. intros. exists (hs_rng (handshake t)), tm. split; [by destruct t as [[]]|done]. Qed.

Lemma retimed_traffic t t' : retimed t t' -> traffic t t'.
Proof. intros (r & tm & -> & Hs). split; try done; [by exists r|by left]. Qed.

Lemma draw_wp {A} (f : R -> A * R) (Q : A -> Tunn R -> Prop) t :
  (forall r, Q (fst (f (hs_rng (handshake t)))) (set_handshake (set_rng r (handshake t)) t)) -> wp (draw f) Q t.
Proof. intros HQ. unfold wp, draw. destruct (f _) as [a r]. cbn. apply HQ. Qed.

Lemma draw_checked_wp {A} (f : R -> outcome (A * R)) (Q : A -> Tunn R -> Prop) t :
  safely (f (hs_rng (handshake t))) (fun x => forall r, Q (fst x) (set_handshake (set_rng r (handshake t)) t)) ->
  wp (draw_checked f) Q t.
Proof. intros HQ. unfold wp, draw_checked. destruct (f _) as [[a r]|]; cbn in *; [apply HQ|done]. Qed.

Lemma retimed_rng t r : retimed t (set_handshake (set_rng r (handshake t)) t).
Proof. exists r, (tunn_timers t). split; [by destruct t|done]. Qed.

Lemma draw_jitter_wp (Q : Z -> Tunn R -> Prop) t :
  (forall d tm, timers_step (tunn_timers t) tm -> Q d (set_tunn_timers tm t)) -> wp draw_jitter Q t.
Proof.
  intros HQ. unfold wp, draw_jitter. pose proof (timers_jitter (tunn_timers t)). destruct (jitter _) as [d tm]. cbn. by apply HQ.
Qed.

Lemma on_tick_wp n t : wp (on_tick n (ticks (tunn_timers t) TimeCurrent)) (fun _ t' => retimed t t') t.
Proof.
  unfold on_tick. wp_steps. destruct n; wp_steps; try reflexivity.
  - apply retimed_timers. etrans; [|apply timers_rearm]. etrans; [|apply (timers_set_tick TimePersistentKeepalive (tm_set_want_handshake None (tunn_timers t)))]. by apply timers_same.
  - apply retimed_timers. transitivity (rearm_persistent_keepalive
      (set_tick TimePersistentKeepalive (ticks (tunn_timers t) TimeCurrent) (tm_set_want_keepalive None (tunn_timers t))));
      [|by apply timers_same].
    etrans; [|apply timers_rearm].
    etrans; [|apply (timers_set_tick TimePersistentKeepalive (tm_set_want_keepalive None (tunn_timers t)))]. by apply timers_same.
  - destruct (want_keepalive _); wp_steps; [reflexivity|]. apply draw_wp. intros r. wp_steps.
    etrans; [apply retimed_rng|]. apply retimed_timers. by apply timers_same.
  - destruct (want_handshake _); wp_steps; [reflexivity|]. apply draw_wp. intros r. wp_steps. apply draw_jitter_wp. intros d tm Htm. wp_steps.
    etrans; [apply retimed_rng|]. etrans; [by apply retimed_timers|]. apply retimed_timers. by apply timers_same.
Qed.

Lemma timer_tick_wp n t : wp (timer_tick n) (fun _ t' => retimed t t') t.
Proof.
  unfold timer_tick. wp_steps. wp_use on_tick_wp. intros _ t' Hr. wp_steps. etrans; [exact Hr|].
  apply retimed_timers. destruct Hr as (r & tm & -> & Hs). cbn [tunn_timers set_tunn_timers].
  rewrite <- (ts_current _ _ Hs). apply timers_set_tick.
Qed.
End Ticking.
