(* ===== verification/TunnOutput.v ===== *)
(** What a tunnel produces: framing for the wire, transport on the current
    session, the pre-handshake burst and the initiation, the queue. Each
    operation's specification says what the datagram is, that it fits the
    buffer and the budget, and what the operation changed. *)

From stdpp Require Import functions.
From S2P Require Import Prelude Budget Instant Crypto Rand Tags Packet Replay Session RateLimiter HeaderProtection.
From S2P Require Import Amnezia Framing Handshake Imitation Timers OpReport Tunn TunnLogic.

Section Output.
Context `{Crypto} `{!CryptoLaws} {R : Type} `{RngCore R} `{!RngLaws R} `{PrefixFillers R} `{!FillerLaws R} `{ImitationEnv} `{!ImitationLaws}.
Implicit Types t : Tunn R.

(** ** Framing *)

(** Resolving the imitation changes nothing else of the configuration. *)
Lemma resolve_same c p : exists i, resolve_imitation c p = set_imitation i c.
Proof.
  unfold resolve_imitation. destruct (negb _); [exists (imitation c); by destruct c|].
  destruct (is_err _); eexists; by destruct c.
Qed.

Lemma resolve_config_ok c p : config_ok c -> config_ok (resolve_imitation c p).
Proof.
  intros []. unfold resolve_imitation. destruct (negb _); [by split|]. cbv zeta. destruct (is_err _); split; try done; cbn; by destruct p.
Qed.
Lemma resolve_sizes c p kind : inbound_junk_size (resolve_imitation c p) kind = inbound_junk_size c kind.
Proof. by destruct (resolve_same c p) as [i ->], kind. Qed.
Lemma resolve_protected c p : header_protection_enabled (resolve_imitation c p) = header_protection_enabled c.
Proof. by destruct (resolve_same c p) as [i ->]. Qed.

Lemma len_in_buffer packet dst : len packet <= len dst -> len (in_buffer packet dst) = len dst.
Proof. intros. unfold in_buffer. pose proof (len_nonneg packet). len_lia. Qed.
Lemma in_buffer_head packet dst : ztake (len packet) (in_buffer packet dst) = packet.
Proof. by apply ztake_app_exact. Qed.

(** A packet with room for its S prefix is always framed. *)
Lemma write_wp dst packet room p kind (Q : TunnResult -> Tunn R -> Prop) t :
  tunn_ok t -> classify_outbound (hs_obf (handshake t)) packet = Some kind ->
  len packet + inbound_junk_size (amnezia t) kind <= len dst -> len dst <= usize_max ->
  (forall d r,
     wire_frame (resolve_imitation (amnezia t) p) (hs_obf (handshake t)) kind packet d ->
     let base := len packet + inbound_junk_size (amnezia t) kind in
     base <= len d <= len dst ->
     len d <= Z.max base (Z.min MAX_SENDABLE_DATAGRAM (Z.min (tr_udp_window room - 1) (tr_max_wire room))) ->
     Q (WriteToNetwork d) (set_handshake (set_rng r (handshake t)) t)) ->
  wp (write_to_network_with_imitation dst packet room p) Q t.
Proof.
  intros Hok Hk Hfit Hdst HQ. unfold write_to_network_with_imitation. wp_steps.
  set (c := resolve_imitation (amnezia t) p) in *. apply draw_wp. intros r. wp_steps.
  assert (config_ok c) as Hc by (apply resolve_config_ok, Hok).
  pose proof (co_sizes _ Hc kind) as [Hj _]. unfold c in Hj. rewrite resolve_sizes in Hj.
  pose proof (len_nonneg packet).
  pose proof (prepend_outbound_spec c (hs_obf (handshake t)) (in_buffer packet dst) (len packet) (Some room)
    (hs_rng (handshake t)) Hc ltac:(done) ltac:(rewrite len_in_buffer; lia)) as Hs.
  cbv zeta in Hs. rewrite in_buffer_head, len_in_buffer in Hs by lia.
  destruct (prepend_outbound_with_trailer _ _ _ _ _ _) as [[d|e] rng]; cbn [fst].
  - rewrite Hk in Hs. destruct Hs as (_ & Hw & Hb & Hr). unfold c in Hb, Hr. rewrite resolve_sizes in Hb, Hr. by apply HQ.
  - exfalso. destruct Hs as (_ & [?|(k & Hk' & Hd)]); [lia|]. rewrite Hk in Hk'. injection Hk' as <-.
    unfold c in Hd. rewrite resolve_sizes, resolve_protected in Hd. destruct Hd as [?|[He Hn]]; [lia|].
    destruct (check_nonce_ok _ (to_nonce _ Hok) He) as [Hn' _]. specialize (Hn' kind). lia.
Qed.

(** ** What is emitted *)

(** The byte budget a kind of output is under: zero is none. The cookie reply is
    never produced under one. *)
Definition limit (c : AmneziaConfig) (budget : OutputBudget) (kind : ReportKind) : Z :=
  match kind with
  | RkTransportData | RkTransportKeepalive => transport budget
  | RkHandshakeInitiation | RkHandshakeResponse | RkImitation => control_for budget Other
  | RkJunk => control_for budget (if bool_decide (protocol (imitation c) = ProtoNone) then OrdinaryJunk else Other)
  | RkCookieReply | RkNone => 0
  end.

(** An output fits the buffer and the budget of its kind, and is tagged with
    that kind. *)
Definition emitted (dst_len : Z) (budget : OutputBudget) (r : TunnResult) t : Prop :=
  match r with
  | WriteToNetwork d =>
      len d <= dst_len /\ output_kind (meta t) <> RkNone /\ within (limit (amnezia t) budget (output_kind (meta t))) (len d)
  | WriteToTunnelV4 p addr => 0 < len p <= dst_len /\ len addr = 4
  | WriteToTunnelV6 p addr => 0 < len p <= dst_len /\ len addr = 16
  | Done | TErr _ => True
  end.

(** ** Transport *)

(** [d] is [packet] in the framing of [t], under some imitation. *)
Definition framed_as t (kind : PacketKind) (packet d : bytes) : Prop :=
  exists p, wire_frame (resolve_imitation (amnezia t) p) (hs_obf (handshake t)) kind packet d.
Lemma framed_as_same t t' kind packet d :
  amnezia t' = amnezia t -> hs_obf (handshake t') = hs_obf (handshake t) -> framed_as t' kind packet d -> framed_as t kind packet d.
Proof. intros Ha Ho [p Hw]. exists p. by rewrite <- Ha, <- Ho. Qed.

(** [packet] is the next packet of [s]: [src], padded with [pad] zeros, sealed. *)
Definition transport_packet (obf : ObfuscationRanges) (s : Session) (src : bytes) (pad : Z) (packet : bytes) : Prop :=
  exists tag, matches_h4 obf tag = true /\ 0 <= pad /\
    packet = data_bytes tag (sending_index s) (sending_key_counter s)
      (aead_seal (sender s) (counter_nonce (sending_key_counter s)) [] (src ++ zeros pad)).

(** [d] carries [src], padded with [pad] zeros, as the next packet of [s]. *)
Definition carries t (s : Session) (src : bytes) (pad : Z) (d : bytes) : Prop :=
  exists packet, transport_packet (hs_obf (handshake t)) s src pad packet /\ framed_as t KTransportData packet d.

Lemma session_at_zget t i s : session_at t i = Some s -> zget (sessions t) (i mod N_SESSIONS) = Some (Some s).
Proof. unfold session_at. destruct (zget _ _) as [[]|]; cbn; congruence. Qed.

Lemma ring_step_set (ss : list (option Session)) i s s' :
  zget ss i = Some (Some s) -> slot_step (Some s) (Some s') -> ring_step ss (zset ss i (Some s')).
Proof.
  unfold zget, zset. destruct (i <? 0); [done|]. intros Hg Hs. unfold ring_step.
  rewrite <- (list_insert_id ss (Z.to_nat i) (Some s)) at 1 by done. apply Forall2_insert; [reflexivity|done].
Qed.

Lemma zset_id {A} (l : list A) i x : zget l i = Some x -> zset l i x = l.
Proof. unfold zget, zset. destruct (i <? 0); [done|]. apply list_insert_id. Qed.
Lemma set_sessions_id t : set_sessions (sessions t) t = t.
Proof. by destruct t. Qed.

Lemma session_at_set t i s : ring_ok (sessions t) ->
  session_at (set_sessions (zset (sessions t) (i mod N_SESSIONS) (Some s)) t) i = Some s.
Proof.
  intros Hr. unfold session_at. cbn [sessions set_sessions].
  pose proof (Z.mod_pos_bound i N_SESSIONS eq_refl). rewrite zget_zset, decide_True; [done|].
  rewrite (ri_len _ Hr). split; [done|lia].
Qed.

Lemma grown_window_range w n : 0 <= w <= u32_max -> w <= grown_window w n <= u32_max.
Proof. unfold grown_window. lia. Qed.

Lemma traffic_window t n : tunn_ok t -> traffic t (set_udp_window (grown_window (udp_window t) n) t).
Proof.
  intros Hok. split; try done; [exists (hs_rng (handshake t)); by destruct t as [[]]|].
  right. apply grown_window_range, Hok.
Qed.
Lemma traffic_sessions t i s s' :
  zget (sessions t) i = Some (Some s) -> slot_step (Some s) (Some s') -> traffic t (set_sessions (zset (sessions t) i (Some s')) t).
Proof.
  intros Hz Hs. split; try done; [exists (hs_rng (handshake t)); by destruct t as [[]]|by eapply ring_step_set|by left].
Qed.
Lemma traffic_tx n t : traffic t (set_tx_bytes n t).
Proof. split; try done; [exists (hs_rng (handshake t)); by destruct t as [[]]|by left]. Qed.
Lemma traffic_meta o t : traffic t (set_meta o t).
Proof. split; try done; [exists (hs_rng (handshake t)); by destruct t as [[]]|by left]. Qed.
Lemma traffic_rng r t : traffic t (set_handshake (set_rng r (handshake t)) t).
Proof. apply retimed_traffic, retimed_rng. Qed.

Lemma session_step s n : session_ok s -> sending_key_counter s <= n <= REJECT_AFTER_MESSAGES ->
  slot_step (Some s) (Some (with_sending_key_counter s n)).
Proof.
  intros Hok Hn. exists n. split; [lia|]. split; [done|]. intros [seen []]. exists seen. split; try done. cbn. lia.
Qed.

(** The errors of sending on the current session: what each means, and that
    nothing was spent. *)
Definition send_refused t (src dst : bytes) (budget : OutputBudget) (e : WireGuardError) t' : Prop :=
  (e = NoCurrentSession /\ session_at t (current t) = None /\ t' = t) \/
  (admit_datagram (transport_frame (len src) (transport_junk_size (amnezia t))) (len dst) (transport budget) = Err e /\
   is_capacity (TErr e) = true /\ t' = t) \/
  (e = ConnectionExpired /\ has_current_session t = false /\ sessions t' = sessions t).

Definition send_kind (src : bytes) : ReportKind := if len src =? 0 then RkTransportKeepalive else RkTransportData.

Definition sent t (src : bytes) (d : bytes) t' : Prop :=
  exists s pad, session_at t (current t) = Some s /\ carries t s src pad d /\
    session_at t' (current t) = Some (with_sending_key_counter s (sending_key_counter s + 1)) /\
    output_kind (meta t') = send_kind src.

Lemma admit_capacity m dst_len budget e : admit_datagram m dst_len budget = Err e -> is_capacity (TErr e) = true.
Proof. unfold admit_datagram. intros Ha. repeat case_match; by simplify_eq. Qed.

(** Sending a formatted data packet: the tail of [encapsulate_on_session]. *)
Lemma send_formatted_wp (src dst packet : bytes) t :
  tunn_ok t -> len dst <= usize_max -> matches_h4 (hs_obf (handshake t)) (le_u32 0 packet) = true ->
  DATA_OVERHEAD_SZ <= len packet -> len packet + inbound_junk_size (amnezia t) KTransportData <= len dst ->
  wp (timer_tick TimeLastPacketSent &;
      (if len src =? 0 then mreturn tt else timer_tick TimeLastDataPacketSent) &;
      modify (fun t => set_tx_bytes (wrap64 (tx_bytes t + len src)) t) &;
      let* result := write_to_network dst packet in
      upd_meta (note_output (if len src =? 0 then RkTransportKeepalive else RkTransportData) result) &;
      mreturn result)
    (fun r t' => exists d, r = WriteToNetwork d /\ traffic t t' /\ sessions t' = sessions t /\
      output_kind (meta t') = send_kind src /\
      wire_frame (resolve_imitation (amnezia t) (imitation_protocol t)) (hs_obf (handshake t)) KTransportData packet d) t.
Proof.
  intros Hok Hdst Ht Hb Hfit. wp_steps. wp_use timer_tick_wp. intros _ t1 H1'. wp_steps.
  eapply (wp_mono _ (fun _ t2 => retimed t t2)).
  { apply wp_if; intros _; [by wp_steps|]. wp_use timer_tick_wp. intros _ t2 H2'. by etrans. }
  clear t1 H1'. intros _ t2 H2'. wp_steps. unfold write_to_network, write_to_network_with. wp_steps.
  assert (traffic t (set_tx_bytes (wrap64 (tx_bytes t2 + len src)) t2)) as Htr
    by (etrans; [by apply retimed_traffic|apply traffic_tx]).
  set (t3 := set_tx_bytes _ t2) in *. pose proof (traffic_ok _ _ Htr Hok) as Hok3.
  assert (hs_obf (handshake t3) = hs_obf (handshake t)) as Ho by (destruct (tr_handshake _ _ Htr) as [r ->]; done).
  assert (imitation_protocol t3 = imitation_protocol t) as Hp
    by (unfold imitation_protocol; by rewrite (tr_amnezia _ _ Htr), (tr_auto _ _ Htr)).
  assert (sessions t3 = sessions t) as Hss by (destruct H2' as (? & ? & -> & _); done).
  eapply (write_wp _ _ _ _ KTransportData); [done|..].
  - rewrite Ho. apply classify_formatted; [apply (ho_obf _ (to_handshake _ Hok))|done|done|done].
  - by rewrite (tr_amnezia _ _ Htr).
  - done.
  - intros d r Hw base _ _. wp_steps. exists d. rewrite (tr_amnezia _ _ Htr), Ho, Hp in Hw. split_and!; try done.
    etrans; [exact Htr|]. etrans; [apply (traffic_rng r)|apply traffic_meta].
Qed.

(** [encapsulate_on_session], every branch. *)
Lemma encapsulate_on_session_wp (src dst : bytes) budget t :
  tunn_ok t -> len dst <= usize_max ->
  wp (encapsulate_on_session src dst budget) (fun r t' => traffic t t' /\ emitted (len dst) budget r t' /\
    match r with
    | WriteToNetwork d => sent t src d t'
    | TErr e => send_refused t src dst budget e t'
    | _ => False
    end) t.
Proof.
  intros Hok Hdst. unfold encapsulate_on_session. wp_steps.
  destruct (session_at t (current t)) as [s|] eqn:Hs; [|wp_steps; split_and!; [done|done|by left]].
  destruct (admit_datagram _ _ _) as [ceil|e] eqn:Ha.
  2: { wp_steps. split; [done|]. split; [done|]. right; left. split_and!; try done. by eapply admit_capacity. }
  apply admit_datagram_ceiling in Ha as (m & Hm & Hmc & Hcd & Hwi). apply transport_frame_Some in Hm as ->.
  pose proof (co_sizes _ (to_config _ Hok) KTransportData) as [Hj _]. cbn [inbound_junk_size] in Hj.
  set (junk := transport_junk_size (amnezia t)) in *. assert (0 <= junk) as Hj' by done.
  wp_steps. apply draw_wp. intros r1.
  pose proof (content_padding_for_frame_range (amnezia t) (len src) ceil junk) as Hpad.
  match goal with |- context [fst ?x] => destruct x as [pad r1'] eqn:Ep end. cbn [fst].
  eapply (f_equal fst) in Ep. cbn [fst] in Ep.
  edestruct Hpad as [Hp0 Hp1]; [apply Hok|apply len_nonneg|done|]. rewrite Ep in Hp0, Hp1. clear Hpad Ep.
  wp_steps. unfold format_on. wp_steps. apply draw_wp. intros r2. cbn [handshake set_handshake set_udp_window hs_obf set_rng].
  pose proof (session_at_zget _ _ _ Hs) as Hz. destruct (ri_ok _ (to_ring _ Hok) _ _ Hz) as [Hsok Hidx].
  pose proof Hsok as [seen Hinv].
  pose proof (format_packet_data_spec (hs_obf (handshake t)) src pad (len dst) s seen r1 Hinv (ho_obf _ (to_handshake _ Hok)) Hp0) as Hf.
  destruct (format_packet_data _ _ _ _ _ _) as [[[packet|e] s'] rng']; cbn [fst]; do 3 wp_step; cbv beta iota.
  all: set (t1 := set_handshake _ _); assert (traffic t t1) as Htr1
    by (etrans; [by apply traffic_window|etrans; [apply (traffic_rng r1)|apply (traffic_rng r2)]]).
  2: { wp_steps. destruct Hf as (-> & _ & [[-> Hl]|[-> He]]); [lia|].
    rewrite zset_id by done. split_and!; [by rewrite set_sessions_id|done|]. right; right.
    split_and!; try done. unfold has_current_session. by rewrite Hs, He. }
  destruct Hf as (tag & Htag & -> & -> & Hlt & _ & Hlen & _).
  set (s' := with_sending_key_counter s _). set (t2 := set_sessions _ t1).
  assert (slot_step (Some s) (Some s')) as Hstep by (apply session_step; [done|lia]).
  assert (traffic t t2) as Htr2 by (etrans; [exact Htr1|]; by eapply traffic_sessions).
  pose proof (traffic_ok _ _ Htr2 Hok) as Hok2.
  wp_use send_formatted_wp; [done|done|..].
  { unfold data_bytes. rewrite le_u32_head; [done|]. eapply (u32_of_range _ (ho_obf _ (to_handshake _ Hok))); [|exact Htag]. simpl. auto. }
  { pose proof (len_nonneg src). lia. }
  { change (inbound_junk_size (amnezia t2) KTransportData) with junk. lia. }
  intros r t3 (d & -> & Htr3 & Hss & Hkind & Hw). split_and!.
  - by etrans.
  - cbn [emitted]. rewrite Hkind. assert (len d = len src + DATA_OVERHEAD_SZ + junk + pad) as ->.
    { rewrite (wire_frame_transport_len _ _ _ _ Hw), resolve_sizes, Hlen.
      change (inbound_junk_size (amnezia t2) KTransportData) with junk. lia. }
    split_and!; [lia| |]; unfold send_kind; destruct (len src =? 0); try done; cbn [limit]; unfold within in *; lia.
  - exists s, pad. split_and!; try done; [eexists; split; [by exists tag|by eexists]|]. unfold session_at. rewrite Hss.
    apply (session_at_set t1), Hok.
Qed.

(** ** The burst and the initiation *)

Definition budget_ok (b : OutputBudget) : Prop := 0 <= transport b /\ 0 <= control b.

Record initiating t t' : Prop := {
  in_handshake : hs_ok (handshake t) -> hs_ok (handshake t');
  in_obf : hs_obf (handshake t') = hs_obf (handshake t);
  in_params : hs_params (handshake t') = hs_params (handshake t);
  in_sessions : sessions t' = sessions t;
  in_current : current t' = current t;
  in_queue : packet_queue t' = packet_queue t;
  in_timers : timers_ok (tunn_timers t) -> timers_ok (tunn_timers t') /\
    ticks (tunn_timers t) TimeCurrent <= ticks (tunn_timers t') TimeCurrent;
  in_slots : session_timers (tunn_timers t') = session_timers (tunn_timers t);
  in_amnezia : amnezia t' = amnezia t;
  in_auto : auto_imitation t' = auto_imitation t;
  in_limiter : rate_limiter t' = rate_limiter t;
  in_burst : burst_ok (pending_amnezia_junk t) -> burst_ok (pending_amnezia_junk t');
  in_window : udp_window t' = udp_window t;
}.
#[export] Instance initiating_preorder : PreOrder initiating.
Proof.
  split; [by split|]. intros a b c [] []. split; try congruence; auto.
  intros Ha. destruct (in_timers0 Ha) as [Hb ?]. destruct (in_timers1 Hb). split; [done|lia].
Qed.

Lemma initiating_ok t t' : initiating t t' -> tunn_ok t -> tunn_ok t'.
Proof.
  intros [] []. split; try congruence; auto. by apply in_timers0.
Qed.

Lemma retimed_initiating t t' : retimed t t' -> initiating t t'.
Proof.
  intros (r & tm & -> & [Hok Hc Hst Hs _ _]). split; try done; [by apply hs_ok_rng|]. intros Ht. split; [by apply Hok|]. cbn. lia.
Qed.
Lemma initiating_meta o t : initiating t (set_meta o t).
Proof. by split. Qed.
Lemma initiating_burst p t : burst_ok p -> initiating t (set_pending_amnezia_junk p t).
Proof. by split. Qed.

Lemma timers_clear now (tm : Timers R) :
  timers_ok tm -> timers_ok (clear now tm) /\ ticks tm TimeCurrent <= ticks (clear now tm) TimeCurrent.
Proof.
  intros [Ht Hs Ha]. set (n := monotonic_now now tm).
  assert (ticks tm TimeCurrent <= n) as Hn by (unfold n, monotonic_now; lia). pose proof (Ht TimeCurrent).
  split; [|done]. split; [intros m; change (0 <= n <= n); lia|done|].
  eapply List.Forall_impl; [|exact Ha]. intros x Hx. cbv beta in Hx. change (0 <= x <= n). lia.
Qed.
Lemma initiating_clear now t : initiating t (set_tunn_timers (clear now (tunn_timers t)) t).
Proof. split; try done. apply timers_clear. Qed.

Lemma junk_range_spec c budget range :
  config_ok c -> budget_ok budget -> pre_handshake_junk_range_within c budget = Ok range ->
  0 <= fst range /\ 0 <= snd range /\ within (limit c budget RkJunk) (Z.max (fst range) (snd range)).
Proof.
  intros Hc [_ Hb]. unfold pre_handshake_junk_range_within, limit.
  assert (0 <= fst (pre_handshake_junk_size_range c) /\ 0 <= snd (pre_handshake_junk_size_range c)) as [Hlo Hhi].
  { unfold pre_handshake_junk_size_range. pose proof (co_junk_min _ Hc) as [? _]. pose proof (co_junk_max _ Hc) as [? _].
    destruct (protocol (imitation c)); cbn [fst snd]; unfold DNS_JUNK_SIZE_MIN, DNS_JUNK_SIZE_MAX, QUIC_JUNK_SIZE_MIN,
      QUIC_JUNK_SIZE_MAX, SIP_JUNK_SIZE_MIN, SIP_JUNK_SIZE_MAX, STUN_JUNK_SIZE_MIN, STUN_JUNK_SIZE_MAX; lia. }
  assert (forall k, 0 <= control_for budget k) as Hk by (intros []; cbn; destruct (ordinary_junk_only budget); lia).
  destruct (pre_handshake_junk_size_range c) as [lo hi]. unfold junk_range. cbn [fst snd] in *.
  case_bool_decide; cbn [negb]; match goal with |- context [control_for budget ?k] =>
    set (ctl := control_for budget k); pose proof (Hk k) as Hk' end; fold ctl in Hk'; unfold within;
    destruct (Z.eqb_spec ctl 0); [intros [= <-]|intros [= <-]|intros [= <-]|]; cbn [fst snd]; try lia.
  destruct (Z.gtb_spec lo (Z.min hi ctl)); [done|]. intros [= <-]. cbn [fst snd]. lia.
Qed.

Lemma fill_junk_spec c budget range dst (rng : R) :
  config_ok c -> budget_ok budget -> pre_handshake_junk_range_within c budget = Ok range ->
  pre_handshake_junk_max_size_in c range <= len dst ->
  exists d, fst (fill_pre_handshake_junk_in c dst range rng) = Ok d /\ len d <= len dst /\
    within (limit c budget RkJunk) (len d).
Proof.
  intros Hc Hb Hr Hm. destruct (junk_range_spec c budget range Hc Hb Hr) as (Hlo & Hhi & Hw).
  pose proof (len_nonneg dst). unfold fill_pre_handshake_junk_in, pre_handshake_junk_max_size_in in *.
  destruct (junk_is_enabled _); cbn [negb] in *.
  2: { exists []. split; [done|]. change (len []) with 0. split; [lia|]. unfold within in *. lia. }
  pose proof (random_usize_inclusive_range (fst range) (snd range) rng) as Hs.
  destruct (random_usize_inclusive _ _ _) as [size rng1]. cbn [fst] in Hs.
  destruct (Z.ltb_spec (len dst) size); [lia|].
  assert (len (ztake size dst) = size) as Hz by len_lia.
  match goal with |- context [let '(_, _) := ?m in _] => assert (len (fst m) = size) as Hl; [|destruct m as [d rng2]] end.
  { destruct (protocol (imitation c)); rewrite ?len_fill_dns, ?len_fill_quic_initial, ?len_fill_sip, ?len_fill_stun; try done;
      apply len_fill_random; lia. }
  exists d. split; [done|]. cbn [fst] in Hl. unfold within in *. lia.
Qed.

Section Initiation.
Variables (now : Z) (eph : bytes).

Lemma handshake_format_initiation_wp dst_len (Q : result WireGuardError bytes -> Tunn R -> Prop) t :
  tunn_ok t -> HANDSHAKE_INIT_SZ <= dst_len ->
  (forall d h, hs_ok h -> len d = HANDSHAKE_INIT_SZ -> matches_h1 (hs_obf (handshake t)) (le_u32 0 d) = true ->
     hs_obf h = hs_obf (handshake t) -> hs_params h = hs_params (handshake t) -> handshake_timer h = Some now ->
     Handshake.format_handshake_initiation now eph dst_len (handshake t) = (Ok d, h) -> Q (Ok d) (set_handshake h t)) ->
  wp (handshake_format_initiation now eph dst_len) Q t.
Proof.
  intros Hok Hd HQ. unfold wp, handshake_format_initiation.
  pose proof (format_initiation_ok now eph dst_len (handshake t) (to_handshake _ Hok)) as Hf.
  destruct (Handshake.format_handshake_initiation _ _ _ _) as [[d|e] h] eqn:Hf'; cbn; [|lia]. by apply HQ; try apply Hf.
Qed.

(** The attempt counter after an initiation, [in_progress] before it. *)
Definition next_attempts (in_progress : bool) (tm : Timers R) : Z :=
  if in_progress then sat_add u32_max (handshake_attempts tm) 1 else 0.

(** The timers and the generator moved, the attempt counter to [n]. *)
Definition attempted (n : Z) t t' : Prop :=
  exists r tm, t' = set_tunn_timers tm (set_handshake (set_rng r (handshake t)) t) /\
    (timers_ok (tunn_timers t) -> timers_ok tm) /\ ticks tm TimeCurrent = ticks (tunn_timers t) TimeCurrent /\
    session_timers tm = session_timers (tunn_timers t) /\ handshake_attempts tm = n.

Lemma retimed_attempted t t' : retimed t t' -> attempted (handshake_attempts (tunn_timers t)) t t'.
Proof. intros (r & tm & -> & []). by exists r, tm. Qed.
Lemma attempted_retimed n t t1 t2 : attempted n t t1 -> retimed t1 t2 -> attempted n t t2.
Proof.
  intros (r & tm & -> & Hok & Hc & Hs & Hn) (r2 & tm2 & -> & []). exists r2, tm2. split_and!; try done; auto; cbn in *; congruence.
Qed.
Lemma attempted_set n m t t' :
  attempted m t t' -> attempted n t (set_tunn_timers (tm_set_handshake_attempts n (tunn_timers t')) t').
Proof.
  intros (r & tm & -> & Hok & Hc & Hs & Hn). exists r. eexists. split; [done|]. split_and!; try done.
  intros Ht. destruct (Hok Ht). by split.
Qed.
Lemma attempted_limit n k t t' :
  attempted n t t' -> attempted n t (set_tunn_timers (tm_set_max_retransmissions_current k (tunn_timers t')) t').
Proof.
  intros (r & tm & -> & Hok & Hc & Hs & Hn). exists r. eexists. split; [done|]. split_and!; try done.
  intros Ht. destruct (Hok Ht). by split.
Qed.
Lemma attempted_initiating n t t' : attempted n t t' -> initiating t t'.
Proof.
  intros (r & tm & -> & Hok & Hc & Hs & Hn). split; try done; [by apply hs_ok_rng|]. intros Ht. split; [by apply Hok|]. cbn. lia.
Qed.

Lemma arm_retransmission_wp new t :
  wp (arm_retransmission new) (fun _ t' => attempted (next_attempts (negb new) (tunn_timers t)) t t') t.
Proof.
  unfold arm_retransmission. wp_steps. apply draw_wp. intros r. wp_steps. apply draw_jitter_wp. intros j tm Htm. wp_steps.
  set (t1 := set_tunn_timers _ _). assert (retimed t t1) as Hr.
  { etrans; [apply (retimed_rng t r)|]. etrans; [apply retimed_timers, Htm|]. apply retimed_timers. by apply timers_same. }
  assert (handshake_attempts (tunn_timers t1) = handshake_attempts (tunn_timers t)) as Ha
    by (destruct Hr as (? & ? & -> & []); done).
  pose proof (retimed_attempted _ _ Hr) as Hat. unfold next_attempts. destruct new; cbn [negb]; wp_steps.
  - apply draw_wp. intros r2. wp_steps. wp_use timer_tick_wp. intros _ t2 Ht2. eapply attempted_retimed; [|exact Ht2].
    apply attempted_limit. eapply attempted_retimed; [by eapply attempted_set|]. apply retimed_rng.
  - rewrite Ha. by eapply attempted_set.
Qed.

Lemma initiating_handshake h t : hs_ok h -> hs_obf h = hs_obf (handshake t) -> hs_params h = hs_params (handshake t) -> initiating t (set_handshake h t).
Proof. by split. Qed.

(** [d] is the frame of the initiation [t] formats now, which is then in flight. *)
Definition initiated t (d : bytes) t' : Prop := exists n packet h r,
  Handshake.format_handshake_initiation now eph n (handshake t) = (Ok packet, h) /\
  handshake t' = set_rng r h /\ framed_as t KHandshakeInit packet d.

(** Writing a formatted handshake message. *)
Lemma write_handshake_wp kind dst packet ceil (Q : TunnResult -> Tunn R -> Prop) t :
  tunn_ok t -> len dst <= usize_max -> kind <> KTransportData -> len packet = base_size kind ->
  tag_matches (hs_obf (handshake t)) kind (le_u32 0 packet) = true ->
  base_size kind + inbound_junk_size (amnezia t) kind <= ceil -> ceil <= len dst ->
  (forall d r, len d <= ceil -> framed_as t kind packet d -> Q (WriteToNetwork d) (set_handshake (set_rng r (handshake t)) t)) ->
  wp (write_handshake_to_network dst packet ceil) Q t.
Proof.
  intros Hok Hdst Hk Hl Ht Hf Hc HQ. unfold write_handshake_to_network, write_to_network_with. wp_steps.
  eapply (write_wp _ _ _ _ kind); [done| | |done|].
  - apply classify_formatted; [apply (ho_obf _ (to_handshake _ Hok))|done|lia|done].
  - lia.
  - intros d r Hw base Hd Hm. apply HQ; [|by eexists]. unfold base in Hm. cbn [trailer_within tr_max_wire trailer_window] in Hm. lia.
Qed.

Lemma initiation_now_wp dst force reset budget t :
  tunn_ok t -> len dst <= usize_max ->
  wp (format_handshake_initiation_now_with_budget now eph dst force reset budget) (fun r t' =>
    initiating t t' /\ emitted (len dst) budget r t' /\ pending_amnezia_junk t' = pending_amnezia_junk t /\
    match r with
    | Done => is_in_progress (handshake t) = true /\ force = false /\ t' = t
    | TErr e => is_capacity r = true /\ t' = t /\
        admit_datagram (Some (initiation_wire_floor t)) (len dst) (control_for budget Other) = Err e
    | WriteToNetwork d => handshake_timer (handshake t') = Some now /\
        handshake_attempts (tunn_timers t') = next_attempts (is_in_progress (handshake t)) (tunn_timers t) /\ initiated t d t'
    | _ => False
    end) t.
Proof.
  intros Hok Hdst. unfold format_handshake_initiation_now_with_budget. wp_steps.
  apply wp_if; [intros [Hp Hf]%andb_prop; wp_steps; apply negb_true_iff in Hf; by split_and!|intros Hgo]. wp_steps.
  destruct (admit_datagram _ _ _) as [ceil|e] eqn:Ha; [|wp_steps; split_and!; try done; by eapply admit_capacity].
  apply admit_datagram_ceiling in Ha as (m & [= <-] & Hmc & Hcd & Hwi). wp_steps.
  eapply (wp_mono _ (fun _ t1 => initiating t t1 /\ pending_amnezia_junk t1 = pending_amnezia_junk t /\
    handshake t1 = handshake t /\ handshake_attempts (tunn_timers t1) = handshake_attempts (tunn_timers t))).
  { apply wp_if; intros _; wp_steps; split_and!; try done. apply initiating_clear. }
  intros _ t1 (Hi1 & Hb1 & Hh1 & Ha1). pose proof (initiating_ok _ _ Hi1 Hok) as Hok1. wp_steps.
  apply handshake_format_initiation_wp; [done|change (HANDSHAKE_INIT_SZ + inbound_junk_size (amnezia t) KHandshakeInit <= ceil) in Hmc;
    pose proof (co_sizes _ (to_config _ Hok) KHandshakeInit); unfold in_u16 in *; lia|].
  intros d h Hh Hl Hm Ho Hpa Htm Hfm. wp_steps. wp_use arm_retransmission_wp. intros _ t2 Hat.
  assert (initiating t t2) as Hi2.
  { etrans; [exact Hi1|]. etrans; [by apply (initiating_handshake h t1)|]. by eapply attempted_initiating. }
  wp_steps. wp_use timer_tick_wp. intros _ t3 Hr3. pose proof (attempted_retimed _ _ _ _ Hat Hr3) as Hat3.
  assert (initiating t t3) as Hi3 by (etrans; [exact Hi2|by apply retimed_initiating]). wp_steps.
  apply (write_handshake_wp KHandshakeInit); [by eapply initiating_ok|done|done|done|..].
  - rewrite (in_obf _ _ Hi3). rewrite (in_obf _ _ Hi1) in Hm. exact Hm.
  - rewrite (in_amnezia _ _ Hi3). exact Hmc.
  - done.
  - intros d' r Hd' Hfr. cbn [is_network]. wp_steps. destruct Hat3 as (r3 & tm3 & -> & Hok3 & Hc3 & Hs3 & Hn3).
    split_and!; try done.
    + etrans; [exact Hi3|]. etrans; [apply retimed_initiating, (retimed_rng _ r)|].
      etrans; [apply initiating_meta|apply initiating_meta].
    + cbn [emitted]. split_and!; [lia|done|].
      cbn [limit meta set_meta output_kind note_output is_network op_set_output_kind]. unfold within in *. lia.
    + cbn. rewrite Hn3. unfold next_attempts. cbn. rewrite negb_involutive, Ha1. done.
    + rewrite Hh1 in Hfm. eexists _, d, h, r. split; [exact Hfm|]. split; [done|].
      eapply framed_as_same; [apply (in_amnezia _ _ Hi3)|apply (in_obf _ _ Hi3)|exact Hfr].
Qed.
End Initiation.

End Output.
