(* ===== verification/TunnSend.v ===== *)
(** Sending: the pre-handshake burst, [format_handshake_initiation_with_budget],
    [encapsulate_with_budget] and the queue ([send_queued_packet]). The burst is
    shown to end in an initiation, and a packet handed to the tunnel to be
    refused, sent or queued -- exactly one of the three. *)

From stdpp Require Import functions.
From S2P Require Import Prelude Budget Instant Crypto Rand Tags Packet Replay Session RateLimiter HeaderProtection.
From S2P Require Import Amnezia Framing Handshake Imitation Timers OpReport Tunn TunnLogic TunnOutput.

Section Send.
Context `{Crypto} `{!CryptoLaws} {R : Type} `{RngCore R} `{!RngLaws R} `{PrefixFillers R} `{!FillerLaws R} `{ImitationEnv} `{!ImitationLaws}.
Implicit Types t : Tunn R.
Variables (now : Z) (eph : bytes).

(** ** The burst *)

(** The datagrams a burst still owes before its initiation. *)
Definition burst_items (p : PendingAmneziaJunk) : Z := len (imitation_datagrams p) + remaining p.

(** One item of the burst left, or the initiation that ends it. *)
Definition burst_advanced t t' : Prop :=
  exists p, pending_amnezia_junk t = Some p /\
    ((exists p', 0 < burst_items p /\ pending_amnezia_junk t' = Some p' /\ burst_items p' = burst_items p - 1 /\
        imitation_datagrams p' = tail (imitation_datagrams p) /\
        (last_packet_at p' = None \/ last_packet_at p' = Some now) /\
        handshake_timer (handshake t') = handshake_timer (handshake t)) \/
     (burst_items p = 0 /\ pending_amnezia_junk t' = None /\ handshake_timer (handshake t') = Some now)).

Lemma reset_on_first_emit_wp t p :
  pending_amnezia_junk t = Some p ->
  wp (reset_expired_timers_on_first_emit now) (fun _ t' => exists tm,
    t' = set_tunn_timers tm (set_pending_amnezia_junk (Some (burst_set_reset_expired_timers false p)) t) /\
    (tm = tunn_timers t \/ tm = clear now (tunn_timers t))) t.
Proof.
  intros Hp. unfold reset_expired_timers_on_first_emit. wp_steps. rewrite Hp. wp_steps. apply wp_if; intros _; wp_steps.
  - eexists. split; [done|by right].
  - exists (tunn_timers t). split; [by destruct t|by left].
Qed.

Lemma initiating_reset t p tm :
  pending_amnezia_junk t = Some p -> tm = tunn_timers t \/ tm = clear now (tunn_timers t) ->
  initiating t (set_tunn_timers tm (set_pending_amnezia_junk (Some (burst_set_reset_expired_timers false p)) t)).
Proof.
  intros Hp Htm. split; try done.
  - intros Hok. cbn [tunn_timers set_tunn_timers]. destruct Htm as [-> | ->]; [split; [done|lia]|by apply timers_clear].
  - by destruct Htm as [-> | ->].
  - cbn. by rewrite Hp.
Qed.

Lemma control_within budget dst_len n ceil :
  admit_datagram (Some n) dst_len budget = Ok ceil -> n <= dst_len /\ within budget n.
Proof. intros (m & [= <-] & ? & ? & ?)%admit_datagram_ceiling. unfold within in *. lia. Qed.

(** A refusal changes nothing; so does a burst that is not due. *)
Lemma advance_amnezia_junk_wp dst budget t :
  tunn_ok t -> budget_ok budget -> len dst <= usize_max ->
  wp (advance_amnezia_junk now eph dst budget) (fun r t' =>
    initiating t t' /\ emitted (len dst) budget r t' /\
    match r with
    | Done => t' = t
    | TErr e => is_capacity r = true /\ t' = t
    | WriteToNetwork _ => burst_advanced t t'
    | _ => False
    end) t.
Proof.
  intros Hok Hb Hdst. unfold advance_amnezia_junk. wp_steps.
  destruct (pending_amnezia_junk t) as [p|] eqn:Hp; wp_steps; [|by split_and!].
  pose proof (to_burst _ Hok) as Hbp. rewrite Hp in Hbp. cbn [burst_ok] in Hbp.
  apply wp_if; intros _; wp_steps; [by split_and!|].
  destruct (imitation_datagrams p) as [|[delay datagram] rest] eqn:Hd.
  - apply wp_if; [intros Hz%Z.eqb_eq|intros Hz%Z.eqb_neq]; wp_steps.
    + wp_use initiation_now_wp; [done|done|]. intros r t1 (Hi & He & Hb1 & Hr).
      destruct r; cbn [is_network]; wp_steps; try done; [by destruct Hr as (_ & ? & _)|by destruct Hr as (? & -> & _)|].
      destruct Hr as [Htm _]. split_and!; [etrans; [exact Hi|by apply initiating_burst]|exact He|].
      exists p. split; [done|]. right. unfold burst_items. rewrite Hd. by split_and!.
    + destruct (pre_handshake_junk_range_within _ _) as [range|e] eqn:Hr.
      2: { wp_steps. split_and!; try done. unfold pre_handshake_junk_range_within, junk_range in Hr. repeat case_match; by simplify_eq. }
      apply wp_if; [intros _; wp_steps; by split_and!|intros Hm%Z.ltb_ge]. wp_steps.
      wp_use (reset_on_first_emit_wp t p Hp). intros _ t1 (tm & -> & Htm). wp_steps.
      apply draw_wp. intros r.
      destruct (fill_junk_spec (amnezia t) budget range dst (hs_rng (handshake t)) (to_config _ Hok) Hb Hr Hm) as (d & Hf & Hl & Hw).
      match goal with |- context [fst ?x] => change (fst x) with (fst (fill_pre_handshake_junk_in (amnezia t) dst range (hs_rng (handshake t)))) end.
      rewrite Hf. wp_steps. cbn [pending_amnezia_junk set_handshake set_tunn_timers set_pending_amnezia_junk]. split_and!.
      * etrans; [by apply (initiating_reset t p tm)|]. etrans; [apply retimed_initiating, (retimed_rng _ r)|].
        etrans; [|apply initiating_meta]. apply initiating_burst. cbn. lia.
      * by split_and!.
      * exists p. split; [done|]. left. refine (ex_intro _ _ (conj _ (conj eq_refl _))); unfold burst_items;
          cbn [imitation_datagrams remaining burst_set_remaining burst_set_last_packet_at burst_set_reset_expired_timers];
          rewrite Hd; change (len []) with 0; [lia|split_and!; [lia|done|by right|done]].
  - destruct (admit_datagram _ _ _) as [ceil|e] eqn:Ha; [|wp_steps; split_and!; try done; by eapply admit_capacity].
    apply control_within in Ha as [Hl Hw]. wp_steps.
    eapply wp_mono; [by eapply reset_on_first_emit_wp|]. cbv beta. intros _ t1 (tm & -> & Htm). wp_steps.
    split_and!.
    + etrans; [|apply initiating_meta]. etrans; [|by eapply initiating_reset]. by apply initiating_burst.
    + by split_and!.
    + pose proof (len_nonneg rest). exists p. split; [done|]. left.
      refine (ex_intro _ _ (conj _ (conj eq_refl _))); unfold burst_items;
        cbn [imitation_datagrams remaining burst_set_imitation_datagrams burst_set_last_packet_at burst_set_reset_expired_timers];
        rewrite Hd, len_cons; [lia|split_and!; [lia|done|destruct rest; auto|done]].
Qed.

(** Every item of the burst fits [dst], unbudgeted, and none waits longer than
    [gap] after the one before it. *)
Record burst_room (dst : bytes) (gap : Z) t (p : PendingAmneziaJunk) : Prop := {
  br_datagrams : Forall (fun d => fst d <= gap /\ len (snd d) <= len dst) (imitation_datagrams p);
  br_delay : junk_delay (pre_handshake_junk (amnezia t)) <= gap;
  br_junk : pre_handshake_junk_max_size_in (amnezia t) (pre_handshake_junk_size_range (amnezia t)) <= len dst;
  br_initiation : initiation_wire_floor t <= len dst;
}.

Lemma admit_unbounded n dst_len : n <= dst_len -> admit_datagram (Some n) dst_len 0 = Ok dst_len.
Proof. intros Hl. unfold admit_datagram, exceeds, ceiling. cbn. by rewrite (proj2 (Z.leb_le _ _) Hl). Qed.

Lemma junk_range_unbounded c : pre_handshake_junk_range_within c UNBOUNDED = Ok (pre_handshake_junk_size_range c).
Proof. unfold pre_handshake_junk_range_within, junk_range. destruct (pre_handshake_junk_size_range c). cbn. by destruct (negb _). Qed.

(** With room, an item that is due leaves. *)
Lemma advance_progress_wp dst gap t p :
  tunn_ok t -> len dst <= usize_max -> pending_amnezia_junk t = Some p -> burst_room dst gap t p ->
  match last_packet_at p with Some last => gap <= duration_since now last | None => True end ->
  wp (advance_amnezia_junk now eph dst UNBOUNDED) (fun r _ => is_network r = true) t.
Proof.
  intros Hok Hdst Hp [Hd Hdl Hj Hf] Hdue. unfold advance_amnezia_junk. wp_steps. rewrite Hp. wp_steps.
  apply wp_if; [intros Hne; exfalso|intros _]; wp_steps.
  { apply negb_true_iff in Hne. destruct (last_packet_at p) as [last|]; [|done]. apply Z.leb_gt in Hne. unfold burst_delay in Hne.
    destruct (imitation_datagrams p) as [|[d dg] rest]; [lia|]. apply List.Forall_inv in Hd as [Hd _]. cbn in Hd. lia. }
  destruct (imitation_datagrams p) as [|[delay datagram] rest].
  - apply wp_if; intros _; wp_steps.
    + wp_use initiation_now_wp; [done|done|]. intros r t1 (_ & _ & _ & Hr).
      destruct r; cbn [is_network]; wp_steps; try done; [by destruct Hr as (_ & ? & _)|].
      destruct Hr as (_ & _ & Ha). change (control_for UNBOUNDED Other) with 0 in Ha. by rewrite admit_unbounded in Ha.
    + rewrite junk_range_unbounded. apply wp_if; [intros Hlt%Z.ltb_lt; lia|intros _]. wp_steps.
      wp_use (reset_on_first_emit_wp t p Hp). intros _ t1 (tm & -> & Htm). wp_steps. apply draw_wp. intros r.
      destruct (fill_junk_spec (amnezia t) UNBOUNDED _ dst (hs_rng (handshake t)) (to_config _ Hok) ltac:(done) (junk_range_unbounded _) Hj)
        as (d & Hfill & _).
      match goal with |- context [fst ?x] => change (fst x) with
        (fst (fill_pre_handshake_junk_in (amnezia t) dst (pre_handshake_junk_size_range (amnezia t)) (hs_rng (handshake t)))) end.
      rewrite Hfill. by wp_steps.
  - apply List.Forall_inv in Hd as [_ Hl]. cbn [snd] in Hl. change (control_for UNBOUNDED Other) with 0. rewrite admit_unbounded by done. wp_steps.
    eapply wp_mono; [by eapply reset_on_first_emit_wp|]. cbv beta. intros _ t1 _. by wp_steps.
Qed.

(** ** Initiating *)

(** A burst was prepared, and nothing else. *)
Definition burst_prepared t t' : Prop :=
  pending_amnezia_junk t = None /\ exists p r, 0 <= remaining p /\ t' =
    set_meta (note EV_BURST_PREPARED (meta t)) (set_pending_amnezia_junk (Some p) (set_handshake (set_rng r (handshake t)) t)).

Lemma burst_prepared_initiating t t' : burst_prepared t t' -> initiating t t'.
Proof.
  intros (_ & p & r & Hp & ->). etrans; [apply retimed_initiating, (retimed_rng t r)|].
  etrans; [|apply initiating_meta]. by apply initiating_burst.
Qed.

Lemma new_burst_wp t last reset (Q : PendingAmneziaJunk -> Tunn R -> Prop) :
  config_ok (amnezia t) ->
  (forall p r, 0 <= remaining p -> Q p (set_handshake (set_rng r (handshake t)) t)) ->
  wp (new_pre_handshake_burst last reset) Q t.
Proof.
  intros Hc HQ. unfold new_pre_handshake_burst. wp_steps. apply wp_if; intros _; wp_steps.
  - assert (t = set_handshake (set_rng (hs_rng (handshake t)) (handshake t)) t) as Ht by (by destruct t as [[]]).
    rewrite Ht. apply HQ. cbn. lia.
  - apply draw_checked_wp. eapply safely_mono; [apply burst_safe, Hc|]. intros [ds rng] _ r. wp_steps. apply HQ. cbn. apply Hc.
Qed.

Definition initiation_refused t t' : Prop := t' = t \/ burst_prepared t t'.

(** What the producer of an initiation, or of the burst before it, returns. *)
Lemma format_initiation_wp dst force budget t :
  tunn_ok t -> budget_ok budget -> len dst <= usize_max ->
  wp (format_handshake_initiation_with_budget now eph dst force budget) (fun r t' =>
    initiating t t' /\ emitted (len dst) budget r t' /\
    match r with
    | Done => pending_amnezia_junk t' = None -> is_in_progress (handshake t) = true /\ force = false
    | TErr e => is_capacity r = true /\ initiation_refused t t'
    | WriteToNetwork _ => pending_amnezia_junk t' = None -> handshake_timer (handshake t') = Some now
    | _ => False
    end) t.
Proof.
  intros Hok Hb Hdst. unfold format_handshake_initiation_with_budget. wp_steps.
  destruct (pending_amnezia_junk t) as [p|] eqn:Hp.
  { wp_use advance_amnezia_junk_wp; [done..|]. intros r t' (Hi & He & Hr). split_and!; try done. destruct r; try done.
    - subst t'. congruence.
    - destruct Hr as [? ->]. split; [done|by left].
    - destruct Hr as (p0 & Hp0 & [(p' & _ & Hp' & _)|(_ & _ & Htm)]); [congruence|done]. }
  apply wp_if; [intros [Hin Hf]%andb_prop; wp_steps; apply negb_true_iff in Hf; by split_and!|intros Hgo]. wp_steps.
  apply wp_if; intros Hem.
  - wp_steps. apply new_burst_wp; [apply Hok|]. intros p r1 Hp1. wp_steps. set (t1 := set_meta _ _).
    assert (burst_prepared t t1) as H1' by (split; [done|]; by exists p, r1).
    pose proof (burst_prepared_initiating _ _ H1') as Hi1.
    wp_use advance_amnezia_junk_wp; [by eapply initiating_ok|done..|]. intros r t2 (Hi2 & He & Hr). split_and!; [by etrans|done|].
    destruct r; try done.
    + by subst t2.
    + destruct Hr as [? ->]. split; [done|by right].
    + destruct Hr as (p0 & Hp0 & [(p' & _ & Hp' & _)|(_ & _ & Htm)]); [congruence|done].
  - wp_use initiation_now_wp; [done..|]. intros r t' (Hi & He & Hp' & Hr). split_and!; try done. destruct r; try done.
    + by destruct Hr as (? & ? & _).
    + destruct Hr as (? & -> & _). split; [done|by left].
    + by destruct Hr as [? _].
Qed.

(** ** Writing *)

(** What an output operation leaves of the tunnel, whichever path it took. *)
Record produced t t' : Prop := {
  pd_ok : tunn_ok t -> tunn_ok t';
  pd_obf : hs_obf (handshake t') = hs_obf (handshake t);
  pd_params : hs_params (handshake t') = hs_params (handshake t);
  pd_ring : ring_step (sessions t) (sessions t');
  pd_current : current t' = current t;
  pd_amnezia : amnezia t' = amnezia t;
  pd_auto : auto_imitation t' = auto_imitation t;
  pd_limiter : rate_limiter t' = rate_limiter t;
}.
#[export] Instance produced_preorder : PreOrder produced.
Proof. split; [by split|]. intros a b c [] []. split; try congruence; [auto|by etrans]. Qed.

Lemma traffic_produced t t' : traffic t t' -> produced t t'.
Proof. intros Htr. destruct (Htr) as [[r Hh]]. split; try done; [by apply traffic_ok|by rewrite Hh..]. Qed.
Lemma initiating_produced t t' : initiating t t' -> produced t t'.
Proof. intros Hi. destruct (Hi). split; try done; [by apply initiating_ok|by rewrite in_sessions]. Qed.
Lemma produced_queue q t : len q <= MAX_QUEUE_DEPTH -> produced t (set_packet_queue q t).
Proof. intros. split; try done. intros []. by split. Qed.
Lemma produced_meta o t : produced t (set_meta o t).
Proof. apply traffic_produced, traffic_meta. Qed.

(** The refusals of a current session that can still send are refusals for
    want of room: of the buffer, or of the budget. *)
Lemma send_refused_capacity t src dst budget e t' :
  has_current_session t = true -> send_refused t src dst budget e t' -> is_capacity (TErr e) = true /\ t' = t.
Proof.
  unfold has_current_session. intros Hs [(-> & Hn & _)|[(_ & ? & ->)|(-> & Hn & _)]]; [by rewrite Hn in Hs|done|].
  unfold has_current_session in Hn. congruence.
Qed.

(** What became of the packet [src]. *)
Definition owned t (src : bytes) (r : TunnResult) t' : Prop :=
  match r with
  | TErr e => packet_queue t' = packet_queue t /\
      ((e = PacketQueueFull /\ len (packet_queue t) = MAX_QUEUE_DEPTH /\ t' = t) \/ is_capacity (TErr e) = true)
  | Done => has_current_session t = false /\ packet_queue t' = packet_queue t ++ [src]
  | WriteToNetwork d =>
      if has_current_session t then sent t src d t' /\ packet_queue t' = packet_queue t
      else packet_queue t' = packet_queue t ++ [src]
  | _ => False
  end.

Lemma encapsulate_with_budget_wp src dst budget t :
  tunn_ok t -> budget_ok budget -> len dst <= usize_max ->
  wp (encapsulate_with_budget now eph src dst budget) (fun r t' =>
    produced t t' /\ emitted (len dst) budget r t' /\ owned t src r t' /\
    (is_capacity r = true -> initiation_refused t t')) t.
Proof.
  intros Hok Hb Hdst. unfold encapsulate_with_budget. wp_steps. apply wp_if; intros Hs.
  - wp_use encapsulate_on_session_wp; [done..|]. intros r t' (Htr & He & Hr). split_and!; [by apply traffic_produced|done|..].
    + unfold owned. rewrite Hs. destruct r; try done; (split; [|apply Htr]) || split; try done; [apply Htr|].
      right. by eapply send_refused_capacity.
    + destruct r; try done. intros _. left. by eapply send_refused_capacity.
  - unfold admit_without_session. wp_steps. apply wp_if; intros Hroom; wp_steps.
    { apply negb_true_iff, Z.ltb_ge in Hroom. pose proof (to_queue _ Hok). split_and!; try done. split; [done|]. left. split_and!; [done|lia|done]. }
    apply negb_false_iff in Hroom. unfold queue_has_room in Hroom. apply Z.ltb_lt in Hroom.
    wp_use format_initiation_wp; [done..|]. intros r t1 (Hi & He & Hr). apply wp_if; intros Ht; wp_steps.
    { destruct r; try done. destruct Hr as [Hc Href]. split_and!; [by apply initiating_produced|done| |done].
      split; [apply Hi|by right]. }
    unfold queue_packet. wp_steps. unfold queue_has_room at 1. rewrite (in_queue _ _ Hi). rewrite (proj2 (Z.ltb_lt _ _) Hroom). cbn [negb]. wp_steps.
    split_and!.
    + etrans; [by apply initiating_produced|]. etrans; [|apply produced_meta]. apply produced_queue. rewrite len_app, (in_queue _ _ Hi). change (len [src]) with 1. lia.
    + by destruct r.
    + destruct r; try done; unfold owned; cbn; rewrite ?Hs, (in_queue _ _ Hi); done.
    + by destruct r.
Qed.

(** ** Flushing the queue *)

Definition oversized t (budget : OutputBudget) (packet : bytes) : Prop :=
  exceeds (transport_frame (len packet) (transport_junk_size (amnezia t))) (transport budget) = true.

(** What became of the queue: heads over the budget are dropped, the first that
    is not is sent, or stays at the front of the queue. *)
Definition flushed t (budget : OutputBudget) (r : TunnResult) t' : Prop :=
  exists dropped, Forall (oversized t budget) dropped /\
    match r with
    | WriteToNetwork d => exists head rest, packet_queue t = dropped ++ head :: rest /\ ~ oversized t budget head /\
        packet_queue t' = rest /\ sent t head d t'
    | TErr e => packet_queue t = dropped ++ packet_queue t' /\ is_capacity r = true
    | Done => packet_queue t = dropped /\ packet_queue t' = []
    | _ => False
    end.

Lemma send_heads_wp dst budget n t :
  tunn_ok t -> len dst <= usize_max -> has_current_session t = true -> n = length (packet_queue t) ->
  wp (send_heads n dst budget) (fun r t' => produced t t' /\ emitted (len dst) budget r t' /\ flushed t budget r t') t.
Proof.
  intros Hok Hdst Hs Hn. revert t Hok Hs Hn. induction n as [|n IH]; intros t Hok Hs Hn; cbn [send_heads].
  { wp_steps. split_and!; try done. exists []. symmetry in Hn. apply nil_length_inv in Hn. by rewrite Hn. }
  wp_steps. destruct (packet_queue t) as [|head rest] eqn:Hq; [done|]. injection Hn as Hn.
  pose proof (to_queue _ Hok) as Hlen. rewrite Hq, len_cons in Hlen.
  assert (forall Q, Q (Some head) (set_packet_queue rest t) -> wp dequeue_packet Q t) as Hdeq
    by (intros Q HQ; unfold wp, dequeue_packet; by rewrite Hq).
  assert (produced t (set_packet_queue rest t)) as Hpq by (apply produced_queue; lia).
  apply wp_if; intros Hex; wp_steps; apply Hdeq; clear Hdeq; wp_steps.
  - set (t1 := set_meta _ _). assert (produced t t1) as H1' by (etrans; [exact Hpq|apply produced_meta]).
    eapply wp_mono; [apply IH; [by apply H1'|done|done]|]. cbv beta. intros r t' (Hp & He & dropped & Hdr & Hr).
    split_and!; [by etrans|done|]. exists (head :: dropped). split; [by constructor|]. rewrite Hq. cbn [app].
    change (packet_queue t1) with rest in Hr. destruct r; try done.
    + by destruct Hr as [-> ?].
    + destruct Hr as [-> ?]. done.
    + destruct Hr as (h & q & -> & Hr). by exists h, q.
  - set (t1 := set_packet_queue rest t) in *. wp_use encapsulate_on_session_wp; [by apply Hpq|done|].
    intros r t2 (Htr & He & Hr).
    assert (~ oversized t budget head) as Hno by (unfold oversized; rewrite Hex; done).
    destruct r; try done; unfold requeue_packet; wp_steps.
    + destruct (send_refused_capacity t1 _ _ _ _ _ Hs Hr) as [Hc ->]. rewrite Hc. cbn [packet_queue set_packet_queue t1].
      assert (set_packet_queue (head :: rest) t1 = t) as -> by (rewrite <- Hq; by destruct t).
      split_and!; try done. by exists [].
    + split_and!; [etrans; [exact Hpq|by apply traffic_produced]|done|]. exists []. split; [done|]. exists head, rest.
      split_and!; try done. by rewrite (tr_queue _ _ Htr).
Qed.

(** [send_queued_packet], every branch. *)
Lemma send_queued_packet_wp dst budget t :
  tunn_ok t -> budget_ok budget -> len dst <= usize_max ->
  wp (send_queued_packet now eph dst budget) (fun r t' =>
    produced t t' /\ emitted (len dst) budget r t' /\
    if has_current_session t then flushed t budget r t'
    else packet_queue t' = packet_queue t /\ match r with WriteToNetwork _ | Done => True | _ => is_capacity r = true end) t.
Proof.
  intros Hok Hb Hdst. unfold send_queued_packet. wp_steps. apply wp_if; [intros Hz%Z.eqb_eq|intros Hz]; wp_steps.
  - split_and!; try done. assert (packet_queue t = []) as Hq by (apply nil_length_inv; unfold len in Hz; lia).
    destruct (has_current_session t); [|done]. by exists [].
  - apply wp_if; intros Hs.
    + apply negb_true_iff in Hs. rewrite Hs. wp_use format_initiation_wp; [done..|].
      intros r t' (Hi & He & Hr). split_and!; [by apply initiating_produced|done|apply Hi|]. destruct r; try done. by destruct Hr.
    + apply negb_false_iff in Hs. rewrite Hs. by apply send_heads_wp.
Qed.
End Send.
