(* ===== verification/TunnReceive.v ===== *)
(** Receiving, [noise/mod.rs]: [authenticate_with_budget] tries one reading of a
    datagram without acting on it, [commit_with_budget] acts on the one that
    was accepted, and [decapsulate_source] is the whole receive path around
    [Inbound.receive].

    [authenticate_with_budget] takes [&self]; the one thing it changes is the
    replay window of a session, behind a lock, as the last step of an
    acceptance. It returns the tunnel with that window next to the token. The
    plaintext the code leaves in [dst] is part of the token. *)

From stdpp Require Import functions.
From S2P Require Import Prelude Budget Instant Crypto Rand Tags Packet Session RateLimiter Amnezia Framing.
From S2P Require Import Handshake Imitation Inbound Timers OpReport Tunn.

Inductive Authenticated :=
| AuthInit (init : AuthenticatedInit)
| AuthResponse (response : AuthenticatedResponse)
| AuthCookie (cookie : bytes)
| AuthData (receiver_idx : Z) (plaintext : bytes).

Definition authenticated_kind (a : Authenticated) : AuthenticatedPacketKind :=
  match a with
  | AuthInit _ => AHandshakeInitiation
  | AuthResponse _ => AHandshakeResponse
  | AuthCookie _ => ACookieReply
  | AuthData _ _ => ATransport
  end.

(** A keepalive is empty, or starts with a zero byte. *)
Definition is_keepalive (packet : bytes) : bool :=
  match packet with [] => true | b :: _ => byte.unsigned b =? 0 end.

Definition report_kind (a : Authenticated) : ReportKind :=
  match a with
  | AuthInit _ => RkHandshakeInitiation
  | AuthResponse _ => RkHandshakeResponse
  | AuthCookie _ => RkCookieReply
  | AuthData _ plaintext => if is_keepalive plaintext then RkTransportKeepalive else RkTransportData
  end.

Section Receive.
Context `{Crypto} {R : Type} `{RngCore R} `{PrefixFillers R} `{ImitationEnv}.
Implicit Types t : Tunn R.

(** ** Trying a reading *)

Definition authenticate_with_budget (now : Z) t (dst_len : Z) (budget : OutputBudget) (packet : Packet)
  : outcome (result WireGuardError (Authenticated * Tunn R)) :=
  match packet with
  | PHandshakeInit p =>
      match admit_datagram (Some (HANDSHAKE_RESP_SZ + handshake_response_junk_size (amnezia t))) dst_len
              (control_for budget Other) with
      | Err e => Ret (Err e)
      | Ok _ =>
          let! r := authenticate_initiation (handshake t) p in
          Ret (let? init := r in Ok (AuthInit init, t))
      end
  | PHandshakeResponse p =>
      match admit_datagram (transport_frame 0 (transport_junk_size (amnezia t))) dst_len (transport budget) with
      | Err e => Ret (Err e)
      | Ok _ =>
          let! r := authenticate_response now (handshake t) p in
          Ret (let? response := r in Ok (AuthResponse response, t))
      end
  | PPacketCookieReply p =>
      Ret (let? cookie := authenticate_cookie_reply (handshake t) p in Ok (AuthCookie cookie, t))
  | PPacketData p =>
      let r_idx := pd_receiver_idx p in
      match session_at t r_idx with
      | None => Ret (Err NoCurrentSession)
      | Some session =>
          let '(r, session) := receive_packet_data p dst_len session in
          Ret (let? plaintext := r in
               Ok (AuthData r_idx plaintext, set_sessions (zset (sessions t) (r_idx mod N_SESSIONS) (Some session)) t))
      end
  end.

(** ** Acting on an accepted packet *)

Definition set_current_session (new_idx : Z) : M R unit :=
  let* cur_idx := gets current in
  if cur_idx =? new_idx then mreturn tt else
  let* none := gets (fun t => match session_at t cur_idx with None => true | Some _ => false end) in
  let* tm := gets (fun t => session_timers (tunn_timers t)) in
  let at_slot i := from_option id 0 (zget tm (i mod N_SESSIONS)) in
  if none || (at_slot cur_idx <=? at_slot new_idx) then modify (set_current new_idx) else mreturn tt.

Definition validate_decapsulated_packet (packet : bytes) : M R TunnResult :=
  match packet with
  | [] => mreturn Done
  | b :: _ =>
      if byte.unsigned b =? 0 then mreturn Done else
      let deliver computed_len result :=
        if computed_len >? len packet then mreturn (TErr InvalidPacket) else
        timer_tick TimeLastDataPacketReceived &;
        modify (fun t => set_rx_bytes (wrap64 (rx_bytes t + computed_len)) t) &;
        mreturn (result (ztake computed_len packet)) in
      if (ip_version b =? 4) && (IPV4_MIN_HEADER_SIZE <=? len packet) then
        let computed_len := be16 packet IPV4_LEN_OFF in
        let addr := slice IPV4_SRC_IP_OFF (IPV4_SRC_IP_OFF + IPV4_IP_SZ) packet in
        let header_len := Z.land (byte.unsigned b) 15 * 4 in
        if (header_len <? IPV4_MIN_HEADER_SIZE) || (computed_len <? header_len) then mreturn (TErr InvalidPacket)
        else deliver computed_len (fun p => WriteToTunnelV4 p addr)
      else if (ip_version b =? 6) && (IPV6_MIN_HEADER_SIZE <=? len packet) then
        let addr := slice IPV6_SRC_IP_OFF (IPV6_SRC_IP_OFF + IPV6_IP_SZ) packet in
        deliver (be16 packet IPV6_LEN_OFF + IPV6_MIN_HEADER_SIZE) (fun p => WriteToTunnelV6 p addr)
      else mreturn (TErr InvalidPacket)
  end.

Definition commit_data (receiver_idx : Z) (plaintext : bytes) : M R (result WireGuardError TunnResult) :=
  set_current_session receiver_idx &;
  timer_tick TimeLastPacketReceived &;
  let* c := gets amnezia in
  grow_window (received_window_observation c (len plaintext)) &;
  let* r := validate_decapsulated_packet plaintext in
  mreturn (Ok r).

Definition commit_cookie_reply (cookie : bytes) : M R (result WireGuardError TunnResult) :=
  upd_handshake (commit_cookie cookie) &;
  timer_tick TimeCookieReceived &;
  mreturn (Ok Done).

(** [self.handshake.commit_response(response)] *)
Definition handshake_commit_response (response : AuthenticatedResponse) : M R Session := fun t =>
  let '(s, h) := commit_response response (handshake t) in Ret (s, set_handshake h t).

Definition commit_handshake_response (response : AuthenticatedResponse) (dst : bytes) (budget : OutputBudget)
  : M R (result WireGuardError TunnResult) :=
  let* c := gets amnezia in
  let transport_junk := transport_junk_size c in
  let* session := handshake_commit_response response in
  grow_window (transport_window_observation c 0) &;
  let* w := gets udp_window in
  let* pad := draw (content_padding_for_frame c 0 (ceiling (len dst) (transport budget)) transport_junk w) in
  let* (r, session) := format_on session [] pad (len dst) in
  match r with
  | Err e => mreturn (Err e)
  | Ok keepalive_packet =>
      let l_idx := local_index session in
      let index := l_idx mod N_SESSIONS in
      store_session index session &;
      upd_meta (session_stored index) &;
      timer_tick TimeLastPacketReceived &;
      timer_tick_session_established true index &;
      set_current_session l_idx &;
      timer_tick TimeLastPacketSent &;
      let* result := write_to_network dst keepalive_packet in
      upd_meta (note_output RkTransportKeepalive result) &;
      mreturn (Ok result)
  end.

Variable now : Z.
Variable eph : bytes.

(** [self.handshake.commit_initiation(init, dst, selected_slot)] *)
Definition handshake_commit_initiation (init : AuthenticatedInit) (dst_len selected_slot : Z)
  : M R (result WireGuardError (bytes * Session)) := fun t =>
  let! (r, h) := commit_initiation eph init dst_len selected_slot (handshake t) in Ret (r, set_handshake h t).

Definition commit_handshake_init (init : AuthenticatedInit) (dst : bytes) (budget : OutputBudget)
  : M R (result WireGuardError TunnResult) :=
  let ceil := ceiling (len dst) (control_for budget Other) in
  let* selected_slot := gets (fun t => current t mod N_SESSIONS) in
  let* r := handshake_commit_initiation init (len dst) selected_slot in
  match r with
  | Err e => mreturn (Err e)
  | Ok (packet, session) =>
      let index := local_index session in
      store_session (index mod N_SESSIONS) session &;
      upd_meta (session_stored (index mod N_SESSIONS)) &;
      timer_tick TimeLastPacketReceived &;
      timer_tick TimeLastPacketSent &;
      timer_tick_session_established false index &;
      let* result := write_handshake_to_network dst packet ceil in
      upd_meta (note_output RkHandshakeResponse result) &;
      mreturn (Ok result)
  end.

Definition commit_with_budget (packet : Authenticated) (dst : bytes) (budget : OutputBudget) : M R TunnResult :=
  upd_meta (note_input (report_kind packet) (authenticated_kind packet)) &;
  let* r :=
    match packet with
    | AuthInit init => commit_handshake_init init dst budget
    | AuthResponse response => commit_handshake_response response dst budget
    | AuthCookie cookie => commit_cookie_reply cookie
    | AuthData receiver_idx plaintext => commit_data receiver_idx plaintext
    end in
  mreturn (of_result r).

Definition is_auto t : bool := bool_decide (protocol (imitation (amnezia t)) = ProtoAuto).
Definition is_auth_init (packet : Authenticated) : bool := match packet with AuthInit _ => true | _ => false end.
Definition upd_auto (f : AutoImitation -> AutoImitation) : M R unit :=
  modify (fun t => set_auto_imitation (f (auto_imitation t)) t).

(** The protocol an accepted initiation teaches, if any. *)
Definition learn_imitation (datagram : bytes) (hint : option AmneziaImitationProtocol) : M R unit :=
  match (match hint with Some p => Some p | None => probe_protocol <$> detect datagram end) with
  | None => mreturn tt
  | Some p =>
      let* resolved := gets (fun t => resolve_imitation (amnezia t) p) in
      if bool_decide (protocol (imitation resolved) = p) && negb (bool_decide (p = ProtoNone)) && negb (bool_decide (p = ProtoAuto))
      then upd_auto (set_learned (Some p))
      else upd_auto (fun a => if warned a then a else set_warned true a)
  end.

Definition commit_with_imitation_and_budget (packet : Authenticated) (datagram : bytes)
    (hint : option AmneziaImitationProtocol) (dst : bytes) (budget : OutputBudget) : M R TunnResult :=
  let* previous := gets (fun t => learned (auto_imitation t)) in
  let* auto := gets is_auto in
  let* s2 := gets (fun t => response_packet_junk_size (amnezia t)) in
  if auto && is_auth_init packet && (len dst <? HANDSHAKE_RESP_SZ + s2) then mreturn (TErr DestinationBufferTooSmall) else
  (if auto && bool_decide (previous = None) && is_auth_init packet then learn_imitation datagram hint else mreturn tt) &;
  let* result := commit_with_budget packet dst budget in
  (if is_terr result then upd_auto (set_learned previous)
   else
     let* learned_now := gets (fun t => learned (auto_imitation t)) in
     if bool_decide (previous = learned_now) then mreturn tt else upd_auto clear_pending) &;
  mreturn result.

(** ** The receive path *)

(** [inbound::receive] over this tunnel: the tunnel with the limiter's charge,
    and with the replay window of an accepted transport frame. *)
Definition receive_datagram (source : option Source) (datagram : bytes) (dst_len : Z) (budget : OutputBudget)
    (candidates : list InboundCandidate) : M R (Inbound Authenticated) := fun t =>
  let! (r, limiter) := receive now (amnezia t) (hs_obf (handshake t)) source datagram
                         (authenticate_with_budget now t dst_len budget) candidates (rate_limiter t) in
  Ret (match r with
       | Accepted (a, t) => (Accepted a, set_rate_limiter limiter t)
       | Cookie demand => (Cookie demand, set_rate_limiter limiter t)
       | Refused refusal => (Refused refusal, set_rate_limiter limiter t)
       | NotOurs => (NotOurs, set_rate_limiter limiter t)
       end).

(** [self.rate_limiter.format_cookie_demand(obf, rng, demand, cookie)] *)
Definition limiter_format_cookie (demand : CookieDemand) : M R (result WireGuardError bytes) := fun t =>
  let '(r, limiter, rng) := format_cookie_demand (hs_obf (handshake t)) demand COOKIE_REPLY_SZ (rate_limiter t) (hs_rng (handshake t)) in
  Ret (r, set_handshake (set_rng rng (handshake t)) (set_rate_limiter limiter t)).

Definition answer_cookie (src_addr : option IpAddr) (datagram dst : bytes) (demand : CookieDemand) : M R TunnResult :=
  let wire_len := len datagram in
  let* r := limiter_format_cookie demand in
  match r with
  | Err e => mreturn (TErr e)
  | Ok cookie =>
      let packet_size := len cookie in
      let* amplifies := gets (fun t => cookie_reply_would_amplify (amnezia t) packet_size wire_len) in
      if amplifies then mreturn Done else
      if len dst <? packet_size then mreturn (TErr DestinationBufferTooSmall) else
      let* a := gets auto_imitation in
      let p := match learned a with
        | Some p => p
        | None => match auto_hint now src_addr a with
                  | Some p => p
                  | None => from_option probe_protocol ProtoNone (detect datagram)
                  end
        end in
      let* result := write_to_network_with_imitation dst cookie (trailer_cookie_reply wire_len) p in
      let result := match result with
        | WriteToNetwork reply => if reply_amplifies wire_len (len reply) then Done else WriteToNetwork reply
        | other => other
        end in
      upd_meta (note_output RkCookieReply result) &;
      mreturn result
  end.

(** [self.auto_imitation.observe(src_addr, datagram)] *)
Definition observe_datagram (src_addr : option IpAddr) (datagram : bytes) : M R bool := fun t =>
  let '(b, a) := observe now src_addr datagram (auto_imitation t) in Ret (b, set_auto_imitation a t).

Definition decapsulate_source (source : option Source) (datagram dst : bytes) (budget : OutputBudget) : M R TunnResult :=
  let src_addr := source_address <$> source in
  if len datagram =? 0 then send_queued_packet now eph dst budget else
  let* candidates := gets (fun t => inbound_candidates (amnezia t) (hs_obf (handshake t)) datagram) in
  let* auto := gets is_auto in
  let* observed := (if (len candidates =? 0) && auto then observe_datagram src_addr datagram else mreturn false) in
  if observed then mreturn Done else
  let* outcome := receive_datagram source datagram (len dst) budget candidates in
  match outcome with
  | Accepted packet =>
      let* hint := gets (fun t => auto_hint now src_addr (auto_imitation t)) in
      commit_with_imitation_and_budget packet datagram hint dst budget
  | NotOurs => mreturn (TErr InvalidPacket)
  | Refused refusal =>
      (if auto && refusal_allows_hint refusal then observe_datagram src_addr datagram &; mreturn tt else mreturn tt) &;
      mreturn (TErr (error refusal))
  | Cookie demand => answer_cookie src_addr datagram dst demand
  end.

Definition decapsulate (src_addr : option IpAddr) (datagram dst : bytes) : M R TunnResult :=
  decapsulate_source (Address <$> src_addr) datagram dst UNBOUNDED.

Definition decapsulate_from (src : option (IpAddr * Z)) (datagram dst : bytes) : M R TunnResult :=
  decapsulate_source ((fun a => Endpoint (fst a) (snd a)) <$> src) datagram dst UNBOUNDED.

Definition take_input : M R (option AuthenticatedPacketKind) := fun t =>
  let '(k, o) := take_receive_input (meta t) in Ret (k, set_meta o t).

Definition decapsulate_from_with_metadata (src : option (IpAddr * Z)) (datagram dst : bytes)
  : M R (TunnResult * option AuthenticatedPacketKind) :=
  if len datagram =? 0 then mreturn (Done, None) else
  upd_meta begin_receive &;
  let* result := decapsulate_source ((fun a => Endpoint (fst a) (snd a)) <$> src) datagram dst UNBOUNDED in
  let* kind := take_input in
  mreturn (result, kind).
End Receive.
