(* ===== verification/TunnInput.v ===== *)
(** Receiving: what a reading must pass to be accepted ([authentic]), that the
    commit of an accepted packet cannot be refused, and what a datagram that is
    not accepted leaves of the tunnel ([inert]). *)

From stdpp Require Import functions.
From S2P Require Import Prelude Budget Instant Crypto Rand Tags Packet Replay Session RateLimiter HeaderProtection.
From S2P Require Import Amnezia Framing Handshake Imitation Inbound Timers OpReport Tunn TunnReceive TunnLogic TunnOutput TunnSend.

Section Input.
Context `{Crypto} `{!CryptoLaws} {R : Type} `{RngCore R} `{!RngLaws R} `{PrefixFillers R} `{!FillerLaws R} `{ImitationEnv} `{!ImitationLaws}.
Implicit Types t : Tunn R.

(** ** Trying a reading *)

(** What an accepted packet has been checked for: a handshake message's answer
    fits the buffer and the budget; a data packet belongs to the session its
    index names, whose replay window -- the one thing changed -- has marked it. *)
Definition authentic (dst_len : Z) (budget : OutputBudget) t (a : Authenticated) t' : Prop :=
  match a with
  | AuthInit init => t' = t /\ in_u32 (ai_peer_index init) /\
      tai64n_after (ai_timestamp init) (last_handshake_timestamp (handshake t)) = true /\
      HANDSHAKE_RESP_SZ + handshake_response_junk_size (amnezia t) <= dst_len /\
      within (control_for budget Other) (HANDSHAKE_RESP_SZ + handshake_response_junk_size (amnezia t))
  | AuthResponse ar => t' = t /\ session_inv (ar_session ar) [] /\ sending_key_counter (ar_session ar) = 0 /\
      DATA_OVERHEAD_SZ + transport_junk_size (amnezia t) <= dst_len /\
      within (transport budget) (DATA_OVERHEAD_SZ + transport_junk_size (amnezia t))
  | AuthCookie c => t' = t /\ len c = 16
  | AuthData idx plaintext => exists s s', session_at t idx = Some s /\ receiving_index s = idx /\
      s' = with_receiving_key_counter s (receiving_key_counter s') /\ session_ok s' /\
      t' = set_sessions (zset (sessions t) (idx mod N_SESSIONS) (Some s')) t /\ len plaintext <= dst_len
  end.

Lemma response_session_new now (h : Handshake R) p ar :
  authenticate_response now h p = Ret (Ok ar) -> sending_key_counter (ar_session ar) = 0.
Proof.
  unfold authenticate_response. destruct (pick_init_sent _ _) as [[s b]|]; [|done].
  destruct (kdf3 _ _) as [[ck t2] k]. cbv zeta. destruct (aead_chacha20_open _ _ _ _ _) as [[o|]|]; [|done..].
  cbn [obind]. destruct (derive_keys ck). by intros [= <-].
Qed.

Lemma authenticate_spec now t dst_len budget packet :
  tunn_ok t -> packet_ok packet ->
  safely (authenticate_with_budget now t dst_len budget packet) (fun r => match r with
    | Ok (a, t') => authentic dst_len budget t a t' | Err _ => True end).
Proof.
  intros Hok Hp. pose proof (to_handshake _ Hok) as Hh. destruct packet as [p|p|p|p]; cbn [authenticate_with_budget].
  - destruct (admit_datagram _ _ _) as [ceil|e] eqn:Ha; [|done]. apply control_within in Ha as [Hl Hw].
    apply safely_bind. eapply safely_mono; [by apply authenticate_initiation_spec|].
    intros [ai|e]; [|done]. intros (_ & Hafter & Hi). cbn. split_and!; try done. rewrite Hi. by destruct Hp.
  - destruct (admit_datagram _ _ _) as [ceil|e] eqn:Ha; [|done].
    apply admit_datagram_ceiling in Ha as (m & Hm & Hmc & Hcd & Hwi). apply transport_frame_Some in Hm as ->.
    apply safely_bind. pose proof (authenticate_response_spec now _ _ Hh Hp) as Hs.
    destruct (authenticate_response now (handshake t) p) as [[ar|e]|] eqn:Hr; cbn in *; [|done..].
    split_and!; try done; [by eapply response_session_new|lia|]. unfold within in *. lia.
  - cbn. destruct (authenticate_cookie_reply _ _) as [c|e] eqn:Hc; [|done]. split; [done|]. by eapply authenticate_cookie_reply_len.
  - destruct (session_at t (pd_receiver_idx p)) as [s|] eqn:Hs; [|done].
    destruct (ri_ok _ (to_ring _ Hok) _ _ (session_at_zget _ _ _ Hs)) as [[seen Hinv] _]. destruct Hp as [Hidx [Hcnt _]].
    pose proof (receive_packet_data_spec p dst_len s seen Hinv Hcnt) as Hr.
    destruct (receive_packet_data p dst_len s) as [[pt|e] s']; [|done].
    destruct Hr as (Hd & Hri & _ & _ & Hinv' & Hs' & Hl). cbn. exists s, s'. split_and!; try done.
    + by exists (pd_counter p :: seen).
    + unfold TAG_SZ in *. lia.
Qed.

(** ** Committing *)

(** What every commit preserves: the invariant, the configuration, the queue,
    the Auto evidence and the limiter. *)
Record committed t t' : Prop := {
  cm_ok : tunn_ok t -> tunn_ok t';
  cm_obf : hs_obf (handshake t') = hs_obf (handshake t);
  cm_params : hs_params (handshake t') = hs_params (handshake t);
  cm_queue : packet_queue t' = packet_queue t;
  cm_amnezia : amnezia t' = amnezia t;
  cm_auto : auto_imitation t' = auto_imitation t;
  cm_limiter : rate_limiter t' = rate_limiter t;
}.
#[export] Instance committed_preorder : PreOrder committed.
Proof. split; [by split|]. intros a b c [] []. split; try congruence; auto. Qed.

Lemma traffic_committed t t' : traffic t t' -> committed t t'.
Proof. intros Htr. destruct (Htr) as [[r Hh]]. split; try done; [by apply traffic_ok|by rewrite Hh..]. Qed.
Lemma retimed_committed t t' : retimed t t' -> committed t t'.
Proof. intros. by apply traffic_committed, retimed_traffic. Qed.
Lemma committed_meta o t : committed t (set_meta o t).
Proof. apply traffic_committed, traffic_meta. Qed.
Lemma committed_current i t : committed t (set_current i t).
Proof. split; try done. intros []. by split. Qed.
Lemma committed_rx n t : committed t (set_rx_bytes n t).
Proof. split; try done. intros []. by split. Qed.
Lemma committed_handshake h t : (hs_ok (handshake t) -> hs_ok h) -> hs_obf h = hs_obf (handshake t) -> hs_params h = hs_params (handshake t) ->
  committed t (set_handshake h t).
Proof. intros Hh Ho Hp. split; try done. intros []. split; try done. by apply Hh. Qed.

Lemma ring_set ss i s : ring_ok ss -> session_ok s -> i = receiving_index s mod N_SESSIONS -> ring_ok (zset ss i (Some s)).
Proof.
  intros [Hl Ho] Hs Hi. split; [by rewrite len_zset|]. intros j s' Hg. rewrite zget_zset in Hg.
  destruct (decide _) as [[-> _]|]; [injection Hg as <-; by split|by apply Ho].
Qed.
Lemma committed_session i s t : session_ok s -> i = receiving_index s mod N_SESSIONS ->
  committed t (set_sessions (zset (sessions t) i (Some s)) t).
Proof. intros Hs Hi. split; try done. intros []. split; try done. by apply ring_set. Qed.

(** The session of slot [idx] established now. *)
Definition established (init : bool) (idx : Z) t t' : Prop :=
  exists r tm, t' = set_tunn_timers tm (set_pending_amnezia_junk None (set_handshake (set_rng r (handshake t)) t)) /\
    (timers_ok (tunn_timers t) -> timers_ok tm) /\ ticks tm TimeCurrent = ticks (tunn_timers t) TimeCurrent /\
    session_timers tm = zset (session_timers (tunn_timers t)) (idx mod N_SESSIONS) (ticks (tunn_timers t) TimeCurrent) /\
    is_initiator tm = init.

Lemma Forall_zset {A} (P : A -> Prop) l i x : Forall P l -> P x -> Forall P (zset l i x).
Proof. intros Hl Hx. unfold zset. destruct (i <? 0); [done|]. by apply Forall_insert. Qed.

Lemma session_established_wp init idx t :
  wp (timer_tick_session_established init idx) (fun _ t' => established init idx t t') t.
Proof.
  unfold timer_tick_session_established. wp_steps. wp_use timer_tick_wp. intros _ t1 (r1 & tm1 & -> & Hs1). wp_steps.
  apply draw_wp. intros r2. wp_steps. apply draw_wp. intros r3. wp_steps. exists r3. eexists. split; [done|].
  destruct Hs1 as [Hok Hc _ Hsl _ _].
  cbn [tunn_timers set_tunn_timers set_handshake set_pending_amnezia_junk session_timers ticks is_initiator
    tm_set_refresh_receive_current tm_set_rekey_after_current tm_set_is_initiator tm_set_session_timers].
  rewrite Hsl, Hc. split_and!; try done. intros Ht. destruct (Hok Ht) as [Htk Hl Ha]. split; [done|..]; cbn.
  - rewrite len_zset. by rewrite <- Hsl.
  - rewrite <- Hsl. apply Forall_zset; [done|]. rewrite <- Hc. pose proof (Htk TimeCurrent). lia.
Qed.

Lemma established_committed init idx t t' : established init idx t t' -> committed t t'.
Proof.
  intros (r & tm & -> & Hok & _). split; try done. intros []. split; try done; [by apply hs_ok_rng|by apply Hok].
Qed.

Definition slot_time t (idx : Z) : Z := from_option id 0 (zget (session_timers (tunn_timers t)) (idx mod N_SESSIONS)).

Lemma set_current_session_wp idx t :
  wp (set_current_session idx) (fun _ t' => exists c, t' = set_current c t /\ (c = current t \/ c = idx) /\
    (slot_time t (current t) <= slot_time t idx -> c = idx)) t.
Proof.
  unfold set_current_session. wp_steps. apply wp_if; [intros <-%Z.eqb_eq|intros _]; wp_steps.
  { exists (current t). split_and!; [by destruct t|by left|done]. }
  apply wp_if; intros Hc; wp_steps; [exists idx; split_and!; auto|].
  exists (current t). split; [by destruct t|]. split; [by left|]. apply orb_false_elim in Hc as [_ Hlt%Z.leb_gt].
  intros Hle. unfold slot_time in *. lia.
Qed.

(** What a decrypted packet is delivered as: the IP packet its length field
    delimits, whatever padding follows. *)
Definition inner_result (packet : bytes) : TunnResult :=
  match packet with
  | [] => Done
  | b :: _ =>
      if byte.unsigned b =? 0 then Done
      else if (ip_version b =? 4) && (IPV4_MIN_HEADER_SIZE <=? len packet) then
        let n := be16 packet IPV4_LEN_OFF in
        let header_len := Z.land (byte.unsigned b) 15 * 4 in
        if (IPV4_MIN_HEADER_SIZE <=? header_len) && (header_len <=? n) && (n <=? len packet)
        then WriteToTunnelV4 (ztake n packet) (slice IPV4_SRC_IP_OFF (IPV4_SRC_IP_OFF + IPV4_IP_SZ) packet)
        else TErr InvalidPacket
      else if (ip_version b =? 6) && (IPV6_MIN_HEADER_SIZE <=? len packet) then
        let n := be16 packet IPV6_LEN_OFF + IPV6_MIN_HEADER_SIZE in
        if n <=? len packet
        then WriteToTunnelV6 (ztake n packet) (slice IPV6_SRC_IP_OFF (IPV6_SRC_IP_OFF + IPV6_IP_SZ) packet)
        else TErr InvalidPacket
      else TErr InvalidPacket
  end.

Lemma be16_nonneg data off : 0 <= be16 data off.
Proof. apply of_be_bound. Qed.

Lemma inner_result_emitted packet dst_len budget t :
  len packet <= dst_len -> emitted dst_len budget (inner_result packet) t.
Proof.
  intros Hl. unfold inner_result. destruct packet as [|b rest] eqn:Hp; [done|]. rewrite <- Hp in *.
  pose proof (be16_nonneg packet IPV6_LEN_OFF). destruct (_ =? 0); [done|].
  repeat case_match; zbool; try done; cbn [emitted];
    unfold IPV4_MIN_HEADER_SIZE, IPV6_MIN_HEADER_SIZE, IPV4_SRC_IP_OFF, IPV6_SRC_IP_OFF, IPV4_IP_SZ, IPV6_IP_SZ in *;
    rewrite len_slice by lia; (split; [len_lia|lia]).
Qed.

Lemma validate_wp packet t :
  wp (validate_decapsulated_packet packet) (fun r t' => r = inner_result packet /\ committed t t' /\
    sessions t' = sessions t /\ current t' = current t) t.
Proof.
  assert (forall n (p : TunnResult), wp (timer_tick TimeLastDataPacketReceived &;
      modify (fun t => set_rx_bytes (wrap64 (rx_bytes t + n)) t) &; mreturn p)
      (fun r t' => r = p /\ committed t t' /\ sessions t' = sessions t /\ current t' = current t) t) as Hdel.
  { intros n p. wp_steps. wp_use timer_tick_wp. intros _ t1 Hr. wp_steps.
    split_and!; [done|etrans; [by apply retimed_committed|apply committed_rx]|..]; destruct Hr as (? & ? & -> & _); done. }
  unfold validate_decapsulated_packet, inner_result. destruct packet as [|b rest] eqn:Hp; [by wp_steps|]. rewrite <- Hp in *.
  destruct (_ =? 0); [by wp_steps|]. destruct (_ && (IPV4_MIN_HEADER_SIZE <=? _)).
  - destruct (Z.ltb_spec (Z.land (byte.unsigned b) 15 * 4) IPV4_MIN_HEADER_SIZE), (Z.leb_spec IPV4_MIN_HEADER_SIZE (Z.land (byte.unsigned b) 15 * 4));
      cbn [orb andb]; try lia; [by wp_steps|].
    destruct (Z.ltb_spec (be16 packet IPV4_LEN_OFF) (Z.land (byte.unsigned b) 15 * 4)),
      (Z.leb_spec (Z.land (byte.unsigned b) 15 * 4) (be16 packet IPV4_LEN_OFF)); cbn [orb andb]; try lia; [by wp_steps|].
    destruct (Z.gtb_spec (be16 packet IPV4_LEN_OFF) (len packet)), (Z.leb_spec (be16 packet IPV4_LEN_OFF) (len packet));
      try lia; [by wp_steps|apply Hdel].
  - destruct (_ && (IPV6_MIN_HEADER_SIZE <=? _)); [|by wp_steps]. cbv zeta.
    destruct (Z.gtb_spec (be16 packet IPV6_LEN_OFF + IPV6_MIN_HEADER_SIZE) (len packet)),
      (Z.leb_spec (be16 packet IPV6_LEN_OFF + IPV6_MIN_HEADER_SIZE) (len packet)); try lia; [by wp_steps|apply Hdel].
Qed.

Lemma commit_data_wp idx plaintext t :
  tunn_ok t -> session_at t idx <> None ->
  wp (commit_data idx plaintext) (fun r t' => r = Ok (inner_result plaintext) /\ committed t t' /\
    sessions t' = sessions t /\ (current t' = current t \/ current t' = idx) /\
    (slot_time t (current t) <= slot_time t idx -> current t' = idx)) t.
Proof.
  intros Hok Hs. unfold commit_data. wp_steps. wp_use set_current_session_wp. intros _ t1 (c & -> & Hc & Hsel). wp_steps.
  wp_use timer_tick_wp. intros _ t2 H2'. wp_steps. set (t3 := set_udp_window _ _).
  assert (committed t t2) as Hc2 by (etrans; [apply (committed_current c)|by apply retimed_committed]).
  assert (committed t t3) as Hc3 by (etrans; [exact Hc2|apply traffic_committed, traffic_window; by apply Hc2]).
  assert (sessions t3 = sessions t /\ current t3 = c) as [Hs3 Hcur] by (destruct H2' as (? & ? & -> & _); done).
  wp_use validate_wp. intros r t4 (-> & Hc4 & Hs4 & Hcu4). wp_steps. split_and!; [done|by etrans|congruence|..].
  - destruct Hc as [-> | ->]; [left|right]; congruence.
  - intros Hle. rewrite Hcu4, Hcur. by apply Hsel.
Qed.

Lemma commit_cookie_wp cookie t :
  len cookie = 16 ->
  wp (commit_cookie_reply cookie) (fun r t' => r = Ok Done /\ committed t t' /\ sessions t' = sessions t /\
    current t' = current t /\ has_cookie (handshake t') = true) t.
Proof.
  intros Hl. unfold commit_cookie_reply. wp_steps. wp_use timer_tick_wp. intros _ t2 H2'. wp_steps.
  split_and!; [done|..]; [etrans; [|by apply retimed_committed]|..].
  - apply committed_handshake; [|done|done]. by apply commit_cookie_ok.
  - by destruct H2' as (? & ? & -> & _).
  - by destruct H2' as (? & ? & -> & _).
  - by destruct H2' as (? & ? & -> & _).
Qed.

Lemma write_data_wp dst packet (Q : TunnResult -> Tunn R -> Prop) t :
  tunn_ok t -> len dst <= usize_max -> matches_h4 (hs_obf (handshake t)) (le_u32 0 packet) = true ->
  DATA_OVERHEAD_SZ <= len packet -> len packet + transport_junk_size (amnezia t) <= len dst ->
  (forall d r, len d = len packet + transport_junk_size (amnezia t) -> framed_as t KTransportData packet d ->
     Q (WriteToNetwork d) (set_handshake (set_rng r (handshake t)) t)) ->
  wp (write_to_network dst packet) Q t.
Proof.
  intros Hok Hdst Ht Hb Hfit HQ. unfold write_to_network, write_to_network_with. wp_steps.
  eapply (write_wp _ _ _ _ KTransportData); [done|..]; try done.
  - by apply classify_formatted; [apply (ho_obf _ (to_handshake _ Hok))|..].
  - intros d r Hw base _ _. apply HQ; [|by eexists]. rewrite (wire_frame_transport_len _ _ _ _ Hw), resolve_sizes.
    change (inbound_junk_size (amnezia t) KTransportData) with (transport_junk_size (amnezia t)). lia.
Qed.

Lemma handshake_commit_response_wp ar t (Q : Session -> Tunn R -> Prop) :
  (forall t', committed t t' -> sessions t' = sessions t -> current t' = current t -> udp_window t' = udp_window t ->
     handshake t' = snd (commit_response ar (handshake t)) -> Q (ar_session ar) t') ->
  wp (handshake_commit_response ar) Q t.
Proof.
  intros HQ. unfold wp, handshake_commit_response. pose proof (commit_response_ok ar (handshake t)) as Hc.
  assert (hs_obf (snd (commit_response ar (handshake t))) = hs_obf (handshake t) /\
    hs_params (snd (commit_response ar (handshake t))) = hs_params (handshake t)) as [Ho Hpa]
    by (unfold commit_response; by destruct (ar_is_previous ar)).
  destruct (commit_response ar (handshake t)) as [s h] eqn:E. cbn [safely fst snd] in *.
  assert (s = ar_session ar) as -> by (unfold commit_response in E; congruence).
  apply HQ; try done. by apply committed_handshake.
Qed.

(** The keepalive that confirms a new session, formatted before it is stored. *)
Lemma format_first_wp {A} s budget (dst : bytes) c t (k : result WireGuardError bytes * Session -> M R A) (Q : A -> Tunn R -> Prop) :
  tunn_ok t -> c = amnezia t -> session_inv s [] -> sending_key_counter s = 0 ->
  DATA_OVERHEAD_SZ + transport_junk_size c <= len dst ->
  within (transport budget) (DATA_OVERHEAD_SZ + transport_junk_size c) ->
  (forall d t', committed t t' -> sessions t' = sessions t -> current t' = current t ->
     matches_h4 (hs_obf (handshake t)) (le_u32 0 d) = true -> DATA_OVERHEAD_SZ <= len d ->
     len d + transport_junk_size c <= len dst -> within (transport budget) (len d + transport_junk_size c) ->
     (exists pad, transport_packet (hs_obf (handshake t)) s [] pad d) -> (exists r, handshake t' = set_rng r (handshake t)) ->
     wp (k (Ok d, with_sending_key_counter s 1)) Q t') ->
  wp (grow_window (transport_window_observation c 0) &;
      let* w := gets udp_window in
      let* pad := draw (content_padding_for_frame c 0 (ceiling (len dst) (transport budget)) (transport_junk_size c) w) in
      let* p := format_on s [] pad (len dst) in k p) Q t.
Proof.
  intros Hok -> Hs Hn Hd Hw HQ. wp_steps. apply draw_wp. intros r1. unfold format_on. wp_steps. apply draw_wp. intros r2.
  set (junk := transport_junk_size (amnezia t)) in *.
  pose proof (co_sizes _ (to_config _ Hok) KTransportData) as [Hj _]. assert (0 <= junk) as Hj' by done.
  match goal with |- context [format_packet_data _ _ ?p _ _ _] => set (pad := p) end.
  assert (0 <= pad /\ 32 + junk + pad <= Z.max (32 + junk) (ceiling (len dst) (transport budget))) as [Hp0 Hp1].
  { pose proof (content_padding_for_frame_range (amnezia t) 0 (ceiling (len dst) (transport budget)) junk) as Hpad.
    unfold pad. edestruct Hpad as [H0' H1']; [apply Hok|done|done|]. split; [exact H0'|]. unfold DATA_OVERHEAD_SZ in H1'. lia. }
  match goal with |- context [format_packet_data ?o _ _ _ _ ?r] =>
    pose proof (format_packet_data_spec o [] pad (len dst) s [] r Hs (ho_obf _ (to_handshake _ Hok)) Hp0) as Hf end.
  assert (32 + junk + pad <= len dst /\ within (transport budget) (32 + junk + pad)) as [Hfit Hwi].
  { unfold ceiling, within, DATA_OVERHEAD_SZ in *. destruct (Z.eqb_spec (transport budget) 0); lia. }
  destruct (format_packet_data _ _ _ _ _ _) as [[[d|e] s'] rng']; cbn [fst].
  2: { exfalso. destruct Hf as (_ & _ & [[_ Hl]|[_ He]]); [change (len []) with 0 in Hl; unfold DATA_OVERHEAD_SZ in Hl; lia|].
    unfold sending_exhausted in He. rewrite Hn in He. by vm_compute in He. }
  destruct Hf as (tag & Htag & Hdb & -> & _ & _ & Hl & _). rewrite Hn. change (len []) with 0 in Hl.
  change (0 + 1) with 1. apply HQ; try done.
  - etrans; [apply traffic_committed, traffic_window, Hok|]. etrans; apply retimed_committed; [apply (retimed_rng _ r1)|apply (retimed_rng _ r2)].
  - rewrite Hdb. unfold data_bytes. rewrite le_u32_head; [done|].
    eapply (u32_of_range _ (ho_obf _ (to_handshake _ Hok))); [|exact Htag]. simpl. auto.
  - lia.
  - unfold DATA_OVERHEAD_SZ in *. lia.
  - unfold within, DATA_OVERHEAD_SZ in *. lia.
  - exists pad, tag. rewrite Hn in Hdb. by rewrite Hn.
  - by exists r2.
Qed.

Lemma slot_time_le t idx : timers_ok (tunn_timers t) -> slot_time t idx <= ticks (tunn_timers t) TimeCurrent.
Proof.
  intros [Ht Hl Ha]. unfold slot_time. pose proof (Ht TimeCurrent). destruct (zget _ _) as [x|] eqn:Hg; [|cbn; lia].
  unfold zget in Hg. destruct (_ <? 0); [done|]. eapply Forall_lookup_1 in Ha; [|exact Hg]. cbn. lia.
Qed.

Lemma established_slot_time init idx t t' :
  timers_ok (tunn_timers t) -> established init idx t t' -> slot_time t' idx = ticks (tunn_timers t') TimeCurrent.
Proof.
  intros [_ Hl _] (r & tm & -> & _ & Hc & Hs & _). unfold slot_time. cbn [tunn_timers set_tunn_timers]. rewrite Hs, Hc.
  pose proof (Z.mod_pos_bound idx N_SESSIONS eq_refl). rewrite zget_zset, decide_True; [done|]. rewrite Hl. split; [done|lia].
Qed.

Lemma with_counter_ok s n : session_inv s [] -> 0 <= n <= REJECT_AFTER_MESSAGES -> session_ok (with_sending_key_counter s n).
Proof. intros [] Hn. exists []. by split. Qed.

(** [d] is the first keepalive on the session a response completed. *)
Definition confirmed t (ar : AuthenticatedResponse) (d : bytes) t' : Prop := exists pad r,
  carries t (ar_session ar) [] pad d /\ handshake t' = set_rng r (snd (commit_response ar (handshake t))).

(** An accepted response is always answered, and its session is selected. *)
Lemma commit_response_wp ar dst budget t :
  tunn_ok t -> len dst <= usize_max -> authentic (len dst) budget t (AuthResponse ar) t ->
  let s := ar_session ar in
  wp (commit_handshake_response ar dst budget) (fun r t' => exists d, r = Ok (WriteToNetwork d) /\ committed t t' /\
    len d <= len dst /\ within (transport budget) (len d) /\ output_kind (meta t') = RkTransportKeepalive /\
    sessions t' = zset (sessions t) (receiving_index s mod N_SESSIONS) (Some (with_sending_key_counter s 1)) /\
    current t' = receiving_index s /\ pending_amnezia_junk t' = None /\ confirmed t ar d t') t.
Proof.
  intros Hok Hdst (_ & Hs & Hn & Hd & Hw) s. unfold commit_handshake_response. wp_steps.
  apply handshake_commit_response_wp. intros t1 Hc1 Hs1 Hcu1 _ Hh1. pose proof (cm_ok _ _ Hc1 Hok) as Hok1.
  apply (format_first_wp (ar_session ar) budget dst (amnezia t) t1); [done|by rewrite (cm_amnezia _ _ Hc1)|done..|].
  intros d t2 Hc2 Hs2 Hcu2 Hm Hl Hfit Hwi Hfp [r2 Hh2]. fold s. set (s' := with_sending_key_counter s 1).
  assert (session_ok s') as Hs' by (apply with_counter_ok; [done|by vm_compute]). wp_steps.
  change (local_index s') with (receiving_index s). set (i := receiving_index s).
  set (t3 := set_meta _ _). assert (committed t t3) as Hc3.
  { etrans; [exact Hc1|]. etrans; [exact Hc2|]. etrans; [|apply committed_meta]. by apply committed_session. }
  wp_use timer_tick_wp. intros _ t4 Hr4. assert (committed t t4) as Hc4 by (etrans; [exact Hc3|by apply retimed_committed]).
  wp_steps. wp_use session_established_wp. intros _ t5 He5.
  assert (committed t t5) as Hc5 by (etrans; [exact Hc4|by eapply established_committed]).
  pose proof (to_timers _ (cm_ok _ _ Hc5 Hok)) as Htm5. pose proof (to_timers _ (cm_ok _ _ Hc4 Hok)) as Htm4.
  wp_steps. wp_use set_current_session_wp. intros _ t6 (c & -> & _ & Hcur). wp_steps.
  rewrite Hcur; [|etrans; [by apply slot_time_le|]; pose proof (established_slot_time _ _ _ _ Htm4 He5) as Hst;
    unfold slot_time in *; rewrite Zmod_mod in Hst; rewrite Hst; lia].
  clear c Hcur. set (t6 := set_current _ t5). assert (committed t t6) as Hc6 by (etrans; [exact Hc5|apply committed_current]).
  wp_use timer_tick_wp. intros _ t7 Hr7. assert (committed t t7) as Hc7 by (etrans; [exact Hc6|by apply retimed_committed]). wp_steps.
  apply write_data_wp; [by apply (cm_ok _ _ Hc7)|done| |done|by rewrite (cm_amnezia _ _ Hc7)|].
  { by rewrite (cm_obf _ _ Hc7), <- (cm_obf _ _ Hc1). }
  intros d' r Hd' Hfr. rewrite (cm_amnezia _ _ Hc7) in Hd'. wp_steps. exists d'. rewrite Hd'. split_and!; try done.
  - etrans; [exact Hc7|]. etrans; [apply retimed_committed, (retimed_rng _ r)|apply committed_meta].
  - destruct Hr7 as (? & ? & -> & _), He5 as (? & ? & -> & _), Hr4 as (? & ? & -> & _). cbn. by rewrite Hs2, Hs1.
  - destruct Hr7 as (? & ? & -> & _). done.
  - destruct Hr7 as (? & ? & -> & _), He5 as (? & ? & -> & _). done.
  - destruct Hfp as [pad Hfp]. rewrite (cm_obf _ _ Hc1) in Hfp. exists pad, r. split.
    { exists d. split; [done|]. eapply framed_as_same; [apply (cm_amnezia _ _ Hc7)|apply (cm_obf _ _ Hc7)|exact Hfr]. }
    destruct Hr7 as (? & ? & -> & _), He5 as (? & ? & -> & _), Hr4 as (? & ? & -> & _). cbn. by rewrite Hh2, Hh1.
Qed.

Lemma handshake_commit_initiation_wp eph init dst_len slot t (Q : result WireGuardError (bytes * Session) -> Tunn R -> Prop) :
  tunn_ok t -> in_u32 (ai_peer_index init) -> HANDSHAKE_RESP_SZ <= dst_len ->
  (forall d s t', committed t t' -> sessions t' = sessions t -> current t' = current t ->
     len d = HANDSHAKE_RESP_SZ -> matches_h2 (hs_obf (handshake t)) (le_u32 0 d) = true -> session_inv s [] ->
     receiving_index s mod N_SESSIONS <> slot -> commit_initiation eph init dst_len slot (handshake t) = Ret (Ok (d, s), handshake t') ->
     Q (Ok (d, s)) t') ->
  wp (handshake_commit_initiation eph init dst_len slot) Q t.
Proof.
  intros Hok Hi Hd HQ. unfold wp, handshake_commit_initiation.
  pose proof (commit_initiation_ok eph init dst_len slot (handshake t) (to_handshake _ Hok) Hi) as Hc.
  destruct (commit_initiation _ _ _ _ _) as [[[[d s]|e] h]|] eqn:E; cbn in *; [|lia|done]. destruct Hc as (Hh & Ho & Hpa & Hr). destruct Hr as (_ & Hl & Hm & Hs & Hsl).
  apply HQ; try done. by apply committed_handshake.
Qed.

(** No slot was stamped later than that of [idx]. *)
Definition newest t (idx : Z) : Prop := forall j, slot_time t j <= slot_time t idx.

(** [d] is the frame of the response to [init], and [s] the session it opens. *)
Definition responded t (init : AuthenticatedInit) (d : bytes) (s : Session) t' : Prop := exists eph n packet h r,
  commit_initiation eph init n (current t mod N_SESSIONS) (handshake t) = Ret (Ok (packet, s), h) /\
  handshake t' = set_rng r h /\ framed_as t KHandshakeResponse packet d.

(** An accepted initiation is always answered, and its session never displaces
    the selected one. *)
Lemma commit_init_wp eph init dst budget t :
  tunn_ok t -> len dst <= usize_max -> authentic (len dst) budget t (AuthInit init) t ->
  wp (commit_handshake_init eph init dst budget) (fun r t' => exists d s, r = Ok (WriteToNetwork d) /\ committed t t' /\
    len d <= len dst /\ within (control_for budget Other) (len d) /\ output_kind (meta t') = RkHandshakeResponse /\
    sessions t' = zset (sessions t) (receiving_index s mod N_SESSIONS) (Some s) /\
    receiving_index s mod N_SESSIONS <> current t mod N_SESSIONS /\ current t' = current t /\ pending_amnezia_junk t' = None /\
    responded t init d s t' /\ newest t' (receiving_index s)) t.
Proof.
  intros Hok Hdst (_ & Hi & _ & Hd & Hw). unfold commit_handshake_init. wp_steps.
  pose proof (co_sizes _ (to_config _ Hok) KHandshakeResponse) as [Hj _].
  apply handshake_commit_initiation_wp; [done|done|change (inbound_junk_size (amnezia t) KHandshakeResponse) with (handshake_response_junk_size (amnezia t)) in Hj; lia|].
  intros d s t1 Hc1 Hs1 Hcu1 Hl Hm Hs Hsl Hci. change (local_index s) with (receiving_index s). wp_steps.
  set (t2 := set_meta _ _). assert (committed t t2) as Hc2.
  { etrans; [exact Hc1|]. etrans; [|apply committed_meta]. apply committed_session; [by exists []|done]. }
  wp_use timer_tick_wp. intros _ t3 Hr3. wp_steps. wp_use timer_tick_wp. intros _ t4 Hr4. wp_steps.
  assert (retimed t2 t4) as Hr by (by etrans). clear t3 Hr3 Hr4. wp_use session_established_wp. intros _ t5 He5.
  assert (committed t t5) as Hc5.
  { etrans; [exact Hc2|]. etrans; [by apply retimed_committed|by eapply established_committed]. }
  assert (HANDSHAKE_RESP_SZ + handshake_response_junk_size (amnezia t) <= ceiling (len dst) (control_for budget Other) <= len dst) as Hce.
  { unfold ceiling, within in *. destruct (Z.eqb_spec (control_for budget Other) 0); lia. }
  wp_steps. apply (write_handshake_wp KHandshakeResponse); [by apply (cm_ok _ _ Hc5)|done|done|done|..].
  { rewrite (cm_obf _ _ Hc5). exact Hm. }
  { rewrite (cm_amnezia _ _ Hc5). apply Hce. }
  { apply Hce. }
  intros d' r Hd' Hfr. wp_steps. exists d', s. apply ceiling_within in Hd' as [Hdl Hdw]. split_and!; try done.
  - etrans; [exact Hc5|]. etrans; [apply retimed_committed, (retimed_rng _ r)|apply committed_meta].
  - destruct He5 as (? & ? & -> & _), Hr as (? & ? & -> & _). cbn. by rewrite Hs1.
  - destruct He5 as (? & ? & -> & _), Hr as (? & ? & -> & _). done.
  - destruct He5 as (? & ? & -> & _). done.
  - exists eph, (len dst), d, (handshake t1), r. split; [exact Hci|]. split.
    + destruct He5 as (? & ? & -> & _), Hr as (? & ? & -> & _). done.
    + eapply framed_as_same; [apply (cm_amnezia _ _ Hc5)|apply (cm_obf _ _ Hc5)|exact Hfr].
  - intros j. pose proof (slot_time_le t5 j (to_timers _ (cm_ok _ _ Hc5 Hok))) as Hle.
    assert (committed t t4) as Hc4 by (etrans; [exact Hc2|by apply retimed_committed]).
    rewrite <- (established_slot_time _ _ _ _ (to_timers _ (cm_ok _ _ Hc4 Hok)) He5) in Hle. exact Hle.
Qed.

(** A token the tunnel can commit: it was authenticated against this state. *)
Definition committable (dst_len : Z) (budget : OutputBudget) t (a : Authenticated) : Prop :=
  match a with
  | AuthData idx plaintext => session_at t idx <> None /\ len plaintext <= dst_len
  | _ => authentic dst_len budget t a t
  end.

Lemma committable_same dst_len budget t t' a :
  handshake t' = handshake t -> sessions t' = sessions t -> amnezia t' = amnezia t ->
  committable dst_len budget t a -> committable dst_len budget t' a.
Proof.
  intros Hh Hs Ha. destruct a; cbn [committable authentic]; unfold session_at; rewrite ?Hh, ?Hs, ?Ha; try done; by intros [_ ?].
Qed.

Lemma authentic_committable dst_len budget t a t' :
  tunn_ok t -> authentic dst_len budget t a t' -> committable dst_len budget t' a /\ committed t t'.
Proof.
  intros Hok. destruct a as [init|ar|c|idx pt]; cbn [authentic committable].
  - intros (-> & Ha). split; [by split|reflexivity].
  - intros (-> & Ha). split; [by split|reflexivity].
  - intros (-> & Ha). split; [by split|reflexivity].
  - intros (s & s' & Hs & Hri & Hs' & Hok' & -> & Hl). split; [split; [|done]|].
    + rewrite session_at_set; [done|apply Hok].
    + apply committed_session; [done|]. rewrite Hs'. cbn. by rewrite Hri.
Qed.

(** What committing [a] does: an initiation or a response is answered -- there
    is no refusal left -- and a transport packet is delivered. *)
Definition outcome_of t (a : Authenticated) (r : TunnResult) t' : Prop :=
  match a with
  | AuthInit init => exists d s, r = WriteToNetwork d /\ output_kind (meta t') = RkHandshakeResponse /\
      sessions t' = zset (sessions t) (receiving_index s mod N_SESSIONS) (Some s) /\
      receiving_index s mod N_SESSIONS <> current t mod N_SESSIONS /\ current t' = current t /\ responded t init d s t' /\
      newest t' (receiving_index s)
  | AuthResponse ar => exists d, r = WriteToNetwork d /\ output_kind (meta t') = RkTransportKeepalive /\
      sessions t' = zset (sessions t) (receiving_index (ar_session ar) mod N_SESSIONS)
                      (Some (with_sending_key_counter (ar_session ar) 1)) /\
      current t' = receiving_index (ar_session ar) /\ confirmed t ar d t'
  | AuthCookie _ => r = Done /\ sessions t' = sessions t /\ current t' = current t
  | AuthData idx plaintext => r = inner_result plaintext /\ sessions t' = sessions t /\
      (current t' = current t \/ current t' = idx) /\ (slot_time t (current t) <= slot_time t idx -> current t' = idx)
  end.

Lemma commit_with_budget_wp eph a dst budget t :
  tunn_ok t -> len dst <= usize_max -> committable (len dst) budget t a ->
  wp (commit_with_budget eph a dst budget) (fun r t' =>
    committed t t' /\ emitted (len dst) budget r t' /\ outcome_of t a r t') t.
Proof.
  intros Hok Hdst Ha. unfold commit_with_budget. wp_steps. set (t1 := set_meta _ t).
  assert (committed t t1) as Hc1 by apply committed_meta. pose proof (cm_ok _ _ Hc1 Hok) as Hok1.
  destruct a as [init|ar|c|idx pt].
  - wp_use commit_init_wp; [done|done|by apply (committable_same _ _ t t1 (AuthInit init))|].
    intros r t2 (d & s & -> & Hc & Hl & Hw & Hk & Hs & Hsl & Hcu & _ & Hre & Hnew). wp_steps. split_and!; [by etrans|..].
    + cbn [of_result emitted]. rewrite Hk. by split_and!.
    + by exists d, s.
  - wp_use commit_response_wp; [done|done|by apply (committable_same _ _ t t1 (AuthResponse ar))|].
    intros r t2 (d & -> & Hc & Hl & Hw & Hk & Hs & Hcu & _ & Hre). wp_steps. split_and!; [by etrans|..].
    + cbn [of_result emitted]. rewrite Hk. by split_and!.
    + by exists d.
  - wp_use commit_cookie_wp; [by destruct Ha|]. intros r t2 (-> & Hc & Hs & Hcu & _). wp_steps. split_and!; try done. by etrans.
  - destruct Ha as [Ha Hl]. wp_use commit_data_wp; [done|done|]. intros r t2 (-> & Hc & Hs & Hcu). wp_steps.
    split_and!; try done; [by etrans|]. by apply inner_result_emitted.
Qed.

(** [committed], but for the Auto mode an initiation may teach. *)
Record accepted_step t t' : Prop := {
  as_ok : tunn_ok t -> tunn_ok t';
  as_obf : hs_obf (handshake t') = hs_obf (handshake t);
  as_params : hs_params (handshake t') = hs_params (handshake t);
  as_queue : packet_queue t' = packet_queue t;
  as_amnezia : amnezia t' = amnezia t;
  as_limiter : rate_limiter t' = rate_limiter t;
}.
#[export] Instance accepted_step_preorder : PreOrder accepted_step.
Proof. split; [by split|]. intros a b c [] []. split; try congruence; auto. Qed.
Lemma committed_accepted t t' : committed t t' -> accepted_step t t'.
Proof. intros []. by split. Qed.
Lemma accepted_auto a t : accepted_step t (set_auto_imitation a t).
Proof. split; try done. intros []. by split. Qed.

Lemma learn_imitation_wp datagram hint t :
  wp (learn_imitation datagram hint) (fun _ t' => exists a, t' = set_auto_imitation a t) t.
Proof.
  assert (exists a, t = set_auto_imitation a t) by (exists (auto_imitation t); by destruct t).
  unfold learn_imitation. destruct (match hint with Some p => _ | None => _ end) as [p|]; wp_steps; [|done].
  unfold upd_auto. apply wp_if; intros _; wp_steps; by eexists.
Qed.

Lemma commit_with_imitation_wp eph a datagram hint dst budget t :
  tunn_ok t -> len dst <= usize_max -> committable (len dst) budget t a ->
  wp (commit_with_imitation_and_budget eph a datagram hint dst budget) (fun r t' =>
    accepted_step t t' /\ emitted (len dst) budget r t' /\ outcome_of t a r t') t.
Proof.
  intros Hok Hdst Ha. unfold commit_with_imitation_and_budget, upd_auto. wp_steps. apply wp_if.
  { intros [[_ Hi]%andb_prop Hlt%Z.ltb_lt]%andb_prop. exfalso. destruct a; try done. destruct Ha as (_ & _ & _ & Hd & _).
    change (handshake_response_junk_size (amnezia t)) with (response_packet_junk_size (amnezia t)) in Hd. lia. }
  intros _. wp_steps. eapply (wp_mono _ (fun _ t1 => exists a, t1 = set_auto_imitation a t)).
  { apply wp_if; intros _; [apply learn_imitation_wp|wp_steps; exists (auto_imitation t); by destruct t]. }
  intros _ t1 [au ->]. wp_steps. wp_use commit_with_budget_wp; [by apply (as_ok _ _ (accepted_auto au t))|done|by apply (committable_same _ _ t)|].
  intros r t2 (Hc & He & Ho). wp_steps.
  assert (accepted_step t t2) as Hs by (etrans; [apply (accepted_auto au)|by apply committed_accepted]).
  assert (forall au', accepted_step t (set_auto_imitation au' t2) /\ emitted (len dst) budget r (set_auto_imitation au' t2) /\
    outcome_of t a r (set_auto_imitation au' t2)) as Hau by (intros au'; split_and!; [etrans; [exact Hs|apply accepted_auto]|done|done]).
  apply wp_if; intros _; wp_steps; [apply Hau|]. apply wp_if; intros _; wp_steps; [by split_and!|apply Hau].
Qed.

(** ** Refusing *)

(** What a datagram that is not accepted may change: the limiter's counts, the
    Auto evidence, the generator and the report. *)
Definition inert t t' : Prop := exists r a l o,
  t' = set_meta o (set_rate_limiter l (set_auto_imitation a (set_handshake (set_rng r (handshake t)) t))).
#[export] Instance inert_preorder : PreOrder inert.
Proof.
  split.
  - intros t. exists (hs_rng (handshake t)), (auto_imitation t), (rate_limiter t), (meta t). by destruct t as [[]].
  - intros a b c (? & ? & ? & ? & ->) (r & au & l & o & ->). by exists r, au, l, o.
Qed.
Lemma inert_ok t t' : inert t t' -> tunn_ok t -> tunn_ok t'.
Proof. intros (r & a & l & o & ->) []. split; try done. by apply hs_ok_rng. Qed.
Lemma inert_limiter l t : inert t (set_rate_limiter l t).
Proof. exists (hs_rng (handshake t)), (auto_imitation t), l, (meta t). by destruct t as [[]]. Qed.
Lemma inert_auto a t : inert t (set_auto_imitation a t).
Proof. exists (hs_rng (handshake t)), a, (rate_limiter t), (meta t). by destruct t as [[]]. Qed.
Lemma inert_rng r t : inert t (set_handshake (set_rng r (handshake t)) t).
Proof. exists r, (auto_imitation t), (rate_limiter t), (meta t). by destruct t. Qed.
Lemma inert_meta o t : inert t (set_meta o t).
Proof. exists (hs_rng (handshake t)), (auto_imitation t), (rate_limiter t), o. by destruct t as [[]]. Qed.

(** A packet without room for its S prefix is refused. *)
Lemma write_short_wp dst packet room p kind (Q : TunnResult -> Tunn R -> Prop) t :
  tunn_ok t -> classify_outbound (hs_obf (handshake t)) packet = Some kind -> len packet <= len dst -> len dst <= usize_max ->
  len dst < len packet + inbound_junk_size (amnezia t) kind ->
  (forall r, Q (TErr DestinationBufferTooSmall) (set_handshake (set_rng r (handshake t)) t)) ->
  wp (write_to_network_with_imitation dst packet room p) Q t.
Proof.
  intros Hok Hk Hl Hdst Hshort HQ. unfold write_to_network_with_imitation. wp_steps.
  set (c := resolve_imitation (amnezia t) p) in *. apply draw_wp. intros r. wp_steps.
  assert (config_ok c) as Hc by (apply resolve_config_ok, Hok). pose proof (len_nonneg packet).
  pose proof (prepend_outbound_spec c (hs_obf (handshake t)) (in_buffer packet dst) (len packet) (Some room)
    (hs_rng (handshake t)) Hc ltac:(done) ltac:(rewrite len_in_buffer; lia)) as Hs.
  cbv zeta in Hs. rewrite in_buffer_head, len_in_buffer in Hs by lia.
  destruct (prepend_outbound_with_trailer _ _ _ _ _ _) as [[d|e] rng]; cbn [fst].
  - exfalso. rewrite Hk in Hs. destruct Hs as (_ & _ & Hb & _). unfold c in Hb. rewrite resolve_sizes in Hb. lia.
  - destruct Hs as [-> _]. apply HQ.
Qed.

(** What a cookie demand is answered with: nothing when the reply would be larger
    than the request, else a reply no larger than it. *)
Definition cookie_answer (c : AmneziaConfig) (request_len dst_len : Z) (r : TunnResult) : Prop :=
  let size := COOKIE_REPLY_SZ + cookie_packet_junk_size c in
  if size >? request_len then r = Done
  else if dst_len <? size then r = TErr DestinationBufferTooSmall
  else exists d, r = WriteToNetwork d /\ size <= len d <= request_len /\ len d <= dst_len.

Lemma limiter_format_cookie_wp demand (Q : result WireGuardError bytes -> Tunn R -> Prop) t :
  tunn_ok t -> demand_ok demand ->
  (forall d t', inert t t' -> len d = COOKIE_REPLY_SZ -> matches_h3 (hs_obf (handshake t)) (le_u32 0 d) = true -> Q (Ok d) t') ->
  wp (limiter_format_cookie demand) Q t.
Proof.
  intros Hok [Hi Hc] HQ. unfold wp, limiter_format_cookie, format_cookie_demand.
  pose proof (format_cookie_reply_spec (hs_obf (handshake t)) (cd_sender_idx demand) (cd_cookie demand) (cd_mac1 demand) COOKIE_REPLY_SZ
    (rate_limiter t) (hs_rng (handshake t)) (ho_obf _ (to_handshake _ Hok)) Hi Hc) as Hf.
  destruct (format_cookie_reply _ _ _ _ _ _ _) as [[[d|e] l] r]; cbn [safely fst snd]; [|destruct Hf; lia].
  destruct Hf as (Hl & _ & _ & p & Hp & _). apply HQ; [|done|].
  - etrans; [apply (inert_limiter l)|apply (inert_rng r (set_rate_limiter l t))].
  - unfold parse_incoming_packet in Hp. rewrite Hl in Hp. destruct (matches_h3 _ _); [done|]. by repeat case_match.
Qed.

Lemma answer_cookie_wp now src_addr datagram dst demand budget t :
  tunn_ok t -> demand_ok demand -> len dst <= usize_max ->
  wp (answer_cookie now src_addr datagram dst demand) (fun r t' => inert t t' /\ emitted (len dst) budget r t' /\
    cookie_answer (amnezia t) (len datagram) (len dst) r /\ (is_network r = true -> output_kind (meta t') = RkCookieReply)) t.
Proof.
  intros Hok Hd Hdst. unfold answer_cookie. wp_steps. apply limiter_format_cookie_wp; [done|done|].
  intros d t1 Hi1 Hl Hm. pose proof (inert_ok _ _ Hi1 Hok) as Hok1. wp_steps. rewrite Hl.
  assert (amnezia t1 = amnezia t /\ hs_obf (handshake t1) = hs_obf (handshake t)) as [Ham Ho] by (destruct Hi1 as (? & ? & ? & ? & ->); done).
  assert (cookie_reply_len (amnezia t1) COOKIE_REPLY_SZ = COOKIE_REPLY_SZ + cookie_packet_junk_size (amnezia t)) as Hr.
  { rewrite Ham. pose proof (co_sizes _ (to_config _ Hok) KCookieReply) as [? ?]. cbn in *. unfold cookie_reply_len, sat_add, COOKIE_REPLY_SZ, usize_max, u16_max in *. cbn. lia. }
  unfold cookie_reply_would_amplify, reply_amplifies, cookie_answer. rewrite Hr.
  set (size := COOKIE_REPLY_SZ + cookie_packet_junk_size (amnezia t)) in *.
  pose proof (co_sizes _ (to_config _ Hok) KCookieReply) as [Hj _]. cbn [inbound_junk_size] in Hj.
  apply wp_if; intros Hamp; rewrite Hamp; wp_steps; [by split_and!|].
  apply wp_if; [intros Hs%Z.ltb_lt|intros Hs%Z.ltb_ge]; wp_steps.
  { rewrite (proj2 (Z.ltb_lt _ _)) by (unfold size; lia). by split_and!. }
  assert (classify_outbound (hs_obf (handshake t1)) d = Some KCookieReply) as Hk.
  { apply classify_formatted; [apply (ho_obf _ (to_handshake _ Hok1))|by rewrite Ho|cbn [base_size]; lia|done]. }
  destruct (Z.ltb_spec (len dst) size) as [Hshort|Hfit].
  - eapply write_short_wp; [done|exact Hk|lia|done|rewrite Ham, Hl; exact Hshort|]. intros r. wp_steps. split_and!; try done.
    etrans; [exact Hi1|]. etrans; [apply (inert_rng r)|apply inert_meta].
  - eapply write_wp; [done|exact Hk|rewrite Ham, Hl; exact Hfit|done|]. intros d' r _ base Hb Hmax.
    unfold base in Hb, Hmax. rewrite Ham, Hl in Hb, Hmax. cbn [trailer_cookie_reply tr_max_wire inbound_junk_size] in Hb, Hmax. fold size in Hb, Hmax.
    pose proof Hamp as Hamp'. rewrite Z.gtb_ltb in Hamp'. apply Z.ltb_ge in Hamp'. assert (len d' <= len datagram) as Hd' by lia.
    rewrite Z.gtb_ltb, (proj2 (Z.ltb_ge _ _) Hd'). wp_steps. split_and!; try done.
    + etrans; [exact Hi1|]. etrans; [apply (inert_rng r)|apply inert_meta].
    + cbn [emitted]. split_and!; [lia|done|by left].
    + exists d'. split_and!; [done|lia..].
Qed.

(** ** The receive path *)

Section Decapsulate.
Variables (now : Z) (eph : bytes) (source : option Source) (datagram dst : bytes) (budget : OutputBudget).

Definition trial_of t := authenticate_with_budget now t (len dst) budget.
Definition candidates_of t := inbound_candidates (amnezia t) (hs_obf (handshake t)) datagram.

(** The reading the datagram was accepted as. *)
Definition accepted_reading t (a : Authenticated) t1 : Prop :=
  accepted_by (amnezia t) (hs_obf (handshake t)) datagram (trial_of t) (rate_limiter t) (candidates_of t) (a, t1).
(** No reading that reaches its trial unconditionally authenticates. *)
Definition no_reading t : Prop :=
  Forall (passed_over (amnezia t) (hs_obf (handshake t)) datagram (trial_of t) (rate_limiter t)) (candidates_of t).

Lemma trial_is_safe t : tunn_ok t -> trial_safe (trial_of t).
Proof.
  intros Hok p Hp Hpanic. pose proof (authenticate_spec now t (len dst) budget p Hok Hp) as Hs.
  unfold trial_of in Hpanic. by rewrite Hpanic in Hs.
Qed.

Lemma accepted_reading_authentic t a t1 : tunn_ok t -> accepted_reading t a t1 -> authentic (len dst) budget t a t1.
Proof.
  intros Hok (l1 & cand & l2 & message & packet & _ & [_ Hp] & _ & Ht & _).
  pose proof (authenticate_spec now t (len dst) budget packet Hok (parse_packet_ok _ _ _ Hp)) as Hs.
  unfold trial_of in Ht. rewrite Ht in Hs. exact Hs.
Qed.

Lemma receive_datagram_wp t :
  tunn_ok t ->
  wp (receive_datagram now source datagram (len dst) budget (candidates_of t)) (fun r t' => exists l,
    match r with
    | Accepted a => exists t1, t' = set_rate_limiter l t1 /\ accepted_reading t a t1
    | Cookie d => t' = set_rate_limiter l t /\ no_reading t /\ demand_ok d
    | _ => t' = set_rate_limiter l t /\ no_reading t
    end) t.
Proof.
  intros Hok. unfold wp, receive_datagram.
  pose proof (receive_spec now (amnezia t) (hs_obf (handshake t)) source datagram (trial_of t) (candidates_of t) (rate_limiter t)
    (trial_is_safe t Hok)) as Hr.
  change (authenticate_with_budget now t (len dst) budget) with (trial_of t).
  destruct (receive _ _ _ _ _ _ _ _) as [[r l]|] eqn:E; cbn [safely obind] in *; [|done].
  destruct Hr as [_ Hr]. exists l. destruct r as [|[a t1]|d|e]; cbn [fst snd]; try done.
  - by exists t1.
  - split_and!; try done. by eapply receive_demand.
Qed.

(** A datagram is accepted as a reading that authenticates, or changes nothing
    that matters; then the only output is a cookie reply no larger than it. *)
Definition decapsulated t (r : TunnResult) t' : Prop :=
  (inert t t' /\ no_reading t /\ emitted (len dst) budget r t' /\
   match r with
   | WriteToNetwork d => output_kind (meta t') = RkCookieReply /\ len d <= len datagram
   | Done | TErr _ => True
   | _ => False
   end) \/
  (exists a t1 l, accepted_reading t a t1 /\ authentic (len dst) budget t a t1 /\ committed t t1 /\
    accepted_step (set_rate_limiter l t1) t' /\ emitted (len dst) budget r t' /\ outcome_of (set_rate_limiter l t1) a r t').

Lemma observe_wp src_addr t (Q : bool -> Tunn R -> Prop) :
  (forall b a, Q b (set_auto_imitation a t)) -> wp (observe_datagram now src_addr datagram) Q t.
Proof. intros HQ. unfold wp, observe_datagram. destruct (observe _ _ _ _) as [b a]. cbn. apply HQ. Qed.

Lemma cookie_answer_bound c dst_len r :
  cookie_answer c (len datagram) dst_len r ->
  match r with WriteToNetwork d => len d <= len datagram | Done | TErr _ => True | _ => False end.
Proof.
  unfold cookie_answer. destruct (_ >? _); [by intros ->|]. destruct (_ <? _); [by intros ->|]. intros (d & -> & ? & _). lia.
Qed.

Lemma decapsulate_source_wp t :
  tunn_ok t -> len datagram <> 0 -> len dst <= usize_max ->
  wp (decapsulate_source now eph source datagram dst budget) (fun r t' => decapsulated t r t') t.
Proof.
  intros Hok Hne Hdst. unfold decapsulate_source. apply wp_if; [intros Hz%Z.eqb_eq; lia|intros _]. wp_steps.
  fold (candidates_of t).
  eapply (wp_mono _ (fun b t1 => (exists a, t1 = set_auto_imitation a t) /\ (b = true -> candidates_of t = []) /\ (b = false -> candidates_of t <> [] -> t1 = t))).
  { apply wp_if; [intros [Hz%Z.eqb_eq _]%andb_prop|intros _].
    - assert (candidates_of t = []) as Hnil by (apply nil_length_inv; unfold len in Hz; lia).
      apply observe_wp. intros b a. split_and!; [by exists a|done|done].
    - wp_steps. split_and!; [exists (auto_imitation t); by destruct t|done|done]. }
  intros observed t1 ([au ->] & Hobs & Hsame). apply wp_if; intros Hb.
  { wp_steps. left. split_and!; [apply inert_auto| |done|done]. unfold no_reading. rewrite (Hobs Hb). apply List.Forall_nil. }
  set (t1 := set_auto_imitation au t) in *. assert (inert t t1) as Hi1 by apply inert_auto.
  pose proof (inert_ok _ _ Hi1 Hok) as Hok1. wp_steps.
  change (candidates_of t) with (candidates_of t1). wp_use receive_datagram_wp; [done|]. intros r t2 [l Hr].
  assert (no_reading t1 -> no_reading t) as Hnr.
  { unfold no_reading. destruct (decide (candidates_of t = [])) as [Hnil|Hcs]; [by rewrite Hnil|by rewrite (Hsame Hb Hcs)]. }
  assert (forall a t2, accepted_reading t1 a t2 -> accepted_reading t a t2) as Har.
  { intros a t3 Hacc. destruct (decide (candidates_of t = [])) as [Hnil|Hcs]; [|by rewrite <- (Hsame Hb Hcs)].
    destruct Hacc as (l1 & cand & l2 & ? & ? & Hc & _). change (candidates_of t1) with (candidates_of t) in Hc. rewrite Hnil in Hc. by destruct l1. }
  destruct r as [|a|demand|refusal].
  - destruct Hr as [-> Hn]. wp_steps. left. split_and!; try done; [|by apply Hnr]. etrans; [exact Hi1|apply inert_limiter].
  - destruct Hr as (t3 & -> & Hacc). apply Har in Hacc. pose proof (accepted_reading_authentic _ _ _ Hok Hacc) as Hau.
    destruct (authentic_committable _ _ _ _ _ Hok Hau) as [Hcm Hc]. wp_steps.
    wp_use commit_with_imitation_wp; [|done|by apply (committable_same _ _ t3)|].
    { pose proof (cm_ok _ _ Hc Hok) as Hok3. by eapply inert_ok; [apply inert_limiter|]. }
    intros r t4 (Hs & He & Ho). right. by exists a, t3, l.
  - destruct Hr as (-> & Hn & Hd). wp_use (answer_cookie_wp now (source_address <$> source) datagram dst demand budget); [|done|done|].
    { by eapply inert_ok; [apply inert_limiter|]. }
    intros r t3 (Hi & He & Ha & Hk). left. split_and!; [etrans; [exact Hi1|]; etrans; [apply inert_limiter|exact Hi]|by apply Hnr|done|].
    apply cookie_answer_bound in Ha. destruct r; try done. split; [by apply Hk|done].
  - destruct Hr as [-> Hn]. wp_steps. eapply (wp_mono _ (fun _ t3 => inert t t3)).
    { apply wp_if; intros _; wp_steps; [apply observe_wp; intros b a; wp_steps|];
        (etrans; [exact Hi1|]); [etrans; [apply (inert_limiter l)|apply inert_auto]|apply inert_limiter]. }
    intros _ t3 Hi3. wp_steps. left. split_and!; try done. by apply Hnr.
Qed.
End Decapsulate.
End Input.
