(* ===== verification/TunnTick.v ===== *)
(** The timer poll, [noise/timers.rs]: [update_timers_with_budget] and what it
    is made of. The [Duration] subtractions of the code that panic below zero
    are [dur_sub]; that they never do is shown in [TunnPoll.v]. *)

From stdpp Require Import functions.
From S2P Require Import Prelude Budget Instant Crypto Rand Tags Packet Session RateLimiter Amnezia Framing.
From S2P Require Import Handshake Imitation Timers OpReport Tunn.

Section Tick.
Context `{Crypto} {R : Type} `{RngCore R} `{PrefixFillers R} `{ImitationEnv}.
Implicit Types t : Tunn R.

(** One slot of the loop of [update_session_timers]. *)
Definition age_slot (time_now reject_after_time slot : Z) : M R unit :=
  let* armed := gets (fun t => from_option id 0 (zget (session_timers (tunn_timers t)) slot)) in
  if negb (sat_sub time_now armed >? reject_after_time) then mreturn tt else
  let* live := gets (fun t => match zget (sessions t) slot with Some (Some _) => true | _ => false end) in
  (if live then
     modify (fun t => set_sessions (zset (sessions t) slot None) t) &;
     upd_meta (session_removed slot) &;
     upd_meta (note EV_SESSIONS_AGED_OUT)
   else mreturn tt) &;
  upd_timers (fun tm => tm_set_session_timers (zset (session_timers tm) slot time_now) tm).

Fixpoint age_slots (time_now reject_after_time : Z) (slots : list Z) : M R unit :=
  match slots with
  | [] => mreturn tt
  | slot :: slots => age_slot time_now reject_after_time slot &; age_slots time_now reject_after_time slots
  end.

Definition update_session_timers (time_now : Z) : M R unit :=
  let* reject_after_time := gets (fun t => keychain_expire (timers (amnezia t))) in
  age_slots time_now reject_after_time [0; 1; 2; 3; 4; 5; 6; 7].

Variable now : Z.

(** [set_expired], [clear_all], [HANDSHAKE_EXPIRED]. *)
Definition expire : M R unit :=
  upd_handshake set_expired &; clear_all now &; upd_meta (note EV_HANDSHAKE_EXPIRED).

Definition expire_past_absolute_bounds (time_now : Z) : M R bool :=
  let* awg := gets (fun t => timers (amnezia t)) in
  let zero_key_after := keychain_expire awg * 3 in
  let* established := gets (fun t => ticks (tunn_timers t) TimeSessionEstablished) in
  let* age := lift (dur_sub time_now established) in
  if zero_key_after <=? age then expire &; mreturn true else
  let* timer := gets (fun t => handshake_timer (handshake t)) in
  match timer with
  | None => mreturn false
  | Some _ =>
      let* started := gets (fun t => ticks (tunn_timers t) TimeLastHandshakeStarted) in
      if range_unset (max_handshake_attempts awg) && range_unset (rekey_timeout awg)
         && (untuned_attempt_window <=? sat_sub time_now started)
      then expire &; mreturn true
      else mreturn false
  end.

Variable eph : bytes.

(** What selecting a keepalive spends: [persistent_keepalive_due], the
    persistent-keepalive stamp, [want_keepalive], the interval. *)
Definition Rollback : Type := bool * Z * option Z * Z.

Definition send_keepalive (dst : bytes) (rollback : Rollback) (budget : OutputBudget) : M R TunnResult :=
  let* result := encapsulate_with_budget now eph [] dst budget in
  let '(due, persistent, passive, interval) := rollback in
  (if is_capacity result then
     upd_timers (fun tm => tm_set_persistent_keepalive_current interval (tm_set_want_keepalive passive
       (set_tick TimePersistentKeepalive persistent (tm_set_persistent_keepalive_due due tm))))
   else mreturn tt) &;
  (if is_terr result then upd_meta (note EV_TICK_DEMAND_REFUSED) else mreturn tt) &;
  mreturn result.

(** What one poll decides. *)
Inductive Demand :=
| DemandExpired
| DemandHandshake (consumed_latch : option Z)
| DemandKeepalive
| DemandNothing.

(** The branch of an initiation in flight. *)
Definition demand_in_flight (time_init_sent : Z) : M R Demand :=
  let* tm := gets tunn_timers in
  if negb (retransmit_current tm <=? duration_since now time_init_sent) then mreturn DemandNothing else
  if max_retransmissions_current tm <=? handshake_attempts tm
  then expire &; mreturn DemandExpired
  else mreturn (DemandHandshake None).

(** The keepalives, when no initiation is required. *)
Definition demand_keepalive (time_now : Z) : M R Demand :=
  let* tm := gets tunn_timers in
  let passive := match want_keepalive tm with
    | Some armed => keepalive_current tm <=? sat_sub time_now armed | None => false end in
  (if passive then upd_timers (tm_set_want_keepalive None) else mreturn tt) &;
  let persistent := persistent_keepalive_on tm &&
    (persistent_keepalive_due tm ||
     (persistent_keepalive_current tm <=? sat_sub time_now (ticks tm TimePersistentKeepalive))) in
  (if persistent then
     upd_timers (tm_set_persistent_keepalive_due false) &; timer_tick TimePersistentKeepalive
   else mreturn tt) &;
  mreturn (if passive || persistent then DemandKeepalive else DemandNothing).

(** The branch with no initiation in flight. *)
Definition demand_idle (time_now session_established data_packet_received data_packet_sent : Z) : M R Demand :=
  let* tm := gets tunn_timers in
  let* rekey :=
    (if negb (is_initiator tm) then mreturn false else
     let* on_send := (if session_established <? data_packet_sent
                      then let* age := lift (dur_sub time_now session_established) in
                           mreturn (rekey_after_current tm <=? age)
                      else mreturn false) in
     let* on_receive := (if session_established <? data_packet_received
                         then let* age := lift (dur_sub time_now session_established) in
                              mreturn (refresh_receive_current tm <=? age)
                         else mreturn false) in
     mreturn (on_send || on_receive)) in
  let latch := match want_handshake tm with
    | Some armed => if new_handshake_current tm <=? sat_sub time_now armed then Some armed else None
    | None => None end in
  (match latch with Some _ => upd_timers (tm_set_want_handshake None) | None => mreturn tt end) &;
  if rekey || match latch with Some _ => true | None => false end
  then mreturn (DemandHandshake latch)
  else demand_keepalive time_now.

(** Forget a cookie past its lifetime. *)
Definition drop_stale_cookie (time_now : Z) : M R unit :=
  let* cookie := gets (fun t => has_cookie (handshake t)) in
  if cookie then
    let* received := gets (fun t => ticks (tunn_timers t) TimeCookieReceived) in
    let* age := lift (dur_sub time_now received) in
    if COOKIE_EXPIRATION_TIME <=? age then upd_handshake clear_cookie else mreturn tt
  else mreturn tt.

(** Serve what the poll decided. *)
Definition serve_demand (dst : bytes) (keepalive_rollback : Rollback) (budget : OutputBudget) (demand : Demand) : M R TunnResult :=
  match demand with
  | DemandExpired => mreturn (TErr ConnectionExpired)
  | DemandHandshake consumed_latch =>
      let* result := format_handshake_initiation_with_budget now eph dst true budget in
      let* burst := gets (fun t => match pending_amnezia_junk t with Some _ => true | None => false end) in
      (match consumed_latch with
       | Some armed => if negb burst && is_capacity result
                       then upd_timers (tm_set_want_handshake (Some armed)) else mreturn tt
       | None => mreturn tt
       end) &;
      (if is_terr result then upd_meta (note EV_TICK_DEMAND_REFUSED) else mreturn tt) &;
      mreturn result
  | DemandKeepalive => send_keepalive dst keepalive_rollback budget
  | DemandNothing => mreturn Done
  end.

(** The rest of the poll, of a cycle that has not expired and has no burst. *)
Definition poll_cycle (time_now : Z) (dst : bytes) (keepalive_rollback : Rollback) (budget : OutputBudget) : M R TunnResult :=
  let* session_established := gets (fun t => ticks (tunn_timers t) TimeSessionEstablished) in
  let* data_packet_received := gets (fun t => ticks (tunn_timers t) TimeLastDataPacketReceived) in
  let* data_packet_sent := gets (fun t => ticks (tunn_timers t) TimeLastDataPacketSent) in
  drop_stale_cookie time_now &;
  let* expired := expire_past_absolute_bounds time_now in
  if expired then mreturn (TErr ConnectionExpired) else
  let* timer := gets (fun t => handshake_timer (handshake t)) in
  let* demand := match timer with
    | Some time_init_sent => demand_in_flight time_init_sent
    | None => demand_idle time_now session_established data_packet_received data_packet_sent
    end in
  serve_demand dst keepalive_rollback budget demand.

(** An expired cycle: only a persistent keepalive turned on since is owed. *)
Definition poll_expired (dst : bytes) (keepalive_rollback : Rollback) (budget : OutputBudget) : M R TunnResult :=
  let* owed := gets (fun t => persistent_keepalive_on (tunn_timers t) && persistent_keepalive_due (tunn_timers t)) in
  if negb owed then mreturn (TErr ConnectionExpired) else
  upd_timers (tm_set_persistent_keepalive_due false) &;
  timer_tick TimePersistentKeepalive &;
  send_keepalive dst keepalive_rollback budget.

Definition update_timers_with_budget (dst : bytes) (budget : OutputBudget) : M R TunnResult :=
  let* keepalive_rollback := gets (fun t => let tm := tunn_timers t in
    (persistent_keepalive_due tm, ticks tm TimePersistentKeepalive, want_keepalive tm, persistent_keepalive_current tm)) in
  let* reset_rr := gets (fun t => should_reset_rr (tunn_timers t)) in
  (if reset_rr then modify (fun t => set_rate_limiter (reset_count now (rate_limiter t)) t) else mreturn tt) &;
  let* time_now := gets (fun t => monotonic_now now (tunn_timers t)) in
  upd_timers (set_tick TimeCurrent time_now) &;
  update_session_timers time_now &;
  let* owes := gets burst_owes_expired_reset in
  if owes then advance_amnezia_junk now eph dst budget else
  let* burst := gets (fun t => match pending_amnezia_junk t with Some _ => true | None => false end) in
  if burst then
    let* expired := expire_past_absolute_bounds time_now in
    if expired then mreturn (TErr ConnectionExpired) else advance_amnezia_junk now eph dst budget
  else
  let* expired := gets (fun t => handshake_is_expired (handshake t)) in
  if expired then poll_expired dst keepalive_rollback budget
  else poll_cycle time_now dst keepalive_rollback budget.

Definition update_timers (dst : bytes) : M R TunnResult := update_timers_with_budget dst UNBOUNDED.

Definition time_since_last_handshake t : option Z :=
  match session_at t (current t) with
  | Some _ => Some (sat_sub (duration_since now (time_started (tunn_timers t))) (ticks (tunn_timers t) TimeSessionEstablished))
  | None => None
  end.
End Tick.
