(* ===== verification/TunnPoll.v ===== *)
(** The timer poll: ageing of sessions, expiry of a cycle, and the demands a
    poll serves -- with what it gives back when the buffer or the budget
    refuses one. No duration subtraction of the poll underflows. *)

From stdpp Require Import functions.
From S2P Require Import Prelude Budget Instant Crypto Rand Tags Packet Replay Session RateLimiter HeaderProtection.
From S2P Require Import Amnezia Framing Handshake Imitation Timers OpReport Tunn TunnTick TunnLogic TunnOutput TunnSend.

Section Poll.
Context `{Crypto} `{!CryptoLaws} {R : Type} `{RngCore R} `{!RngLaws R} `{PrefixFillers R} `{!FillerLaws R} `{ImitationEnv} `{!ImitationLaws}.
Implicit Types t : Tunn R.

(** ** What a poll preserves *)

(** No session appears, and those that stay only send. *)
Definition ring_shrink (ss ss' : list (option Session)) : Prop :=
  len ss' = len ss /\ forall i s', zget ss' i = Some (Some s') ->
    exists s, zget ss i = Some (Some s) /\ slot_step (Some s) (Some s').
#[export] Instance ring_shrink_preorder : PreOrder ring_shrink.
Proof.
  split.
  - intros ss. split; [done|]. intros i s Hs. exists s. by split.
  - intros a b c [Hl1 H1'] [Hl2 H2']. split; [congruence|]. intros i s Hs. destruct (H2' i s Hs) as (s2 & Hs2 & Hst2).
    destruct (H1' i s2 Hs2) as (s1 & Hs1 & Hst1). exists s1. split; [done|]. by etrans.
Qed.
Lemma ring_step_shrink a b : ring_step a b -> ring_shrink a b.
Proof.
  intros Hs. split; [unfold len; by rewrite (Forall2_length _ _ _ Hs)|]. intros i s' Hg.
  destruct (zget_Forall2 _ _ _ _ _ Hs Hg) as ([s|] & Hg' & Hst); [by exists s|done].
Qed.
Lemma ring_shrink_ok a b : ring_shrink a b -> ring_ok a -> ring_ok b.
Proof.
  intros [Hl Hs] [Hla Ho]. split; [congruence|]. intros i s' Hg. destruct (Hs i s' Hg) as (s & Hg' & n & _ & -> & Hok).
  destruct (Ho i s Hg'). auto.
Qed.

Record polled t t' : Prop := {
  po_ok : tunn_ok t -> tunn_ok t';
  po_obf : hs_obf (handshake t') = hs_obf (handshake t);
  po_params : hs_params (handshake t') = hs_params (handshake t);
  po_ring : ring_shrink (sessions t) (sessions t');
  po_current : current t' = current t;
  po_amnezia : amnezia t' = amnezia t;
  po_auto : auto_imitation t' = auto_imitation t;
}.
#[export] Instance polled_preorder : PreOrder polled.
Proof. split; [by split|]. intros a b c [] []. split; try congruence; [auto|by etrans]. Qed.
Lemma produced_polled t t' : produced t t' -> polled t t'.
Proof. intros []. split; try done. by apply ring_step_shrink. Qed.
Lemma retimed_polled t t' : retimed t t' -> polled t t'.
Proof. intros. by apply produced_polled, traffic_produced, retimed_traffic. Qed.
Lemma polled_timers tm t : (timers_ok (tunn_timers t) -> timers_ok tm) -> polled t (set_tunn_timers tm t).
Proof. intros Hok. split; try done. intros []. split; try done. by apply Hok. Qed.
Lemma polled_meta o t : polled t (set_meta o t).
Proof. apply produced_polled, produced_meta. Qed.
Lemma polled_limiter l t : polled t (set_rate_limiter l t).
Proof. split; try done. intros []. by split. Qed.
Lemma polled_handshake h t : (hs_ok (handshake t) -> hs_ok h) -> hs_obf h = hs_obf (handshake t) -> hs_params h = hs_params (handshake t) ->
  polled t (set_handshake h t).
Proof. intros Hh Ho Hp. split; try done. intros []. split; try done. by apply Hh. Qed.

(** ** Ageing *)

Section Ageing.
Variables (time_now reject : Z).

Definition stale t (i : Z) : bool := sat_sub time_now (from_option id 0 (zget (session_timers (tunn_timers t)) i)) >? reject.

(** The stale slots among [slots] are emptied and stamped, the others kept. *)
Definition aged (slots : list Z) t t' : Prop := exists ss tms o,
  t' = set_tunn_timers (tm_set_session_timers tms (tunn_timers t)) (set_meta o (set_sessions ss t)) /\
  len ss = len (sessions t) /\ len tms = len (session_timers (tunn_timers t)) /\
  forall i, 0 <= i < N_SESSIONS ->
    let gone := bool_decide (i ∈ slots) && stale t i in
    zget ss i = (if gone then Some None else zget (sessions t) i) /\
    zget tms i = (if gone then Some time_now else zget (session_timers (tunn_timers t)) i).

Lemma aged_none t slots : (forall i, i ∈ slots -> stale t i = false) -> aged slots t t.
Proof.
  intros Hs. exists (sessions t), (session_timers (tunn_timers t)), (meta t). split_and!; try done; [by destruct t as [??????]; destruct tunn_timers|].
  intros i _. cbv zeta. case_bool_decide as Hi; [|done]. by rewrite (Hs i Hi).
Qed.

Lemma age_slot_wp slot t :
  len (sessions t) = N_SESSIONS -> len (session_timers (tunn_timers t)) = N_SESSIONS -> 0 <= slot < N_SESSIONS ->
  wp (age_slot time_now reject slot) (fun _ t' => aged [slot] t t') t.
Proof.
  intros Hls Hlt Hsl. unfold age_slot. wp_steps. fold (stale t slot).
  apply wp_if; [intros Hst%negb_true_iff|intros Hst%negb_false_iff]; wp_steps.
  { apply aged_none. by intros i ->%list_elem_of_singleton. }
  assert (forall ss o, len ss = len (sessions t) -> zget ss slot = Some None -> (forall i, i <> slot -> zget ss i = zget (sessions t) i) ->
    aged [slot] t (set_tunn_timers (tm_set_session_timers (zset (session_timers (tunn_timers t)) slot time_now) (tunn_timers t))
      (set_meta o (set_sessions ss t)))) as Hag.
  { intros ss o Hl Hn Hne. exists ss. eexists _, o. split; [done|]. split_and!; [done|by rewrite len_zset|]. intros i Hi. cbv zeta.
    rewrite zget_zset. case_bool_decide as Hin; cbn [andb].
    - apply list_elem_of_singleton in Hin as ->. rewrite Hst, decide_True by (rewrite Hlt; done). done.
    - rewrite decide_False by (intros [-> _]; apply Hin, list_elem_of_singleton; done). split; [|done]. apply Hne. intros ->. by apply Hin, list_elem_of_singleton. }
  destruct (zget_in (sessions t) slot ltac:(lia)) as [[s|] Hg]; rewrite Hg; cbn [negb]; wp_steps.
  - apply (Hag (zset (sessions t) slot None)).
    + by rewrite len_zset.
    + rewrite zget_zset, decide_True by (rewrite Hls; done). done.
    + intros i Hi. rewrite zget_zset, decide_False by (intros [-> _]; done). done.
  - assert (t = set_meta (meta t) (set_sessions (sessions t) t)) as Ht by (by destruct t). rewrite Ht at 3. by apply Hag.
Qed.

Lemma stale_time_now t i :
  0 <= reject -> zget (session_timers (tunn_timers t)) i = Some time_now -> stale t i = false.
Proof. intros Hr Hg. unfold stale. rewrite Hg. cbn. rewrite Z.gtb_ltb. apply Z.ltb_ge. unfold sat_sub. lia. Qed.

Lemma aged_cons slot slots t t1 t2 :
  0 <= reject -> aged [slot] t t1 -> aged slots t1 t2 -> aged (slot :: slots) t t2.
Proof.
  intros Hr (ss & tms & o & -> & Hl & Hlt & Hg) (ss2 & tms2 & o2 & -> & Hl2 & Hlt2 & Hg2).
  exists ss2, tms2, o2. cbn in Hl2, Hlt2. split; [done|]. split; [congruence|]. split; [congruence|].
  intros i Hi. cbv zeta in *. specialize (Hg i Hi) as [Hs1 Hm1]. specialize (Hg2 i Hi) as [Hs2 Hm2].
  set (t1 := set_tunn_timers _ _) in *. change (sessions t1) with ss in Hs2. change (session_timers (tunn_timers t1)) with tms in Hm2.
  assert (stale t1 i = if bool_decide (i ∈ [slot]) && stale t i then false else stale t i) as Hst.
  { destruct (bool_decide (i ∈ [slot]) && stale t i) eqn:E; [apply stale_time_now; [done|exact Hm1]|].
    unfold stale. change (session_timers (tunn_timers t1)) with tms. by rewrite Hm1. }
  rewrite Hst in Hs2, Hm2. rewrite Hs2, Hm2, Hs1, Hm1.
  assert (bool_decide (i ∈ slot :: slots) = bool_decide (i ∈ [slot]) || bool_decide (i ∈ slots)) as ->.
  { apply eq_bool_prop_intro. rewrite orb_True, !bool_decide_spec, elem_of_cons, list_elem_of_singleton. done. }
  by destruct (bool_decide (i ∈ [slot])), (bool_decide (i ∈ slots)), (stale t i).
Qed.

Lemma age_slots_wp slots t :
  0 <= reject -> len (sessions t) = N_SESSIONS -> len (session_timers (tunn_timers t)) = N_SESSIONS ->
  Forall (fun i => 0 <= i < N_SESSIONS) slots ->
  wp (age_slots time_now reject slots) (fun _ t' => aged slots t t') t.
Proof.
  intros Hr Hls Hlt Hs. revert t Hls Hlt. induction Hs as [|slot slots Hi Hs IH]; intros t Hls Hlt; cbn [age_slots]; wp_steps.
  { apply aged_none. by intros i ?%not_elem_of_nil. }
  wp_use age_slot_wp; [done..|]. intros _ t1 Ha1.
  eapply wp_mono; [apply IH|]; cbv beta; [by destruct Ha1 as (? & ? & ? & -> & ? & ? & _); cbn; congruence..|].
  intros _ t2 Ha2. by eapply aged_cons.
Qed.
End Ageing.

Definition ALL_SLOTS : list Z := [0; 1; 2; 3; 4; 5; 6; 7].
Lemma all_slots i : 0 <= i < N_SESSIONS -> i ∈ ALL_SLOTS.
Proof.
  unfold N_SESSIONS. intros Hi. assert (i = 0 \/ i = 1 \/ i = 2 \/ i = 3 \/ i = 4 \/ i = 5 \/ i = 6 \/ i = 7) as Hc by lia.
  unfold ALL_SLOTS. rewrite !elem_of_cons. tauto.
Qed.

Lemma keychain_expire_nonneg c : config_ok c -> 0 <= keychain_expire (timers c).
Proof.
  intros Hc. unfold keychain_expire, timer_hi. destruct (range_unset _); [done|].
  pose proof (co_timers _ Hc) as Ht. unfold from_secs. unfold duration_ranges in Ht. rewrite List.Forall_forall in Ht.
  assert (0 <= snd (reject_after_time (timers c))); [|unfold nanos_per_sec; lia].
  refine (proj1 (proj2 (Ht (3%nat, reject_after_time (timers c)) _))). simpl. by auto.
Qed.

(** The sessions a poll at [time_now] finds past the end of their keys. *)
Definition expired_slot (time_now : Z) t (i : Z) : bool := stale time_now (keychain_expire (timers (amnezia t))) t i.

Lemma update_session_timers_wp time_now t :
  tunn_ok t ->
  wp (update_session_timers time_now) (fun _ t' => aged time_now (keychain_expire (timers (amnezia t))) ALL_SLOTS t t') t.
Proof.
  intros Hok. unfold update_session_timers. wp_steps. apply age_slots_wp.
  - apply keychain_expire_nonneg, Hok.
  - apply (ri_len _ (to_ring _ Hok)).
  - apply (tk_slots _ (to_timers _ Hok)).
  - unfold N_SESSIONS. repeat (apply List.Forall_cons; [lia|]). apply List.Forall_nil.
Qed.

Lemma aged_polled time_now reject slots t t' :
  0 <= time_now -> ticks (tunn_timers t) TimeCurrent = time_now -> aged time_now reject slots t t' -> tunn_ok t -> polled t t'.
Proof.
  intros Hn Hc (ss & tms & o & -> & Hl & Hlt & Hg) Hok.
  assert (len (sessions t) = N_SESSIONS) as Hls by apply (ri_len _ (to_ring _ Hok)).
  assert (ring_shrink (sessions t) ss) as Hsh.
  { split; [done|]. intros i s' Hz. pose proof (zget_Some _ _ _ Hz) as Hi. specialize (Hg i ltac:(lia)) as [Hs _]. cbv zeta in Hs.
    rewrite Hz in Hs. destruct (_ && _); [done|]. exists s'. by split. }
  etrans; [|apply polled_timers].
  - etrans; [|apply polled_meta]. split; try done. intros []. split; try done. by eapply ring_shrink_ok.
  - cbn. intros [Ht Hs Ha]. split; cbn; [done|by rewrite Hlt|]. rewrite Forall_lookup. intros j x Hj.
    assert (zget tms (Z.of_nat j) = Some x) as Hz by (unfold zget; destruct (Z.ltb_spec (Z.of_nat j) 0); [lia|by rewrite Nat2Z.id]).
    pose proof (zget_Some _ _ _ Hz) as Hi. specialize (Hg (Z.of_nat j) ltac:(unfold N_SESSIONS in *; lia)) as [_ Hm]. cbv zeta in Hm.
    rewrite Hz in Hm. destruct (_ && _); [injection Hm as ->; lia|].
    unfold zget in Hm. destruct (_ <? 0); [done|]. rewrite Nat2Z.id in Hm. symmetry in Hm. by eapply Forall_lookup_1 in Ha.
Qed.

(** ** Expiry *)

Section Cycle.
Variables (now : Z) (eph : bytes).

(** A cycle that ended: nothing is left of it to send or to resume. *)
Definition torn_down t : Prop :=
  handshake_is_expired (handshake t) = true /\ sessions t = zreplicate N_SESSIONS None /\ packet_queue t = [] /\
  pending_amnezia_junk t = None.

Lemma ring_shrink_empty ss : len ss = N_SESSIONS -> ring_shrink ss (zreplicate N_SESSIONS None).
Proof.
  intros Hl. split; [by rewrite Hl|]. intros i s' Hg. exfalso. unfold zget, zreplicate in Hg. destruct (_ <? 0); [done|].
  apply lookup_replicate_1 in Hg as [? _]. done.
Qed.

Lemma expire_wp t : tunn_ok t -> wp (expire now) (fun _ t' => polled t t' /\ torn_down t') t.
Proof.
  intros Hok. unfold expire, clear_all. wp_steps. split; [|done]. split; try done; [|apply ring_shrink_empty, Hok].
  intros _. destruct Hok as [Hh Hr Hq Ht Hc Hn Hb Hw]. split; try done.
  - by apply hs_ok_expired.
  - eapply ring_shrink_ok; [apply ring_shrink_empty, Hr|done].
  - by apply timers_clear.
Qed.

Lemma expire_past_absolute_bounds_wp time_now t :
  tunn_ok t -> ticks (tunn_timers t) TimeCurrent <= time_now ->
  wp (expire_past_absolute_bounds now time_now) (fun b t' => polled t t' /\ if b then torn_down t' else t' = t) t.
Proof.
  intros Hok Hc. unfold expire_past_absolute_bounds. wp_steps.
  pose proof (tk_ticks _ (to_timers _ Hok) TimeSessionEstablished). apply wp_lift, dur_sub_safely; [lia|].
  assert (wp (expire now &; mreturn true) (fun b t' => polled t t' /\ if b then torn_down t' else t' = t) t) as Hex.
  { wp_steps. wp_use expire_wp; [done|]. intros _ t' Hr. by wp_steps. }
  apply wp_if; intros _; [exact Hex|]. wp_steps. destruct (handshake_timer (handshake t)); wp_steps; [|by split].
  apply wp_if; intros _; [exact Hex|by wp_steps].
Qed.

Lemma drop_stale_cookie_wp time_now t :
  tunn_ok t -> ticks (tunn_timers t) TimeCurrent <= time_now ->
  wp (drop_stale_cookie time_now) (fun _ t' => t' = t \/ t' = set_handshake (clear_cookie (handshake t)) t) t.
Proof.
  intros Hok Hc. unfold drop_stale_cookie. wp_steps. apply wp_if; intros _; wp_steps; [|by left].
  pose proof (tk_ticks _ (to_timers _ Hok) TimeCookieReceived). apply wp_lift, dur_sub_safely; [lia|].
  apply wp_if; intros _; wp_steps; auto.
Qed.

(** ** Demands *)

(** What selecting a keepalive spends. *)
Definition rollback_of (tm : Timers R) : Rollback :=
  (persistent_keepalive_due tm, ticks tm TimePersistentKeepalive, want_keepalive tm, persistent_keepalive_current tm).

(** A refusal for want of room keeps the demands [d] of the keepalives and,
    unless a burst now carries it, the armed handshake [h]. *)
Definition demands_kept (d : Rollback) (h : option Z) (r : TunnResult) t' : Prop :=
  is_capacity r = true ->
  rollback_of (tunn_timers t') = d /\ (pending_amnezia_junk t' = None -> want_handshake (tunn_timers t') = h).

Definition rollback_ok (d : Rollback) t : Prop :=
  let '(_, stamp, _, _) := d in 0 <= stamp <= ticks (tunn_timers t) TimeCurrent.

Lemma initiation_refused_timers t t' : initiation_refused t t' -> tunn_timers t' = tunn_timers t.
Proof. intros [-> |(_ & p & r & _ & ->)]; done. Qed.

Lemma set_tick_ok n v (tm : Timers R) :
  n <> TimeCurrent -> 0 <= v <= ticks tm TimeCurrent -> timers_ok tm -> timers_ok (set_tick n v tm).
Proof.
  intros Hn Hv [Ht Hs Ha].
  assert (ticks (set_tick n v tm) TimeCurrent = ticks tm TimeCurrent) as Hc by (cbn; by apply fn_lookup_insert_ne).
  split; [|done|by rewrite Hc]. intros m. rewrite Hc. cbn. destruct (decide (n = m)) as [->|Hne];
    [by rewrite fn_lookup_insert|rewrite fn_lookup_insert_ne by done; apply Ht].
Qed.

Lemma send_keepalive_wp dst d budget t :
  tunn_ok t -> budget_ok budget -> len dst <= usize_max -> rollback_ok d t ->
  wp (send_keepalive now eph dst d budget) (fun r t' => polled t t' /\ emitted (len dst) budget r t' /\
    demands_kept d (want_handshake (tunn_timers t)) r t' /\ r <> TErr ConnectionExpired /\ ring_step (sessions t) (sessions t')) t.
Proof.
  intros Hok Hb Hdst Hd. unfold send_keepalive. wp_steps. wp_use encapsulate_with_budget_wp; [done..|].
  intros r t1 (Hp & He & Ho & Href). destruct d as [[[due stamp] passive] interval]. cbn in Hd. wp_steps.
  assert (r <> TErr ConnectionExpired) as Hne by (intros ->; destruct Ho as [_ [[? _]|?]]; done).
  pose proof (pd_ring _ _ Hp) as Hring. apply produced_polled in Hp.
  eapply (wp_mono _ (fun _ t2 => polled t t2 /\ emitted (len dst) budget r t2 /\ demands_kept (due, stamp, passive, interval) (want_handshake (tunn_timers t)) r t2 /\ sessions t2 = sessions t1)).
  - apply wp_if; intros Hc; wp_steps; [|split_and!; try done; intros Hc'; congruence].
    pose proof (initiation_refused_timers _ _ (Href Hc)) as Htm. split_and!.
    + etrans; [exact Hp|]. apply polled_timers. intros Ht.
      destruct (set_tick_ok TimePersistentKeepalive stamp (tm_set_persistent_keepalive_due due (tunn_timers t1))) as [A B C];
        [done|by rewrite Htm|by destruct Ht; split|by split].
    + by destruct r.
    + intros _. unfold rollback_of. cbn. rewrite fn_lookup_insert. split; [done|]. intros _. by rewrite Htm.
    + done.
  - intros _ t2 (Hp2 & He2 & Hk2 & Hs2). rewrite <- Hs2 in Hring. wp_steps. apply wp_if; intros _; wp_steps; [|by split_and!].
    split_and!; try done. etrans; [exact Hp2|apply polled_meta].
Qed.

(** What the poll decided, and what deciding spent. *)
Definition decided (d : Demand) t t' : Prop :=
  polled t t' /\ (d <> DemandExpired -> sessions t' = sessions t) /\
  match d with
  | DemandExpired => torn_down t'
  | DemandHandshake None => t' = t
  | DemandHandshake (Some armed) => want_handshake (tunn_timers t) = Some armed /\
      t' = set_tunn_timers (tm_set_want_handshake None (tunn_timers t)) t
  | DemandKeepalive => exists tm, t' = set_tunn_timers tm t /\ want_handshake tm = want_handshake (tunn_timers t) /\
      ticks tm TimeCurrent = ticks (tunn_timers t) TimeCurrent
  | DemandNothing => True
  end.

Lemma demand_in_flight_wp sent_at t :
  tunn_ok t -> wp (demand_in_flight now sent_at) (fun d t' => decided d t t' /\
    (d = DemandHandshake None -> handshake_attempts (tunn_timers t) < max_retransmissions_current (tunn_timers t)) /\
    (retransmit_current (tunn_timers t) <= duration_since now sent_at -> d <> DemandNothing)) t.
Proof.
  intros Hok. unfold demand_in_flight. wp_steps. apply wp_if; [intros Hd%negb_true_iff%Z.leb_gt|intros Hd]; wp_steps.
  { unfold decided. split_and!; try done. lia. }
  apply wp_if; [intros Ha|intros Ha%Z.leb_gt]; wp_steps; [|unfold decided; by split_and!].
  wp_use expire_wp; [done|]. intros _ t' [Hp Ht]. wp_steps. unfold decided. by split_and!.
Qed.

Lemma tick_persistent_wp (Q : unit -> Tunn R -> Prop) t :
  Q tt (set_tunn_timers (set_tick TimePersistentKeepalive (ticks (tunn_timers t) TimeCurrent) (tunn_timers t)) t) ->
  wp (timer_tick TimePersistentKeepalive) Q t.
Proof. intros HQ. unfold timer_tick, on_tick. by wp_steps. Qed.

Lemma demand_keepalive_wp time_now t :
  wp (demand_keepalive time_now) (fun d t' => decided d t t' /\ (d = DemandKeepalive \/ d = DemandNothing)) t.
Proof.
  unfold demand_keepalive. wp_steps. set (passive := match want_keepalive _ with Some a => _ | None => _ end).
  eapply (wp_mono _ (fun _ t1 => exists tm, t1 = set_tunn_timers tm t /\ timers_step (tunn_timers t) tm /\ want_handshake tm = want_handshake (tunn_timers t))).
  { apply wp_if; intros _; wp_steps.
    - eexists. split; [done|]. split; [by apply timers_same|done].
    - exists (tunn_timers t). split; [by destruct t|done]. }
  intros _ t1 (tm & -> & Htm & Hwh). wp_steps. set (persistent := _ && _).
  eapply (wp_mono _ (fun _ t1 => exists tm, t1 = set_tunn_timers tm t /\ timers_step (tunn_timers t) tm /\ want_handshake tm = want_handshake (tunn_timers t))).
  { apply wp_if; intros _; wp_steps; [|by exists tm]. apply tick_persistent_wp. eexists. split; [done|]. split; [|done].
    etrans; [exact Htm|]. etrans; [|apply timers_set_tick]. by apply timers_same. }
  intros _ t2 (tm2 & -> & Htm2 & Hwh2). wp_steps.
  assert (polled t (set_tunn_timers tm2 t)) as Hp by (apply polled_timers, Htm2).
  destruct (passive || persistent); (split; [|auto]); (split; [done|]); (split; [done|]); [|done]. exists tm2. split_and!; try done. apply Htm2.
Qed.

Lemma demand_idle_wp time_now established received sent t :
  tunn_ok t -> established <= time_now ->
  wp (demand_idle time_now established received sent) (fun d t' => decided d t t' /\ d <> DemandExpired) t.
Proof.
  intros Hok Hle. unfold demand_idle. wp_steps.
  assert (forall (b : bool) (deadline : Z), wp (if b then let* age := lift (dur_sub time_now established) in mreturn (deadline <=? age)
    else mreturn false) (fun _ t' => t' = t) t) as Hage.
  { intros b deadline. apply wp_if; intros _; wp_steps; [|done]. apply wp_lift, dur_sub_safely; [done|]. by wp_steps. }
  eapply (wp_mono _ (fun _ t1 => t1 = t)).
  { apply wp_if; intros _; wp_steps; [done|]. wp_use Hage. intros b1 t1 ->. wp_steps. wp_use Hage. intros b2 t2 ->. by wp_steps. }
  intros rekey t1 ->. wp_steps. destruct (match want_handshake (tunn_timers t) with Some armed => _ | None => _ end) as [armed|] eqn:Hl; wp_steps.
  - rewrite orb_true_r. wp_steps. split; [|done]. split; [|split; [done|split; [|done]]].
    + apply polled_timers. intros []. by split.
    + destruct (want_handshake (tunn_timers t)); [|done]. by destruct (_ <=? _).
  - rewrite orb_false_r. apply wp_if; intros _; wp_steps; [unfold decided; by split_and!|].
    wp_use demand_keepalive_wp. intros d t1 [Hd Hor]. split; [done|]. by destruct Hor as [-> | ->].
Qed.

(** The outcome of the poll of a live cycle. *)
Definition cycle_polled (dst : bytes) (budget : OutputBudget) (d : Rollback) (h : option Z) t r t' : Prop :=
  polled t t' /\ emitted (len dst) budget r t' /\ demands_kept d h r t' /\ (r = TErr ConnectionExpired -> torn_down t') /\
  (r <> TErr ConnectionExpired -> ring_step (sessions t) (sessions t')).

Lemma serve_demand_wp dst d budget demand t t1 :
  tunn_ok t -> budget_ok budget -> len dst <= usize_max -> d = rollback_of (tunn_timers t) -> decided demand t t1 ->
  wp (serve_demand now eph dst d budget demand) (cycle_polled dst budget d (want_handshake (tunn_timers t)) t) t1.
Proof.
  intros Hok Hb Hdst Hd (Hp1 & Hs1 & Hdec). pose proof (po_ok _ _ Hp1 Hok) as Hok1. unfold cycle_polled.
  destruct demand as [|latch| |]; cbn [serve_demand]; wp_steps.
  - by split_and!.
  - wp_use format_initiation_wp; [done..|]. intros r t2 (Hi & He & Hr). wp_steps.
    assert (polled t t2) as Hp2 by (etrans; [exact Hp1|by apply produced_polled, initiating_produced]).
    assert (r <> TErr ConnectionExpired) as Hne by (intros ->; destruct Hr; done).
    eapply (wp_mono _ (fun _ t3 => polled t t3 /\ emitted (len dst) budget r t3 /\ demands_kept d (want_handshake (tunn_timers t)) r t3 /\ sessions t3 = sessions t2)).
    { assert (is_capacity r = true -> tunn_timers t2 = tunn_timers t1) as Hsame.
      { destruct r; try done. intros _. by apply initiation_refused_timers, Hr. }
      assert (rollback_of (tunn_timers t1) = d) as Hd1 by (rewrite Hd; destruct latch; [destruct Hdec as [_ ->]|subst t1]; done).
      assert (demands_kept d (want_handshake (tunn_timers t1)) r t2) as Hk1 by (intros Hc; by rewrite (Hsame Hc)).
      destruct latch as [armed|]; [|subst t1; by wp_steps]. destruct Hdec as [Hw ->]. apply wp_if; intros Hc; wp_steps.
      - apply andb_prop in Hc as [_ Hc]. split_and!; [|by destruct r| |done].
        + etrans; [exact Hp2|]. apply polled_timers. intros []. by split.
        + intros _. rewrite (Hsame Hc), Hw. split; [exact Hd1|done].
      - split_and!; try done. intros Hcap. split; [by apply Hk1|]. intros Hpn. rewrite Hpn, Hcap in Hc. done. }
    assert (ring_step (sessions t) (sessions t2)) as Hr2 by (rewrite (in_sessions _ _ Hi), Hs1 by done; reflexivity).
    intros _ t3 (Hp3 & He3 & Hk3 & Hs3). rewrite <- Hs3 in Hr2. wp_steps. apply wp_if; intros _; wp_steps; [|by split_and!].
    split_and!; try done. etrans; [exact Hp3|apply polled_meta].
  - destruct Hdec as (tm & -> & Hw & Hcur). wp_use send_keepalive_wp; [done..| |].
    { rewrite Hd. unfold rollback_ok, rollback_of. cbn. rewrite Hcur. apply (tk_ticks _ (to_timers _ Hok)). }
    intros r t2 (Hp2 & He2 & Hk2 & Hne & Hr2). cbn in Hk2. rewrite Hw in Hk2. split_and!; try done. by etrans.
  - split_and!; try done. intros _. rewrite Hs1 by done. reflexivity.
Qed.

Lemma poll_cycle_wp time_now dst d budget t :
  tunn_ok t -> budget_ok budget -> len dst <= usize_max -> d = rollback_of (tunn_timers t) ->
  ticks (tunn_timers t) TimeCurrent = time_now ->
  wp (poll_cycle now eph time_now dst d budget) (cycle_polled dst budget d (want_handshake (tunn_timers t)) t) t.
Proof.
  intros Hok Hb Hdst Hd Hc. unfold poll_cycle. wp_steps. wp_use drop_stale_cookie_wp; [done|lia|]. intros _ t1 Ht1.
  assert (polled t t1 /\ tunn_timers t1 = tunn_timers t /\ sessions t1 = sessions t) as (Hp1 & Htm1 & Hs1).
  { destruct Ht1 as [-> | ->]; [done|]. split; [|done]. apply polled_handshake; [apply hs_ok_clear_cookie|done|done]. }
  pose proof (po_ok _ _ Hp1 Hok) as Hok1. clear Ht1. wp_steps.
  wp_use expire_past_absolute_bounds_wp; [done|rewrite Htm1; lia|]. intros b t2 [Hp2 Hb2]. apply wp_if; intros ->; wp_steps.
  { split_and!; try done. by etrans. }
  subst t2. assert (wp (match handshake_timer (handshake t1) with
    | Some time_init_sent => demand_in_flight now time_init_sent
    | None => demand_idle time_now (ticks (tunn_timers t) TimeSessionEstablished)
        (ticks (tunn_timers t) TimeLastDataPacketReceived) (ticks (tunn_timers t) TimeLastDataPacketSent)
    end) (fun demand t2 => decided demand t1 t2) t1) as Hdem.
  { destruct (handshake_timer (handshake t1)).
    - wp_use demand_in_flight_wp; [done|]. by intros demand t2 [? _].
    - wp_use demand_idle_wp; [done|pose proof (tk_ticks _ (to_timers _ Hok) TimeSessionEstablished); lia|]. by intros demand t2 [? _]. }
  wp_use Hdem. intros demand t2 Hdec. wp_use (serve_demand_wp dst d budget demand t1 t2); [done..|by rewrite Htm1|done|].
  rewrite Htm1. intros r t3 (Hp3 & He3 & Hk3 & Hx3 & Hr3). rewrite Hs1 in Hr3. split_and!; try done. by etrans.
Qed.

Lemma poll_expired_wp dst d budget t :
  tunn_ok t -> budget_ok budget -> len dst <= usize_max -> d = rollback_of (tunn_timers t) ->
  wp (poll_expired now eph dst d budget) (fun r t' => polled t t' /\ emitted (len dst) budget r t' /\
    demands_kept d (want_handshake (tunn_timers t)) r t' /\ (r = TErr ConnectionExpired -> t' = t) /\ ring_step (sessions t) (sessions t')) t.
Proof.
  intros Hok Hb Hdst Hd. unfold poll_expired. wp_steps. apply wp_if; intros _; wp_steps; [split_and!; try done; reflexivity|].
  apply tick_persistent_wp. set (t1 := set_tunn_timers _ _).
  assert (timers_step (tunn_timers t) (tunn_timers t1)) as Hs.
  { etrans; [|apply timers_set_tick]. by apply timers_same. }
  assert (polled t t1) as Hp1.
  { etrans; [apply (polled_timers (tm_set_persistent_keepalive_due false (tunn_timers t)))|apply polled_timers]; intros []; [by split|].
    by apply Hs. }
  wp_use send_keepalive_wp; [by apply Hp1|done|done| |].
  - rewrite Hd. unfold rollback_ok, rollback_of. cbv zeta beta iota. rewrite (ts_current _ _ Hs). apply (tk_ticks _ (to_timers _ Hok)).
  - intros r t2 (Hp2 & He2 & Hk2 & Hne & Hr2). split_and!; try done. by etrans.
Qed.

Lemma timers_advance v (tm : Timers R) :
  ticks tm TimeCurrent <= v -> timers_ok tm -> timers_ok (set_tick TimeCurrent v tm).
Proof.
  intros Hv [Ht Hs Ha]. assert (ticks (set_tick TimeCurrent v tm) TimeCurrent = v) as Hc by (cbn; apply fn_lookup_insert).
  split; [|done|].
  - intros m. rewrite Hc. cbn. pose proof (Ht TimeCurrent). destruct (decide (TimeCurrent = m)) as [<-|Hne];
      [rewrite fn_lookup_insert; lia|rewrite fn_lookup_insert_ne by done; pose proof (Ht m); lia].
  - rewrite Hc. eapply List.Forall_impl; [|exact Ha]. intros x Hx. cbv beta in Hx. lia.
Qed.

(** The poll, as far as its demands: time moves, sessions age. *)
Definition poll_started t t1 : Prop :=
  let time_now := monotonic_now now (tunn_timers t) in
  polled t t1 /\ ticks (tunn_timers t1) TimeCurrent = time_now /\
  rollback_of (tunn_timers t1) = rollback_of (tunn_timers t) /\
  want_handshake (tunn_timers t1) = want_handshake (tunn_timers t) /\ handshake t1 = handshake t /\
  packet_queue t1 = packet_queue t /\
  forall i, 0 <= i < N_SESSIONS ->
    zget (sessions t1) i = if expired_slot time_now t i then Some None else zget (sessions t) i.

Lemma poll_started_wp {A} (k : Z -> M R A) (Q : A -> Tunn R -> Prop) (b : bool) t :
  tunn_ok t -> (forall t1, poll_started t t1 -> wp (k (monotonic_now now (tunn_timers t))) Q t1) ->
  wp ((if b then modify (fun t => set_rate_limiter (reset_count now (rate_limiter t)) t) else mreturn tt) &;
      let* time_now := gets (fun t => monotonic_now now (tunn_timers t)) in
      upd_timers (set_tick TimeCurrent time_now) &; update_session_timers time_now &; k time_now) Q t.
Proof.
  intros Hok HQ. set (time_now := monotonic_now now (tunn_timers t)) in *. wp_steps.
  eapply (wp_mono _ (fun _ t1 => exists l, t1 = set_rate_limiter l t)).
  { apply wp_if; intros _; wp_steps; [by eexists|]. exists (rate_limiter t). by destruct t. }
  intros _ t1 [l ->]. wp_steps. set (t1 := set_tunn_timers _ _).
  assert (ticks (tunn_timers t) TimeCurrent <= time_now) as Hn by (unfold time_now, monotonic_now; lia).
  assert (polled t t1) as Hp1 by (etrans; [apply (polled_limiter l)|]; apply polled_timers; by apply timers_advance).
  assert (ticks (tunn_timers t1) TimeCurrent = time_now) as Hc1 by (cbn; apply fn_lookup_insert).
  pose proof (po_ok _ _ Hp1 Hok) as Hok1. pose proof (tk_ticks _ (to_timers _ Hok) TimeCurrent).
  wp_use update_session_timers_wp; [done|]. intros _ t2 Ha. apply HQ. split_and!.
  - etrans; [exact Hp1|]. eapply aged_polled; [|exact Hc1|exact Ha|done]. lia.
  - destruct Ha as (ss & tms & o & -> & _). cbn. apply fn_lookup_insert.
  - destruct Ha as (ss & tms & o & -> & _). unfold rollback_of. cbn. by rewrite fn_lookup_insert_ne.
  - destruct Ha as (ss & tms & o & -> & _). done.
  - destruct Ha as (ss & tms & o & -> & _). done.
  - destruct Ha as (ss & tms & o & -> & _). done.
  - intros i Hi. destruct Ha as (ss & tms & o & -> & _ & _ & Hg). destruct (Hg i Hi) as [Hs _]. cbn in Hs |- *. rewrite Hs.
    rewrite bool_decide_eq_true_2 by (by apply all_slots). done.
Qed.

Lemma gone_stays ss ss' i : ring_shrink ss ss' -> zget ss i = Some None -> zget ss' i = Some None.
Proof.
  intros [Hl Hs] Hg. destruct (zget_in ss' i) as [[s|] Hg']; [rewrite Hl; by eapply zget_Some| |done].
  destruct (Hs i s Hg') as (s0 & Hg0 & _). congruence.
Qed.

Lemma ring_step_get ss ss' i s : ring_step ss ss' -> zget ss i = Some (Some s) ->
  exists s', zget ss' i = Some (Some s') /\ slot_step (Some s) (Some s').
Proof.
  unfold zget. destruct (i <? 0); [done|]. intros Hs Hg. destruct (Forall2_lookup_l _ _ _ _ _ Hs Hg) as ([s'|] & Hg' & Hst); [by exists s'|done].
Qed.

(** [update_timers_with_budget], every branch. *)
Lemma update_timers_wp dst budget t :
  tunn_ok t -> budget_ok budget -> len dst <= usize_max ->
  wp (update_timers_with_budget now eph dst budget) (fun r t' =>
    polled t t' /\ emitted (len dst) budget r t' /\
    demands_kept (rollback_of (tunn_timers t)) (want_handshake (tunn_timers t)) r t' /\
    (r = TErr ConnectionExpired -> torn_down t' \/
       handshake_is_expired (handshake t) = true /\ handshake t' = handshake t /\ packet_queue t' = packet_queue t) /\
    (forall i, 0 <= i < N_SESSIONS -> expired_slot (monotonic_now now (tunn_timers t)) t i = true -> zget (sessions t') i = Some None) /\
    (r <> TErr ConnectionExpired -> forall i s, zget (sessions t) i = Some (Some s) ->
       expired_slot (monotonic_now now (tunn_timers t)) t i = false ->
       exists s', zget (sessions t') i = Some (Some s') /\ slot_step (Some s) (Some s'))) t.
Proof.
  intros Hok Hb Hdst. unfold update_timers_with_budget. do 4 wp_step. apply poll_started_wp; [done|].
  intros t1 (Hp1 & Hc1 & Hd1 & Hw1 & Hh1 & Hq1 & Hgone). pose proof (po_ok _ _ Hp1 Hok) as Hok1.
  fold (rollback_of (tunn_timers t)). rewrite <- Hd1, <- Hw1. set (time_now := monotonic_now now (tunn_timers t)) in *.
  eapply (wp_mono _ (fun r t' => polled t1 t' /\ emitted (len dst) budget r t' /\
    demands_kept (rollback_of (tunn_timers t1)) (want_handshake (tunn_timers t1)) r t' /\
    (r = TErr ConnectionExpired -> torn_down t' \/ handshake_is_expired (handshake t1) = true /\ t' = t1) /\
    (r <> TErr ConnectionExpired -> ring_step (sessions t1) (sessions t')))).
  2: { intros r t' (Hp & He & Hk & Hx & Hrs). rewrite <- Hh1, <- Hq1. split_and!; try done; [by etrans|..].
    - intros Hr. destruct (Hx Hr) as [?|[? ->]]; auto.
    - intros i Hi Hst. eapply gone_stays; [apply Hp|]. rewrite Hgone, Hst by done. done.
    - intros Hr i s Hg Hst. pose proof (zget_Some _ _ _ Hg) as Hi. rewrite (ri_len _ (to_ring _ Hok)) in Hi.
      eapply ring_step_get; [by apply Hrs|]. by rewrite (Hgone i Hi), Hst. }
  assert (wp (advance_amnezia_junk now eph dst budget) (fun r t' => polled t1 t' /\ emitted (len dst) budget r t' /\
    demands_kept (rollback_of (tunn_timers t1)) (want_handshake (tunn_timers t1)) r t' /\
    (r = TErr ConnectionExpired -> torn_down t' \/ handshake_is_expired (handshake t1) = true /\ t' = t1) /\
    (r <> TErr ConnectionExpired -> ring_step (sessions t1) (sessions t'))) t1) as Hadv.
  { wp_use advance_amnezia_junk_wp; [done..|]. intros r t2 (Hi & He & Hr). split_and!; try done.
    - by apply produced_polled, initiating_produced.
    - destruct r; try done. by destruct Hr as [_ ->].
    - intros ->. by destruct Hr.
    - intros _. rewrite (in_sessions _ _ Hi). reflexivity. }
  wp_steps. apply wp_if; intros _; [exact Hadv|]. wp_steps. apply wp_if; intros Hburst; wp_steps.
  - wp_use expire_past_absolute_bounds_wp; [done|lia|]. intros b t2 [Hp2 Hb2]. apply wp_if; intros ->; [|by subst t2].
    wp_steps. split_and!; try done. auto.
  - apply wp_if; intros Hexp.
    + wp_use poll_expired_wp; [done..|]. intros r t2 (Hp2 & He2 & Hk2 & Hx2 & Hr2). split_and!; try done. intros Hr. right. split; [done|auto].
    + wp_use poll_cycle_wp; [done..|]. intros r t2 (Hp2 & He2 & Hk2 & Hx2 & Hr2). split_and!; try done. auto.
Qed.
End Cycle.
End Poll.
