(* ===== verification/TunnConfig.v ===== *)
(** Construction and reconfiguration of a tunnel ([noise/mod.rs]), and the
    report of an operation ([noise/op_report.rs]). *)

From stdpp Require Import functions.
From S2P Require Import Prelude Budget Instant Crypto Rand Tags Packet Session RateLimiter Amnezia Framing.
From S2P Require Import Handshake Imitation Timers OpReport Tunn.

Definition PEER_HANDSHAKE_RATE_LIMIT : Z := 10.

Section Config.
Context `{Crypto} {R : Type} `{RngCore R} `{PrefixFillers R} `{ImitationEnv}.
Implicit Types t : Tunn R.

(** What the constructors draw from the operating system. *)
Record TunnSeed := {
  seed_handshake_rng : R;
  seed_jitter_rng : R;
  seed_stamper : TimeStamper;
  seed_limiter : LimiterSeed;
}.

Definition tunn_new (now : Z) (seed : TunnSeed) (static_private peer_static_public : bytes) (psk : option bytes)
    (keepalive : option Z) (index : Z) (limiter : option RateLimiter) (obf : ObfuscationRanges) (c : AmneziaConfig)
  : result ConfigError (Tunn R) :=
  match check_header_protection_nonce c with
  | Err e => Err e
  | Ok _ =>
      let static_public := x25519_public static_private in
      Ok {|
        handshake := handshake_new static_private static_public peer_static_public (wrap32 (Z.shiftl index 8)) psk obf
                       (seed_stamper seed) (seed_handshake_rng seed);
        sessions := zreplicate N_SESSIONS None;
        current := 0;
        packet_queue := [];
        tunn_timers := timers_new now keepalive (match limiter with None => true | Some _ => false end) (seed_jitter_rng seed);
        tx_bytes := 0;
        rx_bytes := 0;
        amnezia := c;
        auto_imitation := auto_default;
        pending_amnezia_junk := None;
        rate_limiter := match limiter with
          | Some l => l
          | None => limiter_new (seed_limiter seed) static_public PEER_HANDSHAKE_RATE_LIMIT now
          end;
        udp_window := DEFAULT_UDP_WINDOW;
        meta := op_default;
      |}
  end.

Definition drop_sessions : M R unit :=
  modify (set_sessions (zreplicate N_SESSIONS None)) &; upd_meta all_sessions_removed.

Definition set_static_private (now : Z) (seed : LimiterSeed) (static_private static_public : bytes)
    (limiter : option RateLimiter) : M R unit :=
  upd_timers (tm_set_should_reset_rr (match limiter with None => true | Some _ => false end)) &;
  modify (set_rate_limiter (match limiter with
    | Some l => l | None => limiter_new seed static_public PEER_HANDSHAKE_RATE_LIMIT now end)) &;
  let* h := gets handshake in
  let* h := lift (handshake_set_static_private static_private static_public h) in
  modify (set_handshake h) &;
  modify (set_auto_imitation auto_default) &;
  drop_sessions.

Definition redraw_tunable_timers : M R unit :=
  let* awg := gets (fun t => timers (amnezia t)) in
  let* retransmit := draw (retransmit_timeout awg) in
  let* keepalive := draw (timers_keepalive awg) in
  let* new_handshake := draw (new_handshake_timeout awg) in
  let* j := draw_jitter in
  let* rekey_after := draw (key_refresh_sending awg) in
  let* refresh_receive := draw (key_refresh_receiving awg) in
  let* max_retrans := draw (max_retransmissions awg) in
  let* j2 := draw_jitter in
  upd_timers (fun tm => tm_set_refresh_receive_current refresh_receive (tm_set_rekey_after_current rekey_after
    (tm_set_new_handshake_current (new_handshake + j) (tm_set_keepalive_current keepalive
    (tm_set_max_retransmissions_current max_retrans (tm_set_retransmit_current (retransmit + j2) tm)))))).

Definition restart_pending_burst : M R unit :=
  let* pending := gets pending_amnezia_junk in
  match pending with
  | None => mreturn tt
  | Some old =>
      modify (set_pending_amnezia_junk None) &;
      let* p := new_pre_handshake_burst (last_packet_at old) (reset_expired_timers old) in
      modify (set_pending_amnezia_junk (Some p))
  end.

(** What reconfiguring does to the Auto evidence and a learned mode. *)
Definition reconfigured_auto (obf : ObfuscationRanges) (c : AmneziaConfig) t : AutoImitation :=
  let a := auto_imitation t in
  if negb (bool_decide (protocol (imitation (amnezia t)) = ProtoAuto)) || negb (bool_decide (protocol (imitation c) = ProtoAuto))
  then auto_default
  else if negb (bool_decide (amnezia t = c)) || negb (bool_decide (hs_obf (handshake t) = obf)) then
    let a := clear_pending a in
    match learned a with
    | Some p => if negb (bool_decide (protocol (imitation (resolve_imitation c p)) = p)) then set_learned None a else a
    | None => a
    end
  else a.

Definition apply_obfuscation (obf : ObfuscationRanges) (c : AmneziaConfig) : M R unit :=
  let* a := gets (reconfigured_auto obf c) in
  modify (set_auto_imitation a) &;
  let* old := gets amnezia in
  let timers_changed := negb (bool_decide (timers old = timers c)) in
  let burst := pending_burst_change old c in
  upd_handshake (set_obf obf) &;
  modify (set_amnezia c) &;
  (match burst with BurstRestart => restart_pending_burst | BurstKeep => mreturn tt end) &;
  (if timers_changed then redraw_tunable_timers else mreturn tt).

Definition try_set_obfuscation (obf : ObfuscationRanges) (c : AmneziaConfig) : M R (result ConfigError unit) :=
  match check_header_protection_nonce c with
  | Err e => mreturn (Err e)
  | Ok _ => apply_obfuscation obf c &; mreturn (Ok tt)
  end.

Definition set_obfuscation (obf : ObfuscationRanges) (c : AmneziaConfig) : M R unit :=
  try_set_obfuscation obf c &; mreturn tt.

Definition reset_udp_window : M R unit := modify (set_udp_window DEFAULT_UDP_WINDOW).
Definition begin_new_path : M R Z :=
  let* w := gets udp_window in modify (set_udp_window DEFAULT_UDP_WINDOW) &; mreturn w.
Definition restore_udp_window (window : Z) : M R unit := modify (set_udp_window window).
Definition discard_imitation_hint : M R unit := modify (fun t => set_auto_imitation (clear_pending (auto_imitation t)) t).

Definition set_mtu (mtu : Z) (c : AmneziaConfig) : AmneziaConfig := {|
  init_packet_junk_size := init_packet_junk_size c; response_packet_junk_size := response_packet_junk_size c;
  cookie_packet_junk_size := cookie_packet_junk_size c; transport_packet_junk_size := transport_packet_junk_size c;
  pre_handshake_junk := pre_handshake_junk c; imitation := imitation c;
  suppress_pre_handshake := suppress_pre_handshake c; header_protection := header_protection c;
  content_padding_addition := content_padding_addition c; content_padding_mtu := mtu;
  timers := timers c; random_trailers := random_trailers c; disable_cookies := disable_cookies c |}.
Definition set_content_padding_mtu (mtu : Z) : M R unit := modify (fun t => set_amnezia (set_mtu mtu (amnezia t)) t).

Definition tunn_set_persistent_keepalive (keepalive : option Z) : M R unit := upd_timers (set_persistent_keepalive keepalive).
Definition tunn_set_persistent_keepalive_range (low high : Z) : M R bool :=
  match normalize_persistent_keepalive_range low high with
  | Some range => upd_timers (set_persistent_keepalive_range range) &; mreturn true
  | None => mreturn false
  end.
Definition persistent_keepalive_range t : option (Z * Z) :=
  if persistent_keepalive_on (tunn_timers t) then Some (persistent_keepalive (tunn_timers t)) else None.

Definition effective_psk (psk : option bytes) : bytes := from_option id (zeros 32) psk.

Definition set_preshared_key (psk : option bytes) : M R unit :=
  let* old := gets (fun t => preshared_key (hs_params (handshake t))) in
  let unchanged := bool_decide (effective_psk old = effective_psk psk) in
  upd_handshake (handshake_set_preshared_key psk) &;
  if unchanged then mreturn tt else drop_sessions.

(** ** Reports *)

Record OpEntry := { entry_op_seq : Z; entry_selected_serial : Z }.

Record OpReport := {
  rp_input_kind : ReportKind;
  rp_output_kind : ReportKind;
  rp_events : Z;
  rp_state : Z;
  rp_op_seq : Z;
  rp_burst_due_ms : Z;
}.

Definition selected_session_serial t : Z :=
  let slot := current t mod N_SESSIONS in
  match session_at t (current t) with
  | Some _ => from_option id 0 (zget (slot_serial (meta t)) slot)
  | None => 0
  end.

Definition begin_op : M R OpEntry :=
  upd_meta (fun o => op_set_output_kind RkNone (op_set_input_kind RkNone (op_set_events 0
    (op_set_op_seq (wrap64 (op_seq o + 1)) o)))) &;
  gets (fun t => {| entry_op_seq := op_seq (meta t); entry_selected_serial := selected_session_serial t |}).

Definition flag (b : bool) (v : Z) : Z := if b then v else 0.

Definition state_snapshot t : Z :=
  Z.lor (flag (has_current_session t) ST_SESSION_CURRENT)
  (Z.lor (flag (has_initiation_pending (handshake t)) ST_INITIATION_PENDING)
  (Z.lor (flag (handshake_is_expired (handshake t)) ST_HANDSHAKE_EXPIRED)
  (Z.lor (flag (negb (len (packet_queue t) =? 0)) ST_QUEUE_NONEMPTY)
  (Z.lor (flag (match pending_amnezia_junk t with Some _ => true | None => false end) ST_BURST_PENDING)
         (flag (has_cookie (handshake t)) ST_COOKIE_HELD))))).

Definition burst_due_ms (now : Z) t : Z :=
  match pending_amnezia_junk t with
  | None => BURST_DUE_NONE
  | Some p =>
      match last_packet_at p with
      | None => 0
      | Some last =>
          let remaining := sat_sub (burst_delay t p) (duration_since now last) in
          if remaining =? 0 then 0 else Z.min ((remaining + 999999) / 1000000) BURST_DUE_MAX
      end
  end.

Definition finish_op (now : Z) t (entry : OpEntry) (r : TunnResult) : OpReport := {|
  rp_input_kind := input_kind (meta t);
  rp_output_kind := if is_network r then output_kind (meta t) else RkNone;
  rp_events := if selected_session_serial t =? entry_selected_serial entry then events (meta t)
               else Z.lor (events (meta t)) EV_CURRENT_SESSION_CHANGED;
  rp_state := state_snapshot t;
  rp_op_seq := entry_op_seq entry;
  rp_burst_due_ms := burst_due_ms now t;
|}.
End Config.
