(* ===== verification/Peer.v ===== *)
(** A peer of the device, [device/peer.rs]: its tunnel, its endpoint and the
    connected socket it may have.

    A socket is a number; closing one is letting go of its number. Opening one
    is a run of system calls, whose outcome -- an errno or a new socket -- is an
    argument. The [Arc] that names a connection's lifetime is a number, fresh
    at each commit. Addresses carry no IPv6 scope or flow. What the peer keeps
    for its log messages is not modelled. *)

From stdpp Require Import functions.
From S2P Require Import Prelude Budget Instant Crypto Rand Tags Packet Session RateLimiter Amnezia Framing.
From S2P Require Import Handshake Imitation Timers OpReport Tunn TunnReceive TunnTick TunnConfig Stun ReplyPolicy.

Record Endpoint := {
  ep_addr : option SocketAddr;
  ep_conn : option nat;
}.

(** On Linux an IPv4-mapped endpoint is stored as the IPv4 one it is. *)
Definition canonical_endpoint (addr : SocketAddr) : SocketAddr :=
  match fst addr with
  | V6 v6 => match to_ipv4_mapped v6 with Some v4 => (V4 v4, snd addr) | None => addr end
  | V4 _ => addr
  end.

Record Peer (R : Type) := {
  tunnel : Tunn R;
  peer_index : Z;
  peer_endpoint : Endpoint;
  peer_preshared_key : option bytes;
  upgrade_suppressed : bool;
  conn_lifetime : option nat;
}.
Arguments tunnel {R} p.
Arguments peer_index {R} p.
Arguments peer_endpoint {R} p.
Arguments peer_preshared_key {R} p.
Arguments upgrade_suppressed {R} p.
Arguments conn_lifetime {R} p.

Inductive ConnectError := ErrConnected | ErrNoEndpoint | ErrOs (errno : Z).

Section Peer.
Context `{Crypto} {R : Type} `{RngCore R} `{PrefixFillers R} `{ImitationEnv}.
Implicit Types p : Peer R.

Definition set_tunnel (t : Tunn R) p : Peer R := {|
  tunnel := t; peer_index := peer_index p; peer_endpoint := peer_endpoint p; peer_preshared_key := peer_preshared_key p;
  upgrade_suppressed := upgrade_suppressed p; conn_lifetime := conn_lifetime p |}.
Definition set_peer_endpoint (e : Endpoint) p : Peer R := {|
  tunnel := tunnel p; peer_index := peer_index p; peer_endpoint := e; peer_preshared_key := peer_preshared_key p;
  upgrade_suppressed := upgrade_suppressed p; conn_lifetime := conn_lifetime p |}.
Definition set_suppressed (b : bool) p : Peer R := {|
  tunnel := tunnel p; peer_index := peer_index p; peer_endpoint := peer_endpoint p; peer_preshared_key := peer_preshared_key p;
  upgrade_suppressed := b; conn_lifetime := conn_lifetime p |}.
Definition set_psk_field (psk : option bytes) p : Peer R := {|
  tunnel := tunnel p; peer_index := peer_index p; peer_endpoint := peer_endpoint p; peer_preshared_key := psk;
  upgrade_suppressed := upgrade_suppressed p; conn_lifetime := conn_lifetime p |}.
Definition set_lifetime (l : option nat) p : Peer R := {|
  tunnel := tunnel p; peer_index := peer_index p; peer_endpoint := peer_endpoint p; peer_preshared_key := peer_preshared_key p;
  upgrade_suppressed := upgrade_suppressed p; conn_lifetime := l |}.

Definition peer_new (tunnel : Tunn R) (index : Z) (endpoint : option SocketAddr) (preshared_key : option bytes) : Peer R := {|
  tunnel := tunnel;
  peer_index := index;
  peer_endpoint := {| ep_addr := canonical_endpoint <$> endpoint; ep_conn := None |};
  peer_preshared_key := preshared_key;
  upgrade_suppressed := false;
  conn_lifetime := None |}.

(** A call of the tunnel's. *)
Definition on_tunnel {A} (m : M R A) p : outcome (A * Peer R) :=
  let! (a, t) := m (tunnel p) in Ret (a, set_tunnel t p).

Definition suppress_upgrade p : bool * Peer R := (negb (upgrade_suppressed p), set_suppressed true p).

Definition shutdown_endpoint p : Peer R :=
  set_peer_endpoint {| ep_addr := ep_addr (peer_endpoint p); ep_conn := None |} p.

Definition move_endpoint (addr : SocketAddr) (reset_window : bool) p : outcome (Peer R) :=
  let addr := canonical_endpoint addr in
  if bool_decide (ep_addr (peer_endpoint p) = Some addr) then Ret p else
  let p := set_peer_endpoint {| ep_addr := Some addr; ep_conn := None |} p in
  let! (_, p) := (if reset_window then on_tunnel reset_udp_window p else Ret (tt, p)) in
  Ret (set_suppressed false p).

Definition set_endpoint (addr : SocketAddr) p : outcome (Peer R) := move_endpoint addr true p.
Definition adopt_endpoint (addr : SocketAddr) p : outcome (Peer R) := move_endpoint addr false p.

Definition connect_endpoint (opened : result Z nat) p : result ConnectError nat * Peer R :=
  match ep_conn (peer_endpoint p) with
  | Some _ => (Err ErrConnected, p)
  | None =>
      match ep_addr (peer_endpoint p) with
      | None => (Err ErrNoEndpoint, p)
      | Some addr =>
          match opened with
          | Err errno => (Err (ErrOs errno), p)
          | Ok socket => (Ok socket, set_peer_endpoint {| ep_addr := Some addr; ep_conn := Some socket |} p)
          end
      end
  end.

Definition peer_set_preshared_key (psk : option bytes) p : outcome (Peer R) :=
  let! (_, p) := on_tunnel (set_preshared_key psk) (set_psk_field psk p) in Ret p.

Definition peer_set_persistent_keepalive_range (range : Z * Z) p : outcome (Peer R) :=
  let! (_, p) := on_tunnel (tunn_set_persistent_keepalive_range (fst range) (snd range)) p in Ret p.

Definition commit_connection_lifetime (fresh : nat) p : Peer R := set_lifetime (Some fresh) p.

Definition is_current_connection (lifetime : nat) (endpoint : SocketAddr) p : bool :=
  match ep_conn (peer_endpoint p) with Some _ => true | None => false end &&
  bool_decide (ep_addr (peer_endpoint p) = Some endpoint) &&
  bool_decide (conn_lifetime p = Some lifetime).
End Peer.
