(* ===== verification/Device.v ===== *)
(** The device's peer tables and its configuration, [device/mod.rs]: adding,
    merging and removing peers, the interface's key and its framing.

    A peer is shared: the table by key, the table by index and the allowed-IP
    table hold one [Arc] each, and a connected socket's handler may hold it
    after the tables have let go. [store] is the heap of peers and the tables
    hold locations in it. The rate limiter is shared likewise, by the device
    and every peer: it is the device's here, and a tunnel's call runs on it
    ([with_shared]). Listening sockets, the interface and the event queue are not
    part of the model. *)

From stdpp Require Import gmap functions.
From S2P Require Import Prelude Budget Instant Crypto Rand Tags Packet Session RateLimiter Amnezia Framing.
From S2P Require Import Handshake Imitation Timers OpReport Tunn TunnReceive TunnTick TunnConfig Stun ReplyPolicy.
From S2P Require Import ProbeBudget ProbeReply ImitationHints AllowedIps PeerIndex Peer.

Definition HANDSHAKE_RATE_LIMIT : Z := 100.

(** ** The device *)

Record DeviceConfig := {
  use_connected_socket : bool;
  cfg_obf : ObfuscationRanges;
  cfg_amnezia : AmneziaConfig;
  probe_reply_bytes_per_sec : option Z;
}.

Record Device (R : Type) `{NetworkTable} := {
  key_pair : option (bytes * bytes);
  store : gmap nat (Peer R);
  next_location : nat;
  peers : gmap bytes nat;
  peers_by_ip : Table nat;
  peers_by_idx : gmap Z nat;
  index_lfsr : IndexLfsr;
  config : DeviceConfig;
  device_mtu : Z;
  device_limiter : option RateLimiter;
  probe_responder : option ProbeResponder;
  imitation_hints : Pending;
}.
Arguments key_pair {R _} d.
Arguments store {R _} d.
Arguments next_location {R _} d.
Arguments peers {R _} d.
Arguments peers_by_ip {R _} d.
Arguments peers_by_idx {R _} d.
Arguments index_lfsr {R _} d.
Arguments config {R _} d.
Arguments device_mtu {R _} d.
Arguments device_limiter {R _} d.
Arguments probe_responder {R _} d.
Arguments imitation_hints {R _} d.

Inductive DeviceError := KeyNotSet | PeerSetup (e : ConfigError).

(** A prefix as the configuration gives it. *)
Record AllowedIP := { aip_addr : IpAddr; aip_cidr : Z }.

Section Device.
Context `{Crypto} {R : Type} `{RngCore R} `{PrefixFillers R} `{ImitationEnv} `{NetworkTable}.
Implicit Types d : Device R.

Definition set_key_pair k d : Device R := {|
  key_pair := k; store := store d; next_location := next_location d; peers := peers d; peers_by_ip := peers_by_ip d;
  peers_by_idx := peers_by_idx d; index_lfsr := index_lfsr d; config := config d; device_mtu := device_mtu d; device_limiter := device_limiter d;
  probe_responder := probe_responder d; imitation_hints := imitation_hints d |}.
Definition set_store s d : Device R := {|
  key_pair := key_pair d; store := s; next_location := next_location d; peers := peers d; peers_by_ip := peers_by_ip d;
  peers_by_idx := peers_by_idx d; index_lfsr := index_lfsr d; config := config d; device_mtu := device_mtu d; device_limiter := device_limiter d;
  probe_responder := probe_responder d; imitation_hints := imitation_hints d |}.
Definition set_tables ps ips idx d : Device R := {|
  key_pair := key_pair d; store := store d; next_location := next_location d; peers := ps; peers_by_ip := ips;
  peers_by_idx := idx; index_lfsr := index_lfsr d; config := config d; device_mtu := device_mtu d; device_limiter := device_limiter d;
  probe_responder := probe_responder d; imitation_hints := imitation_hints d |}.
Definition set_lfsr l d : Device R := {|
  key_pair := key_pair d; store := store d; next_location := next_location d; peers := peers d; peers_by_ip := peers_by_ip d;
  peers_by_idx := peers_by_idx d; index_lfsr := l; config := config d; device_mtu := device_mtu d; device_limiter := device_limiter d;
  probe_responder := probe_responder d; imitation_hints := imitation_hints d |}.
Definition set_config c d : Device R := {|
  key_pair := key_pair d; store := store d; next_location := next_location d; peers := peers d; peers_by_ip := peers_by_ip d;
  peers_by_idx := peers_by_idx d; index_lfsr := index_lfsr d; config := c; device_mtu := device_mtu d; device_limiter := device_limiter d;
  probe_responder := probe_responder d; imitation_hints := imitation_hints d |}.
Definition set_device_limiter l d : Device R := {|
  key_pair := key_pair d; store := store d; next_location := next_location d; peers := peers d; peers_by_ip := peers_by_ip d;
  peers_by_idx := peers_by_idx d; index_lfsr := index_lfsr d; config := config d; device_mtu := device_mtu d; device_limiter := l;
  probe_responder := probe_responder d; imitation_hints := imitation_hints d |}.
Definition set_device_mtu mtu d : Device R := {|
  key_pair := key_pair d; store := store d; next_location := next_location d; peers := peers d; peers_by_ip := peers_by_ip d;
  peers_by_idx := peers_by_idx d; index_lfsr := index_lfsr d; config := config d; device_mtu := mtu; device_limiter := device_limiter d;
  probe_responder := probe_responder d; imitation_hints := imitation_hints d |}.
Definition set_responder r d : Device R := {|
  key_pair := key_pair d; store := store d; next_location := next_location d; peers := peers d; peers_by_ip := peers_by_ip d;
  peers_by_idx := peers_by_idx d; index_lfsr := index_lfsr d; config := config d; device_mtu := device_mtu d; device_limiter := device_limiter d;
  probe_responder := r; imitation_hints := imitation_hints d |}.
Definition set_hints h d : Device R := {|
  key_pair := key_pair d; store := store d; next_location := next_location d; peers := peers d; peers_by_ip := peers_by_ip d;
  peers_by_idx := peers_by_idx d; index_lfsr := index_lfsr d; config := config d; device_mtu := device_mtu d; device_limiter := device_limiter d;
  probe_responder := probe_responder d; imitation_hints := h |}.

(** A new device on an interface of [mtu] bytes, with the register given. *)
Definition device_new (lfsr : IndexLfsr) (mtu : Z) (c : DeviceConfig) : Device R :=
  let c := {| use_connected_socket := use_connected_socket c; cfg_obf := cfg_obf c;
    cfg_amnezia := set_mtu (Z.min mtu u16_max) (cfg_amnezia c); probe_reply_bytes_per_sec := probe_reply_bytes_per_sec c |} in
  let responder := match probe_reply_bytes_per_sec c with
    | Some rate => if 0 <? rate then Some (responder_new rate) else None | None => None end in
  {| key_pair := None; store := ∅; next_location := 0; peers := ∅; peers_by_ip := allowed_ips_new; peers_by_idx := ∅;
     index_lfsr := lfsr; config := c; device_mtu := mtu; device_limiter := None; probe_responder := responder; imitation_hints := pending_default |}.

(** [Arc::new(Mutex::new(peer))] *)
Definition alloc (p : Peer R) d : nat * Device R :=
  (next_location d, {|
  key_pair := key_pair d; store := <[next_location d := p]> (store d); next_location := S (next_location d); peers := peers d;
  peers_by_ip := peers_by_ip d; peers_by_idx := peers_by_idx d; index_lfsr := index_lfsr d; config := config d; device_mtu := device_mtu d;
  device_limiter := device_limiter d; probe_responder := probe_responder d; imitation_hints := imitation_hints d |}).

(** [peer.lock()] and an operation on what is inside. *)
Definition with_peer {A} (l : nat) (f : Peer R -> outcome (A * Peer R)) d : outcome (A * Device R) :=
  match store d !! l with
  | None => Panic
  | Some p => let! (a, p) := f p in Ret (a, set_store (<[l := p]> (store d)) d)
  end.

(** The tunnel with the limiter all share. *)
Definition share_limiter (l : option RateLimiter) (t : Tunn R) : Tunn R :=
  match l with Some l => set_rate_limiter l t | None => t end.

(** The same, with the limiter all share in the tunnel. *)
Definition with_shared {A} (l : nat) (f : Peer R -> outcome (A * Peer R)) d : outcome (A * Device R) :=
  match store d !! l with
  | None => Panic
  | Some p =>
      let! (a, p) := f (set_tunnel (share_limiter (device_limiter d) (tunnel p)) p) in
      Ret (a, set_device_limiter ((fun _ => rate_limiter (tunnel p)) <$> device_limiter d) (set_store (<[l := p]> (store d)) d))
  end.
Definition on_peer {A} (l : nat) (m : M R A) d : outcome (A * Device R) := with_shared l (on_tunnel m) d.

Definition device_next_index d : outcome (Z * Device R) :=
  let! (i, l) := lfsr_next (index_lfsr d) in Ret (i, set_lfsr l d).

Definition remove_peer (pub_key : bytes) d : outcome (Device R) :=
  match peers d !! pub_key with
  | None => Ret d
  | Some l =>
      match store d !! l with
      | None => Panic
      | Some p =>
          let d := set_hints (hints_clear (imitation_hints d)) d in
          let d := set_store (<[l := shutdown_endpoint p]> (store d)) d in
          Ret (set_tables (delete pub_key (peers d)) (allowed_ips_remove (fun x => bool_decide (x = l)) (peers_by_ip d))
                 (delete (peer_index p) (peers_by_idx d)) d)
      end
  end.

Definition index_owns (index : Table nat) (l : nat) (addr : IpAddr) : bool :=
  match allowed_ips_find addr index with Some found => bool_decide (found = l) | None => false end.
Definition index_prefixes (index : Table nat) (l : nat) : list (IpAddr * Z) :=
  map (fun '(_, addr, cidr) => (addr, cidr)) (filter (fun e => fst (fst e) = l) (allowed_ips_iter index)).

Definition peer_owns (l : nat) (addr : IpAddr) d : bool := index_owns (peers_by_ip d) l addr.
Definition peer_allowed_ips (l : nat) d : list (IpAddr * Z) := index_prefixes (peers_by_ip d) l.

Definition set_by_ip ips d : Device R := set_tables (peers d) ips (peers_by_idx d) d.

(** The part of [merge_peer] under the peer's lock. *)
Definition merge_fields (endpoint : option SocketAddr) (keepalive : option (Z * Z)) (psk : option bytes) (p : Peer R) : outcome (Peer R) :=
  let! p := match endpoint with
    | None => Ret p
    | Some addr =>
        let addr := canonical_endpoint addr in
        let! p := (if bool_decide (ep_addr (peer_endpoint p) = Some addr) then Ret p
                   else let! (_, p) := on_tunnel discard_imitation_hint p in Ret p) in
        set_endpoint addr p
    end in
  let! p := match keepalive with None => Ret p | Some range => peer_set_persistent_keepalive_range range p end in
  match psk with None => Ret p | Some _ => peer_set_preshared_key psk p end.

Definition with_owner (l : nat) (ps : list (IpAddr * Z)) : list (IpAddr * Z * nat) := map (fun '(a, c) => (a, c, l)) ps.
Definition prefix_pairs (ips : list AllowedIP) : list (IpAddr * Z) := map (fun x => (aip_addr x, aip_cidr x)) ips.

Definition merge_peer (l : nat) (replace_ips : bool) (endpoint : option SocketAddr) (allowed_ips : list AllowedIP)
    (keepalive : option (Z * Z)) (psk : option bytes) d : outcome (Device R) :=
  let! (_, d) := with_peer l (fun p => let! p := merge_fields endpoint keepalive psk p in Ret (tt, p)) d in
  if replace_ips || negb (bool_decide (allowed_ips = [])) then
    let prefixes := (if replace_ips then [] else peer_allowed_ips l d) ++ prefix_pairs allowed_ips in
    let! ips := insert_all (with_owner l prefixes) (allowed_ips_remove (fun x => bool_decide (x = l)) (peers_by_ip d)) in
    Ret (set_by_ip ips d)
  else Ret d.

Definition require_key_pair (k : option (bytes * bytes)) : result DeviceError (bytes * bytes) :=
  match k with Some k => Ok k | None => Err KeyNotSet end.

Definition update_peer (now : Z) (seed : TunnSeed (R := R)) (pub_key : bytes) (remove replace_ips : bool) (endpoint : option SocketAddr)
    (allowed_ips : list AllowedIP) (keepalive : option (Z * Z)) (psk : option bytes) d : outcome (result DeviceError unit * Device R) :=
  if remove then let! d := remove_peer pub_key d in Ret (Ok tt, d) else
  match peers d !! pub_key with
  | Some l => let! d := merge_peer l replace_ips endpoint allowed_ips keepalive psk d in Ret (Ok tt, d)
  | None =>
      let! (next_index, d) := device_next_index d in
      match require_key_pair (key_pair d) with
      | Err e => Ret (Err e, d)
      | Ok (private, _) =>
          let lo := match keepalive with Some (lo, _) => if 0 <? lo then Some lo else None | None => None end in
          match tunn_new now seed private pub_key psk lo next_index (device_limiter d) (cfg_obf (config d)) (cfg_amnezia (config d)) with
          | Err e => Ret (Err (PeerSetup e), d)
          | Ok tunn =>
              let p := peer_new tunn next_index endpoint psk in
              let! p := match keepalive with None => Ret p | Some range => peer_set_persistent_keepalive_range range p end in
              let '(l, d) := alloc p d in
              let! ips := insert_all (with_owner l (prefix_pairs allowed_ips)) (peers_by_ip d) in
              Ret (Ok tt, set_tables (<[pub_key := l]> (peers d)) ips (<[next_index := l]> (peers_by_idx d)) d)
          end
      end
  end.

(** [for peer in self.peers.values_mut()]; the peers do not interact, so the
    order of the table does not matter. *)
Fixpoint for_peers (ls : list nat) (f : Peer R -> outcome (Peer R)) d : outcome (Device R) :=
  match ls with
  | [] => Ret d
  | l :: ls => let! (_, d) := with_peer l (fun p => let! p := f p in Ret (tt, p)) d in for_peers ls f d
  end.
Definition locations d : list nat := (map_to_list (peers d)).*2.

Definition set_key (now : Z) (seed : LimiterSeed) (private_key : bytes) d : outcome (Device R) :=
  let public_key := x25519_public private_key in
  if bool_decide ((snd <$> key_pair d) = Some public_key) then Ret d else
  let limiter := limiter_new seed public_key HANDSHAKE_RATE_LIMIT now in
  let! d := for_peers (locations d) (fun p =>
    let! (_, p) := on_tunnel (set_static_private now seed private_key public_key (Some limiter)) p in Ret p) d in
  Ret (set_device_limiter (Some limiter) (set_hints (hints_clear (imitation_hints d)) (set_key_pair (Some (private_key, public_key)) d))).

Definition device_set_obfuscation (obf : ObfuscationRanges) (c : AmneziaConfig) d : outcome (bool * Device R) :=
  if bool_decide (cfg_obf (config d) = obf) && bool_decide (cfg_amnezia (config d) = c) then Ret (false, d) else
  let d := set_config {| use_connected_socket := use_connected_socket (config d); cfg_obf := obf; cfg_amnezia := c;
    probe_reply_bytes_per_sec := probe_reply_bytes_per_sec (config d) |} d in
  let d := set_hints (hints_clear (imitation_hints d)) d in
  let! d := for_peers (locations d) (fun p => let! (_, p) := on_tunnel (set_obfuscation obf c) p in Ret p) d in
  Ret (true, d).

(** The once-a-second look at the interface's MTU ([register_mtu_monitor]);
    [writeable] is whether the device's lock could be upgraded. *)
Definition refresh_mtu (mtu : Z) (writeable : bool) d : outcome (Device R) :=
  let d := set_device_mtu mtu d in
  let mtu := Z.min mtu u16_max in
  if (content_padding_mtu (cfg_amnezia (config d)) =? mtu) || negb writeable then Ret d else
  let c := config d in
  let d := set_config {| use_connected_socket := use_connected_socket c; cfg_obf := cfg_obf c; cfg_amnezia := set_mtu mtu (cfg_amnezia c);
    probe_reply_bytes_per_sec := probe_reply_bytes_per_sec c |} d in
  for_peers (locations d) (fun p => let! (_, p) := on_tunnel (set_content_padding_mtu mtu) p in Ret p) d.

Definition clear_peers d : outcome (Device R) :=
  let d := set_hints (hints_clear (imitation_hints d)) d in
  let! d := for_peers (locations d) (fun p => Ret (shutdown_endpoint p)) d in
  Ret (set_tables ∅ (allowed_ips_clear (peers_by_ip d)) ∅ d).
End Device.
