(* ===== verification/DeviceData.v ===== *)
(** The device's data path, [device/mod.rs]: the handlers of the listening
    sockets, of a peer's connected socket, of the interface and of the timers.

    A handler is a function from the device, and what it reads of the outside,
    to the device after it and the datagrams and packets it writes ([Effect]).
    A handler's batch is a sequence of these: the device's lock lets other
    handlers in between, and the peer's lock is held throughout one. What a
    call of a tunnel reads beside the tunnel -- the time, the ephemeral key it
    draws and the buffer it writes to -- is a [Call]; a handler takes one per
    call, so that time may pass between them. The loop that flushes a peer's
    queue has fuel, and is shown to end ([flush_ends]).

    Whether the operating system opens a connected socket and accepts its
    handler is an argument ([Upgrade]); the diagnostics of a send
    ([device/udp_diagnostics.rs]) do not touch the tunnel. The IPv4 listener is
    bound before any handler runs ([DeviceHandle::start_device]); whether there
    is an IPv6 one is an argument. *)

From stdpp Require Import gmap functions.
From S2P Require Import Prelude Budget Instant Crypto Rand Tags Packet Session RateLimiter Amnezia Framing.
From S2P Require Import Handshake Imitation Inbound Timers OpReport Tunn TunnReceive TunnTick TunnConfig Stun ReplyPolicy.
From S2P Require Import ProbeBudget ProbeReply ImitationHints AllowedIps PeerIndex Peer Device.

Definition MAX_UDP_SIZE : Z := 65535.

(** What one call of a tunnel reads. *)
Record Call := {
  call_now : Z;
  call_eph : bytes;
  call_dst : bytes;
}.

(** A datagram leaves by a listener, named by its family, or by a peer's
    connected socket. *)
Inductive Effect :=
| SendTo (v6 : bool) (to : SocketAddr) (datagram : bytes)
| SendConnected (socket : nat) (datagram : bytes)
| WriteTun (packet : bytes)
| Register (peer socket : nat) (endpoint : SocketAddr) (lifetime : nat).

(** The outcome of opening and of registering a connected socket. *)
Record Upgrade := {
  up_opened : result Z nat;
  up_registered : bool;
  up_lifetime : nat;
}.

(** [is_upgrade_exhaustion]: ENFILE, EMFILE, ENOMEM, ENOBUFS. *)
Definition is_upgrade_exhaustion (errno : Z) : bool := (errno =? 23) || (errno =? 24) || (errno =? 12) || (errno =? 105).

Definition moves_endpoint (packet : Authenticated) : bool := OpReport.moves_endpoint (authenticated_kind packet).

(** The worker's generators, and the latch of each family's listener: set once
    a connected socket could not be had for want of resources. *)
Record Thread (R : Type) := {
  junk_rng : R;
  probe_rng : R;
  conn_upgrade_disabled4 : bool;
  conn_upgrade_disabled6 : bool;
}.
Arguments junk_rng {R} t.
Arguments probe_rng {R} t.
Arguments conn_upgrade_disabled4 {R} t.
Arguments conn_upgrade_disabled6 {R} t.

Section Data.
Context `{Crypto} {R : Type} `{RngCore R} `{PrefixFillers R} `{ImitationEnv} `{NetworkTable}.
Implicit Types (d : Device R) (p : Peer R) (th : Thread R).

Definition set_junk_rng r th : Thread R := {| junk_rng := r; probe_rng := probe_rng th;
  conn_upgrade_disabled4 := conn_upgrade_disabled4 th; conn_upgrade_disabled6 := conn_upgrade_disabled6 th |}.
Definition set_probe_rng r th : Thread R := {| junk_rng := junk_rng th; probe_rng := r;
  conn_upgrade_disabled4 := conn_upgrade_disabled4 th; conn_upgrade_disabled6 := conn_upgrade_disabled6 th |}.
Definition conn_upgrade_disabled (v6 : bool) th : bool := if v6 then conn_upgrade_disabled6 th else conn_upgrade_disabled4 th.
Definition disable_upgrades (v6 : bool) th : Thread R := {| junk_rng := junk_rng th; probe_rng := probe_rng th;
  conn_upgrade_disabled4 := conn_upgrade_disabled4 th || negb v6; conn_upgrade_disabled6 := conn_upgrade_disabled6 th || v6 |}.

(** ** Demultiplexing *)

(** The peer a packet names. *)
Definition find_peer (private_key public_key : bytes) (packet : Packet) d : outcome (result WireGuardError nat) :=
  let by_index receiver_idx := Ret (match peers_by_idx d !! Z.shiftr receiver_idx 8 with Some l => Ok l | None => Err WrongIndex end) in
  match packet with
  | PHandshakeInit p =>
      let! r := parse_handshake_anon private_key public_key p in
      Ret (match r with
           | Ok hh => match peers d !! hh_peer_static_public hh with Some l => Ok l | None => Err WrongKey end
           | Err _ => Err WrongKey
           end)
  | PHandshakeResponse p => by_index (hr_receiver_idx p)
  | PPacketCookieReply p => by_index (cr_receiver_idx p)
  | PPacketData p => by_index (pd_receiver_idx p)
  end.

(** The location of the peer, the packet to commit, and the tunnel whose replay
    window an accepted transport packet has marked. *)
Definition authenticate_anonymous (now : Z) (private_key public_key : bytes) (dst_len : Z) d (packet : Packet)
    : outcome (result WireGuardError (nat * Authenticated * Tunn R)) :=
  let! found := find_peer private_key public_key packet d in
  match found with
  | Err e => Ret (Err e)
  | Ok l =>
      match store d !! l with
      | None => Panic
      | Some p =>
          let! r := authenticate_with_budget now (tunnel p) dst_len UNBOUNDED packet in
          Ret (let? accepted := r in Ok (l, fst accepted, snd accepted))
      end
  end.

Definition commit_anonymous (c : Call) (packet : Authenticated) (from : SocketAddr) (datagram : bytes)
    (hint : option AmneziaImitationProtocol) p : outcome (TunnResult * Peer R) :=
  let moves := moves_endpoint packet in
  let! (replaced, p) :=
    (if moves && negb (bool_decide (ep_addr (peer_endpoint p) = Some from))
     then let! (w, p) := on_tunnel begin_new_path p in Ret (Some w, p) else Ret (None, p)) in
  let! (result, p) := on_tunnel (commit_with_imitation_and_budget (call_eph c) packet datagram hint (call_dst c) UNBOUNDED) p in
  let committed := negb (is_terr result) in
  let! (_, p) := match replaced with
    | None => Ret (tt, p)
    | Some window => on_tunnel (if committed then discard_imitation_hint else restore_udp_window window) p
    end in
  let! p := (if moves && committed then adopt_endpoint from p else Ret p) in
  Ret (result, p).

Definition receive_on_connection (c : Call) (from : SocketAddr) (datagram : bytes) : M R TunnResult :=
  if len datagram =? 0 then mreturn Done
  else decapsulate_from (call_now c) (call_eph c) (Some from) datagram (call_dst c).

(** ** Writing out *)

(** [while let WriteToNetwork(packet) = tunnel.decapsulate(None, &[], dst)];
    [None] when the fuel runs out. *)
Fixpoint flush (fuel : nat) (calls : nat -> Call) : M R (option (list bytes)) :=
  match fuel with
  | O => mreturn None
  | S fuel =>
      let c := calls O in
      let* r := decapsulate (call_now c) (call_eph c) None [] (call_dst c) in
      match r with
      | WriteToNetwork packet =>
          let* rest := flush fuel (fun n => calls (S n)) in mreturn (cons packet <$> rest)
      | _ => mreturn (Some [])
      end
  end.

(** An inner packet reaches the interface only from the peer its source address
    routes to. *)
Definition deliver (l : nat) (packet : bytes) (addr : IpAddr) d : list Effect :=
  if peer_owns l addr d then [WriteTun packet] else [].

(** The effects of a tunnel's result, and whether to flush. *)
Definition dispatch (l : nat) (send : bytes -> Effect) (r : TunnResult) d : list Effect * bool :=
  match r with
  | WriteToNetwork packet => ([send packet], true)
  | WriteToTunnelV4 packet addr => (deliver l packet (V4 addr) d, false)
  | WriteToTunnelV6 packet addr => (deliver l packet (V6 addr) d, false)
  | Done | TErr _ => ([], false)
  end.

Definition flush_to (fuel : nat) (calls : nat -> Call) (l : nat) (send : bytes -> Effect) (go : bool) d
    : outcome (option (list Effect) * Device R) :=
  if go then let! (ps, d) := on_peer l (flush fuel calls) d in Ret (map send <$> ps, d) else Ret (Some [], d).

(** ** The listening sockets *)

(** Opening a connected socket for the peer of an accepted packet. *)
Definition upgrade (up : Upgrade) (v6 : bool) (l : nat) (from : SocketAddr) d th : outcome (list Effect * Device R * Thread R) :=
  match store d !! l with
  | None => Panic
  | Some p =>
      let keep p := set_store (<[l := p]> (store d)) d in
      if negb (use_connected_socket (config d)) || conn_upgrade_disabled v6 th || upgrade_suppressed p then Ret ([], d, th) else
      match connect_endpoint (up_opened up) p with
      | (Err (ErrOs errno), p) =>
          if is_upgrade_exhaustion errno then Ret ([], keep p, disable_upgrades v6 th)
          else Ret ([], keep (snd (suppress_upgrade p)), th)
      | (Err _, p) => Ret ([], keep p, th)
      | (Ok socket, p) =>
          let p := commit_connection_lifetime (up_lifetime up) p in
          let connected := from_option id from (ep_addr (peer_endpoint p)) in
          if up_registered up then Ret ([Register l socket connected (up_lifetime up)], keep p, th)
          else Ret ([], keep (set_peer_endpoint {| ep_addr := ep_addr (peer_endpoint p); ep_conn := None |} p), disable_upgrades v6 th)
      end
  end.

(** A datagram the limiter wants a cookie for. *)
Definition listen_cookie (c : Call) (v6 : bool) (from : SocketAddr) (datagram : bytes) (demand : CookieDemand) (limiter : RateLimiter)
    (os_rng : R) d th : outcome (list Effect * Device R * Thread R) :=
  let amnezia := cfg_amnezia (config d) in
  let obf := cfg_obf (config d) in
  let '(r, limiter, _) := format_cookie_demand obf demand (len (call_dst c)) limiter os_rng in
  let d := set_device_limiter (Some limiter) d in
  match r with
  | Err _ => Ret ([], d, th)
  | Ok cookie =>
      match cookie_verdict from (len datagram) (cookie_reply_len amnezia (len cookie)) with
      | CvSend =>
          let! (cfg, hints) := cookie_config (call_now c) amnezia from datagram (imitation_hints d) in
          let d := set_hints hints d in
          let '(out, junk) := prepend_outbound_with_trailer cfg obf (in_buffer cookie (call_dst c)) (len cookie)
                                (Some (trailer_cookie_reply (len datagram))) (junk_rng th) in
          let th := set_junk_rng junk th in
          match out with
          | Ok out => Ret (if reply_amplifies (len datagram) (len out) then [] else [SendTo v6 from out], d, th)
          | Err _ => Ret ([], d, th)
          end
      | RefusedSource | WouldAmplify => Ret ([], d, th)
      end
  end.

Definition is_auto_initiation (packet : Authenticated) d : bool :=
  bool_decide (protocol (imitation (cfg_amnezia (config d))) = ProtoAuto) && is_auth_init packet.

(** A datagram a peer authenticated. *)
Definition listen_accepted (fuel : nat) (calls : nat -> Call) (up : Upgrade) (v6 : bool) (from : SocketAddr) (datagram : bytes)
    (l : nat) (packet : Authenticated) d th : outcome (option (list Effect) * Device R * Thread R) :=
  let c := calls O in
  let auto_initiation := is_auto_initiation packet d in
  let! (hint, d) :=
    (if auto_initiation
     then let! (got, hints) := hints_get (call_now c) from (imitation_hints d) in Ret (got, set_hints hints d)
     else Ret (None, d)) in
  let! (r, d) := with_shared l (commit_anonymous c packet from datagram hint) d in
  if is_terr r then Ret (Some [], d, th) else
  let '(out, go) := dispatch l (SendTo v6 from) r d in
  let learned := match store d !! l with Some p => negb (bool_decide (imitation_protocol (tunnel p) = ProtoNone)) | None => false end in
  let d := if auto_initiation && learned then set_hints (discard from (imitation_hints d)) d else d in
  let! (flushed, d) := flush_to fuel (fun n => calls (S n)) l (SendTo v6 from) go d in
  if negb (moves_endpoint packet) then Ret (app out <$> flushed, d, th) else
  let! (opened, d, th) := upgrade up v6 l from d th in
  Ret ((fun fl => out ++ fl ++ opened) <$> flushed, d, th).

(** What the readings of a datagram came to. *)
Definition listen_received (fuel : nat) (calls : nat -> Call) (os_rng : R) (up : Upgrade) (v6 : bool) (from : SocketAddr) (datagram : bytes)
    (r : Inbound (nat * Authenticated * Tunn R)) (limiter : RateLimiter) d th : outcome (option (list Effect) * Device R * Thread R) :=
  let c := calls O in
  match r with
  | Accepted (l, packet, t) =>
      match store d !! l with
      | None => Panic
      | Some p =>
          listen_accepted fuel (fun n => calls (S n)) up v6 from datagram l packet (set_store (<[l := set_tunnel t p]> (store d)) d) th
      end
  | Cookie demand =>
      let! (out, d, th) := listen_cookie c v6 from datagram demand limiter os_rng d th in Ret (Some out, d, th)
  | Refused refusal =>
      if refusal_allows_hint refusal then
        let! hints := observe_refused (call_now c) datagram (cfg_amnezia (config d)) from (imitation_hints d) in Ret (Some [], set_hints hints d, th)
      else Ret (Some [], d, th)
  | NotOurs => Ret (Some [], d, th)
  end.

(** One datagram on a listening socket. *)
Definition listen (fuel : nat) (calls : nat -> Call) (millis : Z) (os_rng : R) (up : Upgrade) (v6 : bool) (from : SocketAddr)
    (datagram : bytes) d th : outcome (option (list Effect) * Device R * Thread R) :=
  match key_pair d, device_limiter d with
  | Some (private_key, public_key), Some limiter =>
      let amnezia := cfg_amnezia (config d) in
      let obf := cfg_obf (config d) in
      let c := calls O in
      let! (ingress, responder, rng, hints) :=
        hints_classify (call_now c) millis datagram amnezia obf from (probe_responder d) (probe_rng th) (imitation_hints d) in
      let d := set_hints hints (set_responder responder d) in
      let th := set_probe_rng rng th in
      match ingress with
      | Reply reply => Ret (Some [SendTo v6 from reply], d, th)
      | Dropped => Ret (Some [], d, th)
      | Wireguard candidates =>
          let! (r, limiter) := receive (call_now c) amnezia obf (Some (RateLimiter.Endpoint (fst from) (snd from))) datagram
            (authenticate_anonymous (call_now c) private_key public_key (len (call_dst c)) d) candidates limiter in
          listen_received fuel calls os_rng up v6 from datagram r limiter (set_device_limiter (Some limiter) d) th
      end
  | _, _ => Ret (Some [], d, th)
  end.

(** ** A peer's connected socket *)

(** One datagram on the socket committed as [lifetime] to [endpoint]; [false]
    when the peer has moved on and the batch ends. *)
Definition connected (fuel : nat) (calls : nat -> Call) (l socket : nat) (endpoint : SocketAddr) (lifetime : nat) (datagram : bytes) d
    : outcome (option (list Effect) * bool * Device R) :=
  match store d !! l with
  | None => Panic
  | Some p =>
      if negb (is_current_connection lifetime endpoint p) then Ret (Some [], false, d) else
      let! (r, d) := on_peer l (receive_on_connection (calls O) endpoint datagram) d in
      let '(out, go) := dispatch l (SendConnected socket) r d in
      let! (flushed, d) := flush_to fuel (fun n => calls (S n)) l (SendConnected socket) go d in
      Ret (app out <$> flushed, true, d)
  end.

(** ** The interface and the timers *)

Definition is_v6 (addr : SocketAddr) : bool := match fst addr with V6 _ => true | V4 _ => false end.

(** [listener_send_to_attempt]: no listener, no datagram. *)
Definition send_listener (udp6 : bool) (to : SocketAddr) (packet : bytes) : list Effect :=
  if is_v6 to && negb udp6 then [] else [SendTo (is_v6 to) to packet].

Definition tun_send_step (udp6 : bool) (packet : bytes) p : list Effect :=
  match ep_conn (peer_endpoint p), ep_addr (peer_endpoint p) with
  | Some socket, _ => [SendConnected socket packet]
  | None, Some addr => send_listener udp6 addr packet
  | None, None => []
  end.

(** One packet read from the interface. *)
Definition tun_packet (c : Call) (udp6 : bool) (src : bytes) d : outcome (list Effect * Device R) :=
  match dst_address src with
  | None => Ret ([], d)
  | Some addr =>
      match allowed_ips_find addr (peers_by_ip d) with
      | None => Ret ([], d)
      | Some l =>
          let! (r, d) := on_peer l (encapsulate (call_now c) (call_eph c) src (call_dst c)) d in
          match r, store d !! l with
          | WriteToNetwork packet, Some p => Ret (tun_send_step udp6 packet p, d)
          | _, _ => Ret ([], d)
          end
      end
  end.

(** The timers of one peer. *)
Definition tick_peer (c : Call) (udp6 : bool) (l : nat) d : outcome (list Effect * Device R) :=
  match store d !! l with
  | None => Panic
  | Some p =>
      match ep_addr (peer_endpoint p) with
      | None => Ret ([], d)
      | Some addr =>
          let! (r, d) := on_peer l (update_timers (call_now c) (call_eph c) (call_dst c)) d in
          match r with
          | TErr ConnectionExpired => let! (_, d) := with_peer l (fun p => Ret (tt, shutdown_endpoint p)) d in Ret ([], d)
          | WriteToNetwork packet => Ret (send_listener udp6 addr packet, d)
          | _ => Ret ([], d)
          end
      end
  end.

Fixpoint tick_peers (calls : nat -> Call) (udp6 : bool) (ls : list nat) d : outcome (list Effect * Device R) :=
  match ls with
  | [] => Ret ([], d)
  | l :: ls =>
      let! (out, d) := tick_peer (calls O) udp6 l d in
      let! (rest, d) := tick_peers (fun n => calls (S n)) udp6 ls d in
      Ret (out ++ rest, d)
  end.
Definition tick (calls : nat -> Call) (udp6 : bool) d : outcome (list Effect * Device R) := tick_peers calls udp6 (locations d) d.

Definition reset_limiter (now : Z) d : Device R := set_device_limiter (reset_count now <$> device_limiter d) d.
End Data.
