(* ===== verification/TunnSystem.v ===== *)
(** The tunnel as a whole: construction and reconfiguration keep the invariant,
    and so does every sequence of calls of its public interface, which never
    panics and never emits a datagram that does not fit. *)

From stdpp Require Import functions.
From S2P Require Import Prelude Budget Instant Crypto Rand Tags Packet Replay Session RateLimiter HeaderProtection.
From S2P Require Import Amnezia Framing Handshake Imitation Inbound Timers OpReport Tunn TunnReceive TunnTick TunnConfig.
From S2P Require Import TunnLogic TunnOutput TunnSend TunnInput TunnPoll.

Section System.
Context `{Crypto} `{!CryptoLaws} {R : Type} `{RngCore R} `{!RngLaws R} `{PrefixFillers R} `{!FillerLaws R} `{ImitationEnv} `{!ImitationLaws}.
Implicit Types t : Tunn R.

(** ** Construction *)

Lemma timers_new_ok now keepalive reset_rr (rng : R) : timers_ok (timers_new now keepalive reset_rr rng).
Proof. split; [done|done|]. by repeat (apply List.Forall_cons; [done|]). Qed.

Lemma ring_empty_ok : ring_ok (zreplicate N_SESSIONS None).
Proof.
  split; [done|]. intros i s Hg. exfalso. unfold zget, zreplicate in Hg. destruct (_ <? 0); [done|].
  apply lookup_replicate_1 in Hg as [? _]. done.
Qed.

Lemma tunn_new_ok now seed private peer psk keepalive index limiter obf c t :
  obf_ok obf -> config_ok c ->
  tunn_new now seed private peer psk keepalive index limiter obf c = Ok t -> tunn_ok t.
Proof.
  intros Ho Hc. unfold tunn_new. destruct (check_header_protection_nonce c) as [[]|e] eqn:Hn; [|done].
  intros [= <-]. split; try done.
  - apply handshake_new_ok; [done|]. cbn. unfold in_u32, wrap32, u32_max. pose proof (Z.mod_pos_bound (Z.shiftl index 8) (2 ^ 32) eq_refl). lia.
  - apply ring_empty_ok.
  - apply timers_new_ok.
Qed.

(** ** Reconfiguration *)

(** Who a tunnel is, and how it frames its traffic. *)
Definition identity t : bytes * bytes * bytes :=
  let p := hs_params (handshake t) in (static_private p, static_public p, peer_static_public p).
Definition tunn_framing t : AmneziaConfig * ObfuscationRanges := (amnezia t, hs_obf (handshake t)).

(** What reconfiguring leaves alone: the traffic state. *)
Record reconfigured t t' : Prop := {
  rc_ok : tunn_ok t -> tunn_ok t';
  rc_queue : packet_queue t' = packet_queue t;
  rc_current : current t' = current t;
  rc_state : hs_state (handshake t') = hs_state (handshake t);
  rc_slots : session_timers (tunn_timers t') = session_timers (tunn_timers t);
}.
#[export] Instance reconfigured_preorder : PreOrder reconfigured.
Proof. split; [by split|]. intros a b c [] []. split; try congruence; auto. Qed.

Lemma reconfigured_timers tm t :
  (timers_ok (tunn_timers t) -> timers_ok tm) -> session_timers tm = session_timers (tunn_timers t) ->
  reconfigured t (set_tunn_timers tm t).
Proof. intros Hok Ht. split; try done. intros []. split; try done. by apply Hok. Qed.
Lemma reconfigured_rng r t : reconfigured t (set_handshake (set_rng r (handshake t)) t).
Proof. split; try done. intros []. split; try done. by apply hs_ok_rng. Qed.
Lemma reconfigured_handshake h t :
  (hs_ok (handshake t) -> hs_ok h) -> hs_state h = hs_state (handshake t) -> reconfigured t (set_handshake h t).
Proof. intros Hh Hs. split; try done. intros []. split; try done. by apply Hh. Qed.
Lemma reconfigured_auto_set a t : reconfigured t (set_auto_imitation a t).
Proof. split; try done. intros []. by split. Qed.
Lemma reconfigured_limiter l t : reconfigured t (set_rate_limiter l t).
Proof. split; try done. intros []. by split. Qed.
Lemma reconfigured_window w t : 0 <= w <= u32_max -> reconfigured t (set_udp_window w t).
Proof. intros Hw. split; try done. intros []. by split. Qed.
Lemma reconfigured_burst p t : burst_ok p -> reconfigured t (set_pending_amnezia_junk p t).
Proof. intros Hp. split; try done. intros []. by split. Qed.
Lemma reconfigured_amnezia c t : config_ok c -> check_header_protection_nonce c = Ok tt -> reconfigured t (set_amnezia c t).
Proof. intros Hc Hn. split; try done. intros []. by split. Qed.

Lemma drop_sessions_wp t :
  wp drop_sessions (fun _ t' => reconfigured t t' /\ sessions t' = zreplicate N_SESSIONS None /\
    identity t' = identity t /\ tunn_framing t' = tunn_framing t) t.
Proof.
  unfold drop_sessions. wp_steps. split; [|done]. split; try done. intros []. split; try done. apply ring_empty_ok.
Qed.

(** A redraw within one configuration. *)
Definition redrawn t t' : Prop :=
  reconfigured t t' /\ sessions t' = sessions t /\ amnezia t' = amnezia t /\ hs_obf (handshake t') = hs_obf (handshake t) /\ identity t' = identity t.
#[export] Instance redrawn_preorder : PreOrder redrawn.
Proof.
  split; [intros t; split; [reflexivity|done]|]. intros a b c (? & ? & ? & ? & ?) (? & ? & ? & ? & ?). split; [by etrans|].
  split_and!; congruence.
Qed.

Lemma retimed_redrawn t t' : retimed t t' -> redrawn t t'.
Proof.
  intros (r & tm & -> & Hs). split; [|done]. etrans; [apply (reconfigured_rng r)|].
  apply reconfigured_timers; [apply (ts_ok _ _ Hs)|apply (ts_slots _ _ Hs)].
Qed.
Lemma redrawn_burst p t : burst_ok p -> redrawn t (set_pending_amnezia_junk p t).
Proof. intros Hp. split; [by apply reconfigured_burst|done]. Qed.

Lemma redraw_wp t : wp redraw_tunable_timers (fun _ t' => redrawn t t') t.
Proof.
  unfold redraw_tunable_timers. wp_steps.
  do 3 (apply draw_wp; let r := fresh "r" in intros r; wp_steps). apply draw_jitter_wp. intros j tm Htm. wp_steps.
  do 3 (apply draw_wp; let r := fresh "r" in intros r; wp_steps). apply draw_jitter_wp. intros j2 tm2 Htm2. wp_steps.
  etrans; [apply retimed_redrawn|split; [apply reconfigured_timers; [intros []; by split|done]|done]].
  etrans; [apply (retimed_rng _ r)|]. etrans; [apply (retimed_rng _ r0)|]. etrans; [apply (retimed_rng _ r1)|].
  etrans; [apply retimed_timers, Htm|]. etrans; [apply (retimed_rng _ r2)|]. etrans; [apply (retimed_rng _ r3)|].
  etrans; [apply (retimed_rng _ r4)|]. apply retimed_timers, Htm2.
Qed.

Lemma restart_burst_wp t : config_ok (amnezia t) -> wp restart_pending_burst (fun _ t' => redrawn t t') t.
Proof.
  intros Hc. unfold restart_pending_burst. wp_steps. destruct (pending_amnezia_junk t) as [p|]; wp_steps; [|reflexivity].
  apply new_burst_wp; [done|]. intros p' r Hp'. wp_steps.
  etrans; [by apply (redrawn_burst None)|]. etrans; [apply retimed_redrawn, (retimed_rng _ r)|]. by apply redrawn_burst.
Qed.

(** Reframing a live tunnel keeps its sessions, its queue and the handshake in
    progress: only the framing, the tunable timers and a pending burst move. *)
Lemma try_set_obfuscation_wp obf c t :
  obf_ok obf -> config_ok c ->
  wp (try_set_obfuscation obf c) (fun r t' => reconfigured t t' /\ sessions t' = sessions t /\
    match r with
    | Ok _ => check_header_protection_nonce c = Ok tt /\ amnezia t' = c /\ hs_obf (handshake t') = obf /\ identity t' = identity t
    | Err e => check_header_protection_nonce c = Err e /\ t' = t
    end) t.
Proof.
  intros Ho Hc. unfold try_set_obfuscation. destruct (check_header_protection_nonce c) as [[]|e] eqn:Hn; wp_steps; [|done].
  unfold apply_obfuscation. wp_steps. set (t1 := set_amnezia c _).
  assert (reconfigured t t1) as H1'.
  { etrans; [apply reconfigured_auto_set|]. etrans; [|by apply reconfigured_amnezia]. apply reconfigured_handshake; [by apply hs_ok_obf|done]. }
  eapply (wp_mono _ (fun _ t2 => redrawn t1 t2)).
  { destruct (pending_burst_change _ _); wp_steps; [reflexivity|by apply restart_burst_wp]. }
  intros _ t2 H2'. wp_steps. eapply (wp_mono _ (fun _ t3 => redrawn t1 t3)).
  { apply wp_if; intros _; wp_steps; [|done]. wp_use redraw_wp. intros _ t3 H3'. by etrans. }
  intros _ t3 (Hr & Hs & Ha & Hob & Hid). wp_steps. split_and!; try done. by etrans.
Qed.

(** A changed pre-shared key discards every session, an equivalent one none. *)
Lemma set_preshared_key_wp psk t :
  wp (set_preshared_key psk) (fun _ t' => reconfigured t t' /\ preshared_key (hs_params (handshake t')) = psk /\
    sessions t' = (if bool_decide (effective_psk (preshared_key (hs_params (handshake t))) = effective_psk psk)
                   then sessions t else zreplicate N_SESSIONS None) /\
    identity t' = identity t /\ tunn_framing t' = tunn_framing t) t.
Proof.
  unfold set_preshared_key. wp_steps. set (t1 := set_handshake _ t).
  assert (reconfigured t t1) as H1' by (apply reconfigured_handshake; [apply hs_ok_psk|done]).
  case_bool_decide as He; wp_steps; [by split_and!|].
  unfold drop_sessions. wp_steps. split; [|done]. split; try done. intros Hok. destruct (rc_ok _ _ H1' Hok). split; try done. apply ring_empty_ok.
Qed.

Lemma set_static_private_wp now seed private limiter t :
  wp (set_static_private now seed private (x25519_public private) limiter)
    (fun _ t' => reconfigured t t' /\ sessions t' = zreplicate N_SESSIONS None /\
       identity t' = (private, x25519_public private, peer_static_public (hs_params (handshake t))) /\ tunn_framing t' = tunn_framing t) t.
Proof.
  unfold set_static_private. wp_steps. apply wp_lift.
  assert (forall h : Handshake R, safely (handshake_set_static_private private (x25519_public private) h)
    (fun h' => (hs_ok h -> hs_ok h') /\ hs_state h' = hs_state h /\ hs_obf h' = hs_obf h /\ static_private (hs_params h') = private /\
       static_public (hs_params h') = x25519_public private /\ peer_static_public (hs_params h') = peer_static_public (hs_params h))) as Hset.
  { intros h. unfold handshake_set_static_private, params_set_static_private. rewrite bool_decide_eq_true_2 by done. cbn.
    split; [|done]. intros [[]]. by split. }
  eapply safely_mono; [apply Hset|]. intros h (Hh & Hst & Hob & Hpr & Hpu & Hpe). wp_steps. set (t1 := set_auto_imitation _ _).
  assert (reconfigured t t1) as H1'.
  { etrans; [|apply reconfigured_auto_set]. etrans; [|by apply reconfigured_handshake]. etrans; [|apply reconfigured_limiter].
    apply reconfigured_timers; [|done]. intros []. by split. }
  wp_use drop_sessions_wp. intros _ t2 (Hr & Hs & Hid & Hfr). split; [by etrans|]. split; [done|].
  rewrite Hid, Hfr. unfold identity, tunn_framing. cbn. by rewrite Hob, Hpr, Hpu, Hpe.
Qed.

Lemma keepalive_timers range (tm : Timers R) : timers_step tm (set_persistent_keepalive_range range tm).
Proof.
  unfold set_persistent_keepalive_range. case_bool_decide; [reflexivity|]. etrans; [|apply timers_rearm].
  apply timers_same; repeat case_match; done.
Qed.

(** ** The interface *)

Inductive Op :=
| OpEncapsulate (now : Z) (eph src dst : bytes) (budget : OutputBudget)
| OpDecapsulate (now : Z) (eph : bytes) (source : option Source) (datagram dst : bytes) (budget : OutputBudget)
| OpDecapsulateFrom (now : Z) (eph : bytes) (src : option (IpAddr * Z)) (datagram dst : bytes)
| OpUpdateTimers (now : Z) (eph dst : bytes) (budget : OutputBudget)
| OpInitiate (now : Z) (eph dst : bytes) (force_resend : bool) (budget : OutputBudget)
| OpSetStaticPrivate (now : Z) (seed : LimiterSeed) (private public : bytes) (limiter : option RateLimiter)
| OpSetPresharedKey (psk : option bytes)
| OpSetObfuscation (obf : ObfuscationRanges) (c : AmneziaConfig)
| OpSetPersistentKeepalive (keepalive : option Z)
| OpSetPersistentKeepaliveRange (low high : Z)
| OpSetContentPaddingMtu (mtu : Z)
| OpBeginNewPath
| OpRestoreUdpWindow (window : Z)
| OpDiscardImitationHint
| OpBeginOp.

Definition quietly {A} (m : M R A) : M R TunnResult := m &; mreturn Done.

Definition step (op : Op) : M R TunnResult :=
  match op with
  | OpEncapsulate now eph src dst budget => encapsulate_with_budget now eph src dst budget
  | OpDecapsulate now eph source datagram dst budget => decapsulate_source now eph source datagram dst budget
  | OpDecapsulateFrom now eph src datagram dst =>
      let* (r, _) := decapsulate_from_with_metadata now eph src datagram dst in mreturn r
  | OpUpdateTimers now eph dst budget => update_timers_with_budget now eph dst budget
  | OpInitiate now eph dst force budget => format_handshake_initiation_with_budget now eph dst force budget
  | OpSetStaticPrivate now seed private public limiter => quietly (set_static_private now seed private public limiter)
  | OpSetPresharedKey psk => quietly (set_preshared_key psk)
  | OpSetObfuscation obf c => quietly (set_obfuscation obf c)
  | OpSetPersistentKeepalive k => quietly (tunn_set_persistent_keepalive k)
  | OpSetPersistentKeepaliveRange low high => quietly (tunn_set_persistent_keepalive_range low high)
  | OpSetContentPaddingMtu mtu => quietly (set_content_padding_mtu mtu)
  | OpBeginNewPath => quietly begin_new_path
  | OpRestoreUdpWindow w => quietly (restore_udp_window w)
  | OpDiscardImitationHint => quietly discard_imitation_hint
  | OpBeginOp => quietly begin_op
  end.

(** The buffer and the budget of a call. *)
Definition room_of (op : Op) : bytes * OutputBudget :=
  match op with
  | OpEncapsulate _ _ _ dst budget | OpDecapsulate _ _ _ _ dst budget | OpUpdateTimers _ _ dst budget
  | OpInitiate _ _ dst _ budget => (dst, budget)
  | OpDecapsulateFrom _ _ _ _ dst => (dst, UNBOUNDED)
  | _ => ([], UNBOUNDED)
  end.

(** What the types of the arguments guarantee in the code, the assertion of
    [set_static_private], and the configuration doors ([ObfuscationRanges::new],
    the 16- and 32-bit fields of [AmneziaConfig]). *)
Definition op_ok (op : Op) : Prop :=
  len (fst (room_of op)) <= usize_max /\ budget_ok (snd (room_of op)) /\
  match op with
  | OpSetStaticPrivate _ _ private public _ => public = x25519_public private
  | OpSetObfuscation obf c => obf_ok obf /\ config_ok c
  | OpSetContentPaddingMtu mtu => in_u16 mtu
  | OpRestoreUdpWindow w => 0 <= w <= u32_max
  | _ => True
  end.

(** A call that keeps the invariant and emits within its room. *)
Definition call_ok (op : Op) (r : TunnResult) t' : Prop :=
  tunn_ok t' /\ emitted (len (fst (room_of op))) (snd (room_of op)) r t'.

Lemma decapsulated_ok now datagram dst budget t r t' :
  tunn_ok t -> decapsulated now datagram dst budget t r t' -> tunn_ok t' /\ emitted (len dst) budget r t'.
Proof.
  intros Hok [(Hi & _ & He & _)|(a & t1 & l & _ & _ & Hc & Hs & He & _)]; [split; [by eapply inert_ok|done]|].
  split; [|done]. apply Hs. eapply inert_ok; [apply inert_limiter|]. by apply Hc.
Qed.

Lemma decapsulate_ok now eph source datagram dst budget t :
  tunn_ok t -> len dst <= usize_max -> budget_ok budget ->
  wp (decapsulate_source now eph source datagram dst budget) (fun r t' => tunn_ok t' /\ emitted (len dst) budget r t') t.
Proof.
  intros Hok Hdst Hb. destruct (decide (len datagram = 0)) as [Hz|Hne].
  - unfold decapsulate_source. rewrite Hz. change (0 =? 0) with true.
    wp_use send_queued_packet_wp; [done..|]. intros r t' (Hp & He & _). split; [by apply Hp|done].
  - wp_use decapsulate_source_wp; [done..|]. intros r t' Hd. by eapply decapsulated_ok.
Qed.

Lemma quietly_wp {A} (m : M R A) op t :
  wp m (fun _ t' => tunn_ok t') t -> room_of op = ([], UNBOUNDED) -> wp (quietly m) (fun r t' => call_ok op r t') t.
Proof. intros Hm Hr. unfold quietly. wp_steps. wp_use Hm. intros _ t' Hok. wp_steps. by split. Qed.

Lemma step_ok op t : tunn_ok t -> op_ok op -> wp (step op) (call_ok op) t.
Proof.
  intros Hok (Hdst & Hb & Hargs). destruct op; cbn [step room_of fst snd] in *; try (apply quietly_wp; [|done]).
  - wp_use encapsulate_with_budget_wp; [done..|]. intros r t' (Hp & He & _). split; [by apply Hp|done].
  - by apply decapsulate_ok.
  - unfold decapsulate_from_with_metadata. wp_steps. apply wp_if; intros _; wp_steps; [by split|].
    wp_use decapsulate_ok; [by apply (po_ok _ _ (polled_meta _ _))|done|done|]. intros r t' [Hok' He].
    unfold take_input. wp_steps. unfold wp. destruct (take_receive_input (meta t')) as [k o] eqn:E. cbn.
    split; [by apply (po_ok _ _ (polled_meta _ _))|]. cbn [room_of fst snd]. 
    assert (output_kind o = output_kind (meta t')) as Ho by (unfold take_receive_input in E; by injection E as <- <-).
    destruct r; try done. cbn [emitted] in *. change (output_kind (meta (set_meta o t'))) with (output_kind o). by rewrite Ho.
  - wp_use update_timers_wp; [done..|]. intros r t' (Hp & He & _). split; [by apply Hp|done].
  - wp_use format_initiation_wp; [done..|]. intros r t' (Hi & He & _). split; [by eapply initiating_ok|done].
  - subst public. wp_use set_static_private_wp. intros _ t' [Hr _]. by apply Hr.
  - wp_use set_preshared_key_wp. intros _ t' [Hr _]. by apply Hr.
  - unfold set_obfuscation. wp_steps. wp_use try_set_obfuscation_wp; [by apply Hargs..|]. intros r t' [Hr _]. wp_steps. by apply Hr.
  - unfold tunn_set_persistent_keepalive. wp_steps. apply (po_ok _ _ (retimed_polled _ _ (retimed_timers _ _ (keepalive_timers _ _))) Hok).
  - unfold tunn_set_persistent_keepalive_range. destruct (normalize_persistent_keepalive_range low high); wp_steps; [|done].
    apply (po_ok _ _ (retimed_polled _ _ (retimed_timers _ _ (keepalive_timers _ _))) Hok).
  - unfold set_content_padding_mtu. wp_steps. destruct Hok as [? ? ? ? Hc Hn ? ?]. split; try done. destruct Hc. by split.
  - unfold begin_new_path. wp_steps. by apply (rc_ok _ _ (reconfigured_window DEFAULT_UDP_WINDOW t ltac:(done))).
  - unfold restore_udp_window. wp_steps. by apply (rc_ok _ _ (reconfigured_window window t Hargs)).
  - unfold discard_imitation_hint. wp_steps. by apply (rc_ok _ _ (reconfigured_auto_set _ t)).
  - unfold begin_op. wp_steps. by apply (po_ok _ _ (polled_meta _ _)).
Qed.

(** A sequence of calls: each result with the tunnel after it. *)
Fixpoint run (ops : list Op) t : outcome (list (TunnResult * Tunn R)) :=
  match ops with
  | [] => Ret []
  | op :: ops => let! (r, t) := step op t in let! rest := run ops t in Ret ((r, t) :: rest)
  end.

Lemma run_ok ops t :
  tunn_ok t -> Forall op_ok ops ->
  safely (run ops t) (Forall2 (fun op rt => call_ok op (fst rt) (snd rt)) ops).
Proof.
  intros Hok Hops. revert t Hok. induction Hops as [|op ops Hop Hops IH]; intros t Hok; cbn [run]; [constructor|].
  apply safely_bind. eapply safely_mono; [apply (step_ok op t Hok Hop)|]. intros [r t'] Hc. cbn [fst snd] in Hc.
  apply safely_bind. eapply safely_mono; [apply IH, Hc|]. intros rest Hr. cbn. by constructor.
Qed.
End System.
