(* ===== verification/TunnExamples.v ===== *)
(** Two concrete tunnels facing each other, driven by calls of the interface:
    the inputs the theorems of the tunnel are applied at. *)

From stdpp Require Import functions.
From S2P Require Import Prelude Budget Instant Crypto Rand Tags Packet Replay Session RateLimiter HeaderProtection.
From S2P Require Import Amnezia Framing Handshake Imitation Fillers Inbound Timers OpReport Tunn TunnReceive TunnTick TunnConfig.
From S2P Require Import TunnLogic TunnOutput TunnSend TunnInput TunnPoll TunnSystem.
Import Toy CounterRng ProtocolFillers SampleEnv.

Create HintDb examples discriminated.
#[export] Hint Constants Opaque : examples.

(** The value of a result known to be one. *)
Definition ok_of {E A} (r : result E A) : is_ok r = true -> A :=
  match r with Ok a => fun _ => a | Err _ => fun h => False_rect _ (diff_false_true h) end.
Lemma ok_of_eq {E A} (r : result E A) (h : is_ok r = true) : r = Ok (ok_of r h).
Proof. by destruct r. Qed.

Definition ex_seed (k : Z) : TunnSeed (R := Z) := {|
  seed_handshake_rng := k;
  seed_jitter_rng := k + 1;
  seed_stamper := {| duration_at_start := 1700000000 * nanos_per_sec; instant_at_start := 0 |};
  seed_limiter := {| seed_nonce_key := to_le 32 k; seed_secret_key := to_le 16 k;
                     seed_sources := fun _ => 0; seed_proven := fun _ => 0 |};
|}.

Definition ex_new (mine theirs : Z) (c : AmneziaConfig) : result ConfigError (Tunn Z) :=
  tunn_new 0 (ex_seed mine) (ex_private mine) (x25519_public (ex_private theirs)) None None mine None obf_default c.

(** Junk prefixes, protected headers, and three junk datagrams before an initiation. *)
Definition ex_awg : AmneziaConfig := with_pre_handshake_junk 3 40 60 10 ex_config.
Lemma ex_awg_ok : config_ok ex_awg.
Proof. apply config_okb_ok. vm_compute. reflexivity. Qed.

Definition ex_alice_new : Tunn Z := ok_of (ex_new 5 7 ex_awg) eq_refl.
Definition ex_bob_new : Tunn Z := ok_of (ex_new 7 5 ex_awg) eq_refl.
Lemma ex_alice_new_ok : tunn_ok ex_alice_new.
Proof. eapply tunn_new_ok; [apply obf_default_ok|apply ex_awg_ok|apply ok_of_eq]. Qed.
Lemma ex_bob_new_ok : tunn_ok ex_bob_new.
Proof. eapply tunn_new_ok; [apply obf_default_ok|apply ex_awg_ok|apply ok_of_eq]. Qed.

(** A call: what it returns and where it leaves the tunnel. *)
Definition answer (op : Op) (t : Tunn Z) : TunnResult :=
  match TunnSystem.step op t with Ret (r, _) => r | Panic => Done end.
Definition after (op : Op) (t : Tunn Z) : Tunn Z :=
  match TunnSystem.step op t with Ret (_, t') => t' | Panic => t end.
Definition returns {A} (f : A -> bool) (o : outcome (A * Tunn Z)) : bool :=
  match o with Ret (a, _) => f a | Panic => false end.
Lemma wp_returns {A} (f : A -> bool) (m : M Z A) (Q : A -> Tunn Z -> Prop) t :
  wp m Q t -> returns f (m t) = true -> exists a t', m t = Ret (a, t') /\ f a = true /\ Q a t'.
Proof. unfold wp. destruct (m t) as [[a t']|]; [|done]. intros HQ Hf. by exists a, t'. Qed.
Lemma wp_emits (m : M Z TunnResult) (Q : TunnResult -> Tunn Z -> Prop) t :
  wp m Q t -> returns is_network (m t) = true -> exists d t', m t = Ret (WriteToNetwork d, t') /\ Q (WriteToNetwork d) t'.
Proof. intros HQ (r & t' & E & Hf & Hr)%(wp_returns _ _ _ _ HQ). destruct r as [| |d| |]; try done. by exists d, t'. Qed.
Definition datagram_of (o : outcome (TunnResult * Tunn Z)) : bytes :=
  match o with Ret (WriteToNetwork d, _) => d | _ => [] end.
Definition state_of (t : Tunn Z) (o : outcome (TunnResult * Tunn Z)) : Tunn Z :=
  match o with Ret (_, t') => t' | Panic => t end.
Lemma emits_eq t o : returns is_network o = true -> o = Ret (WriteToNetwork (datagram_of o), state_of t o).
Proof. by destruct o as [[[] ?]|]. Qed.
Definition network (r : TunnResult) : bytes := match r with WriteToNetwork d => d | _ => [] end.
Lemma after_ok op t : tunn_ok t -> op_ok op -> tunn_ok (after op t).
Proof.
  intros Hok Hop. unfold after. pose proof (step_ok op t Hok Hop) as Hs. unfold wp in Hs.
  destruct (TunnSystem.step op t) as [[r t']|]; [apply Hs|done].
Qed.

Definition ex_dst : bytes := zeros 600.
(** An IPv4 packet of 24 bytes. *)
Definition ex_inner : bytes := to_le 1 69 ++ zeros 1 ++ to_be 2 24 ++ zeros 20.

(** Alice wants to send: the first junk datagram leaves, the packet waits. *)
Definition ex_send : Op := OpEncapsulate 1000 (to_le 32 77) ex_inner ex_dst UNBOUNDED.
Definition ex_alice_waiting : Tunn Z := after ex_send ex_alice_new.
(** The clock runs on, one poll at a time. *)
Definition ex_poll (ms : Z) : Op := OpUpdateTimers (ms * 1000000) (to_le 32 77) ex_dst UNBOUNDED.
Definition ex_alice_asking : Tunn Z :=
  after (ex_poll 40) (after (ex_poll 30) (after (ex_poll 20) ex_alice_waiting)).
Definition ex_initiation_datagram : bytes :=
  network (answer (ex_poll 40) (after (ex_poll 30) (after (ex_poll 20) ex_alice_waiting))).

(** Bob returns, Alice confirms and her packet follows. *)
Definition ex_receive (ms : Z) (datagram : bytes) : Op :=
  OpDecapsulate (ms * 1000000) (to_le 32 99) None datagram ex_dst UNBOUNDED.
Definition ex_bob_answered : Tunn Z := after (ex_receive 50 ex_initiation_datagram) ex_bob_new.
Definition ex_response_datagram : bytes := network (answer (ex_receive 50 ex_initiation_datagram) ex_bob_new).
Definition ex_alice_up : Tunn Z := after (ex_receive 60 ex_response_datagram) ex_alice_asking.
Definition ex_confirmation : bytes := network (answer (ex_receive 60 ex_response_datagram) ex_alice_asking).
Definition ex_bob_up : Tunn Z := after (ex_receive 70 ex_confirmation) ex_bob_answered.
Definition ex_flush : Op := OpDecapsulate 70000000 (to_le 32 99) None [] ex_dst UNBOUNDED.
Definition ex_data : bytes := network (answer ex_flush ex_alice_up).
(** Bob delivers it, and owes a keepalive. *)
Definition ex_bob_delivered : Tunn Z := after (ex_receive 80 ex_data) ex_bob_up.

(** ** They are well-formed *)

Lemma ex_dst_fits : len ex_dst <= usize_max.
Proof. vm_compute. congruence. Qed.
Lemma ex_send_ok : op_ok ex_send.
Proof. split; [apply ex_dst_fits|done]. Qed.
Lemma ex_poll_ok ms : op_ok (ex_poll ms).
Proof. split; [apply ex_dst_fits|done]. Qed.
Lemma ex_receive_ok ms d : op_ok (ex_receive ms d).
Proof. split; [apply ex_dst_fits|done]. Qed.
#[export] Hint Resolve ex_dst_fits ex_send_ok ex_poll_ok ex_receive_ok after_ok ex_alice_new_ok ex_bob_new_ok : examples.

Lemma ex_alice_waiting_ok : tunn_ok ex_alice_waiting.
Proof. unfold ex_alice_waiting. auto with examples. Qed.
#[export] Hint Resolve ex_alice_waiting_ok : examples.
Lemma ex_alice_asking_ok : tunn_ok ex_alice_asking.
Proof. unfold ex_alice_asking. auto with examples. Qed.
#[export] Hint Resolve ex_alice_asking_ok : examples.
Lemma ex_alice_up_ok : tunn_ok ex_alice_up.
Proof. unfold ex_alice_up. auto with examples. Qed.
Lemma ex_bob_answered_ok : tunn_ok ex_bob_answered.
Proof. unfold ex_bob_answered. auto with examples. Qed.
#[export] Hint Resolve ex_alice_up_ok ex_bob_answered_ok : examples.
Lemma ex_bob_up_ok : tunn_ok ex_bob_up.
Proof. unfold ex_bob_up. auto with examples. Qed.
#[export] Hint Resolve ex_bob_up_ok : examples.
Lemma ex_bob_delivered_ok : tunn_ok ex_bob_delivered.
Proof. unfold ex_bob_delivered. auto with examples. Qed.
#[export] Hint Resolve ex_bob_delivered_ok : examples.
