(* ===== verification/TunnTheorems.v ===== *)
(** What a tunnel promises its caller. Each theorem is about whole calls of the
    interface, on any tunnel that satisfies the invariant -- which every tunnel
    [tunn_new] builds does, whatever calls follow. *)

From stdpp Require Import functions.
From S2P Require Import Prelude Budget Instant Crypto Rand Tags Packet Replay Session RateLimiter HeaderProtection.
From S2P Require Import Amnezia Framing Handshake Imitation Fillers Inbound Timers OpReport Tunn TunnReceive TunnTick TunnConfig.
From S2P Require Import TunnLogic TunnOutput TunnSend TunnInput TunnPoll TunnSystem TunnExamples.

Section Theorems.
Context `{Crypto} `{!CryptoLaws} {R : Type} `{RngCore R} `{!RngLaws R} `{PrefixFillers R} `{!FillerLaws R} `{ImitationEnv} `{!ImitationLaws}.
Implicit Types t : Tunn R.

(** C3. No sequence of calls breaks a tunnel. From any tunnel [tunn_new] accepts,
    whatever packets, datagrams, clock readings, buffers, budgets and
    reconfigurations follow, no call panics, every call leaves the tunnel
    well-formed, and every datagram a call emits fits the caller's buffer and
    the budget of its kind, as does every packet it delivers. *)
Theorem system_safe now seed private peer psk keepalive index limiter obf c t ops :
  obf_ok obf -> config_ok c ->
  tunn_new now seed private peer psk keepalive index limiter obf c = Ok t -> Forall op_ok ops ->
  safely (run ops t) (Forall2 (fun op rt => call_ok op (fst rt) (snd rt)) ops).
Proof. intros Ho Hc Ht Hops. apply run_ok; [by eapply tunn_new_ok|done]. Qed.

(** C16. A packet handed to [encapsulate] has exactly one fate. An error accepts
    nothing: the queue is as it was, and the error is a full queue or a
    refusal of buffer or budget. Otherwise a tunnel with a usable current
    session sends it now, sealed under the session's next counter; one without
    appends it to the queue once, whether or not an initiation leaves with it. *)
Theorem encapsulate_owns now eph src dst budget t :
  tunn_ok t -> budget_ok budget -> len dst <= usize_max ->
  wp (encapsulate_with_budget now eph src dst budget)
    (fun r t' => emitted (len dst) budget r t' /\ owned t src r t') t.
Proof.
  intros Hok Hb Hdst. wp_use encapsulate_with_budget_wp; [done..|]. by intros r t' (_ & He & Ho & _).
Qed.

(** The queue is served in order and loses only what can never be sent. With a
    usable session, the heads whose frame exceeds the budget are dropped, the
    first that does not is sent and leaves the queue, and a refusal for want of
    room keeps it at the front; without one the queue is untouched. *)
Theorem queue_flushed now eph dst budget t :
  tunn_ok t -> budget_ok budget -> len dst <= usize_max ->
  wp (send_queued_packet now eph dst budget) (fun r t' => emitted (len dst) budget r t' /\
    if has_current_session t then flushed t budget r t' else packet_queue t' = packet_queue t) t.
Proof.
  intros Hok Hb Hdst. wp_use send_queued_packet_wp; [done..|]. intros r t' (_ & He & Hf). split; [done|].
  destruct (has_current_session t); [done|apply Hf].
Qed.

(** C4. A datagram nobody authenticated changes nothing that matters. Either some
    reading of it authenticates, and the packet is committed, or the sessions,
    the queue, the timers, the handshake and the configuration are as they were
    -- only the limiter's counts, the Auto evidence and the generator moved --
    and the one thing the tunnel may send is a cookie reply no larger than the
    datagram. *)
Theorem datagram_accepted_or_inert now eph source datagram dst budget t :
  tunn_ok t -> len datagram <> 0 -> len dst <= usize_max ->
  wp (decapsulate_source now eph source datagram dst budget) (decapsulated now datagram dst budget t) t.
Proof. apply decapsulate_source_wp. Qed.

(** An accepted packet cannot be refused any more. Committing it answers an
    initiation with a response and a response with a keepalive, each within the
    buffer and the budget, or delivers the inner packet; and the session an
    initiation establishes never takes the place of the selected one. *)
Theorem accepted_commits now eph datagram hint dst budget t a t1 :
  tunn_ok t -> len dst <= usize_max -> accepted_reading now datagram dst budget t a t1 ->
  wp (commit_with_imitation_and_budget eph a datagram hint dst budget) (fun r t' =>
    tunn_ok t' /\ emitted (len dst) budget r t' /\ outcome_of t1 a r t' /\
    (is_auth_init a = true -> session_at t' (current t') = session_at t (current t))) t1.
Proof.
  intros Hok Hdst Hacc. pose proof (accepted_reading_authentic _ _ _ _ _ _ _ Hok Hacc) as Hau.
  destruct (authentic_committable _ _ _ _ _ Hok Hau) as [Hcm Hc].
  wp_use commit_with_imitation_wp; [by apply Hc|done|done|]. intros r t' (Hs & He & Ho). split_and!; try done.
  { apply Hs. by apply Hc. }
  destruct a; try done. destruct Hau as [-> _]. destruct Ho as (d & s & _ & _ & Hss & Hne & -> & _). intros _.
  unfold session_at. rewrite Hss, zget_zset, decide_False; [done|]. by intros [? _].
Qed.

(** ** The burst *)

(** Polls of a pending burst. *)
Fixpoint pump (dst : bytes) (polls : list (Z * bytes)) : M R (list TunnResult) :=
  match polls with
  | [] => mreturn []
  | (now, eph) :: polls =>
      let* r := advance_amnezia_junk now eph dst UNBOUNDED in
      let* rs := pump dst polls in
      mreturn (r :: rs)
  end.

(** At least [gap] apart, from [start] on. *)
Fixpoint spaced (gap start : Z) (polls : list (Z * bytes)) : Prop :=
  match polls with
  | [] => True
  | (now, _) :: polls => start + gap <= now /\ spaced gap now polls
  end.

Definition last_poll (polls : list (Z * bytes)) : Z := from_option fst 0 (last polls).

(** C30. The burst ends in its initiation. Polled with room, at least as far apart
    as its longest delay, a burst of [n] datagrams is sent in exactly [n] polls
    -- each emits one -- and the poll after them emits the initiation, which is
    then in flight. *)
Theorem burst_completes dst gap polls start t p :
  tunn_ok t -> len dst <= usize_max -> pending_amnezia_junk t = Some p -> burst_room dst gap t p ->
  (forall at_, last_packet_at p = Some at_ -> at_ <= start) -> spaced gap start polls -> len polls = burst_items p + 1 ->
  wp (pump dst polls) (fun rs t' => Forall (fun r => is_network r = true) rs /\ len rs = len polls /\
    pending_amnezia_junk t' = None /\ handshake_timer (handshake t') = Some (last_poll polls)) t.
Proof.
  intros Hok Hdst. revert start t p Hok. induction polls as [|[now eph] polls IH]; intros start t p Hok Hp Hroom Hlast Hsp Hlen.
  { exfalso. pose proof (to_burst _ Hok) as Hb. rewrite Hp in Hb. cbn in Hb. unfold burst_items in Hlen.
    pose proof (len_nonneg (imitation_datagrams p)). change (len []) with 0 in Hlen. lia. }
  destruct Hsp as [Hgap Hsp]. rewrite len_cons in Hlen. cbn [pump]. wp_steps.
  eapply wp_mono; [apply wp_conj; [by apply advance_amnezia_junk_wp|apply (advance_progress_wp now eph dst gap t p Hok Hdst Hp Hroom)]|].
  { destruct (last_packet_at p) as [l|]; [|done]. specialize (Hlast l eq_refl). unfold duration_since, sat_sub. lia. }
  cbv beta. intros r t1 [(Hi & _ & Hr) Hnet]. destruct r as [| |d| |]; try done.
  pose proof (initiating_ok _ _ Hi Hok) as Hok1. destruct Hr as (p0 & Hp0 & Hadv). assert (p0 = p) as -> by congruence.
  destruct Hadv as [(p' & Hpos & Hp' & Hn & Htl & Hl' & Htm)|(Hz & Hnone & Htm)].
  - wp_steps. eapply wp_mono; [apply (IH now t1 p')|]; try done.
    + destruct Hroom as [Hd Hdl Hj Hf]. split; unfold initiation_wire_floor in *; rewrite ?(in_amnezia _ _ Hi); try done.
      rewrite Htl. destruct (imitation_datagrams p); [done|by apply List.Forall_inv_tail in Hd].
    + intros l Hl. destruct Hl' as [Hl'|Hl']; rewrite Hl' in Hl; [done|]. injection Hl as <-. lia.
    + lia.
    + cbv beta. intros rs t2 (Hf & Hlr & Hpn & Ht2). wp_steps. split_and!; try done; [by constructor|by rewrite !len_cons, Hlr|].
      rewrite Ht2. unfold last_poll. destruct polls; [|done]. change (len []) with 0 in Hlen. lia.
  - assert (polls = []) as -> by (apply nil_length_inv; unfold len in Hlen; lia). cbn [pump]. wp_steps.
    split_and!; try done. by repeat constructor.
Qed.

(** ** The poll *)

(** A poll ages out exactly the keys that have expired. A session whose slot
    was stamped longer ago than [reject_after_time] is gone after the poll,
    whatever else the poll did, and no session appears; every other session is
    still there, moved at most by what the poll sent on it, unless the poll
    reported that the whole cycle expired. *)
Theorem poll_ages_sessions now eph dst budget t :
  tunn_ok t -> budget_ok budget -> len dst <= usize_max ->
  wp (update_timers_with_budget now eph dst budget) (fun r t' =>
    ring_shrink (sessions t) (sessions t') /\
    (forall i, 0 <= i < N_SESSIONS -> expired_slot (monotonic_now now (tunn_timers t)) t i = true ->
       zget (sessions t') i = Some None) /\
    (r <> TErr ConnectionExpired -> forall i s, zget (sessions t) i = Some (Some s) ->
       expired_slot (monotonic_now now (tunn_timers t)) t i = false ->
       exists s', zget (sessions t') i = Some (Some s') /\ slot_step (Some s) (Some s'))) t.
Proof.
  intros Hok Hb Hdst. wp_use update_timers_wp; [done..|]. intros r t' (Hp & _ & _ & _ & Hg & Hk). split; [apply Hp|done].
Qed.

(** A poll that could not be served costs nothing. When the buffer or the
    budget refuses what a poll selected, the keepalives still owed -- the
    passive one, the persistent one with its stamp and interval -- are as they
    were, and so is the armed new-handshake deadline, unless a burst was
    prepared that now carries it. *)
Theorem poll_gives_back now eph dst budget t :
  tunn_ok t -> budget_ok budget -> len dst <= usize_max ->
  wp (update_timers_with_budget now eph dst budget) (fun r t' =>
    is_capacity r = true ->
    rollback_of (tunn_timers t') = rollback_of (tunn_timers t) /\
    (pending_amnezia_junk t' = None -> want_handshake (tunn_timers t') = want_handshake (tunn_timers t))) t.
Proof.
  intros Hok Hb Hdst. wp_use update_timers_wp; [done..|]. by intros r t' (_ & _ & Hk & _).
Qed.

(** [ConnectionExpired] means the cycle is over. When a poll reports it, either
    the poll ended the cycle -- the handshake is marked expired, and no session,
    queued packet or burst is left -- or it had ended before, and the handshake
    and the queue are untouched. *)
Theorem poll_expiry now eph dst budget t :
  tunn_ok t -> budget_ok budget -> len dst <= usize_max ->
  wp (update_timers_with_budget now eph dst budget) (fun r t' =>
    r = TErr ConnectionExpired ->
    torn_down t' \/ (handshake_is_expired (handshake t) = true /\ handshake t' = handshake t /\ packet_queue t' = packet_queue t)) t.
Proof.
  intros Hok Hb Hdst. wp_use update_timers_wp; [done..|]. by intros r t' (_ & _ & _ & Hx & _).
Qed.

(** ** Reconfiguration *)

(** Reframing a live tunnel costs it nothing. A configuration the
    header-protection policy refuses changes nothing at all; an accepted one is
    installed with the sessions, the selected session, the queue, the session
    ages and the handshake in progress as they were. *)
Theorem reframing_keeps_traffic obf c t :
  obf_ok obf -> config_ok c ->
  wp (try_set_obfuscation obf c) (fun r t' =>
    match r with
    | Err e => check_header_protection_nonce c = Err e /\ t' = t
    | Ok _ => amnezia t' = c /\ hs_obf (handshake t') = obf /\ sessions t' = sessions t /\ current t' = current t /\
        packet_queue t' = packet_queue t /\ hs_state (handshake t') = hs_state (handshake t) /\
        session_timers (tunn_timers t') = session_timers (tunn_timers t)
    end) t.
Proof.
  intros Ho Hc. wp_use try_set_obfuscation_wp; [done..|]. intros [u|e] t' ([] & Hs & Hr); [|done]. destruct Hr as (_ & ? & ? & _). by split_and!.
Qed.

(** A new pre-shared key ends the sessions the old one keyed, and only a new
    one does: after [set_preshared_key] the sessions are all gone if the
    effective key changed -- no key and the all-zero key being the same -- and
    untouched if not; the key configured is the one given either way. *)
Theorem preshared_key_change psk t :
  wp (set_preshared_key psk) (fun _ t' => preshared_key (hs_params (handshake t')) = psk /\
    packet_queue t' = packet_queue t /\
    (effective_psk (preshared_key (hs_params (handshake t))) = effective_psk psk -> sessions t' = sessions t) /\
    (effective_psk (preshared_key (hs_params (handshake t))) <> effective_psk psk -> sessions t' = zreplicate N_SESSIONS None)) t.
Proof.
  wp_use (set_preshared_key_wp (R := R) psk t). intros _ t' (Hr & Hk & Hs & _). rewrite Hs. split_and!; [done|apply Hr|..]; intros He;
    [by rewrite bool_decide_eq_true_2|by rewrite bool_decide_eq_false_2].
Qed.

(** What a datagram means where a session is selected. *)
Lemma owned_sent t src d t' : has_current_session t = true -> owned t src (WriteToNetwork d) t' -> sent t src d t'.
Proof. intros Hs Ho. unfold owned in Ho. rewrite Hs in Ho. apply Ho. Qed.
Lemma flushed_session t budget r t' : has_current_session t = true ->
  (if has_current_session t then flushed t budget r t' else packet_queue t' = packet_queue t) -> flushed t budget r t'.
Proof. by intros ->. Qed.
End Theorems.


(** ** At work *)

Import Toy CounterRng ProtocolFillers SampleEnv.

Lemma system_safe_witness :
  safely (run [ex_send; ex_poll 20; ex_receive 60 ex_response_datagram; OpSetPresharedKey None] ex_alice_new)
    (Forall2 (fun op rt => call_ok op (fst rt) (snd rt)) [ex_send; ex_poll 20; ex_receive 60 ex_response_datagram; OpSetPresharedKey None]).
Proof.
  eapply (system_safe 0 (ex_seed 5) (ex_private 5) (x25519_public (ex_private 7)) None None 5 None obf_default ex_awg).
  - apply obf_default_ok.
  - apply ex_awg_ok.
  - apply ok_of_eq.
  - do 4 (apply List.Forall_cons; [auto with examples|]); [done|apply List.Forall_nil].
Defined.

Lemma encapsulate_owns_witness : exists d t',
  encapsulate_with_budget 80000000 (to_le 32 77) ex_inner ex_dst UNBOUNDED ex_alice_up = Ret (WriteToNetwork d, t') /\
  sent ex_alice_up ex_inner d t'.
Proof.
  destruct (wp_emits _ _ _ (encapsulate_owns 80000000 (to_le 32 77) ex_inner ex_dst UNBOUNDED ex_alice_up
    ltac:(auto with examples) ltac:(done) ltac:(auto with examples))) as (d & t' & E & _ & Ho); [vm_compute; reflexivity|].
  exists d, t'. split; [exact E|]. apply owned_sent; [vm_compute; reflexivity|exact Ho].
Defined.

Lemma queue_flushed_witness : exists d t',
  send_queued_packet 70000000 (to_le 32 99) ex_dst UNBOUNDED ex_alice_up = Ret (WriteToNetwork d, t') /\
  flushed ex_alice_up UNBOUNDED (WriteToNetwork d) t'.
Proof.
  destruct (wp_emits _ _ _ (queue_flushed 70000000 (to_le 32 99) ex_dst UNBOUNDED ex_alice_up
    ltac:(auto with examples) ltac:(done) ltac:(auto with examples))) as (d & t' & E & _ & Hf); [vm_compute; reflexivity|].
  exists d, t'. split; [exact E|]. apply flushed_session; [vm_compute; reflexivity|exact Hf].
Defined.

Lemma datagram_accepted_or_inert_witness :
  len ex_data <> 0 /\
  wp (decapsulate_source 80000000 (to_le 32 99) None ex_data ex_dst UNBOUNDED)
    (decapsulated 80000000 ex_data ex_dst UNBOUNDED ex_bob_up) ex_bob_up.
Proof.
  assert (len ex_data <> 0) as Hne by (vm_compute; discriminate). split; [exact Hne|].
  apply (datagram_accepted_or_inert 80000000 (to_le 32 99) None ex_data ex_dst UNBOUNDED ex_bob_up); auto with examples.
Defined.

(** A datagram a tunnel accepts as a packet of the kind asked for. *)
Lemma receive_accepted (f : Authenticated -> bool) now datagram dst (t : Tunn Z) :
  tunn_ok t ->
  returns (fun r => match r with Accepted a => f a | _ => false end)
    (receive_datagram now None datagram (len dst) UNBOUNDED (candidates_of datagram t) t) = true ->
  exists a t1, accepted_reading now datagram dst UNBOUNDED t a t1 /\ f a = true.
Proof.
  intros Hok (r & t' & _ & Hf & l & Hr)%(wp_returns _ _ _ _ (receive_datagram_wp now None datagram dst UNBOUNDED t Hok)).
  destruct r as [|a| |]; try done. destruct Hr as (t1 & _ & Ha). by exists a, t1.
Qed.

Lemma accepted_commits_witness : exists a t1,
  accepted_reading 50000000 ex_initiation_datagram ex_dst UNBOUNDED ex_bob_new a t1 /\ is_auth_init a = true /\
  wp (commit_with_imitation_and_budget (to_le 32 99) a ex_initiation_datagram None ex_dst UNBOUNDED) (fun r t' =>
    tunn_ok t' /\ emitted (len ex_dst) UNBOUNDED r t' /\ outcome_of t1 a r t' /\
    (is_auth_init a = true -> session_at t' (current t') = session_at ex_bob_new (current ex_bob_new))) t1.
Proof.
  destruct (receive_accepted is_auth_init 50000000 ex_initiation_datagram ex_dst ex_bob_new) as (a & t1 & Ha & Hi);
    [auto with examples|vm_compute; reflexivity|].
  exists a, t1. split; [exact Ha|]. split; [exact Hi|].
  apply (accepted_commits 50000000 (to_le 32 99) ex_initiation_datagram None ex_dst UNBOUNDED ex_bob_new a t1);
    [auto with examples|auto with examples|exact Ha].
Defined.

Definition ex_burst : PendingAmneziaJunk :=
  {| imitation_datagrams := []; remaining := 2; last_packet_at := Some 1000; reset_expired_timers := false |}.
Definition ex_polls : list (Z * bytes) := [(20000000, to_le 32 77); (30000000, to_le 32 77); (40000000, to_le 32 77)].

Lemma burst_completes_witness :
  pending_amnezia_junk ex_alice_waiting = Some ex_burst /\
  wp (pump ex_dst ex_polls) (fun rs t' => Forall (fun r => is_network r = true) rs /\ len rs = len ex_polls /\
    pending_amnezia_junk t' = None /\ handshake_timer (handshake t') = Some (last_poll ex_polls)) ex_alice_waiting.
Proof.
  assert (pending_amnezia_junk ex_alice_waiting = Some ex_burst) as Hp by (vm_compute; reflexivity). split; [exact Hp|].
  apply (burst_completes ex_dst 10000000 ex_polls 1000 ex_alice_waiting ex_burst).
  - auto with examples.
  - auto with examples.
  - exact Hp.
  - split; [constructor|vm_compute; congruence..].
  - intros at_ [= <-]. reflexivity.
  - vm_compute. intuition congruence.
  - reflexivity.
Defined.

Lemma poll_ages_sessions_witness : exists r t',
  update_timers_with_budget 250000000000 (to_le 32 77) ex_dst UNBOUNDED ex_alice_up = Ret (r, t') /\
  zget (sessions t') 1 = Some None.
Proof.
  assert (0 <= 1 < N_SESSIONS) as H1 by done.
  destruct (wp_returns (fun _ => true) _ _ _ (poll_ages_sessions 250000000000 (to_le 32 77) ex_dst UNBOUNDED ex_alice_up
    ltac:(auto with examples) ltac:(done) ltac:(auto with examples))) as (r & t' & E & _ & _ & Hx & _); [vm_compute; reflexivity|].
  exists r, t'. split; [exact E|]. apply (Hx 1 H1). vm_compute. reflexivity.
Defined.

Lemma poll_gives_back_witness : exists r t',
  update_timers_with_budget 11000000000 (to_le 32 77) [] UNBOUNDED ex_bob_delivered = Ret (r, t') /\
  is_capacity r = true /\ rollback_of (tunn_timers t') = rollback_of (tunn_timers ex_bob_delivered).
Proof.
  destruct (wp_returns is_capacity _ _ _ (poll_gives_back 11000000000 (to_le 32 77) [] UNBOUNDED ex_bob_delivered
    ltac:(auto with examples) ltac:(done) ltac:(done))) as (r & t' & E & Hc & Hb); [vm_compute; reflexivity|].
  exists r, t'. split; [exact E|]. split; [exact Hc|]. apply Hb, Hc.
Defined.

Lemma poll_expiry_witness : exists t',
  update_timers_with_budget 100000000000 (to_le 32 77) ex_dst UNBOUNDED ex_alice_asking = Ret (TErr ConnectionExpired, t') /\
  (torn_down t' \/ (handshake_is_expired (handshake ex_alice_asking) = true /\
     handshake t' = handshake ex_alice_asking /\ packet_queue t' = packet_queue ex_alice_asking)).
Proof.
  destruct (wp_returns (fun r => match r with TErr ConnectionExpired => true | _ => false end) _ _ _
    (poll_expiry 100000000000 (to_le 32 77) ex_dst UNBOUNDED ex_alice_asking
    ltac:(auto with examples) ltac:(done) ltac:(auto with examples))) as (r & t' & E & Hr & Hx); [vm_compute; reflexivity|].
  assert (r = TErr ConnectionExpired) as -> by (destruct r as [|[]| | |]; try discriminate Hr; reflexivity).
  exists t'. split; [exact E|]. apply Hx. reflexivity.
Defined.

Lemma reframing_keeps_traffic_witness :
  wp (try_set_obfuscation obf_default ex_awg) (fun r t' =>
    match r with
    | Err e => check_header_protection_nonce ex_awg = Err e /\ t' = ex_alice_up
    | Ok _ => amnezia t' = ex_awg /\ hs_obf (handshake t') = obf_default /\ sessions t' = sessions ex_alice_up /\
        current t' = current ex_alice_up /\ packet_queue t' = packet_queue ex_alice_up /\
        hs_state (handshake t') = hs_state (handshake ex_alice_up) /\
        session_timers (tunn_timers t') = session_timers (tunn_timers ex_alice_up)
    end) ex_alice_up.
Proof. apply (reframing_keeps_traffic obf_default ex_awg ex_alice_up); [apply obf_default_ok|apply ex_awg_ok]. Defined.
