(* ===== verification/TunnExchange.v ===== *)
(** Two tunnels facing each other: what one sends, framed, protected and padded
    as configured, the other receives. The handshake between two [Tunn]s ends
    in sessions that are each other's, and a packet sent on one is delivered
    by the other, once. *)

From stdpp Require Import functions.
From S2P Require Import Prelude Budget Instant Crypto Rand Tags Packet Replay Session RateLimiter HeaderProtection.
From S2P Require Import Amnezia Framing Handshake Imitation Fillers Inbound Timers OpReport Tunn TunnReceive TunnTick TunnConfig.
From S2P Require Import TunnLogic TunnOutput TunnSend TunnInput TunnPoll TunnSystem TunnExamples.

(** ** One framing *)

(** Two configurations that frame alike: everything else of a configuration --
    imitation, junk bursts, padding, timers -- is each end's own. *)
Record same_framing (c c' : AmneziaConfig) : Prop := {
  sf_sizes kind : inbound_junk_size c' kind = inbound_junk_size c kind;
  sf_protection : header_protection c' = header_protection c;
  sf_trailers : random_trailers c' = random_trailers c;
}.
#[export] Instance same_framing_equivalence : Equivalence same_framing.
Proof.
  split; [by split|by intros a b []; split; symmetry|].
  intros a b c [] []. split; [intros kind; etrans; eauto|congruence..].
Qed.

Section Framing.
Context `{Crypto} `{!CryptoLaws}.

Lemma same_framing_resolve c p : same_framing c (resolve_imitation c p).
Proof. destruct (resolve_same c p) as [i ->]. split; [by intros []|done..]. Qed.

Lemma framed_same c c' kind junk packet : header_protection c' = header_protection c ->
  framed c' kind junk packet = framed c kind junk packet.
Proof. intros Hp. unfold framed, header_protection_enabled. by rewrite Hp. Qed.

Lemma wire_frame_same c c' obf kind packet d :
  same_framing c c' -> wire_frame c obf kind packet d -> wire_frame c' obf kind packet d.
Proof.
  intros [Hs Hp Ht] [Htag Hb He (junk & suffix & -> & Hj & Hn & Hsuf)]. split; try done.
  exists junk, suffix. unfold header_protection_enabled in *. rewrite (framed_same c c'), Hs, Hp, Ht by done. done.
Qed.

(** A kind has at most one reading. *)
Lemma candidate_of_kind_kind c obf d mask protected kind cand :
  candidate_of_kind c obf d mask protected kind = Some cand -> ic_kind cand = kind.
Proof. unfold candidate_of_kind. repeat case_match; try done; by intros [= <-]. Qed.

Lemma candidates_unique c obf d cand cand' :
  In cand (inbound_candidates c obf d) -> In cand' (inbound_candidates c obf d) -> ic_kind cand = ic_kind cand' -> cand = cand'.
Proof.
  assert (forall mask protected x, In x (candidates_under_mask c obf d mask protected) ->
    candidate_of_kind c obf d mask protected (ic_kind x) = Some x) as Hin.
  { intros mask protected x (kind & _ & Hx)%list_elem_of_In%list_elem_of_omap. by rewrite (candidate_of_kind_kind _ _ _ _ _ _ _ Hx). }
  unfold inbound_candidates. destruct (negb _); [|destruct (type_mask _ _); [|done]];
    intros H1%Hin H2%Hin Hk; rewrite Hk in H1; congruence.
Qed.
End Framing.

Section Exchange.
Context `{Crypto} `{!CryptoLaws} {R : Type} `{RngCore R} `{!RngLaws R} `{PrefixFillers R} `{!FillerLaws R} `{ImitationEnv} `{!ImitationLaws}.
Implicit Types t a b : Tunn R.

(** ** A genuine datagram is accepted *)

Section Reading.
Variables (now : Z) (eph : bytes) (source : option Source) (datagram dst : bytes) (budget : OutputBudget).

(** No reading of another kind authenticates: the tags of the kinds are ranges
    at different offsets, so a datagram may match several, but to authenticate
    as something it was not sent as is to forge it. *)
Definition sole_reading t (kind : PacketKind) : bool :=
  forallb (fun cand => bool_decide (ic_kind cand = kind) ||
    match candidate_message (amnezia t) datagram cand with
    | Some message =>
        match parse_incoming_packet (hs_obf (handshake t)) message with
        | Ok packet => match trial_of now dst budget t packet with Ret (Ok _) => false | _ => true end
        | Err _ => true
        end
    | None => true
    end) (candidates_of datagram t).

(** Handshake messages reach their trial: the defence is off, or the limiter is
    not under load for this source. *)
Definition calm t : Prop :=
  cookie_defense (amnezia t) = Bypassed \/ fst (is_under_load now source (rate_limiter t)) = Clear.

Lemma framed_as_frame t c kind packet d :
  framed_as t kind packet d -> same_framing (amnezia t) c -> wire_frame c (hs_obf (handshake t)) kind packet d.
Proof.
  intros [p Hw] Hs. eapply wire_frame_same; [|exact Hw]. etrans; [|exact Hs]. symmetry. apply same_framing_resolve.
Qed.

Lemma sole_reading_trial t kind message packet x :
  tunn_ok t -> sole_reading t kind = true -> wire_frame (amnezia t) (hs_obf (handshake t)) kind message datagram ->
  parse_incoming_packet (hs_obf (handshake t)) message = Ok packet -> trial_of now dst budget t packet = Ret (Ok x) ->
  forall c m p y, In c (candidates_of datagram t) -> reads_as (amnezia t) (hs_obf (handshake t)) datagram c m p ->
    trial_of now dst budget t p = Ret (Ok y) -> y = x.
Proof.
  intros Hok Hsole Hw Hp Ht c m p y Hc [Hm Hpc] Hy. unfold sole_reading in Hsole. rewrite forallb_forall in Hsole.
  specialize (Hsole c Hc). rewrite Hm, Hpc, Hy, orb_false_r in Hsole. apply bool_decide_eq_true in Hsole.
  pose proof (co_sizes _ (to_config _ Hok) kind) as [Hj _].
  destruct (wire_frame_received _ _ _ _ _ Hw Hj) as [Hin Hmsg].
  rewrite (candidates_unique _ _ _ c _ Hc Hin) in Hm by done. rewrite Hmsg in Hm. injection Hm as <-.
  rewrite Hp in Hpc. injection Hpc as <-. rewrite Ht in Hy. by injection Hy as <-.
Qed.

Lemma decapsulate_reading_wp t kind message packet auth t1 :
  tunn_ok t -> len dst <= usize_max -> wire_frame (amnezia t) (hs_obf (handshake t)) kind message datagram ->
  parse_incoming_packet (hs_obf (handshake t)) message = Ok packet ->
  (handshake_sender packet <> None -> mac1_valid (rate_limiter t) message = true /\ calm t) ->
  trial_of now dst budget t packet = Ret (Ok (auth, t1)) -> sole_reading t kind = true ->
  wp (decapsulate_source now eph source datagram dst budget) (fun r t' => exists l, committed t t1 /\
    accepted_step (set_rate_limiter l t1) t' /\ emitted (len dst) budget r t' /\ outcome_of (set_rate_limiter l t1) auth r t') t.
Proof.
  intros Hok Hdst Hw Hp Hgate Ht Hsole.
  pose proof (co_sizes _ (to_config _ Hok) kind) as [Hj _].
  destruct (wire_frame_received _ _ _ _ _ Hw Hj) as [Hin Hmsg].
  assert (len datagram <> 0) as Hne.
  { destruct Hw as [_ Hb _ (junk & suffix & -> & Hl & _)]. rewrite len_app, len_framed by done.
    pose proof (len_nonneg suffix). assert (0 < base_size kind) by (by destruct kind). lia. }
  unfold decapsulate_source. apply wp_if; [intros Hz%Z.eqb_eq; lia|intros _]. wp_steps.
  fold (candidates_of datagram t). fold (candidates_of datagram t) in Hin.
  destruct (Z.eqb_spec (len (candidates_of datagram t)) 0) as [Hz|_].
  { exfalso. destruct (candidates_of datagram t); [done|]. rewrite len_cons in Hz. pose proof (len_nonneg l). lia. }
  cbn [andb]. wp_steps.
  destruct (receive_accepts now (amnezia t) (hs_obf (handshake t)) source datagram (trial_of now dst budget t)
    (candidates_of datagram t) (reading (amnezia t) kind message datagram) message packet (auth, t1) (rate_limiter t)) as [l Hl]; try done.
  { by apply trial_is_safe. }
  { intros c m p x. by eapply sole_reading_trial. }
  assert (authentic (len dst) budget t auth t1) as Hau.
  { pose proof (authenticate_spec now t (len dst) budget packet Hok (parse_packet_ok _ _ _ Hp)) as Hs. unfold trial_of in Ht. by rewrite Ht in Hs. }
  destruct (authentic_committable _ _ _ _ _ Hok Hau) as [Hcm Hc].
  eapply (wp_mono _ (fun r t2 => r = Accepted auth /\ t2 = set_rate_limiter l t1)).
  { unfold wp, receive_datagram. fold (trial_of now dst budget t). by rewrite Hl. }
  intros r t2 [-> ->]. wp_steps. wp_use commit_with_imitation_wp; [|done|by apply (committable_same _ _ t1)|].
  { eapply inert_ok; [apply inert_limiter|]. by apply Hc. }
  intros r t3 Hr. by exists l.
Qed.
End Reading.

(** ** Transport *)

Lemma slice_prefix {A} i j (l l' : list A) : 0 <= i -> j <= len l -> slice i j (l ++ l') = slice i j l.
Proof.
  intros Hi Hj. unfold slice, ztake, zdrop, len in *. destruct (Z.leb_spec j i) as [Hle|Hlt].
  { by replace (Z.to_nat (j - i)) with 0%nat by lia. }
  rewrite drop_app_le by lia. apply take_app_le. rewrite length_drop. lia.
Qed.

(** Padding is invisible to a packet that says how long it is. *)
Lemma inner_result_padded src pad :
  0 <= pad -> inner_result src <> TErr InvalidPacket -> inner_result (src ++ zeros pad) = inner_result src.
Proof.
  intros Hpad. destruct src as [|x src].
  { intros _. destruct (zeros pad) as [|z zs] eqn:E; [done|]. cbn [app inner_result].
    assert (z = Byte.x00) as ->; [|done]. unfold zeros, zreplicate in E. destruct (Z.to_nat pad); [done|]. by injection E. }
  cbn [app inner_result]. set (l := x :: src). change (x :: src ++ zeros pad) with (l ++ zeros pad).
  destruct (byte.unsigned x =? 0); [done|]. pose proof (len_nonneg (zeros pad)).
  assert (len (l ++ zeros pad) = len l + len (zeros pad)) as Hlen by apply len_app.
  destruct (Z.eqb_spec (ip_version x) 4) as [Hv4|Hv4]; cbn [andb].
  - destruct (Z.leb_spec IPV4_MIN_HEADER_SIZE (len l)) as [Hl|Hl]; unfold IPV4_MIN_HEADER_SIZE in Hl.
    2: { destruct (Z.eqb_spec (ip_version x) 6); [lia|done]. }
    rewrite (proj2 (Z.leb_le IPV4_MIN_HEADER_SIZE (len (l ++ zeros pad)))) by (unfold IPV4_MIN_HEADER_SIZE; lia). unfold be16.
    rewrite !slice_prefix by (unfold IPV4_LEN_OFF, IPV4_SRC_IP_OFF, IPV4_IP_SZ; lia). fold (be16 l IPV4_LEN_OFF).
    destruct ((IPV4_MIN_HEADER_SIZE <=? Z.land (byte.unsigned x) 15 * 4) && (Z.land (byte.unsigned x) 15 * 4 <=? be16 l IPV4_LEN_OFF));
      cbn [andb]; [|done]. destruct (Z.leb_spec (be16 l IPV4_LEN_OFF) (len l)); [|done]. intros _.
    rewrite (proj2 (Z.leb_le _ _)) by lia. by rewrite ztake_app_le.
  - destruct (Z.eqb_spec (ip_version x) 6) as [Hv6|Hv6]; cbn [andb]; [|done].
    destruct (Z.leb_spec IPV6_MIN_HEADER_SIZE (len l)) as [Hl|Hl]; unfold IPV6_MIN_HEADER_SIZE in Hl; [|done].
    rewrite (proj2 (Z.leb_le IPV6_MIN_HEADER_SIZE (len (l ++ zeros pad)))) by (unfold IPV6_MIN_HEADER_SIZE; lia). unfold be16.
    rewrite !slice_prefix by (unfold IPV6_LEN_OFF, IPV6_SRC_IP_OFF, IPV6_IP_SZ; lia). fold (be16 l IPV6_LEN_OFF).
    destruct (Z.leb_spec (be16 l IPV6_LEN_OFF + IPV6_MIN_HEADER_SIZE) (len l)); [|done]. intros _.
    rewrite (proj2 (Z.leb_le _ _)) by lia. by rewrite ztake_app_le.
Qed.
Lemma session_ok_at t i s : tunn_ok t -> session_at t i = Some s ->
  session_ok s /\ receiving_index s mod N_SESSIONS = i mod N_SESSIONS.
Proof. intros Hok Hs. destruct (ri_ok _ (to_ring _ Hok) _ _ (session_at_zget _ _ _ Hs)) as [? ?]. by split. Qed.

(** A packet of the peer's session, tried: accepted, and marked. *)
Lemma transport_trial now dst budget b tx rx n plaintext :
  tunn_ok b -> session_at b (sending_index tx) = Some rx -> session_peer tx rx -> in_u64 n ->
  will_accept (receiving_key_counter rx) n = Ok tt -> len plaintext + TAG_SZ <= len dst ->
  exists rx', trial_of now dst budget b (PPacketData {| pd_receiver_idx := sending_index tx; pd_counter := n;
      pd_encrypted_encapsulated_packet := aead_seal (sender tx) (counter_nonce n) [] plaintext |}) =
    Ret (Ok (AuthData (sending_index tx) plaintext, set_sessions (zset (sessions b) (sending_index tx mod N_SESSIONS) (Some rx')) b)) /\
    is_ok (will_accept (receiving_key_counter rx') n) = false.
Proof.
  intros Hok Hs [Hk Hidx] Hn Hacc Hd. destruct (session_ok_at _ _ _ Hok Hs) as [[seen Hinv] _].
  set (p := Build_PacketData _ _ _).
  pose proof (will_accept_eq _ _ _ (si_window _ _ Hinv) Hn) as Hw. rewrite Hacc in Hw. case_bool_decide as Ha; [|by repeat case_match].
  destruct (receive_packet_data_accepts p (len dst) rx seen plaintext) as [rx' Hrx]; try done.
  { cbn. by rewrite len_aead_seal. }
  { cbn. rewrite <- Hk. apply aead_open_seal. }
  exists rx'. split.
  - unfold trial_of. cbn [authenticate_with_budget]. change (pd_receiver_idx p) with (sending_index tx). by rewrite Hs, Hrx.
  - pose proof (receive_packet_data_spec p (len dst) rx seen Hinv Hn) as Hr. rewrite Hrx in Hr. destruct Hr as (_ & _ & _ & _ & Hinv' & _).
    rewrite (will_accept_eq _ _ _ (si_window _ _ Hinv') Hn). rewrite bool_decide_eq_false_2; [by repeat case_match|].
    intros (_ & _ & Hnew). apply Hnew, elem_of_cons. by left.
Qed.

(** What the receiving end of a session makes of a datagram that carries its
    next packet. *)
Lemma transport_received_wp now eph source dst budget a b tx rx src pad d :
  tunn_ok a -> tunn_ok b -> len dst <= usize_max ->
  same_framing (amnezia a) (amnezia b) -> hs_obf (handshake b) = hs_obf (handshake a) ->
  carries a tx src pad d -> session_ok tx ->
  session_at b (sending_index tx) = Some rx -> session_peer tx rx ->
  will_accept (receiving_key_counter rx) (sending_key_counter tx) = Ok tt ->
  len d <= len dst -> inner_result src <> TErr InvalidPacket ->
  sole_reading now d dst budget b KTransportData = true ->
  wp (decapsulate_source now eph source d dst budget) (fun r b' => r = inner_result src /\ tunn_ok b' /\
    packet_queue b' = packet_queue b /\
    (slot_time b (current b) <= slot_time b (sending_index tx) -> current b' = sending_index tx) /\
    exists rx', session_at b' (sending_index tx) = Some rx' /\
      is_ok (will_accept (receiving_key_counter rx') (sending_key_counter tx)) = false) b.
Proof.
  intros Hoka Hokb Hdst Hfr Hobf (packet & (tag & Htag & Hpad & ->) & Hf) [stx Htx] Hs Hpeer Hacc Hlen Hin Hsole.
  pose proof (framed_as_frame _ _ _ _ _ Hf Hfr) as Hw. rewrite <- Hobf in Hw, Htag.
  pose proof (si_sending _ _ Htx). pose proof reject_below_max.
  assert (in_u64 (sending_key_counter tx)) as Hc by (unfold in_u64; lia).
  pose proof (wire_frame_transport_len _ _ _ _ Hw) as Hwl. pose proof (co_sizes _ (to_config _ Hokb) KTransportData) as [Hj _].
  pose proof (len_nonneg src). assert (len (src ++ zeros pad) = len src + pad) as Hpl by (unfold zeros; rewrite len_app, len_zreplicate; lia).
  assert (len (src ++ zeros pad) + TAG_SZ <= len dst) as Hfit.
  { unfold data_bytes in Hwl. rewrite !len_app, !len_to_le, len_aead_seal in Hwl. unfold TAG_SZ in *. lia. }
  destruct (transport_trial now dst budget b tx rx (sending_key_counter tx) (src ++ zeros pad)) as (rx' & Ht & Hrx'); try done.
  eapply wp_mono; [eapply decapsulate_reading_wp; [done|done|exact Hw| | |exact Ht|done]|]; [|done|].
  { apply parse_data; try done; [apply (ho_obf _ (to_handshake _ Hokb))|apply Htx|]. rewrite len_aead_seal. unfold TAG_SZ. lia. }
  intros r b' (l & Hcm & Hst & _ & -> & Hss & Hcur & Hsel). split; [by apply inner_result_padded|]. split_and!.
  - apply Hst, (inert_ok _ _ (inert_limiter l _)). by apply Hcm.
  - by rewrite (as_queue _ _ Hst).
  - exact Hsel.
  - exists rx'. split; [|done]. unfold session_at. rewrite Hss. apply session_at_set, Hokb.
Qed.

(** ** The handshake *)

(** Two tunnels configured for each other. *)
Record paired a b : Prop := {
  pr_params : matched (hs_params (handshake a)) (hs_params (handshake b));
  pr_framing : same_framing (amnezia a) (amnezia b);
  pr_obf : hs_obf (handshake b) = hs_obf (handshake a);
  pr_mac_a : mac1_key (rate_limiter a) = b2s_hash LABEL_MAC1 (static_public (hs_params (handshake a)));
  pr_mac_b : mac1_key (rate_limiter b) = b2s_hash LABEL_MAC1 (static_public (hs_params (handshake b)));
}.

(** Room for the answer to an initiation, and to a response. *)
Definition response_room (dst : bytes) (budget : OutputBudget) t : bool :=
  is_ok (admit_datagram (Some (HANDSHAKE_RESP_SZ + handshake_response_junk_size (amnezia t))) (len dst) (control_for budget Other)).
Definition keepalive_room (dst : bytes) (budget : OutputBudget) t : bool :=
  is_ok (admit_datagram (transport_frame 0 (transport_junk_size (amnezia t))) (len dst) (transport budget)).

Lemma mac1_formatted r key body mac2 :
  len mac2 = 16 -> mac1_key r = key -> mac1_valid r (body ++ b2s_keyed_mac_16 key body ++ mac2) = true.
Proof.
  intros Hl <-. unfold mac1_valid. rewrite mac_fields_app; [apply constant_time_eq_refl|apply len_blake2s_mac|done].
Qed.

Lemma commit_initiation_mac1 eph ai n slot (h : Handshake R) d s h' r :
  commit_initiation eph ai n slot h = Ret (Ok (d, s), h') -> mac1_key r = sending_mac1_key (hs_params h) -> mac1_valid r d = true.
Proof.
  unfold commit_initiation, format_handshake_response. destruct (_ <? _); [done|].
  cbn [hs_state set_state]. set (h0 := set_state HsNone _).
  assert (hs_params (snd (inc_index_avoiding slot h0)) = hs_params h) as Hp by (unfold inc_index_avoiding, inc_index; by destruct (_ =? _)).
  destruct (inc_index_avoiding slot h0) as [li h1]. cbn [snd] in Hp. destruct (random_h2 _ _) as [tag rng].
  destruct (kdf3 _ _) as [[ck t2] k]. destruct (derive_keys ck) as [ka kb].
  match goal with |- context [append_mac1_and_mac2 _ ?b _] => generalize b; intros body end.
  destruct (append_mac1_and_mac2 _ _ _) as [d1 h2] eqn:Ha.
  apply append_macs_spec in Ha as (mac1 & mac2 & -> & _ & Hm2 & -> & _). intros [= <- _ _] Hk.
  cbn [hs_params set_rng]. rewrite Hp. by apply mac1_formatted.
Qed.

(** The responder's end: an initiation with a fresh timestamp is answered, and
    the session it opens is stored, not selected. *)
Lemma initiation_received_wp now_a eph_a a d1 a1 now eph source dst budget b ts :
  tunn_ok a -> tunn_ok b -> paired a b -> initiated now_a eph_a a d1 a1 -> len dst <= usize_max ->
  tai64n_parse (stamp (stamper (handshake a)) now_a) = Ok ts -> tai64n_after ts (last_handshake_timestamp (handshake b)) = true ->
  response_room dst budget b = true -> calm now source b -> sole_reading now d1 dst budget b KHandshakeInit = true ->
  exists s ai, hs_state (handshake a1) = HsInitSent s /\ hs_params (handshake a1) = hs_params (handshake a) /\
    Handshake.answers s ai /\ in_u32 (is_local_index s) /\
    wp (decapsulate_source now eph source d1 dst budget) (fun r b1 => exists d2 sb l, r = WriteToNetwork d2 /\
      tunn_ok b1 /\ amnezia b1 = amnezia b /\ hs_obf (handshake b1) = hs_obf (handshake b) /\
      packet_queue b1 = packet_queue b /\ current b1 = current b /\
      session_at b1 (receiving_index sb) = Some sb /\ responded (set_rate_limiter l b) ai d2 sb b1 /\
      newest b1 (receiving_index sb)) b.
Proof.
  intros Hoka Hokb [Hm Hfr Ho Hma Hmb] (n & packet & h & r0 & Hf & Hh & Hfa) Hdst Hts Haf Hroom Hcalm Hsole.
  pose proof (to_handshake _ Hoka) as [Hpa Hoa Hia _ _ _].
  destruct (initiation_roundtrip _ _ _ _ _ _ _ _ Hm Hoa Hia Hts Haf Hf) as (_ & _ & p & s & ai & Hp & Hs & _ & Hpar & Hau & Hans & Hli & _).
  exists s, ai. rewrite Hh. split; [done|]. split; [done|]. split; [done|]. split; [done|].
  destruct (format_initiation_macs _ _ _ _ _ _ Hpa Hoa Hia Hf) as (_ & body & mac1 & mac2 & _ & Hd & _ & Hl2 & -> & _).
  unfold response_room in Hroom. destruct (admit_datagram _ _ _) as [ceil|] eqn:Hadm; [|done].
  eapply wp_mono; [eapply (decapsulate_reading_wp now eph source d1 dst budget b KHandshakeInit packet (PHandshakeInit p) (AuthInit ai) b)|].
  - done.
  - done.
  - rewrite Ho. by apply framed_as_frame.
  - by rewrite Ho.
  - intros _. split; [|done]. rewrite Hd. apply mac1_formatted; [done|].
    by rewrite Hmb, (po_mac1 _ Hpa), (m_ab _ _ Hm).
  - unfold trial_of. cbn [authenticate_with_budget]. by rewrite Hadm, Hau.
  - done.
  - intros r b1 (l & _ & Hst & _ & d2 & sb & -> & _ & Hss & _ & Hcur & Hre & Hnew). exists d2, sb, l. split_and!; try done.
    + apply Hst. by eapply inert_ok; [apply inert_limiter|].
    + by rewrite (as_amnezia _ _ Hst).
    + by rewrite (as_obf _ _ Hst).
    + by rewrite (as_queue _ _ Hst).
    + unfold session_at. rewrite Hss. apply session_at_set, Hokb.
Qed.

(** The initiator's end: the response completes the handshake, and the session
    is selected and confirmed with a keepalive. *)
Lemma response_received_wp now eph source dst budget a1 b ai s sb d2 b1 l :
  tunn_ok a1 -> tunn_ok b -> paired a1 b -> len dst <= usize_max ->
  hs_state (handshake a1) = HsInitSent s -> Handshake.answers s ai -> in_u32 (is_local_index s) ->
  responded (set_rate_limiter l b) ai d2 sb b1 ->
  keepalive_room dst budget a1 = true -> calm now source a1 -> sole_reading now d2 dst budget a1 KHandshakeResponse = true ->
  wp (decapsulate_source now eph source d2 dst budget) (fun r a2 => exists d3 sa pad, r = WriteToNetwork d3 /\
    tunn_ok a2 /\ packet_queue a2 = packet_queue a1 /\ session_at a2 (current a2) = Some (with_sending_key_counter sa 1) /\
    session_peer sa sb /\ session_peer sb sa /\ session_inv sa [] /\ sending_key_counter sa = 0 /\ carries a1 sa [] pad d3) a1.
Proof.
  intros Hoka Hokb [Hm Hfr Ho Hma Hmb] Hdst Hs Hans Hli (eph2 & n & packet & h & r0 & Hci & Hh & Hfa) Hroom Hcalm Hsole.
  cbn [handshake set_rate_limiter current] in *.
  pose proof (to_handshake _ Hokb) as [Hpb Hob Hib _ _ _].
  destruct (response_roundtrip (handshake a1) (handshake b) now _ _ _ _ _ _ _ _ Hm Hob Hib Hs Hans Hli Hci)
    as (_ & _ & p & ar & Hp & Hau & Hprev & Hp1 & Hp2 & Hi1 & Hi2 & _).
  unfold keepalive_room in Hroom. destruct (admit_datagram _ _ _) as [ceil|] eqn:Hadm; [|done].
  eapply wp_mono; [eapply (decapsulate_reading_wp now eph source d2 dst budget a1 KHandshakeResponse packet (PHandshakeResponse p) (AuthResponse ar) a1)|].
  - done.
  - done.
  - rewrite <- Ho. apply (framed_as_frame (set_rate_limiter l b)); [done|]. symmetry. exact Hfr.
  - by rewrite <- Ho.
  - intros _. split; [|done]. eapply commit_initiation_mac1; [exact Hci|].
    by rewrite Hma, (po_mac1 _ Hpb), (m_ba _ _ Hm).
  - unfold trial_of. cbn [authenticate_with_budget]. by rewrite Hadm, Hau.
  - done.
  - intros r a2 (l2 & _ & Hst & _ & d3 & -> & _ & Hss & Hcur & pad & r2 & Hc & _). exists d3, (ar_session ar), pad. split_and!; try done.
    2: by rewrite (as_queue _ _ Hst).
    + apply Hst. by eapply inert_ok; [apply inert_limiter|].
    + unfold session_at. rewrite Hss, Hcur. apply (session_at_set a1), Hoka.
    + by eapply response_session_new.
Qed.

(** A session just opened takes the first packet of its peer. *)
Lemma commit_initiation_fresh eph ai n slot (h : Handshake R) d s h' :
  commit_initiation eph ai n slot h = Ret (Ok (d, s), h') -> will_accept (receiving_key_counter s) 0 = Ok tt.
Proof.
  unfold commit_initiation, format_handshake_response. destruct (_ <? _); [done|]. cbn [hs_state set_state].
  destruct (inc_index_avoiding _ _) as [li h1]. destruct (random_h2 _ _) as [tag rng]. destruct (kdf3 _ _) as [[ck t2] k].
  destruct (derive_keys ck) as [ka kb]. destruct (append_mac1_and_mac2 _ _ _) as [d1 h2]. by intros [= _ <- _].
Qed.

(** C1. Two tunnels complete a handshake. Between tunnels configured for each
    other, the initiation one emits -- whatever junk, mask, trailer or imitation
    frames it -- makes the other emit a response and store a session; the
    response makes the first select a session and emit a keepalive; and that
    keepalive, when it arrives, makes the other select its own. The two
    sessions are each other's. *)
Theorem tunnel_handshake a b now_a eph_a dst_a force reset budget_a d1 a1 ts now eph source dst budget :
  tunn_ok a -> tunn_ok b -> paired a b -> len dst_a <= usize_max -> len dst <= usize_max ->
  format_handshake_initiation_now_with_budget now_a eph_a dst_a force reset budget_a a = Ret (WriteToNetwork d1, a1) ->
  tai64n_parse (stamp (stamper (handshake a)) now_a) = Ok ts -> tai64n_after ts (last_handshake_timestamp (handshake b)) = true ->
  response_room dst budget b = true -> calm now source b -> sole_reading now d1 dst budget b KHandshakeInit = true ->
  wp (decapsulate_source now eph source d1 dst budget) (fun r b1 => exists d2 sb, r = WriteToNetwork d2 /\
    session_at b1 (receiving_index sb) = Some sb /\ current b1 = current b /\
    forall now2 eph2 source2 dst2 budget2, len dst2 <= usize_max -> keepalive_room dst2 budget2 a1 = true ->
      calm now2 source2 a1 -> sole_reading now2 d2 dst2 budget2 a1 KHandshakeResponse = true ->
      wp (decapsulate_source now2 eph2 source2 d2 dst2 budget2) (fun r a2 => exists d3 sa, r = WriteToNetwork d3 /\
        session_at a2 (current a2) = Some (with_sending_key_counter sa 1) /\ session_peer sa sb /\ session_peer sb sa /\
        forall now3 eph3 source3 dst3 budget3, len d3 <= len dst3 <= usize_max ->
          sole_reading now3 d3 dst3 budget3 b1 KTransportData = true ->
          wp (decapsulate_source now3 eph3 source3 d3 dst3 budget3) (fun r b2 => r = Done /\
            current b2 = receiving_index sb) b1) a1) b.
Proof.
  intros Hoka Hokb Hpr Hda Hdst Hf Hts Haf Hroom Hcalm Hsole.
  pose proof (initiation_now_wp now_a eph_a dst_a force reset budget_a a Hoka Hda) as Hi. unfold wp in Hi. rewrite Hf in Hi. cbn [safely fst snd] in Hi.
  destruct Hi as (Hi & _ & _ & _ & _ & Hini). pose proof (initiating_ok _ _ Hi Hoka) as Hoka1.
  destruct (initiation_received_wp now_a eph_a a d1 a1 now eph source dst budget b ts) as (s & ai & Hs & Hpar & Hans & Hli & Hw); try done.
  eapply wp_mono; [exact Hw|]. intros r b1 (d2 & sb & l & -> & Hokb1 & Ham1 & Hob1 & _ & Hcur1 & Hsb & Hre & Hnew).
  exists d2, sb. split_and!; try done. intros now2 eph2 source2 dst2 budget2 Hdst2 Hroom2 Hcalm2 Hsole2.
  assert (paired a1 b) as Hpr1.
  { destruct Hpr as [Hm Hfr Ho Hma Hmb], Hi as [_ Hob _ _ _ _ _ _ Ham _ Hlim _ _]. split; rewrite ?Hpar, ?Ham, ?Hob, ?Hlim; done. }
  eapply wp_mono; [by apply (response_received_wp now2 eph2 source2 dst2 budget2 a1 b ai s sb d2 b1 l)|].
  intros r a2 (d3 & sa & pad & -> & _ & _ & Hsa & Hp1 & Hp2 & Hia & Hz & Hc). exists d3, sa. split_and!; try done.
  intros now3 eph3 source3 dst3 budget3 [Hd3 Hdst3] Hsole3.
  destruct Hre as (eph' & n & packet & h & r0 & Hci & _). apply commit_initiation_fresh in Hci. rewrite <- Hz in Hci.
  pose proof Hp1 as [_ Hidx]. rewrite <- Hidx in Hsb.
  eapply wp_mono; [eapply (transport_received_wp now3 eph3 source3 dst3 budget3 a1 b1 sa sb [] pad d3)|]; try done.
  - rewrite Ham1. apply Hpr1.
  - rewrite Hob1. apply Hpr1.
  - by exists [].
  - intros r b2 (-> & _ & _ & Hsel & _). split; [done|]. rewrite <- Hidx. apply Hsel. rewrite Hidx. apply Hnew.
Qed.

(** C2. A packet sent is delivered, once. When the sender's session is the peer
    of one the receiver holds, a packet [encapsulate] emits -- padded, sealed,
    framed -- is delivered by [decapsulate] as exactly the packet it was, the
    padding gone; and its counter is spent, so a second copy is refused. *)
Theorem transport_delivered now eph src dst budget a d a' tx now' eph' source dst' budget' b rx :
  tunn_ok a -> tunn_ok b -> budget_ok budget -> len dst <= usize_max -> len d <= len dst' <= usize_max ->
  same_framing (amnezia a) (amnezia b) -> hs_obf (handshake b) = hs_obf (handshake a) ->
  has_current_session a = true -> session_at a (current a) = Some tx ->
  encapsulate_with_budget now eph src dst budget a = Ret (WriteToNetwork d, a') ->
  session_at b (sending_index tx) = Some rx -> session_peer tx rx ->
  will_accept (receiving_key_counter rx) (sending_key_counter tx) = Ok tt -> inner_result src <> TErr InvalidPacket ->
  sole_reading now' d dst' budget' b KTransportData = true ->
  wp (decapsulate_source now' eph' source d dst' budget') (fun r b' => r = inner_result src /\
    packet_queue b' = packet_queue b /\ exists rx', session_at b' (sending_index tx) = Some rx' /\
      is_ok (will_accept (receiving_key_counter rx') (sending_key_counter tx)) = false) b.
Proof.
  intros Hoka Hokb Hb Hdst [Hd Hdst'] Hfr Ho Hcur Htx He Hrx Hpeer Hacc Hin Hsole.
  pose proof (encapsulate_with_budget_wp now eph src dst budget a Hoka Hb Hdst) as Hw. unfold wp in Hw. rewrite He in Hw. cbn [safely fst snd] in Hw.
  destruct Hw as (_ & _ & Hown & _). unfold owned in Hown. rewrite Hcur in Hown.
  destruct Hown as [(tx' & pad & Htx' & Hc & _) _]. rewrite Htx in Htx'. injection Htx' as <-.
  eapply wp_mono; [apply (transport_received_wp now' eph' source dst' budget' a b tx rx src pad d); try done; by apply (session_ok_at a (current a) tx)|].
  intros r b' (-> & _ & Hq & _ & Hr). by split_and!.
Qed.
End Exchange.

(** ** At work *)

Import Toy CounterRng ProtocolFillers SampleEnv.

Definition ex_asked : bytes := datagram_of
  (format_handshake_initiation_now_with_budget 1000 (to_le 32 77) ex_dst false false UNBOUNDED ex_alice_new).
Definition ex_alice_asked : Tunn Z := state_of ex_alice_new
  (format_handshake_initiation_now_with_budget 1000 (to_le 32 77) ex_dst false false UNBOUNDED ex_alice_new).

Lemma ex_paired : paired ex_alice_new ex_bob_new.
Proof.
  split; [|split; [by intros []|vm_compute; reflexivity..]|vm_compute; reflexivity..].
  split; [apply (ho_params _ (to_handshake _ ex_alice_new_ok))|apply (ho_params _ (to_handshake _ ex_bob_new_ok))|vm_compute; reflexivity..].
Qed.

Lemma tunnel_handshake_witness : exists d1 a1, format_handshake_initiation_now_with_budget 1000 (to_le 32 77) ex_dst false false UNBOUNDED ex_alice_new = Ret (WriteToNetwork d1, a1) /\
  wp (decapsulate_source 50000000 (to_le 32 99) None d1 ex_dst UNBOUNDED) (fun r b1 => exists d2 sb, r = WriteToNetwork d2 /\
    session_at b1 (receiving_index sb) = Some sb /\ current b1 = current ex_bob_new /\
    forall now2 eph2 source2 dst2 budget2, len dst2 <= usize_max -> keepalive_room dst2 budget2 a1 = true ->
      calm now2 source2 a1 -> sole_reading now2 d2 dst2 budget2 a1 KHandshakeResponse = true ->
      wp (decapsulate_source now2 eph2 source2 d2 dst2 budget2) (fun r a2 => exists d3 sa, r = WriteToNetwork d3 /\
        session_at a2 (current a2) = Some (with_sending_key_counter sa 1) /\ session_peer sa sb /\ session_peer sb sa /\
        forall now3 eph3 source3 dst3 budget3, len d3 <= len dst3 <= usize_max ->
          sole_reading now3 d3 dst3 budget3 b1 KTransportData = true ->
          wp (decapsulate_source now3 eph3 source3 d3 dst3 budget3) (fun r b2 => r = Done /\
            current b2 = receiving_index sb) b1) a1) ex_bob_new.
Proof.
  assert (format_handshake_initiation_now_with_budget 1000 (to_le 32 77) ex_dst false false UNBOUNDED ex_alice_new = Ret (WriteToNetwork ex_asked, ex_alice_asked)) as E
    by (apply emits_eq; vm_compute; reflexivity).
  exists ex_asked, ex_alice_asked. split; [exact E|].
  assert (exists ts, tai64n_parse (stamp (stamper (handshake ex_alice_new)) 1000) = Ok ts /\
    tai64n_after ts (last_handshake_timestamp (handshake ex_bob_new)) = true) as (ts & Hts & Haf)
    by (eexists; split; vm_compute; reflexivity).
  apply (tunnel_handshake ex_alice_new ex_bob_new 1000 (to_le 32 77) ex_dst false false UNBOUNDED ex_asked
    ex_alice_asked ts 50000000 (to_le 32 99) None ex_dst UNBOUNDED);
    [auto with examples|auto with examples|exact ex_paired|auto with examples|auto with examples|exact E|exact Hts|exact Haf|..].
  - vm_compute. reflexivity.
  - right. vm_compute. reflexivity.
  - vm_compute. reflexivity.
Defined.

Definition ex_emitted : bytes := datagram_of
  (encapsulate_with_budget 80000000 (to_le 32 77) ex_inner ex_dst UNBOUNDED ex_alice_up).
Definition ex_alice_emitted : Tunn Z := state_of ex_alice_up
  (encapsulate_with_budget 80000000 (to_le 32 77) ex_inner ex_dst UNBOUNDED ex_alice_up).

Lemma transport_delivered_witness :
  wp (decapsulate_source 90000000 (to_le 32 99) None ex_emitted ex_dst UNBOUNDED) (fun r b' => r = inner_result ex_inner /\
    packet_queue b' = packet_queue ex_bob_up /\ exists rx', session_at b' 1793 = Some rx' /\
      is_ok (will_accept (receiving_key_counter rx') 1) = false) ex_bob_up.
Proof.
  assert (encapsulate_with_budget 80000000 (to_le 32 77) ex_inner ex_dst UNBOUNDED ex_alice_up = Ret (WriteToNetwork ex_emitted, ex_alice_emitted)) as E
    by (apply emits_eq; vm_compute; reflexivity).
  assert (exists tx, session_at ex_alice_up (current ex_alice_up) = Some tx /\ sending_index tx = 1793 /\ sending_key_counter tx = 1 /\
    exists rx, session_at ex_bob_up 1793 = Some rx /\ session_peer tx rx /\ will_accept (receiving_key_counter rx) 1 = Ok tt)
    as (tx & Htx & Hi & Hn & rx & Hrx & Hp & Ha).
  { eexists. split; [vm_compute; reflexivity|]. do 2 (split; [vm_compute; reflexivity|]). eexists.
    split; [vm_compute; reflexivity|]. split; [split|]; vm_compute; reflexivity. }
  pose proof (transport_delivered 80000000 (to_le 32 77) ex_inner ex_dst UNBOUNDED ex_alice_up ex_emitted
    ex_alice_emitted tx 90000000 (to_le 32 99) None ex_dst UNBOUNDED ex_bob_up rx) as Hd.
  rewrite Hi, Hn in Hd. apply Hd.
  - auto with examples.
  - auto with examples.
  - split; apply Z.leb_le; vm_compute; reflexivity.
  - auto with examples.
  - split; apply Z.leb_le; vm_compute; reflexivity.
  - split; [intros []; vm_compute; reflexivity|vm_compute; reflexivity..].
  - vm_compute. reflexivity.
  - vm_compute. reflexivity.
  - exact Htx.
  - exact E.
  - exact Hrx.
  - exact Hp.
  - exact Ha.
  - intros C. vm_compute in C. discriminate C.
  - vm_compute. reflexivity.
Defined.
