(* ===== verification/DeviceTables.v ===== *)
(** What the device's tables promise: they agree with each other and with the
    peers they hold, every peer is keyed and framed as the device is, and every
    control operation keeps it so. *)

From stdpp Require Import gmap functions.
From S2P Require Import Prelude Budget Instant Crypto Rand Tags Packet Session RateLimiter Amnezia Framing.
From S2P Require Import Handshake Imitation Timers OpReport Tunn TunnReceive TunnTick TunnConfig Stun ReplyPolicy.
From S2P Require Import TunnLogic TunnOutput TunnSend TunnInput TunnPoll TunnSystem.
From S2P Require Import ProbeBudget ProbeReply ImitationHints AllowedIps PeerIndex Peer Device.

Lemma filter_everything {A} (P : A -> Prop) `{!forall x, Decision (P x)} l : Forall P l -> filter P l = l.
Proof. induction 1 as [|x l Hx Hl IH]; [done|]. by rewrite filter_cons_True, IH. Qed.

Section Tables.
Context `{Crypto} `{!CryptoLaws} {R : Type} `{RngCore R} `{!RngLaws R} `{PrefixFillers R} `{!FillerLaws R} `{ImitationEnv} `{!ImitationLaws}.
Context `{NetworkTable} `{!NetworkTableLaws}.
Implicit Types (d : Device R) (p : Peer R) (t : Tunn R).

(** ** Peers *)

(** What a peer keeps through every operation but a change of the device's key
    or framing. *)
Record peer_kept p p' : Prop := {
  pk_ok : tunn_ok (tunnel p) -> tunn_ok (tunnel p');
  pk_index : peer_index p' = peer_index p;
  pk_identity : identity (tunnel p') = identity (tunnel p);
  pk_framing : tunn_framing (tunnel p') = tunn_framing (tunnel p);
}.
#[export] Instance peer_kept_preorder : PreOrder peer_kept.
Proof. split; [by split|]. intros a b c [] []. split; try congruence; auto. Qed.

Definition tunn_kept t t' : Prop := (tunn_ok t -> tunn_ok t') /\ identity t' = identity t /\ tunn_framing t' = tunn_framing t.

Lemma on_tunnel_kept {A} (m : M R A) p :
  wp m (fun _ t' => tunn_kept (tunnel p) t') (tunnel p) -> safely (on_tunnel m p) (fun r => peer_kept p (snd r)).
Proof.
  intros Hm. unfold on_tunnel. apply safely_bind. eapply safely_mono; [exact Hm|]. intros [a t] (Hok & Hid & Hfr). cbn. by split.
Qed.

Lemma set_preshared_key_kept psk t : wp (set_preshared_key psk) (fun _ t' => tunn_kept t t') t.
Proof. wp_use (set_preshared_key_wp (R := R) psk t). intros _ t' (Hr & _ & _ & Hid & Hfr). split; [apply Hr|done]. Qed.
Lemma keepalive_kept low high t : wp (tunn_set_persistent_keepalive_range low high) (fun _ t' => tunn_kept t t') t.
Proof.
  unfold tunn_set_persistent_keepalive_range. destruct (normalize_persistent_keepalive_range low high); wp_steps; [|done].
  split; [|done]. apply (po_ok _ _ (retimed_polled _ _ (retimed_timers _ _ (keepalive_timers _ _)))).
Qed.
Lemma discard_kept t : wp discard_imitation_hint (fun _ t' => tunn_kept t t') t.
Proof. unfold discard_imitation_hint. wp_steps. split; [|done]. apply (rc_ok _ _ (reconfigured_auto_set _ t)). Qed.
Lemma window_kept t : wp reset_udp_window (fun _ t' => tunn_kept t t') t.
Proof. unfold reset_udp_window. wp_steps. split; [|done]. by apply (rc_ok _ _ (reconfigured_window DEFAULT_UDP_WINDOW t ltac:(done))). Qed.

Lemma kept_ret p : safely (Ret p) (peer_kept p).
Proof. by split. Qed.

Lemma move_endpoint_kept addr reset p : safely (move_endpoint addr reset p) (peer_kept p).
Proof.
  unfold move_endpoint. case_bool_decide; [apply kept_ret|]. apply safely_bind.
  eapply (safely_mono _ (fun r => peer_kept (set_peer_endpoint {| ep_addr := Some (canonical_endpoint addr); ep_conn := None |} p) (snd r))).
  - destruct reset; [apply on_tunnel_kept, window_kept|by split].
  - intros [u p'] [? ? ? ?]. by split.
Qed.

Lemma keepalive_peer_kept range p : safely (peer_set_persistent_keepalive_range range p) (peer_kept p).
Proof.
  unfold peer_set_persistent_keepalive_range. apply safely_bind. eapply safely_mono; [apply on_tunnel_kept, keepalive_kept|]. by intros [].
Qed.

Lemma merge_fields_kept endpoint keepalive psk p : safely (merge_fields endpoint keepalive psk p) (peer_kept p).
Proof.
  unfold merge_fields. apply safely_bind. eapply (safely_mono _ (peer_kept p)).
  { destruct endpoint as [addr|]; [|apply kept_ret]. apply safely_bind. eapply (safely_mono _ (peer_kept p)).
    - case_bool_decide; [apply kept_ret|]. apply safely_bind. eapply safely_mono; [apply on_tunnel_kept, discard_kept|]. by intros [].
    - intros p1 H1'. eapply safely_mono; [apply move_endpoint_kept|]. intros p2 H2'. by etrans. }
  intros p1 H1'. apply safely_bind. eapply (safely_mono _ (peer_kept p)).
  { destruct keepalive as [range|]; [|done]. eapply safely_mono; [apply keepalive_peer_kept|]. intros p2 H2'. by etrans. }
  intros p2 H2'. destruct psk as [k|]; [|done]. unfold peer_set_preshared_key. apply safely_bind.
  eapply safely_mono; [apply (on_tunnel_kept _ (set_psk_field (Some k) p2)), set_preshared_key_kept|].
  intros [u p3] H3'. cbn in *. etrans; [exact H2'|]. destruct H3'. by split.
Qed.

(** ** The invariant *)

Definition conforms d (key : bytes) p : Prop :=
  (exists private public, key_pair d = Some (private, public) /\ identity (tunnel p) = (private, public, key)) /\
  tunn_framing (tunnel p) = (cfg_amnezia (config d), cfg_obf (config d)).

Definition config_valid (c : DeviceConfig) : Prop :=
  obf_ok (cfg_obf c) /\ config_ok (cfg_amnezia c) /\ check_header_protection_nonce (cfg_amnezia c) = Ok tt.

(** After [k] indices. *)
Record device_ok (k : nat) d : Prop := {
  do_lfsr : lfsr_at (index_lfsr d) k;
  do_issued : map_Forall (fun i _ => exists j, (j < k)%nat /\ i = index_of (index_lfsr d) j) (peers_by_idx d);
  do_fresh : map_Forall (fun l _ => (l < next_location d)%nat) (store d);
  do_tunnels : map_Forall (fun _ p => tunn_ok (tunnel p)) (store d);
  do_peers : map_Forall (fun key l => exists p, store d !! l = Some p /\ peers_by_idx d !! peer_index p = Some l /\ conforms d key p) (peers d);
  do_idx : map_Forall (fun i l => exists key p, peers d !! key = Some l /\ store d !! l = Some p /\ peer_index p = i) (peers_by_idx d);
  do_ips : map_Forall (fun _ l => exists key, peers d !! key = Some l) (entries (peers_by_ip d));
  do_keys : match key_pair d with
    | Some (private, public) => public = x25519_public private /\ is_Some (device_limiter d)
    | None => device_limiter d = None
    end;
  do_config : config_valid (config d);
}.

(** A peer is in the table under one key. *)
Lemma peer_key_unique k d key key' l : device_ok k d -> peers d !! key = Some l -> peers d !! key' = Some l -> key = key'.
Proof.
  intros Hd E E'. destruct (do_peers _ _ Hd _ _ E) as (p & Hp & _ & (a & b & _ & Hi) & _).
  destruct (do_peers _ _ Hd _ _ E') as (p' & Hp' & _ & (a' & b' & _ & Hi') & _). congruence.
Qed.

Lemma locations_nodup k d : device_ok k d -> NoDup (locations d).
Proof.
  intros Hd. apply NoDup_fmap_2_strong; [|apply NoDup_map_to_list].
  intros [key l] [key' l'] E%elem_of_map_to_list E'%elem_of_map_to_list Hl. cbn in Hl. subst l'. f_equal. by eapply peer_key_unique.
Qed.
Lemma elem_of_locations d l : l ∈ locations d <-> exists key, peers d !! key = Some l.
Proof.
  unfold locations. rewrite list_elem_of_fmap. split.
  - intros ([key l'] & -> & E%elem_of_map_to_list). by exists key.
  - intros [key E]. exists (key, l). split; [done|]. by apply elem_of_map_to_list.
Qed.

Lemma conforms_kept d key p p' : peer_kept p p' -> conforms d key p -> conforms d key p'.
Proof. intros [_ _ Hi Hf] [Hc Hf']. split; [by rewrite Hi|congruence]. Qed.

(** An operation on one peer. *)
Lemma device_ok_store k d l p p' : device_ok k d -> store d !! l = Some p -> peer_kept p p' -> device_ok k (set_store (<[l := p']> (store d)) d).
Proof.
  intros [] El Hk. split; cbn; try done.
  - apply map_Forall_insert_2; [|done]. eapply (do_fresh0 _ _ El).
  - apply map_Forall_insert_2; [|done]. apply Hk. eapply (do_tunnels0 _ _ El).
  - intros key l' E. destruct (do_peers0 _ _ E) as (q & Hq & Hx & Hc). destruct (decide (l' = l)) as [->|Hne].
    + exists p'. rewrite lookup_insert_eq. assert (q = p) as -> by congruence. split; [done|]. rewrite (pk_index _ _ Hk).
      split; [done|]. by eapply conforms_kept.
    + exists q. by rewrite lookup_insert_ne.
  - intros i l' E. destruct (do_idx0 _ _ E) as (key & q & Ek & Hq & Hx). destruct (decide (l' = l)) as [->|Hne].
    + exists key, p'. rewrite lookup_insert_eq, (pk_index _ _ Hk). assert (q = p) as -> by congruence. done.
    + exists key, q. by rewrite lookup_insert_ne.
Qed.

Lemma device_ok_hints k d h : device_ok k d -> device_ok k (set_hints h d).
Proof. by intros []. Qed.

(** ** The operations *)

Lemma with_peer_ok k d l (f : Peer R -> outcome (unit * Peer R)) p :
  device_ok k d -> store d !! l = Some p -> safely (f p) (fun r => peer_kept p (snd r)) ->
  safely (with_peer l f d) (fun r => device_ok k (snd r) /\ exists p', snd r = set_store (<[l := p']> (store d)) d).
Proof.
  intros Hd El Hf. unfold with_peer. rewrite El. apply safely_bind. eapply safely_mono; [exact Hf|].
  intros [u p'] Hk. cbn in *. split; [by eapply device_ok_store|by exists p'].
Qed.

(** A table of the same owners, or of one more. *)
Lemma device_ok_ips k d ips : device_ok k d ->
  map_Forall (fun _ l => exists key, peers d !! key = Some l) (entries ips) -> device_ok k (set_by_ip ips d).
Proof. by intros []. Qed.

Lemma find_of_len ip (ips : Table nat) l : find_len ip ips = l -> allowed_ips_find ip ips = snd <$> l.
Proof. intros <-. apply find_find_len. Qed.

Lemma remove_owners (ips : Table nat) (l : nat) :
  map_Forall (fun _ l' => l' <> l /\ exists net, entries ips !! net = Some l') (entries (allowed_ips_remove (fun x => bool_decide (x = l)) ips)).
Proof.
  intros net l' E. rewrite remove_entries in E. apply map_lookup_filter_Some in E as [E Hf]. cbn in Hf.
  split; [by apply bool_decide_eq_false in Hf|by exists net].
Qed.

Lemma remove_peer_ok k d key : device_ok k d ->
  safely (remove_peer key d) (fun d' => device_ok k d' /\ peers d' = delete key (peers d) /\ peers d' !! key = None /\
    forall l, peers d !! key = Some l -> (forall i, peers_by_idx d' !! i <> Some l) /\ (forall ip, peer_owns l ip d' = false) /\
      forall ip, ip_ok ip -> allowed_ips_find ip (peers_by_ip d') = snd <$> route (filter (fun x => bool_decide (snd x = l) = false) (prefixes (peers_by_ip d))) ip).
Proof.
  intros Hd. unfold remove_peer. destruct (peers d !! key) as [l|] eqn:El.
  2: { cbn. by rewrite delete_id. }
  destruct (do_peers _ _ Hd _ _ El) as (p & Hp & Hx & Hc). rewrite Hp. cbn [safely].
  set (d1 := set_store _ _). assert (device_ok k d1) as Hd1.
  { apply (device_ok_store k (set_hints _ d) l p); [by apply device_ok_hints|done|by split]. }
  assert (forall key' l', peers d !! key' = Some l' -> key' <> key -> l' <> l) as Hother by (intros key' l' E Hne ->; apply Hne; by eapply peer_key_unique).
  pose proof (remove_owners (peers_by_ip d) l) as Hown.
  split; [|split; [done|split; [apply lookup_delete_eq|]]].
  - destruct Hd1 as [Hl Hi Hf Ht Hps Hix Hips Hks Hcfg]. split; cbn; try done.
    + by apply map_Forall_delete.
    + intros key' l' [Hne E]%lookup_delete_Some. destruct (Hps _ _ E) as (q & Hq & Hxq & Hcq). exists q. split; [done|]. split; [|done].
      apply lookup_delete_Some. split; [|done]. intros Heq. cbn in Hxq. rewrite <- Heq, Hx in Hxq. injection Hxq as <-. by eapply Hother.
    + intros i l' [Hne E]%lookup_delete_Some. destruct (Hix _ _ E) as (key' & q & Ek & Hq & Hxq). exists key', q. split_and!; try done.
      apply lookup_delete_Some. split; [|done]. intros <-. cbn in Ek, Hq. assert (l' = l) as -> by congruence.
      rewrite lookup_insert_eq in Hq. injection Hq as <-. done.
    + intros net l' E. destruct (Hown _ _ E) as [Hne [net' E']]. destruct (Hips _ _ E') as [key' Ek]. exists key'. apply lookup_delete_Some.
      split; [|done]. intros <-. cbn in Ek. congruence.
  - intros l0 [= <-]. cbn. split_and!; [| |intros ip Hip; by apply find_of_len, (find_len_remove (fun x => bool_decide (x = l)))].
    + intros i [Hne E]%lookup_delete_Some. destruct (do_idx _ _ Hd _ _ E) as (key' & q & Ek & Hq & Hxq). congruence.
    + intros ip. unfold peer_owns, index_owns, allowed_ips_find. cbn.
      destruct (longest_match ip _) as [[net l']|] eqn:E; [|done]. cbn. apply longest_match_some in E as [E _].
      destruct (Hown _ _ E) as [Hne _]. by apply bool_decide_eq_false.
Qed.

Definition allowed_ip_ok (x : AllowedIP) : Prop := ip_ok (aip_addr x) /\ 0 <= aip_cidr x <= ip_bits (aip_addr x).

(** The prefixes an update of the peer at [l] leaves: the others', the peer's
    own unless they are replaced, and the new ones. *)
Definition updated_prefixes (l : nat) (replace_ips : bool) (new : list AllowedIP) (ips : Table nat) : list (IpAddr * Z * nat) :=
  (if replace_ips then filter (fun x => bool_decide (snd x = l) = false) (prefixes ips) else prefixes ips) ++ with_owner l (prefix_pairs new).

Lemma with_owner_ok l new : Forall allowed_ip_ok new -> Forall prefix_ok (with_owner l (prefix_pairs new)).
Proof. intros Hn. apply Forall_fmap, Forall_fmap. eapply Forall_impl; [exact Hn|]. by intros []. Qed.

Lemma own_prefixes l (ips : Table nat) :
  with_owner l (index_prefixes ips l) = map prefix_of (filter (fun e => bool_decide (snd e = l) = true) (table_iter ips)).
Proof.
  unfold index_prefixes, allowed_ips_iter. induction (table_iter ips) as [|[net l'] es IH]; [done|].
  cbn [map]. rewrite !filter_cons. cbn [fst snd]. destruct (decide (l' = l)) as [->|Hne].
  - rewrite decide_True by by apply bool_decide_eq_true. cbn [map with_owner]. f_equal. exact IH.
  - rewrite decide_False by by rewrite bool_decide_eq_true. exact IH.
Qed.

(** Adding prefixes of one owner. *)
Lemma insert_new l new (ips : Table nat) : Forall allowed_ip_ok new ->
  exists ips', insert_all (with_owner l (prefix_pairs new)) ips = Ret ips' /\
    (forall ip, ip_ok ip -> find_len ip ips' = fold_left (closer ip) (with_owner l (prefix_pairs new)) (find_len ip ips)) /\
    map_Forall (fun _ l' => l' = l \/ exists net, entries ips !! net = Some l') (entries ips').
Proof.
  intros Hn. destruct (insert_all_spec (with_owner l (prefix_pairs new)) ips (with_owner_ok l new Hn)) as (ips' & Hi & Hf & Hd).
  exists ips'. split; [done|]. split; [done|]. intros net l' E. destruct (Hd _ _ E) as [?|(q & Hq & <-)]; [right; by exists net|left].
  unfold with_owner in Hq. by apply list_elem_of_fmap in Hq as ([a c] & -> & _).
Qed.

Lemma update_ips l (replace_ips : bool) new (ips : Table nat) : Forall allowed_ip_ok new ->
  exists ips', insert_all (with_owner l ((if replace_ips then [] else index_prefixes ips l) ++ prefix_pairs new))
      (allowed_ips_remove (fun x => bool_decide (x = l)) ips) = Ret ips' /\
    (forall ip, ip_ok ip -> find_len ip ips' = route (updated_prefixes l replace_ips new ips) ip) /\
    map_Forall (fun _ l' => l' = l \/ exists net, entries ips !! net = Some l') (entries ips').
Proof.
  intros Hn. destruct replace_ips; cbn [app].
  - destruct (insert_new l new (allowed_ips_remove (fun x => bool_decide (x = l)) ips) Hn) as (ips' & Hi & Hf & Hd). exists ips'.
    split; [done|]. split.
    + intros ip Hip. rewrite Hf, find_len_remove by done. unfold updated_prefixes, route. by rewrite fold_left_app.
    + intros net l' E. destruct (Hd _ _ E) as [?|[net' E']]; [by left|right]. by apply (remove_owners ips l _ _ E').
  - unfold with_owner. rewrite map_app. fold (with_owner l (index_prefixes ips l)) (with_owner l (prefix_pairs new)).
    rewrite insert_all_app, own_prefixes. destruct (insert_back (fun x => bool_decide (x = l)) ips) as (ips1 & -> & He). cbn [obind].
    destruct (insert_new l new ips1 Hn) as (ips' & Hi & Hf & Hd). exists ips'. split; [done|]. rewrite He in Hd. split; [|done].
    intros ip Hip. rewrite Hf, (find_len_entries ip ips1 ips Hip He), find_len_route by done. unfold updated_prefixes, route. by rewrite fold_left_app.
Qed.

Lemma merge_peer_ok k d key l replace_ips endpoint new keepalive psk :
  device_ok k d -> peers d !! key = Some l -> Forall allowed_ip_ok new ->
  safely (merge_peer l replace_ips endpoint new keepalive psk d) (fun d' => device_ok k d' /\ peers d' = peers d /\
    forall ip, ip_ok ip -> allowed_ips_find ip (peers_by_ip d') = snd <$> route (updated_prefixes l replace_ips new (peers_by_ip d)) ip).
Proof.
  intros Hd El Hn. destruct (do_peers _ _ Hd _ _ El) as (p & Hp & _). unfold merge_peer. apply safely_bind.
  eapply safely_mono.
  { eapply (with_peer_ok k d l _ p); [done|done|]. apply safely_bind. eapply safely_mono; [apply merge_fields_kept|]. by intros p' Hk. }
  intros [u d0] [Hd1 [p' E]]. cbn [snd] in *. subst d0. set (d1 := set_store _ d) in *. destruct (_ || _) eqn:Hup.
  - destruct (update_ips l replace_ips new (peers_by_ip d) Hn) as (ips' & Hi & Hf & Ho). apply safely_bind.
    change (peer_allowed_ips l d1) with (index_prefixes (peers_by_ip d) l). change (peers_by_ip d1) with (peers_by_ip d). rewrite Hi. cbn [safely].
    split; [|split; [done|intros ip Hip; by apply find_of_len, Hf]]. apply device_ok_ips; [done|].
    intros net l' E. destruct (Ho _ _ E) as [->|[net' E']]; [by exists key|]. apply (do_ips _ _ Hd _ _ E').
  - apply orb_false_iff in Hup as [-> Hup]. apply negb_false_iff, bool_decide_eq_true in Hup as ->. cbn [safely]. split; [done|]. split; [done|].
    intros ip Hip. apply find_of_len. unfold updated_prefixes. cbn [prefix_pairs map with_owner]. rewrite app_nil_r. by apply find_len_route.
Qed.

(** A new index is in no table. *)
Lemma next_index_ok k d : device_ok k d -> Z.of_nat k + 1 < period ->
  exists i l', device_next_index d = Ret (i, set_lfsr l' d) /\ device_ok (S k) (set_lfsr l' d) /\ peers_by_idx d !! i = None /\ i = index_of l' k.
Proof.
  intros Hd Hk. destruct (lfsr_next_left _ _ (do_lfsr _ _ Hd) Hk) as (i & l' & E). exists i, l'.
  destruct (lfsr_next_spec _ _ _ _ (do_lfsr _ _ Hd) E) as (Hl & Hi & Hold). unfold device_next_index. rewrite E. cbn [obind].
  split; [done|]. split; [|split; [|done]].
  - destruct Hd. split; cbn; try done. intros j l Ej. destruct (do_issued0 _ _ Ej) as (n & Hn & ->). exists n. split; [lia|]. symmetry. by apply Hold.
  - destruct (peers_by_idx d !! i) as [l|] eqn:Ei; [|done]. destruct (do_issued _ _ Hd _ _ Ei) as (j & Hj & ->). destruct (Hold j Hj). done.
Qed.

Lemma tunn_new_spec now seed private key psk keepalive index limiter obf c :
  obf_ok obf -> config_ok c -> check_header_protection_nonce c = Ok tt ->
  exists t : Tunn R, tunn_new now seed private key psk keepalive index limiter obf c = Ok t /\ tunn_ok t /\
    identity t = (private, x25519_public private, key) /\ tunn_framing t = (c, obf).
Proof.
  intros Ho Hc Hn. destruct (tunn_new now seed private key psk keepalive index limiter obf c) as [t|e] eqn:E.
  - exists t. split; [done|]. split; [by eapply tunn_new_ok|]. unfold tunn_new in E. rewrite Hn in E. by injection E as <-.
  - unfold tunn_new in E. by rewrite Hn in E.
Qed.

(** Entering a new peer in the tables. *)
Lemma device_ok_enter k d key i p ips : device_ok (S k) d -> peers d !! key = None -> peers_by_idx d !! i = None ->
  i = index_of (index_lfsr d) k -> peer_index p = i -> tunn_ok (tunnel p) -> conforms d key p ->
  map_Forall (fun _ l' => l' = next_location d \/ exists net, entries (peers_by_ip d) !! net = Some l') (entries ips) ->
  device_ok (S k) (set_tables (<[key := next_location d]> (peers d)) ips (<[i := next_location d]> (peers_by_idx d)) (snd (alloc p d))).
Proof.
  intros [Hl Hi Hf Ht Hps Hix Hips Hks Hcfg] Hkey Hidx Hi' Hp Hok Hc Hown. set (l := next_location d) in *.
  assert (store d !! l = None) as Hnew by (destruct (store d !! l) eqn:E; [specialize (Hf _ _ E); cbn in Hf; lia|done]).
  assert (forall key' l', peers d !! key' = Some l' -> l' <> l) as Hother by (intros key' l' E ->; destruct (Hps _ _ E) as (q & Hq & _); congruence).
  split; cbn; try done.
  - apply map_Forall_insert_2; [|done]. exists k. split; [lia|done].
  - apply map_Forall_insert_2; [cbn; lia|]. eapply map_Forall_impl; [exact Hf|]. intros l' q Hlt. cbn in *. lia.
  - by apply map_Forall_insert_2.
  - apply map_Forall_insert_2.
    + exists p. rewrite Hp, !lookup_insert_eq. by split_and!.
    + intros key' l' E. destruct (Hps _ _ E) as (q & Hq & Hxq & Hcq). exists q.
      rewrite lookup_insert_ne by (apply not_eq_sym; by eapply Hother). split; [done|]. rewrite lookup_insert_ne by congruence. done.
  - apply map_Forall_insert_2.
    + exists key, p. by rewrite !lookup_insert_eq.
    + intros j l' E. destruct (Hix _ _ E) as (key' & q & Ek & Hq & Hxq). exists key', q.
      rewrite lookup_insert_ne by congruence. split; [done|]. rewrite lookup_insert_ne by (apply not_eq_sym; by eapply Hother). done.
  - intros net l' E. destruct (Hown _ _ E) as [->|[net' E']]; [exists key; apply lookup_insert_eq|].
    destruct (Hips _ _ E') as [key' Ek]. exists key'. rewrite lookup_insert_ne by congruence. done.
Qed.

(** No prefix belongs to a location not in use. *)
Lemma updated_fresh k d l replace_ips new : device_ok k d -> l = next_location d ->
  updated_prefixes l replace_ips new (peers_by_ip d) = updated_prefixes l false new (peers_by_ip d).
Proof.
  intros Hd ->. destruct replace_ips; [|done]. unfold updated_prefixes. f_equal. apply filter_everything, Forall_forall. intros x Hx.
  rewrite prefixes_iter in Hx. apply list_elem_of_fmap in Hx as ([net l'] & -> & Hin). cbn. apply bool_decide_eq_false. intros ->.
  destruct (do_ips _ _ Hd net (next_location d)) as [key E]; [apply elem_of_list_to_map; [apply iter_nodup|done]|].
  destruct (do_peers _ _ Hd _ _ E) as (q & Hq & _). pose proof (do_fresh _ _ Hd _ _ Hq). cbn in *. lia.
Qed.

Lemma keepalive_option_kept (keepalive : option (Z * Z)) p :
  safely (match keepalive with None => Ret p | Some range => peer_set_persistent_keepalive_range range p end) (peer_kept p).
Proof. destruct keepalive; [apply keepalive_peer_kept|apply kept_ret]. Qed.

Definition peer_updated key (remove replace_ips : bool) new d (r : result DeviceError unit) d' : Prop :=
  if remove then
    r = Ok tt /\ peers d' = delete key (peers d) /\
    forall l, peers d !! key = Some l -> (forall i, peers_by_idx d' !! i <> Some l) /\ (forall ip, peer_owns l ip d' = false) /\
      forall ip, ip_ok ip -> allowed_ips_find ip (peers_by_ip d') = snd <$> route (filter (fun x => bool_decide (snd x = l) = false) (prefixes (peers_by_ip d))) ip
  else match r with
  | Err e => e = KeyNotSet /\ key_pair d = None /\ peers d' = peers d /\ peers_by_ip d' = peers_by_ip d
  | Ok _ => let l := default (next_location d) (peers d !! key) in
      peers d' = <[key := l]> (peers d) /\ is_Some (store d' !! l) /\
      forall ip, ip_ok ip -> allowed_ips_find ip (peers_by_ip d') = snd <$> route (updated_prefixes l replace_ips new (peers_by_ip d)) ip
  end.

Lemma create_peer_ok k d now seed key replace_ips endpoint new keepalive psk :
  device_ok k d -> Z.of_nat k + 1 < period -> Forall allowed_ip_ok new -> peers d !! key = None ->
  safely (update_peer now seed key false replace_ips endpoint new keepalive psk d) (fun r =>
    device_ok (S k) (snd r) /\ peer_updated key false replace_ips new d (fst r) (snd r)).
Proof.
  intros Hd Hk Hn Hkey. destruct (next_index_ok k d Hd Hk) as (i & l' & Ei & Hd1 & Hi & Hi'). unfold update_peer. rewrite Hkey, Ei.
  cbn [obind]. set (d1 := set_lfsr l' d) in *. change (key_pair d1) with (key_pair d).
  destruct (key_pair d) as [[private public]|] eqn:Ekp; cbn [require_key_pair]; [|by cbn].
  assert (public = x25519_public private) as -> by (pose proof (do_keys _ _ Hd) as Hks; rewrite Ekp in Hks; apply Hks).
  destruct (do_config _ _ Hd) as (Ho & Hc & Hno).
  destruct (tunn_new_spec now seed private key psk (match keepalive with Some (lo, _) => if 0 <? lo then Some lo else None | None => None end)
    i (device_limiter d1) (cfg_obf (config d1)) (cfg_amnezia (config d1)) Ho Hc Hno) as (t & -> & Ht & Hid & Hfr).
  apply safely_bind. eapply safely_mono; [apply keepalive_option_kept|]. intros p [Hpok Hpi Hpid Hpfr].
  destruct (insert_new (next_location d) new (peers_by_ip d) Hn) as (ips & Hins & Hf & Hown).
  unfold alloc. cbn [peers_by_ip peers peers_by_idx]. change (next_location d1) with (next_location d). change (peers_by_ip d1) with (peers_by_ip d).
  rewrite Hins. cbn [obind safely fst snd]. split.
  - apply (device_ok_enter k d1 key i p ips); try done; [by apply Hpok|]. split; [|by rewrite Hpfr].
    exists private, (x25519_public private). by rewrite Hpid.
  - cbn [peer_updated]. rewrite Hkey. cbn [default]. split; [done|]. split; [cbn; rewrite lookup_insert_eq; by eexists|].
    intros ip Hip. apply find_of_len. rewrite (updated_fresh k) by done.
    cbn [peers_by_ip set_tables]. rewrite Hf, find_len_route by done. unfold updated_prefixes, route. by rewrite fold_left_app.
Qed.

Lemma update_peer_ok k d now seed key remove replace_ips endpoint new keepalive psk :
  device_ok k d -> Z.of_nat k + 1 < period -> Forall allowed_ip_ok new ->
  safely (update_peer now seed key remove replace_ips endpoint new keepalive psk d) (fun r =>
    (exists k', (k' <= S k)%nat /\ device_ok k' (snd r)) /\ peer_updated key remove replace_ips new d (fst r) (snd r)).
Proof.
  intros Hd Hk Hn. destruct remove.
  - unfold update_peer. apply safely_bind. eapply safely_mono; [by apply (remove_peer_ok k)|]. intros d' (Hd' & Hp & _ & Hr). cbn.
    split; [exists k; split; [lia|done]|done].
  - destruct (peers d !! key) as [l|] eqn:El.
    + unfold update_peer. rewrite El. apply safely_bind. eapply safely_mono; [by apply (merge_peer_ok k d key)|]. intros d' (Hd' & Hp & Hr). cbn.
      split; [exists k; split; [lia|done]|]. rewrite El. cbn [default]. split; [by rewrite Hp, insert_id|]. split; [|done].
      destruct (do_peers _ _ Hd' key l) as (p & Ep & _); [by rewrite Hp|exists p; exact Ep].
    + eapply safely_mono; [by apply (create_peer_ok k)|]. intros [r d'] [Hd' Hu]. split; [|done]. exists (S k). by split.
Qed.

(** ** Operations on every peer *)

(** The stores that differ where [Q] says. *)
Definition each (ls : list nat) (Q : Peer R -> Peer R -> Prop) (st st' : gmap nat (Peer R)) : Prop :=
  forall l, match st !! l, st' !! l with
    | Some p, Some p' => if decide (l ∈ ls) then Q p p' else p' = p
    | None, None => True
    | _, _ => False
    end.

Lemma for_peers_spec ls f Q d : NoDup ls ->
  Forall (fun l => exists p, store d !! l = Some p /\ safely (f p) (Q p)) ls ->
  safely (for_peers ls f d) (fun d' => exists st, d' = set_store st d /\ each ls Q (store d) st).
Proof.
  intros Hnd. revert d. induction Hnd as [|l ls Hni Hnd IH]; intros d Hls; cbn [for_peers].
  - cbn. exists (store d). split; [by destruct d|]. intros l. destruct (store d !! l); [|done]. by rewrite decide_False by apply not_elem_of_nil.
  - apply Forall_cons in Hls as [(p & El & Hf) Hls]. apply safely_bind. unfold with_peer. rewrite El. apply safely_bind, safely_bind.
    eapply safely_mono; [exact Hf|]. intros p' HQ. cbn [safely]. eapply safely_mono; [apply IH|].
    + apply Forall_forall. intros l' Hin. destruct (proj1 (Forall_forall _ _) Hls l' Hin) as (q & Eq & Hq). exists q. cbn [store set_store].
      rewrite lookup_insert_ne by (intros ->; done). done.
    + intros d' (st & -> & He). exists st. split; [done|]. intros l'. specialize (He l'). cbn [store set_store] in He.
      destruct (decide (l' = l)) as [->|Hne].
      * rewrite lookup_insert_eq in He. rewrite El. destruct (st !! l) as [q|]; [|done]. rewrite decide_False in He by done.
        subst q. by rewrite decide_True by by left.
      * rewrite lookup_insert_ne in He by done. destruct (store d !! l') as [q|], (st !! l') as [q'|]; try done.
        destruct (decide (l' ∈ ls)); [by rewrite decide_True by by right|]. rewrite decide_False; [done|]. by intros [?|?]%elem_of_cons.
Qed.

(** A change of every peer of the tables, and of what they conform to. *)
Lemma device_ok_each k d d' Q st : device_ok k d -> each (locations d) Q (store d) st ->
  store d' = st -> next_location d' = next_location d -> peers d' = peers d -> peers_by_idx d' = peers_by_idx d ->
  peers_by_ip d' = peers_by_ip d -> index_lfsr d' = index_lfsr d ->
  (forall p p', tunn_ok (tunnel p) -> Q p p' -> tunn_ok (tunnel p') /\ peer_index p' = peer_index p) ->
  (forall key p p', conforms d key p -> Q p p' -> conforms d' key p') ->
  match key_pair d' with
  | Some (private, public) => public = x25519_public private /\ is_Some (device_limiter d')
  | None => device_limiter d' = None
  end -> config_valid (config d') ->
  device_ok k d'.
Proof.
  intros [Hl Hi Hf Ht Hps Hix Hips Hks Hcfg] He Est Enl Eps Eix Eip Elf HQ Hc Hks' Hcfg'.
  assert (forall l p', st !! l = Some p' -> exists p, store d !! l = Some p /\ if decide (l ∈ locations d) then Q p p' else p' = p) as Hback.
  { intros l p' E. specialize (He l). rewrite E in He. destruct (store d !! l) as [p|]; [by exists p|done]. }
  assert (forall key l p, peers d !! key = Some l -> store d !! l = Some p -> exists p', st !! l = Some p' /\ Q p p') as Hfwd.
  { intros key l p E Ep. specialize (He l). rewrite Ep in He. destruct (st !! l) as [p'|]; [|done].
    rewrite decide_True in He by (apply elem_of_locations; by exists key). by exists p'. }
  split; rewrite ?Est, ?Enl, ?Eps, ?Eix, ?Eip, ?Elf; try done.
  - intros l p' E. destruct (Hback _ _ E) as (p & Ep & _). apply (Hf _ _ Ep).
  - intros l p' E. destruct (Hback _ _ E) as (p & Ep & Hq). destruct (decide _); [|subst; apply (Ht _ _ Ep)].
    apply (HQ p p' (Ht _ _ Ep) Hq).
  - intros key l E. destruct (Hps _ _ E) as (p & Ep & Hxp & Hcp). destruct (Hfwd _ _ _ E Ep) as (p' & Ep' & Hq). exists p'.
    split; [done|]. destruct (HQ p p' (Ht _ _ Ep) Hq) as [_ ->]. split; [done|]. by eapply Hc.
  - intros i l E. destruct (Hix _ _ E) as (key & p & Ek & Ep & Hxp). destruct (Hfwd _ _ _ Ek Ep) as (p' & Ep' & Hq). exists key, p'.
    split; [done|]. split; [done|]. by destruct (HQ p p' (Ht _ _ Ep) Hq) as [_ ->].
Qed.

Lemma every_peer k d (f : Peer R -> outcome (Peer R)) Q : device_ok k d -> (forall p, tunn_ok (tunnel p) -> safely (f p) (Q p)) ->
  safely (for_peers (locations d) f d) (fun d' => exists st, d' = set_store st d /\ each (locations d) Q (store d) st).
Proof.
  intros Hd Hf. apply for_peers_spec; [by eapply locations_nodup|]. apply Forall_forall. intros l [key E]%elem_of_locations.
  destruct (do_peers _ _ Hd _ _ E) as (p & Ep & _). exists p. split; [done|]. apply Hf, (do_tunnels _ _ Hd _ _ Ep).
Qed.

(** What the change of key does to a peer. *)
Definition rekeyed (private : bytes) p p' : Prop :=
  (tunn_ok (tunnel p) -> tunn_ok (tunnel p')) /\ peer_index p' = peer_index p /\
  identity (tunnel p') = (private, x25519_public private, snd (identity (tunnel p))) /\ tunn_framing (tunnel p') = tunn_framing (tunnel p) /\
  sessions (tunnel p') = zreplicate N_SESSIONS None.

Lemma set_key_ok k d now seed private : device_ok k d ->
  safely (set_key now seed private d) (fun d' => device_ok k d' /\ peers d' = peers d /\ peers_by_ip d' = peers_by_ip d /\
    snd <$> key_pair d' = Some (x25519_public private) /\
    (snd <$> key_pair d = Some (x25519_public private) -> d' = d) /\
    (snd <$> key_pair d <> Some (x25519_public private) -> each (locations d) (rekeyed private) (store d) (store d'))).
Proof.
  intros Hd. unfold set_key. case_bool_decide as Hsame; [cbn; by split_and!|]. apply safely_bind. eapply safely_mono.
  { apply (every_peer k d _ (rekeyed private) Hd). intros p Hok. apply safely_bind. unfold on_tunnel. apply safely_bind.
    eapply safely_mono; [apply (set_static_private_wp now seed private _ (tunnel p))|].
    intros [u t] (Hr & Hs & Hid & Hfr). cbn. split_and!; try done. apply Hr. }
  intros d' (st & -> & He). cbn. split; [|by split_and!].
  eapply (device_ok_each k d); try done.
  - intros p p' Hok (H1' & H2' & _). split; [by apply H1'|done].
  - intros key p p' [(a & b & _ & Hid) Hfr] (_ & _ & Hid' & Hfr' & _). split; [|by rewrite Hfr'].
    exists private, (x25519_public private). split; [done|]. by rewrite Hid', Hid.
  - apply Hd.
Qed.

Definition reframed (obf : ObfuscationRanges) (c : AmneziaConfig) p p' : Prop :=
  (tunn_ok (tunnel p) -> tunn_ok (tunnel p')) /\ peer_index p' = peer_index p /\ identity (tunnel p') = identity (tunnel p) /\
  tunn_framing (tunnel p') = (c, obf) /\ sessions (tunnel p') = sessions (tunnel p).

Lemma set_obfuscation_wp obf c t : obf_ok obf -> config_ok c -> check_header_protection_nonce c = Ok tt ->
  wp (set_obfuscation obf c) (fun _ t' => reconfigured t t' /\ sessions t' = sessions t /\ identity t' = identity t /\ tunn_framing t' = (c, obf)) t.
Proof.
  intros Ho Hc Hn. unfold set_obfuscation. wp_steps. wp_use (try_set_obfuscation_wp (R := R) obf c t); [done..|].
  intros r t' (Hr & Hs & Hres). wp_steps. rewrite Hn in Hres. destruct r as [u|e]; [|by destruct Hres].
  destruct Hres as (_ & Ha & Hob & Hid). unfold tunn_framing. by rewrite Ha, Hob.
Qed.

Lemma device_set_obfuscation_ok k d obf c : device_ok k d -> obf_ok obf -> config_ok c -> check_header_protection_nonce c = Ok tt ->
  safely (device_set_obfuscation obf c d) (fun r => device_ok k (snd r) /\ peers (snd r) = peers d /\ peers_by_ip (snd r) = peers_by_ip d /\
    cfg_obf (config (snd r)) = obf /\ cfg_amnezia (config (snd r)) = c /\
    if fst r then each (locations d) (reframed obf c) (store d) (store (snd r)) else snd r = d).
Proof.
  intros Hd Ho Hc Hn. unfold device_set_obfuscation. destruct (_ && _) eqn:Hsame.
  { apply andb_true_iff in Hsame as [E1%bool_decide_eq_true E2%bool_decide_eq_true]. cbn. by split_and!. }
  set (d1 := set_hints _ _). apply safely_bind. eapply safely_mono.
  { apply (for_peers_spec (locations d1) _ (reframed obf c) d1); [by apply (locations_nodup k d)|]. apply Forall_forall.
    intros l [key E]%elem_of_locations. destruct (do_peers _ _ Hd _ _ E) as (p & Ep & _). exists p. split; [done|].
    apply safely_bind. unfold on_tunnel. apply safely_bind.
    eapply safely_mono; [by apply (set_obfuscation_wp obf c (tunnel p))|].
    intros [u t] (Hr & Hs & Hid & Hfr). cbn. split_and!; try done. apply Hr. }
  intros d' (st & -> & He). cbn. split; [|by split_and!]. eapply (device_ok_each k d); try done.
  - intros p p' Hok (H1' & H2' & _). split; [by apply H1'|done].
  - intros key p p' [Hid Hfr] (_ & _ & Hid' & Hfr' & _). split; [|done]. by rewrite Hid'.
  - apply Hd.
Qed.

Lemma clear_peers_ok k d : device_ok k d ->
  safely (clear_peers d) (fun d' => device_ok k d' /\ peers d' = ∅ /\ peers_by_idx d' = ∅ /\ entries (peers_by_ip d') = ∅).
Proof.
  intros Hd. unfold clear_peers. set (d1 := set_hints _ d). apply safely_bind. eapply safely_mono.
  { apply (every_peer k d1 _ (fun p p' => p' = shutdown_endpoint p)); [by apply device_ok_hints|]. by intros p Hok. }
  intros d' (st & -> & He). cbn. split; [|split_and!; try done; apply new_entries].
  destruct Hd as [Hl Hi Hf Ht Hps Hix Hips Hks Hcfg].
  assert (forall l p', st !! l = Some p' -> exists p, store d !! l = Some p /\ tunnel p' = tunnel p) as Hback.
  { intros l p' E. specialize (He l). rewrite E in He. cbn in He. destruct (store d !! l) as [p|]; [|done]. exists p. split; [done|].
    destruct (decide _); by subst. }
  split; cbn; try done; try apply map_Forall_empty.
  - intros l p' E. destruct (Hback _ _ E) as (p & Ep & _). apply (Hf _ _ Ep).
  - intros l p' E. destruct (Hback _ _ E) as (p & Ep & ->). apply (Ht _ _ Ep).
  - unfold allowed_ips_clear. rewrite new_entries. apply map_Forall_empty.
Qed.
End Tables.
