(* ===== verification/DeviceSafe.v ===== *)
(** The data path keeps the device's invariant: no handler panics, each ends,
    and none changes the tables, a peer's keys or its framing. *)

From stdpp Require Import gmap functions.
From S2P Require Import Prelude Budget Instant Crypto Rand Tags Packet Session RateLimiter Amnezia Framing.
From S2P Require Import Handshake Imitation Inbound Timers OpReport Tunn TunnReceive TunnTick TunnConfig Stun ReplyPolicy.
From S2P Require Import TunnLogic TunnOutput TunnSend TunnInput TunnPoll TunnSystem.
From S2P Require Import ProbeBudget ProbeReply ImitationHints AllowedIps PeerIndex Peer Device DeviceTables DeviceData.

(** ** Enough fuel *)

Definition eventually (P : nat -> Prop) : Prop := exists n, forall fuel, (n <= fuel)%nat -> P fuel.

Lemma eventually_always (P : nat -> Prop) : (forall fuel, P fuel) -> eventually P.
Proof. intros HP. by exists O. Qed.
Lemma eventually_mono (P Q : nat -> Prop) : eventually P -> (forall fuel, P fuel -> Q fuel) -> eventually Q.
Proof. intros [n Hn] HPQ. exists n. auto. Qed.
(** The computation is one and the same whatever the fuel of what follows. *)
Lemma eventually_bind {A B} (m : outcome A) (k : nat -> A -> outcome B) (Q : nat -> B -> Prop) :
  safely m (fun x => eventually (fun fuel => safely (k fuel x) (Q fuel))) -> eventually (fun fuel => safely (let! x := m in k fuel x) (Q fuel)).
Proof. destruct m as [x|]; [|done]. done. Qed.
Lemma eventually_S (P : nat -> Prop) : eventually (fun fuel => P (S fuel)) -> eventually P.
Proof. intros [n Hn]. exists (S n). intros [|fuel] Hf; [lia|]. apply Hn. lia. Qed.

Section Safe.
Context `{Crypto} `{!CryptoLaws} {R : Type} `{RngCore R} `{!RngLaws R} `{PrefixFillers R} `{!FillerLaws R} `{ImitationEnv} `{!ImitationLaws}.
Context `{NetworkTable} `{!NetworkTableLaws}.
Implicit Types (d : Device R) (p : Peer R) (t : Tunn R).

(** ** What a tunnel's call keeps *)

Lemma kept_of t t' : (tunn_ok t -> tunn_ok t') -> hs_params (handshake t') = hs_params (handshake t) ->
  amnezia t' = amnezia t -> hs_obf (handshake t') = hs_obf (handshake t) -> tunn_kept t t'.
Proof. intros Hok Hp Ha Ho. split; [done|]. unfold identity, tunn_framing. by rewrite Hp, Ha, Ho. Qed.
Lemma produced_kept t t' : produced t t' -> tunn_kept t t'.
Proof. intros []. by apply kept_of. Qed.
Lemma polled_kept t t' : polled t t' -> tunn_kept t t'.
Proof. intros []. by apply kept_of. Qed.
Lemma committed_kept t t' : committed t t' -> tunn_kept t t'.
Proof. intros []. by apply kept_of. Qed.
Lemma accepted_kept t t' : accepted_step t t' -> tunn_kept t t'.
Proof. intros []. by apply kept_of. Qed.
Lemma inert_kept t t' : inert t t' -> tunn_kept t t'.
Proof. intros Hi. split; [by apply inert_ok|]. by destruct Hi as (r & a & l & o & ->). Qed.
#[export] Instance tunn_kept_preorder : PreOrder (tunn_kept (R := R)).
Proof. split; [by split|]. intros a b c (? & ? & ?) (? & ? & ?). split; [auto|split; congruence]. Qed.

(** ** Flushing a queue *)

(** A session that is gone or spent does not come back. *)
Lemma produced_no_session t t' : produced t t' -> has_current_session t = false -> has_current_session t' = false.
Proof.
  intros [_ _ _ Hr Hc _ _ _]. unfold has_current_session, session_at. rewrite Hc.
  destruct (zget (sessions t') _) as [y|] eqn:Ey; [|done]. destruct (zget_Forall2 _ _ _ _ _ Hr Ey) as (x & -> & Hxy). cbn.
  destruct x as [x|], y as [y|]; try done. destruct Hxy as (n & Hn & -> & _). unfold sending_exhausted. cbn.
  rewrite !negb_false_iff, !Z.geb_le. lia.
Qed.

(** What a flush that wrote a datagram has used up. *)
Definition drained t t' : Prop :=
  if has_current_session t then (length (packet_queue t') < length (packet_queue t))%nat else
  match pending_amnezia_junk t with
  | Some b => (exists b', pending_amnezia_junk t' = Some b' /\ 0 < burst_items b /\ burst_items b' = burst_items b - 1) \/
      (pending_amnezia_junk t' = None /\ is_in_progress (handshake t') = true)
  | None => is_in_progress (handshake t) = false /\ (is_Some (pending_amnezia_junk t') \/ is_in_progress (handshake t') = true)
  end.

Lemma timer_in_progress (h : Handshake R) now : handshake_timer h = Some now -> is_in_progress h = true.
Proof. unfold handshake_timer, is_in_progress. by destruct (hs_state h). Qed.

Definition buffered (c : Call) : Prop := len (call_dst c) = MAX_UDP_SIZE.

Lemma drain_wp now eph dst t : tunn_ok t -> len dst <= usize_max ->
  wp (decapsulate now eph None [] dst) (fun r t' => produced t t' /\ emitted (len dst) UNBOUNDED r t' /\ (is_network r = true -> drained t t')) t.
Proof.
  intros Hok Hdst. unfold decapsulate, decapsulate_source. cbn [option_map fmap option_fmap]. change (len [] =? 0) with true. cbn iota.
  unfold send_queued_packet. wp_steps. apply wp_if; [intros _; wp_steps; by split_and!|intros Hz]. wp_steps. apply wp_if; intros Hs.
  - apply negb_true_iff in Hs. unfold drained. rewrite Hs. unfold format_handshake_initiation_with_budget. wp_steps.
    destruct (pending_amnezia_junk t) as [p|] eqn:Hp.
    { wp_use advance_amnezia_junk_wp; [done..|]. intros r t' (Hi & He & Hr). split_and!; [by apply initiating_produced|done|]. intros Hn.
      destruct r; try done. destruct Hr as (p0 & Hp0 & Hadv). assert (p0 = p) as -> by congruence.
      destruct Hadv as [(p' & Hpos & Hp' & Hit & _)|(_ & Hnone & Htm)]; [left; by exists p'|right]. split; [done|]. by eapply timer_in_progress. }
    apply wp_if; [intros _; wp_steps; by split_and!|]. intros Hgo. wp_steps. rewrite andb_true_r in Hgo.
    apply wp_if; intros _.
    + wp_steps. apply new_burst_wp; [apply Hok|]. intros p r1 Hp1. wp_steps. set (t1 := set_meta _ _).
      assert (burst_prepared t t1) as Hbp by (split; [done|]; by exists p, r1).
      pose proof (burst_prepared_initiating _ _ Hbp) as Hi1.
      wp_use advance_amnezia_junk_wp; [by eapply initiating_ok|done..|]. intros r t2 (Hi2 & He & Hr).
      split_and!; [apply initiating_produced; by etrans|done|]. intros Hn. split; [done|]. destruct r; try done.
      destruct Hr as (p0 & _ & [(p' & _ & Hp' & _)|(_ & _ & Htm)]); [left; by eexists|right; by eapply timer_in_progress].
    + wp_use initiation_now_wp; [done..|]. intros r t' (Hi & He & _ & Hr). split_and!; [by apply initiating_produced|done|]. intros Hn.
      split; [done|]. destruct r; try done. right. destruct Hr as [Htm _]. by eapply timer_in_progress.
  - apply negb_false_iff in Hs. wp_use send_heads_wp; [done..|]. intros r t' (Hp & He & dropped & _ & Hr). split_and!; [done..|].
    intros Hn. unfold drained. rewrite Hs. destruct r; try done. destruct Hr as (head & rest & -> & _ & -> & _). rewrite length_app. cbn. lia.
Qed.

Definition flush_ends t : Prop := forall calls, (forall i, buffered (calls i)) ->
  eventually (fun fuel => wp (flush fuel calls) (fun r t' => tunn_kept t t' /\ exists ps, r = Some ps /\ Forall (fun x => len x <= MAX_UDP_SIZE) ps) t).

(** The rest of the loop ends from every tunnel a write leaves. *)
Lemma flush_step t : tunn_ok t -> (forall t', produced t t' -> tunn_ok t' -> drained t t' -> flush_ends t') -> flush_ends t.
Proof.
  intros Hok Hnext calls Hb. apply eventually_S. unfold wp. cbn [flush]. apply eventually_bind.
  assert (len (call_dst (calls O)) <= usize_max) as Hd by (rewrite (Hb O); done).
  eapply safely_mono; [apply (drain_wp _ _ _ _ Hok Hd)|]. intros [r t'] (Hp & He & Hdr). cbn [fst snd] in *.
  pose proof (produced_kept _ _ Hp) as Hk.
  destruct r; try (apply eventually_always; intros fuel; cbn; split; [done|]; by exists []).
  eapply eventually_mono; [apply (Hnext t' Hp (pd_ok _ _ Hp Hok) (Hdr eq_refl) (fun n => calls (S n))); intros i; apply Hb|].
  intros fuel Hw. apply safely_bind. eapply safely_mono; [exact Hw|]. intros [rest t2] (Hk2 & ps & E & Hps). cbn in *. subst rest. cbn.
  split; [by etrans|]. eexists. split; [done|]. constructor; [|done]. destruct He as [Hl _]. by rewrite (Hb O) in Hl.
Qed.

Lemma flush_ends_idle t : tunn_ok t -> has_current_session t = false -> pending_amnezia_junk t = None -> is_in_progress (handshake t) = true -> flush_ends t.
Proof. intros Hok Hs Hp Hi. apply flush_step; [done|]. intros t' _ _ Hd. unfold drained in Hd. rewrite Hs, Hp in Hd. destruct Hd. congruence. Qed.

Lemma flush_ends_burst n t b : tunn_ok t -> has_current_session t = false -> pending_amnezia_junk t = Some b -> burst_items b <= Z.of_nat n -> flush_ends t.
Proof.
  revert t b. induction n as [|n IH]; intros t b Hok Hs Hp Hn; (apply flush_step; [done|]); intros t' Hpr Hok' Hd;
    unfold drained in Hd; rewrite Hs, Hp in Hd; pose proof (produced_no_session _ _ Hpr Hs) as Hs';
    (destruct Hd as [(p' & Hp' & Hpos & Hi)|[Hnone Hin]]; [|by apply flush_ends_idle]); [lia|].
  by apply (IH t' p'); [..|lia].
Qed.

Lemma flush_ends_no_session t : tunn_ok t -> has_current_session t = false -> flush_ends t.
Proof.
  intros Hok Hs. destruct (pending_amnezia_junk t) as [p|] eqn:Hp; [by apply (flush_ends_burst (Z.to_nat (burst_items p)) t p); [..|lia]|].
  apply flush_step; [done|]. intros t' Hpr Hok' Hd. unfold drained in Hd. rewrite Hs, Hp in Hd. destruct Hd as [_ Hd].
  pose proof (produced_no_session _ _ Hpr Hs) as Hs'. destruct (pending_amnezia_junk t') as [p'|] eqn:Hp'.
  - by apply (flush_ends_burst (Z.to_nat (burst_items p')) t' p'); [..|lia].
  - destruct Hd as [[? ?]|Hin]; [done|]. by apply flush_ends_idle.
Qed.

(** The loop that flushes a queue ends. *)
Lemma flush_ends_always t : tunn_ok t -> flush_ends t.
Proof.
  remember (length (packet_queue t)) as n eqn:Hn. revert t Hn. induction n as [n IH] using lt_wf_ind. intros t -> Hok.
  destruct (has_current_session t) eqn:Hs; [|by apply flush_ends_no_session]. apply flush_step; [done|].
  intros t' Hpr Hok' Hd. unfold drained in Hd. rewrite Hs in Hd. by eapply IH.
Qed.

(** ** What a handler keeps of the device *)

Definition kept_at (o o' : option (Peer R)) : Prop :=
  match o, o' with Some p, Some p' => peer_kept p p' | None, None => True | _, _ => False end.

Lemma kept_at_refl o : kept_at o o.
Proof. destruct o; [by split|done]. Qed.

(** The peers' tunnels and endpoints, the limiter, the evidence and the budget
    may move; nothing else does. *)
Record data_step d d' : Prop := {
  ds_frame : exists st lim h r, d' = set_hints h (set_responder r (set_device_limiter lim (set_store st d)));
  ds_limiter : is_Some (device_limiter d') <-> is_Some (device_limiter d);
  ds_store : forall l, kept_at (store d !! l) (store d' !! l);
}.
#[export] Instance data_step_preorder : PreOrder data_step.
Proof.
  split.
  - intros d. split; [|done|].
    + exists (store d), (device_limiter d), (imitation_hints d), (probe_responder d). by destruct d.
    + intros l. apply kept_at_refl.
  - intros a b c [(? & ? & ? & ? & ->) Hl1 Hs1] [(st & lim & h & r & ->) Hl2 Hs2]. split; [by exists st, lim, h, r|by rewrite Hl2|].
    intros l. specialize (Hs1 l). specialize (Hs2 l). unfold kept_at in *. cbn in *.
    destruct (store a !! l), (st !! l); repeat case_match; try done. by etrans.
Qed.

Lemma data_step_ok k d d' : data_step d d' -> device_ok k d -> device_ok k d'.
Proof.
  intros [(st & lim & h & r & ->) Hlim Hst] [Hl Hi Hf Ht Hps Hix Hips Hks Hcfg]. cbn in Hlim, Hst.
  assert (forall l p, store d !! l = Some p -> exists p', st !! l = Some p' /\ peer_kept p p') as Hfwd.
  { intros l p E. specialize (Hst l). rewrite E in Hst. cbn in Hst. destruct (st !! l) as [p'|]; [by exists p'|done]. }
  assert (forall l p', st !! l = Some p' -> exists p, store d !! l = Some p /\ peer_kept p p') as Hback.
  { intros l p' E. specialize (Hst l). rewrite E in Hst. destruct (store d !! l) as [p|]; [by exists p|done]. }
  split; cbn; try done.
  - intros l p' E. destruct (Hback _ _ E) as (p & Ep & _). apply (Hf _ _ Ep).
  - intros l p' E. destruct (Hback _ _ E) as (p & Ep & Hk). apply Hk, (Ht _ _ Ep).
  - intros key l E. destruct (Hps _ _ E) as (p & Ep & Hx & Hc). destruct (Hfwd _ _ Ep) as (p' & Ep' & Hk). exists p'. split; [done|].
    rewrite (pk_index _ _ Hk). split; [done|]. by apply (conforms_kept d key p p' Hk Hc).
  - intros i l E. destruct (Hix _ _ E) as (key & p & Ek & Ep & Hx). destruct (Hfwd _ _ Ep) as (p' & Ep' & Hk). exists key, p'.
    by rewrite (pk_index _ _ Hk).
  - destruct (key_pair d) as [[a b]|]; [split; [apply Hks|by apply Hlim, Hks]|]. destruct lim; [|done].
    rewrite Hks in Hlim. by destruct (proj1 Hlim (ex_intro _ _ eq_refl)).
Qed.

Lemma data_hints h d : data_step d (set_hints h d).
Proof.
  split; [exists (store d), (device_limiter d), h, (probe_responder d); by destruct d|done|]. intros l. apply kept_at_refl.
Qed.
Lemma data_responder r d : data_step d (set_responder r d).
Proof.
  split; [exists (store d), (device_limiter d), (imitation_hints d), r; by destruct d|done|]. intros l. apply kept_at_refl.
Qed.
Lemma data_limiter l0 d : is_Some (device_limiter d) -> data_step d (set_device_limiter (Some l0) d).
Proof.
  intros Hl. split; [exists (store d), (Some l0), (imitation_hints d), (probe_responder d); by destruct d|done|].
  intros l. apply kept_at_refl.
Qed.
Lemma data_store l p p' d : store d !! l = Some p -> peer_kept p p' -> data_step d (set_store (<[l := p']> (store d)) d).
Proof.
  intros E Hk. split; [exists (<[l := p']> (store d)), (device_limiter d), (imitation_hints d), (probe_responder d); by destruct d|done|].
  intros l'. cbn. destruct (decide (l' = l)) as [->|Hne]; [rewrite lookup_insert_eq, E; done|rewrite lookup_insert_ne by done].
  apply kept_at_refl.
Qed.

Lemma shared_kept lim p : peer_kept p (set_tunnel (share_limiter lim (tunnel p)) p).
Proof. destruct lim; [|by split]. split; try done. cbn. apply (rc_ok _ _ (reconfigured_limiter _ _)). Qed.

(** Of the peers only the one at [l] has moved, and nothing but the limiter
    beside it. *)
Definition only_at (l : nat) d d' : Prop :=
  (exists lim st, d' = set_device_limiter lim (set_store st d)) /\ forall l', l' <> l -> store d' !! l' = store d !! l'.
#[export] Instance only_at_preorder l : PreOrder (only_at l).
Proof.
  split.
  - intros d. split; [|done]. exists (device_limiter d), (store d). by destruct d.
  - intros a b c [(? & ? & ->) H1'] [(lim & st & ->) H2']. split; [by exists lim, st|]. intros l' Hne. by rewrite H2', H1'.
Qed.

(** An operation on a peer, with the limiter all share. *)
Lemma with_shared_step {A} l (f : Peer R -> outcome (A * Peer R)) d p (Q : A -> Peer R -> Prop) :
  store d !! l = Some p ->
  (let p1 := set_tunnel (share_limiter (device_limiter d) (tunnel p)) p in
   safely (f p1) (fun r => peer_kept p1 (snd r) /\ Q (fst r) (snd r))) ->
  safely (with_shared l f d) (fun r => data_step d (snd r) /\ only_at l d (snd r) /\ exists p', store (snd r) !! l = Some p' /\ Q (fst r) p').
Proof.
  intros E Hf. unfold with_shared. rewrite E. apply safely_bind. eapply safely_mono; [exact Hf|]. intros [a p'] [Hk HQ]. cbn in *.
  split; [|split; [split; [by eexists _, _|intros l' Hne; by apply lookup_insert_ne]|exists p'; by rewrite lookup_insert_eq]].
  etrans; [apply (data_store l p p' d E); etrans; [apply (shared_kept (device_limiter d))|exact Hk]|].
  destruct (device_limiter d) as [lim|] eqn:Hl; cbn [fmap option_fmap option_map].
  - apply data_limiter. cbn. by rewrite Hl.
  - split; [exists (<[l := p']> (store d)), None, (imitation_hints d), (probe_responder d); by destruct d|cbn; by rewrite Hl|].
    intros l'. apply kept_at_refl.
Qed.

Lemma on_tunnel_spec {A} (m : M R A) p (Q : A -> Tunn R -> Prop) :
  wp m (fun a t' => tunn_kept (tunnel p) t' /\ Q a t') (tunnel p) -> safely (on_tunnel m p) (fun r => peer_kept p (snd r) /\ Q (fst r) (tunnel (snd r)) /\
    snd r = set_tunnel (tunnel (snd r)) p).
Proof.
  intros Hm. unfold on_tunnel. apply safely_bind. eapply safely_mono; [exact Hm|]. intros [a t] [(Hok & Hid & Hfr) HQ]. cbn. by split_and!.
Qed.

(** ** Committing an accepted packet *)

(** Where the endpoint is after a packet from [from] that was committed. *)
Definition roamed (from : SocketAddr) p : Endpoint :=
  if bool_decide (ep_addr (peer_endpoint p) = Some (canonical_endpoint from)) then peer_endpoint p
  else {| ep_addr := Some (canonical_endpoint from); ep_conn := None |}.

(** What committing a packet gives: a handshake is answered, a transport packet
    gives the inner packet it holds. *)
Definition answer_of (a : Authenticated) (r : TunnResult) : Prop :=
  match a with
  | AuthInit _ | AuthResponse _ => exists x, r = WriteToNetwork x
  | AuthCookie _ => r = Done
  | AuthData _ plaintext => r = inner_result plaintext
  end.

Record committed_peer (a : Authenticated) (from : SocketAddr) (r : TunnResult) p p' : Prop := {
  cp_kept : peer_kept p p';
  cp_answer : answer_of a r;
  cp_size : match r with WriteToNetwork x => len x <= MAX_UDP_SIZE | _ => True end;
  cp_endpoint : peer_endpoint p' = if moves_endpoint a && negb (is_terr r) then roamed from p else peer_endpoint p;
  cp_window : is_terr r = true -> moves_endpoint a = true -> ep_addr (peer_endpoint p) <> Some from -> udp_window (tunnel p') = udp_window (tunnel p);
}.

Lemma adopt_endpoint_spec from p :
  exists p', adopt_endpoint from p = Ret p' /\ tunnel p' = tunnel p /\ peer_index p' = peer_index p /\ peer_endpoint p' = roamed from p.
Proof. unfold adopt_endpoint, move_endpoint, roamed. destruct (bool_decide _); [by exists p|]. cbn. by eexists. Qed.

Lemma outcome_answer t a r t' : outcome_of t a r t' -> answer_of a r.
Proof.
  destruct a as [init|ar|c|idx pt]; cbn.
  - intros (x & y & -> & _). by exists x.
  - intros (x & -> & _). by exists x.
  - by intros (-> & _).
  - by intros (-> & _).
Qed.

(** An inner packet comes of a transport packet. *)
Lemma answer_inner a r : answer_of a r ->
  match r with WriteToTunnelV4 _ _ | WriteToTunnelV6 _ _ => exists idx plaintext, a = AuthData idx plaintext /\ r = inner_result plaintext | _ => True end.
Proof. destruct a as [init|ar|c|idx pt]; cbn; try (by intros (x & ->)); [by intros ->|]. intros ->. destruct (inner_result pt) eqn:E; try done; by exists idx, pt. Qed.

Lemma kept_set_tunnel t p : tunn_kept (tunnel p) t -> peer_kept p (set_tunnel t p).
Proof. intros (? & ? & ?). by split. Qed.
Lemma window_tunn_kept w t : 0 <= w <= u32_max -> tunn_kept t (set_udp_window w t).
Proof. intros Hw. split; [|done]. apply (rc_ok _ _ (reconfigured_window w t Hw)). Qed.
Lemma auto_tunn_kept a t : tunn_kept t (set_auto_imitation a t).
Proof. split; [|done]. apply (rc_ok _ _ (reconfigured_auto_set a t)). Qed.

Lemma commit_anonymous_ok c a from datagram hint p :
  tunn_ok (tunnel p) -> buffered c -> committable (len (call_dst c)) UNBOUNDED (tunnel p) a ->
  safely (commit_anonymous c a from datagram hint p) (fun r => committed_peer a from (fst r) p (snd r)).
Proof.
  intros Hok Hb Ha. unfold commit_anonymous. set (new := moves_endpoint a && _). set (t := tunnel p) in *.
  set (t1 := if new then set_udp_window DEFAULT_UDP_WINDOW t else t).
  assert (tunn_kept t t1) as Hk1 by (unfold t1; destruct new; [by apply window_tunn_kept|reflexivity]).
  assert ((if new then let! (w, p) := on_tunnel begin_new_path p in Ret (Some w, p) else Ret (None, p)) =
    Ret (if new then Some (udp_window t) else None, set_tunnel t1 p)) as -> by (unfold t1; destruct new; [done|by destruct p]).
  cbn [obind]. apply safely_bind. unfold on_tunnel at 1. cbn [tunnel set_tunnel]. apply safely_bind.
  eapply safely_mono.
  { apply (commit_with_imitation_wp (call_eph c) a datagram hint (call_dst c) UNBOUNDED t1); [by apply Hk1|by rewrite Hb|].
    apply (committable_same _ _ t); [unfold t1; by destruct new..|exact Ha]. }
  intros [r t2] (Hs & He & Ho). cbn [fst snd safely] in *. apply accepted_kept in Hs. apply outcome_answer in Ho.
  set (t3 := if new then (if negb (is_terr r) then set_auto_imitation (clear_pending (auto_imitation t2)) t2 else set_udp_window (udp_window t) t2) else t2).
  assert (tunn_kept t t3) as Hk3.
  { etrans; [exact Hk1|]. etrans; [exact Hs|]. unfold t3. destruct new; [|reflexivity].
    destruct (negb _); [apply auto_tunn_kept|apply window_tunn_kept, Hok]. }
  set (p3 := set_tunnel t3 p).
  assert (match (if new then Some (udp_window t) else None) with
    | Some window => on_tunnel (if negb (is_terr r) then discard_imitation_hint else restore_udp_window window) (set_tunnel t2 (set_tunnel t1 p))
    | None => Ret (tt, set_tunnel t2 (set_tunnel t1 p)) end = Ret (tt, p3)) as ->
    by (unfold p3, t3; destruct new; [destruct (negb _)|]; done).
  cbn [obind]. assert (match r with WriteToNetwork x => len x <= MAX_UDP_SIZE | _ => True end) as Hsz by (destruct r; try done; rewrite <- Hb; apply He).
  destruct (moves_endpoint a && negb (is_terr r)) eqn:Hm.
  - destruct (adopt_endpoint_spec from p3) as (p' & -> & Ht' & Hi' & Hep). cbn. split; [|done|done|by rewrite Hm|].
    + apply kept_set_tunnel in Hk3. fold p3 in Hk3. destruct Hk3 as [K1 K2 K3 K4]. split; rewrite ?Ht', ?Hi'; done.
    + apply andb_true_iff in Hm as [_ Hm]. intros Hterr. by rewrite Hterr in Hm.
  - cbn. split; [by apply kept_set_tunnel|done|done|by rewrite Hm|]. intros Hterr Hmv Hne. cbn. unfold t3, new.
    rewrite Hmv, bool_decide_eq_false_2 by done. by rewrite Hterr.
Qed.

(** ** Finding the peer *)

Lemma find_peer_spec k d private public packet : device_ok k d -> packet_ok packet ->
  safely (find_peer private public packet d) (fun r => match r with
    | Ok l => exists key p, peers d !! key = Some l /\ store d !! l = Some p
    | Err _ => True end).
Proof.
  intros Hd Hp. assert (forall i, match (match peers_by_idx d !! i with Some l => Ok l | None => Err WrongIndex end) with
    | Ok l => exists key p, peers d !! key = Some l /\ store d !! l = Some p | Err _ => True end) as Hidx.
  { intros i. destruct (peers_by_idx d !! i) as [l|] eqn:E; [|done]. destruct (do_idx _ _ Hd _ _ E) as (key & p & ? & ? & _). by exists key, p. }
  destruct packet as [q|q|q|q]; cbn [find_peer]; [|apply Hidx..].
  destruct Hp as (_ & _ & Hst & _). apply safely_bind. unfold parse_handshake_anon. destruct (kdf2 _ _) as [ck key].
  apply safely_bind. eapply safely_mono; [apply aead_chacha20_open_safe; by rewrite Hst|]. intros [pk|] _; [|done]. cbn.
  destruct (peers d !! pk) as [l|] eqn:E; [|done]. destruct (do_peers _ _ Hd _ _ E) as (p & ? & _). by exists pk, p.
Qed.

Definition names_peer d dst_len (a : nat * Authenticated * Tunn R) : Prop :=
  let '(l, packet, t) := a in
  exists key p, peers d !! key = Some l /\ store d !! l = Some p /\ authentic dst_len UNBOUNDED (tunnel p) packet t.

Lemma authenticate_anonymous_spec k d now private public dst_len packet : device_ok k d -> packet_ok packet ->
  safely (authenticate_anonymous now private public dst_len d packet) (fun r => match r with Ok a => names_peer d dst_len a | Err _ => True end).
Proof.
  intros Hd Hp. unfold authenticate_anonymous. apply safely_bind. eapply safely_mono; [by eapply find_peer_spec|].
  intros [l|e]; [|done]. intros (key & p & Ek & Ep). rewrite Ep. apply safely_bind.
  eapply safely_mono; [apply authenticate_spec; [apply (do_tunnels _ _ Hd _ _ Ep)|done]|]. intros [[a t]|e]; [|done].
  intros Hau. cbn. by exists key, p.
Qed.

(** ** Writing out *)

Definition sends (send : bytes -> Effect) (e : Effect) : Prop := exists x, e = send x /\ len x <= MAX_UDP_SIZE.

Lemma on_peer_eventually {A} l (m : nat -> M R A) d p (Q : A -> Tunn R -> Prop) :
  store d !! l = Some p ->
  (let t := share_limiter (device_limiter d) (tunnel p) in eventually (fun fuel => wp (m fuel) (fun a t' => tunn_kept t t' /\ Q a t') t)) ->
  eventually (fun fuel => safely (on_peer l (m fuel) d) (fun r => data_step d (snd r) /\ only_at l d (snd r) /\
    exists t', store (snd r) !! l = Some (set_tunnel t' p) /\ Q (fst r) t')).
Proof.
  intros E Hm. eapply eventually_mono; [exact Hm|]. intros fuel Hw. unfold on_peer.
  set (p1 := set_tunnel (share_limiter (device_limiter d) (tunnel p)) p).
  eapply safely_mono; [apply (with_shared_step l _ d p (fun a p' => exists t', p' = set_tunnel t' p /\ Q a t') E)|].
  - fold p1. cbv zeta. eapply safely_mono; [apply (on_tunnel_spec (m fuel) p1 Q Hw)|]. intros [a p'] (Hk & HQ & Heq). cbn in *.
    split; [done|]. exists (tunnel p'). split; [rewrite Heq; by destruct p|done].
  - intros [a d'] (Hs & Ho & p' & Ep & t' & -> & HQ). cbn in *. split; [done|]. split; [done|]. by exists t'.
Qed.

Lemma shared_ok k d l p : device_ok k d -> store d !! l = Some p -> tunn_ok (share_limiter (device_limiter d) (tunnel p)).
Proof. intros Hd E. apply (pk_ok _ _ (shared_kept (device_limiter d) p)), (do_tunnels _ _ Hd _ _ E). Qed.

Lemma flush_to_ok k d l p calls send go : device_ok k d -> store d !! l = Some p -> (forall i, buffered (calls i)) ->
  eventually (fun fuel => safely (flush_to fuel calls l send go d) (fun r => exists effs, fst r = Some effs /\ Forall (sends send) effs /\
    data_step d (snd r) /\ only_at l d (snd r) /\ exists t', store (snd r) !! l = Some (set_tunnel t' p))).
Proof.
  intros Hd E Hb. unfold flush_to. destruct go.
  - pose proof (flush_ends_always _ (shared_ok k d l p Hd E) calls Hb) as Hfl.
    eapply eventually_mono; [apply (on_peer_eventually l (fun fuel => flush fuel calls) d p _ E Hfl)|].
    intros fuel Hf. apply safely_bind. eapply safely_mono; [exact Hf|]. intros [o d'] (Hs & Ho & t' & Et & ps & Eo & Hps). cbn in *. subst o.
    exists (map send ps). split; [done|]. split; [|split; [done|split; [done|by exists t']]].
    apply Forall_fmap. eapply Forall_impl; [exact Hps|]. intros x Hx. by exists x.
  - apply eventually_always. intros _. cbn. exists []. split; [done|]. split; [done|]. split; [reflexivity|]. split; [reflexivity|].
    exists (tunnel p). rewrite E. by destruct p.
Qed.

(** The effects of an accepted packet. *)
Definition effect_of (l : nat) (send : bytes -> Effect) (a : Authenticated) d d' (e : Effect) : Prop :=
  match e with
  | WriteTun packet => exists idx plaintext, a = AuthData idx plaintext /\
      ((exists addr, inner_result plaintext = WriteToTunnelV4 packet addr /\ peer_owns l (V4 addr) d = true) \/
       (exists addr, inner_result plaintext = WriteToTunnelV6 packet addr /\ peer_owns l (V6 addr) d = true))
  | Register l' socket endpoint lifetime => l' = l /\ exists p', store d' !! l = Some p' /\ is_current_connection lifetime endpoint p' = true
  | e => sends send e
  end.

Definition sender (send : bytes -> Effect) : Prop := forall x, match send x with SendTo _ _ _ | SendConnected _ _ => True | _ => False end.

Lemma sends_effect l send a d d' e : sender send -> sends send e -> effect_of l send a d d' e.
Proof. intros Hs [x [-> Hx]]. specialize (Hs x). destruct (send x) eqn:E; try done; by exists x. Qed.

Lemma dispatch_ok l send a r d d' : sender send -> answer_of a r -> match r with WriteToNetwork x => len x <= MAX_UDP_SIZE | _ => True end ->
  Forall (effect_of l send a d d') (fst (dispatch l send r d)).
Proof.
  intros Hs Hi%answer_inner Hx. destruct r; cbn; try done.
  - constructor; [|done]. apply sends_effect; [done|]. by eexists.
  - destruct Hi as (idx & pt & -> & E). unfold deliver. destruct (peer_owns _ _ _) eqn:Hown; [|done]. constructor; [|done].
    exists idx, pt. split; [done|]. left. by eexists.
  - destruct Hi as (idx & pt & -> & E). unfold deliver. destruct (peer_owns _ _ _) eqn:Hown; [|done]. constructor; [|done].
    exists idx, pt. split; [done|]. right. by eexists.
Qed.

(** What a tunnel's result has the device write: a datagram is sent, and an
    inner packet delivered if the longest prefix of its source is the peer's. *)
Definition written (l : nat) (send : bytes -> Effect) (r : TunnResult) d : list Effect :=
  let delivered packet addr := if decide (snd <$> find_len addr (peers_by_ip d) = Some l) then [WriteTun packet] else [] in
  match r with
  | WriteToNetwork x => [send x]
  | WriteToTunnelV4 packet addr => delivered packet (V4 addr)
  | WriteToTunnelV6 packet addr => delivered packet (V6 addr)
  | Done | TErr _ => []
  end.

Lemma dispatch_written l send r d : fst (dispatch l send r d) = written l send r d.
Proof.
  assert (forall packet addr, deliver l packet addr d = if decide (snd <$> find_len addr (peers_by_ip d) = Some l) then [WriteTun packet] else []) as Hd.
  { intros packet addr. unfold deliver, peer_owns, index_owns. rewrite <- find_find_len. destruct (allowed_ips_find addr _) as [l'|].
    - case_bool_decide as E; [subst l'; by rewrite decide_True|]. rewrite decide_False; [done|congruence].
    - by rewrite decide_False. }
  destruct r; cbn; auto.
Qed.

(** ** The listening sockets *)

Lemma store_only l p' d : only_at l d (set_store (<[l := p']> (store d)) d).
Proof.
  split; [exists (device_limiter d), (<[l := p']> (store d)); by destruct d|]. intros l' Hne. by apply lookup_insert_ne.
Qed.

(** A connected socket is registered as the peer's current one, or the peer is
    on the shared socket. *)
Lemma upgrade_ok up v6 l from d (th : Thread R) p send a d0 : store d !! l = Some p ->
  safely (upgrade up v6 l from d th) (fun r => let '(effs, d', _) := r in
    data_step d d' /\ only_at l d d' /\ Forall (effect_of l send a d0 d') effs /\
    exists p', store d' !! l = Some p' /\ tunnel p' = tunnel p /\ ep_addr (peer_endpoint p') = ep_addr (peer_endpoint p)).
Proof.
  intros E. unfold upgrade. rewrite E.
  assert (forall p' effs (th' : Thread R), tunnel p' = tunnel p -> peer_index p' = peer_index p -> ep_addr (peer_endpoint p') = ep_addr (peer_endpoint p) ->
    Forall (fun e => exists s ep lt, e = Register l s ep lt /\ is_current_connection lt ep p' = true) effs ->
    data_step d (set_store (<[l := p']> (store d)) d) /\ only_at l d (set_store (<[l := p']> (store d)) d) /\
    Forall (effect_of l send a d0 (set_store (<[l := p']> (store d)) d)) effs /\
    exists p1, store (set_store (<[l := p']> (store d)) d) !! l = Some p1 /\ tunnel p1 = tunnel p /\ ep_addr (peer_endpoint p1) = ep_addr (peer_endpoint p)) as Hkeep.
  { intros p' effs th' Ht Hi Hep Hf. split; [apply (data_store l p p' d E); split; rewrite ?Ht, ?Hi; done|]. split; [apply store_only|].
    cbn. rewrite lookup_insert_eq. split; [|by exists p']. eapply Forall_impl; [exact Hf|]. intros e (so & ep & lt & -> & Hc). cbn.
    split; [done|]. exists p'. by rewrite lookup_insert_eq. }
  destruct (_ || _); [cbn; split; [reflexivity|split; [reflexivity|split; [done|by exists p]]]|].
  unfold connect_endpoint. destruct (ep_conn (peer_endpoint p)) as [s0|] eqn:Hc0; [by apply Hkeep|].
  destruct (ep_addr (peer_endpoint p)) as [addr|] eqn:Ha; [|by apply Hkeep].
  destruct (up_opened up) as [so|errno]; [|destruct (is_upgrade_exhaustion errno); by apply Hkeep].
  cbn [ep_addr from_option peer_endpoint commit_connection_lifetime set_lifetime set_peer_endpoint]. destruct (up_registered up); apply Hkeep; try done.
  constructor; [|done]. eexists _, _, _. split; [done|]. unfold is_current_connection. cbn. by rewrite !bool_decide_eq_true_2.
Qed.

Lemma hints_get_ok d since now from : hints_ok since (imitation_hints d) -> since <= now ->
  exists got h, hints_get now from (imitation_hints d) = Ret (got, h) /\ hints_ok now h.
Proof. intros Hh Ht. destruct (hints_get_spec now since from _ Hh Ht) as (h & E & Hok & _). by eexists _, h. Qed.

(** An accepted packet acts on its peer and no other. *)
Definition accepted_effects (l : nat) (send : bytes -> Effect) (a : Authenticated) (from : SocketAddr) d d' (effs : list Effect) : Prop :=
  Forall (effect_of l send a d d') effs /\ (exists r rest, answer_of a r /\ effs = written l send r d ++ rest) /\
  (forall l', l' <> l -> store d' !! l' = store d !! l') /\
  exists p p', store d !! l = Some p /\ store d' !! l = Some p' /\
    (ep_addr (peer_endpoint p') = ep_addr (peer_endpoint p) \/
     moves_endpoint a = true /\ ep_addr (peer_endpoint p') = Some (canonical_endpoint from)).

Lemma sender_listener v6 from : sender (SendTo v6 from).
Proof. by intros x. Qed.
Lemma sender_connected socket : sender (SendConnected socket).
Proof. by intros x. Qed.

Lemma roamed_addr from p : ep_addr (roamed from p) = Some (canonical_endpoint from).
Proof. unfold roamed. by case_bool_decide. Qed.

(** The evidence an accepted initiation brings, looked up before it is committed. *)
Lemma accepted_hint_ok (auto : bool) d since now from : hints_ok since (imitation_hints d) -> since <= now ->
  exists hint h, (if auto then let! (got, hints) := hints_get now from (imitation_hints d) in Ret (got, set_hints hints d) else Ret (None, d)) =
    Ret (hint, set_hints h d) /\ hints_ok now h.
Proof.
  intros Hh Ht. destruct auto.
  - destruct (hints_get_ok d since now from Hh Ht) as (got & h & -> & Hok). by exists got, h.
  - exists None, (imitation_hints d). split; [by destruct d|]. by eapply hints_ok_later.
Qed.

Lemma commit_shared_ok k d l p c a from datagram hint : device_ok k d -> store d !! l = Some p -> buffered c ->
  committable (len (call_dst c)) UNBOUNDED (tunnel p) a ->
  safely (with_shared l (commit_anonymous c a from datagram hint) d) (fun r => data_step d (snd r) /\ only_at l d (snd r) /\
    answer_of a (fst r) /\ match fst r with WriteToNetwork x => len x <= MAX_UDP_SIZE | _ => True end /\
    exists p', store (snd r) !! l = Some p' /\
      peer_endpoint p' = (if moves_endpoint a && negb (is_terr (fst r)) then roamed from p else peer_endpoint p) /\
      (is_terr (fst r) = true -> moves_endpoint a = true -> ep_addr (peer_endpoint p) <> Some from -> udp_window (tunnel p') = udp_window (tunnel p))).
Proof.
  intros Hd E Hb Ha. set (p1 := set_tunnel (share_limiter (device_limiter d) (tunnel p)) p).
  assert (committable (len (call_dst c)) UNBOUNDED (tunnel p1) a) as Ha1.
  { apply (committable_same _ _ (tunnel p)); [unfold p1, share_limiter; by destruct (device_limiter d)..|done]. }
  eapply safely_mono; [apply (with_shared_step l _ d p (fun r p' => committed_peer a from r p1 p') E)|].
  - cbv zeta. eapply safely_mono; [apply commit_anonymous_ok; [by eapply shared_ok|done|done]|]. intros [r p'] Hc. split; [apply Hc|done].
  - intros [r d'] (Hs & Ho & p' & Ep & [_ Hi Hsz Hep Hw]). cbn in *. split_and!; try done. exists p'. split; [done|].
    replace (roamed from p) with (roamed from p1) by done. split; [done|]. intros Ht Hm Hne. rewrite (Hw Ht Hm Hne). unfold p1, share_limiter.
    by destruct (device_limiter d).
Qed.

(** The rest of an accepted packet once its output is out: the queue, then the
    upgrade. *)
Lemma accepted_tail_ok k d l p calls up v6 from a go out d0 (th : Thread R) :
  device_ok k d -> store d !! l = Some p -> (forall i, buffered (calls i)) -> (forall d', Forall (effect_of l (SendTo v6 from) a d0 d') out) ->
  eventually (fun fuel => safely
    (let! (flushed, d) := flush_to fuel calls l (SendTo v6 from) go d in
     if negb (moves_endpoint a) then Ret (app out <$> flushed, d, th) else
     let! (opened, d, th) := upgrade up v6 l from d th in
     Ret ((fun fl => out ++ fl ++ opened) <$> flushed, d, th))
    (fun r => let '(o, d', _) := r in exists effs, o = Some (out ++ effs) /\ data_step d d' /\ only_at l d d' /\
      Forall (effect_of l (SendTo v6 from) a d0 d') (out ++ effs) /\
      exists p', store d' !! l = Some p' /\ ep_addr (peer_endpoint p') = ep_addr (peer_endpoint p))).
Proof.
  intros Hd E Hb Hout. eapply eventually_mono; [by apply (flush_to_ok k d l p calls (SendTo v6 from) go Hd E)|].
  intros fuel Hf. apply safely_bind. eapply safely_mono; [exact Hf|]. intros [fl d1] (effs & Efl & Hfl & Hs1 & Ho1 & t1 & E1). cbn [fst snd] in *. subst fl.
  assert (forall d', Forall (effect_of l (SendTo v6 from) a d0 d') effs) as Hfl'.
  { intros d'. eapply Forall_impl; [exact Hfl|]. intros e He. by apply sends_effect. }
  destruct (negb (moves_endpoint a)).
  { cbn. exists effs. split; [done|]. split; [done|]. split; [done|]. split; [by apply Forall_app|]. by exists (set_tunnel t1 p). }
  apply safely_bind. eapply safely_mono; [by apply (upgrade_ok up v6 l from d1 th (set_tunnel t1 p) (SendTo v6 from) a d0)|].
  intros [[opened d2] th2] (Hs2 & Ho2 & Hop & p2 & E2 & _ & Hep). cbn. exists (effs ++ opened). split; [done|]. split; [by etrans|].
  split; [by etrans|]. split; [by rewrite !Forall_app|]. by exists p2.
Qed.

(** The evidence is given up once the peer has learned from it. *)
Lemma learned_ok (b : bool) now from d : hints_ok now (imitation_hints d) ->
  let d' := if b then set_hints (discard from (imitation_hints d)) d else d in
  data_step d d' /\ hints_ok now (imitation_hints d') /\ store d' = store d.
Proof. intros Hh. destruct b; (split; [|split; [|done]]); [apply data_hints|by apply discard_spec|reflexivity|done]. Qed.

Lemma listen_accepted_ok k d since l p calls up v6 from datagram a (th : Thread R) :
  device_ok k d -> store d !! l = Some p -> (forall i, buffered (calls i)) -> committable (len (call_dst (calls O))) UNBOUNDED (tunnel p) a ->
  hints_ok since (imitation_hints d) -> since <= call_now (calls O) ->
  eventually (fun fuel => safely (listen_accepted fuel calls up v6 from datagram l a d th) (fun r => let '(out, d', _) := r in
    exists effs, out = Some effs /\ data_step d d' /\ hints_ok (call_now (calls O)) (imitation_hints d') /\
    accepted_effects l (SendTo v6 from) a from d d' effs)).
Proof.
  intros Hd E Hb Ha Hh Ht. unfold listen_accepted.
  destruct (accepted_hint_ok (is_auto_initiation a d) d since _ from Hh Ht) as (hint & h & -> & Hh1). cbn [obind].
  set (d1 := set_hints h d). assert (data_step d d1) as Hs1 by apply data_hints. pose proof (data_step_ok k _ _ Hs1 Hd) as Hd1.
  apply eventually_bind. eapply safely_mono; [by apply (commit_shared_ok k d1 l p)|]. intros [r d2] (Hs2 & Ho2 & Hi & Hsz & p2 & E2 & Hep & _).
  cbn [fst snd] in *. assert (data_step d d2) as Hs by (by etrans). destruct Ho2 as [(lim2 & st2 & Ed2) Hot2].
  assert (hints_ok (call_now (calls O)) (imitation_hints d2)) as Hh2 by by rewrite Ed2.
  assert (ep_addr (peer_endpoint p2) = ep_addr (peer_endpoint p) \/
    moves_endpoint a = true /\ ep_addr (peer_endpoint p2) = Some (canonical_endpoint from)) as Hroam.
  { rewrite Hep. destruct (moves_endpoint a); cbn [andb]; [|by left]. destruct (negb _); [right; split; [done|apply roamed_addr]|by left]. }
  destruct (is_terr r) eqn:Hterr.
  { apply eventually_always. intros _. cbn. exists []. split; [done|]. split; [done|]. split; [done|]. split; [done|].
    split; [exists r, []; split; [done|by destruct r]|]. split; [done|by exists p, p2]. }
  pose proof (dispatch_ok l (SendTo v6 from) a r d2) as Hdisp. destruct (dispatch l (SendTo v6 from) r d2) as [out go] eqn:Hout.
  cbn [fst] in Hdisp. set (b := is_auto_initiation a d && _).
  destruct (learned_ok b (call_now (calls O)) from d2 Hh2) as (Hs3 & Hh3 & Hst3). set (d3 := if b then _ else d2) in *.
  rewrite <- Hst3 in E2. assert (data_step d d3) as Hs' by by etrans.
  eapply eventually_mono; [apply (accepted_tail_ok k d3 l p2 (fun n => calls (S n)) up v6 from a go out d th);
    [by eapply data_step_ok|done|intros i; apply Hb|]|].
  { intros d'. specialize (Hdisp d' (sender_listener v6 from) Hi Hsz). by rewrite Ed2 in Hdisp. }
  intros fuel Hf. eapply safely_mono; [exact Hf|]. intros [[o d4] th4] (effs & -> & Hs4 & [(lim4 & st4 & ->) Ho4] & Hef & p4 & E4 & Hep4).
  exists (out ++ effs). split; [done|]. split; [by etrans|]. split; [done|]. split; [done|]. split.
  { exists r, effs. split; [done|]. f_equal. change out with (fst (out, go)). rewrite <- Hout, dispatch_written, Ed2. by destruct r. }
  split; [intros l' Hne; by rewrite Ho4, Hst3, (Hot2 l' Hne)|]. exists p, p4. by rewrite Hep4.
Qed.

(** What someone unauthenticated may be sent. *)
Definition stranger_answer (from : SocketAddr) (datagram reply : bytes) : Prop :=
  (exists probe target, reply_target from DoorProbe = Some target /\ detect datagram = Some probe /\ probe <> ProbeSip /\ reply_ok probe datagram reply) \/
  (is_Some (reply_target from DoorCookie) /\ len reply <= len datagram).

Definition stranger_effects v6 from datagram (effs : list Effect) : Prop :=
  effs = [] \/ exists reply, effs = [SendTo v6 from reply] /\ stranger_answer from datagram reply.

Lemma cookie_config_ok d since now c from datagram : hints_ok since (imitation_hints d) -> since <= now ->
  exists cfg h, cookie_config now c from datagram (imitation_hints d) = Ret (cfg, h) /\ hints_ok now h.
Proof.
  intros Hh Ht. unfold cookie_config. case_bool_decide; cbn [negb].
  - destruct (hints_get_ok d since now from Hh Ht) as (got & h & -> & Hok). cbn [obind]. by eexists _, h.
  - exists c, (imitation_hints d). split; [done|]. by eapply hints_ok_later.
Qed.

Lemma listen_cookie_ok d since c v6 from datagram demand lim os_rng (th : Thread R) :
  is_Some (device_limiter d) -> hints_ok since (imitation_hints d) -> since <= call_now c ->
  safely (listen_cookie c v6 from datagram demand lim os_rng d th) (fun r => let '(effs, d', _) := r in
    data_step d d' /\ store d' = store d /\ hints_ok (call_now c) (imitation_hints d') /\ stranger_effects v6 from datagram effs).
Proof.
  intros Hl Hh Ht. pose proof (hints_ok_later _ _ _ Ht Hh) as Hh0. unfold listen_cookie. destruct (format_cookie_demand _ _ _ _ _) as [[r lim'] os].
  set (d1 := set_device_limiter (Some lim') d). assert (data_step d d1) as Hs1 by by apply data_limiter.
  destruct r as [cookie|e]; [|cbn; split_and!; [done..|by left]].
  destruct (cookie_verdict _ _ _) eqn:Hv; [|cbn; split_and!; [done..|by left]..].
  destruct (cookie_config_ok d1 since (call_now c) (cfg_amnezia (config d)) from datagram Hh Ht) as (cfg & h & -> & Hh'). cbn [obind].
  destruct (prepend_outbound_with_trailer _ _ _ _ _ _) as [[out|e] junk]; cbn; (split; [by etrans; [exact Hs1|apply data_hints]|]);
    (split; [done|]); (split; [done|]); [|by left].
  destruct (reply_amplifies (len datagram) (len out)) eqn:Ham; [by left|right]. exists out. split; [done|]. right.
  unfold cookie_verdict in Hv. destruct (reply_target from DoorCookie) as [target|]; [|done]. split; [by eexists|].
  unfold reply_amplifies in Ham. rewrite Z.gtb_ltb in Ham. by apply Z.ltb_ge in Ham.
Qed.

Lemma observe_ok d since now from datagram : hints_ok since (imitation_hints d) -> since <= now ->
  exists h, hints_observe now from datagram (imitation_hints d) = Ret h /\ hints_ok now h.
Proof. intros Hh Ht. destruct (hints_observe_spec now since from datagram _ Hh Ht) as (h & E & Hok & _). by exists h. Qed.

(** Classifying a datagram: a reading to try, a reply to send, or nothing. *)
Lemma classify_ok d since now millis datagram from (rng : R) : ip_ok (fst from) -> hints_ok since (imitation_hints d) -> since <= now ->
  exists ingress responder rng' h,
    hints_classify now millis datagram (cfg_amnezia (config d)) (cfg_obf (config d)) from (probe_responder d) rng (imitation_hints d) =
      Ret (ingress, responder, rng', h) /\ hints_ok now h /\
    match ingress with
    | Wireguard candidates => candidates = inbound_candidates (cfg_amnezia (config d)) (cfg_obf (config d)) datagram
    | Reply reply => inbound_candidates (cfg_amnezia (config d)) (cfg_obf (config d)) datagram = [] /\ stranger_answer from datagram reply
    | Dropped => inbound_candidates (cfg_amnezia (config d)) (cfg_obf (config d)) datagram = []
    end.
Proof.
  intros Hip Hh Ht. unfold hints_classify. set (candidates := inbound_candidates _ _ _).
  assert (let '(ingress, _, _) := classify millis datagram (cfg_amnezia (config d)) (cfg_obf (config d)) from (probe_responder d) rng in
    match ingress with Wireguard l => l = candidates | Reply reply => candidates = [] /\ stranger_answer from datagram reply | Dropped => candidates = [] end) as Hc.
  { unfold classify. fold candidates. case_bool_decide as Hn; [done|]. assert (candidates = []) as Hnil by (destruct candidates; [done|by destruct Hn]).
    destruct (probe_responder d) as [r|]; [|done]. destruct (reply_to _ _ _ _ _ _) as [[[reply|] r'] rng'] eqn:E; [|done].
    split; [done|]. left. destruct (reply_to_reply _ _ _ _ _ _ _ _ _ Hip E) as (probe & target & H1' & H2' & H3' & _ & H5'). by exists probe, target. }
  destruct (classify _ _ _ _ _ _ _) as [[ingress responder] rng']. destruct (observe_ok d since now from datagram Hh Ht) as (h & Eo & Hok).
  destruct (_ && _).
  - rewrite Eo. by exists ingress, responder, rng', h.
  - exists ingress, responder, rng', (imitation_hints d). split; [done|]. split; [|done]. by eapply hints_ok_later.
Qed.

Definition private_of d : bytes := from_option fst [] (key_pair d).
Definition public_of d : bytes := from_option snd [] (key_pair d).

(** The readings of a datagram, and the trial each is put to. *)
Definition readings d datagram := inbound_candidates (cfg_amnezia (config d)) (cfg_obf (config d)) datagram.
Definition listener_trial (c : Call) d := authenticate_anonymous (call_now c) (private_of d) (public_of d) (len (call_dst c)) d.

Definition listened (c : Call) v6 from datagram d d' (effs : list Effect) : Prop :=
  (store d' = store d /\ stranger_effects v6 from datagram effs /\
   forall lim, device_limiter d = Some lim ->
     Forall (passed_over (cfg_amnezia (config d)) (cfg_obf (config d)) datagram (listener_trial c d) lim) (readings d datagram)) \/
  (exists lim l a t, device_limiter d = Some lim /\
     accepted_by (cfg_amnezia (config d)) (cfg_obf (config d)) datagram (listener_trial c d) lim (readings d datagram) (l, a, t) /\
     accepted_effects l (SendTo v6 from) a from d d' effs).

Lemma passed_over_nil c d datagram lim : readings d datagram = [] ->
  Forall (passed_over (cfg_amnezia (config d)) (cfg_obf (config d)) datagram (listener_trial c d) lim) (readings d datagram).
Proof. by intros ->. Qed.

Lemma listener_trial_safe k c d : device_ok k d -> trial_safe (listener_trial c d).
Proof.
  intros Hd packet Hp Hpanic. pose proof (authenticate_anonymous_spec k d (call_now c) (private_of d) (public_of d) (len (call_dst c)) packet Hd Hp) as Hs.
  unfold listener_trial in Hpanic. by rewrite Hpanic in Hs.
Qed.

Lemma accepted_names k c d datagram lim x : device_ok k d ->
  accepted_by (cfg_amnezia (config d)) (cfg_obf (config d)) datagram (listener_trial c d) lim (readings d datagram) x -> names_peer d (len (call_dst c)) x.
Proof.
  intros Hd (l1 & cand & l2 & message & packet & _ & [_ Hp] & _ & Ht & _).
  pose proof (authenticate_anonymous_spec k d (call_now c) (private_of d) (public_of d) (len (call_dst c)) packet Hd (parse_packet_ok _ _ _ Hp)) as Hs.
  unfold listener_trial in Ht. by rewrite Ht in Hs.
Qed.

(** The accepted packet of a listener, from the trial's verdict on. *)
Lemma listen_committed_ok k d d1 since l p calls up v6 from datagram a t (th : Thread R) :
  device_ok k d -> data_step d d1 -> store d1 = store d -> store d !! l = Some p -> (forall i, buffered (calls i)) ->
  authentic (len (call_dst (calls O))) UNBOUNDED (tunnel p) a t ->
  hints_ok since (imitation_hints d1) -> since <= call_now (calls O) ->
  eventually (fun fuel => safely (listen_accepted fuel calls up v6 from datagram l a (set_store (<[l := set_tunnel t p]> (store d1)) d1) th)
    (fun r => let '(out, d', _) := r in exists effs, out = Some effs /\ data_step d d' /\ hints_ok (call_now (calls O)) (imitation_hints d') /\
      accepted_effects l (SendTo v6 from) a from d d' effs)).
Proof.
  intros Hd Hs Hst E Hb Hau Hh Ht. set (d2 := set_store _ d1).
  destruct (authentic_committable _ _ _ _ _ (do_tunnels _ _ Hd _ _ E) Hau) as [Hcm Hc].
  assert (data_step d d2) as Hs2.
  { etrans; [exact Hs|]. apply (data_store l p); [by rewrite Hst|]. apply kept_set_tunnel. by apply committed_kept. }
  assert (store d2 !! l = Some (set_tunnel t p)) as E2 by (cbn; by rewrite lookup_insert_eq).
  eapply eventually_mono; [by apply (listen_accepted_ok k d2 since l (set_tunnel t p) calls up v6 from datagram a th); [eapply data_step_ok|..]|].
  intros fuel Hf. eapply safely_mono; [exact Hf|]. intros [[out d'] th'] (effs & -> & Hs' & Hh' & Hef & Hans & Hot & q & q' & Eq & Eq' & Hep).
  exists effs. split; [done|]. split; [by etrans|]. split; [done|]. assert (q = set_tunnel t p) as -> by congruence.
  split; [|split; [|split]].
  - eapply Forall_impl; [exact Hef|]. intros e. destruct Hs as [(? & ? & ? & ? & ->) _ _]. by destruct e.
  - destruct Hans as (r & rest & Hr & ->). exists r, rest. split; [done|]. destruct Hs as [(? & ? & ? & ? & ->) _ _]. by destruct r.
  - intros l' Hne. rewrite Hot by done. cbn. rewrite lookup_insert_ne by done. by rewrite Hst.
  - by exists p, q'.
Qed.

(** What the readings of a datagram came to. *)
Lemma listen_received_ok k d d1 calls os_rng up v6 from datagram r lim lim' (th : Thread R) :
  device_ok k d -> data_step d d1 -> store d1 = store d -> is_Some (device_limiter d1) -> device_limiter d = Some lim -> (forall i, buffered (calls i)) ->
  hints_ok (call_now (calls O)) (imitation_hints d1) -> call_now (calls O) <= call_now (calls 1%nat) ->
  match r with
  | Accepted t => accepted_by (cfg_amnezia (config d)) (cfg_obf (config d)) datagram (listener_trial (calls O) d) lim (readings d datagram) t
  | _ => Forall (passed_over (cfg_amnezia (config d)) (cfg_obf (config d)) datagram (listener_trial (calls O) d) lim) (readings d datagram)
  end ->
  eventually (fun fuel => safely (listen_received fuel calls os_rng up v6 from datagram r lim' d1 th) (fun r => let '(out, d', _) := r in
    exists effs, out = Some effs /\ data_step d d' /\ hints_ok (call_now (calls 1%nat)) (imitation_hints d') /\
    listened (calls O) v6 from datagram d d' effs)).
Proof.
  intros Hd Hs Hst Hl El Hb Hh Hmono Hr. set (c := calls O) in *.
  assert (forall h, hints_ok (call_now c) h -> hints_ok (call_now (calls 1%nat)) h) as Hlater by (intros h; by apply hints_ok_later).
  assert (forall effs, Forall (passed_over (cfg_amnezia (config d)) (cfg_obf (config d)) datagram (listener_trial c d) lim) (readings d datagram) ->
    forall d', store d' = store d -> stranger_effects v6 from datagram effs -> listened c v6 from datagram d d' effs) as Hleft.
  { intros effs Hpo d' Hst' He. left. split; [done|]. split; [done|]. intros lim0 El0. by assert (lim0 = lim) as -> by congruence. }
  unfold listen_received. fold c. destruct r as [|[[l a] t]|demand|refusal].
  - apply eventually_always. intros _. exists []. split; [done|]. split; [done|]. split; [by apply Hlater|]. apply Hleft; [done|done|by left].
  - destruct (accepted_names k c d datagram lim _ Hd Hr) as (key & p & _ & Ep & Hau). replace (store d1 !! l) with (Some p) by by rewrite Hst.
    eapply eventually_mono; [apply (listen_committed_ok k d d1 (call_now c) l p (fun n => calls (S n)) up v6 from datagram a t);
      [done|done|done|done|intros i; apply Hb|by rewrite (Hb 1%nat), <- (Hb O)|done|done]|].
    intros fuel Hf. eapply safely_mono; [exact Hf|]. intros [[out d'] th'] (effs & -> & Hs' & Hh' & Hef). exists effs. split; [done|].
    split; [done|]. split; [done|]. right. by exists lim, l, a, t.
  - apply eventually_always. intros _. apply safely_bind. eapply safely_mono; [by apply (listen_cookie_ok d1 (call_now c))|].
    intros [[out d'] th'] (Hs' & Hst' & Hh' & He). cbn. exists out. split; [done|]. split; [by etrans|]. split; [by apply Hlater|].
    apply Hleft; [done|congruence|done].
  - apply eventually_always. intros _. destruct (refusal_allows_hint refusal); unfold observe_refused.
    + destruct (observe_ok d1 (call_now c) (call_now c) from datagram Hh ltac:(lia)) as (h2 & Eo & Hh2).
      case_bool_decide; [rewrite Eo|]; cbn; exists []; (split; [done|]); (split; [etrans; [exact Hs|apply data_hints]|]); (split; [by apply Hlater|]);
        (apply Hleft; [done|done|by left]).
    + cbn. exists []. split; [done|]. split; [done|]. split; [by apply Hlater|]. apply Hleft; [done|done|by left].
Qed.

Lemma listen_ok k d since calls millis os_rng up v6 from datagram (th : Thread R) :
  device_ok k d -> (forall i, buffered (calls i)) -> ip_ok (fst from) ->
  hints_ok since (imitation_hints d) -> since <= call_now (calls O) -> call_now (calls O) <= call_now (calls 1%nat) ->
  eventually (fun fuel => safely (listen fuel calls millis os_rng up v6 from datagram d th) (fun r => let '(out, d', _) := r in
    exists effs, out = Some effs /\ data_step d d' /\ hints_ok (call_now (calls 1%nat)) (imitation_hints d') /\
    listened (calls O) v6 from datagram d d' effs)).
Proof.
  intros Hd Hb Hip Hh Ht Hmono. set (c := calls O) in *. pose proof (hints_ok_later _ _ _ Hmono (hints_ok_later _ _ _ Ht Hh)) as Hh0.
  pose proof (do_keys _ _ Hd) as Hks. unfold listen. destruct (key_pair d) as [[private public]|] eqn:Ek.
  2: { apply eventually_always. intros _. exists []. split; [done|]. split; [reflexivity|]. split; [done|]. left. split; [done|]. split; [by left|].
    intros lim El. by rewrite El in Hks. }
  destruct (device_limiter d) as [lim|] eqn:El; [|by destruct Hks as [_ []]]. cbv zeta. fold c.
  destruct (classify_ok d since (call_now c) millis datagram from (probe_rng th) Hip Hh Ht) as (ingress & responder & rng & h & -> & Hh1 & Hin).
  cbn [obind]. set (d1 := set_hints h (set_responder responder d)).
  assert (data_step d d1) as Hs1 by (etrans; [apply (data_responder responder)|apply data_hints]).
  assert (private = private_of d /\ public = public_of d) as [-> ->] by (unfold private_of, public_of; by rewrite Ek).
  pose proof (hints_ok_later _ _ _ Hmono Hh1) as Hh2. fold (readings d datagram) in Hin. destruct ingress as [candidates|reply|].
  - subst candidates. change (authenticate_anonymous (call_now c) (private_of d) (public_of d) (len (call_dst c)) d1) with (listener_trial c d).
    apply eventually_bind.
    pose proof (receive_spec (call_now c) (cfg_amnezia (config d)) (cfg_obf (config d)) (Some (RateLimiter.Endpoint (fst from) (snd from))) datagram
      (listener_trial c d) (readings d datagram) lim (listener_trial_safe k c d Hd)) as Hr.
    destruct (receive _ _ _ _ _ _ _ _) as [[r lim']|] eqn:Er; cbn [safely] in *; [|done]. destruct Hr as [_ Hr].
    apply (listen_received_ok k d _ calls _ _ _ _ _ _ lim); try done.
    etrans; [exact Hs1|]. apply data_limiter. cbn. rewrite El. by eexists.
  - destruct Hin as [Hnil Ha]. apply eventually_always. intros _. cbn. exists [SendTo v6 from reply]. split; [done|]. split; [done|].
    split; [done|]. left. split; [done|]. split; [right; by exists reply|]. intros lim0 _. by apply passed_over_nil.
  - apply eventually_always. intros _. cbn. exists []. split; [done|]. split; [done|]. split; [done|]. left. split; [done|].
    split; [by left|]. intros lim0 _. by apply passed_over_nil.
Qed.

(** ** A peer's connected socket *)

Lemma on_peer_step {A} l (m : M R A) d p (Q : A -> Tunn R -> Prop) :
  store d !! l = Some p ->
  (let t := share_limiter (device_limiter d) (tunnel p) in wp m (fun a t' => tunn_kept t t' /\ Q a t') t) ->
  safely (on_peer l m d) (fun r => data_step d (snd r) /\ only_at l d (snd r) /\
    exists t', store (snd r) !! l = Some (set_tunnel t' p) /\ Q (fst r) t').
Proof.
  intros E Hm. destruct (on_peer_eventually l (fun _ => m) d p Q E) as [n Hn]; [by apply eventually_always|]. by apply (Hn n).
Qed.

(** What a datagram on a connected socket leads to: the tunnel accepted a
    reading of it, or it changed nothing but counts and evidence and is
    answered at most by a cookie no larger than it. *)
Definition connection_result (c : Call) datagram t (r : TunnResult) : Prop :=
  (exists a t1, accepted_reading (call_now c) datagram (call_dst c) UNBOUNDED t a t1 /\ answer_of a r) \/
  (datagram <> [] -> no_reading (call_now c) datagram (call_dst c) UNBOUNDED t) /\
  match r with WriteToNetwork x => len x <= len datagram | Done | TErr _ => True | _ => False end.

Lemma receive_on_connection_wp c from datagram t : tunn_ok t -> buffered c ->
  wp (receive_on_connection c from datagram) (fun r t' => tunn_kept t t' /\
    match r with WriteToNetwork x => len x <= MAX_UDP_SIZE | _ => True end /\ connection_result c datagram t r) t.
Proof.
  intros Hok Hb. unfold receive_on_connection. apply wp_if.
  { intros Hz%Z.eqb_eq. wp_steps. split; [reflexivity|]. split; [done|]. right. split; [|done]. intros []. apply nil_length_inv. unfold len in Hz. lia. }
  intros Hz%Z.eqb_neq. unfold decapsulate_from. wp_use decapsulate_source_wp; [done|done|by rewrite Hb|]. intros r t' Hdec.
  assert (match r with WriteToNetwork x => len x <= MAX_UDP_SIZE | _ => True end) as Hsz.
  { destruct Hdec as [(_ & _ & He & _)|(a & t1 & l & _ & _ & _ & _ & He & _)]; destruct r; try done; rewrite <- Hb; apply He. }
  destruct Hdec as [(Hi & Hno & _ & Hr)|(a & t1 & l & Hacc & _ & Hc & Hs & _ & Ho)].
  - split; [by apply inert_kept|]. split; [done|]. right. split; [done|]. destruct r; try done. apply Hr.
  - split; [etrans; [by apply committed_kept|]; etrans; [apply inert_kept, (inert_limiter l)|by apply accepted_kept]|].
    split; [done|]. left. exists a, t1. split; [done|]. by eapply outcome_answer.
Qed.

Definition connection_effect (c : Call) l socket datagram t d (e : Effect) : Prop :=
  match e with
  | WriteTun packet => exists a t1 idx plaintext, accepted_reading (call_now c) datagram (call_dst c) UNBOUNDED t a t1 /\ a = AuthData idx plaintext /\
      ((exists addr, inner_result plaintext = WriteToTunnelV4 packet addr /\ peer_owns l (V4 addr) d = true) \/
       (exists addr, inner_result plaintext = WriteToTunnelV6 packet addr /\ peer_owns l (V6 addr) d = true))
  | e => sends (SendConnected socket) e
  end.

Lemma connected_ok k d l p calls socket endpoint lifetime datagram :
  device_ok k d -> store d !! l = Some p -> (forall i, buffered (calls i)) ->
  eventually (fun fuel => safely (connected fuel calls l socket endpoint lifetime datagram d) (fun r => let '(out, go, d') := r in
    exists effs, out = Some effs /\ data_step d d' /\ only_at l d d' /\ go = is_current_connection lifetime endpoint p /\
    (go = false -> d' = d /\ effs = []) /\ (exists t', store d' !! l = Some (set_tunnel t' p)) /\
    Forall (connection_effect (calls O) l socket datagram (share_limiter (device_limiter d) (tunnel p)) d) effs /\
    (go = true -> exists r rest, connection_result (calls O) datagram (share_limiter (device_limiter d) (tunnel p)) r /\
      effs = written l (SendConnected socket) r d ++ rest))).
Proof.
  intros Hd E Hb. unfold connected. rewrite E. destruct (is_current_connection lifetime endpoint p) eqn:Hcur; cbn [negb].
  2: { apply eventually_always. intros _. cbn. exists []. split; [done|]. split; [reflexivity|]. split; [reflexivity|]. split; [done|]. split; [done|].
       split; [exists (tunnel p); rewrite E; by destruct p|]. by split. }
  apply eventually_bind. eapply safely_mono.
  { apply (on_peer_step l _ d p (fun r _ => match r with WriteToNetwork x => len x <= MAX_UDP_SIZE | _ => True end /\
      connection_result (calls O) datagram (share_limiter (device_limiter d) (tunnel p)) r) E).
    cbv zeta. apply receive_on_connection_wp; [by eapply shared_ok|done]. }
  intros [r d1] (Hs1 & Ho1 & t1 & E1 & Hsz & Hr). cbn [fst snd] in *. destruct (dispatch l (SendConnected socket) r d1) as [out go] eqn:Hout.
  assert (Forall (connection_effect (calls O) l socket datagram (share_limiter (device_limiter d) (tunnel p)) d) out) as Hef.
  { assert (peers_by_ip d1 = peers_by_ip d) as Hip by (destruct Ho1 as [(? & ? & ->) _]; done).
    destruct Hr as [(a & t2 & Hacc & Hin)|[_ Hr]].
    - pose proof (dispatch_ok l (SendConnected socket) a r d1 (set_store ∅ d1) (sender_connected socket) Hin Hsz) as Hdisp. rewrite Hout in Hdisp.
      eapply Forall_impl; [exact Hdisp|]. intros e. unfold effect_of, peer_owns. rewrite Hip. destruct e; try done.
      + intros (idx & pt & -> & Hw). by exists (AuthData idx pt), t2, idx, pt.
      + by intros (_ & q & E' & _).
    - destruct r; try done; injection Hout as <- <-; try done. constructor; [|done]. by eexists. }
  eapply eventually_mono; [apply (flush_to_ok k d1 l _ (fun n => calls (S n)) (SendConnected socket) go (data_step_ok k _ _ Hs1 Hd) E1); intros i; apply Hb|].
  intros fuel Hf. apply safely_bind. eapply safely_mono; [exact Hf|]. intros [fl d2] (effs & Efl & Hfl & Hs2 & Ho2 & t2 & E2). cbn in *. subst fl.
  exists (out ++ effs). split; [done|]. split; [by etrans|]. split; [by etrans|]. split; [done|]. split; [done|].
  split; [by exists t2|]. split.
  - apply Forall_app. split; [done|]. eapply Forall_impl; [exact Hfl|]. intros e (x & -> & Hx). by exists x.
  - intros _. exists r, effs. split; [done|]. f_equal. change out with (fst (out, go)). rewrite <- Hout, dispatch_written. destruct Ho1 as [(? & ? & ->) _]. by destruct r.
Qed.

(** ** The interface and the timers *)

Lemma data_store_kept d d' l : data_step d d' -> is_Some (store d !! l) -> is_Some (store d' !! l).
Proof. intros Hs [p Ep]. pose proof (ds_store _ _ Hs l) as Hk. rewrite Ep in Hk. by destruct (store d' !! l). Qed.

Lemma find_stored k d ip l : device_ok k d -> allowed_ips_find ip (peers_by_ip d) = Some l ->
  exists key p, peers d !! key = Some l /\ store d !! l = Some p.
Proof.
  intros Hd Hf. unfold allowed_ips_find in Hf. destruct (longest_match ip (peers_by_ip d)) as [[net l']|] eqn:E; [|done]. injection Hf as ->.
  apply longest_match_some in E as (E & _). destruct (do_ips _ _ Hd _ _ E) as [key Ek].
  destruct (do_peers _ _ Hd _ _ Ek) as (p & Ep & _). by exists key, p.
Qed.

(** Where a datagram for a peer leaves: by its connected socket, else to its
    endpoint by the listener of that family, if there is one. *)
Definition leaves (udp6 : bool) (x : bytes) (ep : Endpoint) : list Effect :=
  match ep with
  | {| ep_conn := Some socket |} => [SendConnected socket x]
  | {| ep_addr := Some (V4 a, port) |} => [SendTo false (V4 a, port) x]
  | {| ep_addr := Some (V6 a, port) |} => if udp6 then [SendTo true (V6 a, port) x] else []
  | {| ep_addr := None |} => []
  end.
Lemma tun_send_leaves udp6 x p : tun_send_step udp6 x p = leaves udp6 x (peer_endpoint p).
Proof. unfold tun_send_step, send_listener. destruct (peer_endpoint p) as [[[[] port]|] [s|]]; try done. by destruct udp6. Qed.

(** A packet goes through the tunnel of the peer its destination routes to, and
    what comes of it leaves for that peer. *)
Definition routed (c : Call) (udp6 : bool) (src : bytes) d d' (effs : list Effect) : Prop :=
  match (addr ← dst_address src; snd <$> find_len addr (peers_by_ip d)) with
  | None => effs = [] /\ d' = d
  | Some l => exists p r t', store d !! l = Some p /\ store d' !! l = Some (set_tunnel t' p) /\ (forall l', l' <> l -> store d' !! l' = store d !! l') /\
      encapsulate (call_now c) (call_eph c) src (call_dst c) (share_limiter (device_limiter d) (tunnel p)) = Ret (r, t') /\
      match r with WriteToNetwork x => effs = leaves udp6 x (peer_endpoint p) /\ len x <= MAX_UDP_SIZE | _ => effs = [] end
  end.

Lemma wp_result {A} (m : M R A) (Q : A -> Tunn R -> Prop) t : wp m Q t -> wp m (fun a t' => Q a t' /\ m t = Ret (a, t')) t.
Proof. unfold wp. by destruct (m t) as [[a t']|]. Qed.

Lemma tun_packet_ok k d c udp6 src : device_ok k d -> buffered c ->
  safely (tun_packet c udp6 src d) (fun r => data_step d (snd r) /\ imitation_hints (snd r) = imitation_hints d /\
    (forall l, l ∉ locations d -> store (snd r) !! l = store d !! l) /\ routed c udp6 src d (snd r) (fst r)).
Proof.
  intros Hd Hb. unfold tun_packet, routed. destruct (dst_address src) as [addr|] eqn:Ea; [|cbn; by split_and!; [reflexivity|..]].
  cbn [mbind option_bind]. rewrite <- find_find_len.
  destruct (allowed_ips_find addr (peers_by_ip d)) as [l|] eqn:El; [|cbn; by split_and!; [reflexivity|..]].
  destruct (find_stored k d addr l Hd El) as (key & p & Ek & Ep). apply safely_bind. eapply safely_mono.
  { apply (on_peer_step l (encapsulate (call_now c) (call_eph c) src (call_dst c)) d p
      (fun r t' => match r with WriteToNetwork x => len x <= MAX_UDP_SIZE | _ => True end /\
        encapsulate (call_now c) (call_eph c) src (call_dst c) (share_limiter (device_limiter d) (tunnel p)) = Ret (r, t')) Ep). cbv zeta.
    eapply wp_mono; [apply wp_result; unfold encapsulate; apply encapsulate_with_budget_wp; [by eapply shared_ok|done|by rewrite Hb]|].
    intros r t' [(Hp & He & _) Er]. split; [by apply produced_kept|]. split; [|done]. destruct r; try done. rewrite <- Hb. apply He. }
  intros [r d'] (Hs & Ho & t' & Et & Hsz & Er). cbn [fst snd] in *.
  assert (imitation_hints d' = imitation_hints d) as Hh by (destruct Ho as [(? & ? & ->) _]; done).
  assert (forall l', l' ∉ locations d -> store d' !! l' = store d !! l') as Hoff.
  { intros l' Hni. apply (proj2 Ho). intros ->. apply Hni, elem_of_locations. by exists key. }
  rewrite Et. destruct r; rewrite ?tun_send_leaves; cbn [fst snd safely peer_endpoint set_tunnel]; (split; [done|split; [done|split; [done|]]]);
    eexists p, _, t'; split_and!; try done; apply Ho.
Qed.

Lemma tick_peer_ok k d c udp6 l p : device_ok k d -> store d !! l = Some p -> buffered c ->
  safely (tick_peer c udp6 l d) (fun r => data_step d (snd r) /\ imitation_hints (snd r) = imitation_hints d /\
    (forall l', l' <> l -> store (snd r) !! l' = store d !! l')).
Proof.
  intros Hd Ep Hb. unfold tick_peer. rewrite Ep. destruct (ep_addr (peer_endpoint p)) as [addr|]; [|cbn; by split; [reflexivity|]].
  apply safely_bind. eapply safely_mono.
  { apply (on_peer_step l _ d p (fun _ _ => True) Ep). cbv zeta. unfold update_timers.
    wp_use update_timers_wp; [by eapply shared_ok|done|by rewrite Hb|]. intros r t' (Hp & _). split; [by apply polled_kept|done]. }
  intros [r d'] (Hs & Ho & t' & Et & _). cbn [fst snd] in *. assert (imitation_hints d' = imitation_hints d) as Hh by (destruct Ho as [(? & ? & ->) _]; done).
  pose proof (proj2 Ho) as Hoth. destruct r as [| [] | | |]; cbn; try done.
  unfold with_peer. rewrite Et. cbn. split; [|split; [done|]].
  - etrans; [exact Hs|]. apply (data_store l (set_tunnel t' p)); [done|by split].
  - intros l' Hne. by rewrite lookup_insert_ne, Hoth.
Qed.

Lemma tick_ok k d calls udp6 : device_ok k d -> (forall i, buffered (calls i)) ->
  safely (tick calls udp6 d) (fun r => data_step d (snd r) /\ imitation_hints (snd r) = imitation_hints d /\
    forall l, l ∉ locations d -> store (snd r) !! l = store d !! l).
Proof.
  intros Hd Hb. unfold tick. assert (Forall (fun l => is_Some (store d !! l)) (locations d)) as Hls.
  { apply Forall_forall. intros l [key E]%elem_of_locations. destruct (do_peers _ _ Hd _ _ E) as (p & Ep & _). by eexists. }
  revert Hls. generalize (locations d) as ls. intros ls. revert calls d Hd Hb. induction ls as [|l ls IH]; intros calls d Hd Hb Hls; cbn [tick_peers].
  { cbn. by split; [reflexivity|]. }
  apply Forall_cons in Hls as [[p Ep] Hls]. apply safely_bind. eapply safely_mono; [by apply (tick_peer_ok k d (calls O) udp6 l p)|].
  intros [out d1] (Hs1 & Hh1 & Ho1). cbn [fst snd] in *. apply safely_bind. eapply safely_mono.
  { apply (IH (fun n => calls (S n)) d1); [by eapply data_step_ok|intros i; apply Hb|]. eapply Forall_impl; [exact Hls|]. intros l'.
    by apply data_store_kept. }
  intros [rest d2] (Hs2 & Hh2 & Ho2). cbn in *. split; [by etrans|]. split; [congruence|].
  intros l' [Hne Hni]%not_elem_of_cons. by rewrite Ho2, Ho1.
Qed.
End Safe.
