(* ===== verification/DeviceSystem.v ===== *)
(** The device as a whole: the configuration's operations and the handlers as
    the steps of one state machine ([device_step]), its runs
    ([runs]), and the theorems about the device.

    The state is the device, the worker's generators and the handlers of
    connected sockets registered so far. A handler keeps its peer after the
    tables have let go of it, so a step may be a datagram on any of them. The
    steps are the critical sections of the device's lock; they follow each other
    in any order. *)

From stdpp Require Import gmap functions.
From S2P Require Import Prelude Budget Instant Crypto Rand Tags Packet Session RateLimiter Amnezia Framing.
From S2P Require Import Handshake Imitation Inbound Timers OpReport Tunn TunnLogic TunnOutput TunnReceive TunnTick TunnConfig TunnInput.
From S2P Require Import TunnSystem Stun ReplyPolicy ProbeBudget ProbeReply ImitationHints AllowedIps PeerIndex Peer Device.
From S2P Require Import DeviceTables DeviceData DeviceSafe.

(** ** The state machine *)

Record Connection := {
  conn_peer : nat;
  conn_socket : nat;
  conn_endpoint : SocketAddr;
  conn_token : nat;
}.

Section System.
Context `{Crypto} {R : Type} `{RngCore R} `{PrefixFillers R} `{ImitationEnv} `{NetworkTable}.

Inductive DeviceEvent :=
| EvUpdatePeer (now : Z) (seed : TunnSeed (R := R)) (pub_key : bytes) (remove replace_ips : bool) (endpoint : option SocketAddr)
    (allowed_ips : list AllowedIP) (keepalive : option (Z * Z)) (psk : option bytes)
| EvSetKey (now : Z) (seed : LimiterSeed) (private_key : bytes)
| EvSetObfuscation (obf : ObfuscationRanges) (c : AmneziaConfig)
| EvClearPeers
| EvMtu (mtu : Z) (writeable : bool)
| EvListen (calls : nat -> Call) (millis : Z) (os_rng : R) (up : Upgrade) (v6 : bool) (from : SocketAddr) (datagram : bytes)
| EvConnected (calls : nat -> Call) (handler : nat) (datagram : bytes)
| EvTun (c : Call) (udp6 : bool) (src : bytes)
| EvTick (calls : nat -> Call) (udp6 : bool)
| EvLimiter (now : Z).

Record Loop := {
  dev : Device R;
  worker : Thread R;
  connections : list Connection;
}.

Definition set_dev d (w : Loop) : Loop := {| dev := d; worker := worker w; connections := connections w |}.

(** The handlers a step registers. *)
Definition registered (e : Effect) : option Connection :=
  match e with
  | Register l socket endpoint lifetime => Some {| conn_peer := l; conn_socket := socket; conn_endpoint := endpoint; conn_token := lifetime |}
  | _ => None
  end.

Definition quiet_step (m : outcome (Device R)) (w : Loop) : outcome (option (list Effect) * Loop) :=
  let! d := m in Ret (Some [], set_dev d w).
Definition noisy_step (m : outcome (list Effect * Device R)) (w : Loop) : outcome (option (list Effect) * Loop) :=
  let! (effs, d) := m in Ret (Some effs, set_dev d w).

Definition device_step (fuel : nat) (e : DeviceEvent) (w : Loop) : outcome (option (list Effect) * Loop) :=
  match e with
  | EvUpdatePeer now seed key remove replace_ips endpoint ips keepalive psk =>
      quiet_step (let! (_, d) := update_peer now seed key remove replace_ips endpoint ips keepalive psk (dev w) in Ret d) w
  | EvSetKey now seed private => quiet_step (set_key now seed private (dev w)) w
  | EvSetObfuscation obf c => quiet_step (let! (_, d) := device_set_obfuscation obf c (dev w) in Ret d) w
  | EvClearPeers => quiet_step (clear_peers (dev w)) w
  | EvMtu mtu writeable => quiet_step (refresh_mtu mtu writeable (dev w)) w
  | EvListen calls millis os_rng up v6 from datagram =>
      let! (out, d, th) := listen fuel calls millis os_rng up v6 from datagram (dev w) (worker w) in
      Ret (out, {| dev := d; worker := th; connections := connections w ++ omap registered (from_option id [] out) |})
  | EvConnected calls handler datagram =>
      match connections w !! handler with
      | None => Ret (Some [], w)
      | Some c =>
          let! (out, _, d) := connected fuel calls (conn_peer c) (conn_socket c) (conn_endpoint c) (conn_token c) datagram (dev w) in
          Ret (out, set_dev d w)
      end
  | EvTun c udp6 src => noisy_step (tun_packet c udp6 src (dev w)) w
  | EvTick calls udp6 => noisy_step (tick calls udp6 (dev w)) w
  | EvLimiter now => quiet_step (Ret (reset_limiter now (dev w))) w
  end.

(** What the device's surroundings guarantee of an event, at the time [now]
    after [k] updates: addresses and prefixes are well formed, a configuration
    has been validated, buffers have their size, a listener's clock does not
    run backwards, and the indices have not run out. *)
Definition event_ok (now : Z) (k : nat) (e : DeviceEvent) : Prop :=
  match e with
  | EvUpdatePeer _ _ _ _ _ _ ips _ _ => Z.of_nat k + 1 < period /\ Forall allowed_ip_ok ips
  | EvSetObfuscation obf c => obf_ok obf /\ config_ok c /\ check_header_protection_nonce c = Ok tt
  | EvMtu mtu _ => 0 <= mtu
  | EvListen calls _ _ _ _ from _ => (forall i, buffered (calls i)) /\ ip_ok (fst from) /\ now <= call_now (calls O) <= call_now (calls 1%nat)
  | EvConnected calls _ _ | EvTick calls _ => forall i, buffered (calls i)
  | EvTun c _ _ => buffered c
  | EvSetKey _ _ _ | EvClearPeers | EvLimiter _ => True
  end.

Definition event_clock (now : Z) (e : DeviceEvent) : Z :=
  match e with EvListen calls _ _ _ _ _ _ => call_now (calls 1%nat) | _ => now end.
Definition event_updates (e : DeviceEvent) (k : nat) : nat :=
  match e with EvUpdatePeer _ _ _ _ _ _ _ _ _ => S k | _ => k end.

(** Runs from one state to another, with the time and the updates so far. *)
Inductive runs (now0 : Z) (k0 : nat) (w0 : Loop) : Z -> nat -> Loop -> Prop :=
| runs_start : runs now0 k0 w0 now0 k0 w0
| runs_step now k w e fuel effs w' :
    runs now0 k0 w0 now k w -> event_ok now k e -> device_step fuel e w = Ret (Some effs, w') ->
    runs now0 k0 w0 (event_clock now e) (event_updates e k) w'.

Definition device_start (lfsr : IndexLfsr) (mtu : Z) (c : DeviceConfig) (th : Thread R) : Loop :=
  {| dev := device_new lfsr mtu c; worker := th; connections := [] |}.
End System.

(** ** The invariant *)

Section Invariant.
Context `{Crypto} `{!CryptoLaws} {R : Type} `{RngCore R} `{!RngLaws R} `{PrefixFillers R} `{!FillerLaws R} `{ImitationEnv} `{!ImitationLaws}.
Context `{NetworkTable} `{!NetworkTableLaws}.
Implicit Types (d : Device R) (p : Peer R) (t : Tunn R) (w : Loop (R := R)).

(** What the configuration does to the peers a handler may hold, and to the
    evidence: no peer goes from the heap, and evidence is dropped at most. *)
Record control_step d d' : Prop := {
  cs_store : forall l, is_Some (store d !! l) -> is_Some (store d' !! l);
  cs_hints : imitation_hints d' = imitation_hints d \/ imitation_hints d' = pending_default;
}.
#[export] Instance control_step_preorder : PreOrder control_step.
Proof. split; [split; [done|by left]|]. intros a b c [H1' H1''] [H2' H2'']. split; [auto|]. destruct H2''; [|by right]. destruct H1''; [left|right]; congruence. Qed.

Lemma control_store l p d : control_step d (set_store (<[l := p]> (store d)) d).
Proof.
  split; [|by left]. intros l' Hl. cbn. destruct (decide (l' = l)) as [->|Hne]; [rewrite lookup_insert_eq; by eexists|by rewrite lookup_insert_ne].
Qed.
Lemma control_with_peer {A} l (f : Peer R -> outcome (A * Peer R)) d a d' : with_peer l f d = Ret (a, d') -> control_step d d'.
Proof. unfold with_peer. destruct (store d !! l) as [p|]; [|done]. destruct (f p) as [[a' p']|]; [|done]. intros [= <- <-]. apply control_store. Qed.
Lemma control_for_peers ls f d d' : for_peers ls f d = Ret d' -> control_step d d'.
Proof.
  revert d. induction ls as [|l ls IH]; intros d; cbn [for_peers]; [intros [= <-]; reflexivity|].
  destruct (with_peer l _ d) as [[u d1]|] eqn:E; [|done]. intros Hd. etrans; [by eapply control_with_peer|by apply IH].
Qed.
Lemma control_remove key d d' : remove_peer key d = Ret d' -> control_step d d'.
Proof.
  unfold remove_peer. destruct (peers d !! key) as [l|]; [|intros [= <-]; reflexivity]. destruct (store d !! l) as [p|]; [|done].
  intros [= <-]. split; [|by right]. apply (cs_store _ _ (control_store l (shutdown_endpoint p) d)).
Qed.
Lemma control_update now seed key remove replace_ips endpoint ips keepalive psk d r d' :
  update_peer now seed key remove replace_ips endpoint ips keepalive psk d = Ret (r, d') -> control_step d d'.
Proof.
  unfold update_peer. destruct remove.
  { destruct (remove_peer key d) as [d1|] eqn:E; [|done]. intros [= <- <-]. by eapply control_remove. }
  destruct (peers d !! key) as [l|].
  { unfold merge_peer. destruct (with_peer l _ d) as [[u d1]|] eqn:E; [|done]. cbn [obind]. destruct (_ || _); [|intros [= <- <-]; by eapply control_with_peer].
    destruct (insert_all _ _); [|done]. intros [= <- <-]. etrans; [by eapply control_with_peer|]. split; [done|by left]. }
  unfold device_next_index. destruct (lfsr_next _) as [[i lf]|]; [|done]. cbn [obind].
  destruct (require_key_pair _) as [[private public]|e]; [|intros [= <- <-]; by split; [|left]].
  destruct (tunn_new _ _ _ _ _ _ _ _ _ _) as [t|e]; [|intros [= <- <-]; by split; [|left]].
  destruct (match keepalive with None => _ | Some _ => _ end) as [p|]; [|done]. cbn [obind alloc].
  destruct (insert_all _ _) as [ips'|]; [|done]. intros [= <- <-]. split; [|by left]. apply (cs_store _ _ (control_store (next_location d) p d)).
Qed.

Lemma refresh_mtu_ok k d mtu writeable : device_ok k d -> 0 <= mtu ->
  safely (refresh_mtu mtu writeable d) (fun d' => device_ok k d' /\ control_step d d' /\ device_mtu d' = mtu /\
    (writeable = true -> content_padding_mtu (cfg_amnezia (config d')) = Z.min mtu u16_max)).
Proof.
  intros Hd Hm. assert (in_u16 (Z.min mtu u16_max)) as Hu by (unfold in_u16, u16_max; lia). unfold refresh_mtu. cbv zeta.
  destruct (_ || _) eqn:Hs.
  { cbn. split; [by destruct Hd|]. split; [by split; [|left]|]. split; [done|]. intros ->. cbn in Hs. rewrite orb_false_r in Hs. by apply Z.eqb_eq in Hs. }
  set (d1 := set_config _ _). set (mtu' := Z.min mtu u16_max) in *. pose proof (do_config _ _ Hd) as (Ho & Hc & Hn).
  assert (safely (for_peers (locations d1) (fun p => let! (_, p) := on_tunnel (set_content_padding_mtu mtu') p in Ret p) d1) (fun d' =>
    exists st, d' = set_store st d1 /\ each (locations d1) (fun p p' => p' = set_tunnel (set_amnezia (set_mtu mtu' (amnezia (tunnel p))) (tunnel p)) p) (store d1) st)) as Hf.
  { apply for_peers_spec; [by apply (locations_nodup k d)|]. apply Forall_forall. intros l [key Ek]%elem_of_locations.
    destruct (do_peers _ _ Hd _ _ Ek) as (p & Ep & _). by exists p. }
  destruct (for_peers (locations d1) _ d1) as [d'|] eqn:E; [|done]. destruct Hf as (st & -> & He).
  cbn [safely]. assert (control_step d (set_store st d1)) as Hcs by (etrans; [|eapply control_for_peers, E]; by split; [|left]).
  split; [|by split_and!]. eapply (device_ok_each k d); try done.
  - intros p p' Hok ->. split; [|done]. destruct Hok as [? ? ? ? Hc' Hn' ? ?]. split; try done. destruct Hc'. by split.
  - intros key p p' [Hid Hfr] ->. split; [done|]. unfold tunn_framing in *. cbn. by injection Hfr as -> ->.
  - apply Hd.
  - split; [done|]. split; [|done]. destruct Hc. by split.
Qed.

Lemma control_frame d d0 d' : store d0 = store d -> imitation_hints d0 = imitation_hints d \/ imitation_hints d0 = pending_default ->
  control_step d0 d' -> control_step d d'.
Proof. intros Hst Hh Hc. etrans; [|exact Hc]. split; [by rewrite Hst|done]. Qed.

Lemma control_set_key now seed private d d' : set_key now seed private d = Ret d' -> control_step d d'.
Proof.
  unfold set_key. destruct (bool_decide _); [intros [= <-]; reflexivity|]. destruct (for_peers _ _ d) as [d1|] eqn:E; [|done]. intros [= <-].
  etrans; [by eapply control_for_peers|]. split; [done|by right].
Qed.
Lemma control_set_obfuscation obf c d b d' : device_set_obfuscation obf c d = Ret (b, d') -> control_step d d'.
Proof.
  unfold device_set_obfuscation. destruct (_ && _); [intros [= <- <-]; reflexivity|]. set (d0 := set_hints _ _).
  destruct (for_peers _ _ d0) as [d1|] eqn:E; [|done]. intros [= <- <-]. by eapply (control_frame d d0); [|right|eapply control_for_peers].
Qed.
Lemma control_clear d d' : clear_peers d = Ret d' -> control_step d d'.
Proof.
  unfold clear_peers. set (d0 := set_hints _ _). destruct (for_peers _ _ d0) as [d1|] eqn:E; [|done]. intros [= <-].
  eapply (control_frame d d0); [done|by right|]. etrans; [by eapply control_for_peers|]. by split; [|left].
Qed.

(** The device's invariant, with every registered handler's peer on the heap. *)
Record loop_ok (now : Z) (k : nat) w : Prop := {
  lo_device : exists k', (k' <= k)%nat /\ device_ok k' (dev w);
  lo_hints : hints_ok now (imitation_hints (dev w));
  lo_connections : Forall (fun c => is_Some (store (dev w) !! conn_peer c)) (connections w);
}.

Lemma loop_control now k k' w d : (k' <= k)%nat -> device_ok k' d -> control_step (dev w) d -> loop_ok now k w \/ loop_ok now (pred k) w ->
  loop_ok now k (set_dev d w).
Proof.
  intros Hk Hd [Hst Hh] Hw. assert (hints_ok now (imitation_hints (dev w)) /\ Forall (fun c => is_Some (store (dev w) !! conn_peer c)) (connections w)) as [Hho Hc]
    by (destruct Hw as [[]|[]]; done).
  split; cbn; [by exists k'|destruct Hh as [->| ->]; [done|apply hints_ok_default]|]. eapply Forall_impl; [exact Hc|]. intros c. apply Hst.
Qed.

Lemma loop_data now now' k w d : loop_ok now k w -> data_step (dev w) d -> hints_ok now' (imitation_hints d) -> loop_ok now' k (set_dev d w).
Proof.
  intros [(k' & Hk & Hd) _ Hc] Hs Hh. split; cbn; [exists k'; split; [done|by eapply data_step_ok]|done|].
  eapply Forall_impl; [exact Hc|]. intros c. by apply data_store_kept.
Qed.

(** What an event makes of a sound state. *)
Definition steps_well (now : Z) (k : nat) (e : DeviceEvent (R := R)) w : Prop :=
  eventually (fun fuel => safely (device_step fuel e w) (fun r => is_Some (fst r) /\ loop_ok (event_clock now e) (event_updates e k) (snd r))).

Lemma steps_quiet now k e w (m : outcome (Device R)) (Q : Device R -> Prop) : (forall fuel, device_step fuel e w = quiet_step m w) ->
  safely m Q -> (forall d, m = Ret d -> Q d -> loop_ok (event_clock now e) (event_updates e k) (set_dev d w)) -> steps_well now k e w.
Proof.
  intros Hstep Hm Hq. apply eventually_always. intros fuel. rewrite Hstep. unfold quiet_step. destruct m as [d|]; [|done]. cbn.
  split; [by eexists|by apply Hq].
Qed.

Lemma steps_control now k w e : loop_ok now k w -> event_ok now k e ->
  match e with EvUpdatePeer _ _ _ _ _ _ _ _ _ | EvSetKey _ _ _ | EvSetObfuscation _ _ | EvClearPeers | EvMtu _ _ => steps_well now k e w | _ => True end.
Proof.
  intros Hw He. pose proof (lo_device _ _ _ Hw) as (k0 & Hk0 & Hd). destruct e; try done.
  - destruct He as [Hp Hips].
    eapply (steps_quiet now k _ w _ (fun d => exists k', (k' <= S k0)%nat /\ device_ok k' d)); [done|..].
    + apply safely_bind. eapply safely_mono; [apply (update_peer_ok k0); [done|lia|done]|]. by intros [r d] [? _].
    + intros d E (k' & Hk & Hd'). destruct (update_peer _ _ _ _ _ _ _ _ _ _) as [[r d1]|] eqn:Eu; [|done]. injection E as ->.
      eapply (loop_control _ _ k'); [cbn; lia|done|by eapply control_update|by right].
  - eapply (steps_quiet now k _ w _ (device_ok k0)); [done|..].
    + eapply safely_mono; [by apply (set_key_ok k0)|]. by intros d (? & _).
    + intros d E Hd'. eapply (loop_control _ _ k0); [done|done|by eapply control_set_key|by left].
  - destruct He as (Ho & Hc & Hn). eapply (steps_quiet now k _ w _ (device_ok k0)); [done|..].
    + apply safely_bind. eapply safely_mono; [by apply (device_set_obfuscation_ok k0)|]. by intros [b d] (? & _).
    + intros d E Hd'. destruct (device_set_obfuscation _ _ _) as [[b d1]|] eqn:Eo; [|done]. injection E as ->.
      eapply (loop_control _ _ k0); [done|done|by eapply control_set_obfuscation|by left].
  - eapply (steps_quiet now k _ w _ (device_ok k0)); [done|..].
    + eapply safely_mono; [by apply (clear_peers_ok k0)|]. by intros d (? & _).
    + intros d E Hd'. eapply (loop_control _ _ k0); [done|done|by eapply control_clear|by left].
  - eapply (steps_quiet now k _ w _ (fun d => device_ok k0 d /\ control_step (dev w) d)); [done|..].
    + eapply safely_mono; [by apply (refresh_mtu_ok k0)|]. by intros d (? & ? & _).
    + intros d E [Hd' Hc]. eapply (loop_control _ _ k0); [done|done|done|by left].
Qed.

Lemma steps_listen now k w calls millis os_rng up v6 from datagram :
  loop_ok now k w -> event_ok now k (EvListen calls millis os_rng up v6 from datagram) ->
  steps_well now k (EvListen calls millis os_rng up v6 from datagram) w.
Proof.
  intros Hw (Hb & Hip & Ht). pose proof Hw as [(k0 & Hk0 & Hd) Hh Hc]. unfold steps_well. cbn [device_step event_clock event_updates].
  eapply eventually_mono; [apply (listen_ok k0 (dev w) now calls millis os_rng up v6 from datagram (worker w)); [done|done|done|done|lia|lia]|].
  intros fuel Hf. apply safely_bind. eapply safely_mono; [exact Hf|]. intros [[out d] th] (effs & -> & Hs & Hh' & Hl). cbn. split; [by eexists|].
  destruct (loop_data now _ k w d Hw Hs Hh') as [H1' H2' H3']. split; [done|done|]. cbn. apply Forall_app. split; [done|].
  apply Forall_forall. intros c (e & He & Hreg)%list_elem_of_omap. destruct Hl as [(_ & Hse & _)|(lim & l & a & t & _ & _ & Hef & _)].
  - destruct Hse as [->|(reply & -> & _)]; [by apply not_elem_of_nil in He|]. by apply list_elem_of_singleton in He as ->.
  - pose proof (proj1 (Forall_forall _ _) Hef _ He) as Heff. destruct e; try done. injection Hreg as <-. destruct Heff as (-> & p' & Ep & _). by exists p'.
Qed.

Lemma reset_limiter_step now d : data_step d (reset_limiter now d).
Proof.
  unfold reset_limiter. destruct (device_limiter d) as [l|] eqn:El; cbn; [apply data_limiter; by rewrite El|].
  replace (set_device_limiter None d) with d; [reflexivity|]. rewrite <- El. by destruct d.
Qed.

Lemma steps_data now k w e : loop_ok now k w -> event_ok now k e ->
  match e with EvConnected _ _ _ | EvTun _ _ _ | EvTick _ _ | EvLimiter _ => steps_well now k e w | _ => True end.
Proof.
  intros Hw He. pose proof Hw as [(k0 & Hk0 & Hd) Hh Hc].
  destruct e as [| | | | | |calls handler datagram|c udp6 src|calls udp6|t]; try done; unfold steps_well; cbn [device_step event_clock event_updates].
  - destruct (connections w !! handler) as [c|] eqn:Ec; [|apply eventually_always; intros _; cbn; split; [by eexists|done]].
    destruct (Forall_lookup_1 _ _ _ _ Hc Ec) as [p Ep].
    eapply eventually_mono; [by apply (connected_ok k0 (dev w) (conn_peer c) p calls (conn_socket c) (conn_endpoint c) (conn_token c) datagram)|].
    intros fuel Hf. apply safely_bind. eapply safely_mono; [exact Hf|]. intros [[out go] d] (effs & -> & Hs & [(lim & st & ->) _] & _). cbn.
    split; [by eexists|]. by eapply loop_data.
  - apply eventually_always. intros _. apply safely_bind. eapply safely_mono; [by apply (tun_packet_ok k0)|]. intros [effs d] (Hs & Hh' & _). cbn in *.
    split; [by eexists|]. eapply loop_data; [done|done|by rewrite Hh'].
  - apply eventually_always. intros _. apply safely_bind. eapply safely_mono; [by apply (tick_ok k0)|]. intros [effs d] (Hs & Hh' & _). cbn in *.
    split; [by eexists|]. eapply loop_data; [done|done|by rewrite Hh'].
  - apply eventually_always. intros _. cbn. split; [by eexists|]. eapply loop_data; [done|by apply reset_limiter_step|done].
Qed.

Lemma steps_ok now k w e : loop_ok now k w -> event_ok now k e -> steps_well now k e w.
Proof. intros Hw He. pose proof (steps_control now k w e Hw He). pose proof (steps_data now k w e Hw He). destruct e; try done. by apply steps_listen. Qed.

(** More fuel than enough changes nothing. *)
Definition stable {A} (done : A -> Prop) (m : nat -> outcome A) : Prop :=
  forall n n' x, (n <= n')%nat -> m n = Ret x -> done x -> m n' = Ret x.

Lemma stable_const {A} (done : A -> Prop) m : stable done (fun _ => m).
Proof. by intros n n' x _ ?. Qed.
Lemma stable_bind {A B} (done : A -> Prop) (done' : B -> Prop) m (k : nat -> A -> outcome B) :
  stable done m -> (forall x, stable done' (fun fuel => k fuel x)) -> (forall fuel x y, k fuel x = Ret y -> done' y -> done x) ->
  stable done' (fun fuel => let! x := m fuel in k fuel x).
Proof.
  intros Hm Hk Hdone n n' y Hle Hy Hd. destruct (m n) as [x|] eqn:E; [|done]. cbn in Hy.
  rewrite (Hm n n' x Hle E (Hdone _ _ _ Hy Hd)). cbn. by apply (Hk x n).
Qed.
Lemma stable_then {A B} (done : B -> Prop) (m : outcome A) (k : nat -> A -> outcome B) :
  (forall x, stable done (fun fuel => k fuel x)) -> stable done (fun fuel => let! x := m in k fuel x).
Proof. intros Hk. apply (stable_bind (fun _ => True)); [apply stable_const|done|done]. Qed.

Definition out1 {A B} (r : option A * B) : Prop := is_Some (fst r).
Definition out2 {A B C} (r : option A * B * C) : Prop := is_Some (fst (fst r)).

Lemma flush_stable t calls : stable out1 (fun fuel => flush fuel calls t).
Proof.
  intros n n' x Hle. revert n' t calls x Hle. induction n as [|n IH]; intros n' t calls x Hle; [intros [= <-] [? ?]; done|].
  destruct n' as [|n']; [lia|]. cbn [flush]. unfold mthen, mreturn.
  destruct (decapsulate (call_now (calls O)) (call_eph (calls O)) None [] (call_dst (calls O)) t) as [[r t']|]; [|done]. cbn.
  destruct r; try done. destruct (flush n _ t') as [[rest t'']|] eqn:E; [|done]. cbn. intros [= <-] Hs.
  rewrite (IH n' t' _ (rest, t'')); [done|lia|done|]. destruct rest; [by eexists|by destruct Hs].
Qed.

Lemma flush_to_stable calls l send go d : stable out1 (fun fuel => flush_to fuel calls l send go d).
Proof.
  unfold flush_to. destruct go; [|apply stable_const]. apply (stable_bind out1).
  - intros n n' [o d'] Hle. unfold on_peer, with_shared, on_tunnel. destruct (store d !! l) as [p|]; [|done]. cbn. set (t := share_limiter _ _).
    destruct (flush n calls t) as [[o' t']|] eqn:E; [|done]. cbn. intros [= -> <-] Hs. by rewrite (flush_stable t calls n n' _ Hle E Hs).
  - intros x. apply stable_const.
  - intros fuel [o d'] y. cbn. intros [= <-]. unfold out1. cbn. by rewrite fmap_is_Some.
Qed.

Lemma listen_accepted_stable calls up v6 from datagram l a d (th : Thread R) : stable out2 (fun fuel => listen_accepted fuel calls up v6 from datagram l a d th).
Proof.
  unfold listen_accepted. apply stable_then. intros [hint d1]. apply stable_then. intros [r d2]. destruct (is_terr r); [apply stable_const|].
  destruct (dispatch _ _ _ _) as [out go]. apply (stable_bind out1); [apply flush_to_stable|..].
  - intros [fl d3]. apply stable_const.
  - intros fuel [fl d3] [[o d4] th4]. unfold out1, out2. cbn. destruct (negb _).
    + intros [= <- <- <-]. by rewrite fmap_is_Some.
    + destruct (upgrade _ _ _ _ _ _) as [[[op d5] th5]|]; [|done]. cbn. intros [= <- <- <-]. by rewrite fmap_is_Some.
Qed.

Lemma listen_stable calls millis os_rng up v6 from datagram d (th : Thread R) : stable out2 (fun fuel => listen fuel calls millis os_rng up v6 from datagram d th).
Proof.
  unfold listen. destruct (key_pair d) as [[private public]|]; [|apply stable_const]. destruct (device_limiter d) as [lim|]; [|apply stable_const].
  cbv zeta. apply stable_then. intros [[[ingress responder] rng] hints]. destruct ingress; try apply stable_const.
  apply stable_then. intros [r lim']. unfold listen_received. destruct r as [|[[l a] t]|demand|refusal]; try apply stable_const.
  destruct (store _ !! l); [apply listen_accepted_stable|apply stable_const].
Qed.

Lemma connected_stable calls l socket endpoint lifetime datagram d : stable out2 (fun fuel => connected fuel calls l socket endpoint lifetime datagram d).
Proof.
  unfold connected. destruct (store d !! l) as [p|]; [|apply stable_const]. destruct (negb _); [apply stable_const|].
  apply stable_then. intros [r d1]. destruct (dispatch _ _ _ _) as [out go]. apply (stable_bind out1); [apply flush_to_stable|..].
  - intros [fl d3]. apply stable_const.
  - intros fuel [fl d3] [[o b] d4]. unfold out1, out2. cbn. intros [= <- <- <-]. by rewrite fmap_is_Some.
Qed.

Lemma step_stable e w : stable out1 (fun fuel => device_step fuel e w).
Proof.
  destruct e; cbn [device_step]; try apply stable_const.
  - apply (stable_bind out2); [apply listen_stable|intros [[? ?] ?]; apply stable_const|].
    intros fuel [[o d] th] y. by intros [= <-].
  - destruct (connections w !! handler); [|apply stable_const].
    apply (stable_bind out2); [apply connected_stable|intros [[? ?] ?]; apply stable_const|]. intros fuel [[o b] d] y. by intros [= <-].
Qed.

Lemma device_step_ok now k w e fuel effs w' : loop_ok now k w -> event_ok now k e -> device_step fuel e w = Ret (Some effs, w') ->
  loop_ok (event_clock now e) (event_updates e k) w'.
Proof.
  intros Hw He Hs. destruct (steps_ok now k w e Hw He) as [n Hn]. specialize (Hn (Nat.max n fuel) ltac:(lia)).
  rewrite (step_stable e w fuel (Nat.max n fuel) _ ltac:(lia) Hs) in Hn by by eexists. apply Hn.
Qed.
Lemma runs_ok now0 k0 w0 now k w : loop_ok now0 k0 w0 -> runs now0 k0 w0 now k w -> loop_ok now k w.
Proof. intros H0'. induction 1 as [|now k w e fuel effs w' Hr IH He Hs]; [done|]. by eapply device_step_ok. Qed.

Lemma device_new_ok lfsr mtu c (th : Thread R) now : lfsr_at lfsr 0 -> config_valid c -> 0 <= mtu -> loop_ok now 0 (device_start lfsr mtu c th).
Proof.
  intros Hl (Ho & Hc & Hn) Hm. split; [|apply hints_ok_default|done]. exists O. split; [done|].
  split; cbn; try done; try apply map_Forall_empty; [unfold allowed_ips_new; rewrite new_entries; apply map_Forall_empty|].
  split; [done|]. split; [|done]. destruct Hc. split; try done. cbn. unfold in_u16, u16_max. lia.
Qed.
End Invariant.
