(* ===== verification/DeviceExamples.v ===== *)
(** A concrete device with one peer: the inputs the theorems of the device are
    applied at. The peer shakes hands over the listening socket and is given a
    connected one. *)

From stdpp Require Import gmap functions.
From S2P Require Import Prelude Budget Instant Crypto Rand Tags Packet Session RateLimiter Amnezia Framing.
From S2P Require Import Handshake Imitation Fillers Inbound Timers OpReport Tunn TunnReceive TunnTick TunnConfig.
From S2P Require Import TunnSystem TunnExamples Stun ReplyPolicy ProbeBudget ProbeReply ImitationHints AllowedIps PeerIndex Peer Device.
From S2P Require Import DeviceTables DeviceData DeviceSafe DeviceSystem.
Import Toy CounterRng ProtocolFillers SampleEnv ListTable.

Definition ex_draws : list Z := [0; 1; 16777216; 5].
Definition ex_lfsr : IndexLfsr := {| lfsr_initial := 1; lfsr := 1; lfsr_mask := 5 |}.
Definition ex_device_config : DeviceConfig := {|
  use_connected_socket := true; cfg_obf := obf_default; cfg_amnezia := ex_awg; probe_reply_bytes_per_sec := Some 1000 |}.
Definition ex_thread : Thread Z := {| junk_rng := 1; probe_rng := 2; conn_upgrade_disabled4 := false; conn_upgrade_disabled6 := false |}.
Definition ex_loop : Loop (R := Z) := device_start ex_lfsr 1420 ex_device_config ex_thread.

(** A step and where it leads. *)
Definition step_to (e : DeviceEvent (R := Z)) (w : Loop (R := Z)) : Loop (R := Z) :=
  match device_step 8 e w with Ret (_, w') => w' | Panic => w end.
Definition step_out (e : DeviceEvent (R := Z)) (w : Loop (R := Z)) : list Effect :=
  match device_step 8 e w with Ret (Some effs, _) => effs | _ => [] end.
Definition steps (e : DeviceEvent (R := Z)) (w : Loop (R := Z)) : bool :=
  match device_step 8 e w with Ret (Some _, _) => true | _ => false end.
Lemma steps_eq e w : steps e w = true -> device_step 8 e w = Ret (Some (step_out e w), step_to e w).
Proof. unfold steps, step_out, step_to. by destruct (device_step 8 e w) as [[[effs|] w']|]. Qed.

Definition ex_peer_key : bytes := x25519_public (ex_private 5).
Definition ex_set_key : DeviceEvent (R := Z) := EvSetKey 0 (seed_limiter (ex_seed 7)) (ex_private 7).
Definition ex_add_peer : DeviceEvent (R := Z) :=
  EvUpdatePeer 0 (ex_seed 7) ex_peer_key false false None [{| aip_addr := fst ex_net; aip_cidr := snd ex_net |}] None None.
Definition ex_remove_peer : DeviceEvent (R := Z) := EvUpdatePeer 0 (ex_seed 7) ex_peer_key true false None [] None None.
Definition ex_calls (ms : Z) (i : nat) : Call := {| call_now := (ms + Z.of_nat i) * 1000000; call_eph := to_le 32 99; call_dst := zeros MAX_UDP_SIZE |}.
Definition ex_upgrade : Upgrade := {| up_opened := Ok 4%nat; up_registered := true; up_lifetime := 9 |}.
Definition ex_from : SocketAddr := (V4 (to_be 4 3221225985), 40000).
Definition ex_hear (datagram : bytes) : DeviceEvent (R := Z) := EvListen (ex_calls 50) 50 3 ex_upgrade false ex_from datagram.

Definition ex_loop_keyed : Loop (R := Z) := step_to ex_set_key ex_loop.
Definition ex_loop_peered : Loop (R := Z) := step_to ex_add_peer ex_loop_keyed.
Definition ex_loop_heard : Loop (R := Z) := step_to (ex_hear ex_initiation_datagram) ex_loop_peered.
Definition ex_loop_removed : Loop (R := Z) := step_to ex_remove_peer ex_loop_heard.

(** ** They are well formed *)

Lemma ex_lfsr_drawn : lfsr_default ex_draws = Some ex_lfsr.
Proof. reflexivity. Qed.
Lemma ex_device_config_ok : config_valid ex_device_config.
Proof. split; [apply obf_default_ok|]. split; [apply ex_awg_ok|reflexivity]. Qed.
Lemma ex_buffered ms i : buffered (ex_calls ms i).
Proof. vm_compute. reflexivity. Qed.
Lemma ex_from_ok : ip_ok (fst ex_from).
Proof. reflexivity. Qed.
Lemma ex_ips_ok : Forall allowed_ip_ok [{| aip_addr := fst ex_net; aip_cidr := snd ex_net |}].
Proof. constructor; [|done]. split; [reflexivity|cbn; lia]. Qed.

Lemma ex_set_key_ok now k : event_ok now k ex_set_key.
Proof. done. Qed.
Lemma ex_add_peer_ok now : event_ok now 0 ex_add_peer.
Proof. split; [done|apply ex_ips_ok]. Qed.
Lemma ex_hear_ok k datagram : event_ok 0 k (ex_hear datagram).
Proof. split; [intros i; apply ex_buffered|]. split; [apply ex_from_ok|]. cbn. lia. Qed.
Lemma ex_remove_peer_ok now : event_ok now 1 ex_remove_peer.
Proof. by split. Qed.

Lemma ex_runs_keyed : runs 0 0 ex_loop 0 0 ex_loop_keyed.
Proof. eapply (runs_step 0 0 ex_loop 0 0 ex_loop ex_set_key 8); [constructor|done|apply steps_eq; vm_compute; reflexivity]. Qed.
Lemma ex_runs_peered : runs 0 0 ex_loop 0 1 ex_loop_peered.
Proof.
  eapply (runs_step 0 0 ex_loop 0 0 ex_loop_keyed ex_add_peer 8); [apply ex_runs_keyed|apply ex_add_peer_ok|apply steps_eq; vm_compute; reflexivity].
Qed.
Lemma ex_runs_heard : runs 0 0 ex_loop 51000000 1 ex_loop_heard.
Proof.
  eapply (runs_step 0 0 ex_loop 0 1 ex_loop_peered (ex_hear ex_initiation_datagram) 8);
    [apply ex_runs_peered|apply ex_hear_ok|apply steps_eq; vm_compute; reflexivity].
Qed.

Lemma ex_runs_ok now k w : runs 0 0 ex_loop now k w -> loop_ok now k w.
Proof.
  apply runs_ok, device_new_ok; [by apply (lfsr_default_at ex_draws)|apply ex_device_config_ok|done].
Qed.

(** What [device_ok] needs of a number of indices, whatever it is. *)
Lemma ex_device_ok now k w : runs 0 0 ex_loop now k w -> exists k', (k' <= k)%nat /\ device_ok k' (dev w).
Proof. intros Hr. apply (ex_runs_ok _ _ _ Hr). Qed.
