(* ===== verification/DeviceTheorems.v ===== *)
(** The theorems about the device: it runs without panicking, what an update of
    a peer does to the routes, what a datagram or a packet leads to on each of
    the paths, and that a peer taken off the tables stays silent. *)

From stdpp Require Import gmap functions.
From S2P Require Import Prelude Budget Instant Crypto Rand Tags Packet Session RateLimiter Amnezia Framing.
From S2P Require Import Handshake Imitation Fillers Inbound Timers OpReport Tunn TunnLogic TunnOutput TunnReceive TunnTick TunnConfig TunnInput.
From S2P Require Import TunnSystem TunnExamples Stun ReplyPolicy ProbeBudget ProbeReply ImitationHints AllowedIps PeerIndex Peer Device.
From S2P Require Import DeviceTables DeviceData DeviceSafe DeviceSystem DeviceExamples.

Section Theorems.
Context `{Crypto} `{!CryptoLaws} {R : Type} `{RngCore R} `{!RngLaws R} `{PrefixFillers R} `{!FillerLaws R} `{ImitationEnv} `{!ImitationLaws}.
Context `{NetworkTable} `{!NetworkTableLaws}.
Implicit Types (d : Device R) (p : Peer R) (t : Tunn R) (w : Loop (R := R)).

(** ** Peers off the tables *)

(** The peer at [l] is in no table and has no connected socket. *)
Record detached (l : nat) d : Prop := {
  de_old : (l < next_location d)%nat;
  de_table : l ∉ locations d;
  de_socket : exists p, store d !! l = Some p /\ ep_conn (peer_endpoint p) = None;
}.

(** An operation that leaves the peer at [l] where and as it is. *)
Definition passes_by (l : nat) d d' : Prop :=
  store d' !! l = store d !! l /\ (next_location d <= next_location d')%nat /\
  forall key, peers d' !! key = Some l -> peers d !! key = Some l.
#[local] Instance passes_by_preorder l : PreOrder (passes_by l).
Proof. split; [by intros d; split_and!|]. intros a b c (? & ? & ?) (? & ? & ?). split_and!; [congruence|lia|auto]. Qed.

Lemma detached_passed l d d' : passes_by l d d' -> detached l d -> detached l d'.
Proof.
  intros (Hs & Hn & Hp) [Ho Ht Hc]. split; [lia| |by rewrite Hs]. intros [key E]%elem_of_locations. apply Ht, elem_of_locations. exists key. auto.
Qed.

Lemma passes_with_peer {A} l l' (f : Peer R -> outcome (A * Peer R)) d a d' : l' <> l -> with_peer l' f d = Ret (a, d') -> passes_by l d d'.
Proof.
  intros Hne. unfold with_peer. destruct (store d !! l') as [p|]; [|done]. destruct (f p) as [[a' p']|]; [|done]. intros [= <- <-].
  split; [by apply lookup_insert_ne|done].
Qed.
Lemma passes_for_peers l ls f d d' : l ∉ ls -> for_peers ls f d = Ret d' -> passes_by l d d'.
Proof.
  revert d. induction ls as [|l' ls IH]; intros d Hni; cbn [for_peers]; [intros [= <-]; reflexivity|]. apply not_elem_of_cons in Hni as [Hne Hni].
  destruct (with_peer l' _ d) as [[u d1]|] eqn:E; [|done]. intros Hd. etrans; [by eapply (passes_with_peer l l')|by apply IH].
Qed.
Lemma passes_frame l d d' : store d' = store d -> next_location d' = next_location d -> peers d' = peers d -> passes_by l d d'.
Proof. intros Hs Hn Hp. unfold passes_by. by rewrite Hs, Hn, Hp. Qed.

Lemma passes_update l now seed key remove replace_ips endpoint ips keepalive psk d r d' : detached l d ->
  update_peer now seed key remove replace_ips endpoint ips keepalive psk d = Ret (r, d') -> passes_by l d d'.
Proof.
  intros [Ho Ht _]. assert (forall l', peers d !! key = Some l' -> l' <> l) as Hne by (intros l' E ->; apply Ht, elem_of_locations; by exists key).
  unfold update_peer, remove_peer. destruct remove.
  { destruct (peers d !! key) as [l'|] eqn:E; [|intros [= <- <-]; reflexivity]. destruct (store d !! l') as [p|]; [|done]. intros [= <- <-].
    split; [cbn; apply lookup_insert_ne; auto|]. split; [done|]. intros key' E'. cbn in E'. by apply lookup_delete_Some in E' as [_ ?]. }
  destruct (peers d !! key) as [l'|] eqn:E.
  { unfold merge_peer. destruct (with_peer l' _ d) as [[u d1]|] eqn:Ew; [|done]. pose proof (passes_with_peer l l' _ d u d1 (Hne _ eq_refl) Ew) as Hp.
    cbn [obind]. destruct (_ || _); [|by intros [= <- <-]]. destruct (insert_all _ _); [|done]. intros [= <- <-]. etrans; [exact Hp|by apply passes_frame]. }
  unfold device_next_index. destruct (lfsr_next _) as [[i lf]|]; [|done]. cbn [obind].
  destruct (require_key_pair _) as [[private public]|e]; [|intros [= <- <-]; by apply passes_frame].
  destruct (tunn_new _ _ _ _ _ _ _ _ _ _) as [t|e]; [|intros [= <- <-]; by apply passes_frame].
  destruct (match keepalive with None => _ | Some _ => _ end) as [p|]; [|done]. cbn [obind alloc].
  destruct (insert_all _ _) as [ips'|]; [|done]. intros [= <- <-]. split; [cbn; apply lookup_insert_ne; lia|]. split; [cbn; lia|].
  intros key' E'. cbn in E'. apply lookup_insert_Some in E' as [[_ E']|[_ E']]; [lia|done].
Qed.

Lemma passes_control l fuel e w effs w' : detached l (dev w) -> device_step fuel e w = Ret (effs, w') ->
  match e with EvUpdatePeer _ _ _ _ _ _ _ _ _ | EvSetKey _ _ _ | EvSetObfuscation _ _ | EvClearPeers | EvMtu _ _ => passes_by l (dev w) (dev w') | _ => True end.
Proof.
  intros Hde Hs. pose proof (de_table _ _ Hde) as Ht. destruct e; try done; unfold device_step, quiet_step in Hs.
  - destruct (update_peer _ _ _ _ _ _ _ _ _ _) as [[r d']|] eqn:E; [|done]. injection Hs as <- <-. by eapply passes_update.
  - destruct (set_key _ _ _ _) as [d'|] eqn:E; [|done]. injection Hs as <- <-. unfold set_key in E. cbn [dev set_dev].
    destruct (bool_decide _); [injection E as <-; reflexivity|]. destruct (for_peers _ _ _) as [d1|] eqn:Ef; [|done]. injection E as <-.
    etrans; [by eapply passes_for_peers|by apply passes_frame].
  - destruct (device_set_obfuscation _ _ _) as [[b d']|] eqn:E; [|done]. injection Hs as <- <-. unfold device_set_obfuscation in E. cbn [dev set_dev].
    destruct (_ && _); [injection E as <- <-; reflexivity|]. destruct (for_peers _ _ _) as [d1|] eqn:Ef; [|done]. injection E as <- <-.
    by eapply passes_for_peers in Ef.
  - destruct (clear_peers _) as [d'|] eqn:E; [|done]. injection Hs as <- <-. unfold clear_peers in E. cbn [dev set_dev].
    destruct (for_peers _ _ _) as [d1|] eqn:Ef; [|done]. injection E as <-. eapply passes_for_peers in Ef; [|done].
    destruct Ef as (H1' & H2' & _). split; [done|]. split; [done|]. intros key E. cbn in E. by apply lookup_empty_Some in E.
  - destruct (refresh_mtu _ _ _) as [d'|] eqn:E; [|done]. injection Hs as <- <-. unfold refresh_mtu in E. cbn [dev set_dev].
    destruct (_ || _); [injection E as <-; by apply passes_frame|]. by eapply passes_for_peers in E.
Qed.

Lemma passes_data l d d' : data_step d d' -> store d' !! l = store d !! l -> passes_by l d d'.
Proof. intros Hs E. split; [done|]. destruct Hs as [(st & lim & h & r & ->) _ _]. done. Qed.

(** A handler whose peer has no connected socket does nothing. *)
Lemma detached_stale fuel calls l socket endpoint lifetime datagram d : detached l d ->
  connected fuel calls l socket endpoint lifetime datagram d = Ret (Some [], false, d).
Proof. intros [_ _ (p & Ep & Hc)]. unfold connected, is_current_connection. by rewrite Ep, Hc. Qed.

Lemma passes_listen l now k w fuel calls millis os_rng up v6 from datagram effs w' :
  detached l (dev w) -> loop_ok now k w -> event_ok now k (EvListen calls millis os_rng up v6 from datagram) ->
  device_step fuel (EvListen calls millis os_rng up v6 from datagram) w = Ret (Some effs, w') -> passes_by l (dev w) (dev w').
Proof.
  intros [_ Ht _] [(k0 & _ & Hd) Hh _] (Hb & Hip & Hc) Hs. cbn [device_step] in Hs.
  destruct (listen_ok k0 (dev w) now calls millis os_rng up v6 from datagram (worker w)) as [n Hn]; [done|done|done|done|lia|lia|].
  destruct (listen fuel calls millis os_rng up v6 from datagram (dev w) (worker w)) as [[[out d] th]|] eqn:E; [|done]. injection Hs as -> <-.
  specialize (Hn (Nat.max n fuel) ltac:(lia)). rewrite (listen_stable _ _ _ _ _ _ _ _ _ fuel (Nat.max n fuel) _ ltac:(lia) E) in Hn by by eexists.
  destruct Hn as (effs' & _ & Hstep & _ & Hl). cbn [dev]. apply passes_data; [done|]. destruct Hl as [(-> & _)|(lim & l' & a & t & _ & Ha & _ & _ & Hoth & _)]; [done|].
  apply Hoth. intros ->. destruct (accepted_names k0 (calls O) (dev w) datagram lim _ Hd Ha) as (key & p & Ek & _).
  apply Ht, elem_of_locations. by exists key.
Qed.

Lemma passes_connected l now k w fuel calls handler datagram effs w' :
  detached l (dev w) -> loop_ok now k w -> event_ok (R := R) now k (EvConnected calls handler datagram) ->
  device_step fuel (EvConnected calls handler datagram) w = Ret (Some effs, w') -> passes_by l (dev w) (dev w').
Proof.
  intros Hde [(k0 & _ & Hd) _ Hc] Hb Hs. cbn [device_step event_ok] in *. destruct (connections w !! handler) as [c|] eqn:Ec; [|injection Hs as <- <-; reflexivity].
  destruct (connected _ _ _ _ _ _ _ _) as [[[out go] d]|] eqn:E; [|done]. injection Hs as -> <-. cbn [dev set_dev].
  destruct (decide (conn_peer c = l)) as [<-|Hne]; [rewrite detached_stale in E by done; injection E as _ _ <-; reflexivity|].
  destruct (Forall_lookup_1 _ _ _ _ Hc Ec) as [p Ep].
  destruct (connected_ok k0 (dev w) (conn_peer c) p calls (conn_socket c) (conn_endpoint c) (conn_token c) datagram Hd Ep Hb) as [n Hn].
  specialize (Hn (Nat.max n fuel) ltac:(lia)). rewrite (connected_stable _ _ _ _ _ _ _ fuel (Nat.max n fuel) _ ltac:(lia) E) in Hn by by eexists.
  destruct Hn as (effs' & _ & Hstep & [_ Hoth] & _). apply passes_data; [done|]. apply Hoth. auto.
Qed.

Lemma passes_step l now k w fuel e effs w' : detached l (dev w) -> loop_ok now k w -> event_ok now k e ->
  device_step fuel e w = Ret (Some effs, w') -> passes_by l (dev w) (dev w').
Proof.
  intros Hde Hw He Hs. pose proof (passes_control l fuel e w _ w' Hde Hs) as Hcontrol. pose proof Hw as [(k0 & _ & Hd) _ _].
  destruct e as [| | | | |calls millis os_rng up v6 from datagram|calls handler datagram|c udp6 src|calls udp6|t]; try done.
  - by eapply passes_listen.
  - by eapply passes_connected.
  - unfold device_step, noisy_step in Hs. pose proof (tun_packet_ok k0 (dev w) c udp6 src Hd He) as Ht.
    destruct (tun_packet _ _ _ _) as [[out d]|]; [|done]. injection Hs as <- <-. destruct Ht as (Hstep & _ & Hoff & _).
    apply passes_data; [done|apply Hoff, Hde].
  - unfold device_step, noisy_step in Hs. pose proof (tick_ok k0 (dev w) calls udp6 Hd He) as Ht.
    destruct (tick _ _ _) as [[out d]|]; [|done]. injection Hs as <- <-. destruct Ht as (Hstep & _ & Hoff).
    apply passes_data; [done|apply Hoff, Hde].
  - cbn in Hs. injection Hs as <- <-. apply passes_data; [apply reset_limiter_step|done].
Qed.

Lemma passes_runs l now k w now' k' w' : loop_ok now k w -> detached l (dev w) -> runs now k w now' k' w' -> passes_by l (dev w) (dev w').
Proof.
  intros Hw Hde. induction 1 as [|now' k' w' e fuel effs w'' Hr IH He Hs]; [reflexivity|].
  etrans; [exact IH|]. eapply passes_step; [by eapply detached_passed|by eapply runs_ok|done|done].
Qed.

Lemma removed_detached k key l d d' : device_ok k d -> peers d !! key = Some l -> remove_peer key d = Ret d' -> detached l d'.
Proof.
  intros Hd E. unfold remove_peer. rewrite E. destruct (do_peers _ _ Hd _ _ E) as (p & Ep & _). rewrite Ep. intros [= <-]. split.
  - apply (do_fresh _ _ Hd _ _ Ep).
  - intros [key' E']%elem_of_locations. cbn in E'. apply lookup_delete_Some in E' as [Hne E']. by destruct Hne; eapply peer_key_unique.
  - exists (shutdown_endpoint p). split; [cbn; apply lookup_insert_eq|done].
Qed.

(** ** The theorems *)

(** C5. From a new device on, whatever the order of configuration changes,
    datagrams, packets, timers and MTU changes, the device is well formed: its
    three tables agree, every peer is framed and keyed as the device is, and
    every handler's peer exists. And whatever comes next is handled: given
    enough fuel the step returns, without a panic, and more fuel changes
    nothing. *)
Theorem device_runs draws lfsr mtu c (th : Thread R) now0 now k w :
  lfsr_default draws = Some lfsr -> config_valid c -> 0 <= mtu -> runs now0 0 (device_start lfsr mtu c th) now k w ->
  (exists k', (k' <= k)%nat /\ device_ok k' (dev w)) /\
  Forall (fun x => is_Some (store (dev w) !! conn_peer x)) (connections w) /\
  forall e, event_ok now k e -> exists n effs w', forall fuel, (n <= fuel)%nat -> device_step fuel e w = Ret (Some effs, w').
Proof.
  intros [Hl _]%lfsr_default_at Hc Hm Hr. pose proof (runs_ok _ _ _ _ _ _ (device_new_ok lfsr mtu c th now0 Hl Hc Hm) Hr) as Hw.
  split; [apply Hw|]. split; [apply Hw|]. intros e He. destruct (steps_ok now k w e Hw He) as [n Hn]. specialize (Hn n (Nat.le_refl _)) as Hn0.
  destruct (device_step n e w) as [[out w']|] eqn:E; [|done]. destruct Hn0 as [[effs Ho] _]. cbn in Ho. subst out. exists n, effs, w'.
  intros fuel Hf. apply (step_stable e w n fuel (Some effs, w') Hf E). by eexists.
Qed.

(** C23. An update of a peer does what it says to the routes and to nothing
    else: a removed peer is in no table and its prefixes route as if it had
    never been there; a new or updated peer is under its key, and an address
    goes to the owner of its longest prefix among those kept and those given.
    The one error is a missing key, and then the tables are as they were. *)
Theorem peer_update_exact k d now seed key remove replace_ips endpoint new keepalive psk :
  device_ok k d -> Z.of_nat k + 1 < period -> Forall allowed_ip_ok new ->
  exists r d' k', update_peer now seed key remove replace_ips endpoint new keepalive psk d = Ret (r, d') /\
    device_ok k' d' /\ peer_updated key remove replace_ips new d r d'.
Proof.
  intros Hd Hk Hn. pose proof (update_peer_ok k d now seed key remove replace_ips endpoint new keepalive psk Hd Hk Hn) as Hu.
  destruct (update_peer _ _ _ _ _ _ _ _ _ d) as [[r d']|]; [|done]. destruct Hu as [(k' & _ & Hd') Hu]. by exists r, d', k'.
Qed.

(** A change of the device's key reaches every peer: all of them hold the
    new pair and no session is left of the old one. A change of its framing
    reaches every peer and leaves the sessions in place. Setting what is set
    changes nothing. *)
Theorem device_reconfigured k d now seed private obf c :
  device_ok k d -> obf_ok obf -> config_ok c -> check_header_protection_nonce c = Ok tt ->
  (exists d', set_key now seed private d = Ret d' /\ device_ok k d' /\ snd <$> key_pair d' = Some (x25519_public private) /\
    if bool_decide (snd <$> key_pair d = Some (x25519_public private)) then d' = d
    else each (locations d) (rekeyed private) (store d) (store d')) /\
  (exists changed d', device_set_obfuscation obf c d = Ret (changed, d') /\ device_ok k d' /\
    cfg_obf (config d') = obf /\ cfg_amnezia (config d') = c /\
    if changed : bool then each (locations d) (reframed obf c) (store d) (store d') else d' = d).
Proof.
  intros Hd Ho Hc Hn. pose proof (set_key_ok k d now seed private Hd) as Hs. pose proof (device_set_obfuscation_ok k d obf c Hd Ho Hc Hn) as Hf.
  destruct (set_key _ _ _ _) as [d1|]; [|done]. destruct (device_set_obfuscation _ _ _) as [[b d2]|]; [|done].
  destruct Hs as (H1' & _ & _ & H2' & H3' & H4'). destruct Hf as (H5' & _ & _ & H6' & H7' & H8'). split.
  - exists d1. split; [done|]. split; [done|]. split; [done|]. case_bool_decide; auto.
  - exists b, d2. by split_and!.
Qed.

(** C6. A datagram on a listening socket. If no reading of it authenticates,
    no peer changes and what is sent, if anything, is one datagram back to its
    source: an imitated protocol's reply or a cookie no longer than it. If a
    reading authenticates, only the peer it authenticates for changes; a
    handshake is answered; the inner packet of a transport packet is delivered
    if the peer owns its source address and only then; the peer's endpoint moves, if at all, to the
    datagram's source; and the handler ends. *)
Theorem listener_datagram k d since calls millis os_rng up v6 from datagram (th : Thread R) :
  device_ok k d -> hints_ok since (imitation_hints d) -> (forall i, buffered (calls i)) -> ip_ok (fst from) ->
  since <= call_now (calls O) -> call_now (calls O) <= call_now (calls 1%nat) ->
  exists n, forall fuel, (n <= fuel)%nat ->
    exists effs d' th', listen fuel calls millis os_rng up v6 from datagram d th = Ret (Some effs, d', th') /\
      device_ok k d' /\ listened (calls O) v6 from datagram d d' effs.
Proof.
  intros Hd Hh Hb Hip Ht Hm. destruct (listen_ok k d since calls millis os_rng up v6 from datagram th Hd Hb Hip Hh Ht Hm) as [n Hn].
  exists n. intros fuel Hf. specialize (Hn fuel Hf). destruct (listen _ _ _ _ _ _ _ _ _ _) as [[[out d'] th']|]; [|done].
  destruct Hn as (effs & -> & Hs & _ & Hl). exists effs, d', th'. split; [done|]. split; [by eapply data_step_ok|done].
Qed.

(** The socket a handler was registered for is the one the peer uses now. *)
Definition serves (lifetime : nat) (endpoint : SocketAddr) p : Prop :=
  is_Some (ep_conn (peer_endpoint p)) /\ ep_addr (peer_endpoint p) = Some endpoint /\ conn_lifetime p = Some lifetime.
Lemma is_current_spec lifetime endpoint p : is_current_connection lifetime endpoint p = true <-> serves lifetime endpoint p.
Proof.
  unfold is_current_connection, serves. rewrite !andb_true_iff, !bool_decide_eq_true. destruct (ep_conn (peer_endpoint p)) as [s|].
  - split; [intros [[_ ?] ?]; split_and!; [by eexists|done|done]|by intros (_ & ? & ?)].
  - split; [by intros [[? _] _]|by intros ([? ?] & _)].
Qed.

(** C24. A datagram on a peer's connected socket. A handler the peer has moved
    on from does nothing. Otherwise only that peer changes, its endpoint stays,
    what is sent leaves by that socket, and an inner packet is delivered if a
    reading of the datagram authenticated as it and the peer owns its source
    address, and only then. *)
Theorem connected_datagram k d l p calls socket endpoint lifetime datagram :
  device_ok k d -> store d !! l = Some p -> (forall i, buffered (calls i)) ->
  exists n, forall fuel, (n <= fuel)%nat ->
    exists effs go d', connected fuel calls l socket endpoint lifetime datagram d = Ret (Some effs, go, d') /\
      device_ok k d' /\ only_at l d d' /\ (go = true <-> serves lifetime endpoint p) /\ (go = false -> d' = d /\ effs = []) /\
      (exists t', store d' !! l = Some (set_tunnel t' p)) /\
      Forall (connection_effect (calls O) l socket datagram (share_limiter (device_limiter d) (tunnel p)) d) effs /\
      (go = true -> exists r rest,
        connection_result (calls O) datagram (share_limiter (device_limiter d) (tunnel p)) r /\ effs = written l (SendConnected socket) r d ++ rest).
Proof.
  intros Hd E Hb. destruct (connected_ok k d l p calls socket endpoint lifetime datagram Hd E Hb) as [n Hn].
  exists n. intros fuel Hf. specialize (Hn fuel Hf). destruct (connected _ _ _ _ _ _ _ _) as [[[out go] d']|]; [|done].
  destruct Hn as (effs & -> & Hs & Ho & -> & Hrest). eexists effs, _, d'. split; [done|]. split; [by eapply data_step_ok|]. split; [done|].
  split; [apply is_current_spec|done].
Qed.

(** C21. A packet from the interface goes to the peer that owns the longest
    prefix of its destination: it is what that peer's tunnel encapsulates, it
    leaves by the peer's connected socket or to its endpoint, and no other peer
    changes. Without such a peer, or without a destination, nothing happens. *)
Theorem tunnel_packet_routed k d c udp6 src : device_ok k d -> buffered c ->
  exists effs d', tun_packet c udp6 src d = Ret (effs, d') /\ device_ok k d' /\ routed c udp6 src d d' effs.
Proof.
  intros Hd Hb. pose proof (tun_packet_ok k d c udp6 src Hd Hb) as Ht. destruct (tun_packet _ _ _ _) as [[effs d']|]; [|done].
  destruct Ht as (Hs & _ & Hoff & Hr). exists effs, d'. split; [done|]. by split; [eapply data_step_ok|].
Qed.

(** An accepted packet and the path it came by. The peer's endpoint follows
    a packet that was committed and is not a cookie reply; a commit that fails
    leaves the endpoint, and puts back the window of the path it came from. *)
Theorem commit_follows_path c a from datagram hint p :
  tunn_ok (tunnel p) -> buffered c -> committable (len (call_dst c)) UNBOUNDED (tunnel p) a ->
  exists r p', commit_anonymous c a from datagram hint p = Ret (r, p') /\ peer_kept p p' /\
    peer_endpoint p' = (if moves_endpoint a && negb (is_terr r) then roamed from p else peer_endpoint p) /\
    (is_terr r = true -> moves_endpoint a = true -> ep_addr (peer_endpoint p) <> Some from -> udp_window (tunnel p') = udp_window (tunnel p)).
Proof.
  intros Hok Hb Ha. pose proof (commit_anonymous_ok c a from datagram hint p Hok Hb Ha) as Hc.
  destruct (commit_anonymous _ _ _ _ _ _) as [[r p']|]; [|done]. destruct Hc as [? ? ? ? ?]. by exists r, p'.
Qed.

Definition removes (key : bytes) (e : DeviceEvent (R := R)) : Prop :=
  match e with EvUpdatePeer _ _ key' true _ _ _ _ _ => key' = key | _ => False end.

(** C22. A removed peer stays silent. Whatever happens after the removal, the
    peer stays as it was left, and a datagram on a socket that was its own is
    dropped: nothing is sent or delivered and nothing changes. *)
Theorem removed_peer_silent draws lfsr mtu c (th : Thread R) now0 now k w key l fuel e effs w1 now' k' w' h x :
  lfsr_default draws = Some lfsr -> config_valid c -> 0 <= mtu -> runs now0 0 (device_start lfsr mtu c th) now k w ->
  peers (dev w) !! key = Some l -> removes key e -> event_ok now k e -> device_step fuel e w = Ret (Some effs, w1) ->
  runs (event_clock now e) (event_updates e k) w1 now' k' w' -> connections w' !! h = Some x -> conn_peer x = l ->
  store (dev w') !! l = store (dev w1) !! l /\
  forall fuel calls datagram, device_step fuel (EvConnected calls h datagram) w' = Ret (Some [], w').
Proof.
  intros [Hl _]%lfsr_default_at Hc Hm Hr Hk Hrem He Hs Hr' Hx Hp. pose proof (runs_ok _ _ _ _ _ _ (device_new_ok lfsr mtu c th now0 Hl Hc Hm) Hr) as Hw.
  pose proof (device_step_ok _ _ _ _ _ _ _ Hw He Hs) as Hw1. destruct (lo_device _ _ _ Hw) as (k0 & _ & Hd).
  assert (detached l (dev w1)) as Hde.
  { destruct e as [? ? key' [] | | | | | | | | |]; try done. cbn in Hrem. subst key'.
    unfold device_step, quiet_step, update_peer in Hs. destruct (remove_peer key (dev w)) as [d1|] eqn:E; [|done]. injection Hs as <- <-.
    by eapply removed_detached. }
  pose proof (passes_runs l _ _ _ _ _ _ Hw1 Hde Hr') as Hpass. split; [apply Hpass|]. intros fuel' calls datagram. cbn [device_step]. rewrite Hx, Hp.
  rewrite detached_stale by by eapply detached_passed. cbn [obind]. by destruct w'.
Qed.
End Theorems.

(** ** Witnesses *)

Import Toy CounterRng ProtocolFillers SampleEnv ListTable.

Lemma device_runs_witness :
  runs 0 0 ex_loop 51000000 1 ex_loop_heard /\ connections ex_loop_heard <> [] /\
  exists n effs w', forall fuel, (n <= fuel)%nat -> device_step fuel ex_remove_peer ex_loop_heard = Ret (Some effs, w').
Proof.
  split; [apply ex_runs_heard|]. split; [vm_compute; congruence|].
  apply (device_runs ex_draws ex_lfsr 1420 ex_device_config ex_thread 0 51000000 1 ex_loop_heard); [reflexivity|apply ex_device_config_ok|lia|apply ex_runs_heard|].
  apply ex_remove_peer_ok.
Defined.

Lemma peer_update_exact_witness : exists r d' k',
  update_peer 0 (ex_seed 7) ex_peer_key true false None [] None None (dev ex_loop_heard) = Ret (r, d') /\ device_ok k' d' /\
  peer_updated ex_peer_key true false [] (dev ex_loop_heard) r d'.
Proof.
  destruct (ex_device_ok _ _ _ ex_runs_heard) as (k & Hk & Hd).
  apply (peer_update_exact k); [exact Hd|unfold period; lia|constructor].
Defined.

Lemma device_reconfigured_witness :
  exists changed d', device_set_obfuscation obf_default ex_config (dev ex_loop_heard) = Ret (changed, d') /\ cfg_amnezia (config d') = ex_config.
Proof.
  destruct (ex_device_ok _ _ _ ex_runs_heard) as (k & _ & Hd).
  destruct (device_reconfigured k (dev ex_loop_heard) 0 (seed_limiter (ex_seed 7)) (ex_private 8) obf_default ex_config Hd obf_default_ok ex_config_ok eq_refl)
    as [_ (b & d' & E & _ & _ & Hc & _)].
  exists b, d'. split; [exact E|exact Hc].
Defined.

Lemma listener_datagram_witness :
  exists n, forall fuel, (n <= fuel)%nat ->
    exists effs d' th', listen fuel (ex_calls 50) 50 3 ex_upgrade false ex_from ex_initiation_datagram (dev ex_loop_peered) ex_thread = Ret (Some effs, d', th') /\
      listened (ex_calls 50 0) false ex_from ex_initiation_datagram (dev ex_loop_peered) d' effs.
Proof.
  destruct (ex_runs_ok _ _ _ ex_runs_peered) as [(k & _ & Hd) Hh _].
  destruct (listener_datagram k (dev ex_loop_peered) 0 (ex_calls 50) 50 3 ex_upgrade false ex_from ex_initiation_datagram ex_thread Hd Hh) as [n Hn];
    [intros i; apply ex_buffered|apply ex_from_ok|cbn; lia|cbn; lia|].
  exists n. intros fuel Hf. destruct (Hn fuel Hf) as (effs & d' & th' & E & _ & Hl). exists effs, d', th'. split; [exact E|exact Hl].
Defined.

Definition ex_peer : Peer Z := from_option id (peer_new ex_bob_new 0 None None) (store (dev ex_loop_heard) !! 0%nat).

Lemma connected_datagram_witness : is_current_connection 9 ex_from ex_peer = true /\
  exists n, forall fuel, (n <= fuel)%nat ->
    exists effs go d', connected fuel (ex_calls 60) 0 4 ex_from 9 ex_confirmation (dev ex_loop_heard) = Ret (Some effs, go, d').
Proof.
  split; [vm_compute; reflexivity|]. destruct (ex_device_ok _ _ _ ex_runs_heard) as (k & _ & Hd).
  destruct (connected_datagram k (dev ex_loop_heard) 0 ex_peer (ex_calls 60) 4 ex_from 9 ex_confirmation Hd) as [n Hn];
    [vm_compute; reflexivity|intros i; apply ex_buffered|].
  exists n. intros fuel Hf. destruct (Hn fuel Hf) as (effs & go & d' & E & _). exists effs, go, d'. exact E.
Defined.

(** An IPv4 packet to an address of the peer's. *)
Definition ex_outbound : bytes := to_le 1 69 ++ zeros 1 ++ to_be 2 24 ++ zeros 12 ++ to_be 4 167837953 ++ zeros 4.

Lemma tunnel_packet_routed_witness :
  dst_address ex_outbound = Some ex_ip /\ exists effs d', tun_packet (ex_calls 60 0) false ex_outbound (dev ex_loop_heard) = Ret (effs, d') /\
    routed (ex_calls 60 0) false ex_outbound (dev ex_loop_heard) d' effs.
Proof.
  split; [vm_compute; reflexivity|]. destruct (ex_device_ok _ _ _ ex_runs_heard) as (k & _ & Hd).
  destruct (tunnel_packet_routed k (dev ex_loop_heard) (ex_calls 60 0) false ex_outbound Hd (ex_buffered 60 0)) as (effs & d' & E & _ & Hr).
  exists effs, d'. split; [exact E|exact Hr].
Defined.

Definition ex_elsewhere : SocketAddr := (fst ex_from, 40001).

Lemma commit_follows_path_witness : exists r p',
  commit_anonymous (ex_calls 60 0) (AuthData 1 []) ex_elsewhere [] None ex_peer = Ret (r, p') /\
  ep_addr (peer_endpoint ex_peer) = Some ex_from /\ peer_endpoint p' = if is_terr r then peer_endpoint ex_peer else roamed ex_elsewhere ex_peer.
Proof.
  destruct (commit_follows_path (ex_calls 60 0) (AuthData 1 []) ex_elsewhere [] None ex_peer) as (r & p' & E & _ & Hep & _).
  - destruct (ex_device_ok _ _ _ ex_runs_heard) as (k & _ & Hd). apply (do_tunnels _ _ Hd 0%nat). vm_compute. reflexivity.
  - apply ex_buffered.
  - split; [vm_compute; congruence|vm_compute; congruence].
  - exists r, p'. split; [exact E|]. split; [vm_compute; reflexivity|]. destruct (is_terr r); exact Hep.
Defined.

Lemma removed_peer_silent_witness : connections ex_loop_removed <> [] /\ forall fuel calls datagram,
  device_step fuel (EvConnected calls 0 datagram) ex_loop_removed = Ret (Some [], ex_loop_removed).
Proof.
  split; [vm_compute; congruence|].
  destruct (removed_peer_silent ex_draws ex_lfsr 1420 ex_device_config ex_thread 0 51000000 1 ex_loop_heard ex_peer_key 0 8 ex_remove_peer
    (step_out ex_remove_peer ex_loop_heard) ex_loop_removed 51000000 2 ex_loop_removed 0
    {| conn_peer := 0; conn_socket := 4; conn_endpoint := ex_from; conn_token := 9 |}) as [_ Hs].
  - reflexivity.
  - apply ex_device_config_ok.
  - lia.
  - apply ex_runs_heard.
  - vm_compute. reflexivity.
  - reflexivity.
  - apply ex_remove_peer_ok.
  - apply steps_eq. vm_compute. reflexivity.
  - apply runs_start.
  - vm_compute. reflexivity.
  - reflexivity.
  - exact Hs.
Defined.
