(* ===== verification/DevLock.v ===== *)
(** The lock around the device, [device/dev_lock.rs]: a read/write lock whose
    holders can ask for an upgrade, over a mutex with its condition variable
    and a read/write lock of the crate parking_lot.

    A thread is where it is between two operations of these primitives ([Pc]),
    and the lock is stepped one operation of one thread at a time, in any
    order. Of the primitives only what is documented is used: a mutex has one
    owner, the read/write lock has one writer or some readers, a wait releases
    the mutex and ends with a notification. Whether a reader is let in while a
    writer waits is up to the crate: [admits]. *)

From stdpp Require Import gmap sets.

(** ** State *)

Inductive Pc :=
| Idle
(* Lock::read *)
| RLock | RCheck | RParked | RRead | RDone
(* a guard in the caller's hands *)
| Reading
(* try_writeable: raising the intent *)
| WLock | WUnlock | WCheck | WParked | WRelock | WRaised | WReread
(* prep_func, then the write lock and mut_func *)
| WPrep | WUpgrade | WWrite | WMut | WWritten | WReacquire
(* the intent dropped *)
| WLower | WClear | WNotify | WLowered.
#[export] Instance Pc_eq_dec : EqDecision Pc.
Proof. solve_decision. Defined.

Record Lock (T : Type) := {
  mutex : option nat;
  wants_write : bool;
  readers : gset nat;
  writer : option nat;
  pcs : gmap nat Pc;
  value : T;
}.
Arguments mutex {T} l.
Arguments wants_write {T} l.
Arguments readers {T} l.
Arguments writer {T} l.
Arguments pcs {T} l.
Arguments value {T} l.

(** What a thread does next: go on with the lock's code, or one of the moves
    of the code around it -- calls, the guard dropped, a store through the
    mutable reference, the end of a closure by return or by panic. *)
Inductive Event (T : Type) := Run | CallRead | DropGuard | CallWrite | Store (v : T) | Return | Unwind.
Arguments Run {T}.
Arguments CallRead {T}.
Arguments DropGuard {T}.
Arguments CallWrite {T}.
Arguments Store {T} v.
Arguments Return {T}.
Arguments Unwind {T}.

Section Lock.
Context {T : Type} (admits : Lock T -> bool).
Implicit Types (s : Lock T) (p : Pc).

Definition lock_new (v : T) : Lock T :=
  {| mutex := None; wants_write := false; readers := ∅; writer := None; pcs := ∅; value := v |}.

Definition pc s (i : nat) : Pc := default Idle (pcs s !! i).

(** The thread's next place, with what it leaves of the lock. *)
Definition goto (i : nat) p (m : option nat) (flag : bool) (rs : gset nat) (w : option nat) s : Lock T :=
  {| mutex := m; wants_write := flag; readers := rs; writer := w; pcs := <[i := p]> (pcs s); value := value s |}.
Definition stay (i : nat) p s : Lock T := goto i p (mutex s) (wants_write s) (readers s) (writer s) s.

Definition lock_mutex (i : nat) p s : option (Lock T) :=
  match mutex s with None => Some (goto i p (Some i) (wants_write s) (readers s) (writer s) s) | Some _ => None end.
Definition unlock_mutex (i : nat) p s : Lock T := goto i p None (wants_write s) (readers s) (writer s) s.
Definition lock_shared (i : nat) p s : option (Lock T) :=
  match writer s with
  | None => if admits s then Some (goto i p (mutex s) (wants_write s) (readers s ∪ {[i]}) None s) else None
  | Some _ => None
  end.
Definition unlock_shared (i : nat) p s : Lock T := goto i p (mutex s) (wants_write s) (readers s ∖ {[i]}) (writer s) s.
Definition lock_exclusive (i : nat) p s : option (Lock T) :=
  match writer s with
  | None => if bool_decide (readers s = ∅) then Some (goto i p (mutex s) (wants_write s) (readers s) (Some i) s) else None
  | Some _ => None
  end.
Definition unlock_exclusive (i : nat) p s : Lock T := goto i p (mutex s) (wants_write s) (readers s) None s.
Definition set_flag (i : nat) p (flag : bool) s : Lock T := goto i p (mutex s) flag (readers s) (writer s) s.

(** [notify_all]: those that wait go on to take the mutex again. *)
Definition wake p : Pc := match p with RParked => RLock | WParked => WRelock | _ => p end.
Definition notify_all (i : nat) p s : Lock T :=
  {| mutex := mutex s; wants_write := wants_write s; readers := readers s; writer := writer s; pcs := <[i := p]> (wake <$> pcs s); value := value s |}.

Definition lock_step (i : nat) (e : Event T) s : option (Lock T) :=
  match pc s i, e with
  | Idle, CallRead => Some (stay i RLock s)
  | RLock, Run => lock_mutex i RCheck s
  | RCheck, Run => Some (if wants_write s then unlock_mutex i RParked s else stay i RRead s)
  | RRead, Run => lock_shared i RDone s
  | RDone, Run => Some (unlock_mutex i Reading s)
  | Reading, DropGuard => Some (unlock_shared i Idle s)
  | Reading, CallWrite => Some (stay i WLock s)
  | WLock, Run => lock_mutex i WUnlock s
  | WUnlock, Run => Some (unlock_shared i WCheck s)
  | WCheck, Run => Some (if wants_write s then unlock_mutex i WParked s else set_flag i WRaised true s)
  | WRelock, Run => lock_mutex i WCheck s
  | WRaised, Run => Some (unlock_mutex i WReread s)
  | WReread, Run => lock_shared i WPrep s
  | WPrep, Return => Some (stay i WUpgrade s)
  | WPrep, Unwind => Some (stay i WLower s)
  | WUpgrade, Run => Some (unlock_shared i WWrite s)
  | WWrite, Run => lock_exclusive i WMut s
  | WMut, Store v => Some {| mutex := mutex s; wants_write := wants_write s; readers := readers s; writer := writer s; pcs := pcs s; value := v |}
  | WMut, (Return | Unwind) => Some (stay i WWritten s)
  | WWritten, Run => Some (unlock_exclusive i WReacquire s)
  | WReacquire, Run => lock_shared i WLower s
  | WLower, Run => lock_mutex i WClear s
  | WClear, Run => Some (set_flag i WNotify false s)
  | WNotify, Run => Some (notify_all i WLowered s)
  | WLowered, Run => Some (unlock_mutex i Reading s)
  | _, _ => None
  end.

Inductive reaches : Lock T -> Lock T -> Prop :=
| reaches_refl s : reaches s s
| reaches_step s s' i e s'' : reaches s s' -> lock_step i e s' = Some s'' -> reaches s s''.

(** ** What each place holds *)

Definition holds_mutex p : bool := match p with RCheck | RRead | RDone | WUnlock | WCheck | WRaised | WClear | WNotify | WLowered => true | _ => false end.
Definition holds_read p : bool := match p with RDone | Reading | WLock | WUnlock | WPrep | WUpgrade | WLower | WClear | WNotify | WLowered => true | _ => false end.
Definition holds_write p : bool := match p with WMut | WWritten => true | _ => false end.
Definition raised p : bool := match p with WRaised | WReread | WPrep | WUpgrade | WWrite | WMut | WWritten | WReacquire | WLower | WClear => true | _ => false end.
Definition parked p : bool := match p with RParked | WParked => true | _ => false end.
(** In the code around the lock. *)
Definition outside p : bool := match p with Reading | WPrep | WMut => true | _ => false end.

Record lock_ok s : Prop := {
  lo_mutex i : mutex s = Some i <-> holds_mutex (pc s i) = true;
  lo_readers i : i ∈ readers s <-> holds_read (pc s i) = true;
  lo_writer i : writer s = Some i <-> holds_write (pc s i) = true;
  lo_raised i : raised (pc s i) = true -> wants_write s = true;
  lo_raiser : wants_write s = true -> exists i, raised (pc s i) = true;
  lo_one i j : raised (pc s i) = true -> raised (pc s j) = true -> i = j;
  lo_checked i : pc s i = RRead -> wants_write s = false;
  lo_parked i : parked (pc s i) = true -> wants_write s = true \/ exists j, pc s j = WNotify;
  lo_alone i j : holds_write (pc s i) = true -> holds_read (pc s j) = false;
}.

Lemma lock_new_ok v : lock_ok (lock_new v).
Proof. split; intros; cbn in *; try done; split; intros; try done; set_solver. Qed.

Lemma pc_goto i p m f r w s j : pc (goto i p m f r w s) j = if decide (i = j) then p else pc s j.
Proof. unfold pc, goto. cbn. destruct (decide (i = j)) as [->|]; [by rewrite lookup_insert_eq|by rewrite lookup_insert_ne]. Qed.
Lemma pc_notify i p s j : pc (notify_all i p s) j = if decide (i = j) then p else wake (pc s j).
Proof.
  unfold pc, notify_all. cbn. destruct (decide (i = j)) as [->|]; [by rewrite lookup_insert_eq|]. rewrite lookup_insert_ne by done. rewrite lookup_fmap. by destruct (pcs s !! j).
Qed.

(** ** The invariant, kept *)

(** What a move of [i] to [p] may do to each part of the lock. *)
Record move_ok (i : nat) p (m : option nat) (flag : bool) (rs : gset nat) (w : option nat) s : Prop := {
  mv_mutex : (m = mutex s /\ holds_mutex p = holds_mutex (pc s i)) \/ (mutex s = None /\ m = Some i /\ holds_mutex p = true) \/
    (mutex s = Some i /\ m = None /\ holds_mutex p = false);
  mv_readers : (rs = readers s /\ holds_read p = holds_read (pc s i)) \/ (rs = readers s ∪ {[i]} /\ holds_read p = true /\ writer s = None /\ w = None) \/
    (rs = readers s ∖ {[i]} /\ holds_read p = false);
  mv_writer : (w = writer s /\ holds_write p = holds_write (pc s i)) \/ (writer s = None /\ w = Some i /\ holds_write p = true /\ rs = readers s /\ readers s = ∅) \/
    (writer s = Some i /\ w = None /\ holds_write p = false /\ rs = readers s);
  mv_flag : (flag = wants_write s /\ raised p = raised (pc s i)) \/ (wants_write s = false /\ flag = true /\ raised p = true /\ mutex s = Some i) \/
    (raised (pc s i) = true /\ flag = false /\ p = WNotify);
  mv_checked : p = RRead -> wants_write s = false /\ flag = false;
  mv_parked : parked p = true -> wants_write s = true /\ flag = true;
  mv_notify : pc s i <> WNotify;
}.

(** The owner of a resource, after its holder [i] has moved. *)
Lemma owner_moved (o o' : option nat) (h : Pc -> bool) i p s : (forall j, o = Some j <-> h (pc s j) = true) ->
  ((o' = o /\ h p = h (pc s i)) \/ (o = None /\ o' = Some i /\ h p = true) \/ (o = Some i /\ o' = None /\ h p = false)) ->
  forall j, o' = Some j <-> h (if decide (i = j) then p else pc s j) = true.
Proof.
  intros Ho Hm j. pose proof (Ho i) as Hi. pose proof (Ho j) as Hj. clear Ho. destruct Hm as [[-> E]|[(-> & -> & E)|(-> & -> & E)]]; destruct (decide (i = j)) as [<-|Hne].
  - by rewrite E.
  - done.
  - done.
  - split; [congruence|]. intros Hh. by apply Hj in Hh.
  - rewrite E. done.
  - split; [done|]. intros Hh. apply Hj in Hh. congruence.
Qed.

Lemma goto_ok i p m flag rs w s : lock_ok s -> move_ok i p m flag rs w s -> lock_ok (goto i p m flag rs w s).
Proof.
  intros [Hm Hr Hw Hra Hrr Ho Hc Hp Ha] [Mm Mr Mw Mf Mc Mp Mn]. split.
  - intros j. rewrite pc_goto. cbn. by apply owner_moved with (mutex s).
  - intros j. rewrite pc_goto. cbn. pose proof (Hr i) as Hi. pose proof (Hr j) as Hj. clear -Hi Hj Mr.
    destruct (decide (i = j)) as [<-|Hne]; destruct Mr as [(-> & E)|[(-> & E & _)|(-> & E)]]; rewrite ?E, ?elem_of_union, ?elem_of_difference, ?elem_of_singleton; [done|split; [done|by right]|split; [by intros []|done]|done| |].
    + split; [intros [?|?]; [by apply Hj|congruence]|intros Hh; left; by apply Hj].
    + split; [intros [? _]; by apply Hj|intros Hh; split; [by apply Hj|congruence]].
  - intros j. rewrite pc_goto. cbn. apply owner_moved with (writer s); [done|]. clear -Mw. destruct Mw as [?|[(? & ? & ? & _)|(? & ? & ? & _)]]; auto.
  - intros j. rewrite pc_goto. cbn. destruct (decide (i = j)) as [<-|Hne].
    + intros Hj. destruct Mf as [[-> E]|[(_ & -> & _)|(_ & _ & ->)]]; [apply (Hra i); congruence|done|done].
    + intros Hj. destruct Mf as [[-> _]|[(_ & -> & _)|(Hi & _)]]; [by apply (Hra j)|done|]. by destruct Hne; apply Ho.
  - cbn. intros ->. destruct Mf as [[E1 E2]|[(_ & _ & E & _)|(_ & ? & _)]]; [|exists i; rewrite pc_goto; by rewrite decide_True|done].
    destruct (Hrr (eq_sym E1)) as [k Hk]. exists k. rewrite pc_goto. destruct (decide (i = k)) as [<-|]; [by rewrite E2|done].
  - intros j k. rewrite !pc_goto. destruct Mf as [[E1 E2]|[(E1 & _)|(Hi & _ & ->)]]; destruct (decide (i = j)) as [<-|], (decide (i = k)) as [<-|]; try done; try (rewrite E2); try apply Ho.
    + intros _ Hk. apply Hra in Hk. congruence.
    + intros Hj _. apply Hra in Hj. congruence.
  - intros j. rewrite pc_goto. cbn. destruct (decide (i = j)) as [<-|Hne]; [apply Mc|]. intros Hj. pose proof (Hc j Hj) as Hf.
    destruct Mf as [[-> _]|[(_ & _ & _ & Hmi)|(_ & -> & _)]]; [done| |done]. assert (mutex s = Some j) as Hmj by (apply Hm; by rewrite Hj). congruence.
  - intros j. rewrite pc_goto. cbn. destruct (decide (i = j)) as [<-|Hne]; [intros Hj; left; by apply Mp|]. intros Hj. destruct (Hp j Hj) as [Hf|[k Hk]].
    + destruct Mf as [[-> _]|[(_ & -> & _)|(_ & _ & ->)]]; [by left|by left|]. right. exists i. rewrite pc_goto. by rewrite decide_True.
    + right. exists k. rewrite pc_goto. rewrite decide_False; [done|]. intros <-. done.
  - intros j k. rewrite !pc_goto. pose proof (Hr k) as Hrk. pose proof (Hw j) as Hwj. pose proof (Hw i) as Hwi. pose proof (Hr i) as Hri. intros Hj.
    destruct (decide (i = k)) as [<-|Hk].
    + destruct (decide (i = j)) as [<-|Hij]; [by destruct p|]. apply Hwj in Hj as Hwr. destruct Mr as [(_ & ->)|[(_ & _ & Hn & _)|(_ & ->)]]; [by apply (Ha j)|congruence|done].
    + destruct (decide (i = j)) as [<-|Hij]; [|by apply (Ha j)]. destruct Mw as [[_ E]|[(_ & _ & _ & _ & Hemp)|(_ & _ & E & _)]]; [apply (Ha i); congruence| |congruence].
      destruct (holds_read (pc s k)); [|done]. rewrite Hemp in Hrk. exfalso. apply (not_elem_of_empty (C := gset nat) k). by apply Hrk.
Qed.

Lemma notify_ok i s : lock_ok s -> pc s i = WNotify -> lock_ok (notify_all i WLowered s).
Proof.
  intros [Hm Hr Hw Hra Hrr Ho Hc Hp Ha] Hi.
  assert (forall (h : Pc -> bool), h WNotify = h WLowered -> (forall p, h (wake p) = h p) -> forall j, h (pc (notify_all i WLowered s) j) = h (pc s j)) as Hsame.
  { intros h E Hwake j. rewrite pc_notify. destruct (decide (i = j)) as [<-|]; [by rewrite Hi, E|apply Hwake]. }
  split; [intros j; rewrite (Hsame holds_mutex); [apply Hm|done|by intros []]|intros j; rewrite (Hsame holds_read); [apply Hr|done|by intros []]
    |intros j; rewrite (Hsame holds_write); [apply Hw|done|by intros []]|intros j; rewrite (Hsame raised); [apply Hra|done|by intros []]| | | | |].
  - intros [k Hk]%Hrr. exists k. rewrite (Hsame raised); [done|done|by intros []].
  - intros j k. rewrite !(Hsame raised); [apply Ho|done|by intros []|done|by intros []].
  - intros j. rewrite pc_notify. destruct (decide (i = j)); [done|]. intros Hj. apply (Hc j). by destruct (pc s j).
  - intros j. rewrite pc_notify. destruct (decide (i = j)); [done|]. by destruct (pc s j).
  - intros j k. rewrite (Hsame holds_write), (Hsame holds_read); [apply Ha|done|by intros []|done|by intros []].
Qed.

Ltac moved := cbn; first [by intros|by left; split_and!|by right; left; split_and!|by right; right; split_and!].

Lemma lock_step_ok i e s s' : lock_ok s -> lock_step i e s = Some s' -> lock_ok s'.
Proof.
  intros Hs. pose proof (lo_mutex _ Hs i) as Hm. pose proof (lo_writer _ Hs i) as Hw. unfold lock_step.
  destruct (pc s i) eqn:Ei; destruct e; try done; unfold lock_mutex, lock_shared, lock_exclusive.
  all: try (assert (mutex s = Some i) as Hmi by by apply Hm); try (assert (writer s = Some i) as Hwi by by apply Hw); clear Hm Hw.
  all: repeat match goal with |- context [match ?x with _ => _ end] => destruct x eqn:? end; try done; intros [= <-]; try (by apply notify_ok).
  all: try match goal with Hb : bool_decide _ = true |- _ => apply bool_decide_eq_true in Hb end.
  all: try (apply goto_ok; [done|]; split; rewrite ?Ei; moved).
  destruct Hs. by split.
Qed.

Lemma reaches_ok v s : reaches (lock_new v) s -> lock_ok s.
Proof. intros Hr. remember (lock_new v) as s0. induction Hr as [s|s s' i e s'' Hr IH Hst]; [subst; apply lock_new_ok|]. eapply lock_step_ok; [by apply IH|exact Hst]. Qed.

(** ** Exclusion *)

(** C14. The device's lock keeps readers and the writer apart. However the
    operations of any number of threads interleave, and whether closures
    return or panic: while a thread runs [mut_func] it is the only one to hold
    the value, for reading or writing, and the only one with a write intent;
    and while any thread holds a guard, or runs [prep_func], no step of any
    thread changes the value. *)
Theorem device_lock_exclusive v s i : reaches (lock_new v) s ->
  (pc s i = WMut -> forall j, j <> i -> holds_read (pc s j) = false /\ holds_write (pc s j) = false /\ raised (pc s j) = false) /\
  (holds_read (pc s i) = true -> forall j e s', lock_step j e s = Some s' -> value s' = value s).
Proof.
  intros [Hm Hr Hw Hra Hrr Ho Hc Hp Ha]%reaches_ok. split.
  - intros Hi j Hj. assert (holds_write (pc s i) = true) as Hwi by by rewrite Hi. split_and!; [by apply (Ha i)| |].
    + destruct (holds_write (pc s j)) eqn:E; [|done]. apply Hw in E, Hwi. congruence.
    + destruct (raised (pc s j)) eqn:E; [|done]. destruct Hj. apply Ho; [done|by rewrite Hi].
  - intros Hi j e s'. unfold lock_step. destruct (pc s j) eqn:Ej, e; try done; unfold lock_mutex, lock_shared, lock_exclusive.
    all: repeat match goal with |- context [match ?x with _ => _ end] => destruct x end; try done; intros [= <-]; try done.
    exfalso. assert (holds_read (pc s i) = false) by (apply (Ha j); by rewrite Ej). congruence.
Qed.

(** ** Progress *)

(** The crate lets a reader in when no writer holds the lock or waits for it. *)
Hypothesis admits_reader : forall s, writer s = None -> (forall i, pc s i <> WWrite) -> admits s = true.

Definition at_read p : bool := match p with RRead | WReread | WReacquire => true | _ => false end.

(** A read of the inner lock never waits: the intent keeps it free. *)
Lemma read_free s i : lock_ok s -> at_read (pc s i) = true -> is_Some (lock_step i Run s).
Proof.
  intros [Hm Hr Hw Hra Hrr Ho Hc Hp Ha] Hi.
  assert (forall j, raised (pc s j) = true -> raised (pc s i) = true /\ i = j) as Hself.
  { intros j Hj. destruct (raised (pc s i)) eqn:E; [split; [done|by apply Ho]|]. destruct (pc s i) eqn:Ei; try done. apply Hra in Hj. rewrite (Hc i Ei) in Hj. done. }
  assert (writer s = None) as Hn.
  { destruct (writer s) as [k|]; [|done]. pose proof (proj1 (Hw k) eq_refl) as E. destruct (Hself k) as [_ <-]; [by destruct (pc s k)|]. by destruct (pc s i). }
  assert (admits s = true) as Had.
  { apply admits_reader; [done|]. intros j Hj. destruct (Hself j) as [_ <-]; [by rewrite Hj|]. by rewrite Hj in Hi. }
  unfold lock_step. destruct (pc s i); try done; unfold lock_shared; rewrite Hn, Had; by eexists.
Qed.

Lemma never_stuck s i : lock_ok s -> pc s i <> Idle -> exists j, outside (pc s j) = true \/ is_Some (lock_step j Run s).
Proof.
  intros Hs Hi. pose proof Hs as [Hm Hr Hw Hra Hrr Ho Hc Hp Ha].
  assert (forall j, holds_mutex (pc s j) = true -> is_Some (lock_step j Run s)) as Howner.
  { intros j Hj. destruct (at_read (pc s j)) eqn:E; [by apply read_free|]. unfold lock_step. destruct (pc s j); try done; by eexists. }
  destruct (mutex s) as [k|] eqn:Em; [exists k; right; by apply Howner, Hm|].
  assert (forall j, parked (pc s j) = false -> pc s j <> Idle -> pc s j <> WWrite -> outside (pc s j) = true \/ is_Some (lock_step j Run s)) as Hgo.
  { intros j Hj Hne Hnw. destruct (holds_mutex (pc s j)) eqn:E1; [right; by apply Howner|]. destruct (at_read (pc s j)) eqn:E2; [right; by apply read_free|].
    destruct (outside (pc s j)) eqn:E3; [by left|right]. unfold lock_step, lock_mutex. rewrite Em. destruct (pc s j); try done; by eexists. }
  assert (forall j, pc s j = WWrite -> exists k, outside (pc s k) = true \/ is_Some (lock_step k Run s)) as Hwrite.
  { intros j Hj. destruct (writer s) as [k|] eqn:Ew; [pose proof (proj1 (Hw k) eq_refl) as Ek; exists k; apply Hgo; by destruct (pc s k)|].
    destruct (decide (readers s = ∅)) as [He|Hne]; [exists j; right; unfold lock_step, lock_exclusive; rewrite Hj, Ew, bool_decide_eq_true_2 by done; by eexists|].
    apply set_choose_L in Hne as [k Hk%Hr]. exists k. apply Hgo; by destruct (pc s k). }
  destruct (parked (pc s i)) eqn:Ep; [|destruct (decide (pc s i = WWrite)) as [E|]; [by apply (Hwrite i)|exists i; by apply Hgo]].
  destruct (Hp i Ep) as [[k Hk]%Hrr|[k Hk]]; [|exists k; right; apply Howner; by rewrite Hk].
  destruct (decide (pc s k = WWrite)) as [E|]; [by apply (Hwrite k)|]. exists k. apply Hgo; by destruct (pc s k).
Qed.

(** ** The lock's own steps come to an end *)

(** How far a place is from the code around the lock, with [n] threads: a
    notification outweighs those it wakes. *)
Definition weight (n : nat) p : nat :=
  match p with
  | Idle | Reading | WPrep | WMut => 0
  | RDone | WReread | WWrite | WLowered => 1
  | RParked | RRead | WParked | WRaised | WUpgrade => 2
  | RCheck | WCheck => 3
  | RLock | WRelock => 4
  | WUnlock => 5
  | WLock => 6
  | WNotify => 2 * n + 3
  | WClear => 2 * n + 4
  | WLower => 2 * n + 5
  | WReacquire => 2 * n + 6
  | WWritten => 2 * n + 7
  end.
Definition distance (n : nat) s : nat := sum_list_with (fun i => weight n (pc s i)) (seq 0 n).

Lemma sum_moved (f g : nat -> nat) (c i : nat) l : NoDup l -> i ∈ l -> (forall j, j <> i -> g j <= f j + c) ->
  sum_list_with g l + f i <= sum_list_with f l + g i + c * length l.
Proof.
  intros Hn Hi Hg. assert (forall l, i ∉ l -> sum_list_with g l <= sum_list_with f l + c * length l) as Hrest.
  { induction l0 as [|j l0 IH]; cbn; [lia|]. intros [Hj Hl]%not_elem_of_cons. specialize (IH Hl). specialize (Hg j ltac:(congruence)). lia. }
  induction Hn as [|j l Hj Hn IH]; [by apply not_elem_of_nil in Hi|]. cbn. destruct (decide (j = i)) as [->|Hne]; [specialize (Hrest l Hj); lia|].
  apply elem_of_cons in Hi as [->|Hi]; [done|]. specialize (IH Hi). specialize (Hg j Hne). lia.
Qed.

Lemma distance_moved n c i s s' : (i < n)%nat -> (forall j, j <> i -> weight n (pc s' j) <= weight n (pc s j) + c) ->
  distance n s' + weight n (pc s i) <= distance n s + weight n (pc s' i) + c * n.
Proof.
  intros Hi Hj. unfold distance. replace (c * n) with (c * length (seq 0 n)) by by rewrite length_seq.
  apply (sum_moved (fun i => weight n (pc s i)) (fun i => weight n (pc s' i)) c i); [apply NoDup_seq|apply elem_of_seq; lia|done].
Qed.

Lemma run_closer n i s s' : (forall j, (n <= j)%nat -> pc s j = Idle) -> lock_step i Run s = Some s' ->
  (distance n s' < distance n s)%nat /\ forall j, (n <= j)%nat -> pc s' j = Idle.
Proof.
  intros Hn Hst. destruct (decide (i < n)%nat) as [Hi|Hi]; [|unfold lock_step in Hst; rewrite (Hn i) in Hst by lia; done].
  assert (forall m f r w p, weight n p < weight n (pc s i) -> s' = goto i p m f r w s ->
    (distance n s' < distance n s)%nat /\ forall j, (n <= j)%nat -> pc s' j = Idle) as Hgoto.
  { intros m f r w p Hp ->. split; [|intros j Hj; rewrite pc_goto; rewrite decide_False by lia; by apply Hn].
    pose proof (distance_moved n 0 i s (goto i p m f r w s) Hi) as Hd. rewrite pc_goto, decide_True in Hd by done.
    specialize (Hd ltac:(intros j Hj; rewrite pc_goto, decide_False by done; lia)). lia. }
  destruct (decide (pc s i = WNotify)) as [E|E].
  { unfold lock_step in Hst. rewrite E in Hst. injection Hst as <-. split.
    - pose proof (distance_moved n 2 i s (notify_all i WLowered s) Hi) as Hd. rewrite pc_notify, decide_True, E in Hd by done.
      specialize (Hd ltac:(intros j Hj; rewrite pc_notify, decide_False by done; destruct (pc s j); cbn; lia)). cbn in Hd. lia.
    - intros j Hj. rewrite pc_notify, decide_False by lia. by rewrite Hn. }
  unfold lock_step, lock_mutex, lock_shared, lock_exclusive in Hst. destruct (pc s i) eqn:Ei; try done.
  all: repeat match type of Hst with context [match ?x with _ => _ end] => destruct x end; try done; injection Hst as <-; (eapply Hgoto; [|reflexivity]; cbn; lia).
Qed.

(** [m] steps of the lock's own code. *)
Inductive runs_alone : nat -> Lock T -> Lock T -> Prop :=
| alone_refl s : runs_alone 0 s s
| alone_step m s i s' s'' : lock_step i Run s = Some s' -> runs_alone m s' s'' -> runs_alone (S m) s s''.

Lemma alone_bounded n m s s' : (forall j, (n <= j)%nat -> pc s j = Idle) -> runs_alone m s s' -> (m + distance n s' <= distance n s)%nat.
Proof. intros Hn Hr. induction Hr as [s|m s i s' s'' Hst Hr IH]; [lia|]. destruct (run_closer n i s s' Hn Hst) as [Hd Hn']. specialize (IH Hn'). lia. Qed.
Lemma distance_bound n s : (distance n s <= n * (2 * n + 7))%nat.
Proof.
  assert (forall l, sum_list_with (fun i => weight n (pc s i)) l <= length l * (2 * n + 7))%nat as Hl.
  { induction l as [|i l IH]; cbn -[Nat.mul]; [lia|]. assert (weight n (pc s i) <= 2 * n + 7)%nat by (destruct (pc s i); cbn; lia). lia. }
  specialize (Hl (seq 0 n)). by rewrite length_seq in Hl.
Qed.

(** C15. The device's lock does not hang. With [n] threads, the lock's own
    code, run in any order, comes to rest within a number of steps bounded by
    [n]; and at rest, if no thread holds a guard or is inside a closure, every
    thread is done: none waits for the mutex, the inner lock or a
    notification that will not come. This holds whichever closures panicked
    before. *)
Theorem device_lock_live v n s m s' : reaches (lock_new v) s -> (forall i, (n <= i)%nat -> pc s i = Idle) -> runs_alone m s s' ->
  (m <= n * (2 * n + 7))%nat /\
  ((forall i, lock_step i Run s' = None) -> (forall i, outside (pc s' i) = false) -> forall i, pc s' i = Idle).
Proof.
  intros Hs Hn Hr. split; [pose proof (alone_bounded n m s s' Hn Hr); pose proof (distance_bound n s); lia|]. intros Hrest Hout i.
  assert (lock_ok s') as Hs'. { apply reaches_ok in Hs. clear -Hs Hr. induction Hr as [s|m s i s' s'' Hst Hr IH]; [done|]. by apply IH, (lock_step_ok i Run s). }
  destruct (decide (pc s' i = Idle)) as [|Hi]; [done|]. destruct (never_stuck s' i Hs' Hi) as [j [Hj|[s'' Hj]]]; [by rewrite Hout in Hj|by rewrite Hrest in Hj].
Qed.
End Lock.

(** ** At a concrete schedule *)

(** A reader and a writer whose closure panics after a store. *)
Definition ex_schedule : list (nat * Event nat) :=
  [(0, CallRead); (0, Run); (0, Run); (0, Run); (0, Run); (0, CallWrite); (0, Run); (0, Run); (0, Run); (0, Run); (0, Run); (0, Return); (0, Run);
   (1, CallRead); (1, Run); (1, Run); (0, Run); (0, Store 7)]%nat.
Fixpoint play {T} (admits : Lock T -> bool) (l : list (nat * Event T)) (s : Lock T) : option (Lock T) :=
  match l with [] => Some s | (i, e) :: l => match lock_step admits i e s with Some s => play admits l s | None => None end end.
Definition ex_lock : Lock nat := default (lock_new 0%nat) (play (fun _ => true) ex_schedule (lock_new 0%nat)).

Lemma play_reaches {T} (admits : Lock T -> bool) l s0 s s' : reaches admits s0 s -> play admits l s = Some s' -> reaches admits s0 s'.
Proof.
  revert s. induction l as [|[i e] l IH]; intros s Hr; cbn; [by intros [= <-]|]. destruct (lock_step admits i e s) as [s1|] eqn:E; [|done]. apply IH. by eapply reaches_step.
Qed.
Lemma ex_lock_reached : reaches (fun _ => true) (lock_new 0%nat) ex_lock.
Proof. eapply (play_reaches _ ex_schedule); [constructor|]. vm_compute. reflexivity. Qed.

Lemma device_lock_exclusive_witness : pc ex_lock 0 = WMut /\ pc ex_lock 1 = RParked /\ value ex_lock = 7%nat /\ holds_read (pc ex_lock 1) = false.
Proof.
  split; [reflexivity|]. split; [reflexivity|]. split; [reflexivity|].
  apply (proj1 (device_lock_exclusive (fun _ => true) 0%nat ex_lock 0 ex_lock_reached) ltac:(reflexivity) 1%nat). congruence.
Defined.

(** After the panic, the lock's own steps: the intent is lowered, the reader
    woken and let in. *)
Definition ex_unwound : Lock nat := default ex_lock (lock_step (fun _ => true) 0 Unwind ex_lock).
Definition ex_turns : list nat := [0; 0; 0; 0; 0; 0; 1; 1; 1; 1]%nat.
Definition ex_settled : Lock nat := default ex_unwound (play (fun _ => true) (map (fun i => (i, Run)) ex_turns) ex_unwound).

Lemma play_alone {T} (admits : Lock T -> bool) l s s' : play admits (map (fun i => (i, Run)) l) s = Some s' -> runs_alone admits (length l) s s'.
Proof.
  revert s. induction l as [|i l IH]; intros s; cbn; [intros [= <-]; constructor|]. destruct (lock_step admits i Run s) as [s1|] eqn:E; [|done]. intros Hp. eapply alone_step; [exact E|by apply IH].
Qed.
Lemma ex_unwound_reached : reaches (fun _ => true) (lock_new 0%nat) ex_unwound.
Proof. apply (reaches_step _ _ ex_lock 0 Unwind ex_unwound); [apply ex_lock_reached|vm_compute; reflexivity]. Qed.
Lemma ex_settles : runs_alone (fun _ => true) 10 ex_unwound ex_settled.
Proof. apply (play_alone _ ex_turns). vm_compute. reflexivity. Qed.
Lemma ex_unwound_threads i : (2 <= i)%nat -> pc ex_unwound i = Idle.
Proof.
  intros Hi. unfold pc. replace (pcs ex_unwound !! i) with (@None Pc); [done|]. symmetry. apply not_elem_of_dom.
  assert (dom (pcs ex_unwound) = {[0; 1]}%nat) as -> by (vm_compute; reflexivity). rewrite elem_of_union, !elem_of_singleton. lia.
Qed.

Lemma device_lock_live_witness : (10 <= 2 * (2 * 2 + 7))%nat /\ pc ex_settled 0 = Reading /\ pc ex_settled 1 = Reading /\ wants_write ex_settled = false.
Proof.
  split; [|by vm_compute].
  exact (proj1 (device_lock_live (fun _ => true) (fun _ _ _ => eq_refl) 0%nat 2 ex_unwound 10 ex_settled ex_unwound_reached ex_unwound_threads ex_settles)).
Defined.
