(* ===== verification/Listeners.v ===== *)
(** The device's listening sockets and the mark its sockets carry,
    [device/mod.rs]: [open_listen_socket], [bind_listen_pair] and [set_fwmark].

    A [Node] is the device with its sockets: the listeners, the descriptors
    their events are registered under, the event queue (the descriptors with
    an event) and every socket's SO_MARK. What each system call answers is an
    argument ([BindCalls], [MarkCalls]); an [io::Error] is its errno, if it has
    one. *)

From stdpp Require Import gmap functions.
From S2P Require Import Prelude Budget Instant Crypto Rand Tags Packet Session RateLimiter Amnezia Framing.
From S2P Require Import Handshake Imitation Timers OpReport Tunn TunnReceive TunnTick TunnConfig Stun ReplyPolicy.
From S2P Require Import ProbeBudget ProbeReply ImitationHints AllowedIps PeerIndex Peer Device.

Definition EIO : Z := 5.
Definition EPROTONOSUPPORT : Z := 93.
Definition EAFNOSUPPORT : Z := 97.

Definition IoErr : Type := option Z.

(** ** Errors *)

Inductive Error :=
| IoError (e : IoErr) | SocketError (e : IoErr) | BindError | FCntl (e : IoErr) | EventQueue (e : IoErr) | IOCtl (e : IoErr)
| ConnectFailed | SetSockOpt | InvalidTunnelName | GetSockName | Timer (e : IoErr) | IfaceRead (e : IoErr) | DropPrivileges
| ApiSocket (e : IoErr) | PeerSetupFailed.

Definition raw_os_error (e : Error) : IoErr :=
  match e with
  | IoError e | SocketError e | FCntl e | EventQueue e | IOCtl e | IfaceRead e | ApiSocket e => e
  | Timer e => e
  | BindError | ConnectFailed | SetSockOpt | InvalidTunnelName | GetSockName | DropPrivileges | PeerSetupFailed => None
  end.

Definition device_errno (e : Error) : Z :=
  match raw_os_error e with Some errno => if 0 <? errno then errno else EIO | None => EIO end.

Definition ipv6_is_unavailable (e : IoErr) : bool :=
  match e with Some errno => (errno =? EAFNOSUPPORT) || (errno =? EPROTONOSUPPORT) | None => false end.

(** [?] on an [io::Result], in a function whose error is the device's. *)
Definition io {A} (r : result IoErr A) : result Error A := match r with Ok a => Ok a | Err e => Err (IoError e) end.

(** ** The system calls *)

(** Those of [open_listen_socket], in order. *)
Record BindCalls := {
  socket4 : result IoErr nat; share4 : result IoErr unit; bind4 : Z -> result IoErr unit; nonblocking4 : result IoErr unit;
  local_port4 : result IoErr Z;
  socket6 : result IoErr nat; share6 : result IoErr unit; only_v6 : result IoErr unit; bind6 : Z -> result IoErr unit; nonblocking6 : result IoErr unit;
  clone4 : result IoErr nat; clone6 : result IoErr nat;
  register4 : result IoErr unit; register6 : result IoErr unit;
}.

(** Those that read and write a mark, the first of an operation first: the
    error a call fails with. *)
Record MarkCalls := {
  read_fault : nat -> option IoErr;
  write_fault : nat -> option IoErr;
}.

(** A new socket carries no mark. *)
Definition mark_of (m : gmap nat Z) (s : nat) : Z := default 0 (m !! s).

(** The [i]-th read and the [i]-th write of an operation. *)
Definition read_mark (calls : MarkCalls) (i : nat) (s : nat) (m : gmap nat Z) : result IoErr Z :=
  match read_fault calls i with Some e => Err e | None => Ok (mark_of m s) end.
Definition apply_mark (calls : MarkCalls) (i : nat) (s : nat) (mark : Z) (m : gmap nat Z) : result IoErr (gmap nat Z) :=
  match write_fault calls i with Some e => Err e | None => Ok (<[s := mark]> m) end.

(** ** The node *)

Record Node (R : Type) `{NetworkTable} := {
  device : Device R;
  listen_port : Z;
  fwmark : option Z;
  udp4 : option nat;
  udp6 : option nat;
  udp_listener_fds : list nat;
  queue : gset nat;
  marks : gmap nat Z;
}.
Arguments device {R _} n.
Arguments listen_port {R _} n.
Arguments fwmark {R _} n.
Arguments udp4 {R _} n.
Arguments udp6 {R _} n.
Arguments udp_listener_fds {R _} n.
Arguments queue {R _} n.
Arguments marks {R _} n.

Inductive MarkTarget := Udp4 | Udp6 | MarkPeer (l : nat).

Section Listeners.
Context `{Crypto} {R : Type} `{RngCore R} `{PrefixFillers R} `{ImitationEnv} `{NetworkTable}.
Implicit Types n : Node R.

Definition set_device d n : Node R := {|
  device := d; listen_port := listen_port n; fwmark := fwmark n; udp4 := udp4 n; udp6 := udp6 n;
  udp_listener_fds := udp_listener_fds n; queue := queue n; marks := marks n |}.
Definition set_marks fw m n : Node R := {|
  device := device n; listen_port := listen_port n; fwmark := fw; udp4 := udp4 n; udp6 := udp6 n;
  udp_listener_fds := udp_listener_fds n; queue := queue n; marks := m |}.

(** ** Listeners *)

Definition bind_listen_pair (b : BindCalls) (port : Z) : result Error (nat * option nat * Z) :=
  let? udp4 := io (socket4 b) in
  let? _ := io (share4 b) in
  let? _ := io (bind4 b port) in
  let? _ := io (nonblocking4 b) in
  let? port := (if port =? 0 then io (local_port4 b) else Ok port) in
  match socket6 b with
  | Err e => if ipv6_is_unavailable e then Ok (udp4, None, port) else Err (IoError e)
  | Ok udp6 =>
      let? _ := io (share6 b) in
      let? _ := io (only_v6 b) in
      let? _ := io (bind6 b port) in
      let? _ := io (nonblocking6 b) in
      Ok (udp4, Some udp6, port)
  end.

Definition mark_listener (calls : MarkCalls) (i : nat) (fw : option Z) (s : nat) (m : gmap nat Z) : result IoErr (gmap nat Z) :=
  match fw with None => Ok m | Some mark => apply_mark calls i s mark m end.

(** A refused registration leaves no event behind. *)
Definition register_udp_handler (answer : result IoErr unit) (fd : nat) (q : gset nat) : result Error (gset nat) :=
  match answer with Ok _ => Ok (q ∪ {[fd]}) | Err e => Err (EventQueue e) end.
Definition clear_event_by_fd (fd : nat) (q : gset nat) : gset nat := q ∖ {[fd]}.
Definition clear_events (fds : list nat) (q : gset nat) : gset nat := foldl (fun q fd => clear_event_by_fd fd q) q fds.

(** The sockets, marked, and their clones. *)
Definition prepare_listeners (b : BindCalls) (calls : MarkCalls) (port : Z) n : result Error (nat * option nat * Z * gmap nat Z * nat * option nat) :=
  let? bound := bind_listen_pair b port in
  let '(u4, u6, port) := bound in
  let m := from_option (fun s => <[s := 0]>) id u6 (<[u4 := 0]> (marks n)) in
  let? m := io (mark_listener calls 0 (fwmark n) u4 m) in
  let? m := match u6 with None => Ok m | Some u6 => io (mark_listener calls 1 (fwmark n) u6 m) end in
  let? c4 := io (clone4 b) in
  let? c6 := match u6 with None => Ok None | Some _ => let? c := io (clone6 b) in Ok (Some c) end in
  Ok (u4, u6, port, m, c4, c6).

(** The clones' events; the queue a failure leaves. *)
Definition register_listeners (b : BindCalls) (c4 : nat) (c6 : option nat) (q : gset nat) : result (Error * gset nat) (gset nat) :=
  match register_udp_handler (register4 b) c4 q with
  | Err e => Err (e, q)
  | Ok q =>
      match c6 with
      | None => Ok q
      | Some c6 => match register_udp_handler (register6 b) c6 q with Ok q => Ok q | Err e => Err (e, clear_event_by_fd c4 q) end
      end
  end.

Definition set_queue q n : Node R := {|
  device := device n; listen_port := listen_port n; fwmark := fwmark n; udp4 := udp4 n; udp6 := udp6 n;
  udp_listener_fds := udp_listener_fds n; queue := q; marks := marks n |}.

(** Whether the port asked for is the one held, by a whole pair. *)
Definition holds_port (port : Z) n : bool :=
  negb (port =? 0) && (port =? listen_port n) && bool_decide (is_Some (udp4 n)) &&
  bool_decide (length (udp_listener_fds n) = (1 + match udp6 n with Some _ => 1 | None => 0 end)%nat).

Definition open_listen_socket (b : BindCalls) (calls : MarkCalls) (port : Z) n : outcome (result Error unit * Node R) :=
  if holds_port port n then Ret (Ok tt, n) else
  match prepare_listeners b calls port n with
  | Err e => Ret (Err e, n)
  | Ok (u4, u6, port, m, c4, c6) =>
      match register_listeners b c4 c6 (queue n) with
      | Err (e, q) => Ret (Err e, set_queue q n)
      | Ok q =>
          let d := device n in
          let d := set_hints (hints_clear (imitation_hints d)) d in
          let! d := for_peers (locations d) (fun p => Ret (shutdown_endpoint p)) d in
          Ret (Ok tt, {|
            device := d; listen_port := port; fwmark := fwmark n; udp4 := Some u4; udp6 := u6;
            udp_listener_fds := c4 :: option_list c6; queue := clear_events (udp_listener_fds n) q; marks := m |})
      end
  end.

(** ** The mark *)

(** The target's socket, if it has one. *)
Definition mark_socket (t : MarkTarget) n : option nat :=
  match t with
  | Udp4 => udp4 n
  | Udp6 => udp6 n
  | MarkPeer l => match store (device n) !! l with Some p => ep_conn (peer_endpoint p) | None => None end
  end.

Definition mark_targets n : list MarkTarget := [Udp4; Udp6] ++ map MarkPeer (locations (device n)).

(** The targets that have a socket, with the mark each carries. *)
Fixpoint read_marks (calls : MarkCalls) (i : nat) (ts : list MarkTarget) n : result IoErr (list (MarkTarget * Z)) :=
  match ts with
  | [] => Ok []
  | t :: ts =>
      match mark_socket t n with
      | None => read_marks calls i ts n
      | Some s =>
          let? previous := read_mark calls i s (marks n) in
          let? rest := read_marks calls (S i) ts n in
          Ok ((t, previous) :: rest)
      end
  end.

(** A write to the target's socket, if it has one. *)
Definition mark_target (calls : MarkCalls) (i : nat) (t : MarkTarget) (mark : Z) n (m : gmap nat Z) : result IoErr (gmap nat Z) :=
  match mark_socket t n with None => Ok m | Some s => apply_mark calls i s mark m end.

(** Put each back to its mark, in the order given, whatever refuses. *)
Fixpoint restore_all (calls : MarkCalls) (i : nat) (ts : list (MarkTarget * Z)) n (m : gmap nat Z) : gmap nat Z :=
  match ts with
  | [] => m
  | (t, previous) :: ts =>
      restore_all calls (S i) ts n (match mark_target calls i t previous n m with Ok m => m | Err _ => m end)
  end.
Definition restore_marks (calls : MarkCalls) (i : nat) (changed : list (MarkTarget * Z)) n (m : gmap nat Z) : gmap nat Z :=
  restore_all calls i (rev changed) n m.

(** Mark the targets left, those [changed] already being marked; a refusal puts
    these back. *)
Fixpoint apply_marks (calls : MarkCalls) (i : nat) (changed targets : list (MarkTarget * Z)) (mark : Z) n (m : gmap nat Z) : option IoErr * gmap nat Z :=
  match targets with
  | [] => (None, m)
  | (t, previous) :: targets =>
      match mark_target calls i t mark n m with
      | Ok m => apply_marks calls (S i) (changed ++ [(t, previous)]) targets mark n m
      | Err e => (Some e, restore_marks calls (S i) changed n m)
      end
  end.

Definition set_fwmark (calls : MarkCalls) (mark : Z) n : result Error unit * Node R :=
  match read_marks calls 0 (mark_targets n) n with
  | Err e => (Err (IoError e), n)
  | Ok targets =>
      match apply_marks calls 0 [] targets mark n (marks n) with
      | (Some e, m) => (Err (IoError e), set_marks (fwmark n) m n)
      | (None, m) => (Ok tt, set_marks (Some mark) m n)
      end
  end.
End Listeners.
