(* ===== verification/ListenerTheorems.v ===== *)
(** Rebinding the listeners is all or nothing, and a change of the sockets'
    mark is stored only when every socket has taken it. *)

From stdpp Require Import gmap functions.
From S2P Require Import Prelude Budget Instant Crypto Rand Tags Packet Session RateLimiter Amnezia Framing.
From S2P Require Import Handshake Imitation Fillers Timers OpReport Tunn TunnReceive TunnTick TunnConfig TunnSystem TunnExamples Stun ReplyPolicy.
From S2P Require Import ProbeBudget ProbeReply ImitationHints AllowedIps PeerIndex Peer Device DeviceTables DeviceData DeviceSafe DeviceSystem DeviceExamples Listeners.

Lemma clear_events_difference fds q : clear_events fds q = q ∖ list_to_set fds.
Proof.
  revert q. induction fds as [|fd fds IH]; intros q; [cbn; set_solver|]. cbn [clear_events foldl]. fold (clear_events fds (clear_event_by_fd fd q)). rewrite IH.
  unfold clear_event_by_fd. cbn. set_solver.
Qed.

Lemma swap_events (q fresh old : gset nat) : fresh ## old -> (q ∪ fresh) ∖ old = (q ∖ old) ∪ fresh.
Proof. set_solver. Qed.

Section Listeners.
Context `{Crypto} `{!CryptoLaws} {R : Type} `{RngCore R} `{!RngLaws R} `{PrefixFillers R} `{!FillerLaws R} `{ImitationEnv} `{!ImitationLaws}.
Context `{NetworkTable} `{!NetworkTableLaws}.
Implicit Types (d : Device R) (n : Node R) (p : Peer R).

(** ** Listeners *)

Lemma for_peers_store ls f d d' : for_peers ls f d = Ret d' -> exists st, d' = set_store st d.
Proof.
  revert d. induction ls as [|l ls IH]; intros d; cbn [for_peers]; [intros [= <-]; exists (store d); by destruct d|].
  unfold with_peer. destruct (store d !! l) as [p|]; [|done]. destruct (f p) as [p'|]; [|done]. cbn [obind]. intros Hr. apply IH in Hr as [st ->]. by exists st.
Qed.

(** The peers' connected sockets go, and nothing else of them. *)
Definition disconnected p p' : Prop := p' = shutdown_endpoint p.

Lemma close_endpoints k d : device_ok k d ->
  safely (for_peers (locations d) (fun p => Ret (shutdown_endpoint p)) d) (fun d' =>
    device_ok k d' /\ exists st, d' = set_store st d /\ each (locations d) disconnected (store d) st).
Proof.
  intros Hd. eapply safely_mono; [by apply (every_peer k d _ disconnected)|]. intros d' (st & -> & He). split; [|by exists st].
  eapply (device_ok_each k d); try done; [..|apply Hd|apply Hd].
  - intros p p' Hok ->. by split.
  - intros key p p' Hc ->. exact Hc.
Qed.

(** The listeners the system calls gave, with the port they are bound to. *)
Definition gave (b : BindCalls) (port : Z) (u4 c4 : nat) (v6 : option (nat * nat)) (bound : Z) : Prop :=
  socket4 b = Ok u4 /\ clone4 b = Ok c4 /\ bind4 b port = Ok tt /\ (if port =? 0 then local_port4 b = Ok bound else bound = port) /\
  match v6 with
  | Some (u6, c6) => socket6 b = Ok u6 /\ clone6 b = Ok c6 /\ bind6 b bound = Ok tt
  | None => exists e, socket6 b = Err e /\ ipv6_is_unavailable e = true
  end.

(** A new pair in the place of the old. *)
Record rebound (b : BindCalls) (port : Z) n n' : Prop := {
  rb_pair : exists u4 c4 v6, gave b port u4 c4 v6 (listen_port n') /\ udp4 n' = Some u4 /\ udp6 n' = (fst <$> v6) /\
    udp_listener_fds n' = c4 :: option_list (snd <$> v6) /\
    queue n' = (queue n ∖ list_to_set (udp_listener_fds n)) ∪ list_to_set (udp_listener_fds n') /\
    forall mark, fwmark n = Some mark -> mark_of (marks n') u4 = mark /\ forall u6, udp6 n' = Some u6 -> mark_of (marks n') u6 = mark;
  rb_mark : fwmark n' = fwmark n;
  rb_hints : imitation_hints (device n') = pending_default;
  rb_peers : each (locations (device n)) disconnected (store (device n)) (store (device n'));
  rb_tables : peers (device n') = peers (device n) /\ peers_by_ip (device n') = peers_by_ip (device n) /\ config (device n') = config (device n);
}.

Lemma bound_pair b port u4 u6 bound : bind_listen_pair b port = Ok (u4, u6, bound) ->
  socket4 b = Ok u4 /\ bind4 b port = Ok tt /\ (if port =? 0 then local_port4 b = Ok bound else bound = port) /\
  match u6 with
  | Some u6 => socket6 b = Ok u6 /\ bind6 b bound = Ok tt
  | None => exists e, socket6 b = Err e /\ ipv6_is_unavailable e = true
  end.
Proof.
  unfold bind_listen_pair, io. destruct (socket4 b) as [s4|]; [|done]. destruct (share4 b) as [[]|]; [|done]. destruct (bind4 b port) as [[]|] eqn:E2; [|done].
  destruct (nonblocking4 b) as [[]|]; [|done]. cbn [rbind].
  assert (forall pt, (if port =? 0 then match local_port4 b with Ok a => Ok a | Err e => Err (IoError e) end else Ok port) = Ok pt ->
    if port =? 0 then local_port4 b = Ok pt else pt = port) as Hport by (intros pt; destruct (port =? 0); [destruct (local_port4 b)|]; by intros [= ->]).
  destruct (if port =? 0 then _ else _) as [pt|] eqn:Ept; [|done]. specialize (Hport pt eq_refl). cbn [rbind].
  destruct (socket6 b) as [s6|e].
  - destruct (share6 b) as [[]|]; [|done]. destruct (only_v6 b) as [[]|]; [|done]. destruct (bind6 b pt) as [[]|] eqn:E6; [|done].
    destruct (nonblocking6 b) as [[]|]; [|done]. cbn [rbind]. intros [= <- <- <-]. by split_and!.
  - destruct (ipv6_is_unavailable e) eqn:Ee; [|done]. intros [= <- <- <-]. split_and!; try done. by exists e.
Qed.

Lemma mark_of_insert m s v s' : mark_of (<[s := v]> m) s' = if decide (s = s') then v else mark_of m s'.
Proof. unfold mark_of. destruct (decide (s = s')) as [->|Hne]; [by rewrite lookup_insert_eq|by rewrite lookup_insert_ne]. Qed.

Lemma prepared b calls port n u4 u6 bound m c4 c6 : prepare_listeners b calls port n = Ok (u4, u6, bound, m, c4, c6) ->
  (exists v6, gave b port u4 c4 v6 bound /\ u6 = (fst <$> v6) /\ c6 = (snd <$> v6)) /\
  forall mark, fwmark n = Some mark -> mark_of m u4 = mark /\ forall s, u6 = Some s -> mark_of m s = mark.
Proof.
  unfold prepare_listeners. destruct (bind_listen_pair b port) as [[[s4 s6] pt]|] eqn:Eb; [|done]. cbn [rbind].
  destruct (bound_pair _ _ _ _ _ Eb) as (G1 & G2 & G3 & G4). unfold io. unfold mark_listener, apply_mark. set (m0 := from_option _ _ s6 _).
  destruct (match fwmark n with None => Ok m0 | Some mark => _ end) as [m1|] eqn:E1; [|done]. cbn [rbind].
  destruct (match s6 with None => Ok m1 | Some u6 => _ end) as [m2|] eqn:E2; [|done]. cbn [rbind].
  destruct (clone4 b) as [k4|] eqn:E4; [|done]. cbn [rbind].
  destruct (match s6 with None => Ok None | Some _ => _ end) as [k6|] eqn:E6; [|done]. cbn [rbind]. intros [= <- <- <- <- <- <-]. split.
  - destruct s6 as [s6|].
    + destruct (clone6 b) as [c|] eqn:Ec; [|done]. injection E6 as <-. destruct G4. exists (Some (s6, c)). by split_and!.
    + injection E6 as <-. exists None. by split_and!.
  - intros mark Hm. rewrite Hm in E1, E2. destruct (write_fault calls 0); [done|]. injection E1 as <-. destruct s6 as [s6|].
    + destruct (write_fault calls 1); [done|]. injection E2 as <-. split; [|intros s [= <-]]; rewrite !mark_of_insert; repeat destruct (decide _); done.
    + injection E2 as <-. split; [|done]. rewrite mark_of_insert. by destruct (decide _).
Qed.

(** The operating system's new descriptors are not in use. *)
Definition fresh_clones (b : BindCalls) n : Prop := forall c, clone4 b = Ok c \/ clone6 b = Ok c -> (c ∉ queue n) /\ c ∉ udp_listener_fds n.

Lemma open_listen_ok k b calls port n : device_ok k (device n) -> fresh_clones b n ->
  safely (open_listen_socket b calls port n) (fun r => device_ok k (device (snd r)) /\ device_mtu (device (snd r)) = device_mtu (device n) /\
    match fst r with
    | Err _ => snd r = n
    | Ok _ => if holds_port port n then snd r = n else rebound b port n (snd r)
    end).
Proof.
  intros Hd Hf. unfold open_listen_socket. destruct (holds_port port n); [by cbn|].
  destruct (prepare_listeners b calls port n) as [[[[[[u4 u6] bound] m] c4] c6]|] eqn:Ep; [|by cbn].
  destruct (prepared _ _ _ _ _ _ _ _ _ _ Ep) as [(v6 & Hg & -> & ->) Hm].
  assert ((c4 ∉ queue n) /\ c4 ∉ udp_listener_fds n) as [Hc4 Hc4'] by (apply Hf; left; apply Hg).
  assert (forall c, (snd <$> v6) = Some c -> c ∉ udp_listener_fds n) as Hc6.
  { intros c Hc. destruct v6 as [[u6 c6]|]; [|done]. injection Hc as ->. apply Hf. right. apply Hg. }
  unfold register_listeners, register_udp_handler. destruct (register4 b) as [[]|]; [|cbn; by destruct n].
  assert (forall q, q = queue n ∪ list_to_set (c4 :: option_list (snd <$> v6)) -> safely (
    let d := set_hints (hints_clear (imitation_hints (device n))) (device n) in
    let! d := for_peers (locations d) (fun p => Ret (shutdown_endpoint p)) d in
    Ret (Ok (E := Error) tt, {| device := d; listen_port := bound; fwmark := fwmark n; udp4 := Some u4; udp6 := fst <$> v6;
      udp_listener_fds := c4 :: option_list (snd <$> v6); queue := clear_events (udp_listener_fds n) q; marks := m |})) (fun r =>
    device_ok k (device (snd r)) /\ device_mtu (device (snd r)) = device_mtu (device n) /\ match fst r with Err _ => snd r = n | Ok _ => rebound b port n (snd r) end)) as Hcommit.
  { intros q ->. cbv zeta. set (d1 := set_hints _ _). assert (device_ok k d1) as Hd1 by by apply device_ok_hints. apply safely_bind.
    eapply safely_mono; [by apply (close_endpoints k)|]. intros d' (Hd' & st & -> & He). cbn. split; [done|]. split; [done|]. split; cbn; try done.
    exists u4, c4, v6. split_and!; try done. rewrite clear_events_difference. apply swap_events.
    intros c [->%elem_of_singleton|Hc]%elem_of_union Hold%elem_of_list_to_set; [done|]. apply elem_of_list_to_set in Hc.
    destruct (snd <$> v6) as [c'|]; [|by apply not_elem_of_nil in Hc]. apply list_elem_of_singleton in Hc as ->. by apply (Hc6 c'). }
  destruct (snd <$> v6) as [c6|] eqn:E6; [|by apply Hcommit; cbn; rewrite union_empty_r_L]. destruct (register6 b) as [[]|].
  - apply Hcommit. cbn. by rewrite union_empty_r_L, union_assoc_L.
  - cbn. replace (set_queue _ n) with n; [done|]. destruct n. unfold set_queue, clear_event_by_fd. cbn in *. f_equal. set_solver.
Qed.

(** Without a word on the descriptors, the device stays sound. *)
Lemma open_listen_sound k b calls port n : device_ok k (device n) ->
  safely (open_listen_socket b calls port n) (fun r => device_ok k (device (snd r)) /\ device_mtu (device (snd r)) = device_mtu (device n)).
Proof.
  intros Hd. unfold open_listen_socket. destruct (holds_port port n); [done|].
  destruct (prepare_listeners b calls port n) as [[[[[[u4 u6] bound] m] c4] c6]|]; [|done].
  destruct (register_listeners b c4 c6 (queue n)) as [q|[e q]]; [|done]. cbv zeta. set (d1 := set_hints _ _). apply safely_bind.
  eapply safely_mono; [by apply (close_endpoints k), device_ok_hints|]. by intros d' (Hd' & st & -> & _).
Qed.

(** ** The mark *)

Definition sockets_of (ts : list (MarkTarget * Z)) n : list nat := omap (fun t => mark_socket (fst t) n) ts.

(** The marks [m0] with the sockets [ss] on [mark]. *)
Definition marked (m0 : gmap nat Z) (mark : Z) (ss : list nat) (m : gmap nat Z) : Prop :=
  forall s, mark_of m s = if decide (s ∈ ss) then mark else mark_of m0 s.

(** Targets with the marks their sockets carried. *)
Definition recorded n (ts : list (MarkTarget * Z)) : Prop :=
  Forall (fun t => exists s, mark_socket (fst t) n = Some s /\ snd t = mark_of (marks n) s) ts.

Lemma read_marks_spec calls i ts n targets : read_marks calls i ts n = Ok targets ->
  recorded n targets /\ forall s, s ∈ sockets_of targets n <-> exists t, t ∈ ts /\ mark_socket t n = Some s.
Proof.
  revert i targets. induction ts as [|t ts IH]; intros i targets; cbn [read_marks].
  { intros [= <-]. split; [constructor|]. intros s. split; [intros Hs; by apply not_elem_of_nil in Hs|intros (t & Ht & _); by apply not_elem_of_nil in Ht]. }
  destruct (mark_socket t n) as [s|] eqn:Et.
  - unfold read_mark. destruct (read_fault calls i); [done|]. cbn [rbind]. destruct (read_marks calls (S i) ts n) as [rest|] eqn:E; [|done]. intros [= <-].
    destruct (IH _ _ E) as [Hr Hs]. split; [constructor; [by exists s|done]|]. intros s'. unfold sockets_of. cbn [omap list_omap fst]. rewrite Et, elem_of_cons.
    fold (sockets_of rest n). rewrite Hs. split; [intros [->|(t' & Ht' & E')]; [exists t; split; [by left|done]|exists t'; split; [by right|done]]|intros (t' & [->|Ht']%elem_of_cons & E'); [left; congruence|right; by exists t']].
  - intros [Hr Hs]%IH. split; [done|]. intros s. rewrite Hs. split; [intros (t' & Ht' & E'); exists t'; split; [by right|done]|intros (t' & [->|Ht']%elem_of_cons & E'); [congruence|by exists t']].
Qed.

(** Putting marks back: a socket ends where it was or where it is, and
    without a refusal where it was. *)
Lemma restore_all_spec calls i ts n m s : recorded n ts ->
  (mark_of (restore_all calls i ts n m) s = mark_of (marks n) s \/ mark_of (restore_all calls i ts n m) s = mark_of m s) /\
  ((forall j, (i <= j)%nat -> write_fault calls j = None) ->
    mark_of (restore_all calls i ts n m) s = if decide (s ∈ sockets_of ts n) then mark_of (marks n) s else mark_of m s).
Proof.
  intros Hr. revert i m. induction Hr as [|[t previous] ts (s0 & Et & Hp) Hts IH]; intros i m; cbn [restore_all].
  { split; [by right|]. intros _. by rewrite decide_False by apply not_elem_of_nil. }
  cbn [fst snd] in Et, Hp. subst previous. unfold mark_target, apply_mark. rewrite Et. unfold sockets_of. cbn [omap list_omap fst]. rewrite Et. fold (sockets_of ts n). split.
  - destruct (write_fault calls i); [apply IH|]. destruct (proj1 (IH (S i) (<[s0 := mark_of (marks n) s0]> m))) as [Hm|Hm]; [by left|].
    rewrite mark_of_insert in Hm. destruct (decide (s0 = s)) as [->|]; [by left|by right].
  - intros Hf. rewrite (Hf i) by done. rewrite (proj2 (IH (S i) _)) by (intros j Hj; apply Hf; lia). rewrite mark_of_insert.
    destruct (decide (s ∈ sockets_of ts n)); [by rewrite decide_True by by right|]. destruct (decide (s0 = s)) as [->|]; [by rewrite decide_True by by left|].
    rewrite decide_False; [done|]. by intros [?|?]%elem_of_cons.
Qed.

Lemma recorded_app n ts ts' : recorded n (ts ++ ts') <-> recorded n ts /\ recorded n ts'.
Proof. apply Forall_app. Qed.
Lemma sockets_app ts ts' n : sockets_of (ts ++ ts') n = sockets_of ts n ++ sockets_of ts' n.
Proof. apply omap_app. Qed.
Lemma sockets_rev ts n s : s ∈ sockets_of (rev ts) n <-> s ∈ sockets_of ts n.
Proof.
  unfold sockets_of. rewrite !list_elem_of_omap. split; intros (t & Ht & E); exists t; (split; [|done]); apply list_elem_of_In; [apply in_rev|rewrite <- in_rev]; by apply list_elem_of_In.
Qed.

(** What an attempt at marking [targets] leaves, those [changed] being marked. *)
Lemma apply_marks_spec calls i changed targets mark n m : recorded n changed -> recorded n targets -> marked (marks n) mark (sockets_of changed n) m ->
  match apply_marks calls i changed targets mark n m with
  | (None, m') => marked (marks n) mark (sockets_of (changed ++ targets) n) m'
  | (Some _, m') => (forall s, mark_of m' s = mark_of (marks n) s \/ mark_of m' s = mark) /\ exists f, is_Some (write_fault calls f) /\
      ((forall j, (f < j)%nat -> write_fault calls j = None) -> forall s, mark_of m' s = mark_of (marks n) s)
  end.
Proof.
  intros Hc Ht. revert i changed m Hc. induction Ht as [|[t previous] targets (s0 & Et & Hp) Hts IH]; intros i changed m Hc Hm; cbn [apply_marks]; [by rewrite app_nil_r|].
  cbn [fst snd] in Et, Hp. unfold mark_target, apply_mark. rewrite Et. destruct (write_fault calls i) as [e|] eqn:Ef.
  - assert (recorded n (rev changed)) as Hrev by by apply List.Forall_rev. split.
    + intros s. destruct (restore_all_spec calls (S i) (rev changed) n m s Hrev) as [[?|Hs] _]; [by left|]. unfold restore_marks. rewrite Hs, (Hm s). destruct (decide _); [by right|by left].
    + exists i. split; [by eexists|]. intros Hf s. destruct (restore_all_spec calls (S i) (rev changed) n m s Hrev) as [_ Hs]. unfold restore_marks. rewrite Hs by (intros j Hj; apply Hf; lia).
      destruct (decide _) as [|Hni]; [done|]. rewrite sockets_rev in Hni. by rewrite (Hm s), decide_False.
  - specialize (IH (S i) (changed ++ [(t, previous)]) (<[s0 := mark]> m)). rewrite <- app_assoc in IH. apply IH.
    + apply recorded_app. split; [done|]. constructor; [by exists s0|constructor].
    + assert (sockets_of [(t, previous)] n = [s0]) as Hone by (unfold sockets_of; cbn; by rewrite Et).
      intros s. rewrite mark_of_insert, sockets_app, Hone. destruct (decide (s0 = s)) as [->|Hne].
      * rewrite decide_True; [done|]. apply elem_of_app. right. by left.
      * rewrite (Hm s). apply decide_ext. rewrite elem_of_app, list_elem_of_singleton. split; [by left|intros [?|?]; congruence].
Qed.

(** The sockets the device marks. *)
Definition device_socket n (s : nat) : Prop :=
  udp4 n = Some s \/ udp6 n = Some s \/ exists key l p, peers (device n) !! key = Some l /\ store (device n) !! l = Some p /\ ep_conn (peer_endpoint p) = Some s.

Lemma mark_targets_sockets n s : (exists t, t ∈ mark_targets n /\ mark_socket t n = Some s) <-> device_socket n s.
Proof.
  unfold mark_targets, device_socket. split.
  - intros (t & [[->|[->|Hn]%elem_of_cons]%elem_of_cons|(l & -> & [key Hl]%elem_of_locations)%list_elem_of_fmap]%elem_of_app & E); [by left|right; by left|by apply not_elem_of_nil in Hn|].
    right; right. cbn in E. destruct (store (device n) !! l) as [p|] eqn:Ep; [|done]. by exists key, l, p.
  - intros [E|[E|(key & l & p & Hl & Hp & E)]]; [exists Udp4|exists Udp6|exists (MarkPeer l)]; (split; [|done || cbn; by rewrite Hp]); apply elem_of_app; [left; by left|left; right; by left|right].
    apply list_elem_of_fmap. exists l. split; [done|]. apply elem_of_locations. by exists key.
Qed.

(** C12. A rebind of the listeners is all or nothing. It never panics and
    the device stays sound. When it fails -- at whichever system call -- the
    node is what it was: sockets, events, port, mark, peers. When it succeeds,
    it has done nothing if the port is the one already held; otherwise the new
    pair is in place on the port bound, its events are registered and the old
    ones gone, it carries the device's mark, and every peer in the tables has
    let go of its connected socket and kept everything else. *)
Theorem rebind_transactional k b calls port n : device_ok k (device n) -> fresh_clones b n ->
  exists r n', open_listen_socket b calls port n = Ret (r, n') /\ device_ok k (device n') /\
    match r with
    | Err _ => n' = n
    | Ok _ => if holds_port port n then n' = n else rebound b port n n'
    end.
Proof.
  intros Hd Hf. pose proof (open_listen_ok k b calls port n Hd Hf) as Ho. destruct (open_listen_socket b calls port n) as [[r n']|]; [|done].
  destruct Ho as (Hd' & _ & Hr). by exists r, n'.
Qed.

(** C13. The mark is stored once every socket of the device carries it. On
    success the two listeners and the peers' connected sockets carry the mark,
    every other socket its own, and it is the one stored. On an error the
    stored mark is the previous one, each socket is on the previous or the
    requested mark, and if no write after the refused one is refused every
    socket is back on the mark it had. Nothing but marks changes. *)
Theorem fwmark_stored calls mark n :
  match set_fwmark calls mark n with
  | (Ok _, n') => n' = set_marks (Some mark) (marks n') n /\ (forall s, device_socket n s -> mark_of (marks n') s = mark) /\
      forall s, ~ device_socket n s -> mark_of (marks n') s = mark_of (marks n) s
  | (Err _, n') => n' = set_marks (fwmark n) (marks n') n /\ (forall s, mark_of (marks n') s = mark_of (marks n) s \/ mark_of (marks n') s = mark) /\
      ((forall i j, is_Some (write_fault calls i) -> (i < j)%nat -> write_fault calls j = None) -> forall s, mark_of (marks n') s = mark_of (marks n) s)
  end.
Proof.
  unfold set_fwmark. destruct (read_marks calls 0 (mark_targets n) n) as [targets|e] eqn:Er; [|split; [by destruct n|split; [by left|done]]].
  destruct (read_marks_spec _ _ _ _ _ Er) as [Hrec Hs].
  pose proof (apply_marks_spec calls 0 [] targets mark n (marks n) ltac:(constructor) Hrec ltac:(intros s; by rewrite decide_False by apply not_elem_of_nil)) as Ha.
  destruct (apply_marks _ _ _ _ _ _ _) as [[e|] m'].
  - destruct Ha as (Ho & f & Hf & Hback). split; [done|]. split; [exact Ho|]. intros Hone. apply Hback. intros j Hj. by apply (Hone f).
  - split; [done|]. cbn. split; intros s; rewrite (Ha s), <- mark_targets_sockets, <- Hs; intros Hin; destruct (decide _); done.
Qed.
End Listeners.

(** ** At concrete inputs *)

Import Toy CounterRng ProtocolFillers SampleEnv ListTable.

Definition ex_node (d : Device Z) : Node Z := {|
  device := d; listen_port := 51820; fwmark := Some 7; udp4 := Some 10%nat; udp6 := Some 11%nat; udp_listener_fds := [12; 13]%nat; queue := {[12; 13]}%nat;
  marks := {[10%nat := 7; 11%nat := 7]} |}.
Definition ex_bind : BindCalls := {|
  socket4 := Ok 20%nat; share4 := Ok tt; bind4 := fun _ => Ok tt; nonblocking4 := Ok tt; local_port4 := Ok 40001;
  socket6 := Ok 21%nat; share6 := Ok tt; only_v6 := Ok tt; bind6 := fun _ => Ok tt; nonblocking6 := Ok tt;
  clone4 := Ok 22%nat; clone6 := Ok 23%nat; register4 := Ok tt; register6 := Ok tt |}.
Definition ex_mark_calls : MarkCalls := {| read_fault := fun _ => None; write_fault := fun _ => None |}.

Lemma rebind_transactional_witness : exists n', open_listen_socket ex_bind ex_mark_calls 40000 (ex_node (dev ex_loop_heard)) = Ret (Ok tt, n') /\
  rebound ex_bind 40000 (ex_node (dev ex_loop_heard)) n'.
Proof.
  destruct (ex_device_ok _ _ _ ex_runs_heard) as (k & _ & Hd).
  destruct (rebind_transactional k ex_bind ex_mark_calls 40000 (ex_node (dev ex_loop_heard))) as (r & n' & E & _ & Hr).
  - exact Hd.
  - intros c [E|E]; injection E as <-; split; set_solver.
  - assert (match open_listen_socket ex_bind ex_mark_calls 40000 (ex_node (dev ex_loop_heard)) with Ret (Ok _, _) => true | _ => false end = true) as E0 by by vm_compute.
    rewrite E in E0. destruct r as [[]|]; [|discriminate]. exists n'. split; [exact E|exact Hr].
Defined.
