(* ===== verification/Uapi.v ===== *)
(** The configuration protocol, [device/api.rs]: the lines of a [set=1] request
    and what they do to the device, and the lines [get=1] prints of the
    interface and of its peers. Keys are read by [serialization.rs].

    A request is its bytes. The AmneziaWG parameters of a request are staged
    ([AwgParams]) and merged over the device's when the interface section ends.
    What the operating system answers and the seeds of what is created are an
    argument, one [Host] for each line; base64 is an external crate and the
    class [Base64]. What is logged is not modelled. *)

From Stdlib Require Import String.
From stdpp Require Import gmap functions.
From S2P Require Import Prelude Budget Instant Crypto Rand Tags Packet Session RateLimiter HeaderProtection Amnezia Framing Sip Text.
From S2P Require Import Handshake Imitation Timers OpReport Tunn TunnReceive TunnTick TunnConfig Stun ReplyPolicy.
From S2P Require Import ProbeBudget ProbeReply ImitationHints AllowedIps PeerIndex Peer Device Listeners AddrText.

Local Open Scope list_scope.

Definition EINVAL : Z := 22.
Definition EPROTO : Z := 71.

(** ** Keys *)

(** [KEY_BASE64.decode], of the crate base64. *)
Class Base64 := { base64_decode : bytes -> option bytes }.

(** [&s[lo..hi]]: a panic off a character's boundary. *)
Definition str_slice (s : bytes) (lo hi : Z) : outcome bytes :=
  if is_char_boundary s lo && is_char_boundary s hi then Ret (slice lo hi s) else Panic.

Fixpoint hex_bytes (n : nat) (i : Z) (s : bytes) : outcome (option bytes) :=
  match n with
  | O => Ret (Some [])
  | S n =>
      let! digits := str_slice s (i * 2) (i * 2 + 2) in
      match from_str_radix 16 255 digits with
      | None => Ret None
      | Some v => let! rest := hex_bytes n (i + 1) s in Ret (cons (byte.of_Z v) <$> rest)
      end
  end.

Definition key_from_str `{Base64} (s : bytes) : outcome (option bytes) :=
  if len s =? 64 then hex_bytes 32 0 s
  else if (len s =? 43) || (len s =? 44) then
    Ret (match base64_decode s with Some k => if len k =? 32 then Some k else None | None => None end)
  else Ret None.

(** ** Values *)

Definition parse_uint_range (val : bytes) : option (Z * Z) :=
  match (match split_once Byte.x2d val with
         | Some (s, e) => start ← parse_u32 (trim s); end_ ← parse_u32 (trim e); Some (start, end_)
         | None => v ← parse_u32 (trim val); Some (v, v)
         end) with
  | Some (start, end_) => if start >? end_ then None else Some (start, end_)
  | None => None
  end.

Definition parse_tag_range (val : bytes) : option (Z * Z) :=
  match parse_uint_range val with
  | Some (start, end_) => if start =? 0 then None else Some (start, end_)
  | None => None
  end.

Definition parse_go_bool (val : bytes) : option bool :=
  if existsb (fun s => bool_decide (val = str s)) ["0"; "f"; "F"; "false"; "FALSE"; "False"]%string then Some false
  else if existsb (fun s => bool_decide (val = str s)) ["1"; "t"; "T"; "true"; "TRUE"; "True"]%string then Some true
  else None.

Definition parse_keepalive_interval (val : bytes) : option (Z * Z) :=
  match parse_uint_range val with Some (lo, hi) => normalize_persistent_keepalive_range lo hi | None => None end.

Definition parse_allowed_ip (s : bytes) : option AllowedIP :=
  match split Byte.x2f s with
  | [addr; cidr] =>
      match parse_ip_addr addr, parse_u8 cidr with
      | Some (V4 a), Some c => if c <=? 32 then Some {| aip_addr := V4 a; aip_cidr := c |} else None
      | Some (V6 a), Some c => if c <=? 128 then Some {| aip_addr := V6 a; aip_cidr := c |} else None
      | _, _ => None
      end
  | _ => None
  end.

(** ** The staged parameters *)

Record AwgParams := {
  p_jc : option Z; p_jmin : option Z; p_jmax : option Z;
  p_s1 : option Z; p_s2 : option Z; p_s3 : option Z; p_s4 : option Z;
  p_h1 : option (Z * Z); p_h2 : option (Z * Z); p_h3 : option (Z * Z); p_h4 : option (Z * Z);
  p_header_protection : option bytes;
  p_content_padding : option (Z * Z);
  p_rekey_after_time : option (Z * Z);
  p_rekey_timeout : option (Z * Z);
  p_reject_after_time : option (Z * Z);
  p_keepalive_timeout : option (Z * Z);
  p_max_handshake_attempts : option (Z * Z);
  p_random_trailers : option bool;
  p_disable_cookies : option bool;
  seen : bool;
}.

Definition awg_default : AwgParams := {|
  p_jc := None; p_jmin := None; p_jmax := None; p_s1 := None; p_s2 := None; p_s3 := None; p_s4 := None;
  p_h1 := None; p_h2 := None; p_h3 := None; p_h4 := None; p_header_protection := None; p_content_padding := None;
  p_rekey_after_time := None; p_rekey_timeout := None; p_reject_after_time := None; p_keepalive_timeout := None;
  p_max_handshake_attempts := None; p_random_trailers := None; p_disable_cookies := None; seen := false |}.

Inductive SizeKey := Jc | Jmin | Jmax | S1 | S2 | S3 | S4.
Inductive HeaderKey := H1 | H2 | H3 | H4.
Inductive TimerKey := RekeyAfterTime | RekeyTimeout | RejectAfterTime | KeepaliveTimeout | MaxHandshakeAttempts.

Definition set_size (key : SizeKey) (v : Z) (p : AwgParams) : AwgParams := {|
  p_jc := match key with Jc => Some v | _ => p_jc p end; p_jmin := match key with Jmin => Some v | _ => p_jmin p end;
  p_jmax := match key with Jmax => Some v | _ => p_jmax p end;
  p_s1 := match key with S1 => Some v | _ => p_s1 p end; p_s2 := match key with S2 => Some v | _ => p_s2 p end;
  p_s3 := match key with S3 => Some v | _ => p_s3 p end; p_s4 := match key with S4 => Some v | _ => p_s4 p end;
  p_h1 := p_h1 p; p_h2 := p_h2 p; p_h3 := p_h3 p; p_h4 := p_h4 p; p_header_protection := p_header_protection p; p_content_padding := p_content_padding p;
  p_rekey_after_time := p_rekey_after_time p; p_rekey_timeout := p_rekey_timeout p; p_reject_after_time := p_reject_after_time p;
  p_keepalive_timeout := p_keepalive_timeout p; p_max_handshake_attempts := p_max_handshake_attempts p;
  p_random_trailers := p_random_trailers p; p_disable_cookies := p_disable_cookies p; seen := true |}.

Definition set_header (key : HeaderKey) (range : Z * Z) (p : AwgParams) : AwgParams := {|
  p_jc := p_jc p; p_jmin := p_jmin p; p_jmax := p_jmax p; p_s1 := p_s1 p; p_s2 := p_s2 p; p_s3 := p_s3 p; p_s4 := p_s4 p;
  p_h1 := match key with H1 => Some range | _ => p_h1 p end; p_h2 := match key with H2 => Some range | _ => p_h2 p end;
  p_h3 := match key with H3 => Some range | _ => p_h3 p end; p_h4 := match key with H4 => Some range | _ => p_h4 p end;
  p_header_protection := p_header_protection p; p_content_padding := p_content_padding p;
  p_rekey_after_time := p_rekey_after_time p; p_rekey_timeout := p_rekey_timeout p; p_reject_after_time := p_reject_after_time p;
  p_keepalive_timeout := p_keepalive_timeout p; p_max_handshake_attempts := p_max_handshake_attempts p;
  p_random_trailers := p_random_trailers p; p_disable_cookies := p_disable_cookies p; seen := true |}.

Definition set_timer (key : TimerKey) (range : Z * Z) (p : AwgParams) : AwgParams := {|
  p_jc := p_jc p; p_jmin := p_jmin p; p_jmax := p_jmax p; p_s1 := p_s1 p; p_s2 := p_s2 p; p_s3 := p_s3 p; p_s4 := p_s4 p;
  p_h1 := p_h1 p; p_h2 := p_h2 p; p_h3 := p_h3 p; p_h4 := p_h4 p; p_header_protection := p_header_protection p; p_content_padding := p_content_padding p;
  p_rekey_after_time := match key with RekeyAfterTime => Some range | _ => p_rekey_after_time p end;
  p_rekey_timeout := match key with RekeyTimeout => Some range | _ => p_rekey_timeout p end;
  p_reject_after_time := match key with RejectAfterTime => Some range | _ => p_reject_after_time p end;
  p_keepalive_timeout := match key with KeepaliveTimeout => Some range | _ => p_keepalive_timeout p end;
  p_max_handshake_attempts := match key with MaxHandshakeAttempts => Some range | _ => p_max_handshake_attempts p end;
  p_random_trailers := p_random_trailers p; p_disable_cookies := p_disable_cookies p; seen := true |}.

Definition set_others (hp : option bytes) (pad : option (Z * Z)) (trailers cookies : option bool) (p : AwgParams) : AwgParams := {|
  p_jc := p_jc p; p_jmin := p_jmin p; p_jmax := p_jmax p; p_s1 := p_s1 p; p_s2 := p_s2 p; p_s3 := p_s3 p; p_s4 := p_s4 p;
  p_h1 := p_h1 p; p_h2 := p_h2 p; p_h3 := p_h3 p; p_h4 := p_h4 p; p_header_protection := hp; p_content_padding := pad;
  p_rekey_after_time := p_rekey_after_time p; p_rekey_timeout := p_rekey_timeout p; p_reject_after_time := p_reject_after_time p;
  p_keepalive_timeout := p_keepalive_timeout p; p_max_handshake_attempts := p_max_handshake_attempts p;
  p_random_trailers := trailers; p_disable_cookies := cookies; seen := true |}.
Definition set_header_protection (key : bytes) p := set_others (Some key) (p_content_padding p) (p_random_trailers p) (p_disable_cookies p) p.
Definition set_content_padding (range : Z * Z) p := set_others (p_header_protection p) (Some range) (p_random_trailers p) (p_disable_cookies p) p.
Definition set_random_trailers (on : bool) p := set_others (p_header_protection p) (p_content_padding p) (Some on) (p_disable_cookies p) p.
Definition set_disable_cookies (on : bool) p := set_others (p_header_protection p) (p_content_padding p) (p_random_trailers p) (Some on) p.

Definition set_sizes (z1 z2 z3 z4 : Z) (c : AmneziaConfig) : AmneziaConfig := {|
  init_packet_junk_size := z1; response_packet_junk_size := z2; cookie_packet_junk_size := z3; transport_packet_junk_size := z4;
  pre_handshake_junk := pre_handshake_junk c; imitation := imitation c; suppress_pre_handshake := suppress_pre_handshake c;
  header_protection := header_protection c; content_padding_addition := content_padding_addition c; content_padding_mtu := content_padding_mtu c;
  timers := timers c; random_trailers := random_trailers c; disable_cookies := disable_cookies c |}.

Definition merged (p : AwgParams) (cur_obf : ObfuscationRanges) (cur : AmneziaConfig) (mtu : Z)
    : result Z (ObfuscationRanges * AmneziaConfig) :=
  let cur_junk := pre_handshake_junk cur in
  let range (o : option (Z * Z)) (t : TagRange) := default (start t, end_ t) o in
  let h1 := range (p_h1 p) (h1_init cur_obf) in
  let h2 := range (p_h2 p) (h2_resp cur_obf) in
  let h3 := range (p_h3 p) (h3_cookie cur_obf) in
  let h4 := range (p_h4 p) (h4_data cur_obf) in
  match obf_new (fst h1) (snd h1) (fst h2) (snd h2) (fst h3) (snd h3) (fst h4) (snd h4) with
  | Err _ => Err EINVAL
  | Ok obf =>
      let a := set_sizes (default (init_packet_junk_size cur) (p_s1 p)) (default (response_packet_junk_size cur) (p_s2 p))
                 (default (cookie_packet_junk_size cur) (p_s3 p)) (default (transport_packet_junk_size cur) (p_s4 p)) cur in
      let a := with_pre_handshake_junk (default (packet_count cur_junk) (p_jc p)) (default (packet_size_min cur_junk) (p_jmin p))
                 (default (packet_size_max cur_junk) (p_jmax p)) (packet_delay_ms cur_junk) a in
      let a := match p_header_protection p with Some key => with_header_protection key a | None => a end in
      let '(pad_lo, pad_hi) := default (content_padding_addition a) (p_content_padding p) in
      let a := with_content_padding_addition pad_lo pad_hi mtu a in
      let a := with_random_trailers (default (random_trailers a) (p_random_trailers p)) a in
      let a := with_disable_cookies (default (disable_cookies a) (p_disable_cookies p)) a in
      let cur := timers a in
      let a := with_tunable_timers {|
        rekey_after_time := default (rekey_after_time cur) (p_rekey_after_time p);
        rekey_timeout := default (rekey_timeout cur) (p_rekey_timeout p);
        reject_after_time := default (reject_after_time cur) (p_reject_after_time p);
        keepalive_timeout := default (keepalive_timeout cur) (p_keepalive_timeout p);
        max_handshake_attempts := default (max_handshake_attempts cur) (p_max_handshake_attempts p) |} a in
      match validate a with Err _ => Err EINVAL | Ok _ => Ok (obf, a) end
  end.

(** ** The interface's parameters, printed *)

Definition line (key : string) (val : bytes) : bytes := str key ++ [Byte.x3d] ++ val ++ [Byte.x0a].
Definition range_text (lo hi : Z) : bytes := if lo =? hi then dec lo else dec lo ++ [Byte.x2d] ++ dec hi.
Definition write_range (key : string) (lo hi : Z) : bytes := line key (range_text lo hi).
Definition keepalive_interval_value (range : option (Z * Z)) : option bytes :=
  match range with Some (lo, hi) => Some (range_text lo hi) | None => None end.

Definition write_awg_interface_params (obf : ObfuscationRanges) (a : AmneziaConfig) : bytes :=
  let j := pre_handshake_junk a in
  let t := timers a in
  concat (map (fun '(key, val) => if val =? 0 then [] else line key (dec val))
    [("jc", packet_count j); ("jmin", packet_size_min j); ("jmax", packet_size_max j); ("s1", init_packet_junk_size a);
     ("s2", response_packet_junk_size a); ("s3", cookie_packet_junk_size a); ("s4", transport_packet_junk_size a)]%string) ++
  match hp_to_hex (header_protection a) with Some key => line "header_protection_key" key | None => [] end ++
  concat (map (fun '(key, range, def) => if bool_decide (range = def) then [] else write_range key (start range) (end_ range))
    [("h1", h1_init obf, h1_init obf_default); ("h2", h2_resp obf, h2_resp obf_default);
     ("h3", h3_cookie obf, h3_cookie obf_default); ("h4", h4_data obf, h4_data obf_default)]%string) ++
  concat (map (fun '(key, range) => if bool_decide (range = (0, 0)) then [] else write_range key (fst range) (snd range))
    [("content_padding_addition", content_padding_addition a); ("rekey_after_time", rekey_after_time t); ("rekey_timeout", rekey_timeout t);
     ("reject_after_time", reject_after_time t); ("keepalive_timeout", keepalive_timeout t);
     ("max_handshake_attempts", max_handshake_attempts t)]%string) ++
  (if random_trailers a then line "random_trailers" (str "1") else []) ++
  (if disable_cookies a then line "disable_cookies" (str "1") else []).

(** ** The lines of a request *)

(** The lines [read_line] gives until the end, each with its newline. *)
Fixpoint lines (s : bytes) : list bytes :=
  match s with
  | [] => []
  | b :: s => if Byte.eqb b Byte.x0a then [b] :: lines s else match lines s with l :: ls => (b :: l) :: ls | [] => [[b]] end
  end.

Inductive InterfaceKey :=
| PrivateKey | ListenPort | Fwmark | ReplacePeers | NewPeer | Size (k : SizeKey) | Header (k : HeaderKey) | ContentPadding
| RandomTrailers | DisableCookies | Signature | HeaderProtectionKey | TimerRange (k : TimerKey).
Definition INTERFACE_KEYS : list (string * InterfaceKey) :=
  [("private_key", PrivateKey); ("listen_port", ListenPort); ("fwmark", Fwmark); ("replace_peers", ReplacePeers); ("public_key", NewPeer);
   ("jc", Size Jc); ("jmin", Size Jmin); ("jmax", Size Jmax); ("s1", Size S1); ("s2", Size S2); ("s3", Size S3); ("s4", Size S4);
   ("h1", Header H1); ("h2", Header H2); ("h3", Header H3); ("h4", Header H4); ("content_padding_addition", ContentPadding);
   ("random_trailers", RandomTrailers); ("disable_cookies", DisableCookies);
   ("i1", Signature); ("i2", Signature); ("i3", Signature); ("i4", Signature); ("i5", Signature);
   ("header_protection_key", HeaderProtectionKey); ("rekey_after_time", TimerRange RekeyAfterTime); ("rekey_timeout", TimerRange RekeyTimeout);
   ("reject_after_time", TimerRange RejectAfterTime); ("keepalive_timeout", TimerRange KeepaliveTimeout);
   ("max_handshake_attempts", TimerRange MaxHandshakeAttempts)]%string.

Inductive PeerKey :=
| Remove | PresharedKey | EndpointKey | KeepaliveInterval | ReplaceAllowedIps | AllowedIpKey | NextPeer | ProtocolVersion | UpdateOnly.
Definition PEER_KEYS : list (string * PeerKey) :=
  [("remove", Remove); ("preshared_key", PresharedKey); ("endpoint", EndpointKey); ("persistent_keepalive_interval", KeepaliveInterval);
   ("replace_allowed_ips", ReplaceAllowedIps); ("allowed_ip", AllowedIpKey); ("public_key", NextPeer);
   ("protocol_version", ProtocolVersion); ("update_only", UpdateOnly)]%string.

Definition find_key {A} (table : list (string * A)) (key : bytes) : option A :=
  snd <$> List.find (fun e => bool_decide (key = str (fst e))) table.

(** ** Peer sections *)

Record PeerSection := {
  sec_remove : bool;
  sec_update_only : bool;
  sec_replace_ips : bool;
  sec_endpoint : option SocketAddr;
  sec_keepalive : option (Z * Z);
  sec_preshared_key : option bytes;
  sec_allowed_ips : list AllowedIP;
}.
Definition section_default : PeerSection := {|
  sec_remove := false; sec_update_only := false; sec_replace_ips := false; sec_endpoint := None; sec_keepalive := None;
  sec_preshared_key := None; sec_allowed_ips := [] |}.

Definition sec_flags (remove update_only replace_ips : bool) (s : PeerSection) : PeerSection := {|
  sec_remove := remove; sec_update_only := update_only; sec_replace_ips := replace_ips; sec_endpoint := sec_endpoint s;
  sec_keepalive := sec_keepalive s; sec_preshared_key := sec_preshared_key s; sec_allowed_ips := sec_allowed_ips s |}.
Definition sec_values (endpoint : option SocketAddr) (keepalive : option (Z * Z)) (psk : option bytes) (ips : list AllowedIP) (s : PeerSection) : PeerSection := {|
  sec_remove := sec_remove s; sec_update_only := sec_update_only s; sec_replace_ips := sec_replace_ips s; sec_endpoint := endpoint;
  sec_keepalive := keepalive; sec_preshared_key := psk; sec_allowed_ips := ips |}.

(** What the host gives a line: the time, the random numbers of what it creates
    and the answers of its system calls. *)
Record Host (R : Type) `{RngCore R} := {
  host_now : Z;
  host_limiter : LimiterSeed;
  host_tunn : TunnSeed (R := R);
  host_bind : BindCalls;
  host_marks : MarkCalls;
}.
Arguments host_now {R _} h.
Arguments host_limiter {R _} h.
Arguments host_tunn {R _} h.
Arguments host_bind {R _} h.
Arguments host_marks {R _} h.

Section Uapi.
Context `{Crypto} {R : Type} `{RngCore R} `{PrefixFillers R} `{ImitationEnv} `{NetworkTable} `{Base64}.
Implicit Types (d : Device R) (n : Node R) (h : Host R) (hosts : nat -> Host R).

(** [val.parse::<KeyBytes>()] *)
Definition with_key {A} (val : bytes) (bad : A) (f : bytes -> outcome A) : outcome A :=
  let! key := key_from_str val in match key with Some k => f k | None => Ret bad end.

Definition commit_peer h (public_key : bytes) (sec : PeerSection) d : outcome (result Z unit * Device R) :=
  if sec_update_only sec && negb (bool_decide (is_Some (peers d !! public_key))) then Ret (Ok tt, d) else
  let! (r, d) := update_peer (host_now h) (host_tunn h) public_key (sec_remove sec) (sec_replace_ips sec) (sec_endpoint sec)
                   (sec_allowed_ips sec) (sec_keepalive sec) (sec_preshared_key sec) d in
  Ret (match r with Ok _ => Ok tt | Err _ => Err EIO end, d).

(** What a line of a peer section, other than the start of the next, does to
    the section. *)
Definition section_line (key : PeerKey) (val : bytes) (sec : PeerSection) : outcome (option PeerSection) :=
  match key with
  | Remove => Ret ((fun b => sec_flags b (sec_update_only sec) (sec_replace_ips sec) sec) <$> parse_bool val)
  | PresharedKey => with_key val None (fun k => Ret (Some (sec_values (sec_endpoint sec) (sec_keepalive sec) (Some k) (sec_allowed_ips sec) sec)))
  | EndpointKey =>
      Ret ((fun a => sec_values (Some a) (sec_keepalive sec) (sec_preshared_key sec) (sec_allowed_ips sec) sec) <$> parse_socket_addr val)
  | KeepaliveInterval =>
      Ret ((fun i => sec_values (sec_endpoint sec) (Some i) (sec_preshared_key sec) (sec_allowed_ips sec) sec) <$> parse_keepalive_interval val)
  | ReplaceAllowedIps => Ret ((fun b => sec_flags (sec_remove sec) (sec_update_only sec) b sec) <$> parse_bool val)
  | AllowedIpKey =>
      if match val with b :: _ => Byte.eqb b Byte.x2d | [] => false end then Ret None else
      Ret ((fun ip => sec_values (sec_endpoint sec) (sec_keepalive sec) (sec_preshared_key sec) (sec_allowed_ips sec ++ [ip]) sec) <$> parse_allowed_ip val)
  | ProtocolVersion => Ret (match parse_u32 val with Some v => if v =? 1 then Some sec else None | None => None end)
  | UpdateOnly => Ret (if bool_decide (val = str "true") then Some (sec_flags (sec_remove sec) true (sec_replace_ips sec) sec) else None)
  | NextPeer => Ret None
  end.

Fixpoint api_set_peer (i : nat) hosts (ls : list bytes) (public_key : bytes) (sec : PeerSection) d : outcome (Z * Device R) :=
  let done :=
    let! (r, d) := commit_peer (hosts i) public_key sec d in
    Ret (match r with Ok _ => 0 | Err code => code end, d) in
  match ls with
  | [] => done
  | l :: ls =>
      if negb (utf8_valid l) then Ret (0, d) else
      let cmd := pop l in
      if bool_decide (cmd = []) then done else
      match split_once Byte.x3d cmd with
      | None => Ret (EPROTO, d)
      | Some (key, val) =>
          match find_key PEER_KEYS key with
          | None => Ret (EINVAL, d)
          | Some NextPeer =>
              let! (r, d) := commit_peer (hosts i) public_key sec d in
              match r with
              | Err code => Ret (code, d)
              | Ok _ => with_key val (EINVAL, d) (fun k => api_set_peer (S i) hosts ls k section_default d)
              end
          | Some key =>
              let! sec := section_line key val sec in
              match sec with None => Ret (EINVAL, d) | Some sec => api_set_peer (S i) hosts ls public_key sec d end
          end
      end
  end.

(** ** The interface section *)

Definition awg_apply (p : AwgParams) d : outcome (result Z unit * Device R) :=
  if negb (seen p) then Ret (Ok tt, d) else
  let mtu := Z.min (device_mtu d) u16_max in
  match merged p (cfg_obf (config d)) (cfg_amnezia (config d)) mtu with
  | Err code => Ret (Err code, d)
  | Ok (obf, a) => let! (_, d) := device_set_obfuscation obf a d in Ret (Ok tt, d)
  end.

(** The lines that stage a parameter. *)
Definition awg_line (key : InterfaceKey) (val : bytes) (p : AwgParams) : outcome (option AwgParams) :=
  match key with
  | Size k => Ret ((fun v => set_size k v p) <$> parse_u16 val)
  | Header k => Ret ((fun range => set_header k range p) <$> parse_tag_range val)
  | ContentPadding => Ret ((fun range => set_content_padding range p) <$> parse_uint_range val)
  | RandomTrailers => Ret ((fun on => set_random_trailers on p) <$> parse_go_bool val)
  | DisableCookies => Ret ((fun on => set_disable_cookies on p) <$> parse_go_bool val)
  | Signature => Ret (Some p)
  | HeaderProtectionKey => with_key val None (fun k => Ret (Some (set_header_protection k p)))
  | TimerRange k => Ret ((fun range => set_timer k range p) <$> parse_uint_range val)
  | PrivateKey | ListenPort | Fwmark | ReplacePeers | NewPeer => Ret None
  end.

(** The lines that act on the device at once. *)
Definition node_line h (key : InterfaceKey) (val : bytes) n : outcome (result Z unit * Node R) :=
  let status (r : result Error unit) := match r with Ok _ => Ok tt | Err e => Err (device_errno e) end in
  match key with
  | PrivateKey =>
      with_key val (Err EINVAL, n) (fun k => let! d := set_key (host_now h) (host_limiter h) k (device n) in Ret (Ok tt, set_device d n))
  | ListenPort =>
      match parse_u16 val with
      | Some port => let! (r, n) := open_listen_socket (host_bind h) (host_marks h) port n in Ret (status r, n)
      | None => Ret (Err EINVAL, n)
      end
  | Fwmark =>
      match parse_u32 val with
      | Some mark => let '(r, n) := set_fwmark (host_marks h) mark n in Ret (status r, n)
      | None => Ret (Err EINVAL, n)
      end
  | ReplacePeers =>
      match parse_bool val with
      | Some true => let! d := clear_peers (device n) in Ret (Ok tt, set_device d n)
      | Some false => Ret (Ok tt, n)
      | None => Ret (Err EINVAL, n)
      end
  | _ => Ret (Err EINVAL, n)
  end.

Fixpoint set_interface (i : nat) hosts (ls : list bytes) (awg : AwgParams) n : outcome (Z * Node R) :=
  let done :=
    let! (r, d) := awg_apply awg (device n) in
    Ret (match r with Ok _ => 0 | Err code => code end, set_device d n) in
  match ls with
  | [] => done
  | l :: ls =>
      if negb (utf8_valid l) then Ret (0, n) else
      let cmd := pop l in
      if bool_decide (cmd = []) then done else
      match split_once Byte.x3d cmd with
      | None => Ret (EPROTO, n)
      | Some (key, val) =>
          match find_key INTERFACE_KEYS key with
          | None => Ret (EINVAL, n)
          | Some ((PrivateKey | ListenPort | Fwmark | ReplacePeers) as key) =>
              let! (r, n) := node_line (hosts i) key val n in
              match r with Err code => Ret (code, n) | Ok _ => set_interface (S i) hosts ls awg n end
          | Some NewPeer =>
              with_key val (EINVAL, n) (fun k =>
                let! (r, d) := awg_apply awg (device n) in
                match r with
                | Err code => Ret (code, set_device d n)
                | Ok _ => let! (status, d) := api_set_peer (S i) hosts ls k section_default d in Ret (status, set_device d n)
                end)
          | Some key =>
              let! awg := awg_line key val awg in
              match awg with None => Ret (EINVAL, n) | Some awg => set_interface (S i) hosts ls awg n end
          end
      end
  end.

(** [writeable] is whether the device's lock could be upgraded. *)
Definition api_set (writeable : bool) hosts (request : bytes) n : outcome (Z * Node R) :=
  if writeable then set_interface 0 hosts (lines request) awg_default n else Ret (EIO, n).

(** ** [get=1] *)

(** The trie's prefixes by owner, in its order. *)
Definition prefixes_by_peer d : gmap nat (list (IpAddr * Z)) :=
  foldl (fun m '(owner, addr, cidr) => <[owner := default [] (m !! owner) ++ [(addr, cidr)]]> m) ∅ (allowed_ips_iter (peers_by_ip d)).

Definition hex_encode (key : bytes) : bytes :=
  flat_map (fun b => [hex_digit (byte.unsigned b / 16); hex_digit (byte.unsigned b mod 16)]) key.

(** The lines of a peer: those of its configuration, then its statistics.
    [wall] is the time since the epoch, if the clock is past it. *)
Definition peer_config_lines (key : bytes) (prefixes : list (IpAddr * Z)) (p : Peer R) : bytes :=
  line "public_key" (hex_encode key) ++
  from_option (fun psk => line "preshared_key" (hex_encode psk)) [] (peer_preshared_key p) ++
  from_option (line "persistent_keepalive_interval") [] (keepalive_interval_value (persistent_keepalive_range (tunnel p))) ++
  from_option (fun addr => line "endpoint" (print_socket_addr addr)) [] (ep_addr (peer_endpoint p)) ++
  concat (map (fun '(ip, cidr) => line "allowed_ip" (print_ip ip ++ str "/" ++ dec cidr)) prefixes).
Definition peer_stat_lines (now : Z) (wall : option Z) (p : Peer R) : bytes :=
  match time_since_last_handshake now (tunnel p), wall with
  | Some elapsed, Some wall =>
      let handshake_at := sat_sub wall elapsed in
      line "last_handshake_time_sec" (print_radix 10 (as_secs handshake_at)) ++
      line "last_handshake_time_nsec" (print_radix 10 (handshake_at mod nanos_per_sec))
  | _, _ => []
  end ++
  line "rx_bytes" (print_radix 10 (rx_bytes (tunnel p))) ++
  line "tx_bytes" (print_radix 10 (tx_bytes (tunnel p))).

(** [clock] is what each peer's lines read: the instant and the time of day. *)
Fixpoint get_peers (clock : nat -> Z * option Z) (ps : list (bytes * nat)) (prefixes : gmap nat (list (IpAddr * Z))) d : outcome bytes :=
  match ps with
  | [] => Ret []
  | (key, l) :: ps =>
      match store d !! l with
      | None => Panic
      | Some p =>
          let! rest := get_peers clock ps prefixes d in
          Ret (peer_config_lines key (default [] (prefixes !! l)) p ++ peer_stat_lines (fst (clock l)) (snd (clock l)) p ++ rest)
      end
  end.

Definition api_get (clock : nat -> Z * option Z) n : outcome bytes :=
  let d := device n in
  let! peers := get_peers clock (map_to_list (peers d)) (prefixes_by_peer d) d in
  Ret (from_option (fun '(_, public) => line "own_public_key" (hex_encode public)) [] (key_pair d) ++
    (if listen_port n =? 0 then [] else line "listen_port" (dec (listen_port n))) ++
    from_option (fun mark => line "fwmark" (dec mark)) [] (fwmark n) ++
    write_awg_interface_params (cfg_obf (config d)) (cfg_amnezia (config d)) ++ peers).
End Uapi.
