(* ===== verification/UapiSpec.v ===== *)
(** The configuration protocol's lines, read back: a line that was printed is
    parsed to what it was printed from, a run of AmneziaWG lines stages their
    values, one after the other, and a key of 64 bytes is read pair by pair. *)

From Stdlib Require Import String.
From stdpp Require Import gmap functions.
From S2P Require Import Prelude Budget Instant Crypto Rand Tags Packet Session RateLimiter HeaderProtection Amnezia Framing Sip Text.
From S2P Require Import Handshake Imitation Timers OpReport Tunn TunnReceive TunnTick TunnConfig Stun ReplyPolicy.
From S2P Require Import ProbeBudget ProbeReply ImitationHints AllowedIps PeerIndex Peer Device Listeners AddrText Uapi.

Local Open Scope list_scope.

(** ** Lines *)

(** What a value is written in: ASCII, on one line. *)
Definition value_text (s : bytes) : Prop := Forall (fun b => is_ascii b = true /\ b <> Byte.x0a) s.

Lemma lines_cons l rest : Byte.x0a ∉ l -> lines (l ++ Byte.x0a :: rest) = (l ++ [Byte.x0a]) :: lines rest.
Proof.
  induction l as [|b l IH]; [done|]. intros [Hb Hl]%not_elem_of_cons. cbn [app lines]. rewrite byte_eqb_ne by congruence. by rewrite IH.
Qed.

Lemma value_ascii s : value_text s -> ascii_text s.
Proof. intros Hs. eapply Forall_impl; [exact Hs|]. by intros b [? _]. Qed.
Lemma value_no_newline s : value_text s -> Byte.x0a ∉ s.
Proof. intros Hs Hin. by destruct (proj1 (Forall_forall _ _) Hs _ Hin) as [_ ?]. Qed.
Lemma digits_value_text s : digits_only s -> value_text s.
Proof. intros Hs. eapply Forall_impl; [exact Hs|]. intros b Hb. by destruct b. Qed.
Lemma dec_value_text n : value_text (dec n).
Proof. apply digits_value_text, dec_only. Qed.
Lemma value_app s t : value_text s -> value_text t -> value_text (s ++ t).
Proof. intros. by apply Forall_app. Qed.

(** A key names no [=] and no newline. *)
Definition key_text (key : bytes) : Prop := value_text key /\ Byte.x3d ∉ key.
Definition key_textb (key : bytes) : bool := forallb (fun b => is_ascii b && negb (Byte.eqb b Byte.x0a) && negb (Byte.eqb b Byte.x3d)) key.
Lemma key_textb_ok key : key_textb key = true -> key_text key.
Proof.
  unfold key_textb. rewrite forallb_forall. intros Hk.
  assert (forall b, In b key -> is_ascii b = true /\ b <> Byte.x0a /\ b <> Byte.x3d) as Hb.
  { intros b Hin. specialize (Hk b Hin). by destruct b. }
  split; [apply List.Forall_forall; intros b Hin; by destruct (Hb b Hin) as (? & ? & _)|]. intros Hin%list_elem_of_In. by destruct (Hb _ Hin) as (_ & _ & ?).
Qed.

(** A printed line, as the loops read it. *)
Lemma line_read key val rest : key_text (str key) -> value_text val ->
  lines (line key val ++ rest) = line key val :: lines rest /\ utf8_valid (line key val) = true /\
  pop (line key val) = str key ++ Byte.x3d :: val /\ split_once Byte.x3d (str key ++ Byte.x3d :: val) = Some (str key, val).
Proof.
  intros [Hk He] Hv. assert (line key val = (str key ++ Byte.x3d :: val) ++ [Byte.x0a]) as Hl by (unfold line; by rewrite <- app_assoc).
  assert (Byte.x0a ∉ str key ++ Byte.x3d :: val) as Hn.
  { intros [?|[?|?]%elem_of_cons]%elem_of_app; [by apply (value_no_newline (str key) Hk)|done|by apply (value_no_newline val Hv)]. }
  split_and!; [|apply ascii_utf8|by rewrite Hl, pop_ascii|by apply split_once_app].
  - rewrite Hl, <- app_assoc. cbn [app]. by rewrite lines_cons.
  - unfold line. repeat (apply Forall_app; split); [by apply value_ascii|by repeat constructor|by apply value_ascii|by repeat constructor].
Qed.

(** ** Values *)

Definition range_ok32 (r : Z * Z) : Prop := in_u32 (fst r) /\ in_u32 (snd r) /\ fst r <= snd r.

Lemma range_text_read lo hi : range_ok32 (lo, hi) -> parse_uint_range (range_text lo hi) = Some (lo, hi).
Proof.
  intros (Hlo & Hhi & Hle). cbn [fst snd] in *. unfold parse_uint_range, range_text. destruct (Z.eqb_spec lo hi) as [->|Hne].
  - rewrite split_once_none by (by apply (digits_no _ _ (dec_only hi))). rewrite trim_digits by apply dec_only. unfold parse_u32.
    rewrite parse_dec by (done || apply Hhi). cbn [mbind option_bind]. rewrite Z.gtb_ltb. by destruct (Z.ltb_spec hi hi); [lia|].
  - cbn [app]. rewrite split_once_app by (by apply (digits_no _ _ (dec_only lo))). rewrite !trim_digits by apply dec_only. unfold parse_u32.
    rewrite !parse_dec by (done || apply Hlo || apply Hhi). cbn [mbind option_bind]. rewrite Z.gtb_ltb. by destruct (Z.ltb_spec hi lo); [lia|].
Qed.
Lemma range_text_value lo hi : value_text (range_text lo hi).
Proof. unfold range_text. destruct (_ =? _); [apply dec_value_text|]. apply value_app; [apply dec_value_text|]. constructor; [done|apply dec_value_text]. Qed.

(** Keys in hexadecimal. *)
Lemma hex_encode_ascii key : ascii_text (hex_encode key) /\ value_text (hex_encode key).
Proof.
  assert (value_text (hex_encode key)) as Hv; [|split; [by apply value_ascii|done]].
  induction key as [|b key IH]; [constructor|]. cbn [hex_encode flat_map app]. constructor; [by destruct b|constructor; [by destruct b|exact IH]].
Qed.
Lemma hex_encode_cons b key : hex_encode (b :: key) = [hex_digit (byte.unsigned b / 16); hex_digit (byte.unsigned b mod 16)] ++ hex_encode key.
Proof. done. Qed.
Lemma len_hex_encode key : len (hex_encode key) = 2 * len key.
Proof. induction key as [|b key IH]; [done|]. rewrite hex_encode_cons, len_app, IH, !len_cons, len_nil. lia. Qed.

Lemma ascii_boundary s i : ascii_text s -> 0 <= i <= len s -> is_char_boundary s i = true.
Proof.
  intros Hs Hi. unfold is_char_boundary. destruct (Z.eqb_spec i 0); [done|]. destruct (Z.eqb_spec i (len s)); [done|]. cbn [orb].
  destruct (s !! Z.to_nat i) as [b|] eqn:E; [|apply lookup_ge_None in E; unfold len in *; lia].
  pose proof (Forall_lookup_1 _ _ _ _ Hs E) as Hb. by destruct b.
Qed.

Lemma hex_bytes_read pre key i : ascii_text pre -> len pre = 2 * i -> hex_bytes (length key) i (pre ++ hex_encode key) = Ret (Some key).
Proof.
  revert pre i. induction key as [|b key IH]; intros pre i Hp Hl; [done|]. cbn [length hex_bytes]. pose proof (len_nonneg pre). pose proof (len_nonneg key).
  assert (ascii_text (pre ++ hex_encode (b :: key))) as Ha by (apply Forall_app; split; [done|apply hex_encode_ascii]).
  assert (len (pre ++ hex_encode (b :: key)) = 2 * i + 2 + 2 * len key) as Hlen by (rewrite len_app, len_hex_encode, len_cons; lia).
  unfold str_slice. rewrite !ascii_boundary by (done || lia). cbn [andb obind].
  assert (slice (i * 2) (i * 2 + 2) (pre ++ hex_encode (b :: key)) = [hex_digit (byte.unsigned b / 16); hex_digit (byte.unsigned b mod 16)]) as ->.
  { rewrite hex_encode_cons. apply slice_mid; [lia|]. rewrite Hl, !len_cons, len_nil. lia. }
  replace (from_str_radix 16 255 _) with (Some (byte.unsigned b)) by (by destruct b). rewrite hex_encode_cons, app_assoc.
  rewrite IH; [by rewrite byte.of_Z_unsigned|apply Forall_app; split; [done|by destruct b; repeat constructor]|].
  rewrite len_app, Hl, !len_cons, len_nil. lia.
Qed.
Lemma key_read `{Base64} key : len key = 32 -> key_from_str (hex_encode key) = Ret (Some key).
Proof.
  intros Hk. unfold key_from_str. rewrite len_hex_encode, Hk. cbn [Z.eqb]. change (2 * 32 =? 64) with true. cbv iota.
  replace 32%nat with (length key) by (unfold len in Hk; lia). apply (hex_bytes_read []); [constructor|done].
Qed.

(** *** The digits of a key, pair by pair

    A pair of digits is read by a parser that takes a sign: a plus in the first
    place counts as a zero, in the second place nothing but a digit does. *)
Definition pair_value (x y : Init.Byte.byte) : option Z :=
  match to_digit 16 y, to_digit 16 x with
  | Some lo, Some hi => Some (hi * 16 + lo)
  | Some lo, None => if Byte.eqb x Byte.x2b then Some lo else None
  | None, _ => None
  end.

Inductive spells : bytes -> bytes -> Prop :=
| spells_nil : spells [] []
| spells_pair x y v s key : pair_value x y = Some v -> spells s key -> spells (x :: y :: s) (byte.of_Z v :: key).

(** After pairs that can be read, the end of the next is inside a character. *)
Definition cut_key (s : bytes) : Prop :=
  exists pre key x y c rest, s = pre ++ x :: y :: c :: rest /\ spells pre key /\ is_cont c = true.

Definition starts_inside (s : bytes) : bool := match s with c :: _ => is_cont c | [] => false end.
Fixpoint read_pairs (s : bytes) : outcome (option bytes) :=
  match s with
  | x :: y :: s =>
      if starts_inside s then Panic else
      match pair_value x y with
      | None => Ret None
      | Some v => let! key := read_pairs s in Ret (cons (byte.of_Z v) <$> key)
      end
  | _ => Ret (Some [])
  end.

Lemma to_digit_bound b v : to_digit 16 b = Some v -> 0 <= v < 16.
Proof. destruct b; vm_compute; intros E; try discriminate E; injection E as <-; by split. Qed.
Lemma pair_value_radix x y : from_str_radix 16 255 [x; y] = pair_value x y.
Proof.
  unfold from_str_radix, pair_value. cbn [digits]. destruct (Byte.eqb x Byte.x2b) eqn:Ex.
  - replace x with Byte.x2b by (by destruct x). change (to_digit 16 Byte.x2b) with (@None Z). destruct (to_digit 16 y) as [lo|] eqn:Ey; [|done].
    apply to_digit_bound in Ey. rewrite Z.add_0_l. by rewrite (proj2 (Z.leb_le _ _)) by lia.
  - destruct (to_digit 16 x) as [hi|] eqn:Eh; [|by destruct (to_digit 16 y)]. destruct (to_digit 16 y) as [lo|] eqn:Ey; [|done]. apply to_digit_bound in Eh, Ey.
    rewrite Z.add_0_l. by rewrite (proj2 (Z.leb_le _ _)) by lia.
Qed.
Lemma pair_value_head x y v : pair_value x y = Some v -> is_cont x = false.
Proof. unfold pair_value. destruct (to_digit 16 y); [|done]. destruct (is_cont x) eqn:E; [|done]. by destruct x. Qed.
Lemma spells_starts s key : spells s key -> starts_inside s = false.
Proof. destruct 1 as [|x y v s key Hv _]; [done|]. by apply (pair_value_head x y v). Qed.

Lemma boundary_inside pre s : pre <> [] -> is_char_boundary (pre ++ s) (len pre) = negb (starts_inside s).
Proof.
  intros Hp. unfold is_char_boundary. pose proof (len_nonneg pre). assert (len pre <> 0) by (destruct pre; rewrite ?len_cons in *; [done|pose proof (len_nonneg pre); lia]).
  rewrite (proj2 (Z.eqb_neq _ _)) by done. cbn [orb]. rewrite len_app. assert (Z.to_nat (len pre) = length pre) as -> by (unfold len; lia). destruct s as [|c s].
  - rewrite len_nil, Z.add_0_r, Z.eqb_refl. done.
  - rewrite len_cons, (proj2 (Z.eqb_neq _ _)) by (pose proof (len_nonneg s); lia). cbn [orb]. by rewrite list_lookup_middle.
Qed.

Lemma hex_bytes_pairs n i pre s : len pre = 2 * i -> len s = 2 * Z.of_nat n -> (pre = [] \/ starts_inside s = false) -> hex_bytes n i (pre ++ s) = read_pairs s.
Proof.
  revert i pre s. induction n as [|n IH]; intros i pre s Hp Hs Hin.
  { destruct s as [|x s]; [done|]. rewrite len_cons in Hs. pose proof (len_nonneg s). lia. }
  destruct s as [|x [|y s]]; rewrite ?len_cons, ?len_nil in Hs; [lia..|]. cbn [hex_bytes read_pairs]. unfold str_slice.
  assert (is_char_boundary (pre ++ x :: y :: s) (i * 2) = true) as ->.
  { replace (i * 2) with (len pre) by lia. destruct pre as [|b pre]; [done|]. destruct Hin as [?|Hin]; [done|]. by rewrite boundary_inside, Hin. }
  assert (pre ++ x :: y :: s = (pre ++ [x; y]) ++ s) as Hsplit by (by rewrite <- app_assoc).
  assert (len (pre ++ [x; y]) = i * 2 + 2) as Hl by (rewrite len_app, Hp, !len_cons, len_nil; lia).
  assert (is_char_boundary (pre ++ x :: y :: s) (i * 2 + 2) = negb (starts_inside s)) as ->.
  { rewrite Hsplit, <- Hl. apply boundary_inside. by destruct pre. }
  destruct (starts_inside s) eqn:Es; cbn [negb andb obind]; [done|].
  assert (slice (i * 2) (i * 2 + 2) (pre ++ x :: y :: s) = [x; y]) as ->.
  { change (x :: y :: s) with ([x; y] ++ s). apply slice_mid; [lia|]. rewrite Hp, !len_cons, len_nil. lia. }
  rewrite pair_value_radix. destruct (pair_value x y); [|done]. rewrite Hsplit, IH; [done|lia|lia|by right].
Qed.
Lemma key_pairs `{Base64} s : len s = 64 -> key_from_str s = read_pairs s.
Proof. intros Hs. unfold key_from_str. rewrite Hs. apply (hex_bytes_pairs 32 0 []); [done|done|by left]. Qed.

Lemma read_pairs_spells s key : Z.Even (len s) -> read_pairs s = Ret (Some key) <-> spells s key.
Proof.
  intros He. split.
  - remember (length s) as n eqn:Hn. assert (length s <= n)%nat as Hle by lia. clear Hn. revert s key He Hle. induction n as [|n IH]; intros s key He Hle.
    { destruct s; [|cbn in Hle; lia]. intros [= <-]. constructor. }
    destruct s as [|x [|y s]]; [intros [= <-]; constructor|destruct He as [m Hm]; change (1 = 2 * m) in Hm; lia|]. cbn [read_pairs]. destruct (starts_inside s); [done|].
    destruct (pair_value x y) as [v|] eqn:Ev; [|done]. destruct (read_pairs s) as [[k|]|] eqn:Ek; [|done..]. cbn. intros [= <-]. constructor; [done|].
    apply IH; [|cbn in Hle; lia|done]. destruct He as [m Hm]. exists (m - 1). rewrite !len_cons in Hm. lia.
  - clear He. induction 1 as [|x y v s key Hv Hs IH]; [done|]. cbn [read_pairs]. by rewrite (spells_starts _ _ Hs), Hv, IH.
Qed.
Lemma read_pairs_cut s : read_pairs s = Panic <-> cut_key s.
Proof.
  split.
  - remember (length s) as n eqn:Hn. assert (length s <= n)%nat as Hle by lia. clear Hn. revert s Hle. induction n as [|n IH]; intros s Hle; [by destruct s; [|cbn in Hle; lia]|].
    destruct s as [|x [|y s]]; [done..|]. cbn [read_pairs]. destruct (starts_inside s) eqn:Es.
    { intros _. destruct s as [|c s]; [done|]. exists [], [], x, y, c, s. split_and!; [done|constructor|done]. }
    destruct (pair_value x y) as [v|] eqn:Ev; [|done]. destruct (read_pairs s) as [?|] eqn:Ek; [done|]. intros _.
    destruct (IH s) as (pre & key & x' & y' & c & rest & -> & Hp & Hc); [cbn in Hle; lia|done|].
    exists (x :: y :: pre), (byte.of_Z v :: key), x', y', c, rest. split_and!; [done|by constructor|done].
  - intros (pre & key & x & y & c & rest & -> & Hp & Hc). induction Hp as [|x0 y0 v s key Hv Hs IH]; [cbn; by rewrite Hc|].
    cbn [app read_pairs]. destruct (starts_inside _); [done|]. by rewrite Hv, IH.
Qed.

(** A plus in the first place of a pair, for a zero. *)
Lemma spells_inv x y s key : spells (x :: y :: s) key -> exists v key', key = byte.of_Z v :: key' /\ pair_value x y = Some v /\ spells s key'.
Proof. intros Hs. inversion Hs. by do 2 eexists. Qed.
Lemma spells_plus pre y post key : Nat.Even (length pre) -> spells (pre ++ Byte.x2b :: y :: post) key -> spells (pre ++ Byte.x30 :: y :: post) key.
Proof.
  intros [m Hm]. revert pre key Hm. induction m as [|m IH]; intros pre key Hm Hs.
  - destruct pre; [|done]. cbn [app] in *. apply spells_inv in Hs as (v & key' & -> & Hv & Hr). constructor; [|done]. unfold pair_value in *.
    change (to_digit 16 Byte.x2b) with (@None Z) in Hv. change (to_digit 16 Byte.x30) with (Some 0). destruct (to_digit 16 y); exact Hv.
  - destruct pre as [|x [|x' pre]]; cbn in Hm; [lia..|]. cbn [app] in *. apply spells_inv in Hs as (v & key' & -> & Hv & Hr). constructor; [done|]. apply IH; [lia|done].
Qed.

Lemma utf8_app s t : ascii_text s -> utf8_valid (s ++ t) = utf8_valid t.
Proof. induction 1 as [|b s Hb Hs IH]; [done|]. cbn [app utf8_valid]. unfold is_ascii in Hb. by rewrite Hb. Qed.

(** A line whose value need not be ASCII. *)
Lemma text_line_read key val rest : key_text key -> Byte.x0a ∉ val -> utf8_valid (val ++ [Byte.x0a]) = true ->
  let cmd := key ++ Byte.x3d :: val in
  lines (cmd ++ Byte.x0a :: rest) = (cmd ++ [Byte.x0a]) :: lines rest /\ utf8_valid (cmd ++ [Byte.x0a]) = true /\
  pop (cmd ++ [Byte.x0a]) = cmd /\ cmd <> [] /\ split_once Byte.x3d cmd = Some (key, val).
Proof.
  intros [Hk He] Hv Hu cmd. split_and!; [|..|by apply pop_ascii|by destruct key|by apply split_once_app].
  - apply lines_cons. intros [?|[?|?]%elem_of_cons]%elem_of_app; [by apply (value_no_newline key Hk)|done|done].
  - unfold cmd. rewrite <- app_assoc, utf8_app by by apply value_ascii. exact Hu.
Qed.

(** ** AmneziaWG lines *)

Inductive Setting :=
| SetSize (k : SizeKey) (v : Z) | SetHeader (k : HeaderKey) (range : Z * Z) | SetPadding (range : Z * Z) | SetTimer (k : TimerKey) (range : Z * Z)
| SetTrailers (on : bool) | SetCookies (off : bool) | SetProtection (key : bytes).

Definition size_name (k : SizeKey) : string :=
  match k with Jc => "jc" | Jmin => "jmin" | Jmax => "jmax" | S1 => "s1" | S2 => "s2" | S3 => "s3" | S4 => "s4" end.
Definition header_name (k : HeaderKey) : string := match k with H1 => "h1" | H2 => "h2" | H3 => "h3" | H4 => "h4" end.
Definition timer_name (k : TimerKey) : string :=
  match k with
  | RekeyAfterTime => "rekey_after_time" | RekeyTimeout => "rekey_timeout" | RejectAfterTime => "reject_after_time"
  | KeepaliveTimeout => "keepalive_timeout" | MaxHandshakeAttempts => "max_handshake_attempts"
  end.
Definition setting_name (st : Setting) : string :=
  match st with
  | SetSize k _ => size_name k | SetHeader k _ => header_name k | SetPadding _ => "content_padding_addition" | SetTimer k _ => timer_name k
  | SetTrailers _ => "random_trailers" | SetCookies _ => "disable_cookies" | SetProtection _ => "header_protection_key"
  end.
Definition setting_value (st : Setting) : bytes :=
  match st with
  | SetSize _ v => dec v
  | SetHeader _ r | SetPadding r | SetTimer _ r => range_text (fst r) (snd r)
  | SetTrailers b | SetCookies b => str (if b then "1" else "0")
  | SetProtection key => hex_encode key
  end.
Definition setting_line (st : Setting) : bytes := line (setting_name st) (setting_value st).

Definition setting_ok (st : Setting) : Prop :=
  match st with
  | SetSize _ v => in_u16 v
  | SetHeader _ r => range_ok32 r /\ 0 < fst r
  | SetPadding r | SetTimer _ r => range_ok32 r
  | SetTrailers _ | SetCookies _ => True
  | SetProtection key => len key = 32
  end.

Definition stage (p : AwgParams) (st : Setting) : AwgParams :=
  match st with
  | SetSize k v => set_size k v p
  | SetHeader k r => set_header k r p
  | SetPadding r => set_content_padding r p
  | SetTimer k r => set_timer k r p
  | SetTrailers b => set_random_trailers b p
  | SetCookies b => set_disable_cookies b p
  | SetProtection key => set_header_protection key p
  end.

Definition setting_key (st : Setting) : InterfaceKey :=
  match st with
  | SetSize k _ => Size k | SetHeader k _ => Header k | SetPadding _ => ContentPadding | SetTimer k _ => TimerRange k
  | SetTrailers _ => RandomTrailers | SetCookies _ => DisableCookies | SetProtection _ => HeaderProtectionKey
  end.

Lemma setting_name_ok st : key_text (str (setting_name st)) /\ find_key INTERFACE_KEYS (str (setting_name st)) = Some (setting_key st).
Proof. destruct st as [[]|[]| |[]| | |]; (split; [by apply key_textb_ok|by vm_compute]). Qed.
Lemma setting_value_text st : value_text (setting_value st).
Proof.
  destruct st as [| | | |[]|[]|]; cbn [setting_value]; try apply range_text_value; try apply dec_value_text; try apply hex_encode_ascii; by repeat constructor.
Qed.

Lemma setting_read `{Base64} st p : setting_ok st -> awg_line (setting_key st) (setting_value st) p = Ret (Some (stage p st)).
Proof.
  destruct st as [k v|k [lo hi]|[lo hi]|k [lo hi]|[]|[]|key]; cbn [setting_ok setting_key setting_value awg_line stage fst snd].
  - intros Hv. unfold parse_u16. by rewrite parse_dec by (unfold in_u16, in_u32, u16_max, u32_max in *; lia).
  - intros [Hr Hlo]. unfold parse_tag_range. rewrite range_text_read by done. by destruct (Z.eqb_spec lo 0); [lia|].
  - intros Hr. by rewrite range_text_read.
  - intros Hr. by rewrite range_text_read.
  - done.
  - done.
  - done.
  - done.
  - intros Hk. unfold with_key. by rewrite key_read.
Qed.

Section Requests.
Context `{Crypto} {R : Type} `{RngCore R} `{PrefixFillers R} `{ImitationEnv} `{NetworkTable} `{Base64}.
Implicit Types (d : Device R) (n : Node R) (hosts : nat -> Host R).

Definition settings_text (ss : list Setting) : bytes := concat (map setting_line ss).

(** A run of AmneziaWG lines stages their values and touches nothing else. *)
Lemma settings_staged i hosts ss rest awg n : Forall setting_ok ss ->
  set_interface i hosts (lines (settings_text ss ++ rest)) awg n = set_interface (i + length ss) hosts (lines rest) (fold_left stage ss awg) n.
Proof.
  intros Hss. revert i awg. induction Hss as [|st ss Hst Hss IH]; intros i awg; [cbn; f_equal; lia|].
  cbn [settings_text map concat fold_left length]. rewrite <- app_assoc. destruct (setting_name_ok st) as [Hk Hf].
  destruct (line_read (setting_name st) (setting_value st) (settings_text ss ++ rest) Hk (setting_value_text st)) as (Hl & Hu & Hp & Hs).
  unfold setting_line at 1. fold (settings_text ss). rewrite Hl. cbn [set_interface]. rewrite Hu, Hp. cbn [negb].
  rewrite bool_decide_eq_false_2 by (by destruct (str (setting_name st))). rewrite Hs, Hf.
  replace (i + S (length ss))%nat with (S i + length ss)%nat by lia. rewrite <- IH.
  pose proof (setting_read st awg Hst) as Hr. destruct st; cbn [setting_key] in *; by rewrite Hr.
Qed.

(** A whole request of AmneziaWG lines. *)
Lemma settings_request hosts ss n : Forall setting_ok ss ->
  api_set true hosts (settings_text ss ++ [Byte.x0a]) n =
  let! (r, d) := awg_apply (fold_left stage ss awg_default) (device n) in Ret (match r with Ok _ => 0 | Err code => code end, set_device d n).
Proof. intros Hss. unfold api_set. by rewrite settings_staged. Qed.
End Requests.
