(* ===== verification/UapiSafe.v ===== *)
(** What a configuration request does to a sound device: it leaves it sound,
    whatever the request says, and it panics only on a key that is not ASCII. *)

From Stdlib Require Import String.
From stdpp Require Import gmap functions.
From S2P Require Import Prelude Budget Instant Crypto Rand Tags Packet Session RateLimiter HeaderProtection Amnezia Framing Sip Text.
From S2P Require Import Handshake Imitation Timers OpReport Tunn TunnReceive TunnTick TunnConfig Stun ReplyPolicy.
From S2P Require Import ProbeBudget ProbeReply ImitationHints AllowedIps PeerIndex Peer Device DeviceTables Listeners ListenerTheorems AddrText Uapi UapiSpec.

Local Open Scope list_scope.

(** ** The merged parameters *)

Definition opt_ok {A} (P : A -> Prop) (o : option A) : Prop := from_option P True o.

Record params_ok (p : AwgParams) : Prop := {
  po_sizes : Forall (opt_ok in_u16) [p_jc p; p_jmin p; p_jmax p; p_s1 p; p_s2 p; p_s3 p; p_s4 p];
  po_headers : Forall (opt_ok range_u32) [p_h1 p; p_h2 p; p_h3 p; p_h4 p];
  po_padding : opt_ok range_u32 (p_content_padding p);
  po_timers : Forall (opt_ok range_u32) [p_rekey_after_time p; p_rekey_timeout p; p_reject_after_time p; p_keepalive_timeout p; p_max_handshake_attempts p];
}.

Lemma opt_default {A} (P : A -> Prop) o x : opt_ok P o -> P x -> P (default x o).
Proof. by destruct o. Qed.

Ltac defaulted := first [by apply (opt_default in_u16)|by apply (opt_default range_u32)].

Lemma junk_new_ok count lo hi delay : in_u16 count -> in_u16 lo -> in_u16 hi -> in_u16 delay ->
  let j := junk_new count lo hi delay in in_u16 (packet_count j) /\ in_u16 (packet_size_min j) /\ in_u16 (packet_size_max j) /\ in_u16 (packet_delay_ms j).
Proof.
  intros Hc Hl Hh Hd. unfold junk_new. destruct (if _ =? 0 then _ else _) as [a b] eqn:E. cbn.
  assert (in_u16 a /\ in_u16 b) as [Ha Hb].
  { assert (in_u16 DEFAULT_JUNK_PACKET_SIZE_MIN /\ in_u16 DEFAULT_JUNK_PACKET_SIZE_MAX) as [? ?] by (split; by vm_compute).
    repeat (destruct (_ : bool) in E); injection E as <- <-; by split. }
  assert (in_u16 0) by (unfold in_u16, u16_max; lia).
  split_and!; [by destruct (count <=? _)|done|done|by destruct (delay <=? _)].
Qed.

Lemma range_normalized r : range_u32 r -> range_u32 (Z.min (fst r) (snd r), Z.max (fst r) (snd r)).
Proof. unfold range_u32, in_u32. cbn. lia. Qed.

Lemma range_of_tag t : range_ok t -> in_u32 (start t) /\ in_u32 (end_ t).
Proof. unfold range_ok, in_u32. lia. Qed.

Lemma merged_ok p obf c mtu obf' c' : params_ok p -> obf_ok obf -> config_ok c -> in_u16 mtu -> merged p obf c mtu = Ok (obf', c') ->
  obf_ok obf' /\ config_ok c' /\ validate c' = Ok tt.
Proof.
  intros [Hs Hh Hp Ht] Ho Hc Hm. pose proof (obf_in_range _ Ho) as Hr. unfold obf_ranges in Hr.
  rewrite !List.Forall_cons_iff in Hs; rewrite !List.Forall_cons_iff in Hh; rewrite !List.Forall_cons_iff in Ht; rewrite !List.Forall_cons_iff in Hr.
  destruct Hs as (Hjc & Hjmin & Hjmax & Hs1 & Hs2 & Hs3 & Hs4 & _). destruct Hh as (Hh1 & Hh2 & Hh3 & Hh4 & _).
  destruct Ht as (Ht1 & Ht2 & Ht3 & Ht4 & Ht5 & _). destruct Hr as (Hr1%range_of_tag & Hr2%range_of_tag & Hr3%range_of_tag & Hr4%range_of_tag & _).
  unfold merged. cbv zeta. destruct (obf_new _ _ _ _ _ _ _ _) as [o|e] eqn:Eo; [|done].
  assert (obf_ok o) as Hoo.
  { eapply obf_new_ok; [|exact Eo]. assert (forall o t, opt_ok range_u32 o -> in_u32 (start t) /\ in_u32 (end_ t) -> range_u32 (default (start t, end_ t) o)) as Hd
      by (intros o' t' Ho' Ht'; defaulted).
    destruct (Hd _ _ Hh1 Hr1), (Hd _ _ Hh2 Hr2), (Hd _ _ Hh3 Hr3), (Hd _ _ Hh4 Hr4).
    repeat (apply List.Forall_cons; [done|]). apply List.Forall_nil. }
  set (a := match p_header_protection p with Some _ => _ | None => _ end).
  assert (default (content_padding_addition a) (p_content_padding p) = default (content_padding_addition c) (p_content_padding p) /\
    random_trailers a = random_trailers c /\ disable_cookies a = disable_cookies c /\ timers a = timers c /\ imitation a = imitation c) as (Ha1 & Ha2 & Ha3 & Ha4 & Ha5).
  { unfold a. by destruct (p_header_protection p). }
  rewrite Ha1. destruct (default (content_padding_addition c) (p_content_padding p)) as [lo hi] eqn:Epad. destruct (validate _) as [[]|e] eqn:Ev; [|done]. intros [= <- <-].
  split; [done|]. split; [|exact Ev]. destruct Hc as [Hsz Hcn Hjn Hjx Hdl Hpd Hmt Htm Hat Hdm]. unfold duration_ranges in Htm. rewrite !List.Forall_cons_iff in Htm.
  destruct Htm as (T1 & T2 & T3 & T4 & _). cbn [snd] in *.
  assert (range_u32 (lo, hi)) as Hpad by (rewrite <- Epad; defaulted).
  destruct (junk_new_ok (default (packet_count (pre_handshake_junk c)) (p_jc p)) (default (packet_size_min (pre_handshake_junk c)) (p_jmin p))
    (default (packet_size_max (pre_handshake_junk c)) (p_jmax p)) (packet_delay_ms (pre_handshake_junk c))) as (J1 & J2 & J3 & J4);
    [apply (opt_default in_u16); [done|exact Hcn]|defaulted|defaulted|done|].
  assert (pre_handshake_junk a = junk_new (default (packet_count (pre_handshake_junk c)) (p_jc p)) (default (packet_size_min (pre_handshake_junk c)) (p_jmin p))
    (default (packet_size_max (pre_handshake_junk c)) (p_jmax p)) (packet_delay_ms (pre_handshake_junk c))) as Hj by (unfold a; by destruct (p_header_protection p)).
  assert (forall kind, in_u16 (inbound_junk_size a kind)) as Hsizes.
  { intros kind. pose proof (Hsz kind). unfold a. destruct (p_header_protection p), kind; cbn in *; defaulted. }
  split; cbn; rewrite ?Hj, ?Ha4, ?Ha5; try done.
  - by apply (range_normalized (lo, hi)).
  - unfold duration_ranges. cbn. repeat (apply List.Forall_cons; [cbn; apply range_normalized; defaulted|]). apply List.Forall_nil.
  - apply range_normalized. defaulted.
Qed.

(** ** ASCII requests *)

Lemma lines_ascii s : ascii_text s -> Forall ascii_text (lines s).
Proof.
  induction 1 as [|b s Hb Hs IH]; [constructor|]. cbn [lines]. destruct (Byte.eqb b _); [constructor; [by repeat constructor|done]|].
  destruct IH as [|l ls Hl Hls]; [by repeat constructor|]. constructor; [by constructor|done].
Qed.
Lemma drop_char_ascii r : ascii_text r -> ascii_text (drop_char r).
Proof. induction 1 as [|b r Hb Hr IH]; [constructor|]. cbn [drop_char]. by destruct (is_cont b). Qed.
Lemma pop_ascii_text s : ascii_text s -> ascii_text (pop s).
Proof. intros Hs. by apply List.Forall_rev, drop_char_ascii, List.Forall_rev. Qed.
Lemma split_once_ascii c s l r : ascii_text s -> split_once c s = Some (l, r) -> ascii_text r.
Proof.
  intros Hs. revert l. induction Hs as [|b s Hb Hs IH]; intros l; [done|]. cbn [split_once]. destruct (Byte.eqb b c); [by intros [= _ <-]|].
  destruct (split_once c s) as [[l' r']|]; [|done]. intros [= _ <-]. by apply (IH l').
Qed.

Lemma hex_bytes_ok n i s : ascii_text s -> 0 <= i -> 2 * (i + Z.of_nat n) <= len s -> safely (hex_bytes n i s) (opt_ok (fun k => len k = Z.of_nat n)).
Proof.
  intros Hs. revert i. induction n as [|n IH]; intros i Hi Hl; [done|]. cbn [hex_bytes]. unfold str_slice. rewrite !ascii_boundary by (done || lia). cbn [andb obind].
  destruct (from_str_radix 16 255 _) as [v|]; [|done]. apply safely_bind. eapply safely_mono; [apply IH; lia|]. intros [k|] Hk; [|done]. cbn in *. rewrite len_cons. lia.
Qed.
Lemma key_from_str_ok `{Base64} s : ascii_text s -> safely (key_from_str s) (opt_ok (fun k => len k = 32)).
Proof.
  intros Hs. unfold key_from_str. destruct (Z.eqb_spec (len s) 64); [by apply (hex_bytes_ok 32); [| |lia]|]. destruct (_ || _); [|done]. cbn.
  destruct (base64_decode s) as [k|]; [|done]. by destruct (Z.eqb_spec (len k) 32).
Qed.
Lemma with_key_ok `{Base64} {A} val (bad : A) f (Q : A -> Prop) : ascii_text val -> Q bad -> (forall k, len k = 32 -> safely (f k) Q) -> safely (with_key val bad f) Q.
Proof. intros Hv Hb Hf. unfold with_key. apply safely_bind. eapply safely_mono; [by apply key_from_str_ok|]. intros [k|] Hk; [by apply Hf|done]. Qed.

Lemma parse_range_ok val r : parse_uint_range val = Some r -> range_u32 r.
Proof.
  unfold parse_uint_range, parse_u32. assert (forall s v, from_str_radix 10 u32_max s = Some v -> in_u32 v) as Hp by (intros s v; by apply from_str_radix_range).
  destruct (split_once _ val) as [[s e]|].
  - destruct (from_str_radix _ _ (trim s)) as [a|] eqn:Ea; [|done]. cbn. destruct (from_str_radix _ _ (trim e)) as [b|] eqn:Eb; [|done]. cbn.
    destruct (_ >? _); [done|]. intros [= <-]. split; [by apply (Hp (trim s))|by apply (Hp (trim e))].
  - destruct (from_str_radix _ _ (trim val)) as [a|] eqn:Ea; [|done]. cbn. destruct (_ >? _); [done|]. intros [= <-]. by split; apply (Hp (trim val)).
Qed.
Lemma parse_tag_ok val r : parse_tag_range val = Some r -> range_u32 r.
Proof. unfold parse_tag_range. destruct (parse_uint_range val) as [[a b]|] eqn:E; [|done]. destruct (a =? 0); [done|]. intros [= <-]. by eapply parse_range_ok. Qed.
Lemma parse_allowed_ok val ip : parse_allowed_ip val = Some ip -> allowed_ip_ok ip.
Proof.
  unfold parse_allowed_ip. destruct (split _ val) as [|a [|c [|]]]; try done. destruct (parse_ip_addr a) as [[v4|v6]|] eqn:Ea; [| |done].
  all: destruct (parse_u8 c) as [n|] eqn:Ec; [|done]; destruct (n <=? _) eqn:El; [|done]; apply Z.leb_le in El; intros [= <-].
  all: apply parse_ip_ok in Ea; apply from_str_radix_range in Ec; [|done]; split; cbn; [done|lia].
Qed.

(** ** Staged parameters *)

Lemma params_default_ok : params_ok awg_default.
Proof. split; by repeat constructor. Qed.

Ltac params_tac := split; cbn; repeat first [apply List.Forall_nil|apply List.Forall_cons; [assumption|]]; try assumption.

Lemma awg_line_ok `{Base64} key val p : ascii_text val -> params_ok p -> safely (awg_line key val p) (opt_ok params_ok).
Proof.
  intros Hv [Hs Hh Hp Ht]. rewrite !List.Forall_cons_iff in Hs; rewrite !List.Forall_cons_iff in Hh; rewrite !List.Forall_cons_iff in Ht.
  destruct Hs as (? & ? & ? & ? & ? & ? & ? & _), Hh as (? & ? & ? & ? & _), Ht as (? & ? & ? & ? & ? & _).
  assert (forall s v, parse_u16 s = Some v -> in_u16 v) as Hsize by (intros s v; by apply from_str_radix_range).
  destruct key; try done; cbn [awg_line].
  - destruct (parse_u16 val) as [v|] eqn:E; [|done]. apply Hsize in E. destruct k; params_tac.
  - destruct (parse_tag_range val) as [r|] eqn:E; [|done]. apply parse_tag_ok in E. destruct k; params_tac.
  - destruct (parse_uint_range val) as [r|] eqn:E; [|done]. apply parse_range_ok in E. params_tac.
  - destruct (parse_go_bool val); [|done]. params_tac.
  - destruct (parse_go_bool val); [|done]. params_tac.
  - params_tac.
  - apply with_key_ok; [done|done|]. intros k Hk. params_tac.
  - destruct (parse_uint_range val) as [r|] eqn:E; [|done]. apply parse_range_ok in E. destruct k; params_tac.
Qed.

Section Safe.
Context `{Base64} `{CryptoLaws} {R : Type} `{RngLaws R} `{PrefixFillers R} `{!FillerLaws R} `{ImitationLaws} `{NetworkTableLaws}.
Implicit Types (d : Device R) (n : Node R) (h : Host R).

(** ** The device's own operations keep its MTU *)

Lemma set_key_mtu now seed key d d' : set_key now seed key d = Ret d' -> device_mtu d' = device_mtu d.
Proof.
  unfold set_key. case_bool_decide; [by intros [= <-]|]. destruct (for_peers _ _ d) as [d1|] eqn:E; [|done]. apply for_peers_store in E as [st ->]. by intros [= <-].
Qed.
Lemma clear_peers_mtu d d' : clear_peers d = Ret d' -> device_mtu d' = device_mtu d.
Proof. unfold clear_peers. destruct (for_peers _ _ _) as [d1|] eqn:E; [|done]. apply for_peers_store in E as [st ->]. by intros [= <-]. Qed.

Lemma awg_apply_ok k p d : device_ok k d -> 0 <= device_mtu d -> params_ok p -> safely (awg_apply p d) (fun r => device_ok k (snd r)).
Proof.
  intros Hd Hm Hp. unfold awg_apply. destruct (seen p); [|done]. cbn [negb]. destruct (merged _ _ _ _) as [[obf a]|e] eqn:E; [|done].
  destruct (do_config _ _ Hd) as (Ho & Hc & _). assert (in_u16 (Z.min (device_mtu d) u16_max)) as Hu by (unfold in_u16, u16_max; lia).
  destruct (merged_ok p _ _ _ _ _ Hp Ho Hc Hu E) as (Ho' & Hc' & Hv).
  apply safely_bind. eapply safely_mono; [apply (device_set_obfuscation_ok k); try done|by intros [? d'] (Hd' & _)].
  unfold validate in Hv. by destruct (check_header_protection_nonce a) as [[]|].
Qed.

(** ** Peer sections *)

Lemma commit_ok k h key sec d : device_ok k d -> Z.of_nat k + 1 < period -> Forall allowed_ip_ok (sec_allowed_ips sec) ->
  safely (commit_peer h key sec d) (fun r => exists k', (k' <= S k)%nat /\ device_ok k' (snd r)).
Proof.
  intros Hd Hk Hs. unfold commit_peer. destruct (_ && _); [exists k; split; [lia|done]|]. apply safely_bind.
  eapply safely_mono; [by apply (update_peer_ok k)|]. by intros [r d'] [Hd' _].
Qed.

Lemma section_line_ok key val sec : ascii_text val -> Forall allowed_ip_ok (sec_allowed_ips sec) ->
  safely (section_line key val sec) (opt_ok (fun sec => Forall allowed_ip_ok (sec_allowed_ips sec))).
Proof.
  intros Hv Hs. destruct key; cbn [section_line]; try done.
  - by destruct (parse_bool val).
  - by apply with_key_ok.
  - by destruct (parse_socket_addr val).
  - by destruct (parse_keepalive_interval val).
  - by destruct (parse_bool val).
  - destruct (match val with [] => false | _ => _ end); [done|]. destruct (parse_allowed_ip val) as [ip|] eqn:E; [|done]. cbn. apply Forall_app. split; [done|].
    constructor; [by apply (parse_allowed_ok val)|constructor].
  - destruct (parse_u32 val) as [v|]; [|done]. by destruct (v =? 1).
  - by case_bool_decide.
Qed.

Lemma set_peer_ok hosts ls k i key sec d : Forall ascii_text ls -> device_ok k d -> Z.of_nat k + Z.of_nat (length ls) + 1 < period ->
  Forall allowed_ip_ok (sec_allowed_ips sec) -> safely (api_set_peer i hosts ls key sec d) (fun r => exists k', (k' <= k + S (length ls))%nat /\ device_ok k' (snd r)).
Proof.
  intros Hls. revert k i key sec d. induction Hls as [|l ls Hl Hls IH]; intros k i key sec d Hd Hk Hs.
  { cbn [api_set_peer]. apply safely_bind. eapply safely_mono; [by apply (commit_ok k); [..|lia|]|]. intros [r d'] (k' & ? & ?). exists k'. cbn in *. split; [lia|done]. }
  cbn [api_set_peer length] in *. destruct (negb _); [exists k; split; [lia|done]|]. case_bool_decide.
  { apply safely_bind. eapply safely_mono; [by apply (commit_ok k); [..|lia|]|]. intros [r d'] (k' & ? & ?). exists k'. cbn in *. split; [lia|done]. }
  destruct (split_once _ (pop l)) as [[name val]|] eqn:E; [|exists k; split; [lia|done]].
  assert (ascii_text val) as Hv by (eapply split_once_ascii; [by apply pop_ascii_text|exact E]).
  destruct (find_key PEER_KEYS name) as [pk|]; [|exists k; split; [lia|done]].
  assert (safely (let! sec := section_line pk val sec in match sec with None => Ret (EINVAL, d) | Some sec => api_set_peer (S i) hosts ls key sec d end)
    (fun r => exists k', (k' <= k + S (S (length ls)))%nat /\ device_ok k' (snd r))) as Hline.
  { apply safely_bind. eapply safely_mono; [by apply section_line_ok|]. intros [sec'|] Hs'; [|exists k; split; [lia|done]].
    eapply safely_mono; [apply (IH k); try done; lia|]. intros [c d'] (k' & ? & ?). exists k'. split; [lia|done]. }
  destruct pk; try exact Hline. apply safely_bind. eapply safely_mono; [by apply (commit_ok k); [..|lia|]|]. intros [[u|c] d'] (k' & Hk' & Hd'); [|exists k'; split; [lia|done]].
  apply with_key_ok; [done|exists k'; split; [lia|done]|]. intros key' _. eapply safely_mono; [apply (IH k'); [done|lia|constructor]|].
  intros [c d''] (k'' & ? & ?). exists k''. split; [lia|done].
Qed.

(** ** The interface section *)

Lemma node_line_ok k h key val n : ascii_text val -> device_ok k (device n) ->
  safely (node_line h key val n) (fun r => device_ok k (device (snd r)) /\ device_mtu (device (snd r)) = device_mtu (device n)).
Proof.
  intros Hv Hd. destruct key; cbn [node_line]; try done.
  - apply with_key_ok; [done..|]. intros key _. apply safely_bind. pose proof (set_key_ok k (device n) (host_now h) (host_limiter h) key Hd) as Hok.
    destruct (set_key _ _ _ _) as [d'|] eqn:E; [|done]. apply set_key_mtu in E. split; [apply Hok|done].
  - destruct (parse_u16 val) as [port|]; [|done]. apply safely_bind. eapply safely_mono; [by apply (open_listen_sound k)|]. by intros [r n'].
  - destruct (parse_u32 val) as [mark|]; [|done]. unfold set_fwmark. destruct (read_marks _ _ _ _); [|done]. by destruct (apply_marks _ _ _ _ _ _ _) as [[e|] m].
  - destruct (parse_bool val) as [[|]|]; [|done..]. apply safely_bind. pose proof (clear_peers_ok k (device n) Hd) as Hok.
    destruct (clear_peers _) as [d'|] eqn:E; [|done]. apply clear_peers_mtu in E. split; [apply Hok|done].
Qed.

Lemma set_interface_ok hosts ls k i awg n : Forall ascii_text ls -> device_ok k (device n) -> 0 <= device_mtu (device n) ->
  Z.of_nat k + Z.of_nat (length ls) < period -> params_ok awg ->
  safely (set_interface i hosts ls awg n) (fun r => exists k', (k' <= k + length ls)%nat /\ device_ok k' (device (snd r))).
Proof.
  intros Hls. revert k i awg n. induction Hls as [|l ls Hl Hls IH]; intros k i awg n Hd Hm Hk Hp.
  { cbn [set_interface]. apply safely_bind. eapply safely_mono; [by apply (awg_apply_ok k)|]. intros [r d'] Hd'. exists k. split; [lia|done]. }
  cbn [set_interface length] in *. destruct (negb _); [exists k; split; [lia|done]|]. case_bool_decide.
  { apply safely_bind. eapply safely_mono; [by apply (awg_apply_ok k)|]. intros [r d'] Hd'. exists k. split; [lia|done]. }
  destruct (split_once _ (pop l)) as [[name val]|] eqn:E; [|exists k; split; [lia|done]].
  assert (ascii_text val) as Hv by (eapply split_once_ascii; [by apply pop_ascii_text|exact E]).
  destruct (find_key INTERFACE_KEYS name) as [ik|]; [|exists k; split; [lia|done]].
  assert (safely (let! awg := awg_line ik val awg in match awg with None => Ret (EINVAL, n) | Some awg => set_interface (S i) hosts ls awg n end)
    (fun r => exists k', (k' <= k + S (length ls))%nat /\ device_ok k' (device (snd r)))) as Hstage.
  { apply safely_bind. eapply safely_mono; [by apply awg_line_ok|]. intros [awg'|] Hs'; [|exists k; split; [lia|done]].
    eapply safely_mono; [apply (IH k); try done; lia|]. intros [c n'] (k' & ? & ?). exists k'. split; [lia|done]. }
  assert (safely (let! (r, n) := node_line (hosts i) ik val n in match r with Err code => Ret (code, n) | Ok _ => set_interface (S i) hosts ls awg n end)
    (fun r => exists k', (k' <= k + S (length ls))%nat /\ device_ok k' (device (snd r)))) as Hnode.
  { apply safely_bind. eapply safely_mono; [by apply (node_line_ok k)|]. intros [[u|c] n'] [Hd' Hm']; cbn in *; [|exists k; split; [lia|done]].
    eapply safely_mono; [apply (IH k); try done; lia|]. intros [c n''] (k' & ? & ?). exists k'. split; [lia|done]. }
  destruct ik; try exact Hstage; try exact Hnode. apply with_key_ok; [done|exists k; split; [lia|done]|]. intros key _. apply safely_bind.
  eapply safely_mono; [by apply (awg_apply_ok k)|]. intros [[u|c] d'] Hd'; [|exists k; split; [lia|done]]. apply safely_bind.
  eapply safely_mono; [apply (set_peer_ok hosts ls k); [done|done|lia|constructor]|]. intros [c d''] (k' & ? & ?). exists k'. split; [cbn in *; lia|done].
Qed.
End Safe.
