(* ===== verification/UapiRoundtrip.v ===== *)
(** What [get=1] prints of the interface's AmneziaWG parameters, set again: the
    printed lines are settings, the settings stage every parameter that is not
    at its default, and merging them over the defaults gives the configuration
    they were printed from. *)

From Stdlib Require Import String.
From stdpp Require Import gmap functions.
From S2P Require Import Prelude Budget Instant Crypto Rand Tags Packet Session RateLimiter HeaderProtection Amnezia Framing Sip Text.
From S2P Require Import Handshake Imitation Timers OpReport Tunn TunnReceive TunnTick TunnConfig Stun ReplyPolicy.
From S2P Require Import ProbeBudget ProbeReply ImitationHints AllowedIps PeerIndex Peer Device DeviceTables Listeners ListenerTheorems AddrText Uapi UapiSpec UapiSafe.

Local Open Scope list_scope.

(** ** The settings printed *)

Definition tag_pair (r : TagRange) : Z * Z := (start r, end_ r).

(** Each parameter with whether it is left out. *)
Definition printed (obf : ObfuscationRanges) (a : AmneziaConfig) : list (bool * Setting) :=
  let j := pre_handshake_junk a in
  let t := timers a in
  let size k v := (v =? 0, SetSize k v) in
  let unset (r : Z * Z) := bool_decide (r = (0, 0)) in
  [size Jc (packet_count j); size Jmin (packet_size_min j); size Jmax (packet_size_max j); size S1 (init_packet_junk_size a);
   size S2 (response_packet_junk_size a); size S3 (cookie_packet_junk_size a); size S4 (transport_packet_junk_size a);
   (negb (hp_is_set (header_protection a)), SetProtection (header_protection a));
   (bool_decide (h1_init obf = h1_init obf_default), SetHeader H1 (tag_pair (h1_init obf)));
   (bool_decide (h2_resp obf = h2_resp obf_default), SetHeader H2 (tag_pair (h2_resp obf)));
   (bool_decide (h3_cookie obf = h3_cookie obf_default), SetHeader H3 (tag_pair (h3_cookie obf)));
   (bool_decide (h4_data obf = h4_data obf_default), SetHeader H4 (tag_pair (h4_data obf)));
   (unset (content_padding_addition a), SetPadding (content_padding_addition a));
   (unset (rekey_after_time t), SetTimer RekeyAfterTime (rekey_after_time t));
   (unset (rekey_timeout t), SetTimer RekeyTimeout (rekey_timeout t));
   (unset (reject_after_time t), SetTimer RejectAfterTime (reject_after_time t));
   (unset (keepalive_timeout t), SetTimer KeepaliveTimeout (keepalive_timeout t));
   (unset (max_handshake_attempts t), SetTimer MaxHandshakeAttempts (max_handshake_attempts t));
   (negb (random_trailers a), SetTrailers true); (negb (disable_cookies a), SetCookies true)].
Definition kept_settings (l : list (bool * Setting)) : list Setting := concat (map (fun '(out, st) => if out : bool then [] else [st]) l).

Lemma printed_text obf a : write_awg_interface_params obf a = settings_text (kept_settings (printed obf a)).
Proof.
  assert (forall l, settings_text (kept_settings l) = concat (map (fun '(out, st) => if out : bool then [] else setting_line st) l)) as ->.
  { intros l. unfold settings_text, kept_settings. induction l as [|[[] st] l IH]; [done|done|]. cbn. by rewrite IH. }
  unfold write_awg_interface_params, printed, write_range, setting_line, hp_to_hex. cbn [map concat setting_name setting_value size_name header_name timer_name tag_pair fst snd].
  rewrite !app_nil_r, <- !app_assoc. unfold hex_encode. repeat f_equal; by destruct (_ : bool).
Qed.

Definition stage_unless (p : AwgParams) (x : bool * Setting) : AwgParams := if fst x then p else stage p (snd x).

Lemma staged_fold l p : fold_left stage (kept_settings l) p = fold_left stage_unless l p.
Proof. revert p. induction l as [|[[] st] l IH]; intros p; [done|..]; apply IH. Qed.

(** ** Fields of the staged parameters *)

Lemma staged_skip {A} (f : AwgParams -> A) (out : bool) st p : f (stage p st) = f p -> f (stage_unless p (out, st)) = f p.
Proof. by destruct out. Qed.
Lemma staged_hit {A} (f : AwgParams -> option A) (out : bool) st p v : f p = None -> f (stage p st) = Some v ->
  f (stage_unless p (out, st)) = if out then None else Some v.
Proof. by destruct out. Qed.
Lemma staged_seen (out : bool) st p : seen (stage_unless p (out, st)) = negb out || seen p.
Proof. by destruct out, st. Qed.
Lemma seen_kept l p : seen p = true -> seen (fold_left stage_unless l p) = true.
Proof. revert p. induction l as [|[out st] l IH]; intros p Hp; [done|]. apply IH. rewrite staged_seen, Hp. by destruct out. Qed.
Lemma nothing_seen l p : seen (fold_left stage_unless l p) = false -> fold_left stage_unless l p = p.
Proof.
  induction l as [|[out st] l IH]; [done|]. cbn [fold_left]. destruct out; [exact IH|]. rewrite seen_kept; [done|]. by rewrite staged_seen.
Qed.

Ltac staged_field f := unfold printed; cbn [fold_left]; repeat (rewrite (staged_skip f) by reflexivity); apply (staged_hit f); [|reflexivity]; repeat (rewrite (staged_skip f) by reflexivity); reflexivity.

Record stages (obf : ObfuscationRanges) (a : AmneziaConfig) (p : AwgParams) : Prop := {
  st_jc : p_jc p = if packet_count (pre_handshake_junk a) =? 0 then None else Some (packet_count (pre_handshake_junk a));
  st_jmin : p_jmin p = if packet_size_min (pre_handshake_junk a) =? 0 then None else Some (packet_size_min (pre_handshake_junk a));
  st_jmax : p_jmax p = if packet_size_max (pre_handshake_junk a) =? 0 then None else Some (packet_size_max (pre_handshake_junk a));
  st_s1 : p_s1 p = if init_packet_junk_size a =? 0 then None else Some (init_packet_junk_size a);
  st_s2 : p_s2 p = if response_packet_junk_size a =? 0 then None else Some (response_packet_junk_size a);
  st_s3 : p_s3 p = if cookie_packet_junk_size a =? 0 then None else Some (cookie_packet_junk_size a);
  st_s4 : p_s4 p = if transport_packet_junk_size a =? 0 then None else Some (transport_packet_junk_size a);
  st_hp : p_header_protection p = if negb (hp_is_set (header_protection a)) then None else Some (header_protection a);
  st_h1 : p_h1 p = if bool_decide (h1_init obf = h1_init obf_default) then None else Some (tag_pair (h1_init obf));
  st_h2 : p_h2 p = if bool_decide (h2_resp obf = h2_resp obf_default) then None else Some (tag_pair (h2_resp obf));
  st_h3 : p_h3 p = if bool_decide (h3_cookie obf = h3_cookie obf_default) then None else Some (tag_pair (h3_cookie obf));
  st_h4 : p_h4 p = if bool_decide (h4_data obf = h4_data obf_default) then None else Some (tag_pair (h4_data obf));
  st_pad : p_content_padding p = if bool_decide (content_padding_addition a = (0, 0)) then None else Some (content_padding_addition a);
  st_after : p_rekey_after_time p = if bool_decide (rekey_after_time (timers a) = (0, 0)) then None else Some (rekey_after_time (timers a));
  st_rekey : p_rekey_timeout p = if bool_decide (rekey_timeout (timers a) = (0, 0)) then None else Some (rekey_timeout (timers a));
  st_reject : p_reject_after_time p = if bool_decide (reject_after_time (timers a) = (0, 0)) then None else Some (reject_after_time (timers a));
  st_keep : p_keepalive_timeout p = if bool_decide (keepalive_timeout (timers a) = (0, 0)) then None else Some (keepalive_timeout (timers a));
  st_attempts : p_max_handshake_attempts p = if bool_decide (max_handshake_attempts (timers a) = (0, 0)) then None else Some (max_handshake_attempts (timers a));
  st_trailers : p_random_trailers p = if negb (random_trailers a) then None else Some true;
  st_cookies : p_disable_cookies p = if negb (disable_cookies a) then None else Some true;
}.

Lemma printed_stages obf a : stages obf a (fold_left stage (kept_settings (printed obf a)) awg_default).
Proof.
  rewrite staged_fold. split.
  - staged_field p_jc.
  - staged_field p_jmin.
  - staged_field p_jmax.
  - staged_field p_s1.
  - staged_field p_s2.
  - staged_field p_s3.
  - staged_field p_s4.
  - staged_field p_header_protection.
  - staged_field p_h1.
  - staged_field p_h2.
  - staged_field p_h3.
  - staged_field p_h4.
  - staged_field p_content_padding.
  - staged_field p_rekey_after_time.
  - staged_field p_rekey_timeout.
  - staged_field p_reject_after_time.
  - staged_field p_keepalive_timeout.
  - staged_field p_max_handshake_attempts.
  - staged_field p_random_trailers.
  - staged_field p_disable_cookies.
Qed.

(** ** Configurations a request can have made *)

Definition ordered (r : Z * Z) : Prop := fst r <= snd r.

Record printable (obf : ObfuscationRanges) (a : AmneziaConfig) : Prop := {
  pr_obf : obf_ok obf;
  pr_tags : Forall (fun r => 0 < start r) (obf_ranges obf);
  pr_config : config_ok a;
  pr_valid : validate a = Ok tt;
  pr_junk : let j := pre_handshake_junk a in junk_new (packet_count j) (packet_size_min j) (packet_size_max j) (packet_delay_ms j) = j;
  pr_padding : ordered (content_padding_addition a);
  pr_timers : let t := timers a in
    Forall ordered [rekey_after_time t; rekey_timeout t; reject_after_time t; keepalive_timeout t; max_handshake_attempts t];
  pr_key : len (header_protection a) = 32;
}.

(** [a] with every parameter the protocol prints at its default. *)
Definition blank (a : AmneziaConfig) : AmneziaConfig := {|
  init_packet_junk_size := 0; response_packet_junk_size := 0; cookie_packet_junk_size := 0; transport_packet_junk_size := 0;
  pre_handshake_junk := {| packet_count := 0; packet_size_min := 0; packet_size_max := 0; packet_delay_ms := packet_delay_ms (pre_handshake_junk a) |};
  imitation := imitation a; suppress_pre_handshake := suppress_pre_handshake a; header_protection := zeros 32;
  content_padding_addition := (0, 0); content_padding_mtu := content_padding_mtu a; timers := timers_default;
  random_trailers := false; disable_cookies := false |}.

Lemma obf_new_id obf : obf_ok obf -> Forall (fun r => 0 < start r) (obf_ranges obf) ->
  obf_new (start (h1_init obf)) (end_ (h1_init obf)) (start (h2_resp obf)) (end_ (h2_resp obf)) (start (h3_cookie obf)) (end_ (h3_cookie obf))
    (start (h4_data obf)) (end_ (h4_data obf)) = Ok obf.
Proof.
  intros [Hr H12 H13 H14 H23 H24 H34] Ht. unfold obf_ranges in *. rewrite !List.Forall_cons_iff in Hr. rewrite !List.Forall_cons_iff in Ht.
  destruct Hr as (R1 & R2 & R3 & R4 & _), Ht as (T1 & T2 & T3 & T4 & _).
  assert (forall i t d, range_ok t -> 0 < start t -> resolve i (start t) (end_ t) d = Ok t) as Hres.
  { intros i [s e] d Hok Hs. unfold resolve, range_ok in *. cbn in *. destruct (Z.eqb_spec s 0); [lia|]. destruct (Z.eqb_spec e 0); [lia|]. cbn.
    by destruct (Z.leb_spec s e); [|lia]. }
  unfold obf_new. rewrite !Hres by done. cbn [rbind].
  apply overlaps_false in H12, H13, H14, H23, H24, H34; try done.
  cbn [check_overlaps check_against check_pair]. rewrite H12, H13, H14, H23, H24, H34. by destruct obf.
Qed.

Lemma default_nz v : default 0 (if v =? 0 then None else Some v) = v.
Proof. by destruct (Z.eqb_spec v 0) as [->|]. Qed.
Lemma default_unset (r : Z * Z) : default (0, 0) (if bool_decide (r = (0, 0)) then None else Some r) = r.
Proof. by case_bool_decide as E; [rewrite E|]. Qed.
Lemma default_tag r def : default (start def, end_ def) (if bool_decide (r = def) then None else Some (tag_pair r)) = tag_pair r.
Proof. by case_bool_decide as E; [rewrite E|]. Qed.
Lemma default_on (b : bool) : default false (if negb b then None else Some true) = b.
Proof. by destruct b. Qed.
Lemma ordered_id r : ordered r -> (Z.min (fst r) (snd r), Z.max (fst r) (snd r)) = r.
Proof. destruct r as [lo hi]. unfold ordered. cbn. intros Ho. f_equal; lia. Qed.

Lemma merged_back obf a p : printable obf a -> stages obf a p -> merged p obf_default (blank a) (content_padding_mtu a) = Ok (obf, a).
Proof.
  intros [Ho Htags Hc Hv Hj Hpad Ht Hk] []. rewrite !List.Forall_cons_iff in Ht. destruct Ht as (T1 & T2 & T3 & T4 & T5 & _).
  unfold merged. cbv zeta. rewrite st_h5, st_h6, st_h7, st_h8, !default_tag. cbn [tag_pair fst snd]. rewrite obf_new_id by done.
  set (x := match p_header_protection p with Some _ => _ | None => _ end).
  assert (x = with_header_protection (header_protection a) (with_pre_handshake_junk (packet_count (pre_handshake_junk a)) (packet_size_min (pre_handshake_junk a))
    (packet_size_max (pre_handshake_junk a)) (packet_delay_ms (pre_handshake_junk a)) (set_sizes (init_packet_junk_size a) (response_packet_junk_size a)
    (cookie_packet_junk_size a) (transport_packet_junk_size a) (blank a)))) as ->.
  { unfold x. rewrite st_jc0, st_jmin0, st_jmax0, st_s5, st_s6, st_s7, st_s8, st_hp0. cbn [blank init_packet_junk_size response_packet_junk_size
      cookie_packet_junk_size transport_packet_junk_size pre_handshake_junk packet_count packet_size_min packet_size_max packet_delay_ms]. rewrite !default_nz.
    unfold hp_is_set. destruct (bool_decide_reflect (header_protection a <> zeros 32)) as [E|E]; cbn [negb]; [done|]. apply dec_stable in E. by rewrite E. }
  rewrite st_pad0, st_trailers0, st_cookies0, st_after0, st_rekey0, st_reject0, st_keep0, st_attempts0.
  cbn [with_header_protection with_pre_handshake_junk set_sizes blank content_padding_addition]. rewrite default_unset.
  destruct (content_padding_addition a) as [lo hi] eqn:Ep. cbn. rewrite !default_unset, !default_on. 
  set (x := with_tunable_timers _ _). assert (x = a) as ->; [|by rewrite Hv]. unfold x, with_tunable_timers, normalize_range. cbn. rewrite !ordered_id by done.
  pose proof (ordered_id _ Hpad) as Hpad'. cbn in Hpad'. rewrite Hpad', Hj, <- Ep. clear. by destruct a as [z1 z2 z3 z4 j im sup hp pad mtu [t1 t2 t3 t4 t5] rt dc].
Qed.

(** ** What a request makes is printable *)

Record params_given (p : AwgParams) : Prop := {
  pg_ok : params_ok p;
  pg_tags : Forall (opt_ok (fun r => 0 < fst r)) [p_h1 p; p_h2 p; p_h3 p; p_h4 p];
  pg_key : opt_ok (fun k => len k = 32) (p_header_protection p);
  pg_ordered : Forall (opt_ok ordered) [p_h1 p; p_h2 p; p_h3 p; p_h4 p; p_content_padding p; p_rekey_after_time p; p_rekey_timeout p; p_reject_after_time p;
    p_keepalive_timeout p; p_max_handshake_attempts p];
}.

Ltac given_tac := cbn; repeat (apply List.Forall_cons; [assumption|]); apply List.Forall_nil.

Lemma stage_given p st : params_given p -> setting_ok st -> params_given (stage p st).
Proof.
  intros [[Hs Hh Hp Ht] Hg Hk Hord] Hst. rewrite !List.Forall_cons_iff in Hord. destruct Hord as (? & ? & ? & ? & ? & ? & ? & ? & ? & ? & _). rewrite !List.Forall_cons_iff in Hs; rewrite !List.Forall_cons_iff in Hh; rewrite !List.Forall_cons_iff in Ht; rewrite !List.Forall_cons_iff in Hg.
  destruct Hs as (? & ? & ? & ? & ? & ? & ? & _), Hh as (? & ? & ? & ? & _), Ht as (? & ? & ? & ? & ? & _), Hg as (? & ? & ? & ? & _).
  assert (forall r, range_ok32 r -> range_u32 r /\ ordered r) as Hr by (intros r (? & ? & ?); split; [by split|done]).
  destruct st as [k v|k r|r|k r|b|b|key]; cbn [setting_ok stage] in *; [|destruct Hst as [[Hst Hor]%Hr Hpos]|apply Hr in Hst as [Hst Hor]|apply Hr in Hst as [Hst Hor]|..].
  all: try destruct k; (split; [params_tac|given_tac|assumption|given_tac]).
Qed.
Lemma staged_given ss p : params_given p -> Forall setting_ok ss -> params_given (fold_left stage ss p).
Proof. intros Hp Hss. revert p Hp. induction Hss as [|st ss Hst Hss IH]; intros p Hp; [done|]. by apply IH, stage_given. Qed.
Lemma default_given : params_given awg_default.
Proof. split; [apply params_default_ok|by repeat constructor|done|by repeat constructor]. Qed.

Lemma junk_new_idem count lo hi delay : let j := junk_new count lo hi delay in
  junk_new (packet_count j) (packet_size_min j) (packet_size_max j) (packet_delay_ms j) = j.
Proof.
  unfold junk_new. set (c := if count <=? _ then count else 0). set (dl := if delay <=? _ then delay else 0).
  assert ((if c <=? MAX_JUNK_PACKET_COUNT then c else 0) = c) as Hc by (unfold c; destruct (count <=? _) eqn:E; [by rewrite E|done]).
  assert ((if dl <=? MAX_JUNK_PACKET_DELAY_MS then dl else 0) = dl) as Hdl by (unfold dl; destruct (delay <=? _) eqn:E; [by rewrite E|done]).
  clearbody c dl. destruct (c =? 0) eqn:Ec.
  - cbv zeta. cbn [packet_count packet_size_min packet_size_max packet_delay_ms]. by rewrite Hc, Hdl, Ec.
  - destruct ((lo =? 0) && (hi =? 0)) eqn:E0; [|destruct ((0 <? lo) && (lo <=? hi) && (hi <=? MAX_JUNK_PACKET_SIZE)) eqn:E1];
      cbv zeta; cbn [packet_count packet_size_min packet_size_max packet_delay_ms]; rewrite Hc, Hdl, Ec; [done|by rewrite E0, E1|done].
Qed.

Lemma resolve_positive i s e def t : 0 < s -> resolve i s e def = Ok t -> 0 < start t.
Proof.
  intros Hs. unfold resolve. destruct (Z.eqb_spec s 0); [lia|]. cbn. destruct (e =? 0); [by intros [= <-]|]. destruct (s <=? e); [by intros [= <-]|done].
Qed.
Lemma obf_new_positive s1 e1 s2 e2 s3 e3 s4 e4 obf : 0 < s1 -> 0 < s2 -> 0 < s3 -> 0 < s4 -> obf_new s1 e1 s2 e2 s3 e3 s4 e4 = Ok obf ->
  Forall (fun r => 0 < start r) (obf_ranges obf).
Proof.
  intros P1 P2 P3 P4. unfold obf_new. destruct (resolve 1 s1 e1 _) as [t1|] eqn:E1; [|done]. destruct (resolve 2 s2 e2 _) as [t2|] eqn:E2; [|done].
  destruct (resolve 3 s3 e3 _) as [t3|] eqn:E3; [|done]. destruct (resolve 4 s4 e4 _) as [t4|] eqn:E4; [|done]. cbn [rbind]. destruct (check_overlaps _); [done|]. intros [= <-].
  repeat (apply List.Forall_cons; [cbn; eapply resolve_positive; [|eassumption]; done|]). apply List.Forall_nil.
Qed.

Lemma merged_printable p obf c mtu obf' c' : params_given p -> printable obf c -> in_u16 mtu -> merged p obf c mtu = Ok (obf', c') -> printable obf' c'.
Proof.
  intros [Hp Hg Hk _] [Ho Htags Hc _ _ _ _ Hk0] Hm E. destruct (merged_ok _ _ _ _ _ _ Hp Ho Hc Hm E) as (Ho' & Hc' & Hv').
  unfold obf_ranges in Htags. rewrite !List.Forall_cons_iff in Hg; rewrite !List.Forall_cons_iff in Htags.
  destruct Hg as (G1 & G2 & G3 & G4 & _), Htags as (T1 & T2 & T3 & T4 & _).
  assert (forall o t, opt_ok (fun r => 0 < fst r) o -> 0 < start t -> 0 < fst (default (start t, end_ t) o)) as Hpos by (intros [r|] t; done).
  unfold merged in E. cbv zeta in E. destruct (obf_new _ _ _ _ _ _ _ _) as [o|] eqn:Eo; [|done]. apply obf_new_positive in Eo; [|by apply Hpos..].
  set (x := match p_header_protection p with Some _ => _ | None => _ end) in E.
  assert (len (header_protection x) = 32 /\ let j := pre_handshake_junk x in junk_new (packet_count j) (packet_size_min j) (packet_size_max j) (packet_delay_ms j) = j) as [Hx1 Hx2].
  { unfold x. destruct (p_header_protection p) as [key|]; cbn; (split; [done|apply junk_new_idem]). }
  destruct (default (content_padding_addition x) (p_content_padding p)) as [lo hi]. destruct (validate _) in E; [|done]. injection E as <- <-.
  split; [done..| | |by cbn]; unfold ordered; cbn; [lia|]. repeat (apply List.Forall_cons; [cbn; lia|]). apply List.Forall_nil.
Qed.

(** ** Each parameter on its own *)

#[export] Instance SizeKey_eq_dec : EqDecision SizeKey.
Proof. solve_decision. Defined.
#[export] Instance HeaderKey_eq_dec : EqDecision HeaderKey.
Proof. solve_decision. Defined.
#[export] Instance TimerKey_eq_dec : EqDecision TimerKey.
Proof. solve_decision. Defined.
#[export] Instance InterfaceKey_eq_dec : EqDecision InterfaceKey.
Proof. solve_decision. Defined.

(** The setting staged for a key, and the setting a configuration holds. *)
Definition staged_at (key : InterfaceKey) (p : AwgParams) : option Setting :=
  match key with
  | Size Jc => SetSize Jc <$> p_jc p | Size Jmin => SetSize Jmin <$> p_jmin p | Size Jmax => SetSize Jmax <$> p_jmax p
  | Size S1 => SetSize S1 <$> p_s1 p | Size S2 => SetSize S2 <$> p_s2 p | Size S3 => SetSize S3 <$> p_s3 p | Size S4 => SetSize S4 <$> p_s4 p
  | Header H1 => SetHeader H1 <$> p_h1 p | Header H2 => SetHeader H2 <$> p_h2 p | Header H3 => SetHeader H3 <$> p_h3 p | Header H4 => SetHeader H4 <$> p_h4 p
  | ContentPadding => SetPadding <$> p_content_padding p
  | RandomTrailers => SetTrailers <$> p_random_trailers p
  | DisableCookies => SetCookies <$> p_disable_cookies p
  | HeaderProtectionKey => SetProtection <$> p_header_protection p
  | TimerRange RekeyAfterTime => SetTimer RekeyAfterTime <$> p_rekey_after_time p
  | TimerRange RekeyTimeout => SetTimer RekeyTimeout <$> p_rekey_timeout p
  | TimerRange RejectAfterTime => SetTimer RejectAfterTime <$> p_reject_after_time p
  | TimerRange KeepaliveTimeout => SetTimer KeepaliveTimeout <$> p_keepalive_timeout p
  | TimerRange MaxHandshakeAttempts => SetTimer MaxHandshakeAttempts <$> p_max_handshake_attempts p
  | PrivateKey | ListenPort | Fwmark | ReplacePeers | NewPeer | Signature => None
  end.
Definition held (key : InterfaceKey) (obf : ObfuscationRanges) (a : AmneziaConfig) : option Setting :=
  let j := pre_handshake_junk a in
  let t := timers a in
  match key with
  | Size k => Some (SetSize k match k with
      | Jc => packet_count j | Jmin => packet_size_min j | Jmax => packet_size_max j
      | S1 => init_packet_junk_size a | S2 => response_packet_junk_size a | S3 => cookie_packet_junk_size a | S4 => transport_packet_junk_size a
      end)
  | Header k => Some (SetHeader k (tag_pair match k with H1 => h1_init obf | H2 => h2_resp obf | H3 => h3_cookie obf | H4 => h4_data obf end))
  | ContentPadding => Some (SetPadding (content_padding_addition a))
  | RandomTrailers => Some (SetTrailers (random_trailers a))
  | DisableCookies => Some (SetCookies (disable_cookies a))
  | HeaderProtectionKey => Some (SetProtection (header_protection a))
  | TimerRange k => Some (SetTimer k match k with
      | RekeyAfterTime => rekey_after_time t | RekeyTimeout => rekey_timeout t | RejectAfterTime => reject_after_time t
      | KeepaliveTimeout => keepalive_timeout t | MaxHandshakeAttempts => max_handshake_attempts t
      end)
  | PrivateKey | ListenPort | Fwmark | ReplacePeers | NewPeer | Signature => None
  end.
(** The junk packets' numbers are taken together. *)
Definition junk_key (key : InterfaceKey) : bool := match key with Size (Jc | Jmin | Jmax) => true | _ => false end.

Lemma staged_at_stage key p st : staged_at key (stage p st) = if decide (setting_key st = key) then Some st else staged_at key p.
Proof.
  destruct (decide (setting_key st = key)) as [<-|Hne]; [by destruct st as [[]|[]| |[]| | |]|].
  destruct st as [[]|[]| |[]| | |]; destruct key as [| | | | |[]|[]| | | | | |[]]; done.
Qed.

(** The setting given for a key. *)
Definition given (ss : list Setting) (key : InterfaceKey) : option Setting := List.find (fun st => bool_decide (setting_key st = key)) ss.

Lemma given_none ss key : key ∉ map setting_key ss -> given ss key = None.
Proof.
  induction ss as [|st ss IH]; [done|]. cbn [map]. intros [Hk Hn]%not_elem_of_cons. unfold given. cbn [List.find]. rewrite bool_decide_eq_false_2 by congruence. by apply IH.
Qed.
Lemma staged_given_at ss p key : NoDup (map setting_key ss) -> staged_at key (fold_left stage ss p) = given ss key ∪ staged_at key p.
Proof.
  revert p. induction ss as [|st ss IH]; intros p Hn; [cbn [fold_left given List.find]; by destruct (staged_at key p)|]. cbn [map fold_left] in *. apply NoDup_cons in Hn as [Hni Hn].
  rewrite IH by done. rewrite staged_at_stage. unfold given at 2. cbn [List.find]. fold (given ss key). destruct (decide (setting_key st = key)) as [<-|Hne].
  - rewrite bool_decide_eq_true_2 by done. rewrite given_none by done. by destruct (staged_at (setting_key st) p).
  - by rewrite bool_decide_eq_false_2.
Qed.

(** Settings of different keys, in any order. *)
Lemma stage_comm p st st' : setting_key st <> setting_key st' -> stage (stage p st) st' = stage (stage p st') st.
Proof. destruct st as [[]|[]| |[]| | |]; destruct st' as [[]|[]| |[]| | |]; done. Qed.
Lemma staged_permutation ss ss' p : NoDup (map setting_key ss) -> Permutation ss ss' -> fold_left stage ss p = fold_left stage ss' p.
Proof.
  intros Hn Hp. revert p Hn. induction Hp as [|st ss ss' Hp IH|st st' ss|ss1 ss2 ss3 Hp1 IH1 Hp2 IH2]; intros p Hn; [done|..].
  - cbn in *. apply NoDup_cons in Hn as [_ Hn]. by apply IH.
  - cbn in *. apply NoDup_cons in Hn as [Hni _]. rewrite stage_comm; [done|]. intros E. apply Hni. rewrite E. by left.
  - rewrite IH1 by done. apply IH2. by rewrite <- Hp1.
Qed.

Lemma resolve_given i s e def t : 0 < s -> s <= e -> resolve i s e def = Ok t -> t = {| start := s; end_ := e |}.
Proof.
  intros Hs He. unfold resolve. destruct (Z.eqb_spec s 0); [lia|]. cbn. destruct (Z.eqb_spec e 0); [lia|]. destruct (s <=? e); [by intros [= <-]|done].
Qed.
Lemma obf_new_given s1 e1 s2 e2 s3 e3 s4 e4 obf : 0 < s1 <= e1 -> 0 < s2 <= e2 -> 0 < s3 <= e3 -> 0 < s4 <= e4 -> obf_new s1 e1 s2 e2 s3 e3 s4 e4 = Ok obf ->
  obf = {| h1_init := {| start := s1; end_ := e1 |}; h2_resp := {| start := s2; end_ := e2 |}; h3_cookie := {| start := s3; end_ := e3 |}; h4_data := {| start := s4; end_ := e4 |} |}.
Proof.
  intros [] [] [] []. unfold obf_new. destruct (resolve 1 s1 e1 _) as [t1|] eqn:E1; [|done]. destruct (resolve 2 s2 e2 _) as [t2|] eqn:E2; [|done].
  destruct (resolve 3 s3 e3 _) as [t3|] eqn:E3; [|done]. destruct (resolve 4 s4 e4 _) as [t4|] eqn:E4; [|done].
  apply resolve_given in E1 as ->, E2 as ->, E3 as ->, E4 as ->; try done. cbn [rbind]. destruct (check_overlaps _); [done|]. by intros [= <-].
Qed.

(** What a merge holds: the parameters staged, and the others as they were. *)
Lemma merged_held p obf c mtu obf' c' key : params_given p -> printable obf c -> merged p obf c mtu = Ok (obf', c') ->
  junk_key key = false -> held key obf' c' = staged_at key p ∪ held key obf c.
Proof.
  intros [_ Hg _ Hord] [Ho Htags _ _ _ Hpad Ht _] E Hj. pose proof (obf_in_range _ Ho) as Hr. unfold obf_ranges in *.
  rewrite !List.Forall_cons_iff in Hg; rewrite !List.Forall_cons_iff in Htags; rewrite !List.Forall_cons_iff in Hord; rewrite !List.Forall_cons_iff in Ht; rewrite !List.Forall_cons_iff in Hr.
  destruct Hg as (G1 & G2 & G3 & G4 & _), Htags as (T1 & T2 & T3 & T4 & _), Hord as (O1 & O2 & O3 & O4 & O5 & O6 & O7 & O8 & O9 & O10 & _), Ht as (D1 & D2 & D3 & D4 & D5 & _),
    Hr as (R1 & R2 & R3 & R4 & _).
  assert (forall o t, opt_ok (fun r => 0 < fst r) o -> opt_ok ordered o -> 0 < start t -> range_ok t ->
    0 < fst (default (start t, end_ t) o) <= snd (default (start t, end_ t) o)) as Htag by (intros [r|] t; unfold ordered, range_ok; cbn; lia).
  assert (forall o d, opt_ok ordered o -> ordered d -> (Z.min (fst (default d o)) (snd (default d o)), Z.max (fst (default d o)) (snd (default d o))) = default d o) as Hran
    by (intros [r|] d' ? ?; by apply ordered_id).
  unfold merged in E. cbv zeta in E. destruct (obf_new _ _ _ _ _ _ _ _) as [o|] eqn:Eo; [|done]. apply obf_new_given in Eo; [|by apply Htag..]. subst o.
  set (x := match p_header_protection p with Some _ => _ | None => _ end) in E.
  assert (content_padding_addition x = content_padding_addition c /\ timers x = timers c /\ random_trailers x = random_trailers c /\ disable_cookies x = disable_cookies c /\
    header_protection x = default (header_protection c) (p_header_protection p) /\
    init_packet_junk_size x = default (init_packet_junk_size c) (p_s1 p) /\ response_packet_junk_size x = default (response_packet_junk_size c) (p_s2 p) /\
    cookie_packet_junk_size x = default (cookie_packet_junk_size c) (p_s3 p) /\ transport_packet_junk_size x = default (transport_packet_junk_size c) (p_s4 p))
    as (X1 & X2 & X3 & X4 & X5 & X6 & X7 & X8 & X9) by (unfold x; by destruct (p_header_protection p)).
  clearbody x. pose proof (Hran _ _ O5 Hpad) as Hpd. rewrite X1 in E. destruct (default (content_padding_addition c) (p_content_padding p)) as [lo hi] eqn:Ep.
  destruct (validate _) in E; [|done]. injection E as <- <-.
  destruct key as [| | | | |[]|[]| | | | | |[]]; try done; cbn; unfold normalize_range; cbn; rewrite ?X2, ?X3, ?X4, ?X5, ?X6, ?X7, ?X8, ?X9, ?Hran by done.
  all: try match goal with |- context [_ <$> ?o] => match type of o with option (Z * Z) => by destruct o as [[]|] | _ => by destruct o end end.
  cbn in Hpd. rewrite Hpd, <- Ep. by destruct (p_content_padding p).
Qed.

(** The junk packets' three numbers, asked for and held: a count past its bound
    is none, and sizes that are no range within the bound are the defaults. *)
Definition junk_kept (asked : Z * Z * Z) (j : AmneziaPreHandshakeJunk) : Prop :=
  let '(count, lo, hi) := asked in
  packet_count j = (if 128 <? count then 0 else count) /\
  (packet_count j = 0 \/ 0 < lo <= hi /\ hi <= 1280 -> packet_size_min j = lo /\ packet_size_max j = hi) /\
  (packet_count j <> 0 -> ~ (0 < lo <= hi /\ hi <= 1280) -> packet_size_min j = 50 /\ packet_size_max j = 1000).

Lemma junk_new_kept count lo hi delay : 0 <= lo -> 0 <= hi -> junk_kept (count, lo, hi) (junk_new count lo hi delay).
Proof.
  intros Hlo Hhi. unfold junk_kept, junk_new, MAX_JUNK_PACKET_COUNT, MAX_JUNK_PACKET_SIZE, DEFAULT_JUNK_PACKET_SIZE_MIN, DEFAULT_JUNK_PACKET_SIZE_MAX.
  rewrite (Z.ltb_antisym count 128). set (c := if count <=? 128 then count else 0). assert ((if negb (count <=? 128) then 0 else count) = c) as -> by (unfold c; by destruct (count <=? 128)).
  clearbody c. destruct (Z.eqb_spec c 0) as [->|Hc]; [cbn; split_and!; (done || lia)|].
  destruct (Z.eqb_spec lo 0), (Z.eqb_spec hi 0), (Z.ltb_spec 0 lo), (Z.leb_spec lo hi), (Z.leb_spec hi 1280); cbn; split_and!; intros; (done || lia).
Qed.

(** The number asked for: the one given, or the one held. *)
Definition asked (ss : list Setting) (obf : ObfuscationRanges) (a : AmneziaConfig) (k : SizeKey) : Z :=
  match given ss (Size k) ∪ held (Size k) obf a with Some (SetSize _ v) => v | _ => 0 end.

Lemma junk_unchanged obf a : printable obf a -> junk_kept (asked [] obf a Jc, asked [] obf a Jmin, asked [] obf a Jmax) (pre_handshake_junk a).
Proof.
  intros [_ _ [_ _ Hjn Hjx _ _ _ _ _ _] _ Hj _ _ _]. cbv zeta in Hj. unfold in_u16 in *. set (j := pre_handshake_junk a) in *.
  pose proof (junk_new_kept (packet_count j) (packet_size_min j) (packet_size_max j) (packet_delay_ms j) ltac:(lia) ltac:(lia)) as Hk. rewrite Hj in Hk. exact Hk.
Qed.

Lemma merged_junk p obf c mtu obf' c' : merged p obf c mtu = Ok (obf', c') -> let j := pre_handshake_junk c in
  pre_handshake_junk c' = junk_new (default (packet_count j) (p_jc p)) (default (packet_size_min j) (p_jmin p)) (default (packet_size_max j) (p_jmax p)) (packet_delay_ms j).
Proof.
  intros E j. unfold merged in E. cbv zeta in E. destruct (obf_new _ _ _ _ _ _ _ _); [|done]. set (x := match p_header_protection p with Some _ => _ | None => _ end) in E.
  assert (pre_handshake_junk x = junk_new (default (packet_count j) (p_jc p)) (default (packet_size_min j) (p_jmin p)) (default (packet_size_max j) (p_jmax p)) (packet_delay_ms j))
    as <- by (unfold x; by destruct (p_header_protection p)).
  clearbody x. destruct (default (content_padding_addition x) _). destruct (validate _) in E; [|done]. by injection E as <- <-.
Qed.

Lemma merged_junk_kept p ss obf c mtu obf' c' : params_given p -> printable obf c -> (forall key, staged_at key p = given ss key) -> merged p obf c mtu = Ok (obf', c') ->
  junk_kept (asked ss obf c Jc, asked ss obf c Jmin, asked ss obf c Jmax) (pre_handshake_junk c').
Proof.
  intros [[Hs _ _ _] _ _ _] [_ _ Hc _ _ _ _ _] Hat E. rewrite (merged_junk _ _ _ _ _ _ E). unfold asked. rewrite <- !Hat. cbn [staged_at held].
  rewrite !List.Forall_cons_iff in Hs. destruct Hs as (G1 & G2 & G3 & _). destruct Hc as [_ _ Hjn Hjx _ _ _ _ _ _].
  assert (forall (o : option Z) v k, match (SetSize k <$> o) ∪ Some (SetSize k v) with Some (SetSize _ v) => v | _ => 0 end = default v o) as Hdef by (by intros []).
  rewrite !Hdef.
  apply junk_new_kept; [destruct (p_jmin p)|destruct (p_jmax p)]; cbn in *; unfold in_u16 in *; lia.
Qed.

(** ** Set again *)

Lemma printed_ok obf a : printable obf a -> Forall setting_ok (kept_settings (printed obf a)).
Proof.
  intros [Ho Htags Hc _ _ Hpad Ht Hk]. assert (Forall (fun x => fst x = false -> setting_ok (snd x)) (printed obf a)) as Hall.
  { pose proof (obf_in_range _ Ho) as Hr. unfold obf_ranges in *. rewrite !List.Forall_cons_iff in Hr. rewrite !List.Forall_cons_iff in Htags. rewrite !List.Forall_cons_iff in Ht.
    destruct Hr as (R1 & R2 & R3 & R4 & _), Htags as (G1 & G2 & G3 & G4 & _), Ht as (T1 & T2 & T3 & T4 & T5 & _).
    destruct Hc as [Hsz Hcn Hjn Hjx _ Hpd _ Htm Hat _]. unfold duration_ranges in Htm. rewrite !List.Forall_cons_iff in Htm. destruct Htm as (M1 & M2 & M3 & M4 & _).
    assert (forall t, range_ok t -> 0 < start t -> range_ok32 (tag_pair t) /\ 0 < start t) as Htag.
    { intros t Hok Hs. split; [|done]. unfold range_ok in Hok. unfold range_ok32, in_u32. cbn. lia. }
    assert (forall r, range_u32 r -> ordered r -> range_ok32 r) as Hran by (intros r [? ?] ?; by split_and!).
    repeat (apply List.Forall_cons; [intros _; cbn [snd setting_ok]; first [apply Htag; done|apply Hran; done|done|exact (Hsz KHandshakeInit)|exact (Hsz KHandshakeResponse)|exact (Hsz KCookieReply)|exact (Hsz KTransportData)]|]).
    apply List.Forall_nil. }
  induction Hall as [|[[] st] l Hst Hl IH]; [constructor|exact IH|]. constructor; [by apply Hst|exact IH].
Qed.

Section Roundtrip.
Context `{Base64} `{CryptoLaws} {R : Type} `{RngLaws R} `{PrefixFillers R} `{!FillerLaws R} `{ImitationLaws} `{NetworkTableLaws}.
Implicit Types (n : Node R) (hosts : nat -> Host R).

Lemma set_back k hosts obf a n : printable obf a -> device_ok k (device n) -> cfg_obf (config (device n)) = obf_default ->
  cfg_amnezia (config (device n)) = blank a -> Z.min (device_mtu (device n)) u16_max = content_padding_mtu a ->
  safely (api_set true hosts (write_awg_interface_params obf a ++ [Byte.x0a]) n) (fun r =>
    fst r = 0 /\ device_ok k (device (snd r)) /\ cfg_obf (config (device (snd r))) = obf /\ cfg_amnezia (config (device (snd r))) = a).
Proof.
  intros Hp Hd Hob Ha Hm. rewrite printed_text, settings_request by by apply printed_ok. pose proof (merged_back _ _ _ Hp (printed_stages obf a)) as Hmerged.
  rewrite staged_fold in *. set (l := printed obf a) in *. unfold awg_apply. destruct (seen (fold_left stage_unless l awg_default)) eqn:Es; cbn [negb].
  - rewrite Hob, Ha, Hm, Hmerged. apply safely_bind, safely_bind. destruct Hp as [Ho _ Hc Hv _ _ _ _].
    eapply safely_mono; [apply (device_set_obfuscation_ok k); try done; unfold validate in Hv; by destruct (check_header_protection_nonce a) as [[]|]|].
    intros [b d'] (Hd' & _ & _ & Hob' & Ha' & _). by cbn.
  - cbn. rewrite nothing_seen in Hmerged by done. rewrite Hob, Ha. split; [done|]. split; [done|].
    assert (packet_delay_ms (pre_handshake_junk a) <= MAX_JUNK_PACKET_DELAY_MS) as Hdelay.
    { pose proof (pr_junk _ _ Hp) as Hj. cbv zeta in Hj. rewrite <- Hj. unfold junk_new. destruct (if _ =? 0 then _ else _). cbn. by destruct (Z.leb_spec (packet_delay_ms (pre_handshake_junk a)) MAX_JUNK_PACKET_DELAY_MS). }
    unfold merged in Hmerged. cbv zeta in Hmerged. change (obf_new _ _ _ _ _ _ _ _) with (Ok (E := RangeError) obf_default) in Hmerged. cbv iota in Hmerged.
    cbn [awg_default p_header_protection p_content_padding p_random_trailers p_disable_cookies] in Hmerged. cbn [default from_option] in Hmerged.
    destruct (content_padding_addition _) as [lo hi] eqn:Ep in Hmerged. injection Ep as <- <-. destruct (validate _) in Hmerged; [|done]. injection Hmerged as -> <-. split; [done|].
    unfold blank, with_tunable_timers. cbn. unfold junk_new. cbn. by rewrite (proj2 (Z.leb_le _ _) Hdelay).
Qed.
End Roundtrip.
