(* ===== verification/UapiPeers.v ===== *)
(** Peer sections of a request, from their text: a section printed from its
    parts is read back to them, a request of sections commits each in turn,
    and what [get=1] prints of a peer is such a section. *)

From Stdlib Require Import String.
From stdpp Require Import gmap functions.
From S2P Require Import Prelude Budget Instant Crypto Rand Tags Packet Session RateLimiter HeaderProtection Amnezia Framing Sip Text.
From S2P Require Import Handshake Imitation Timers OpReport Tunn TunnReceive TunnTick TunnConfig Stun ReplyPolicy.
From S2P Require Import ProbeBudget ProbeReply ImitationHints AllowedIps PeerIndex Peer Device DeviceTables Listeners AddrText Uapi UapiSpec.

Local Open Scope list_scope.

(** ** Lines of a section *)

Inductive PeerSetting :=
| PRemove | PUpdateOnly | PReplaceIps | PPreshared (key : bytes) | PKeepalive (range : Z * Z) | PEndpoint (addr : SocketAddr) | PAllowedIp (ip : AllowedIP).

Definition peer_setting_name (st : PeerSetting) : string :=
  match st with
  | PRemove => "remove" | PUpdateOnly => "update_only" | PReplaceIps => "replace_allowed_ips" | PPreshared _ => "preshared_key"
  | PKeepalive _ => "persistent_keepalive_interval" | PEndpoint _ => "endpoint" | PAllowedIp _ => "allowed_ip"
  end.
Definition peer_setting_value (st : PeerSetting) : bytes :=
  match st with
  | PRemove | PUpdateOnly | PReplaceIps => str "true"
  | PPreshared key => hex_encode key
  | PKeepalive r => range_text (fst r) (snd r)
  | PEndpoint addr => print_socket_addr addr
  | PAllowedIp ip => print_ip (aip_addr ip) ++ str "/" ++ dec (aip_cidr ip)
  end.
Definition peer_setting_key (st : PeerSetting) : PeerKey :=
  match st with
  | PRemove => Remove | PUpdateOnly => UpdateOnly | PReplaceIps => ReplaceAllowedIps | PPreshared _ => PresharedKey
  | PKeepalive _ => KeepaliveInterval | PEndpoint _ => EndpointKey | PAllowedIp _ => AllowedIpKey
  end.
Definition peer_stage (s : PeerSection) (st : PeerSetting) : PeerSection :=
  match st with
  | PRemove => sec_flags true (sec_update_only s) (sec_replace_ips s) s
  | PUpdateOnly => sec_flags (sec_remove s) true (sec_replace_ips s) s
  | PReplaceIps => sec_flags (sec_remove s) (sec_update_only s) true s
  | PPreshared key => sec_values (sec_endpoint s) (sec_keepalive s) (Some key) (sec_allowed_ips s) s
  | PKeepalive r => sec_values (sec_endpoint s) (Some r) (sec_preshared_key s) (sec_allowed_ips s) s
  | PEndpoint addr => sec_values (Some addr) (sec_keepalive s) (sec_preshared_key s) (sec_allowed_ips s) s
  | PAllowedIp ip => sec_values (sec_endpoint s) (sec_keepalive s) (sec_preshared_key s) (sec_allowed_ips s ++ [ip]) s
  end.

(** A keepalive interval as the timers hold it. *)
Definition keepalive_ok (r : Z * Z) : Prop := in_u16 (fst r) /\ in_u16 (snd r) /\ (fst r = snd r \/ 0 < fst r < snd r).
Definition peer_setting_ok (st : PeerSetting) : Prop :=
  match st with
  | PRemove | PUpdateOnly | PReplaceIps => True
  | PPreshared key => len key = 32
  | PKeepalive r => keepalive_ok r
  | PEndpoint addr => ip_ok (fst addr) /\ in_u16 (snd addr)
  | PAllowedIp ip => allowed_ip_ok ip
  end.

(** ** Addresses *)

Definition ip_char (b : Init.Byte.byte) : bool := addr_char b || is_digit b || Byte.eqb b Byte.x2e.
Definition ip_text (s : bytes) : Prop := Forall (fun b => ip_char b = true) s.

Lemma digits_ip_text s : digits_only s -> ip_text s.
Proof. intros Hs. eapply Forall_impl; [exact Hs|]. intros b Hb. by destruct b. Qed.
Lemma addr_ip_text s : Forall (fun b => addr_char b = true) s -> ip_text s.
Proof. intros Hs. eapply Forall_impl; [exact Hs|]. intros b Hb. unfold ip_char. by rewrite Hb. Qed.
Lemma print_ipv4_text a : ip_text (print_ipv4 a).
Proof. apply join_chars; [done|]. apply Forall_fmap, Forall_forall. intros b _. apply digits_ip_text, dec_only. Qed.
Lemma print_ip_text ip : ip_ok ip -> ip_text (print_ip ip).
Proof.
  destruct ip as [a|a]; [intros _; apply print_ipv4_text|]. cbn. intros Ha. unfold print_ipv6. destruct (to_ipv4_mapped a) as [v4|].
  { apply Forall_app. split; [by repeat constructor|apply print_ipv4_text]. }
  destruct (segments_spec a Ha) as (_ & Hu & _). destruct (longest_zeroes _ _ _ _) as [start n]. destruct (1 <? n)%nat; [|by apply addr_ip_text, fmt_chars].
  apply Forall_app. split; [by apply addr_ip_text, fmt_chars, Forall_take|]. apply Forall_app. split; [by repeat constructor|by apply addr_ip_text, fmt_chars, Forall_drop].
Qed.
Lemma ip_value_text s : ip_text s -> value_text s /\ (Byte.x2f ∉ s) /\ match s with b :: _ => Byte.eqb b Byte.x2d | [] => false end = false.
Proof.
  intros Hs. assert (forall b, ip_char b = true -> (is_ascii b = true /\ b <> Byte.x0a) /\ b <> Byte.x2f /\ Byte.eqb b Byte.x2d = false) as Hb by (intros b; by destruct b).
  split_and!; [eapply Forall_impl; [exact Hs|]; intros b ?; by apply Hb|..].
  - intros Hin. by destruct (Hb _ (proj1 (Forall_forall _ _) Hs _ Hin)) as (_ & ? & _).
  - destruct Hs as [|b s Hb' _]; [done|]. by apply Hb.
Qed.

Lemma split_single c s : c ∉ s -> split c s = [s].
Proof. induction s as [|b s IH]; [done|]. intros [Hb Hs]%not_elem_of_cons. cbn [split]. rewrite byte_eqb_ne by congruence. by rewrite IH. Qed.
Lemma split_app c l r : c ∉ l -> split c (l ++ c :: r) = l :: split c r.
Proof.
  induction l as [|b l IH]; [intros _; cbn [app split]; by rewrite byte_eqb_refl|]. intros [Hb Hs]%not_elem_of_cons. cbn [app split]. rewrite byte_eqb_ne by congruence. by rewrite IH.
Qed.

Lemma parse_print_allowed_ip ip : allowed_ip_ok ip -> parse_allowed_ip (print_ip (aip_addr ip) ++ str "/" ++ dec (aip_cidr ip)) = Some ip.
Proof.
  destruct ip as [addr cidr]. intros [Hip Hc]. cbn [aip_addr aip_cidr] in *. destruct (ip_value_text _ (print_ip_text addr Hip)) as (_ & Hn & _).
  unfold parse_allowed_ip. cbn [str app String.list_byte_of_string map]. change (str "/" ++ dec cidr) with (Byte.x2f :: dec cidr). rewrite split_app by done.
  rewrite split_single by by apply (digits_no _ _ (dec_only cidr)). rewrite parse_print_ip by done.
  assert (0 <= cidr <= 128) as Hr by (destruct addr; cbn in Hc; lia). unfold parse_u8. rewrite parse_dec by (unfold in_u32, u32_max; lia).
  destruct addr; cbn in Hc; by rewrite (proj2 (Z.leb_le _ _)) by lia.
Qed.

Lemma keepalive_read r : keepalive_ok r -> parse_keepalive_interval (range_text (fst r) (snd r)) = Some r.
Proof.
  destruct r as [lo hi]. unfold keepalive_ok, in_u16. cbn [fst snd]. intros (Hlo & Hhi & Ho). unfold parse_keepalive_interval.
  rewrite range_text_read by (unfold range_ok32, in_u32, u16_max, u32_max in *; cbn; lia). unfold normalize_persistent_keepalive_range.
  destruct (Z.ltb_spec hi lo); [lia|]. cbv zeta. rewrite !Z.min_l by lia. destruct (Z.eqb_spec lo hi) as [->|]; [done|]. by rewrite Z.max_l by lia.
Qed.

Lemma peer_setting_name_ok st : key_text (str (peer_setting_name st)) /\ find_key PEER_KEYS (str (peer_setting_name st)) = Some (peer_setting_key st).
Proof. destruct st; (split; [by apply key_textb_ok|by vm_compute]). Qed.
Lemma peer_setting_value_text st : peer_setting_ok st -> value_text (peer_setting_value st).
Proof.
  destruct st as [| | |key|r|[ip port]|ip]; cbn [peer_setting_ok peer_setting_value]; try (intros _; by repeat constructor).
  - intros _. apply hex_encode_ascii.
  - intros _. apply range_text_value.
  - intros [Hip _]. cbn [fst] in Hip. pose proof (proj1 (ip_value_text _ (print_ip_text ip Hip))) as Hv. destruct ip as [a|a]; cbn [print_socket_addr print_ip] in *.
    + apply value_app; [done|]. apply value_app; [by repeat constructor|apply dec_value_text].
    + apply value_app; [by repeat constructor|]. apply value_app; [done|]. apply value_app; [by repeat constructor|apply dec_value_text].
  - intros [Hip _]. apply value_app; [apply (ip_value_text _ (print_ip_text _ Hip))|]. apply value_app; [by repeat constructor|apply dec_value_text].
Qed.

Lemma peer_setting_read `{Base64} st sec : peer_setting_ok st -> section_line (peer_setting_key st) (peer_setting_value st) sec = Ret (Some (peer_stage sec st)).
Proof.
  destruct st as [| | |key|r|addr|ip]; cbn [peer_setting_ok peer_setting_key peer_setting_value section_line peer_stage]; try done.
  - intros Hk. unfold with_key. by rewrite key_read.
  - intros Hr. by rewrite keepalive_read.
  - intros [Hip Hp]. by rewrite parse_print_socket_addr.
  - intros Hip. rewrite parse_print_allowed_ip by done. destruct Hip as [Hip _]. destruct (ip_value_text _ (print_ip_text _ Hip)) as (_ & _ & Hm).
    assert (match print_ip (aip_addr ip) ++ str "/" ++ dec (aip_cidr ip) with b :: _ => Byte.eqb b Byte.x2d | [] => false end = false) as ->; [|done].
    by destruct (print_ip (aip_addr ip)).
Qed.

(** ** Sections *)

Definition section_settings (s : PeerSection) : list PeerSetting :=
  (if sec_remove s then [PRemove] else []) ++ (if sec_update_only s then [PUpdateOnly] else []) ++ (if sec_replace_ips s then [PReplaceIps] else []) ++
  option_list (PPreshared <$> sec_preshared_key s) ++ option_list (PKeepalive <$> sec_keepalive s) ++ option_list (PEndpoint <$> sec_endpoint s) ++
  map PAllowedIp (sec_allowed_ips s).
Definition peer_settings_text (l : list PeerSetting) : bytes := concat (map (fun st => line (peer_setting_name st) (peer_setting_value st)) l).
Definition section_text (x : bytes * PeerSection) : bytes := line "public_key" (hex_encode (fst x)) ++ peer_settings_text (section_settings (snd x)).
Definition section_ok (x : bytes * PeerSection) : Prop := len (fst x) = 32 /\ Forall peer_setting_ok (section_settings (snd x)).

Lemma ips_staged ips s : fold_left peer_stage (map PAllowedIp ips) s = sec_values (sec_endpoint s) (sec_keepalive s) (sec_preshared_key s) (sec_allowed_ips s ++ ips) s.
Proof.
  revert s. induction ips as [|ip ips IH]; intros s; [cbn; rewrite app_nil_r; by destruct s|]. cbn [map fold_left]. rewrite IH. cbn. by rewrite <- app_assoc.
Qed.
Lemma section_staged s : fold_left peer_stage (section_settings s) section_default = s.
Proof.
  unfold section_settings. rewrite !fold_left_app, ips_staged. destruct s as [rm uo rp ep ka psk ips]. cbn. by destruct rm, uo, rp, psk, ka, ep.
Qed.

Section Requests.
Context `{Crypto} {R : Type} `{RngCore R} `{PrefixFillers R} `{ImitationEnv} `{NetworkTable} `{Base64}.
Implicit Types (d : Device R) (n : Node R) (hosts : nat -> Host R).

Lemma peer_settings_staged i hosts l rest key sec d : Forall peer_setting_ok l ->
  api_set_peer i hosts (lines (peer_settings_text l ++ rest)) key sec d = api_set_peer (i + length l) hosts (lines rest) key (fold_left peer_stage l sec) d.
Proof.
  intros Hl. revert i sec. induction Hl as [|st l Hst Hl IH]; intros i sec; [cbn; f_equal; lia|].
  cbn [peer_settings_text map concat fold_left length]. rewrite <- app_assoc. destruct (peer_setting_name_ok st) as [Hk Hf].
  destruct (line_read (peer_setting_name st) (peer_setting_value st) (peer_settings_text l ++ rest) Hk (peer_setting_value_text st Hst)) as (Hls & Hu & Hp & Hs).
  fold (peer_settings_text l). rewrite Hls. cbn [api_set_peer]. rewrite Hu, Hp. cbn [negb].
  rewrite bool_decide_eq_false_2 by (by destruct (str (peer_setting_name st))). rewrite Hs, Hf.
  replace (i + S (length l))%nat with (S i + length l)%nat by lia. rewrite <- IH.
  pose proof (peer_setting_read st sec Hst) as Hr. destruct st; cbn [peer_setting_key] in *; by rewrite Hr.
Qed.

(** Each section committed, in turn; [i] is the line the first one's settings
    start at. *)
Fixpoint commits (i : nat) hosts (xs : list (bytes * PeerSection)) d : outcome (Z * Device R) :=
  match xs with
  | [] => Ret (0, d)
  | (key, sec) :: xs =>
      let i := (i + length (section_settings sec))%nat in
      let! (r, d) := commit_peer (hosts i) key sec d in
      match r with Err code => Ret (code, d) | Ok _ => commits (S i) hosts xs d end
  end.

Lemma public_key_read key rest : len key = 32 -> let l := line "public_key" (hex_encode key) in
  lines (l ++ rest) = l :: lines rest /\ utf8_valid l = true /\ pop l <> [] /\ split_once Byte.x3d (pop l) = Some (str "public_key", hex_encode key).
Proof.
  intros Hk. cbv zeta. destruct (line_read "public_key" (hex_encode key) rest (key_textb_ok (str "public_key") eq_refl) (proj2 (hex_encode_ascii key))) as (Hl & Hu & Hp & Hs).
  split_and!; [done|done|by rewrite Hp|by rewrite Hp].
Qed.

Lemma sections_committed i hosts key sec xs d : Forall peer_setting_ok (section_settings sec) -> Forall section_ok xs ->
  api_set_peer i hosts (lines (peer_settings_text (section_settings sec) ++ concat (map section_text xs) ++ [Byte.x0a])) key section_default d =
  commits i hosts ((key, sec) :: xs) d.
Proof.
  intros Hsec Hxs. revert i key sec d Hsec. induction Hxs as [|[key' sec'] xs [Hk' Hsec'] Hxs IH]; intros i key sec d Hsec.
  - rewrite peer_settings_staged, section_staged by done. cbn. destruct (commit_peer _ _ _ _) as [[[u|c] d']|]; done.
  - rewrite peer_settings_staged, section_staged by done. cbn [map concat commits fst snd] in *. unfold section_text at 1. cbn [fst snd]. rewrite <- !app_assoc.
    destruct (public_key_read key' (peer_settings_text (section_settings sec') ++ concat (map section_text xs) ++ [Byte.x0a]) Hk') as (Hl & Hu & Hne & Hs).
    rewrite Hl. cbn [api_set_peer]. rewrite Hu. cbn [negb]. rewrite bool_decide_eq_false_2 by done. rewrite Hs.
    change (find_key PEER_KEYS (str "public_key")) with (Some NextPeer). cbv iota. destruct (commit_peer _ _ _ _) as [[[u|c] d']|]; [|done..]. cbn [obind].
    unfold with_key. rewrite key_read by done. cbn [obind]. by rewrite IH.
Qed.

Lemma sections_request hosts xs n : Forall section_ok xs ->
  api_set true hosts (concat (map section_text xs) ++ [Byte.x0a]) n = let! (status, d) := commits 1 hosts xs (device n) in Ret (status, set_device d n).
Proof.
  intros Hxs. unfold api_set. destruct Hxs as [|[key sec] xs [Hk Hsec] Hxs]; [done|]. cbn [map concat]. unfold section_text at 1. cbn [fst snd] in *. rewrite <- !app_assoc.
  destruct (public_key_read key (peer_settings_text (section_settings sec) ++ concat (map section_text xs) ++ [Byte.x0a]) Hk) as (Hl & Hu & Hne & Hs).
  rewrite Hl. cbn [set_interface]. rewrite Hu. cbn [negb]. rewrite bool_decide_eq_false_2 by done. rewrite Hs.
  change (find_key INTERFACE_KEYS (str "public_key")) with (Some NewPeer). cbv iota. unfold with_key. rewrite key_read by done. cbn [obind].
  unfold awg_apply. cbn [awg_default seen negb obind]. by rewrite sections_committed.
Qed.

(** ** What [get=1] prints of a peer *)

Definition restored (prefixes : list (IpAddr * Z)) (p : Peer R) : PeerSection := {|
  sec_remove := false; sec_update_only := false; sec_replace_ips := false; sec_endpoint := ep_addr (peer_endpoint p);
  sec_keepalive := persistent_keepalive_range (tunnel p); sec_preshared_key := peer_preshared_key p;
  sec_allowed_ips := map (fun '(a, c) => {| aip_addr := a; aip_cidr := c |}) prefixes |}.

Lemma printed_section key prefixes p : peer_config_lines key prefixes p = section_text (key, restored prefixes p).
Proof.
  unfold peer_config_lines, section_text, section_settings, restored, peer_settings_text. cbn [fst snd sec_remove sec_update_only sec_replace_ips sec_endpoint sec_keepalive sec_preshared_key sec_allowed_ips app].
  rewrite !map_app, !concat_app, map_map, map_map. f_equal. f_equal; [by destruct (peer_preshared_key p); cbn; rewrite ?app_nil_r|].
  f_equal; [by destruct (persistent_keepalive_range (tunnel p)) as [[lo hi]|]; cbn; rewrite ?app_nil_r|].
  f_equal; [by destruct (ep_addr (peer_endpoint p)); cbn; rewrite ?app_nil_r|]. f_equal. apply map_ext. by intros [a c].
Qed.

(** The prefixes of a peer, picked out of the trie. *)
Lemma prefixes_by_peer_own d l : default [] (prefixes_by_peer d !! l) = peer_allowed_ips l d.
Proof.
  unfold prefixes_by_peer, peer_allowed_ips, index_prefixes.
  assert (forall es m, default [] (foldl (fun (m : gmap nat (list (IpAddr * Z))) '(owner, addr, cidr) => <[owner := default [] (m !! owner) ++ [(addr, cidr)]]> m) m es !! l) =
    default [] (m !! l) ++ map (fun '(_, addr, cidr) => (addr, cidr)) (filter (fun e => fst (fst e) = l) es)) as Hes.
  { induction es as [|[[o a] c] es IH]; intros m; [cbn; by rewrite app_nil_r|]. cbn [foldl]. rewrite IH, filter_cons. cbn [fst].
    destruct (decide (o = l)) as [->|Hne]; [rewrite lookup_insert_eq; cbn; by rewrite <- app_assoc|by rewrite lookup_insert_ne]. }
  rewrite Hes. by rewrite lookup_empty.
Qed.

(** What [get=1] prints, written out: the peers' sections with what they own. *)
Definition peer_report (clock : nat -> Z * option Z) d (x : bytes * nat) : bytes :=
  from_option (fun p => section_text (fst x, restored (peer_allowed_ips (snd x) d) p) ++ peer_stat_lines (fst (clock (snd x))) (snd (clock (snd x))) p) []
    (store d !! snd x).

Lemma get_peers_report clock ps d : Forall (fun x => is_Some (store d !! snd x)) ps ->
  get_peers clock ps (prefixes_by_peer d) d = Ret (concat (map (peer_report clock d) ps)).
Proof.
  induction 1 as [|[key l] ps [p Hp] Hps IH]; [done|]. cbn [get_peers map concat fst snd] in *. unfold peer_report at 1. cbn [fst snd]. rewrite Hp, IH. cbn [obind from_option].
  by rewrite prefixes_by_peer_own, printed_section, <- app_assoc.
Qed.
End Requests.
