(* ===== verification/UapiTheorems.v ===== *)
(** The theorems about the configuration protocol: a request leaves a sound
    device sound, AmneziaWG parameters are applied together or not at all, a
    configuration read with [get=1] can be set again, and what becomes of a
    request that is not text. *)

From Stdlib Require Import String.
From stdpp Require Import gmap functions.
From S2P Require Import Prelude Budget Instant Crypto Rand Tags Packet Session RateLimiter HeaderProtection Amnezia Framing Sip Text.
From S2P Require Import Handshake Imitation Fillers Timers OpReport Tunn TunnReceive TunnTick TunnConfig TunnExamples Stun ReplyPolicy.
From S2P Require Import ProbeBudget ProbeReply ImitationHints AllowedIps PeerIndex Peer Device DeviceTables DeviceData DeviceSafe DeviceSystem DeviceExamples.
From S2P Require Import Listeners ListenerTheorems AddrText Uapi UapiSpec UapiSafe UapiRoundtrip UapiPeers.

Local Open Scope list_scope.

Section Theorems.
Context `{Base64} `{CryptoLaws} {R : Type} `{RngLaws R} `{PrefixFillers R} `{!FillerLaws R} `{ImitationLaws} `{NetworkTableLaws}.
Implicit Types (d : Device R) (n : Node R) (hosts : nat -> Host R).

Definition node_config n : ObfuscationRanges * AmneziaConfig := (cfg_obf (config (device n)), cfg_amnezia (config (device n))).

(** C7. A configuration request in ASCII never panics and leaves a sound
    device sound: whatever its lines say -- keys, ports, marks, AmneziaWG
    parameters, peer sections, nonsense -- and however its system calls end,
    it answers a status and the device keeps its invariant, having drawn at
    most one peer index for each line. *)
Theorem set_request_safe k writeable hosts request n : ascii_text request -> device_ok k (device n) -> 0 <= device_mtu (device n) ->
  Z.of_nat k + Z.of_nat (length (lines request)) < period ->
  exists status n' k', api_set writeable hosts request n = Ret (status, n') /\ (k' <= k + length (lines request))%nat /\ device_ok k' (device n').
Proof.
  intros Ha Hd Hm Hk. unfold api_set. destruct writeable; [|exists EIO, n, k; split; [done|]; split; [lia|done]].
  pose proof (set_interface_ok hosts (lines request) k 0 awg_default n (lines_ascii _ Ha) Hd Hm Hk params_default_ok) as Hs.
  destruct (set_interface _ _ _ _ _) as [[status n']|]; [|done]. destruct Hs as (k' & Hk' & Hd'). by exists status, n', k'.
Qed.

(** The junk packets' numbers a request asks for. *)
Definition junk_asked (ss : list Setting) n : Z * Z * Z :=
  let '(obf, a) := node_config n in (asked ss obf a Jc, asked ss obf a Jmin, asked ss obf a Jmax).

Lemma settings_applied k ss n : device_ok k (device n) -> printable (fst (node_config n)) (snd (node_config n)) -> 0 <= device_mtu (device n) -> Forall setting_ok ss ->
  NoDup (map setting_key ss) ->
  safely (awg_apply (fold_left stage ss awg_default) (device n)) (fun r => device_ok k (snd r) /\
    match fst r with
    | Err code => code = EINVAL /\ snd r = device n
    | Ok _ => printable (cfg_obf (config (snd r))) (cfg_amnezia (config (snd r))) /\ forall key, junk_key key = false ->
        held key (cfg_obf (config (snd r))) (cfg_amnezia (config (snd r))) = given ss key ∪ held key (fst (node_config n)) (snd (node_config n))
    end /\ (is_ok (fst r) = true -> junk_kept (junk_asked ss n) (pre_handshake_junk (cfg_amnezia (config (snd r)))))).
Proof.
  intros Hd Hp Hm Hss Hnd. pose proof (staged_given ss awg_default default_given Hss) as Hg. unfold awg_apply.
  assert (forall key, staged_at key (fold_left stage ss awg_default) = given ss key) as Hat.
  { intros key. rewrite staged_given_at by done. replace (staged_at key awg_default) with (@None Setting) by (by destruct key as [| | | | |[]|[]| | | | | |[]]). by destruct (given ss key). }
  destruct (seen (fold_left stage ss awg_default)) eqn:Es; cbn [negb].
  - destruct (merged _ _ _ _) as [[obf a]|e] eqn:E; [|]. 
    + assert (in_u16 (Z.min (device_mtu (device n)) u16_max)) as Hu by (unfold in_u16, u16_max; lia).
      pose proof (merged_printable _ _ _ _ _ _ Hg Hp Hu E) as Hp'. pose proof Hp' as [Ho _ Hc Hv _ _ _ _]. apply safely_bind.
      eapply safely_mono; [apply (device_set_obfuscation_ok k); try done; unfold validate in Hv; by destruct (check_header_protection_nonce a) as [[]|]|].
      intros [b d'] (Hd' & _ & _ & Hob & Ha & _). cbn in *. rewrite Hob, Ha. split; [done|]. split; [split; [done|]|].
      * intros key Hj. rewrite (merged_held _ _ _ _ _ _ key Hg Hp E Hj). by rewrite Hat.
      * intros _. exact (merged_junk_kept _ ss _ _ _ _ _ Hg Hp Hat E).
    + cbn. split; [done|]. split; [|done]. split; [|done]. unfold merged in E. destruct (obf_new _ _ _ _ _ _ _ _); [|by injection E]. destruct (default _ (p_content_padding _)). destruct (validate _); [done|by injection E].
  - assert (ss = []) as ->.
    { destruct ss as [|st ss]; [done|]. exfalso. cbn in Es.
      assert (forall ss p, seen p = true -> seen (fold_left stage ss p) = true) as Hseen by (induction ss0 as [|s ss0 IH]; intros p Hs; [done|]; apply IH; by destruct s).
      rewrite Hseen in Es; [done|by destruct st]. }
    cbn. split; [done|]. split; [split; [done|]; intros key _; by destruct (held key _ _)|]. intros _. exact (junk_unchanged _ _ Hp).
Qed.





(** C9. A configuration can be read and set again. Whatever AmneziaWG
    parameters an accepted request has put into a device, the lines [get=1]
    prints of them, sent to a device at its defaults with the same MTU, are
    accepted and give it that very configuration. *)
Theorem config_roundtrip k k' hosts hosts' ss n n1 n2 : device_ok k (device n) -> printable (fst (node_config n)) (snd (node_config n)) -> 0 <= device_mtu (device n) ->
  Forall setting_ok ss -> NoDup (map setting_key ss) -> api_set true hosts (settings_text ss ++ [Byte.x0a]) n = Ret (0, n1) ->
  device_ok k' (device n2) -> node_config n2 = (obf_default, blank (snd (node_config n1))) ->
  Z.min (device_mtu (device n2)) u16_max = content_padding_mtu (snd (node_config n1)) ->
  exists n3, api_set true hosts' (write_awg_interface_params (fst (node_config n1)) (snd (node_config n1)) ++ [Byte.x0a]) n2 = Ret (0, n3) /\
    device_ok k' (device n3) /\ node_config n3 = node_config n1.
Proof.
  intros Hd Hp Hm Hss Hnd Hset Hd2 Hc2 Hm2. rewrite settings_request in Hset by done. pose proof (settings_applied k ss n Hd Hp Hm Hss Hnd) as Ha.
  destruct (awg_apply _ _) as [[[u|code] d']|]; [|destruct Ha as (_ & (Hcode & _) & _); cbn in Hcode, Hset; by injection Hset as ?; subst|done].
  cbn in Hset. injection Hset as <-. destruct Ha as (_ & (Hp1 & _) & _). cbn in Hp1. injection Hc2 as Ho2 Ha2.
  pose proof (set_back k' hosts' _ _ n2 Hp1 Hd2 Ho2 Ha2 Hm2) as Hs. cbn [node_config fst snd device set_device].
  destruct (api_set _ _ _ n2) as [[status n3]|]; [|done]. destruct Hs as (Hst & Hd3 & Ho3 & Ha3). cbn in *. subst status. exists n3. split_and!; [done|done|].
  unfold node_config. cbn. congruence.
Qed.

(** C10. Peer sections are read exactly. A request made of the text of peer
    sections commits each of them in turn -- with every flag, key, interval,
    endpoint and prefix it was written from, none of them leaking into the
    next -- and stops at the first the device refuses. What [get=1] prints of
    a peer's configuration is the text of such a section, with all the
    prefixes that are the peer's in the routing table and no others. *)
Theorem peer_sections_exact hosts xs n : Forall section_ok xs ->
  api_set true hosts (concat (map section_text xs) ++ [Byte.x0a]) n = (let! (status, d) := commits 1 hosts xs (device n) in Ret (status, set_device d n)) /\
  forall l key (p : Peer R), peer_config_lines key (default [] (prefixes_by_peer (device n) !! l)) p = section_text (key, restored (peer_allowed_ips l (device n)) p).
Proof. intros Hxs. split; [by apply sections_request|]. intros l key p. by rewrite prefixes_by_peer_own, printed_section. Qed.

(** [get=1] answers on every sound device: the interface's key, port,
    mark and AmneziaWG parameters where they are set, and for each peer of the
    table, once, the section that would restore it with the prefixes it owns,
    and its statistics. *)
Theorem get_reports k clock n : device_ok k (device n) ->
  api_get clock n = Ret (
    match key_pair (device n) with Some (_, public) => line "own_public_key" (hex_encode public) | None => [] end ++
    (if listen_port n =? 0 then [] else line "listen_port" (dec (listen_port n))) ++
    match fwmark n with Some mark => line "fwmark" (dec mark) | None => [] end ++
    settings_text (kept_settings (printed (fst (node_config n)) (snd (node_config n)))) ++
    concat (map (peer_report clock (device n)) (map_to_list (peers (device n))))).
Proof.
  intros Hd. unfold api_get. rewrite get_peers_report.
  - cbn [obind]. rewrite printed_text. by destruct (key_pair (device n)) as [[]|], (fwmark n).
  - apply Forall_forall. intros [key l] Hin%elem_of_map_to_list. destruct (do_peers _ _ Hd _ _ Hin) as (p & Hp & _). by exists p.
Qed.

(** ** Requests that are not text *)

(** C32. A line that is not UTF-8 ends a request as if it had succeeded. The
    parameters staged before it are not applied, the peer section it is in is
    not committed, what follows is not read, and the status is 0. *)
Theorem unreadable_line_drops hosts ss x l rest n : Forall setting_ok ss -> section_ok x -> (Byte.x0a ∉ l) -> utf8_valid (l ++ [Byte.x0a]) = false ->
  api_set true hosts (settings_text ss ++ l ++ Byte.x0a :: rest) n = Ret (0, n) /\
  api_set true hosts (section_text x ++ l ++ Byte.x0a :: rest) n = Ret (0, n).
Proof.
  intros Hss [Hk Hsec] Hl Hu. unfold api_set. split.
  - rewrite settings_staged by done. rewrite lines_cons by done. cbn [set_interface]. by rewrite Hu.
  - unfold section_text. rewrite <- app_assoc. destruct (public_key_read (fst x) (peer_settings_text (section_settings (snd x)) ++ l ++ Byte.x0a :: rest) Hk) as (Hls & Hut & Hne & Hs).
    rewrite Hls. cbn [set_interface]. rewrite Hut. cbn [negb]. rewrite bool_decide_eq_false_2 by done. rewrite Hs.
    change (find_key INTERFACE_KEYS (str "public_key")) with (Some NewPeer). cbv iota. unfold with_key. rewrite key_read by done. cbn [obind].
    unfold awg_apply. cbn [awg_default seen negb obind]. rewrite peer_settings_staged by done. rewrite lines_cons by done. cbn [api_set_peer]. rewrite Hu. cbn. by destruct n.
Qed.

(** A line that carries such a key. *)
Lemma key_line_request name s hosts more n : name ∈ ["private_key"; "public_key"; "header_protection_key"]%string -> Byte.x0a ∉ s -> utf8_valid (s ++ [Byte.x0a]) = true ->
  (key_from_str s = Panic -> api_set true hosts (line name s ++ more) n = Panic) /\
  (key_from_str s = Ret None -> api_set true hosts (line name s ++ more) n = Ret (EINVAL, n)).
Proof.
  intros Hname Hn Hu. assert (key_text (str name) /\ exists key, find_key INTERFACE_KEYS (str name) = Some key /\ key ∈ [PrivateKey; NewPeer; HeaderProtectionKey]) as (Hk & key & Hf & Hkey).
  { rewrite !elem_of_cons, elem_of_nil in Hname. destruct Hname as [->|[->|[->|[]]]]; (split; [by apply key_textb_ok|eexists; split; [by vm_compute|]]); rewrite !elem_of_cons; auto. }
  destruct (text_line_read (str name) s more Hk Hn Hu) as (Hl & Hul & Hp & Hne & Hs).
  assert (line name s ++ more = (str name ++ Byte.x3d :: s) ++ Byte.x0a :: more) as -> by (unfold line; by rewrite <- !app_assoc).
  unfold api_set. rewrite Hl. cbn [set_interface]. rewrite Hul. cbn [negb]. rewrite Hp, bool_decide_eq_false_2 by done. rewrite Hs, Hf.
  rewrite !elem_of_cons, elem_of_nil in Hkey. destruct Hkey as [->|[->|[->|[]]]]; cbn [node_line awg_line]; unfold with_key; (split; intros ->; done).
Qed.
Lemma preshared_line_request x s hosts more n : section_ok x -> Byte.x0a ∉ s -> utf8_valid (s ++ [Byte.x0a]) = true ->
  (key_from_str s = Panic -> api_set true hosts (section_text x ++ line "preshared_key" s ++ more) n = Panic) /\
  (key_from_str s = Ret None -> api_set true hosts (section_text x ++ line "preshared_key" s ++ more) n = Ret (EINVAL, n)).
Proof.
  intros [Hk Hsec] Hn Hu. destruct (text_line_read (str "preshared_key") s more (key_textb_ok (str "preshared_key") eq_refl) Hn Hu) as (Hl & Hul & Hp & Hne & Hs).
  assert (line "preshared_key" s ++ more = (str "preshared_key" ++ Byte.x3d :: s) ++ Byte.x0a :: more) as -> by (unfold line; by rewrite <- !app_assoc).
  unfold api_set, section_text. rewrite <- app_assoc. set (tail := (str "preshared_key" ++ Byte.x3d :: s) ++ Byte.x0a :: more) in *.
  destruct (public_key_read (fst x) (peer_settings_text (section_settings (snd x)) ++ tail) Hk) as (Hls & Hut & Hnk & Hsk).
  rewrite Hls. cbn [set_interface]. rewrite Hut. cbn [negb]. rewrite bool_decide_eq_false_2 by done. rewrite Hsk.
  change (find_key INTERFACE_KEYS (str "public_key")) with (Some NewPeer). cbv iota. unfold with_key. rewrite key_read by done. cbn [obind].
  unfold awg_apply. cbn [awg_default seen negb obind]. rewrite peer_settings_staged by done. rewrite Hl. cbn [api_set_peer]. rewrite Hul. cbn [negb].
  rewrite Hp, bool_decide_eq_false_2 by done. rewrite Hs. change (find_key PEER_KEYS (str "preshared_key")) with (Some PresharedKey). cbv iota. cbn [section_line]. unfold with_key.
  split; intros ->; [done|]. cbn. by destruct n.
Qed.

(** C33. How a key of 64 bytes is read, and two gaps in it. It gives a key
    exactly when each pair of bytes is two hexadecimal digits, or a plus and a
    digit: the digits are read by a parser that takes a sign, so a plus in the
    first place of a pair is accepted for a zero and gives the same key (in the
    second place it is refused). It panics exactly when, after pairs that can
    be read, the end of the next pair falls inside a character: the slice is
    taken by bytes after only the length in bytes was checked. Any other text
    is an error. So a request with such a line, although it is valid text,
    panics for each of the four parameters that are keys, where a key with any
    other fault is answered EINVAL. *)
Theorem key_text_gaps hosts s more n x : len s = 64 -> Byte.x0a ∉ s -> utf8_valid (s ++ [Byte.x0a]) = true -> section_ok x ->
  (forall key, key_from_str s = Ret (Some key) <-> spells s key) /\
  (key_from_str s = Panic <-> cut_key s) /\
  (forall pre y post key, s = pre ++ Byte.x2b :: y :: post -> Nat.Even (length pre) -> key_from_str s = Ret (Some key) ->
    key_from_str (pre ++ Byte.x30 :: y :: post) = Ret (Some key)) /\
  (forall name, name ∈ ["private_key"; "public_key"; "header_protection_key"]%string ->
    (cut_key s -> api_set true hosts (line name s ++ more) n = Panic) /\
    (~ cut_key s -> (forall key, ~ spells s key) -> api_set true hosts (line name s ++ more) n = Ret (EINVAL, n))) /\
  (cut_key s -> api_set true hosts (section_text x ++ line "preshared_key" s ++ more) n = Panic) /\
  (~ cut_key s -> (forall key, ~ spells s key) -> api_set true hosts (section_text x ++ line "preshared_key" s ++ more) n = Ret (EINVAL, n)).
Proof.
  intros Hs Hn Hu Hx.
  assert (forall s' key, len s' = 64 -> key_from_str s' = Ret (Some key) <-> spells s' key) as Hspells
    by (intros s' key Hs'; rewrite key_pairs by done; apply read_pairs_spells; rewrite Hs'; by exists 32).
  assert (key_from_str s = Panic <-> cut_key s) as Hcut by (rewrite key_pairs by done; apply read_pairs_cut).
  assert (~ cut_key s -> (forall key, ~ spells s key) -> key_from_str s = Ret None) as Hnone.
  { intros Hc Hk. destruct (key_from_str s) as [[key|]|] eqn:E; [|done|by destruct Hc; apply Hcut]. by destruct (Hk key); apply Hspells. }
  split; [intros key; by apply Hspells|]. split; [done|]. split; [|split].
  - intros pre y post key -> He Hk. assert (len (pre ++ Byte.x30 :: y :: post) = 64) by (rewrite len_app, !len_cons in *; lia).
    apply Hspells; [done|]. apply spells_plus; [done|]. by apply Hspells.
  - intros name Hname. destruct (key_line_request name s hosts more n Hname Hn Hu) as [Hp Hi]. split; [by intros ?%Hcut%Hp|]. intros. by apply Hi, Hnone.
  - destruct (preshared_line_request x s hosts more n Hx Hn Hu) as [Hp Hi]. split; [by intros ?%Hcut%Hp|]. intros. by apply Hi, Hnone.
Qed.
End Theorems.

(** ** At concrete inputs *)

Import Toy CounterRng ProtocolFillers SampleEnv ListTable.

#[local] Instance ex_base64 : Base64 := {| base64_decode := fun _ => None |}.

Definition ex_host (i : nat) : Host Z := {|
  host_now := 60000000; host_limiter := seed_limiter (ex_seed 7); host_tunn := ex_seed (9 + Z.of_nat i); host_bind := ex_bind; host_marks := ex_mark_calls |}.
Definition ex_fresh : Node Z := ex_node (dev ex_loop).
Definition ex_settings : list Setting := [SetSize S1 20; SetHeader H1 (100, 200); SetTrailers false; SetTimer RekeyAfterTime (60, 80)].
Definition ex_nl : bytes := [Byte.x0a].

Lemma ex_fresh_ok : device_ok 0 (device ex_fresh).
Proof. destruct (ex_device_ok 0 0 ex_loop) as (k & Hk & Hd); [constructor|]. by assert (k = 0%nat) as -> by lia. Qed.
Lemma ex_fresh_printable : printable (fst (node_config ex_fresh)) (snd (node_config ex_fresh)).
Proof.
  split; [apply obf_default_ok|by repeat constructor|apply config_okb_ok; by vm_compute|by vm_compute|by vm_compute|by vm_compute|by repeat constructor|by vm_compute].
Qed.
Lemma ex_settings_ok : Forall setting_ok ex_settings.
Proof. repeat constructor; by vm_compute. Qed.
Lemma ex_settings_once : NoDup (map setting_key ex_settings).
Proof. apply (bool_decide_unpack _). by vm_compute. Qed.

Definition ex_request : bytes := line "private_key" (hex_encode (ex_private 9)) ++ line "listen_port" (str "40000") ++ line "fwmark" (str "9") ++
  line "jc" (str "4") ++ section_text (ex_peer_key, section_default) ++ ex_nl.

Lemma set_request_safe_witness : exists status n' k', api_set true ex_host ex_request (ex_node (dev ex_loop_heard)) = Ret (status, n') /\ device_ok k' (device n').
Proof.
  destruct (ex_device_ok _ _ _ ex_runs_heard) as (k & Hk & Hd).
  destruct (set_request_safe k true ex_host ex_request (ex_node (dev ex_loop_heard))) as (status & n' & k' & E & _ & Hd').
  - apply List.Forall_forall. intros b Hb. apply (proj1 (forallb_forall is_ascii ex_request)); [by vm_compute|done].
  - exact Hd.
  - vm_compute. congruence.
  - assert (length (lines ex_request) = 6%nat) as -> by by vm_compute. unfold period. lia.
  - exists status, n', k'. split; [exact E|exact Hd'].
Defined.



(** What the request makes of the fresh device, and a device at its defaults. *)
Definition ex_configured : Node Z := match api_set true ex_host (settings_text ex_settings ++ [Byte.x0a]) ex_fresh with Ret (_, n) => n | Panic => ex_fresh end.
Definition ex_blank : Node Z := ex_node (device_new ex_lfsr 1420 {|
  use_connected_socket := true; cfg_obf := obf_default; cfg_amnezia := blank (snd (node_config ex_configured)); probe_reply_bytes_per_sec := None |}).

Lemma ex_blank_ok : device_ok 0 (device ex_blank).
Proof.
  assert (loop_ok 0 0 (device_start ex_lfsr 1420 {| use_connected_socket := true; cfg_obf := obf_default; cfg_amnezia := blank (snd (node_config ex_configured));
    probe_reply_bytes_per_sec := None |} ex_thread)) as [(k & Hk & Hd) _ _].
  { apply device_new_ok; [by apply (lfsr_default_at ex_draws)| |done]. split; [apply obf_default_ok|]. split; [apply config_okb_ok; by vm_compute|by vm_compute]. }
  assert (k = 0%nat) as -> by lia. exact Hd.
Qed.

Lemma ex_accepted : api_set true ex_host (settings_text ex_settings ++ [Byte.x0a]) ex_fresh = Ret (0, ex_configured).
Proof.
  unfold ex_configured. assert (match api_set true ex_host (settings_text ex_settings ++ [Byte.x0a]) ex_fresh with Ret (s, _) => s | Panic => 1 end = 0) as E by by vm_compute.
  destruct (api_set _ _ _ _) as [[s n]|]; [by rewrite <- E|discriminate].
Qed.
Lemma ex_blank_config : node_config ex_blank = (obf_default, blank (snd (node_config ex_configured))).
Proof. vm_compute. reflexivity. Qed.
Lemma ex_blank_mtu : Z.min (device_mtu (device ex_blank)) u16_max = content_padding_mtu (snd (node_config ex_configured)).
Proof. vm_compute. reflexivity. Qed.

Lemma config_roundtrip_witness : node_config ex_configured <> node_config ex_fresh /\
  exists n3, api_set true ex_host (write_awg_interface_params (fst (node_config ex_configured)) (snd (node_config ex_configured)) ++ [Byte.x0a]) ex_blank = Ret (0, n3) /\
    node_config n3 = node_config ex_configured.
Proof.
  split; [vm_compute; congruence|].
  destruct (config_roundtrip 0 0 ex_host ex_host ex_settings ex_fresh ex_configured ex_blank ex_fresh_ok ex_fresh_printable ltac:(vm_compute; congruence) ex_settings_ok ex_settings_once
    ex_accepted ex_blank_ok ex_blank_config ex_blank_mtu) as (n3 & E & _ & Hc).
  exists n3. split; [exact E|exact Hc].
Defined.

Definition ex_sections : list (bytes * PeerSection) :=
  [(ex_peer_key, {| sec_remove := false; sec_update_only := false; sec_replace_ips := true; sec_endpoint := Some ex_from; sec_keepalive := Some (20, 30);
      sec_preshared_key := Some (ex_private 3); sec_allowed_ips := [{| aip_addr := fst ex_net; aip_cidr := snd ex_net |}] |});
   (x25519_public (ex_private 6), section_default)].
Lemma ex_sections_ok : Forall section_ok ex_sections.
Proof.
  constructor; [|by repeat constructor]. split; [reflexivity|]. cbn [snd section_settings sec_remove sec_update_only sec_replace_ips sec_endpoint sec_keepalive sec_preshared_key
    sec_allowed_ips app option_list fmap option_fmap option_map map].
  repeat (apply List.Forall_cons; [cbn; first [done|split_and!; unfold in_u16, u16_max; cbn; lia]|]). constructor.
Qed.

Lemma peer_sections_exact_witness :
  api_set true ex_host (concat (map section_text ex_sections) ++ [Byte.x0a]) (ex_node (dev ex_loop_heard)) =
    (let! (status, d) := commits 1 ex_host ex_sections (dev ex_loop_heard) in Ret (status, set_device d (ex_node (dev ex_loop_heard)))) /\
  match commits 1 ex_host ex_sections (dev ex_loop_heard) with Ret (status, d) => (status, size (peers d)) | Panic => (1, 0%nat) end = (0, 2%nat).
Proof. split; [exact (proj1 (peer_sections_exact ex_host ex_sections (ex_node (dev ex_loop_heard)) ex_sections_ok))|vm_compute; reflexivity]. Defined.

Lemma get_reports_witness : exists text, api_get (fun _ => (60000000, Some 1)) (ex_node (dev ex_loop_heard)) = Ret text /\ text <> [].
Proof.
  destruct (ex_device_ok _ _ _ ex_runs_heard) as (k & _ & Hd). eexists. split; [exact (get_reports k (fun _ => (60000000, Some 1)) (ex_node (dev ex_loop_heard)) Hd)|].
  vm_compute. discriminate.
Defined.

Lemma unreadable_line_drops_witness : api_set true ex_host (settings_text ex_settings ++ [Byte.xff] ++ Byte.x0a :: ex_nl) ex_fresh = Ret (0, ex_fresh).
Proof.
  apply (unreadable_line_drops ex_host ex_settings (ex_peer_key, section_default) [Byte.xff] ex_nl ex_fresh); [apply ex_settings_ok|by repeat constructor| |reflexivity].
  intros Hin%list_elem_of_singleton. discriminate.
Defined.

(** A digit and then a two-byte character; a digit, another and the same
    character; and a key with a plus. *)
Definition ex_cut_key : bytes := [Byte.x61; Byte.xc3; Byte.xa9] ++ replicate 61 Byte.x61.
Definition ex_wide_key : bytes := [Byte.x61; Byte.x61; Byte.xc3; Byte.xa9] ++ replicate 60 Byte.x61.
Lemma ex_keys_lines : (Byte.x0a ∉ ex_cut_key) /\ (Byte.x0a ∉ ex_wide_key).
Proof. split; apply (bool_decide_unpack _); by vm_compute. Qed.

Lemma key_text_gaps_witness :
  api_set true ex_host (line "private_key" ex_cut_key ++ ex_nl) ex_fresh = Panic /\
  api_set true ex_host (line "private_key" ex_wide_key ++ ex_nl) ex_fresh = Ret (EINVAL, ex_fresh).
Proof.
  destruct ex_keys_lines as [Hn1 Hn2]. assert (section_ok (ex_peer_key, section_default)) as Hx by by repeat constructor. split.
  - destruct (key_text_gaps ex_host ex_cut_key ex_nl ex_fresh _ eq_refl Hn1 eq_refl Hx) as (_ & Hcut & _ & Hline & _).
    apply (Hline "private_key"%string); [by left|]. apply Hcut. vm_compute. reflexivity.
  - destruct (key_text_gaps ex_host ex_wide_key ex_nl ex_fresh _ eq_refl Hn2 eq_refl Hx) as (Hsp & Hcut & _ & Hline & _).
    assert (key_from_str ex_wide_key = Ret None) as E by (vm_compute; reflexivity). rewrite E in Hcut.
    apply (Hline "private_key"%string); [by left|intros ?%Hcut; discriminate|]. intros key Hk%Hsp. rewrite E in Hk. discriminate.
Defined.
